(* ===== verification/_CoqProject ===== *)
-Q . S2P
Prelude.v
Json.v
Order.v
Domain.v
Schemas.v
Profiles.v
Models.v
Storage.v
Service.v
Spaces.v
Records.v
Managed.v
Coordination.v
Transfers.v
Uploads.v
System.v
Logic.v
Accounting.v
Lifecycle.v
Consistency.v
TransferConsistency.v
Fencing.v
Provenance.v
AttemptHistory.v
RecordHistory.v
Monotone.v
EventLog.v
Refinement.v
Scenario.v
Guarantees.v
Answers.v
Rounds.v
Bounds.v
Documents.v
Placement.v
JobSpec.v
NodeAgent.v
JobSpecTheory.v
Recovery.v
JobModels.v
Retention.v
BlobBudget.v
Scheduler.v
Gang.v
Controller.v
Fence.v
Views.v
Commands.v
Submission.v
JobMachine.v
SchedulerLogic.v
SchedulerTheory.v
PassTheory.v
Devices.v
RetentionTheory.v
JobScenario.v
JobGuarantees.v
JobRefinement.v
JobAdmission.v
ManagerSystem.v
Flows.v
ManagerScenario.v
LifecycleGuarantees.v
FlowTheory.v
FlowGuarantees.v
Protocol.v
ProtocolTheory.v
Checkpoint.v
CheckpointTheory.v
Listener.v
ClientListener.v
ListenerTheory.v
ClientListenerTheory.v
ListenerGuarantees.v
NodeLogic.v
NodeTheory.v
NodeSystem.v
NodeScenario.v
NodeGuarantees.v
NodeWatchdog.v
