(* ===== verification/Prelude.v ===== *)
(** * hf_fl: a verification development of the HF2L federated-learning system

    HF2L trains models across organisations that keep their data.  Three parts
    of it keep state that must not go wrong, and are modelled here from their
    Python sources: the exchange server ([src/packages/exchange]), where
    participants publish immutable records and references move between them;
    the job manager ([src/packages/jobs]), which admits gangs of containers to
    GPU pools and fences, retries and ends them, with the agents of its nodes,
    which keep the ledger of what runs where; and the federated-learning
    application ([src/hf2l]), whose listeners train and submit revisions.  They
    meet at their interfaces: jobs hold workload grants of exchange spaces, and
    listeners publish to a store.

    ** Conventions

    A transaction is a function of a small state-and-error monad, [M], declared
    in this file, that returns a result or an exception ([exn]) with the state it leaves;
    a session that fails is rolled back by the functions that open it
    ([Models.atomically], [JobModels.job_transaction]).  Tables are finite maps
    from keys to records; a table is named by a [Tab], and rows are added under
    their unique columns.  JSON values are [Json.json], Python integers are [Z],
    strings are [string], times are microseconds in [Z].  Definitions keep the names of
    the methods they translate.  What the sources call but do not contain is a
    parameter: the hash, the printing of floats, Unicode tables, the clock and
    the identifiers ([Domain.Platform], [JobSpec.Unicode]), the parsing of dates
    ([Views.Calendar]), JSON schemas, the object store, the store of models,
    the training plugin, the planner of storage.  Scenario files give each parameter a
    concrete function, and run the definitions.

    ** The exchange server

    - [Domain], [Schemas], [Profiles]: vocabulary.py, domain.py, config.py,
      schemas.py, profiles.py -- values, settings, bounded JSON, attachment
      paths, the coordination profiles of a space.
    - [Models]: models.py and database.py -- the tables and sessions.
    - [Service]: the transactions of application.py: authorization,
      idempotency keys, events.  [Spaces], [Records], [Managed],
      [Coordination]: its commands on spaces and policies, records and their
      attachments, managed spaces and workload grants, references, acquisitions
      and the event feed.
    - [Storage], [Transfers], [Uploads]: storage.py, transfers.py,
      managed_transfers.py, worker.py -- parts, the S3 store, attempts to move
      bytes with their leases, the worker, cleanup and repair.
    - [System]: all of these as one transition system over the database.

    Theorems: accounts and life cycles are invariant ([Accounting], [Lifecycle],
    [Consistency], [TransferConsistency]; C1 to C3, C12 to C14);
    requests fail atomically, retries are safe, authority is checked in every
    transaction and fenced for good (C4 to C8); what only grows or only moves
    forward (C17, C18; [Monotone], [RecordHistory], [AttemptHistory],
    [EventLog]); the selection and completion of rounds (C10, C11);
    the interleaved transfer service refines the atomic system ([Refinement],
    C23); parts, depths, canonical bytes and paths ([Bounds], [Documents]; C24,
    C29); and a run in which a reclamation is never finished (in [Guarantees], C30).

    ** The job manager

    - [JobSpec], [Recovery]: domain.py, reconciliation.py, pagination.py -- the
      validation of job specifications, the evidence a retry needs.
    - [JobModels]: models.py, database.py, resources.py -- the tables.
    - [Placement], [Scheduler], [Gang]: scheduler.py -- exclusive GPU placement,
      the ledgers of a pass, admission of whole gangs.
    - [Retention], [BlobBudget]: retention.py, blob_budget.py -- charges,
      reservations, logs, collections, expiry, the prepaid object budget.
    - [Controller], [Fence]: controller.py -- the claims of the outbox, the
      phases of a job, failure, completion, retry and end, the reports of
      components, the ledger of operations, the proof that an attempt never
      started, the records of a fence, release and cleanup; one definition
      per transaction.
    - [Flows]: the rest of controller.py -- dispatch with its builds, the fence
      of an attempt, release and collection with the artifacts it stores,
      cleanup, the monitor, the renewals, claims and one pass ([run_once]).  A
      flow is a sequence of those transactions and of calls of the executor,
      the provisioner and the participants' service, which are interfaces;
      before each the process may die and everything else runs, a parameter.
    - [Commands], [Submission], [Views]: application.py, authorization.py --
      commands of members under roles, keys and versions; the creation of
      a job; the view a command answers with.
    - [JobMachine], [ManagerSystem]: the abstract lifecycle (job states, epochs,
      attempts, reservations, devices) and the manager as a transition system
      of all its transactions.

    Theorems: placement is exclusive, exact and complete (C31); passes never
    overcommit, admit whole gangs, and pass nobody by more than three times
    ([SchedulerLogic], [SchedulerTheory], [PassTheory], [Devices],
    [JobGuarantees];
    C32 to C34); accepted specifications are stable (C36); the retention ledger
    balances and log budgets hold ([RetentionTheory],
    C37); every transaction of the manager refines the abstract lifecycle ([JobRefinement],
    [JobAdmission], C9), from which follow one attempt at a time, resources that outlive the
    execution that uses them, final outcomes and powerless stale reports
    ([LifecycleGuarantees], C19 to C22).  It also states two behaviours
    the code does not mean.

    The flows are related to that machine by what a controller may claim:
    [FlowTheory] says when a change of the database is honest (a stop, a release
    or a revocation is recorded only with evidence for that execution, epochs
    are new) and proves it of every transaction; [FlowGuarantees] is a program
    logic ([ens], [safe]) for the flows among others that do the same.  From
    these: a pass only takes honest steps of the manager (C28), and while a
    reservation of a job is held, every execution of the job under another
    epoch is known to be stopped and released (C15).  [ManagerScenario] runs a
    job through a crash in its fence to its end, and shows that a fence that
    meets a time-out is never tried again.

    ** The node agent

    - [NodeAgent]: node_agent.py, and the data of executor.py -- the durable
      ledger of executions, fences and shared inputs, the leases, the guards,
      and every operation of the agent.  Its threads share the ledger: between
      two steps that hold [self.lock] the model runs the other threads, which
      are a parameter, and the process may die; the executor is an interface
      whose calls and answers are recorded.
    - [NodeSystem]: requests as one transition system; other threads that run
      the same requests as soon as the guards they take are free.

    Theorems: [NodeLogic] states the invariant of the ledger and the recorded
    history, what other threads keep ([Neighbours]) and what the holder of a
    guard may rely on, and a small program logic ([ensures]) in which
    [NodeTheory] proves a rule for each operation, for any executor answers,
    any interleaving and any death.  From these: effects at the executor follow
    the confirmations they need (C16), the node is never overcommitted (C26),
    guards protect rows (C38), expired leases stay expired, and on a quiet
    node a sweep of the watchdog ends with every expired execution settled
    ([NodeWatchdog], C27).  [NodeScenario] shows an interleaving of the watchdog
    with a release after which a component is lost.

    ** The federated-learning application

    - [Protocol]: core/protocol.py, common/fs.py -- typed readers of manifests,
      round records, client contexts and algorithms.
    - [Checkpoint]: checkpoint/safetensors.py, layout.py.
    - [Listener], [ClientListener]: listener/engine.py, client.py, workflow.py --
      the saved state, locks, the polling loop and its stages, with a process
      that may die between any two effects.

    Theorems: readers fail only with their own error and bound what they accept
    ([ProtocolTheory], C40); tensors divide a checkpoint exactly
    ([CheckpointTheory], C25); no revision is submitted twice and saved
    state reopens ([ListenerTheory], [ClientListenerTheory],
    [ListenerGuarantees]; C35, C39).

    ** Bounds and fuel

    The augmenting-path search of [Placement] has as fuel the number of known devices plus
    one: each level of the search marks a device as seen, so the fuel
    is never used up (C31 states completeness).  The depth checks of documents
    recurse on the levels left, 17 and counting down, and accept exactly what
    the source accepts ([Documents.metadata_bounded]).  The loop of a listener,
    which may poll for ever, runs for a given number of polls and says [None]
    when it did not end; its theorems hold for any number.  Python's limit on
    recursion is not modelled.

    ** Not modelled

    HTTP, token verification and the command lines; threads, containers,
    sockets, Git and file copies around jobs ([provisioning.py], the Docker and
    XFS commands of [executor.py], the endpoints of [node_agent.py], [remote_node.py], [composition.py] and their like), which are input and
    output around the manager's tables; the streams of logs that the controller
    reads between its steps; participants' installations and certificates; the listings with
    signed cursors, catalogs and pools of application.py; tensor arithmetic and
    model hubs; the earlier exchange server, the Go ports, examples and
    deployment.  In [ManagerSystem] the services that are not modelled may
    change everything but the columns of the lifecycle, which no file of theirs
    assigns.

    ** Plan

    Next: the owner's listener and the runner of rounds, the weights of
    averaging, the resource ledger of the provisioner, streams of logs, signed
    cursors and listings. *)

From stdpp Require Import base gmap strings list fin_maps sorting pretty.
From Stdlib Require Import ZArith Lia Bool.

#[global] Set Default Goal Selector "!".

Declare Scope py_scope.
Delimit Scope py_scope with py.

(** ** Functional record update

    [r <| field := v |>] and [r <| field ::= f |>] for every record that has an
    [Eta] instance (its eta expansion, one line per record).  The updater is
    found by instance search: it rebuilds the record from its projections with
    one of them abstracted, so every projection of an update computes. *)
Class Eta (R : Type) := eta : R -> R.
Class Update {R T : Type} (proj : R -> T) := update : (T -> T) -> R -> R.
Global Hint Mode Update - - ! : typeclass_instances.

Ltac derive_update :=
  lazymatch goal with
  | |- @Update ?R ?T ?proj =>
      let body := constr:(fun r : R =>
        ltac:(let e := eval cbv [eta] in (@eta R _ r) in
              lazymatch e with
              | ?h _ => let e' := eval unfold h in e in
                        let e' := eval cbv beta in e' in exact e'
              end)) in
      let g := constr:(fun (f : T -> T) (r : R) =>
        ltac:(let e := eval cbv beta in (body r) in
              let p := eval pattern (proj r) in e in
              lazymatch p with
              | ?c _ => let t := eval cbv beta in (c (f (proj r))) in exact t
              end)) in
      let g := eval cbv beta in g in
      exact g
  end.
Global Hint Extern 1 (Update _) => derive_update : typeclass_instances.

Notation "r <| f ::= g |>" := (update (proj := f) g r)
  (at level 1, f constr at level 0, left associativity, format "r  <| f  ::=  g |>") : py_scope.
Notation "r <| f := v |>" := (update (proj := f) (fun _ => v) r)
  (at level 1, f constr at level 0, left associativity, format "r  <| f  :=  v |>") : py_scope.
Open Scope py_scope.
Open Scope Z_scope.

(** ** Exceptions

    What a Python statement of the modelled modules can raise.  [ExchangeError]
    is [hf2l_exchange.domain.Error] and [hf2l_jobs.domain.Error] (status and
    stable code; the human-readable detail is carried too);
    [StorageFailure] is the storage port's failure and [ClientError] the object
    store client's; [ProtocolError], [ListenerStateError], [UncertainOperation],
    [PublicationUncertain] and [ClaimInactive] are those of the [hf2l] package;
    [ExecutorRefused] and [UncertainExecution] are the executor's; the others
    are the built-in exceptions and the database's constraint violation.
    [Killed] is the end of the process, which no handler sees. *)
Inductive exn :=
  | ExchangeError (status : Z) (code : string) (detail : string)
  | StorageFailure (code : string) (retryable uncertain : bool)
  | ClientError (code : string)
  | IntegrityError
  | ValueError (message : string)
  | RuntimeError (message : string)
  | KeyError
  | TypeError
  | AttributeError
  | OSError
  | ProtocolError (message : string)
  | ListenerStateError (message : string)
  | UncertainOperation (message : string)
  | PublicationUncertain
  | ClaimInactive
  | ExecutorRefused (code : string)
  | UncertainExecution
  | TimeoutError
  | ConnectionError
  | OverflowError
  | Killed.

#[global] Instance exn_eq_dec : EqDecision exn.
Proof. solve_decision. Defined.

(** [isinstance(exc, ValueError)] *)
Definition is_value_error (e : exn) : bool :=
  match e with
  | ValueError _ | ProtocolError _ | ListenerStateError _ | ClaimInactive => true
  | _ => false
  end.

(** [isinstance(exc, Exception)]: the end of the process is not an exception
    that a handler sees. *)
Definition is_exception (e : exn) : bool := match e with Killed => false | _ => true end.

Inductive result (A : Type) :=
  | Ok (a : A)
  | Err (e : exn).
Arguments Ok {_} _.
Arguments Err {_} _.

Definition is_ok {A} (r : result A) : bool := match r with Ok _ => true | Err _ => false end.

(** [raise Error(status, code)]: the detail defaults to the code. *)
Definition Error {A} (status : Z) (code : string) : result A := Err (ExchangeError status code code).

(** Statements without state: the exception propagates. *)
Notation "'let?' x ':=' r 'in' k" := (match r with Ok x => k | Err e => Err e end)
  (at level 10, x name, r at level 100, k at level 200) : py_scope.

Definition raise_when (c : bool) (status : Z) (code : string) : result unit :=
  if c then Error status code else Ok tt.

Fixpoint each {A} (f : A -> result unit) (l : list A) : result unit :=
  match l with
  | [] => Ok tt
  | a :: l' => let? _ := f a in each f l'
  end.

Lemma each_ok {A} (f : A -> result unit) l : each f l = Ok tt <-> Forall (fun a => f a = Ok tt) l.
Proof.
  induction l as [|a l IH]; cbn.
  - split; [constructor|done].
  - destruct (f a) as [[]|e] eqn:E; split.
    + intros H. constructor; [done|]. by apply IH.
    + intros H. apply IH. by inversion H.
    + done.
    + intros H. inversion H. congruence.
Qed.

Lemma raise_when_ok c st code : raise_when c st code = Ok tt <-> c = false.
Proof. unfold raise_when, Error. destruct c; intuition congruence. Qed.

(** ** The state-and-exception monad

    A statement over a state [S] returns a value or an exception and the state
    it leaves.  An exception does not undo assignments by itself: only a
    transaction does (see [atomically]). *)
Definition M (S A : Type) : Type := S -> result A * S.

Section Monad.
Context {S : Type}.

Definition ret {A} (a : A) : M S A := fun s => (Ok a, s).
Definition bind {A B} (m : M S A) (f : A -> M S B) : M S B :=
  fun s => match m s with
           | (Ok a, s') => f a s'
           | (Err e, s') => (Err e, s')
           end.
Definition lift {A} (r : result A) : M S A := fun s => (r, s).
Definition throw {A} (e : exn) : M S A := lift (Err e).
Definition raise {A} (status : Z) (code : string) : M S A := lift (Error status code).
Definition gets {A} (f : S -> A) : M S A := fun s => (Ok (f s), s).
Definition modify (f : S -> S) : M S unit := fun s => (Ok tt, f s).
(** [if c: raise Error(status, code)] *)
Definition raise_if (c : bool) (status : Z) (code : string) : M S unit :=
  if c then raise status code else ret tt.
Definition throw_if (c : bool) (e : exn) : M S unit := if c then throw e else ret tt.
Definition when (c : bool) (m : M S unit) : M S unit := if c then m else ret tt.
(** [try: m  except: handler e] *)
Definition catch {A} (m : M S A) (handler : exn -> M S A) : M S A :=
  fun s => match m s with
           | (Ok a, s') => (Ok a, s')
           | (Err e, s') => handler e s'
           end.
Fixpoint for_each {A} (l : list A) (f : A -> M S unit) : M S unit :=
  match l with
  | [] => ret tt
  | a :: l' => bind (f a) (fun _ => for_each l' f)
  end.
(** [for a in l: acc = f(acc, a)] *)
Fixpoint foldM {A B} (f : B -> A -> M S B) (acc : B) (l : list A) : M S B :=
  match l with
  | [] => ret acc
  | a :: l' => bind (f acc a) (fun acc' => foldM f acc' l')
  end.
Fixpoint mapM {A B} (f : A -> M S B) (l : list A) : M S (list B) :=
  match l with
  | [] => ret []
  | a :: l' => bind (f a) (fun b => bind (mapM f l') (fun bs => ret (b :: bs)))
  end.
End Monad.

Notation "'let*' x ':=' m 'in' k" := (bind m (fun x => k))
  (at level 10, x name, m at level 100, k at level 200) : py_scope.
Notation "'let*' ' p ':=' m 'in' k" := (bind m (fun p => k))
  (at level 10, p strict pattern, m at level 100, k at level 200) : py_scope.
Notation "m ;; k" := (bind m (fun _ => k))
  (at level 100, k at level 200, right associativity) : py_scope.

(** ** Inversion of successful runs

    [m s = (Ok a, s')] decomposes along the statement; [inv_ok] drives the
    decomposition with the lemmas below. *)
Section Inversion.
Context {S : Type}.
Lemma bind_ok {A B} (m : M S A) (f : A -> M S B) (s : S) b (s' : S) :
  bind m f s = (Ok b, s') <-> exists a s1, m s = (Ok a, s1) /\ f a s1 = (Ok b, s').
Proof.
  unfold bind. split.
  - destruct (m s) as [[a|e] s1]; intros H; [by exists a, s1 | done].
  - intros (a & s1 & Hm & Hf). by rewrite Hm.
Qed.

Lemma ret_ok {A} (a b : A) (s s' : S) : ret a s = (Ok b, s') <-> b = a /\ s' = s.
Proof. unfold ret. intuition congruence. Qed.

Lemma lift_ok {A} (r : result A) b (s s' : S) : lift r s = (Ok b, s') <-> r = Ok b /\ s' = s.
Proof. unfold lift. intuition congruence. Qed.

Lemma gets_ok {A} (f : S -> A) b (s s' : S) : gets f s = (Ok b, s') <-> b = f s /\ s' = s.
Proof. unfold gets. intuition congruence. Qed.

Lemma modify_ok (f : S -> S) b (s s' : S) : modify f s = (Ok b, s') <-> s' = f s.
Proof. unfold modify. destruct b. intuition congruence. Qed.

Lemma raise_ok {A} st code (b : A) (s s' : S) : ~ (raise st code s = (Ok b, s')).
Proof. done. Qed.

Lemma throw_ok {A} e (b : A) (s s' : S) : ~ (throw e s = (Ok b, s')).
Proof. done. Qed.

Lemma raise_if_ok c st code u (s s' : S) :
  raise_if c st code s = (Ok u, s') <-> c = false /\ s' = s.
Proof. unfold raise_if, raise, lift, Error, ret. destruct c, u; intuition congruence. Qed.

Lemma throw_if_ok c e u (s s' : S) :
  throw_if c e s = (Ok u, s') <-> c = false /\ s' = s.
Proof. unfold throw_if, throw, lift, ret. destruct c, u; intuition congruence. Qed.

Lemma when_ok c m u (s s' : S) :
  when c m s = (Ok u, s') <-> (c = true /\ m s = (Ok tt, s')) \/ (c = false /\ s' = s).
Proof. unfold when, ret. destruct c, u; intuition congruence. Qed.

(** A loop whose every successful step keeps [P] keeps [P]. *)
Lemma for_each_ok {A} (l : list A) (f : A -> M S unit) (P : S -> Prop) (s s' : S) u :
  for_each l f s = (Ok u, s') -> P s ->
  (forall a s1 s2, a ∈ l -> P s1 -> f a s1 = (Ok tt, s2) -> P s2) ->
  P s'.
Proof.
  destruct u. revert s. induction l as [|a l IH]; intros s H HP Hstep; cbn in H.
  - apply ret_ok in H as [_ ->]. done.
  - apply bind_ok in H as ([] & s1 & Hf & Hl). apply (IH s1); [done| |].
    + apply (Hstep a s); [left|done|done].
    + intros a' t1 t2 Ha. apply Hstep. by right.
Qed.

(** The same with an invariant that counts the items already done. *)
Lemma for_each_ok_prefix {A} (l : list A) (f : A -> M S unit) (P : list A -> S -> Prop) (s s' : S) u :
  for_each l f s = (Ok u, s') -> P [] s ->
  (forall done a todo s1 s2, l = done ++ a :: todo -> P done s1 -> f a s1 = (Ok tt, s2) ->
     P (done ++ [a]) s2) ->
  P l s'.
Proof.
  destruct u. intros H HP Hstep.
  enough (G : forall todo dn s1, l = dn ++ todo -> P dn s1 ->
            for_each todo f s1 = (Ok tt, s') -> P l s') by (by apply (G l [] s)).
  clear H HP s. induction todo as [|a todo IH]; intros dn s1 -> HP H; cbn in H.
  - apply ret_ok in H as [_ ->]. by rewrite app_nil_r.
  - apply bind_ok in H as ([] & s2 & Hf & Hl).
    apply (IH (dn ++ [a]) s2); [by rewrite <- app_assoc| |done].
    by eapply Hstep.
Qed.
End Inversion.

Ltac inv_ok_step :=
  match goal with
  | H : bind _ _ _ = (Ok _, _) |- _ =>
      let a := fresh "a" in let s := fresh "w" in
      let H1 := fresh "H" in let H2 := fresh "H" in
      apply bind_ok in H as (a & s & H1 & H2); cbv beta in H2
  | H : ret _ _ = (Ok _, _) |- _ => apply ret_ok in H as [-> ->] || apply ret_ok in H as [? ?]
  | H : lift _ _ = (Ok _, _) |- _ => apply lift_ok in H as [H ->] || apply lift_ok in H as [H ?]
  | H : gets _ _ = (Ok _, _) |- _ => apply gets_ok in H as [-> ->] || apply gets_ok in H as [? ?]
  | H : modify _ _ = (Ok _, _) |- _ => apply modify_ok in H as -> || apply modify_ok in H
  | H : raise _ _ _ = (Ok _, _) |- _ => by apply raise_ok in H
  | H : throw _ _ = (Ok _, _) |- _ => by apply throw_ok in H
  | H : raise_if _ _ _ _ = (Ok _, _) |- _ =>
      apply raise_if_ok in H as [H ->] || apply raise_if_ok in H as [H ?]
  | H : throw_if _ _ _ = (Ok _, _) |- _ =>
      apply throw_if_ok in H as [H ->] || apply throw_if_ok in H as [H ?]
  | H : Error _ _ = Ok _ |- _ => discriminate H
  | H : Err _ = Ok _ |- _ => discriminate H
  | H : Ok _ = Ok _ |- _ => injection H as H
  end.
(** Decompose every successful run in the context, statement by statement. *)
Ltac inv_ok := repeat inv_ok_step.

(** ** Sums over a table *)
Section SumMap.
Context `{Countable K} {V : Type}.
Implicit Types (m : gmap K V) (f g : V -> Z).

Definition sum_map f m : Z := map_fold (fun _ v acc => f v + acc) 0 m.

Lemma sum_map_empty f : sum_map f ∅ = 0.
Proof. apply map_fold_empty. Qed.

Lemma sum_map_insert_new f m k v :
  m !! k = None -> sum_map f (<[k:=v]> m) = f v + sum_map f m.
Proof. intros Hk. unfold sum_map. rewrite map_fold_insert_L; [done| |done]. intros; lia. Qed.

Lemma sum_map_delete f m k v :
  m !! k = Some v -> sum_map f (delete k m) = sum_map f m - f v.
Proof.
  intros Hk. rewrite <- (insert_delete_id m k v Hk) at 2.
  rewrite sum_map_insert_new by apply lookup_delete_eq. lia.
Qed.

Lemma sum_map_insert f m k v v' :
  m !! k = Some v -> sum_map f (<[k:=v']> m) = sum_map f m - f v + f v'.
Proof.
  intros Hk. rewrite <- insert_delete_eq.
  rewrite sum_map_insert_new by apply lookup_delete_eq.
  rewrite (sum_map_delete f m k v Hk). lia.
Qed.

Lemma sum_map_alter f m k v (g : V -> V) :
  m !! k = Some v -> sum_map f (alter g k m) = sum_map f m - f v + f (g v).
Proof.
  intros Hk. rewrite <- (sum_map_insert f m k v (g v) Hk). f_equal.
  apply map_eq. intros j. destruct (decide (j = k)) as [->|Hj].
  - by rewrite lookup_alter_eq, lookup_insert_eq, Hk.
  - by rewrite lookup_alter_ne, lookup_insert_ne by done.
Qed.

(** An update that keeps what is summed. *)
Lemma sum_map_alter_same f m k (g : V -> V) :
  (forall v, m !! k = Some v -> f (g v) = f v) -> sum_map f (alter g k m) = sum_map f m.
Proof.
  intros Hg. destruct (m !! k) as [v|] eqn:Hk.
  - rewrite (sum_map_alter f m k v g Hk), Hg by done. lia.
  - by rewrite alter_id'.
Qed.

Lemma sum_map_ext f g m :
  (forall k v, m !! k = Some v -> f v = g v) -> sum_map f m = sum_map g m.
Proof.
  induction m as [|k v m Hk IH] using map_ind; intros Hfg.
  - by rewrite !sum_map_empty.
  - rewrite !sum_map_insert_new by done. rewrite (Hfg k v) by apply lookup_insert_eq.
    rewrite IH; [done|]. intros k' v' Hk'. apply (Hfg k').
    rewrite lookup_insert_ne; [done|]. naive_solver.
Qed.

Lemma sum_map_nonneg f m :
  (forall k v, m !! k = Some v -> 0 <= f v) -> 0 <= sum_map f m.
Proof.
  induction m as [|k v m Hk IH] using map_ind; intros Hf.
  - by rewrite sum_map_empty.
  - rewrite sum_map_insert_new by done.
    assert (0 <= f v) by (apply (Hf k); apply lookup_insert_eq).
    assert (0 <= sum_map f m); [|lia].
    apply IH. intros k' v' Hk'. apply (Hf k'). rewrite lookup_insert_ne; [done|]. naive_solver.
Qed.

Lemma sum_map_fmap f (g : V -> V) m :
  sum_map f (g <$> m) = sum_map (fun v => f (g v)) m.
Proof.
  induction m as [|k v m Hk IH] using map_ind.
  - by rewrite fmap_empty, !sum_map_empty.
  - rewrite fmap_insert, !sum_map_insert_new, IH; [done|done|].
    by rewrite lookup_fmap, Hk.
Qed.

Lemma sum_map_filter f (p : V -> bool) m :
  sum_map f (filter (fun kv : K * V => p kv.2 = true) m) = sum_map (fun v => if p v then f v else 0) m.
Proof.
  induction m as [|k v m Hk IH] using map_ind.
  - by rewrite map_filter_empty, !sum_map_empty.
  - rewrite map_filter_insert. cbn. case_decide as Hp.
    + rewrite !sum_map_insert_new, IH, Hp; [done|done|]. rewrite map_lookup_filter_None. by left.
    + rewrite sum_map_insert_new by done. rewrite delete_id by done. rewrite IH. by destruct (p v).
Qed.

Lemma sum_map_le f g m :
  (forall k v, m !! k = Some v -> f v <= g v) -> sum_map f m <= sum_map g m.
Proof.
  induction m as [|k v m Hk IH] using map_ind; intros Hfg.
  - by rewrite !sum_map_empty.
  - rewrite !sum_map_insert_new by done.
    assert (f v <= g v) by (apply (Hfg k); apply lookup_insert_eq).
    assert (sum_map f m <= sum_map g m); [|lia].
    apply IH. intros k' v' Hk'. apply (Hfg k'). rewrite lookup_insert_ne; [done|]. naive_solver.
Qed.
End SumMap.

(** ** Tables of the database and rows by key *)
Record Tab (D K V : Type) `{Countable K} := mkTab {
  t_get : D -> gmap K V;
  t_upd : (gmap K V -> gmap K V) -> D -> D;
}.
Arguments mkTab {_ _ _ _ _} _ _.
Arguments t_get {_ _ _ _ _} _ _.
Arguments t_upd {_ _ _ _ _} _ _ _.

(** The rows of a table that satisfy a [where] clause. *)
Definition rows {K V} `{Countable K} (P : V -> bool) (m : gmap K V) : list V :=
  filter (fun v => P v = true) (map_to_list m).*2.

Lemma elem_of_rows {K V} `{Countable K} (P : V -> bool) (m : gmap K V) v :
  v ∈ rows P m <-> P v = true /\ exists k, m !! k = Some v.
Proof.
  unfold rows. rewrite list_elem_of_filter, list_elem_of_fmap. split.
  - intros [HP ([k v'] & -> & Hin)]. split; [done|]. exists k. by apply elem_of_map_to_list.
  - intros [HP (k & Hk)]. split; [done|]. exists (k, v). split; [done|]. by apply elem_of_map_to_list.
Qed.

Lemma rows_nil {K V} `{Countable K} (P : V -> bool) (m : gmap K V) :
  rows P m = [] <-> forall k v, m !! k = Some v -> P v = false.
Proof.
  split.
  - intros Hnil k v Hk. destruct (P v) eqn:HP; [|done].
    assert (Hin : v ∈ rows P m) by (apply elem_of_rows; eauto).
    rewrite Hnil in Hin. by apply elem_of_nil in Hin.
  - intros Hall. destruct (rows P m) as [|v l] eqn:E; [done|].
    assert (Hin : v ∈ rows P m) by (rewrite E; left).
    apply elem_of_rows in Hin as [HP (k & Hk)]. by rewrite (Hall k v Hk) in HP.
Qed.

(** No row of a table matches. *)
Lemma existsb_rows_false {K V} `{Countable K} (p : V -> bool) (m : gmap K V) :
  existsb p (map_to_list m).*2 = false -> forall k v, m !! k = Some v -> p v = false.
Proof.
  intros Hf k v Hk. destruct (p v) eqn:E; [|done]. apply not_true_iff_false in Hf. exfalso. apply Hf, existsb_exists.
  exists v. split; [|done]. apply list_elem_of_In, list_elem_of_fmap. exists (k, v). split; [done|].
  by apply elem_of_map_to_list.
Qed.

(** None of the selected rows matches. *)
Lemma rows_none {K V} `{Countable K} (p q : V -> bool) (m : gmap K V) k v :
  existsb q (rows p m) = false -> m !! k = Some v -> p v = true -> q v = false.
Proof.
  intros Hf Hk Hp. destruct (q v) eqn:E; [|done]. apply not_true_iff_false in Hf. exfalso. apply Hf, existsb_exists.
  exists v. split; [|done]. apply list_elem_of_In, elem_of_rows. eauto.
Qed.

(** Rows that carry their key are distinct. *)
Lemma rows_NoDup {K V} `{Countable K} (P : V -> bool) (m : gmap K V) (id : V -> K) :
  (forall k v, m !! k = Some v -> id v = k) -> NoDup (rows P m).
Proof.
  intros Hid. apply NoDup_filter. apply NoDup_fmap_2_strong; [|apply NoDup_map_to_list].
  intros [k v] [j u] Hk Hj E. cbn in E. subst u. apply elem_of_map_to_list in Hk, Hj.
  f_equal. transitivity (id v); [symmetry|]; by apply Hid.
Qed.

(** [.order_by(...).limit(n)] selects among the rows. *)
Lemma elem_of_first {A} (R : A -> A -> Prop) `{!RelDecision R} n (l : list A) x : x ∈ take n (merge_sort R l) -> x ∈ l.
Proof.
  intros H. apply elem_of_take in H as (i & Hi & _). apply list_elem_of_lookup_2 in Hi.
  by rewrite (merge_sort_Permutation R l) in Hi.
Qed.

(** [any] of no element. *)
Lemma existsb_none {A} (p : A -> bool) l x : existsb p l = false -> x ∈ l -> p x = false.
Proof.
  intros H Hx. destruct (p x) eqn:E; [|done]. apply not_true_iff_false in H. exfalso. apply H, existsb_exists.
  exists x. split; [by apply list_elem_of_In|done].
Qed.

(** [min]/[max] of Python on integers. *)
Definition py_min : Z -> Z -> Z := Z.min.
Definition py_max : Z -> Z -> Z := Z.max.

(** ** Shared automation *)
Ltac bool_simpl :=
  repeat match goal with
  | H : andb _ _ = true |- _ => apply andb_true_iff in H as [? ?]
  | H : orb _ _ = false |- _ => apply orb_false_iff in H as [? ?]
  | H : negb _ = true |- _ => apply negb_true_iff in H
  | H : negb _ = false |- _ => apply negb_false_iff in H
  | H : bool_decide _ = true |- _ => apply bool_decide_eq_true in H
  | H : bool_decide _ = false |- _ => apply bool_decide_eq_false in H
  | H : Z.leb _ _ = true |- _ => apply Z.leb_le in H
  | H : Z.leb _ _ = false |- _ => apply Z.leb_gt in H
  | H : Z.ltb _ _ = true |- _ => apply Z.ltb_lt in H
  | H : Z.ltb _ _ = false |- _ => apply Z.ltb_ge in H
  | H : Z.eqb _ _ = true |- _ => apply Z.eqb_eq in H
  | H : Z.eqb _ _ = false |- _ => apply Z.eqb_neq in H
  end.

Lemma pair_of {A B} (p : A * B) a : p.1 = a -> p = (a, p.2).
Proof. destruct p. cbn. by intros ->. Qed.

(** Facts about closed terms, by evaluation: rows of a concrete table, and
    outcomes of a concrete command. *)
Ltac evaluated := vm_compute; repeat eexists; reflexivity.
