(* ===== verification/Json.v ===== *)
(** * Python values that cross the wire: strings and JSON documents

    A Python [str] is its UTF-8 encoding, a [string] of bytes; [py_len] counts
    code points as [len] does.  A JSON document is the tree [json.loads]
    builds; a dict is an association list in insertion order.  [dumps] is
    [json.dumps(..., ensure_ascii=False, sort_keys=True,
    separators=(",", ":"), allow_nan=False)], the canonical form that
    [hf2l_exchange.schemas.canonical_bytes] digests. *)

From stdpp Require Import base gmap strings list pretty.
From Stdlib Require Import ZArith Lia Ascii String SpecFloat.
From S2P Require Import Prelude.

(** ** Strings *)
Definition byte_of (c : ascii) : Z := Z.of_N (N_of_ascii c).

Fixpoint chars (s : string) : list ascii :=
  match s with EmptyString => [] | String c s' => c :: chars s' end.

(** A UTF-8 continuation byte does not start a code point. *)
Definition is_continuation (c : ascii) : bool := (128 <=? byte_of c) && (byte_of c <? 192).

(** [len(s)] *)
Definition py_len (s : string) : Z :=
  Z.of_nat (List.length (List.filter (fun c => negb (is_continuation c)) (chars s))).

(** [len(s.encode("utf-8"))] *)
Definition utf8_len (s : string) : Z := Z.of_nat (String.length s).

Definition any_char (p : ascii -> bool) (s : string) : bool := existsb p (chars s).
Definition all_char (p : ascii -> bool) (s : string) : bool := forallb p (chars s).

Definition in_range (c : ascii) (lo hi : Z) : bool := (lo <=? byte_of c) && (byte_of c <=? hi).
Definition is_digit (c : ascii) : bool := in_range c 48 57.
Definition is_lower (c : ascii) : bool := in_range c 97 122.
Definition is_upper (c : ascii) : bool := in_range c 65 90.
Definition is_alnum (c : ascii) : bool := is_digit c || is_lower c || is_upper c.
Definition char_eqb (c d : ascii) : bool := Ascii.eqb c d.

(** [s.split(sep)] for a one-character separator. *)
Fixpoint split_on (sep : ascii) (s : string) : list string :=
  match s with
  | EmptyString => [EmptyString]
  | String c s' =>
      if char_eqb c sep then EmptyString :: split_on sep s'
      else match split_on sep s' with
           | [] => [String c EmptyString]
           | piece :: pieces => String c piece :: pieces
           end
  end.

(** [s.startswith(p)] *)
Definition startswith (s p : string) : bool := String.prefix p s.

(** [sep.join(pieces)] *)
Fixpoint join (sep : string) (pieces : list string) : string :=
  match pieces with
  | [] => ""
  | [p] => p
  | p :: ps => p +:+ sep +:+ join sep ps
  end.

Definition mem_str (s : string) (l : list string) : bool := bool_decide (s ∈ l).

(** [sorted(set(l))] on strings: insertion into a strictly increasing list. *)
Fixpoint set_insert (s : string) (l : list string) : list string :=
  match l with
  | [] => [s]
  | x :: l' => match String.compare s x with
               | Lt => s :: l
               | Eq => l
               | Gt => x :: set_insert s l'
               end
  end.
Definition sorted_set (l : list string) : list string := foldr set_insert [] l.

Lemma elem_of_set_insert s x l : s ∈ set_insert x l <-> s = x \/ s ∈ l.
Proof.
  induction l as [|y l IH]; cbn.
  - rewrite !elem_of_cons. reflexivity.
  - destruct (String.compare x y) eqn:E.
    + apply String.compare_eq_iff in E as ->. rewrite !elem_of_cons. tauto.
    + rewrite !elem_of_cons. tauto.
    + rewrite !elem_of_cons, IH. tauto.
Qed.

Lemma elem_of_sorted_set s l : s ∈ sorted_set l <-> s ∈ l.
Proof.
  induction l as [|x l IH]; cbn; [reflexivity|].
  unfold sorted_set in *. cbn. rewrite elem_of_set_insert, IH, elem_of_cons. reflexivity.
Qed.

(** [str(n)] of an integer. *)
Definition str_of_int (n : Z) : string := pretty n.

(** ** JSON documents *)
#[warnings="-register-all"]
Inductive json :=
  | JNull
  | JBool (b : bool)
  | JInt (n : Z)
  | JFloat (f : spec_float)
  | JStr (s : string)
  | JList (l : list json)
  | JObj (kvs : list (string * json)).

#[global] Instance spec_float_eq_dec : EqDecision spec_float.
Proof. solve_decision. Defined.

Section JsonInd.
Context (P : json -> Prop).
Hypothesis Hnull : P JNull.
Hypothesis Hbool : forall b, P (JBool b).
Hypothesis Hint : forall n, P (JInt n).
Hypothesis Hfloat : forall f, P (JFloat f).
Hypothesis Hstr : forall s, P (JStr s).
Hypothesis Hlist : forall l, Forall P l -> P (JList l).
Hypothesis Hobj : forall kvs, Forall (fun kv => P kv.2) kvs -> P (JObj kvs).

Fixpoint json_rect' (v : json) : P v :=
  match v with
  | JNull => Hnull
  | JBool b => Hbool b
  | JInt n => Hint n
  | JFloat f => Hfloat f
  | JStr s => Hstr s
  | JList l => Hlist l ((fix go l : Forall P l :=
      match l with [] => Forall_nil_2 _ | x :: l' => Forall_cons_2 _ _ _ (json_rect' x) (go l') end) l)
  | JObj kvs => Hobj kvs ((fix go l : Forall (fun kv => P kv.2) l :=
      match l with [] => Forall_nil_2 _ | x :: l' => Forall_cons_2 _ _ _ (json_rect' x.2) (go l') end) kvs)
  end.
End JsonInd.

Fixpoint json_eqb (v w : json) : bool :=
  match v, w with
  | JNull, JNull => true
  | JBool a, JBool b => Bool.eqb a b
  | JInt a, JInt b => a =? b
  | JFloat a, JFloat b => bool_decide (a = b)
  | JStr a, JStr b => String.eqb a b
  | JList a, JList b =>
      (fix go a b := match a, b with
                     | [], [] => true
                     | x :: a', y :: b' => json_eqb x y && go a' b'
                     | _, _ => false
                     end) a b
  | JObj a, JObj b =>
      (fix go a b := match a, b with
                     | [], [] => true
                     | (k, x) :: a', (k', y) :: b' => String.eqb k k' && json_eqb x y && go a' b'
                     | _, _ => false
                     end) a b
  | _, _ => false
  end.

Lemma json_eqb_eq v w : json_eqb v w = true <-> v = w.
Proof.
  revert w. induction v as [|b|n|f|s|l IH|kvs IH] using json_rect'; intros [|b'|n'|f'|s'|l'|kvs'];
    cbn; try (split; congruence).
  - rewrite Bool.eqb_true_iff. split; congruence.
  - rewrite Z.eqb_eq. split; congruence.
  - rewrite bool_decide_eq_true. split; congruence.
  - rewrite String.eqb_eq. split; congruence.
  - trans (l = l'); [|split; congruence].
    revert l'. induction IH as [|x l Hx _ IHl]; intros [|y l']; cbn; try (split; congruence).
    rewrite andb_true_iff, Hx, IHl. split; [intros [-> ->]|intros [= -> ->]]; done.
  - trans (kvs = kvs'); [|split; congruence].
    revert kvs'. induction IH as [|[k x] l Hx _ IHl]; intros [|[k' y] l']; cbn; try (split; congruence).
    cbn in Hx. rewrite !andb_true_iff, String.eqb_eq, Hx, IHl.
    split; [intros [[-> ->] ->]|intros [= -> -> ->]]; done.
Qed.

#[global] Instance json_eq_dec : EqDecision json.
Proof.
  intros v w. destruct (json_eqb v w) eqn:E; [left|right].
  - by apply json_eqb_eq.
  - intros ->. assert (json_eqb w w = true) by by apply json_eqb_eq. congruence.
Defined.

(** ** Dicts *)
Fixpoint assoc (k : string) (kvs : list (string * json)) : option json :=
  match kvs with
  | [] => None
  | (k', v) :: kvs' => if String.eqb k k' then Some v else assoc k kvs'
  end.

(** [d[k] = v] *)
Fixpoint assoc_set (k : string) (v : json) (kvs : list (string * json)) : list (string * json) :=
  match kvs with
  | [] => [(k, v)]
  | (k', v') :: kvs' => if String.eqb k k' then (k, v) :: kvs' else (k', v') :: assoc_set k v kvs'
  end.

Lemma assoc_assoc_set k k' v kvs : assoc k (assoc_set k' v kvs) = if String.eqb k k' then Some v else assoc k kvs.
Proof.
  induction kvs as [|[a b] kvs IH]; cbn; [done|]. destruct (String.eqb k' a) eqn:E; cbn.
  - apply String.eqb_eq in E as ->. by destruct (String.eqb k a).
  - rewrite IH. destruct (String.eqb k k') eqn:E'; [|done]. apply String.eqb_eq in E' as ->. by rewrite E.
Qed.

Definition keys (kvs : list (string * json)) : list string := kvs.*1.

(** [d1 | d2] *)
Definition merge_dicts (d1 d2 : list (string * json)) : list (string * json) :=
  fold_left (fun acc kv => assoc_set kv.1 kv.2 acc) d2 d1.

(** [k in d] *)
Definition has_key (k : string) (kvs : list (string * json)) : bool :=
  match assoc k kvs with Some _ => true | None => false end.

(** [d.get(k)]: absent is [None]. *)
Definition get_or_none (kvs : list (string * json)) (k : string) : json :=
  match assoc k kvs with Some v => v | None => JNull end.

(** [d.get(k, default)] *)
Definition get_or (kvs : list (string * json)) (k : string) (default : json) : json :=
  match assoc k kvs with Some v => v | None => default end.

(** [v.get(...)] on anything but a dict raises [AttributeError]. *)
Definition as_dict (v : json) : result (list (string * json)) :=
  match v with JObj kvs => Ok kvs | _ => Err AttributeError end.

Definition is_none (v : json) : bool := match v with JNull => true | _ => false end.
Definition is_str (v : json) : bool := match v with JStr _ => true | _ => false end.
Definition is_list (v : json) : bool := match v with JList _ => true | _ => false end.
Definition is_dict (v : json) : bool := match v with JObj _ => true | _ => false end.
(** [isinstance(v, int)] also accepts booleans; [type(v) is int] does not. *)
Definition is_bool (v : json) : bool := match v with JBool _ => true | _ => false end.

(** Truth value of a document. *)
Definition truthy (v : json) : bool :=
  match v with
  | JNull => false
  | JBool b => b
  | JInt n => negb (n =? 0)
  | JFloat (S754_zero _) => false
  | JFloat _ => true
  | JStr s => negb (String.eqb s "")
  | JList l => match l with [] => false | _ => true end
  | JObj l => match l with [] => false | _ => true end
  end.

(** Python's [==] on documents: numbers compare by value across [bool], [int]
    and [float], dicts ignore insertion order. *)
Definition exact_number (v : json) : option (Z * Z) :=
  match v with
  | JBool b => Some (Z.b2z b, 0)
  | JInt n => Some (n, 0)
  | JFloat (S754_zero _) => Some (0, 0)
  | JFloat (S754_finite neg m e) => Some (if neg then Z.neg m else Z.pos m, e)
  | _ => None
  end.

Definition number_eqb (a b : Z * Z) : bool :=
  let e := Z.min a.2 b.2 in
  a.1 * 2 ^ (a.2 - e) =? b.1 * 2 ^ (b.2 - e).

Fixpoint py_eqb (v w : json) : bool :=
  match v, w with
  | JNull, JNull => true
  | JStr a, JStr b => String.eqb a b
  | JFloat (S754_infinity a), JFloat (S754_infinity b) => Bool.eqb a b
  | JList a, JList b =>
      (fix go a b := match a, b with
                     | [], [] => true
                     | x :: a', y :: b' => py_eqb x y && go a' b'
                     | _, _ => false
                     end) a b
  | JObj a, JObj b =>
      Nat.eqb (List.length a) (List.length b) &&
      (fix go a := match a with
                   | [] => true
                   | (k, x) :: a' => match assoc k b with
                                     | Some y => py_eqb x y
                                     | None => false
                                     end && go a'
                   end) a
  | _, _ => match exact_number v, exact_number w with
            | Some a, Some b => number_eqb a b
            | _, _ => false
            end
  end.

(** [all(isinstance(item, str) for item in l)] with the strings. *)
Fixpoint strings_of (l : list json) : option (list string) :=
  match l with
  | [] => Some []
  | JStr s :: l' => option_map (cons s) (strings_of l')
  | _ :: _ => None
  end.

Definition json_strings (l : list string) : json := JList (map JStr l).

(** [JStr] of an optional text column, [None] as null. *)
Definition opt_str (o : option string) : json := match o with Some s => JStr s | None => JNull end.

(** ** Canonical serialization *)
Section Dumps.
(** [float.__repr__], the only part of the serializer that is not written out. *)
Context (float_repr : spec_float -> string).

Definition hex_digit (n : N) : ascii :=
  if (n <? 10)%N then ascii_of_N (48 + n) else ascii_of_N (87 + n).

Definition escape_char (c : ascii) : string :=
  if char_eqb c "034"%char then String "\" (String "034" "")
  else if char_eqb c "\"%char then "\\"
  else if char_eqb c "008"%char then "\b"
  else if char_eqb c "009"%char then "\t"
  else if char_eqb c "010"%char then "\n"
  else if char_eqb c "012"%char then "\f"
  else if char_eqb c "013"%char then "\r"
  else if byte_of c <? 32 then
    "\u00" +:+ String (hex_digit (N_of_ascii c / 16)) (String (hex_digit (N_of_ascii c mod 16)) "")
  else String c "".

Definition quote : string := String "034" "".
Definition dump_string (s : string) : string :=
  quote +:+ foldr (fun c acc => escape_char c +:+ acc) "" (chars s) +:+ quote.

(** The [ensure_ascii=True] form of a string: code points outside the
    printable ASCII range become [\uXXXX], in surrogate pairs above [0xFFFF]. *)
Fixpoint code_points (s : list ascii) (need : nat) (acc : Z) : list Z :=
  match s with
  | [] => []
  | c :: s' =>
      let b := byte_of c in
      match need with
      | O => if b <? 128 then b :: code_points s' 0 0
             else if b <? 224 then code_points s' 1 (b - 192)
             else if b <? 240 then code_points s' 2 (b - 224)
             else code_points s' 3 (b - 240)
      | S O => (acc * 64 + (b - 128)) :: code_points s' 0 0
      | S need' => code_points s' need' (acc * 64 + (b - 128))
      end
  end.
Definition hex4 (n : Z) : string :=
  let d k := hex_digit (Z.to_N (n / 16 ^ k mod 16)) in
  "\u" +:+ String (d 3) (String (d 2) (String (d 1) (String (d 0) ""))).
Definition escape_ascii (cp : Z) : string :=
  if (cp <? 128) && ((cp <? 32) || (cp =? 34) || (cp =? 92)) then escape_char (ascii_of_N (Z.to_N cp))
  else if cp <? 127 then String (ascii_of_N (Z.to_N cp)) ""
  else if cp <? 65536 then hex4 cp
  else hex4 (55296 + (cp - 65536) / 1024) +:+ hex4 (56320 + (cp - 65536) mod 1024).
Definition dump_string_ascii (s : string) : string :=
  quote +:+ foldr (fun cp acc => escape_ascii cp +:+ acc) "" (code_points (chars s) 0 0) +:+ quote.

Definition float_is_finite (f : spec_float) : bool :=
  match f with S754_zero _ | S754_finite _ _ _ => true | _ => false end.

(** [sort_keys=True]: stable insertion sort by code points (UTF-8 byte order). *)
Fixpoint insert_key {A} (kv : string * A) (l : list (string * A)) : list (string * A) :=
  match l with
  | [] => [kv]
  | kv' :: l' => match String.compare kv.1 kv'.1 with
                 | Gt => kv' :: insert_key kv l'
                 | _ => kv :: l
                 end
  end.
Definition sort_items {A} (l : list (string * A)) : list (string * A) := foldr insert_key [] l.

(** [None] is the [ValueError] of a non-finite float under [allow_nan=False]. *)
Fixpoint dumps (v : json) : option string :=
  match v with
  | JNull => Some "null"
  | JBool b => Some (if b then "true" else "false")
  | JInt n => Some (str_of_int n)
  | JFloat f => if float_is_finite f then Some (float_repr f) else None
  | JStr s => Some (dump_string s)
  | JList l =>
      items ← (fix go l := match l with
                           | [] => Some []
                           | x :: l' => d ← dumps x; ds ← go l'; Some (d :: ds)
                           end) l;
      Some ("[" +:+ join "," items +:+ "]")
  | JObj kvs =>
      items ← (fix go l := match l with
                           | [] => Some []
                           | (k, x) :: l' => d ← dumps x; ds ← go l'; Some ((k, d) :: ds)
                           end) kvs;
      Some ("{" +:+ join "," (map (fun kd => dump_string kd.1 +:+ ":" +:+ kd.2) (sort_items items)) +:+ "}")
  end.
End Dumps.
