(* ===== verification/Order.v ===== *)
(** * Lists sorted by string keys

    [sort_items] orders by code points: it permutes, its result is sorted, and
    lists with the same items and distinct keys sort to the same list. *)

From stdpp Require Import base strings list sorting.
From Stdlib Require Import OrdersEx.
From S2P Require Import Prelude Json.

Definition str_lt (a b : string) : Prop := String.compare a b = Lt.
Definition str_le (a b : string) : Prop := String.compare a b <> Gt.

#[export] Instance str_lt_strict : StrictOrder str_lt.
Proof. exact String_as_OT.lt_strorder. Qed.

Lemma compare_refl a : String.compare a a = Eq.
Proof. pose proof (String.compare_antisym a a) as H. destruct (String.compare a a); try done. Qed.
Lemma compare_gt a b : String.compare a b = Gt <-> str_lt b a.
Proof. unfold str_lt. rewrite (String.compare_antisym a b). destruct (String.compare b a); cbn; by split. Qed.

Lemma str_le_cases a b : str_le a b <-> str_lt a b \/ a = b.
Proof.
  unfold str_le, str_lt. destruct (String.compare a b) eqn:E; split; try done; auto.
  - intros _. right. by apply String.compare_eq_iff.
  - intros [|E']; [done|]. subst. by rewrite compare_refl in E.
Qed.

#[export] Instance str_le_preorder : PreOrder str_le.
Proof.
  split; [intros a; apply str_le_cases; by right|]. intros a b c. rewrite !str_le_cases.
  intros [H1|<-] [H2|<-]; auto. left. by etransitivity.
Qed.
Lemma str_le_antisym a b : str_le a b -> str_le b a -> a = b.
Proof.
  rewrite !str_le_cases. intros [H1|] [H2|]; auto. exfalso. apply (irreflexivity str_lt a). by etransitivity.
Qed.
Lemma str_le_total a b : str_le a b \/ str_lt b a.
Proof. unfold str_le. destruct (String.compare a b) eqn:E; [by left..|right; by apply compare_gt]. Qed.
Lemma str_lt_le a b : str_lt a b -> str_le a b.
Proof. intros H. apply str_le_cases. by left. Qed.
Lemma str_le_not_lt a b : str_le a b -> ~ str_lt b a.
Proof. unfold str_le. intros H Hlt. apply H. by apply compare_gt. Qed.

Section Items.
Context {A : Type}.
Implicit Types l : list (string * A).

Definition key_le (x y : string * A) : Prop := str_le x.1 y.1.
#[export] Instance key_le_transitive : Transitive key_le.
Proof. intros x y z. unfold key_le. by etransitivity. Qed.

Lemma insert_key_perm kv l : insert_key kv l ≡ₚ kv :: l.
Proof.
  induction l as [|kv' l IH]; cbn; [done|]. destruct (String.compare kv.1 kv'.1); [done..|].
  rewrite IH. apply Permutation_swap.
Qed.
Lemma sort_items_perm l : sort_items l ≡ₚ l.
Proof. induction l as [|kv l IH]; cbn; [done|]. by rewrite insert_key_perm, IH. Qed.

Lemma insert_key_sorted kv l : StronglySorted key_le l -> StronglySorted key_le (insert_key kv l).
Proof.
  induction 1 as [|kv' l Hs IH Hall]; cbn; [repeat constructor|]. destruct (String.compare kv.1 kv'.1) eqn:E.
  3: { constructor; [done|]. rewrite insert_key_perm. constructor; [|done]. apply str_lt_le. by apply compare_gt. }
  all: assert (H : key_le kv kv') by (unfold key_le, str_le; congruence).
  all: constructor; [by constructor|]; constructor; [done|]; eapply Forall_impl; [exact Hall|]; cbn; intros x Hx; by etransitivity.
Qed.
Lemma sort_items_sorted l : StronglySorted key_le (sort_items l).
Proof. induction l as [|kv l IH]; cbn; [constructor|]. by apply insert_key_sorted. Qed.

(** Sorted lists with distinct keys and the same items are equal. *)
Lemma sorted_unique l1 l2 : StronglySorted key_le l1 -> StronglySorted key_le l2 -> NoDup l1.*1 -> l1 ≡ₚ l2 -> l1 = l2.
Proof.
  intros H1. revert l2. induction H1 as [|x l1 Hs1 IH Hall1]; intros l2 H2 Hnd Hp.
  - by apply Permutation_nil_l in Hp.
  - destruct H2 as [|y l2 Hs2 Hall2]; [by apply Permutation_nil_r in Hp|].
    assert (Exy : x = y).
    { assert (Hx : x ∈ y :: l2) by (rewrite <- Hp; left). assert (Hy : y ∈ x :: l1) by (rewrite Hp; left).
      apply elem_of_cons in Hx as [->|Hx]; [done|]. apply elem_of_cons in Hy as [->|Hy]; [done|].
      rewrite Forall_forall in Hall1, Hall2. pose proof (str_le_antisym _ _ (Hall1 _ Hy) (Hall2 _ Hx)) as Ek.
      cbn in Hnd. apply NoDup_cons in Hnd as [Hn _]. destruct Hn. rewrite Ek. by apply list_elem_of_fmap_2. }
    subst y. f_equal. apply IH; [done| |by apply Permutation_cons_inv in Hp]. cbn in Hnd. by apply NoDup_cons in Hnd as [_ Hnd].
Qed.

Lemma sort_items_unique l1 l2 : l1 ≡ₚ l2 -> NoDup l1.*1 -> sort_items l1 = sort_items l2.
Proof.
  intros Hp Hnd. apply sorted_unique; [apply sort_items_sorted..| |by rewrite !sort_items_perm].
  rewrite sort_items_perm. done.
Qed.
End Items.
