(* ===== verification/Domain.v ===== *)
(** * Exchange values: vocabulary, identities, settings and the platform

    [hf2l_exchange.vocabulary], [hf2l_exchange.domain], the settings the
    modelled code reads from [hf2l_exchange.config], and the parameters that
    stand for what the server calls and does not define: the hash, the JSON
    Schema validator, Unicode case folding, [uuid4] and the database clock.

    A point in time is a [float] number of seconds since the epoch in the
    source.  Between 2004 and 2038 such a float is a multiple of [2^-22], so a
    time is the integer number of these ticks and adding whole seconds is exact. *)

From stdpp Require Import base gmap strings list.
From Stdlib Require Import ZArith Lia SpecFloat.
From S2P Require Import Prelude Json.

(** ** Time *)
Definition SECOND : Z := 4194304.
Definition seconds (n : Z) : Z := n * SECOND.

(** [int(t)] of a difference of times, in seconds (truncated toward zero). *)
Definition whole_seconds (t : Z) : Z := Z.quot t SECOND.

(** The JSON number of a time. *)
Definition time_json (t : Z) : json := JFloat (binary_normalize 53 1024 t (-22) false).
Definition opt_time_json (o : option Z) : json := match o with Some t => time_json t | None => JNull end.

(** [float(v)] of a finite [int] or [float], as a time. *)
Definition json_time (v : json) : option Z :=
  match v with
  | JInt n => Some (seconds n)
  | JFloat (S754_zero _) => Some 0
  | JFloat (S754_finite neg m e) =>
      let z := if neg then Z.neg m else Z.pos m in
      Some (if 0 <=? e + 22 then z * 2 ^ (e + 22) else z / 2 ^ (- (e + 22)))
  | _ => None
  end.

(** ** vocabulary.py *)
Definition ROLES : list string := ["reader"; "contributor"; "publisher"; "admin"].

Inductive RecordState :=
  | DRAFT | PUBLISHED | CANCELLED | EXPIRED | FAILED | WITHDRAWN.

Definition record_state_value (s : RecordState) : string :=
  match s with
  | DRAFT => "draft" | PUBLISHED => "published" | CANCELLED => "cancelled"
  | EXPIRED => "expired" | FAILED => "failed" | WITHDRAWN => "withdrawn"
  end.

(** [reserved] is the state of an attachment before its first transfer. *)
Inductive TransferState :=
  | Reserved
  | INITIATING | UPLOADING | COMPLETING | VERIFYING | VERIFIED
  | CLEANUP | CLEANED | XFER_FAILED.

Definition transfer_state_value (s : TransferState) : string :=
  match s with
  | Reserved => "reserved"
  | INITIATING => "initiating" | UPLOADING => "uploading" | COMPLETING => "completing"
  | VERIFYING => "verifying" | VERIFIED => "verified" | CLEANUP => "cleanup"
  | CLEANED => "cleaned" | XFER_FAILED => "failed"
  end.

(** [TERMINAL_RECORD_STATES] *)
Definition is_terminal (s : RecordState) : bool :=
  match s with DRAFT | PUBLISHED => false | _ => true end.

#[global] Instance record_state_eq_dec : EqDecision RecordState.
Proof. solve_decision. Defined.
#[global] Instance transfer_state_eq_dec : EqDecision TransferState.
Proof. solve_decision. Defined.

(** ** domain.py *)
Record WorkloadIdentity := mkWorkloadIdentity {
  wi_grant_id : string;
  wi_space_id : string;
  wi_job_id : string;
  wi_attempt_id : string;
  wi_component_id : string;
  wi_epoch : Z;
  wi_certificate_thumbprint : string;
  wi_expires_at : Z;
}.

Record Principal := mkPrincipal {
  pr_id : string;
  pr_subject : string;
  pr_bootstrap_admin : bool;
  pr_workload : option WorkloadIdentity;
}.

(** ** config.py: the settings the modelled code reads *)
Record AuthSettings := mkAuthSettings {
  admin_subject : string;
  workload_issuer : string;
  provisioning_principal_ids : list string;
  download_broker_principal_ids : list string;
}.

Definition workloads_enabled (a : AuthSettings) : bool := negb (String.eqb (workload_issuer a) "").

Record StorageSettings := mkStorageSettings {
  storage_prefix : string;
  grant_seconds : Z;
  storage_part_size : Z;
}.

Record WorkerSettings := mkWorkerSettings {
  lease_seconds : Z;
  failure_seconds : Z;
  recover_after : Z;
  operation_retention_seconds : Z;
  event_retention_seconds : Z;
}.

Record Settings := mkSettings {
  auth_settings : AuthSettings;
  storage_settings : StorageSettings;
  worker_settings : WorkerSettings;
  draft_seconds : Z;
  coordination_seconds : Z;
}.

(** ** What the server calls and does not define *)
Class Platform := {
  sha256_hex : string -> string;              (* hashlib.sha256(b).hexdigest() *)
  float_repr : spec_float -> string;          (* float.__repr__ *)
  py_repr : json -> string;                   (* str() of a float, list or dict *)
  casefold : string -> string;                (* str.casefold *)
  schema_wellformed : json -> bool;           (* Draft202012Validator.check_schema *)
  schema_accepts : json -> json -> bool;      (* Draft202012Validator(schema).validate *)
  clock : nat -> Z;                           (* successive database times *)
  uuid4_hex : nat -> string;                  (* successive uuid4().hex *)
  settings : Settings;
}.

(** The documented behaviour of the clock that lease arguments rely on: it does
    not run backwards. *)
Class ClockMonotone (P : Platform) := clock_mono : forall n m, (n <= m)%nat -> clock n <= clock m.

(** [str(v)] *)
Definition py_str {P : Platform} (v : json) : string :=
  match v with
  | JNull => "None"
  | JBool b => if b then "True" else "False"
  | JInt n => str_of_int n
  | JStr s => s
  | _ => py_repr v
  end.
