(* ===== verification/Schemas.v ===== *)
(** * Bounded JSON, schema admission and attachment paths

    [hf2l_exchange.schemas]: canonical bytes, metadata size and depth bounds,
    the admission of a JSON Schema (local, acyclic references only), and the
    path and kind grammars. *)

From stdpp Require Import base gmap strings list.
From Stdlib Require Import ZArith Lia Ascii String.
From S2P Require Import Prelude Json Domain.

Definition MAX_METADATA_BYTES : Z := 65536.
Definition MAX_SCHEMA_BYTES : Z := 65536.
Definition MAX_ATTACHMENTS : Z := 256.
Definition DIALECT : string := "https://json-schema.org/draft/2020-12/schema".


Section Schemas.
Context {P : Platform}.

(** [canonical_bytes] *)
Definition canonical_bytes (value : json) : result string :=
  match dumps float_repr value with
  | Some s => Ok s
  | None => Error 422 "invalid_json"
  end.

(** [_bounded_json(value, depth)], with [room = 17 - depth] levels left:
    the depth bound is what makes the recursion terminate. *)
Fixpoint bounded_json (room : nat) (value : json) : result unit :=
  match room with
  | O => Error 422 "metadata_too_deep"
  | S room' =>
      match value with
      | JObj kvs => each (fun kv => bounded_json room' kv.2) kvs
      | JList l => each (bounded_json room') l
      | _ => Ok tt
      end
  end.

(** [metadata_size] *)
Definition metadata_size (metadata : json) : result Z :=
  if negb (is_dict metadata) then Error 422 "metadata_must_be_object"
  else
    let? _ := bounded_json 17 metadata in
    let? bytes := canonical_bytes metadata in
    let size := utf8_len bytes in
    if MAX_METADATA_BYTES <? size then Error 422 "metadata_too_large" else Ok size.

(** [schema_digest] *)
Definition schema_digest (schema : json) : result string :=
  let? bytes := canonical_bytes schema in Ok (sha256_hex bytes).

(** [int(token)] on ASCII digits with an optional sign; the other spellings
    [int] accepts (blanks, underscores, non-ASCII digits) are not array
    indices of a JSON pointer. *)
Definition py_int (s : string) : option Z :=
  let digits ds :=
    if (match ds with EmptyString => true | _ => false end) || negb (all_char is_digit ds) then None
    else Some (fold_left (fun acc c => 10 * acc + (byte_of c - 48)) (chars ds) 0) in
  match s with
  | String c s' =>
      if char_eqb c "-"%char then option_map Z.opp (digits s')
      else if char_eqb c "+"%char then digits s'
      else digits s
  | EmptyString => None
  end.

(** [l[i]] with Python's negative indices. *)
Definition py_index (l : list json) (i : Z) : option json :=
  let n := Z.of_nat (List.length l) in
  if (0 <=? i) && (i <? n) then l !! Z.to_nat i
  else if (i <? 0) && (- n <=? i) then l !! Z.to_nat (n + i)
  else None.

(** [token.replace("~1", "/").replace("~0", "~")] *)
Fixpoint replace2 (a b : ascii) (with_ : ascii) (s : string) : string :=
  match s with
  | String x ((String y s'') as s') =>
      if char_eqb x a && char_eqb y b then String with_ (replace2 a b with_ s'')
      else String x (replace2 a b with_ s')
  | _ => s
  end.
Definition unescape_token (token : string) : string :=
  replace2 "~"%char "0"%char "~"%char (replace2 "~"%char "1"%char "/"%char token).

(** The pointer walk of a local [$ref]; [None] is any of the caught
    [KeyError], [TypeError], [ValueError], [IndexError]. *)
Fixpoint resolve (target : json) (tokens : list string) : option json :=
  match tokens with
  | [] => Some target
  | t :: ts =>
      let token := unescape_token t in
      match target with
      | JList l => i ← py_int token; x ← py_index l i; resolve x ts
      | JObj kvs => x ← assoc token kvs; resolve x ts
      | _ => None
      end
  end.

(** [inspect(value, depth)] of [validate_schema], with [room = 17 - depth]. *)
Fixpoint inspect (schema : json) (room : nat) (value : json) : result unit :=
  match room with
  | O => Error 422 "schema_too_deep"
  | S room' =>
      match value with
      | JObj kvs =>
          if has_key "$id" kvs || has_key "$dynamicRef" kvs || has_key "$recursiveRef" kvs
          then Error 422 "schema_reference_unsupported"
          else
            let? _ := (match assoc "$ref" kvs with
                      | None => Ok tt
                      | Some (JStr ref) =>
                          if negb (startswith ref "#/") then Error 422 "schema_reference_unsupported"
                          else match resolve schema (split_on "/"%char (String.substring 2 (String.length ref) ref)) with
                               | Some target => inspect schema room' target
                               | None => Error 422 "schema_reference_missing"
                               end
                      | Some _ => Error 422 "schema_reference_unsupported"
                      end) in
            each (fun kv => inspect schema room' kv.2) kvs
      | JList l => each (inspect schema room') l
      | _ => Ok tt
      end
  end.

(** [validate_schema] *)
Definition validate_schema (schema : json) : result unit :=
  match schema with
  | JObj kvs =>
      let? bytes := canonical_bytes schema in
      if MAX_SCHEMA_BYTES <? utf8_len bytes then Error 422 "invalid_schema"
      else if negb (py_eqb (get_or kvs "$schema" (JStr DIALECT)) (JStr DIALECT))
              || negb (py_eqb (get_or_none kvs "type") (JStr "object"))
      then Error 422 "unsupported_schema_dialect_or_root"
      else
        let? _ := inspect schema 17 schema in
        if schema_wellformed schema then Ok tt else Error 422 "invalid_schema"
  | _ => Error 422 "invalid_schema"
  end.

(** [validate_metadata] *)
Definition validate_metadata (metadata schema : json) : result Z :=
  let? size := metadata_size metadata in
  if schema_accepts schema metadata then Ok size else Error 422 "metadata_schema_mismatch".

Lemma metadata_size_bounds metadata n : metadata_size metadata = Ok n -> 0 <= n <= MAX_METADATA_BYTES.
Proof.
  unfold metadata_size. destruct (negb _); [done|]. destruct (bounded_json 17 metadata); [|done].
  destruct (canonical_bytes metadata) as [bytes|]; [|done].
  destruct (MAX_METADATA_BYTES <? utf8_len bytes) eqn:E; [done|]. intros [= <-]. apply Z.ltb_ge in E.
  unfold utf8_len in *. lia.
Qed.

Lemma validate_metadata_bounds metadata schema n : validate_metadata metadata schema = Ok n -> 0 <= n <= MAX_METADATA_BYTES.
Proof.
  unfold validate_metadata. destruct (metadata_size metadata) as [m|] eqn:E; [|done].
  destruct (schema_accepts schema metadata); [|done]. intros [= <-]. exact (metadata_size_bounds _ _ E).
Qed.

(** [validate_path] *)
Definition path_ok (path : string) : bool :=
  negb (String.eqb path "") && (utf8_len path <=? 256)
  && negb (any_char (fun c => char_eqb c "\"%char) path)
  && negb (startswith path "/")
  && negb (any_char (fun c => (byte_of c <? 32) || (byte_of c =? 127)) path)
  && negb (existsb (fun part => mem_str part [""; "."; ".."]) (split_on "/"%char path))
  && negb (any_char (fun c => char_eqb c ":"%char) path).
Definition validate_path (path : json) : result string :=
  match path with
  | JStr s => if path_ok s then Ok s else Error 422 "invalid_attachment_path"
  | _ => Error 422 "invalid_attachment_path"
  end.

(** [validate_kind]: [[A-Za-z0-9][A-Za-z0-9_.-]{0,127}] in full. *)
Definition is_kind_char (c : ascii) : bool :=
  is_alnum c || char_eqb c "_"%char || char_eqb c "."%char || char_eqb c "-"%char.
Definition kind_ok (kind : string) : bool :=
  match kind with
  | EmptyString => false
  | String c rest => is_alnum c && all_char is_kind_char rest && (utf8_len rest <=? 127)
  end.
Definition validate_kind (kind : json) : result string :=
  match kind with
  | JStr s => if kind_ok s then Ok s else Error 422 "invalid_kind"
  | _ => Error 422 "invalid_kind"
  end.
End Schemas.
