(* ===== verification/Profiles.v ===== *)
(** * Space profiles: optional application constraints

    [hf2l_exchange.profiles]: the generic profile, which adds nothing, and the
    trusted FedAvg profile, which fixes who publishes what, which updates a
    round may select, and what provenance the next global model must declare. *)

From stdpp Require Import base gmap strings list.
From Stdlib Require Import ZArith Lia.
From S2P Require Import Prelude Json Domain.

(** The dict [Service.profile_record] hands to a profile. *)
Record Descriptor := mkDescriptor {
  d_id : string;
  d_kind : string;
  d_creator : string;
  d_metadata : list (string * json);
  d_creator_bindings : list (string * json);
  d_published_at : option Z;
  d_state : RecordState;
}.

(** The member dict a profile reads. *)
Record MemberView := mkMemberView {
  v_roles : list string;
  v_bindings : list (string * json);
}.

(** [_PROFILES]: a static registry; [FedAvgProfile] carries its minimum. *)
Inductive Profile :=
  | Generic
  | FedAvg (minimum_participants : Z).

Definition profile_registry : list (string * Profile) :=
  [("generic.v1", Generic); ("fedavg.v1", FedAvg 2)].

(** [get_profile] *)
Definition get_profile (name : json) : result Profile :=
  match name with
  | JStr s =>
      match find (fun np => String.eqb np.1 s) profile_registry with
      | Some np => Ok np.2
      | None => Error 422 "unknown_profile"
      end
  | _ => Error 422 "unknown_profile"
  end.

(** [profile_names] *)
Definition profile_names : list string := profile_registry.*1.

Definition same_set (l1 l2 : list string) : bool := bool_decide (list_to_set l1 =@{gset string} list_to_set l2).

(** [not isinstance(p, str) or not p or len(p) > 128] *)
Definition bad_participant (p : json) : bool :=
  match p with JStr s => String.eqb s "" || (128 <? py_len s) | _ => true end.

(** [policy_defaults] *)
Definition policy_defaults (p : Profile) (kind : string) : list (string * json) :=
  let generic := [("publish_roles", json_strings ["contributor"; "publisher"]); ("visibility", JStr "shared")] in
  match p with
  | Generic => generic
  | FedAvg _ =>
      if String.eqb kind "training.update" then
        [("publish_roles", json_strings ["contributor"]); ("visibility", JStr "private")]
      else if String.eqb kind "model.global" then
        [("publish_roles", json_strings ["publisher"]); ("visibility", JStr "shared")]
      else generic
  end.

(** [validate_policy] *)
Definition profile_validate_policy (p : Profile) (kind : string) (roles : list string) (visibility : string) : result unit :=
  match p with
  | Generic => Ok tt
  | FedAvg _ =>
      if String.eqb kind "model.global" && (negb (same_set roles ["publisher"]) || negb (String.eqb visibility "shared"))
      then Error 422 "profile_policy_conflict"
      else if String.eqb kind "training.update" && negb (same_set roles ["contributor"])
      then Error 422 "profile_policy_conflict"
      else Ok tt
  end.

(** [validate_bindings] *)
Definition validate_bindings (p : Profile) (bindings : list (string * json)) (others : list (list (string * json))) : result unit :=
  match p with
  | Generic => Ok tt
  | FedAvg _ =>
      let participant := get_or_none bindings "participant" in
      if is_none participant then Ok tt
      else if bad_participant participant then Error 422 "invalid_participant"
      else if existsb (fun other => py_eqb (get_or_none other "participant") participant) others
      then Error 409 "participant_already_bound"
      else Ok tt
  end.

(** [record_base_id] *)
Definition record_base_id (p : Profile) (kind : json) (metadata : list (string * json)) : json :=
  match p with
  | Generic => JNull
  | FedAvg _ =>
      if py_eqb kind (JStr "training.update") || py_eqb kind (JStr "model.global")
      then get_or_none metadata "base_record_id" else JNull
  end.

(** [validate_record] *)
Definition validate_record (p : Profile) (kind : string) (metadata creator_bindings : list (string * json)) : result unit :=
  match p with
  | Generic => Ok tt
  | FedAvg _ =>
      if String.eqb kind "training.update" then
        if bad_participant (get_or_none creator_bindings "participant") then Error 422 "participant_binding_required"
        else if negb (is_str (get_or_none metadata "base_record_id")) || negb (truthy (get_or_none metadata "base_record_id"))
        then Error 422 "round_base_required"
        else if match get_or_none metadata "sample_count" with JInt n => n <? 1 | _ => true end
        then Error 422 "invalid_sample_count"
        else if has_key "participant" metadata then Error 422 "participant_is_server_attributed"
        else Ok tt
      else if String.eqb kind "model.global" then
        match get_or metadata "inputs" (JList []) with
        | JList inputs =>
            match strings_of inputs with
            | Some ids =>
                if mem_str "" ids then Error 422 "invalid_result_inputs"
                else if negb (bool_decide (NoDup ids)) then Error 422 "invalid_result_inputs"
                else if negb (is_none (get_or_none metadata "base_record_id")) && negb (is_str (get_or_none metadata "base_record_id"))
                then Error 422 "invalid_round_base"
                else Ok tt
            | None => Error 422 "invalid_result_inputs"
            end
        | _ => Error 422 "invalid_result_inputs"
        end
      else Ok tt
  end.

(** [validate_publish] *)
Definition validate_publish (p : Profile) (kind : string) (metadata record_bindings current_bindings : list (string * json)) : result unit :=
  match p with
  | Generic => Ok tt
  | FedAvg _ =>
      let? _ := validate_record p kind metadata record_bindings in
      if String.eqb kind "training.update" && negb (py_eqb (JObj record_bindings) (JObj current_bindings))
      then Error 409 "participant_binding_changed" else Ok tt
  end.

(** [selection_spec]: kind, base, minimum and the error for too few inputs. *)
Record SelectionSpec := mkSelectionSpec {
  sel_kind : string;
  sel_base_id : string;
  sel_minimum : Z;
  sel_minimum_error : string;
}.
Definition selection_spec (p : Profile) (reference_name base_id : string) : option SelectionSpec :=
  match p with
  | Generic => None
  | FedAvg minimum =>
      if String.eqb reference_name "main"
      then Some (mkSelectionSpec "training.update" base_id minimum "insufficient_participants")
      else None
  end.

(** [input_eligible] *)
Definition input_eligible (p : Profile) (record : Descriptor) (member : option MemberView) : bool :=
  match p with
  | Generic => true
  | FedAvg _ =>
      if negb (String.eqb (d_kind record) "training.update") then true
      else match member with
           | None => false
           | Some m => mem_str "contributor" (v_roles m)
                       && py_eqb (JObj (v_bindings m)) (JObj (d_creator_bindings record))
           end
  end.

(** [validate_input_current] *)
Definition validate_input_current (p : Profile) (record : Descriptor) (member : option MemberView) : result unit :=
  match p with
  | Generic => Ok tt
  | FedAvg _ => raise_when (negb (input_eligible p record member)) 409 "input_participant_revoked"
  end.

Definition participant_of (record : Descriptor) : json := get_or_none (d_creator_bindings record) "participant".

(** [len({...}) == len(l)] for the participants of the used records: they are
    pairwise different values. *)
Fixpoint distinct_values (l : list json) : bool :=
  match l with
  | [] => true
  | v :: l' => negb (existsb (py_eqb v) l') && distinct_values l'
  end.

(** [completion_inputs] *)
Definition completion_inputs (p : Profile) (result_ : Descriptor) (frozen : list Descriptor) (reference_name : string) : result (list Descriptor) :=
  match p with
  | Generic => Ok frozen
  | FedAvg minimum =>
      if negb (String.eqb reference_name "main") then Ok frozen
      else
        match get_or (d_metadata result_) "inputs" (JList []) with
        | JList declared_values =>
            match strings_of declared_values with
            | None => Error 409 "invalid_result_inputs"
            | Some declared =>
                if negb (bool_decide (NoDup declared)) then Error 409 "invalid_result_inputs"
                else if negb (forallb (fun rid => existsb (fun r => String.eqb (d_id r) rid) frozen) declared)
                then Error 409 "result_provenance_mismatch"
                else
                  let used := omap (fun rid => find (fun r => String.eqb (d_id r) rid) frozen) declared in
                  let participants := map participant_of used in
                  if (Z.of_nat (List.length used) <? minimum)
                     || negb (distinct_values participants)
                     || existsb is_none participants
                  then Error 409 "insufficient_participants"
                  else Ok used
            end
        | _ => Error 409 "invalid_result_inputs"
        end
  end.

(** [validate_type] *)
Definition annotations : list string := ["title"; "description"; "$comment"; "examples"; "default"].
Definition only_keys (allowed : list string) (kvs : list (string * json)) : bool :=
  forallb (fun k => mem_str k allowed) (keys kvs).
Definition validate_type (p : Profile) (kind : string) (schema : list (string * json)) : result unit :=
  match p with
  | Generic => Ok tt
  | FedAvg _ =>
      if negb (mem_str kind ["training.update"; "model.global"]) then Ok tt
      else if negb (only_keys (["$schema"; "type"; "properties"; "required"; "additionalProperties"] ++ annotations) schema)
      then Error 422 "profile_schema_conflict"
      else if negb (is_bool (get_or schema "additionalProperties" (JBool true)))
      then Error 422 "profile_schema_conflict"
      else
        let expected := if String.eqb kind "training.update"
                        then [("base_record_id", "string"); ("sample_count", "integer")]
                        else [("inputs", "array"); ("base_record_id", "string")] in
        let? properties := as_dict (get_or schema "properties" (JObj [])) in
        each (fun '(field, expected_type) =>
          match assoc field properties with
          | Some (JObj spec) =>
              if negb (py_eqb (get_or_none spec "type") (JStr expected_type)) || negb (only_keys ("type" :: annotations) spec)
              then Err (ExchangeError 422 "profile_schema_conflict" field) else Ok tt
          | Some _ => Err (ExchangeError 422 "profile_schema_conflict" field)
          | None =>
              if json_eqb (get_or_none schema "additionalProperties") (JBool false)
              then Err (ExchangeError 422 "profile_schema_conflict" field) else Ok tt
          end) expected
  end.

(** The loop of [validate_reference] over the frozen inputs: each is an update
    of this base by a participant not seen before. *)
Fixpoint check_round_inputs (base_record_id : string) (inputs : list Descriptor) (participants : list string) : result unit :=
  match inputs with
  | [] => Ok tt
  | item :: rest =>
      match participant_of item with
      | JStr participant =>
          if negb (String.eqb (d_kind item) "training.update")
             || negb (py_eqb (get_or_none (d_metadata item) "base_record_id") (JStr base_record_id))
             || String.eqb participant "" || mem_str participant participants
          then Error 409 "invalid_round_inputs"
          else check_round_inputs base_record_id rest (participant :: participants)
      | _ => Error 409 "invalid_round_inputs"
      end
  end.

(** [validate_reference] *)
Definition validate_reference (p : Profile) (name : string) (record : Descriptor) (inputs : list Descriptor) (base_record_id : option string) : result unit :=
  match p with
  | Generic => Ok tt
  | FedAvg minimum =>
      if negb (String.eqb name "main") then Ok tt
      else if negb (String.eqb (d_kind record) "model.global") then Error 422 "profile_reference_kind"
      else
        let metadata := d_metadata record in
        match base_record_id with
        | None =>
            if negb (is_none (get_or_none metadata "base_record_id")) || truthy (get_or metadata "inputs" (JList []))
            then Error 409 "initial_model_has_provenance" else Ok tt
        | Some base =>
            if match inputs with [] => true | _ => false end then Error 409 "coordination_required"
            else if Z.of_nat (List.length inputs) <? minimum then Error 409 "insufficient_participants"
            else
              let? _ := check_round_inputs base inputs [] in
              let declared := match get_or metadata "inputs" (JList []) with
                              | JList l => strings_of l | _ => None end in
              if negb (py_eqb (get_or_none metadata "base_record_id") (JStr base))
                 || negb (match declared with Some l => same_set l (map d_id inputs) | None => false end)
              then Error 409 "result_provenance_mismatch" else Ok tt
        end
  end.

(** [select_inputs]: the newest eligible update of each participant, by
    [(published_at or 0, id)], in participant order. *)
Definition selection_key (r : Descriptor) : Z * string := (default 0 (d_published_at r), d_id r).
Definition key_gt (a b : Z * string) : bool :=
  (b.1 <? a.1) || ((a.1 =? b.1) && match String.compare a.2 b.2 with Gt => true | _ => false end).

Definition select_step (base_record_id : string) (selected : gmap string Descriptor) (record : Descriptor) : gmap string Descriptor :=
  if negb (bool_decide (d_state record = PUBLISHED)) || negb (String.eqb (d_kind record) "training.update") then selected
  else if negb (py_eqb (get_or_none (d_metadata record) "base_record_id") (JStr base_record_id)) then selected
  else match participant_of record with
       | JStr participant =>
           if String.eqb participant "" then selected
           else match selected !! participant with
                | None => <[participant := record]> selected
                | Some previous =>
                    if key_gt (selection_key record) (selection_key previous)
                    then <[participant := record]> selected else selected
                end
       | _ => selected
       end.

Definition select_inputs (p : Profile) (records : list Descriptor) (base_record_id : string) : list Descriptor :=
  match p with
  | Generic => records
  | FedAvg _ =>
      (sort_items (map_to_list (fold_left (select_step base_record_id) records ∅))).*2
  end.
