(* ===== verification/Models.v ===== *)
(** * The exchange database and its sessions

    [hf2l_exchange.models]: one record per mapped table, the database as one
    finite map per table, and the session operations the commands use -- reads
    by primary key, [where] queries, insertions that fail on a duplicate key,
    row updates, bulk updates and deletions -- with [atomically] as the
    transaction that rolls the database back when its body raises. *)

From stdpp Require Import base gmap strings list fin_maps.
From Stdlib Require Import ZArith Lia.
From S2P Require Import Prelude Json Domain.

Definition dict : Type := list (string * json).

(** ** Tables *)
Record Space := mkSpace {
  sp_id : string;
  sp_name : string;
  sp_profile : string;
  sp_generation : Z;
  quota_bytes : Z;
  principal_quota_bytes : Z;
  allocated : Z;
  reclaiming : Z;
  quota_records : Z;
  record_count : Z;
  quota_metadata_bytes : Z;
  metadata_bytes : Z;
  event_floor : Z;
}.
#[global] Instance eta_Space : Eta Space := fun r => mkSpace (sp_id r) (sp_name r) (sp_profile r)
  (sp_generation r) (quota_bytes r) (principal_quota_bytes r) (allocated r) (reclaiming r)
  (quota_records r) (record_count r) (quota_metadata_bytes r) (metadata_bytes r) (event_floor r).

Record ManagedSpace := mkManagedSpace {
  ms_space_id : string;
  ms_job_id : string;
  ms_created_at : Z;
  ms_retired_at : option Z;
}.
#[global] Instance eta_ManagedSpace : Eta ManagedSpace := fun r =>
  mkManagedSpace (ms_space_id r) (ms_job_id r) (ms_created_at r) (ms_retired_at r).

Record WorkloadGrant := mkWorkloadGrant {
  gr_id : string;
  gr_space_id : string;
  gr_principal_id : string;
  gr_subject : string;
  gr_job_id : string;
  gr_attempt_id : string;
  gr_component_id : string;
  gr_epoch : Z;
  gr_roles : list string;
  gr_bindings : dict;
  gr_certificate_thumbprint : string;
  gr_expires_at : Z;
  gr_enabled : bool;
  gr_created_at : Z;
  gr_revoked_at : option Z;
}.
#[global] Instance eta_WorkloadGrant : Eta WorkloadGrant := fun r => mkWorkloadGrant (gr_id r)
  (gr_space_id r) (gr_principal_id r) (gr_subject r) (gr_job_id r) (gr_attempt_id r) (gr_component_id r)
  (gr_epoch r) (gr_roles r) (gr_bindings r) (gr_certificate_thumbprint r) (gr_expires_at r)
  (gr_enabled r) (gr_created_at r) (gr_revoked_at r).

Record Member := mkMember {
  mb_space_id : string;
  mb_principal_id : string;
  mb_subject : option string;
  mb_roles : list string;
  mb_bindings : dict;
}.
#[global] Instance eta_Member : Eta Member := fun r =>
  mkMember (mb_space_id r) (mb_principal_id r) (mb_subject r) (mb_roles r) (mb_bindings r).

Record SchemaRevision := mkSchemaRevision {
  sr_id : string;
  sr_space_id : string;
  sr_kind : string;
  sr_revision : Z;
  sr_schema : json;
  sr_profile_version : string;
  sr_dialect : json;
  sr_digest : string;
  sr_created_at : Z;
}.

Record KindPolicy := mkKindPolicy {
  kp_space_id : string;
  kp_kind : string;
  kp_publish_roles : list string;
  kp_visibility : string;
  kp_generation : Z;
}.
#[global] Instance eta_KindPolicy : Eta KindPolicy := fun r =>
  mkKindPolicy (kp_space_id r) (kp_kind r) (kp_publish_roles r) (kp_visibility r) (kp_generation r).

Record Record_ := mkRecord {
  rec_id : string;
  rec_space_id : string;
  rec_kind : string;
  rec_schema_revision_id : string;
  rec_creator : string;
  rec_creator_bindings : dict;
  rec_base_record_id : option string;
  rec_metadata_json : dict;
  rec_state : RecordState;
  rec_shared : bool;
  rec_generation : Z;
  rec_declared_bytes : Z;
  rec_metadata_bytes : Z;
  rec_created_at : Z;
  rec_published_at : option Z;
  rec_expires_at : Z;
}.
#[global] Instance eta_Record : Eta Record_ := fun r => mkRecord (rec_id r) (rec_space_id r) (rec_kind r)
  (rec_schema_revision_id r) (rec_creator r) (rec_creator_bindings r) (rec_base_record_id r)
  (rec_metadata_json r) (rec_state r) (rec_shared r) (rec_generation r) (rec_declared_bytes r)
  (rec_metadata_bytes r) (rec_created_at r) (rec_published_at r) (rec_expires_at r).

Record Blob := mkBlob {
  bl_id : string;
  bl_space_id : string;
  bl_record_id : string;
  bl_path : string;
  bl_size : Z;
  bl_sha256 : string;
  bl_media_type : json;
  bl_state : TransferState;
  bl_object_key : option string;
  bl_object_version : option string;
  bl_verified_size : option Z;
  bl_verified_sha256 : option string;
  bl_part_size : Z;
  bl_grant_expires_at : Z;
  bl_pending_deletion : bool;
  bl_expires_at : Z;
}.
#[global] Instance eta_Blob : Eta Blob := fun r => mkBlob (bl_id r) (bl_space_id r) (bl_record_id r)
  (bl_path r) (bl_size r) (bl_sha256 r) (bl_media_type r) (bl_state r) (bl_object_key r)
  (bl_object_version r) (bl_verified_size r) (bl_verified_sha256 r) (bl_part_size r)
  (bl_grant_expires_at r) (bl_pending_deletion r) (bl_expires_at r).

(** The [upload_handle] JSON column: [id] and [key] once started, [version]
    once completed. *)
Record UploadHandleColumn := mkHandle {
  uh_id : option string;
  uh_key : option string;
  uh_version : option string;
}.
#[global] Instance eta_Handle : Eta UploadHandleColumn := fun r => mkHandle (uh_id r) (uh_key r) (uh_version r).
Definition no_handle : UploadHandleColumn := mkHandle None None None.

Record TransferAttempt := mkAttempt {
  at_id : string;
  at_blob_id : string;
  at_operation : string;
  at_object_key : string;
  at_state : TransferState;
  at_token : option string;
  at_lease_until : option Z;
  at_retry_count : Z;
  at_next_attempt : Z;
  at_last_error : option string;
  at_upload_handle : UploadHandleColumn;
  at_mutation_tokens : list string;
  at_grant_expires_at : Z;
  at_created_at : Z;
  at_updated_at : Z;
}.
#[global] Instance eta_Attempt : Eta TransferAttempt := fun r => mkAttempt (at_id r) (at_blob_id r)
  (at_operation r) (at_object_key r) (at_state r) (at_token r) (at_lease_until r) (at_retry_count r)
  (at_next_attempt r) (at_last_error r) (at_upload_handle r) (at_mutation_tokens r)
  (at_grant_expires_at r) (at_created_at r) (at_updated_at r).

Record Reference := mkReference {
  ref_space_id : string;
  ref_name : string;
  ref_record_id : string;
  ref_generation : Z;
  ref_fence : Z;
}.
#[global] Instance eta_Reference : Eta Reference := fun r =>
  mkReference (ref_space_id r) (ref_name r) (ref_record_id r) (ref_generation r) (ref_fence r).

Inductive CoordinationState := CO_ACTIVE | CO_EXPIRED | CO_ABANDONED | CO_COMPLETED.
#[global] Instance coordination_state_eq_dec : EqDecision CoordinationState.
Proof. solve_decision. Defined.
Definition coordination_state_value (s : CoordinationState) : string :=
  match s with
  | CO_ACTIVE => "active" | CO_EXPIRED => "expired"
  | CO_ABANDONED => "abandoned" | CO_COMPLETED => "completed"
  end.

Record Coordination := mkCoordination {
  co_id : string;
  co_space_id : string;
  co_reference_name : string;
  co_expected_generation : Z;
  co_holder : string;
  co_fence : Z;
  co_state : CoordinationState;
  co_lease_until : Z;
  co_result_record_id : option string;
  co_created_at : Z;
}.
#[global] Instance eta_Coordination : Eta Coordination := fun r => mkCoordination (co_id r)
  (co_space_id r) (co_reference_name r) (co_expected_generation r) (co_holder r) (co_fence r)
  (co_state r) (co_lease_until r) (co_result_record_id r) (co_created_at r).

Record CoordinationInput := mkCoordinationInput {
  ci_attempt_id : string;
  ci_record_id : string;
  ci_space_id : string;
}.

Record Event := mkEvent {
  ev_id : Z;
  ev_space_id : string;
  ev_record_id : option string;
  ev_type : string;
  ev_principal_id : string;
  ev_payload : dict;
  ev_created_at : Z;
}.

Record Operation := mkOperation {
  op_request_hash : string;
  op_response : json;
  op_created_at : Z;
}.

(** ** The database: one finite map per table, and the event sequence *)
Record DB := mkDB {
  spaces : gmap string Space;
  managed_spaces : gmap string ManagedSpace;
  workload_revocations : gmap (string * string) Z;
  workload_grants : gmap string WorkloadGrant;
  members : gmap (string * string) Member;
  schema_revisions : gmap string SchemaRevision;
  kind_policies : gmap (string * string) KindPolicy;
  records : gmap string Record_;
  blobs : gmap string Blob;
  attempts : gmap string TransferAttempt;
  references : gmap (string * string) Reference;
  coordinations : gmap string Coordination;
  coordination_inputs : gmap (string * string) CoordinationInput;
  events : gmap Z Event;
  operations : gmap (string * string * (string * string)) Operation;
  last_event_id : Z;
}.
#[global] Instance eta_DB : Eta DB := fun d => mkDB (spaces d) (managed_spaces d)
  (workload_revocations d) (workload_grants d) (members d) (schema_revisions d) (kind_policies d)
  (records d) (blobs d) (attempts d) (references d) (coordinations d) (coordination_inputs d)
  (events d) (operations d) (last_event_id d).

Definition empty_db : DB := mkDB ∅ ∅ ∅ ∅ ∅ ∅ ∅ ∅ ∅ ∅ ∅ ∅ ∅ ∅ ∅ 0.

Definition SPACES : Tab DB string Space := mkTab spaces (fun f d => d <| spaces ::= f |>).
Definition MANAGED : Tab DB string ManagedSpace := mkTab managed_spaces (fun f d => d <| managed_spaces ::= f |>).
Definition REVOCATIONS : Tab DB (string * string) Z := mkTab workload_revocations (fun f d => d <| workload_revocations ::= f |>).
Definition GRANTS : Tab DB string WorkloadGrant := mkTab workload_grants (fun f d => d <| workload_grants ::= f |>).
Definition MEMBERS : Tab DB (string * string) Member := mkTab members (fun f d => d <| members ::= f |>).
Definition REVISIONS : Tab DB string SchemaRevision := mkTab schema_revisions (fun f d => d <| schema_revisions ::= f |>).
Definition POLICIES : Tab DB (string * string) KindPolicy := mkTab kind_policies (fun f d => d <| kind_policies ::= f |>).
Definition RECORDS : Tab DB string Record_ := mkTab records (fun f d => d <| records ::= f |>).
Definition BLOBS : Tab DB string Blob := mkTab blobs (fun f d => d <| blobs ::= f |>).
Definition ATTEMPTS : Tab DB string TransferAttempt := mkTab attempts (fun f d => d <| attempts ::= f |>).
Definition REFERENCES : Tab DB (string * string) Reference := mkTab references (fun f d => d <| references ::= f |>).
Definition COORDINATIONS : Tab DB string Coordination := mkTab coordinations (fun f d => d <| coordinations ::= f |>).
Definition INPUTS : Tab DB (string * string) CoordinationInput := mkTab coordination_inputs (fun f d => d <| coordination_inputs ::= f |>).
Definition EVENTS : Tab DB Z Event := mkTab events (fun f d => d <| events ::= f |>).
Definition OPERATIONS : Tab DB (string * string * (string * string)) Operation := mkTab operations (fun f d => d <| operations ::= f |>).

(** ** Sessions

    The state of a running process: the database, how many times the clock and
    the identifier source have been read, and how many times the process has
    called out (to the storage provider, or to begin a session other threads
    may precede). *)
Record World := mkWorld {
  w_db : DB;
  w_clock : nat;
  w_uuid : nat;
  w_calls : nat;
}.
#[global] Instance eta_World : Eta World := fun w => mkWorld (w_db w) (w_clock w) (w_uuid w) (w_calls w).

Section Sessions.
Context {P : Platform}.

(** [session.get(T, key)] *)
Definition get_row {K V} `{Countable K} (T : Tab DB K V) (k : K) : M World (option V) :=
  gets (fun w => t_get T (w_db w) !! k).

(** [session.scalars(select(T).where(...)).all()] *)
Definition select_where {K V} `{Countable K} (T : Tab DB K V) (p : V -> bool) : M World (list V) :=
  gets (fun w => rows p (t_get T (w_db w))).

(** [session.scalar(select(T.id).where(...))] is truthy: some row matches. *)
Definition exists_where {K V} `{Countable K} (T : Tab DB K V) (p : V -> bool) : M World bool :=
  gets (fun w => existsb p (map_to_list (t_get T (w_db w))).*2).

Definition update_table {K V} `{Countable K} (T : Tab DB K V) (f : gmap K V -> gmap K V) : M World unit :=
  modify (fun w => w <| w_db ::= t_upd T f |>).

(** [session.add(row); session.flush()]: the primary key, and any further
    unique constraint [clash], must be free. *)
Definition add_unique {K V} `{Countable K} (T : Tab DB K V) (clash : V -> bool) (k : K) (row : V) : M World unit :=
  let* old := get_row T k in
  let* clashes := exists_where T clash in
  throw_if (match old with Some _ => true | None => clashes end) IntegrityError ;;
  update_table T (insert k row).
Definition add_row {K V} `{Countable K} (T : Tab DB K V) (k : K) (row : V) : M World unit :=
  add_unique T (fun _ => false) k row.

(** Assignments to the attributes of a row of the session. *)
Definition set_row {K V} `{Countable K} (T : Tab DB K V) (k : K) (f : V -> V) : M World unit :=
  update_table T (alter f k).

(** [session.execute(update(T).where(p).values(...))] *)
Definition bulk_update {K V} `{Countable K} (T : Tab DB K V) (p : V -> bool) (f : V -> V) : M World unit :=
  update_table T (fmap (fun v => if p v then f v else v)).

(** [session.execute(delete(T).where(p))] *)
Definition bulk_delete {K V} `{Countable K} (T : Tab DB K V) (p : V -> bool) : M World unit :=
  update_table T (filter (fun kv => negb (p kv.2) = true)).

(** [session.delete(row)] *)
Definition delete_row {K V} `{Countable K} (T : Tab DB K V) (k : K) : M World unit :=
  update_table T (delete k).

(** [database_time(session)] *)
Definition database_time : M World Z :=
  fun w => (Ok (clock (w_clock w)), w <| w_clock ::= S |>).

(** [uuid.uuid4().hex] *)
Definition identifier : M World string :=
  fun w => (Ok (uuid4_hex (w_uuid w)), w <| w_uuid ::= S |>).

(** [with sessions.begin() as session: body]: commit, or roll the database
    back and re-raise. *)
Definition atomically {A} (body : M World A) : M World A :=
  fun w => match body w with
           | (Ok a, w') => (Ok a, w')
           | (Err e, w') => (Err e, w' <| w_db := w_db w |>)
           end.
End Sessions.
