(* ===== verification/Storage.v ===== *)
(** * The storage port and its S3 implementation

    [hf2l_exchange.storage]: the values that cross the port, the arithmetic of
    part sizes, the port itself as the class [BlobStore] the transfer service
    is written against, and the S3 multipart implementation over an object
    store client, which is a parameter ([S3Client]). *)

From stdpp Require Import base gmap strings list.
From Stdlib Require Import ZArith Lia.
From S2P Require Import Prelude Json Domain Models.

(** ** Values of the port *)
Record UploadHandle := mkUploadHandle { hd_id : string; hd_key : string }.
Record UploadedPart := mkUploadedPart { up_number : Z; up_etag : string; up_size : Z }.
Record StoredObject := mkStoredObject { so_key : option string; so_version : option string }.
Record Verification := mkVerification { vf_size : Z; vf_sha256 : string }.
Record TransferGrant := mkTransferGrant { tg_url : string; tg_headers : dict; tg_expires_at : Z }.

(** [dataclasses.asdict] *)
Definition part_dict (p : UploadedPart) : json :=
  JObj [("number", JInt (up_number p)); ("etag", JStr (up_etag p)); ("size", JInt (up_size p))].
Definition grant_asdict (g : TransferGrant) : dict :=
  [("url", JStr (tg_url g)); ("headers", JObj (tg_headers g)); ("expires_at", time_json (tg_expires_at g))].

(** [math.ceil(a / b)] of non-negative integers (exact below 2^53). *)
Definition ceil_div (a b : Z) : Z := (a + b - 1) / b.

Definition part_count (size part_size : Z) : Z := Z.max 1 (ceil_div size part_size).

Definition storage_failure (code : string) (retryable uncertain : bool) {A} : result A :=
  Err (StorageFailure code retryable uncertain).

(** [part_size_for] *)
Definition part_size_for (number size part_size : Z) : result Z :=
  if negb ((1 <=? number) && (number <=? part_count size part_size))
  then storage_failure "invalid_part_number" false false
  else Ok (Z.min part_size (size - (number - 1) * part_size)).

(** [[part_size_for(n, size, part_size) for n in numbers]] *)
Fixpoint part_sizes (numbers : list Z) (size part_size : Z) : result (list Z) :=
  match numbers with
  | [] => Ok []
  | n :: ns =>
      let? s := part_size_for n size part_size in
      let? ss := part_sizes ns size part_size in
      Ok (s :: ss)
  end.

(** ** The port

    The outcome of the [n]-th call out of the process is a function of [n]: it
    is up to the provider.  [others n] is what the other threads and processes
    commit to the database while the process is between two sessions. *)
Class BlobStore := {
  store_start : nat -> string -> result UploadHandle;
  store_parts : nat -> UploadHandle -> result (list UploadedPart);
  store_upload_grant : nat -> UploadHandle -> Z -> Z -> Z -> Z -> result TransferGrant;
  store_complete : nat -> UploadHandle -> Z -> Z -> result StoredObject;
  store_verify : nat -> StoredObject -> Z -> string -> result Verification;
  store_download_grant : nat -> StoredObject -> Z -> Z -> result TransferGrant;
  store_cleanup : nat -> string -> result unit;
  others : nat -> DB -> DB;
}.

(** [self.storage.op(...)]: a call out of the process. *)
Definition provider {A} (op : nat -> result A) : M World A :=
  fun w => (op (w_calls w), w <| w_calls ::= S |>).

Section Sessions.
Context {B : BlobStore}.

(** What other threads commit before the next session begins. *)
Definition interleaved : M World unit :=
  fun w => (Ok tt, w <| w_db ::= others (w_calls w) |> <| w_calls ::= S |>).

(** [with self.sessions.begin() as session: body] *)
Definition begin_session {A} (body : M World A) : M World A := interleaved ;; atomically body.
End Sessions.

(** ** [S3BlobStore]

    The object store client over its state [C].  A call raises [ClientError]
    with the provider's code, or another exception. *)
Class S3Client (C : Type) := {
  create_multipart_upload : string -> M C string;
  list_parts_pages : UploadHandle -> M C (list (list UploadedPart));
  head_object : string -> M C (option string);
  complete_multipart_upload : UploadHandle -> list (Z * string) -> M C (option string);
  get_object : StoredObject -> M C (list string);
  abort_multipart_upload : string -> string -> M C unit;
  list_parts : string -> string -> M C unit;
  list_multipart_uploads : string -> M C (list (list (string * string)));
  list_object_versions : string -> M C (list (list (string * string)));
  delete_object : string -> string -> M C unit;
  bucket_versioning : M C (option string);
}.

Section S3.
Context {P : Platform} {C : Type} {Cl : S3Client C}.

(** [_normalize] *)
Definition normalize (e : exn) : exn :=
  match e with
  | StorageFailure _ _ _ => e
  | ClientError error =>
      if mem_str error ["NoSuchKey"; "NoSuchUpload"; "NoSuchVersion"; "404"; "NotFound"]
      then StorageFailure "storage_missing" false false
      else if mem_str error ["AccessDenied"; "InvalidAccessKeyId"; "SignatureDoesNotMatch"; "403"]
      then StorageFailure "storage_misconfigured" true false
      else if mem_str error ["InvalidPart"; "InvalidPartOrder"; "EntityTooSmall"]
      then StorageFailure "invalid_parts" false false
      else StorageFailure "storage_unavailable" true true
  | _ => StorageFailure "storage_unavailable" true true
  end.

(** [@_provider_operation] *)
Definition provider_operation {A} (fn : M C A) : M C A := catch fn (fun e => throw (normalize e)).

(** [_version] *)
Definition s3_version (version : option string) : M C string :=
  match version with
  | Some v => if String.eqb v "" || String.eqb v "null" then lift (storage_failure "storage_misconfigured" true false)
              else ret v
  | None => lift (storage_failure "storage_misconfigured" true false)
  end.

(** [_recover_object] *)
Definition recover_object (key : string) : M C (option StoredObject) :=
  let* found := catch (let* v := head_object key in ret (Some v))
                  (fun e => match e with
                            | ClientError code => if mem_str code ["404"; "NoSuchKey"; "NotFound"] then ret None else throw e
                            | _ => throw e
                            end) in
  match found with
  | None => ret None
  | Some version => let* v := s3_version version in ret (Some (mkStoredObject (Some key) (Some v)))
  end.

(** [start] *)
Definition s3_start (key : string) : M C UploadHandle :=
  provider_operation (let* id := create_multipart_upload key in ret (mkUploadHandle id key)).

(** [sorted(parts, key=lambda p: p.number)], stable. *)
Fixpoint insert_part (p : UploadedPart) (l : list UploadedPart) : list UploadedPart :=
  match l with
  | [] => [p]
  | q :: l' => if up_number q <? up_number p then q :: insert_part p l' else p :: l
  end.

(** [parts] *)
Definition s3_parts (handle : UploadHandle) : M C (list UploadedPart) :=
  provider_operation (let* pages := list_parts_pages handle in ret (foldr insert_part [] (concat pages))).

(** [any(p.number != n or p.size != part_size_for(n, size, part_size) for n, p in enumerate(parts, n))] *)
Fixpoint parts_mismatch (n : Z) (parts : list UploadedPart) (size part_size : Z) : result bool :=
  match parts with
  | [] => Ok false
  | p :: rest =>
      if negb (up_number p =? n) then Ok true
      else
        let? expected := part_size_for n size part_size in
        if negb (up_size p =? expected) then Ok true else parts_mismatch (n + 1) rest size part_size
  end.

(** [complete] *)
Definition s3_complete (handle : UploadHandle) (size part_size : Z) : M C StoredObject :=
  provider_operation (
    let* existing := recover_object (hd_key handle) in
    match existing with
    | Some stored => ret stored
    | None =>
        let* parts := s3_parts handle in
        throw_if (negb (Z.of_nat (List.length parts) =? part_count size part_size))
          (StorageFailure "invalid_parts" false false) ;;
        let* mismatch := lift (parts_mismatch 1 parts size part_size) in
        throw_if mismatch (StorageFailure "invalid_parts" false false) ;;
        let* version := complete_multipart_upload handle (map (fun p => (up_number p, up_etag p)) parts) in
        let* v := s3_version version in
        ret (mkStoredObject (Some (hd_key handle)) (Some v))
    end).

(** [verify]: the body is read in chunks to its end. *)
Definition s3_verify (stored : StoredObject) (size : Z) (digest : string) : M C Verification :=
  provider_operation (
    let* chunks := get_object stored in
    let actual := mkVerification (fold_left (fun n c => n + utf8_len c) chunks 0)
                    (sha256_hex (fold_left String.append chunks "")) in
    throw_if (negb (vf_size actual =? size) || negb (String.eqb (vf_sha256 actual) digest))
      (StorageFailure "verification_failed" false false) ;;
    ret actual).

(** [_abort_confirm] *)
Definition missing_is_fine {A} (e : exn) (k : M C A) : M C A :=
  match normalize e with
  | StorageFailure code _ _ => if String.eqb code "storage_missing" then k else throw (normalize e)
  | failure => throw failure
  end.

Definition abort_confirm (key upload_id : string) : M C unit :=
  catch (abort_multipart_upload key upload_id) (fun e => missing_is_fine e (ret tt)) ;;
  let* gone := catch (list_parts key upload_id ;; ret false) (fun e => missing_is_fine e (ret true)) in
  throw_if (negb gone) (StorageFailure "cleanup_incomplete" true false).

(** [cleanup] *)
Definition s3_cleanup (key : string) : M C unit :=
  provider_operation (
    let* uploads := list_multipart_uploads key in
    for_each (concat uploads) (fun item => when (String.eqb item.1 key) (abort_confirm key item.2)) ;;
    let* versions := list_object_versions key in
    for_each (concat versions) (fun item => when (String.eqb item.1 key) (delete_object key item.2))).

(** [check] *)
Definition s3_check (key : string) : M C unit :=
  provider_operation (
    let* status := bucket_versioning in
    throw_if (negb (bool_decide (status = Some "Enabled"))) (StorageFailure "storage_misconfigured" true false) ;;
    let* _ := recover_object key in ret tt).
End S3.
