(* ===== verification/Service.v ===== *)
(** * Transactions, authorization, idempotency and events of the exchange service

    The parts of [hf2l_exchange.application.Service] that every command goes
    through: [transaction] with the membership, workload-grant and managed-space
    rules, [require], [emit], [once], and the visibility of records. *)

From stdpp Require Import base gmap strings list fin_maps.
From Stdlib Require Import ZArith Lia.
From S2P Require Import Prelude Json Domain Schemas Profiles Models.

(** [TERMINAL_EVENTS] *)
Definition TERMINAL_EVENTS : list string :=
  ["record.withdrawn"; "record.cancelled"; "record.failed"; "record.expired"].

Definition has_any (roles wanted : list string) : bool := existsb (fun r => mem_str r roles) wanted.
(** [set(a).issubset(b)] *)
Definition subset_of (a b : list string) : bool := forallb (fun x => mem_str x b) a.
Definition role_intersection (a b : list string) : list string :=
  sorted_set (List.filter (fun r => mem_str r b) a).

Section Service.
Context {P : Platform}.

(** [if row is None: raise Error(status, code)] *)
Definition found {A} (o : option A) (status : Z) (code : string) : M World A :=
  match o with Some a => ret a | None => raise status code end.

(** [domain.principal_id(issuer, subject)] *)
Definition bound_principal_id (issuer subject : string) : string :=
  sha256_hex ("[" +:+ dump_string_ascii issuer +:+ "," +:+ dump_string_ascii subject +:+ "]").

(** [_matching_grant] *)
Definition matching_grant (space : Space) (member : Member) (principal : Principal)
    (identity : WorkloadIdentity) (managed : option ManagedSpace) : M World WorkloadGrant :=
  match managed with
  | None => raise 404 "space_not_found"
  | Some managed =>
      raise_if (negb (workloads_enabled (auth_settings settings))
                || match ms_retired_at managed with Some _ => true | None => false end
                || negb (String.eqb (wi_space_id identity) (sp_id space))) 404 "space_not_found" ;;
      let* grant := get_row GRANTS (wi_grant_id identity) in
      let* now := database_time in
      match grant with
      | None => raise 403 "workload_grant_invalid"
      | Some grant =>
          raise_if (negb (gr_enabled grant) || (gr_expires_at grant <=? now) || (wi_expires_at identity <=? now)
                    || negb (String.eqb (gr_space_id grant) (sp_id space))
                    || negb (String.eqb (gr_principal_id grant) (pr_id principal))
                    || negb (String.eqb (gr_subject grant) (pr_subject principal))
                    || negb (String.eqb (gr_job_id grant) (ms_job_id managed))
                    || negb (String.eqb (gr_job_id grant) (wi_job_id identity))
                    || negb (String.eqb (gr_attempt_id grant) (wi_attempt_id identity))
                    || negb (String.eqb (gr_component_id grant) (wi_component_id identity))
                    || negb (gr_epoch grant =? wi_epoch identity)
                    || negb (String.eqb (gr_certificate_thumbprint grant) (wi_certificate_thumbprint identity))
                    || negb (py_eqb (JObj (gr_bindings grant)) (JObj (mb_bindings member))))
            403 "workload_grant_invalid" ;;
          raise_if (negb (has_any (mb_roles member) (gr_roles grant))) 403 "workload_grant_invalid" ;;
          ret grant
      end
  end.

(** The authorization view of a member inside [transaction]: a workload is
    capped by its grant's roles; in a managed space a human principal must be
    a provisioner, or a download broker reduced to [reader]. *)
Definition effective_member (space : Space) (member : Member) (principal : Principal)
    (managed : option ManagedSpace) : M World Member :=
  match pr_workload principal with
  | Some identity =>
      let* grant := matching_grant space member principal identity managed in
      ret (member <| mb_roles := role_intersection (mb_roles member) (gr_roles grant) |>)
  | None =>
      match managed with
      | None => ret member
      | Some _ =>
          let auth := auth_settings settings in
          raise_if (negb (mem_str (pr_id principal) (provisioning_principal_ids auth ++ download_broker_principal_ids auth)))
            404 "space_not_found" ;;
          if mem_str (pr_id principal) (provisioning_principal_ids auth) then ret member
          else
            let roles := role_intersection (mb_roles member) ["reader"] in
            raise_if (match roles with [] => true | _ => false end) 404 "space_not_found" ;;
            ret (member <| mb_roles := roles |>)
      end
  end.

(** [with self.transaction(space_id, principal, write, allow_retired=...) as
    (session, space, member): body] *)
Definition transaction {A} (space_id : string) (principal : Principal) (write allow_retired : bool)
    (body : Space -> Member -> M World A) : M World A :=
  atomically (
    let* space := get_row SPACES space_id in
    let* space := found space 404 "space_not_found" in
    let* member := get_row MEMBERS (space_id, pr_id principal) in
    let* member := found member 404 "space_not_found" in
    raise_if (match mb_roles member with [] => true | _ => false end) 404 "space_not_found" ;;
    let* managed := get_row MANAGED space_id in
    let* member := effective_member space member principal managed in
    raise_if (match managed with
              | Some m => match ms_retired_at m with Some _ => write && negb allow_retired | None => false end
              | None => false
              end) 409 "managed_space_retired" ;;
    body space member).

(** [require(member, *roles)] *)
Definition require (member : Member) (roles : list string) : M World unit :=
  raise_if (negb (has_any (mb_roles member) roles)) 403 "role_required".

(** [_require_provisioner] *)
Definition require_provisioner (principal : Principal) : M World unit :=
  raise_if (negb (workloads_enabled (auth_settings settings))
            || match pr_workload principal with Some _ => true | None => false end
            || negb (mem_str (pr_id principal) (provisioning_principal_ids (auth_settings settings))))
    403 "provisioning_principal_required".

(** [emit]: the row identifier is the next value of the event sequence. *)
Definition emit (space_id kind principal_id : string) (record_id : option string) (data : dict) : M World unit :=
  let* now := database_time in
  modify (fun w =>
    let d := w_db w in
    let id := last_event_id d + 1 in
    w <| w_db := d <| events ::= insert id (mkEvent id space_id record_id kind principal_id data now) |>
                   <| last_event_id := id |> |>).

(** [not isinstance(key, str) or not key or len(key) > 128] *)
Definition operation_key (key : json) : M World string :=
  match key with
  | JStr k => raise_if (String.eqb k "" || (128 <? py_len k)) 422 "idempotency_key_required" ;; ret k
  | _ => raise 422 "idempotency_key_required"
  end.

(** [once]: the recorded response of a repeated request, or the action's. *)
Definition once (space : Space) (principal : Principal) (scope : string) (key : json) (body : json)
    (action : M World json) : M World json :=
  let* k := operation_key key in
  let identity := (sp_id space, pr_id principal, (scope, k)) in
  let* bytes := lift (canonical_bytes body) in
  let digest := sha256_hex bytes in
  let* operation := get_row OPERATIONS identity in
  match operation with
  | Some op =>
      raise_if (negb (String.eqb (op_request_hash op) digest)) 409 "idempotency_conflict" ;;
      ret (op_response op)
  | None =>
      let* result := action in
      let* now := database_time in
      add_row OPERATIONS identity (mkOperation digest result now) ;;
      ret result
  end.

(** [visible_clause(member, principal)] on a record. *)
Definition visible_clause (member : Member) (principal : Principal) (record : Record_) : bool :=
  let roles := mb_roles member in
  let published := bool_decide (rec_state record = PUBLISHED) in
  let own := String.eqb (rec_creator record) (pr_id principal) in
  let readers := has_any roles ["reader"; "contributor"; "publisher"] in
  let contributor := mem_str "contributor" roles in
  let publisher := mem_str "publisher" roles in
  if readers || contributor || publisher then
    (readers && published && rec_shared record) || (contributor && own)
    || (publisher && published) || (publisher && own)
  else String.eqb (rec_id record) "__none__".

(** [record(session, space_id, record_id, member, principal, write)] *)
Definition record (space_id : string) (record_id : json) (member : Member) (principal : Principal)
    (write : bool) : M World Record_ :=
  match record_id with
  | JStr rid =>
      let* row := get_row RECORDS rid in
      match row with
      | Some r =>
          if negb (String.eqb (rec_space_id r) space_id) then raise 404 "record_not_found"
          else if write then
            require member ["contributor"; "publisher"] ;;
            raise_if (negb (String.eqb (rec_creator r) (pr_id principal))) 403 "record_owner_required" ;;
            ret r
          else
            raise_if (negb (visible_clause member principal r)) 404 "record_not_found" ;;
            ret r
      | None => raise 404 "record_not_found"
      end
  | _ => raise 404 "record_not_found"
  end.

(** [attachment(session, space_id, record_id, attachment_id)] *)
Definition attachment (space_id record_id attachment_id : string) : M World Blob :=
  let* row := get_row BLOBS attachment_id in
  match row with
  | Some b =>
      raise_if (negb (String.eqb (bl_space_id b) space_id) || negb (String.eqb (bl_record_id b) record_id))
        404 "attachment_not_found" ;;
      ret b
  | None => raise 404 "attachment_not_found"
  end.

(** [space_dict], [member_dict], [blob_dict], [record_dict] *)
Definition space_dict (s : Space) : dict :=
  [("id", JStr (sp_id s)); ("name", JStr (sp_name s)); ("profile", JStr (sp_profile s));
   ("quota_bytes", JInt (quota_bytes s)); ("principal_quota_bytes", JInt (principal_quota_bytes s));
   ("allocated", JInt (allocated s)); ("reclaiming", JInt (reclaiming s));
   ("quota_records", JInt (quota_records s)); ("record_count", JInt (record_count s));
   ("quota_metadata_bytes", JInt (quota_metadata_bytes s)); ("metadata_bytes", JInt (metadata_bytes s));
   ("generation", JInt (sp_generation s))].

Definition member_dict (m : Member) : dict :=
  [("principal_id", JStr (mb_principal_id m)); ("subject", opt_str (mb_subject m));
   ("roles", json_strings (mb_roles m)); ("bindings", JObj (mb_bindings m))].

Definition blob_dict (b : Blob) : json :=
  JObj [("id", JStr (bl_id b)); ("path", JStr (bl_path b)); ("size", JInt (bl_size b));
        ("sha256", JStr (bl_sha256 b)); ("media_type", bl_media_type b);
        ("state", JStr (transfer_state_value (bl_state b))); ("part_size", JInt (bl_part_size b))].

Definition record_dict_of (r : Record_) (bs : list Blob) : json :=
  JObj [("id", JStr (rec_id r)); ("space_id", JStr (rec_space_id r)); ("kind", JStr (rec_kind r));
        ("schema_revision_id", JStr (rec_schema_revision_id r)); ("metadata", JObj (rec_metadata_json r));
        ("state", JStr (record_state_value (rec_state r))); ("version", JInt (rec_generation r));
        ("shared", JBool (rec_shared r)); ("creator", JStr (rec_creator r));
        ("creator_bindings", JObj (rec_creator_bindings r)); ("created_at", time_json (rec_created_at r));
        ("published_at", opt_time_json (rec_published_at r)); ("expires_at", time_json (rec_expires_at r));
        ("attachments", JList (map blob_dict bs))].

(** [.order_by(Blob.path)] *)
Definition by_path (bs : list Blob) : list Blob := (sort_items (map (fun b => (bl_path b, b)) bs)).*2.

Definition record_blobs (record_id : string) : M World (list Blob) :=
  select_where BLOBS (fun b => String.eqb (bl_record_id b) record_id).

(** [record_dict(session, record)] of the current row. *)
Definition record_dict (record_id : string) : M World json :=
  let* row := get_row RECORDS record_id in
  match row with
  | None => throw AttributeError
  | Some r => let* bs := record_blobs record_id in ret (record_dict_of r (by_path bs))
  end.

(** [profile_record] *)
Definition profile_record (r : Record_) : Descriptor :=
  mkDescriptor (rec_id r) (rec_kind r) (rec_creator r) (rec_metadata_json r) (rec_creator_bindings r)
    (rec_published_at r) (rec_state r).

Definition member_view (m : Member) : MemberView := mkMemberView (mb_roles m) (mb_bindings m).

(** [get_profile(space.profile)] *)
Definition profile_of (space : Space) : M World Profile := lift (get_profile (JStr (sp_profile space))).
End Service.
