(* ===== verification/Spaces.v ===== *)
(** * Spaces, members, types and policies

    The administrative commands of [hf2l_exchange.application.Service]:
    [create_space], [get_space], [update_space_limits], the membership
    commands, [register_type], [get_type], [list_types] and [put_policy]. *)

From stdpp Require Import base gmap strings list fin_maps sorting.
From Stdlib Require Import ZArith Lia.
From S2P Require Import Prelude Json Domain Schemas Profiles Models Service.

Definition MAX_INT64 : Z := 2 ^ 63 - 1.

(** [type(v) is not int or not lo <= v <= hi], negated: the integer itself. *)
Definition int_in (lo hi : Z) (v : json) : option Z :=
  match v with JInt n => if (lo <=? n) && (n <=? hi) then Some n else None | _ => None end.

(** [not isinstance(roles, list) or any(role not in allowed for role in roles)]:
    the first offending element decides, and an unhashable one is a [TypeError]. *)
Fixpoint check_roles (allowed : list string) (code : string) (roles : list json) : result (list string) :=
  match roles with
  | [] => Ok []
  | JStr r :: rest =>
      if mem_str r allowed then let? rs := check_roles allowed code rest in Ok (r :: rs)
      else Error 422 code
  | (JList _ | JObj _) :: _ => Err TypeError
  | _ :: _ => Error 422 code
  end.

Section Spaces.
Context {P : Platform}.

(** [create_space] *)
Definition space_limits : list (string * Z) :=
  [("quota_bytes", 10 * 1024 ^ 3); ("principal_quota_bytes", 10 * 1024 ^ 3);
   ("quota_records", 100000); ("quota_metadata_bytes", 1024 ^ 3)].

Definition limit_of (body : dict) (name : string) (default_ : Z) : option Z :=
  int_in 1 MAX_INT64 (get_or body name (JInt default_)).

Definition new_space (sid name profile : string) (body : dict) : result Space :=
  match limit_of body "quota_bytes" (10 * 1024 ^ 3), limit_of body "principal_quota_bytes" (10 * 1024 ^ 3),
        limit_of body "quota_records" 100000, limit_of body "quota_metadata_bytes" (1024 ^ 3) with
  | Some qb, Some pqb, Some qr, Some qm => Ok (mkSpace sid name profile 1 qb pqb 0 0 qr 0 qm 0 0)
  | _, _, _, _ => Error 422 "invalid_quota"
  end.

Definition create_space (principal : Principal) (body : dict) (key : json) : M World json :=
  raise_if (match pr_workload principal with Some _ => true | None => false end) 403 "bootstrap_admin_required" ;;
  raise_if (negb (pr_bootstrap_admin principal)
            && (String.eqb (admin_subject (auth_settings settings)) ""
                || negb (String.eqb (pr_subject principal) (admin_subject (auth_settings settings)))))
    403 "bootstrap_admin_required" ;;
  let* k := operation_key key in
  let profile := get_or body "profile" (JStr "generic.v1") in
  let* _ := lift (get_profile profile) in
  let* name := (match get_or_none body "name" with
                | JStr s => raise_if (String.eqb s "" || (128 <? py_len s)) 422 "invalid_space_name" ;; ret s
                | _ => raise 422 "invalid_space_name"
                end) in
  let* bytes := lift (canonical_bytes (json_strings [pr_id principal; k])) in
  let sid := String.substring 0 32 (sha256_hex bytes) in
  atomically (
    let* existing := get_row SPACES sid in
    let* space := (match existing with
      | Some s => ret s
      | None =>
          let* s := lift (new_space sid name (match profile with JStr p => p | _ => "" end) body) in
          add_row SPACES sid s ;;
          add_row MEMBERS (sid, pr_id principal)
            (mkMember sid (pr_id principal) (Some (pr_subject principal)) (sorted_set ROLES) []) ;;
          emit sid "space.created" (pr_id principal) None [] ;;
          ret s
      end) in
    let* membership := get_row MEMBERS (sid, pr_id principal) in
    raise_if (match membership with
              | None => true
              | Some m => match mb_roles m with [] => true | _ => false end
              end) 404 "space_not_found" ;;
    once space principal "space.create" key (JObj body) (ret (JObj (space_dict space)))).

(** [get_space] *)
Definition get_space (principal : Principal) (space_id : string) : M World json :=
  transaction space_id principal false false (fun space _ =>
    let* managed := get_row MANAGED space_id in
    ret (JObj (match managed with
               | None => space_dict space
               | Some m => merge_dicts (space_dict space)
                   [("managed", JBool true); ("job_id", JStr (ms_job_id m)); ("retired_at", opt_time_json (ms_retired_at m))]
               end))).

(** The bytes a creator holds in a space: the joined sum over blobs that are
    not cleaned. *)
Definition creator_bytes (space_id creator : string) (d : DB) : Z :=
  sum_map (fun b => match records d !! bl_record_id b with
                    | Some r => if String.eqb (rec_space_id r) space_id && String.eqb (rec_creator r) creator
                                   && negb (bool_decide (bl_state b = CLEANED))
                                then bl_size b else 0
                    | None => 0
                    end) (blobs d).

(** [... .group_by(Record.creator).order_by(sum.desc()).limit(1)) or 0] *)
Definition largest_creator_bytes (space_id : string) (d : DB) : Z :=
  fold_left (fun acc r => Z.max acc (creator_bytes space_id (rec_creator r) d))
    (rows (fun r => String.eqb (rec_space_id r) space_id) (records d)) 0.

(** [setattr(space, name, value)] *)
Definition set_limit (name : string) (value : Z) (s : Space) : Space :=
  if String.eqb name "quota_bytes" then s <| quota_bytes := value |>
  else if String.eqb name "principal_quota_bytes" then s <| principal_quota_bytes := value |>
  else if String.eqb name "quota_records" then s <| quota_records := value |>
  else if String.eqb name "quota_metadata_bytes" then s <| quota_metadata_bytes := value |>
  else s.

(** [update_space_limits] *)
Definition limit_usage (space : Space) (principal_usage : Z) (name : string) : Z :=
  if String.eqb name "quota_bytes" then allocated space + reclaiming space
  else if String.eqb name "quota_records" then record_count space
  else if String.eqb name "quota_metadata_bytes" then metadata_bytes space
  else if String.eqb name "principal_quota_bytes" then principal_usage
  else 0.

Fixpoint int_items (body : dict) : option (list (string * Z)) :=
  match body with
  | [] => Some []
  | (k, v) :: rest => n ← int_in 1 MAX_INT64 v; ns ← int_items rest; Some ((k, n) :: ns)
  end.

Definition update_space_limits (principal : Principal) (space_id : string) (body : json) : M World json :=
  match body with
  | JObj ((_ :: _) as kvs) =>
      raise_if (negb (only_keys ["quota_bytes"; "principal_quota_bytes"; "quota_records"; "quota_metadata_bytes"] kvs))
        422 "invalid_quota_fields" ;;
      match int_items kvs with
      | None => raise 422 "invalid_quota"
      | Some limits =>
          transaction space_id principal true false (fun space member =>
            require member ["admin"] ;;
            let* usage := gets (fun w => if has_key "principal_quota_bytes" kvs
                                         then largest_creator_bytes space_id (w_db w) else 0) in
            raise_if (existsb (fun nv => nv.2 <? limit_usage space usage nv.1) limits) 409 "quota_below_current_usage" ;;
            let updated := fold_left (fun s nv => set_limit nv.1 nv.2 s) limits space <| sp_generation ::= Z.succ |> in
            set_row SPACES space_id (fun _ => updated) ;;
            emit space_id "space.limits_updated" (pr_id principal) None kvs ;;
            ret (JObj (space_dict updated)))
      end
  | _ => raise 422 "invalid_quota_fields"
  end.

(** [get_membership], [list_members] *)
Definition get_membership (principal : Principal) (space_id : string) : M World json :=
  transaction space_id principal false false (fun _ member => ret (JObj (member_dict member))).

Definition list_members (principal : Principal) (space_id : string) : M World json :=
  transaction space_id principal false false (fun _ member =>
    require member ["admin"] ;;
    let* ms := select_where MEMBERS (fun m => String.eqb (mb_space_id m) space_id) in
    let sorted := (sort_items (map (fun m => (mb_principal_id m, m)) ms)).*2 in
    ret (JObj [("items", JList (map (fun m => JObj (member_dict m)) sorted))])).

(** [put_member] *)
Definition put_member (principal : Principal) (space_id member_id : string) (body : dict) : M World json :=
  transaction space_id principal true false (fun space caller =>
    require caller ["admin"] ;;
    raise_if (negb ((1 <=? py_len member_id) && (py_len member_id <=? 64))) 422 "invalid_principal_id" ;;
    let* subject := (match get_or_none body "subject" with
                     | JNull => ret None
                     | JStr s => raise_if (negb ((1 <=? py_len s) && (py_len s <=? 256))) 422 "invalid_subject" ;; ret (Some s)
                     | _ => raise 422 "invalid_subject"
                     end) in
    let* roles := (match get_or body "roles" (JList []) with
                   | JList l => lift (check_roles ROLES "invalid_roles" l)
                   | _ => raise 422 "invalid_roles"
                   end) in
    let* bindings := (match get_or body "bindings" (JObj []) with
                      | JObj b => ret b
                      | _ => raise 422 "invalid_bindings"
                      end) in
    let* _ := lift (metadata_size (JObj bindings)) in
    let* others := select_where MEMBERS (fun m => String.eqb (mb_space_id m) space_id
                                                  && negb (String.eqb (mb_principal_id m) member_id)) in
    let* profile := profile_of space in
    let* _ := lift (validate_bindings profile bindings (map mb_bindings others)) in
    let* current := get_row MEMBERS (space_id, member_id) in
    raise_if (match current with
              | Some c => mem_str "admin" (mb_roles c) && negb (mem_str "admin" roles)
                          && negb (existsb (fun m => mem_str "admin" (mb_roles m)) others)
              | None => false
              end) 409 "last_admin" ;;
    let row := mkMember space_id member_id subject (sorted_set roles) bindings in
    (match current with
     | None => add_row MEMBERS (space_id, member_id) row
     | Some _ => set_row MEMBERS (space_id, member_id) (fun _ => row)
     end) ;;
    emit space_id "membership.changed" (pr_id principal) None [("principal_id", JStr member_id)] ;;
    ret (JObj (member_dict row))).

(** [type_dict] *)
Definition type_dict (r : SchemaRevision) : dict :=
  [("id", JStr (sr_id r)); ("space_id", JStr (sr_space_id r)); ("kind", JStr (sr_kind r));
   ("revision", JInt (sr_revision r)); ("schema", sr_schema r); ("profile_version", JStr (sr_profile_version r));
   ("digest", JStr (sr_digest r)); ("dialect", sr_dialect r)].

(** [validate_policy] of the service: sorted publish roles and the visibility. *)
Definition validate_policy (body : dict) : result (list string * string) :=
  match get_or body "publish_roles" (json_strings ["contributor"; "publisher"]) with
  | JList ((_ :: _) as l) =>
      let? roles := check_roles ["contributor"; "publisher"] "invalid_publish_roles" l in
      match get_or body "visibility" (JStr "shared") with
      | JStr v => if mem_str v ["shared"; "private"] then Ok (sorted_set roles, v) else Error 422 "invalid_visibility"
      | (JList _ | JObj _) => Err TypeError
      | _ => Error 422 "invalid_visibility"
      end
  | _ => Error 422 "invalid_publish_roles"
  end.

Definition max_revision (space_id kind : string) (d : DB) : Z :=
  fold_left (fun acc r => Z.max acc (sr_revision r))
    (rows (fun r => String.eqb (sr_space_id r) space_id && String.eqb (sr_kind r) kind) (schema_revisions d)) 0.

(** [register_type] *)
Definition register_type (principal : Principal) (space_id kind : string) (body : dict) (key : json) : M World json :=
  transaction space_id principal true false (fun space member =>
    require member ["admin"] ;;
    let* _ := lift (validate_kind (JStr kind)) in
    let schema := get_or body "schema" (JObj []) in
    let* _ := lift (validate_schema schema) in
    let* schema_dict := lift (as_dict schema) in
    let* profile := profile_of space in
    let* _ := lift (validate_type profile kind schema_dict) in
    let* '(roles, visibility) := lift (validate_policy (merge_dicts (policy_defaults profile kind) body)) in
    let* _ := lift (profile_validate_policy profile kind roles visibility) in
    once space principal ("type.register:" +:+ kind) key (JObj body) (
      let* number := gets (fun w => max_revision space_id kind (w_db w)) in
      let* id := identifier in
      let* digest := lift (schema_digest schema) in
      let* now := database_time in
      let revision := mkSchemaRevision id space_id kind (number + 1) schema (sp_profile space)
                        (get_or schema_dict "$schema" (JStr DIALECT)) digest now in
      let* policy := get_row POLICIES (space_id, kind) in
      (match policy with
       | None => add_row POLICIES (space_id, kind) (mkKindPolicy space_id kind roles visibility 1)
       | Some _ => ret tt
       end) ;;
      add_unique REVISIONS (fun r => String.eqb (sr_space_id r) space_id && String.eqb (sr_kind r) kind
                                     && (sr_revision r =? number + 1)) id revision ;;
      emit space_id "type.registered" (pr_id principal) None [("kind", JStr kind); ("revision", JInt (sr_revision revision))] ;;
      ret (JObj (type_dict revision)))).

(** [get_type], [list_types] *)
Definition get_type (principal : Principal) (space_id kind : string) (revision : Z) : M World json :=
  transaction space_id principal false false (fun _ _ =>
    let* found_rows := select_where REVISIONS (fun r => String.eqb (sr_space_id r) space_id
                         && String.eqb (sr_kind r) kind && (sr_revision r =? revision)) in
    match found_rows with
    | [] => raise 404 "type_not_found"
    | r :: _ => ret (JObj (type_dict r))
    end).

(** [.order_by(SchemaRevision.kind, SchemaRevision.revision)] *)
Definition revision_le (a b : SchemaRevision) : Prop := sr_revision a <= sr_revision b.
#[local] Instance revision_le_dec : RelDecision revision_le.
Proof. intros a b. unfold revision_le. apply _. Defined.
Definition by_kind_revision (rs : list SchemaRevision) : list SchemaRevision :=
  (sort_items (map (fun r => (sr_kind r, r)) (merge_sort revision_le rs))).*2.

Definition list_types (principal : Principal) (space_id : string) : M World json :=
  transaction space_id principal false false (fun _ _ =>
    let* rs := select_where REVISIONS (fun r => String.eqb (sr_space_id r) space_id) in
    ret (JObj [("items", JList (map (fun r => JObj (type_dict r)) (by_kind_revision rs)))])).

(** [put_policy] *)
Definition kind_is_referenced (space_id kind : string) (d : DB) : bool :=
  existsb (fun rf => String.eqb (ref_space_id rf) space_id
                     && match records d !! ref_record_id rf with
                        | Some r => String.eqb (rec_space_id r) space_id && String.eqb (rec_kind r) kind
                        | None => false
                        end) (map_to_list (references d)).*2.

Definition put_policy (principal : Principal) (space_id kind : string) (body : dict) : M World json :=
  transaction space_id principal true false (fun space member =>
    require member ["admin"] ;;
    let* '(roles, visibility) := lift (validate_policy body) in
    let* profile := profile_of space in
    let* _ := lift (profile_validate_policy profile kind roles visibility) in
    let* policy := get_row POLICIES (space_id, kind) in
    let* _ := found policy 404 "type_not_found" in
    let* referenced := gets (fun w => kind_is_referenced space_id kind (w_db w)) in
    raise_if (String.eqb visibility "private" && referenced) 409 "policy_reference_conflict" ;;
    set_row POLICIES (space_id, kind)
      (fun p => p <| kp_publish_roles := roles |> <| kp_visibility := visibility |> <| kp_generation ::= Z.succ |>) ;;
    bulk_update RECORDS (fun r => String.eqb (rec_space_id r) space_id && String.eqb (rec_kind r) kind)
      (fun r => r <| rec_shared := String.eqb visibility "shared" |>) ;;
    emit space_id "policy.changed" (pr_id principal) None [("kind", JStr kind)] ;;
    ret (JObj [("kind", JStr kind); ("publish_roles", json_strings roles); ("visibility", JStr visibility)])).
End Spaces.
