(* ===== verification/Records.v ===== *)
(** * Records and their attachments

    The record commands of [hf2l_exchange.application.Service]: drafts with
    quota admission, optimistic patches, publication of verified drafts,
    [release], which stops a record and keeps its bytes charged until they are
    reclaimed, withdrawal and purge. *)

From stdpp Require Import base gmap strings list fin_maps.
From Stdlib Require Import ZArith Lia Ascii.
From S2P Require Import Prelude Json Domain Schemas Profiles Models Storage Service Spaces.

(** An attachment declaration that passed the checks of [create_record]. *)
Record Declaration := mkDeclaration {
  dc_path : string;
  dc_size : Z;
  dc_sha256 : string;
  dc_media_type : json;
}.

Section Records.
Context {P : Platform}.

Definition hex_char (c : ascii) : bool := is_digit c || in_range c 97 102.

(** [path] equals, contains or lies inside an earlier path, ignoring case. *)
Definition path_conflict (folded : string) (existing : string) : bool :=
  String.eqb folded existing || startswith folded (existing +:+ "/") || startswith existing (folded +:+ "/").

(** The attachment loop of [create_record]: declarations and their total. *)
Fixpoint check_attachments (attachments : list json) (paths : list string) (amount : Z) : result (list Declaration * Z) :=
  match attachments with
  | [] => Ok ([], amount)
  | a :: rest =>
      let? kvs := as_dict a in
      let? path := validate_path (get_or_none kvs "path") in
      if existsb (path_conflict (casefold path)) paths then Error 422 "duplicate_attachment_path"
      else
        match int_in 0 (5 * 1024 ^ 4) (get_or_none kvs "size") with
        | None => Error 422 "invalid_attachment_size"
        | Some length =>
            match get_or_none kvs "sha256" with
            | JStr digest =>
                if negb (py_len digest =? 64) || negb (all_char hex_char digest) then Error 422 "invalid_attachment_digest"
                else
                  let? ds := check_attachments rest (casefold path :: paths) (amount + length) in
                  Ok (mkDeclaration path length digest (get_or kvs "media_type" (JStr "application/octet-stream")) :: ds.1, ds.2)
            | _ => Error 422 "invalid_attachment_digest"
            end
        end
  end.

(** The part size recorded for a blob: at least the configured one, and large
    enough for 10000 parts, rounded up to whole MiB. *)
Definition blob_part_size (size : Z) : Z :=
  Z.max (storage_part_size (storage_settings settings)) (ceil_div size (10000 * 1048576) * 1048576).

(** [self.record(...)] of a truthy base, which must also satisfy the foreign
    key of [Record.base_record_id]. *)
Definition base_column (base_id : json) : option string :=
  match base_id with JStr s => Some s | _ => None end.

(** The foreign key [(space_id, base_record_id) -> records]: the empty string
    is not a row. *)
Definition base_key_ok (base : option string) : bool :=
  match base with Some b => negb (String.eqb b "") | None => true end.

Definition new_blob (space_id record_id : string) (expires_at : Z) (d : Declaration) (blob_id : string) : Blob :=
  mkBlob blob_id space_id record_id (dc_path d) (dc_size d) (dc_sha256 d) (dc_media_type d) Reserved
    None None None None (blob_part_size (dc_size d)) 0 false expires_at.

Definition add_blob (space_id record_id : string) (expires_at : Z) (d : Declaration) : M World unit :=
  let* blob_id := identifier in
  add_unique BLOBS (fun b => String.eqb (bl_record_id b) record_id && String.eqb (bl_path b) (dc_path d))
    blob_id (new_blob space_id record_id expires_at d blob_id).

(** The action of [create_record]. *)
Definition create_record_action (space : Space) (member : Member) (principal : Principal) (space_id : string)
    (body : dict) : M World json :=
  let* revision := (match get_or_none body "schema_revision_id" with
                    | JStr id => get_row REVISIONS id
                    | _ => ret None
                    end) in
  match revision with
  | None => raise 422 "type_revision_mismatch"
  | Some revision =>
      raise_if (negb (String.eqb (sr_space_id revision) space_id)
                || negb (py_eqb (JStr (sr_kind revision)) (get_or_none body "kind"))) 422 "type_revision_mismatch" ;;
      let* policy := get_row POLICIES (space_id, sr_kind revision) in
      match policy with
      | None => throw AttributeError
      | Some policy =>
          require member (kp_publish_roles policy) ;;
          let metadata := get_or body "metadata" (JObj []) in
          let* size := lift (validate_metadata metadata (sr_schema revision)) in
          let* metadata := lift (as_dict metadata) in
          let* profile := profile_of space in
          let* _ := lift (validate_record profile (sr_kind revision) metadata (mb_bindings member)) in
          let* attachments := (match get_or body "attachments" (JList []) with
                               | JList l => raise_if (MAX_ATTACHMENTS <? Z.of_nat (List.length l)) 422 "too_many_attachments" ;; ret l
                               | _ => raise 422 "too_many_attachments"
                               end) in
          let* '(declarations, amount) := lift (check_attachments attachments [] 0) in
          raise_if ((quota_records space <? record_count space + 1)
                    || (quota_metadata_bytes space <? metadata_bytes space + size)) 409 "metadata_quota_exceeded" ;;
          raise_if (quota_bytes space <? allocated space + reclaiming space + amount) 409 "blob_quota_exceeded" ;;
          let* used := gets (fun w => creator_bytes space_id (pr_id principal) (w_db w)) in
          raise_if (principal_quota_bytes space <? used + amount) 409 "principal_blob_quota_exceeded" ;;
          let* now := database_time in
          let base_id := record_base_id profile (get_or_none body "kind") metadata in
          (if truthy base_id then
             let* base := record space_id base_id member principal false in
             raise_if (negb (bool_decide (rec_state base = PUBLISHED))) 409 "base_not_published"
           else ret tt) ;;
          let* id := identifier in
          let expires_at := now + seconds (draft_seconds settings) in
          throw_if (negb (base_key_ok (base_column base_id))) IntegrityError ;;
          add_row RECORDS id
            (mkRecord id space_id (sr_kind revision) (sr_id revision) (pr_id principal) (mb_bindings member)
               (base_column base_id) metadata DRAFT (String.eqb (kp_visibility policy) "shared") 1 amount size
               now None expires_at) ;;
          for_each declarations (add_blob space_id id expires_at) ;;
          set_row SPACES space_id (fun s => s <| record_count ::= Z.succ |> <| metadata_bytes ::= Z.add size |>
                                              <| allocated ::= Z.add amount |>) ;;
          emit space_id "record.created" (pr_id principal) (Some id) [] ;;
          record_dict id
      end
  end.

(** [create_record] *)
Definition create_record (principal : Principal) (space_id : string) (body : dict) (key : json) : M World json :=
  transaction space_id principal true false (fun space member =>
    require member ["contributor"; "publisher"] ;;
    once space principal "record.create" key (JObj body)
      (create_record_action space member principal space_id body)).

(** [get_record] *)
Definition get_record (principal : Principal) (space_id record_id : string) : M World json :=
  transaction space_id principal false false (fun _ member =>
    let* r := record space_id (JStr record_id) member principal false in
    record_dict (rec_id r)).

(** [list_records]: one page in identifier order, and the cursor of the next. *)
Definition by_id (rs : list Record_) : list Record_ := (sort_items (map (fun r => (rec_id r, r)) rs)).*2.
Definition str_gt (a b : string) : bool := match String.compare a b with Gt => true | _ => false end.
Definition opt_filter (o : option string) (test : string -> bool) : bool :=
  match o with Some s => if String.eqb s "" then true else test s | None => true end.

Definition page (limit : Z) (rs : list Record_) : bool * list Record_ :=
  let fetched := take (Z.to_nat (limit + 1)) rs in
  (limit <? Z.of_nat (List.length fetched), take (Z.to_nat limit) fetched).

Definition list_records (principal : Principal) (space_id : string) (kind after : option string) (limit : Z)
    (state : option string) : M World json :=
  raise_if (negb ((1 <=? limit) && (limit <=? 1000))) 422 "invalid_limit" ;;
  transaction space_id principal false false (fun _ member =>
    let* rs := select_where RECORDS (fun r =>
      String.eqb (rec_space_id r) space_id && visible_clause member principal r
      && opt_filter kind (String.eqb (rec_kind r))
      && opt_filter state (String.eqb (record_state_value (rec_state r)))
      && opt_filter after (str_gt (rec_id r))) in
    let '(more, rs) := page limit (by_id rs) in
    let* items := mapM (fun r => record_dict (rec_id r)) rs in
    ret (JObj [("items", JList items);
               ("next_cursor", if more then opt_str (option_map rec_id (last rs)) else JNull)])).

(** [check_draft] *)
Definition check_draft (r : Record_) : M World unit :=
  raise_if (negb (bool_decide (rec_state r = DRAFT))) 409 "record_not_draft" ;;
  let* now := database_time in
  raise_if (rec_expires_at r <=? now) 409 "draft_expired".

(** [patch_record] *)
Definition patch_record (principal : Principal) (space_id record_id : string) (body : dict) (expected_version : json) : M World json :=
  transaction space_id principal true false (fun space member =>
    let* r := record space_id (JStr record_id) member principal true in
    check_draft r ;;
    raise_if (negb (String.eqb (str_of_int (rec_generation r)) (py_str expected_version))) 412 "record_version_mismatch" ;;
    let* revision := get_row REVISIONS (rec_schema_revision_id r) in
    match revision with
    | None => throw AttributeError
    | Some revision =>
        let metadata := get_or_none body "metadata" in
        let* size := lift (validate_metadata metadata (sr_schema revision)) in
        let* metadata := lift (as_dict metadata) in
        let* profile := profile_of space in
        let* _ := lift (validate_record profile (rec_kind r) metadata (rec_creator_bindings r)) in
        raise_if (quota_metadata_bytes space <? metadata_bytes space - rec_metadata_bytes r + size) 409 "metadata_quota_exceeded" ;;
        let base_id := record_base_id profile (JStr (rec_kind r)) metadata in
        (if truthy base_id then let* _ := record space_id base_id member principal false in ret tt else ret tt) ;;
        throw_if (negb (base_key_ok (base_column base_id))) IntegrityError ;;
        set_row SPACES space_id (fun s => s <| metadata_bytes ::= Z.add (size - rec_metadata_bytes r) |>) ;;
        set_row RECORDS record_id (fun r => r <| rec_metadata_json := metadata |> <| rec_metadata_bytes := size |>
                                              <| rec_base_record_id := base_column base_id |>
                                              <| rec_generation ::= Z.succ |>) ;;
        emit space_id "record.updated" (pr_id principal) (Some record_id) [] ;;
        record_dict record_id
    end).

(** [blob.state != "verified" or not blob.object_version or
    blob.verified_size != blob.size or blob.verified_sha256 != blob.sha256] *)
Definition blob_unverified (b : Blob) : bool :=
  negb (bool_decide (bl_state b = VERIFIED))
  || match bl_object_version b with Some v => String.eqb v "" | None => true end
  || negb (bool_decide (bl_verified_size b = Some (bl_size b)))
  || negb (bool_decide (bl_verified_sha256 b = Some (bl_sha256 b))).

(** The action of [publish_record]. *)
Definition publish_record_action (space : Space) (member : Member) (principal : Principal) (space_id : string)
    (r : Record_) (policy : KindPolicy) : M World json :=
  check_draft r ;;
  let* revision := get_row REVISIONS (rec_schema_revision_id r) in
  match revision with
  | None => throw AttributeError
  | Some revision =>
      let* _ := lift (validate_metadata (JObj (rec_metadata_json r)) (sr_schema revision)) in
      let* profile := profile_of space in
      let* _ := lift (validate_publish profile (rec_kind r) (rec_metadata_json r) (rec_creator_bindings r) (mb_bindings member)) in
      (match rec_base_record_id r with
       | Some b => if String.eqb b "" then ret tt else
           let* base := record space_id (JStr b) member principal false in
           raise_if (negb (bool_decide (rec_state base = PUBLISHED))) 409 "base_not_published"
       | None => ret tt
       end) ;;
      let* bs := record_blobs (rec_id r) in
      raise_if (existsb blob_unverified bs) 409 "attachments_not_verified" ;;
      let* now := database_time in
      set_row RECORDS (rec_id r) (fun r => r <| rec_state := PUBLISHED |> <| rec_published_at := Some now |>
                                            <| rec_shared := String.eqb (kp_visibility policy) "shared" |>
                                            <| rec_generation ::= Z.succ |>) ;;
      emit space_id "record.published" (pr_id principal) (Some (rec_id r)) [] ;;
      let* row := get_row RECORDS (rec_id r) in
      match row with Some r => ret (record_dict_of r bs) | None => throw AttributeError end
  end.

(** [publish_record] *)
Definition publish_record (principal : Principal) (space_id record_id : string) (key : json) : M World json :=
  transaction space_id principal true false (fun space member =>
    let* r := record space_id (JStr record_id) member principal true in
    let* policy := get_row POLICIES (space_id, rec_kind r) in
    match policy with
    | None => throw AttributeError
    | Some policy =>
        require member (kp_publish_roles policy) ;;
        once space principal ("record.publish:" +:+ record_id) key (JObj [])
          (publish_record_action space member principal space_id r policy)
    end).

(** [release]: one attachment.  Without transfer attempts it is cleaned at
    once; otherwise its bytes move to [reclaiming] and every attempt that is
    not cleaned is scheduled for cleanup. *)
Definition release_blob (space_id : string) (now : Z) (b : Blob) : M World unit :=
  if negb (bool_decide (bl_state b = CLEANED)) && negb (bl_pending_deletion b) then
    let* own := select_where ATTEMPTS (fun a => String.eqb (at_blob_id a) (bl_id b)) in
    match own with
    | [] => set_row BLOBS (bl_id b) (fun b => b <| bl_state := CLEANED |>)
    | _ =>
        set_row BLOBS (bl_id b) (fun b => b <| bl_pending_deletion := true |>
                                           <| bl_expires_at := Z.max now (bl_grant_expires_at b) |>) ;;
        set_row SPACES space_id (fun s => s <| reclaiming ::= Z.add (bl_size b) |>) ;;
        bulk_update ATTEMPTS
          (fun a => String.eqb (at_blob_id a) (bl_id b) && negb (bool_decide (at_state a = CLEANED)))
          (fun a => a <| at_state := CLEANUP |> <| at_operation := "cleanup" |>
                      <| at_next_attempt := Z.max now (Z.max (at_grant_expires_at a) (bl_grant_expires_at b)) |>)
    end
  else ret tt.

(** [release(session, space, record, state)] *)
Definition release (space_id record_id : string) (state : RecordState) : M World unit :=
  let* row := get_row RECORDS record_id in
  match row with
  | None => throw AttributeError
  | Some r =>
      if is_terminal (rec_state r) then ret tt
      else
        set_row RECORDS record_id (fun r => r <| rec_state := state |> <| rec_generation ::= Z.succ |>) ;;
        set_row SPACES space_id (fun s => s <| allocated ::= fun a => a - rec_declared_bytes r |>) ;;
        let* now := database_time in
        let* bs := record_blobs record_id in
        for_each bs (release_blob space_id now) ;;
        emit space_id ("record." +:+ record_state_value state) "system" (Some record_id)
          [("state", JStr (record_state_value state)); ("kind", JStr (rec_kind r));
           ("published", JBool (match rec_published_at r with Some _ => true | None => false end))]
  end.

(** ["withdrawn" if record.state == "published" else "cancelled"] *)
Definition withdrawn_state (r : Record_) : RecordState :=
  if bool_decide (rec_state r = PUBLISHED) then WITHDRAWN else CANCELLED.

Definition record_in_space (space_id record_id : string) : M World Record_ :=
  let* row := get_row RECORDS record_id in
  match row with
  | Some r => if String.eqb (rec_space_id r) space_id then ret r else raise 404 "record_not_found"
  | None => raise 404 "record_not_found"
  end.

(** The joined query of an active, unexpired coordination over a record. *)
Definition record_is_coordinated (space_id record_id : string) (now : Z) (d : DB) : bool :=
  existsb (fun ci => String.eqb (ci_record_id ci) record_id
                     && match coordinations d !! ci_attempt_id ci with
                        | Some c => String.eqb (co_space_id c) space_id && bool_decide (co_state c = CO_ACTIVE)
                                    && (now <? co_lease_until c)
                        | None => false
                        end) (map_to_list (coordination_inputs d)).*2.

(** [withdraw_record] *)
Definition withdraw_record (principal : Principal) (space_id record_id : string) : M World json :=
  transaction space_id principal true false (fun space member =>
    let* r := (if mem_str "admin" (mb_roles member) then record_in_space space_id record_id
               else record space_id (JStr record_id) member principal true) in
    let* derived := exists_where RECORDS (fun x => String.eqb (rec_space_id x) space_id
                      && bool_decide (rec_base_record_id x = Some (rec_id r)) && bool_decide (rec_state x = PUBLISHED)) in
    raise_if derived 409 "record_retained_for_provenance" ;;
    let* referenced := exists_where REFERENCES (fun f => String.eqb (ref_space_id f) space_id
                         && String.eqb (ref_record_id f) (rec_id r)) in
    raise_if referenced 409 "record_referenced" ;;
    let* now := database_time in
    let* busy := gets (fun w => record_is_coordinated space_id (rec_id r) now (w_db w)) in
    raise_if busy 409 "record_in_active_acquisition" ;;
    release space_id (rec_id r) (withdrawn_state r) ;;
    let* row := get_row RECORDS (rec_id r) in
    match row with
    | Some r => ret (JObj [("id", JStr (rec_id r)); ("state", JStr (record_state_value (rec_state r)))])
    | None => throw AttributeError
    end).

(** [purge_record] *)
Definition purge_record (principal : Principal) (space_id record_id : string) : M World json :=
  transaction space_id principal true false (fun space member =>
    require member ["admin"] ;;
    let* r := record_in_space space_id record_id in
    raise_if (negb (is_terminal (rec_state r))) 409 "record_not_terminal" ;;
    let* bs := record_blobs (rec_id r) in
    raise_if (existsb (fun b => negb (bool_decide (bl_state b = CLEANED))) bs) 409 "cleanup_pending" ;;
    let of_blob a := mem_str (at_blob_id a) (map bl_id bs) in
    let* ats := select_where ATTEMPTS of_blob in
    raise_if (existsb (fun a => match at_mutation_tokens a with [] => false | _ => true end) ats) 409 "cleanup_pending" ;;
    let* frozen := exists_where INPUTS (fun ci => String.eqb (ci_record_id ci) (rec_id r)) in
    let* derived := exists_where RECORDS (fun x => String.eqb (rec_space_id x) space_id
                      && bool_decide (rec_base_record_id x = Some (rec_id r))) in
    let* produced := exists_where COORDINATIONS (fun c => bool_decide (co_result_record_id c = Some (rec_id r))) in
    raise_if (frozen || derived || produced) 409 "record_retained_for_provenance" ;;
    bulk_delete ATTEMPTS of_blob ;;
    bulk_delete BLOBS (fun b => String.eqb (bl_record_id b) (rec_id r)) ;;
    bulk_delete EVENTS (fun e => bool_decide (ev_record_id e = Some (rec_id r)) && negb (mem_str (ev_type e) TERMINAL_EVENTS)) ;;
    delete_row RECORDS (rec_id r) ;;
    set_row SPACES space_id (fun s => s <| record_count ::= Z.pred |> <| metadata_bytes ::= fun m => m - rec_metadata_bytes r |>) ;;
    emit space_id "record.purged" (pr_id principal) None [("record_id", JStr record_id)] ;;
    ret (JObj [("id", JStr record_id); ("state", JStr "purged")])).
End Records.
