(* ===== verification/Managed.v ===== *)
(** * Managed spaces and workload grants

    The managed-namespace commands of [hf2l_exchange.application.Service]:
    binding a space to one job, issuing and revoking the fenced grants its
    workloads act under, and retiring the space. *)

From stdpp Require Import base gmap strings list fin_maps.
From Stdlib Require Import ZArith Lia Ascii.
From S2P Require Import Prelude Json Domain Schemas Profiles Models Service Spaces Records.

Section Managed.
Context {P : Platform}.

(** [isinstance(v, str) and 1 <= len(v) <= limit] *)
Definition bounded_text (v : json) (limit : Z) : option string :=
  match v with JStr s => if (1 <=? py_len s) && (py_len s <=? limit) then Some s else None | _ => None end.

(** [is_managed_space] *)
Definition is_managed_space (space_id : string) : M World bool :=
  atomically (let* row := get_row MANAGED space_id in
              ret (match row with Some _ => true | None => false end)).

(** [grant_dict] *)
Definition grant_dict (g : WorkloadGrant) : dict :=
  [("principal_id", JStr (gr_principal_id g)); ("space_id", JStr (gr_space_id g)); ("subject", JStr (gr_subject g));
   ("job_id", JStr (gr_job_id g)); ("attempt_id", JStr (gr_attempt_id g)); ("component_id", JStr (gr_component_id g));
   ("epoch", JInt (gr_epoch g)); ("roles", json_strings (gr_roles g)); ("bindings", JObj (gr_bindings g));
   ("certificate_thumbprint", JStr (gr_certificate_thumbprint g)); ("expires_at", time_json (gr_expires_at g));
   ("enabled", JBool (gr_enabled g)); ("created_at", time_json (gr_created_at g));
   ("revoked_at", opt_time_json (gr_revoked_at g)); ("grant_id", JStr (gr_id g))].

(** [enable_managed_space] *)
Definition enable_managed_space (principal : Principal) (space_id : string) (body : dict) (key : json) : M World json :=
  require_provisioner principal ;;
  let* job_id := found (bounded_text (get_or_none body "job_id") 128) 422 "invalid_job_binding" in
  transaction space_id principal true false (fun space member =>
    require member ["admin"] ;;
    once space principal "space.managed" key (JObj body) (
      let* existing := get_row MANAGED space_id in
      (match existing with
       | Some m => raise_if (negb (String.eqb (ms_job_id m) job_id)) 409 "managed_space_binding_immutable"
       | None =>
           let* foreign := exists_where MANAGED (fun m => String.eqb (ms_job_id m) job_id) in
           raise_if foreign 409 "managed_job_space_conflict" ;;
           let* now := database_time in
           add_unique MANAGED (fun m => String.eqb (ms_job_id m) job_id) space_id (mkManagedSpace space_id job_id now None) ;;
           emit space_id "space.managed_enabled" (pr_id principal) None [("job_id", JStr job_id)]
       end) ;;
      ret (JObj [("space_id", JStr space_id); ("job_id", JStr job_id); ("managed", JBool true)]))).

(** [_managed_state] *)
Definition cleanup_outstanding (space_id : string) (d : DB) : bool :=
  let bs := rows (fun b => String.eqb (bl_space_id b) space_id) (blobs d) in
  let ats := rows (fun a => mem_str (at_blob_id a) (map bl_id bs)) (attempts d) in
  existsb (fun b => negb (bool_decide (bl_state b = CLEANED))) bs
  || existsb (fun a => match at_mutation_tokens a with [] => false | _ => true end) ats.

Definition managed_state (m : ManagedSpace) (d : DB) : json :=
  let retired := match ms_retired_at m with Some _ => true | None => false end in
  JObj [("space_id", JStr (ms_space_id m)); ("job_id", JStr (ms_job_id m)); ("managed", JBool true);
        ("status", JStr (if retired then "retired" else "active"));
        ("retired_at", opt_time_json (ms_retired_at m));
        ("cleanup_pending", JBool (cleanup_outstanding (ms_space_id m) d && retired));
        ("provenance_retained", JBool true)].

(** [get_managed_space] *)
Definition get_managed_space (principal : Principal) (space_id : string) : M World json :=
  transaction space_id principal false false (fun _ member =>
    require member ["reader"; "admin"] ;;
    let* managed := get_row MANAGED space_id in
    let* m := found managed 404 "managed_space_not_found" in
    gets (fun w => managed_state m (w_db w))).

(** The loop of [retire_managed_space] over the records of the space. *)
Definition withdraw_all (space_id : string) : M World unit :=
  let* rs := select_where RECORDS (fun r => String.eqb (rec_space_id r) space_id) in
  for_each rs (fun r => release space_id (rec_id r) (withdrawn_state r)).

(** [retire_managed_space] *)
Definition retire_managed_space (principal : Principal) (space_id : string) (body : dict) (key : json) : M World json :=
  require_provisioner principal ;;
  let* job_id := found (bounded_text (get_or_none body "job_id") 128) 422 "invalid_job_binding" in
  transaction space_id principal true true (fun space caller =>
    require caller ["admin"] ;;
    let* managed := get_row MANAGED space_id in
    match managed with
    | None => raise 409 "managed_space_binding_required"
    | Some m =>
        raise_if (negb (String.eqb (ms_job_id m) job_id)) 409 "managed_space_binding_required" ;;
        once space principal "space.managed.retire" key (JObj body) (
          let* live := exists_where GRANTS (fun g => String.eqb (gr_space_id g) space_id && gr_enabled g) in
          raise_if live 409 "workload_revocation_required" ;;
          (match ms_retired_at m with
           | Some _ => ret tt
           | None =>
               let* now := database_time in
               set_row MANAGED space_id (fun m => m <| ms_retired_at := Some now |>) ;;
               withdraw_all space_id ;;
               emit space_id "space.managed_retired" (pr_id principal) None [("job_id", JStr job_id)]
           end) ;;
          let* row := get_row MANAGED space_id in
          match row with
          | Some m => gets (fun w => managed_state m (w_db w))
          | None => throw AttributeError
          end)
    end).

(** [[A-Za-z0-9_-]{43}] in full. *)
Definition thumbprint_ok (s : string) : bool :=
  (utf8_len s =? 43) && all_char (fun c => is_alnum c || char_eqb c "_"%char || char_eqb c "-"%char) s.

(** The wire checks of [create_workload_grant], in order. *)
Record GrantRequest := mkGrantRequest {
  gq_subject : string;
  gq_job_id : string;
  gq_attempt_id : string;
  gq_component_id : string;
  gq_epoch : Z;
  gq_thumbprint : string;
  gq_roles : list string;
  gq_bindings : dict;
  gq_expiry : Z;
}.

Definition text_field (body : dict) (field : string) (limit : Z) : result string :=
  match bounded_text (get_or_none body field) limit with Some s => Ok s | None => Error 422 "invalid_workload_binding" end.

Definition grant_request (body : dict) : result GrantRequest :=
  let? subject := text_field body "subject" 256 in
  let? job_id := text_field body "job_id" 128 in
  let? attempt_id := text_field body "attempt_id" 128 in
  let? component_id := text_field body "component_id" 128 in
  match int_in 1 MAX_INT64 (get_or_none body "epoch") with
  | None => Error 422 "invalid_workload_epoch"
  | Some epoch =>
      match get_or_none body "certificate_thumbprint" with
      | JStr thumbprint =>
          if negb (thumbprint_ok thumbprint) then Error 422 "invalid_certificate_thumbprint"
          else
            match get_or_none body "roles" with
            | JList ((_ :: _) as l) =>
                let? roles := check_roles ROLES "invalid_roles" l in
                match get_or body "bindings" (JObj []) with
                | JObj bindings =>
                    let? _ := metadata_size (JObj bindings) in
                    match json_time (get_or_none body "expires_at") with
                    | Some expiry => Ok (mkGrantRequest subject job_id attempt_id component_id epoch thumbprint roles bindings expiry)
                    | None => Error 422 "invalid_grant_expiry"
                    end
                | _ => Error 422 "invalid_bindings"
                end
            | _ => Error 422 "invalid_roles"
            end
      | _ => Error 422 "invalid_certificate_thumbprint"
      end
  end.

Definition highest_epoch (gs : list WorkloadGrant) : Z :=
  fold_left (fun acc g => Z.max acc (gr_epoch g)) gs 0.

(** The action of [create_workload_grant]. *)
Definition create_grant_action (principal : Principal) (space_id : string) (pid : string) (q : GrantRequest)
    (key : json) : M World json :=
  let* managed := get_row MANAGED space_id in
  raise_if (match managed with Some m => negb (String.eqb (ms_job_id m) (gq_job_id q)) | None => true end)
    409 "managed_space_binding_required" ;;
  let* revoked := get_row REVOCATIONS (space_id, gq_attempt_id q) in
  raise_if (match revoked with Some _ => true | None => false end) 409 "attempt_already_revoked" ;;
  let* member := get_row MEMBERS (space_id, pid) in
  raise_if (match member with
            | Some m => negb (subset_of (gq_roles q) (mb_roles m))
                        || negb (py_eqb (JObj (mb_bindings m)) (JObj (gq_bindings q)))
            | None => true
            end) 403 "workload_membership_required" ;;
  let* now := database_time in
  raise_if (negb ((now <? gq_expiry q) && (gq_expiry q <=? now + seconds (30 * 86400)))) 422 "invalid_grant_expiry" ;;
  let* previous := select_where GRANTS (fun g => String.eqb (gr_space_id g) space_id && String.eqb (gr_principal_id g) pid) in
  raise_if (existsb (fun g => negb (String.eqb (gr_component_id g) (gq_component_id q))) previous) 409 "workload_component_immutable" ;;
  raise_if (gq_epoch q <? highest_epoch previous) 409 "stale_workload_epoch" ;;
  raise_if (existsb (fun g => gr_enabled g && (negb (String.eqb (gr_attempt_id g) (gq_attempt_id q))
                                               || negb (gr_epoch g =? gq_epoch q))) previous) 409 "previous_attempt_not_revoked" ;;
  raise_if (existsb (fun g => negb (String.eqb (gr_attempt_id g) (gq_attempt_id q)) && (gq_epoch q <=? gr_epoch g)) previous)
    409 "stale_workload_epoch" ;;
  let* bytes := lift (canonical_bytes (JList [JStr space_id; JStr (pr_id principal); key])) in
  let gid := sha256_hex bytes in
  let grant := mkWorkloadGrant gid space_id pid (gq_subject q) (gq_job_id q) (gq_attempt_id q) (gq_component_id q)
                 (gq_epoch q) (sorted_set (gq_roles q)) (gq_bindings q) (gq_thumbprint q) (gq_expiry q) true now None in
  add_row GRANTS gid grant ;;
  emit space_id "workload.granted" (pr_id principal) None
    [("grant_id", JStr gid); ("principal_id", JStr pid); ("attempt_id", JStr (gr_attempt_id grant)); ("epoch", JInt (gr_epoch grant))] ;;
  ret (JObj (grant_dict grant)).

(** [create_workload_grant] *)
Definition create_workload_grant (principal : Principal) (space_id : string) (body : dict) (key : json) : M World json :=
  require_provisioner principal ;;
  let* q := lift (grant_request body) in
  let pid := bound_principal_id (workload_issuer (auth_settings settings)) (gq_subject q) in
  transaction space_id principal true false (fun space caller =>
    require caller ["admin"] ;;
    once space principal "workload.grant" key (JObj body) (create_grant_action principal space_id pid q key)).

(** [revoke_workload_grants] *)
Definition revoke_workload_grants (principal : Principal) (space_id : string) (body : dict) (key : json) : M World json :=
  require_provisioner principal ;;
  let* attempt_id := found (bounded_text (get_or_none body "attempt_id") 128) 422 "invalid_attempt_binding" in
  transaction space_id principal true true (fun space caller =>
    require caller ["admin"] ;;
    once space principal "workload.revoke" key (JObj body) (
      let* now := database_time in
      let* tombstone := get_row REVOCATIONS (space_id, attempt_id) in
      let* now := (match tombstone with
                   | None => add_row REVOCATIONS (space_id, attempt_id) now ;; ret now
                   | Some revoked_at => ret revoked_at
                   end) in
      let live g := String.eqb (gr_space_id g) space_id && String.eqb (gr_attempt_id g) attempt_id && gr_enabled g in
      let* grants := select_where GRANTS live in
      bulk_update GRANTS live (fun g => g <| gr_enabled := false |> <| gr_revoked_at := Some now |>) ;;
      let count := JInt (Z.of_nat (List.length grants)) in
      emit space_id "workload.revoked" (pr_id principal) None [("attempt_id", JStr attempt_id); ("revoked", count)] ;;
      ret (JObj [("attempt_id", JStr attempt_id); ("revoked", count); ("revoked_at", time_json now)]))).

(** [get_workload_grant] *)
Definition get_workload_grant (principal : Principal) (space_id grant_id : string) : M World json :=
  require_provisioner principal ;;
  transaction space_id principal false false (fun _ member =>
    require member ["admin"] ;;
    let* grant := get_row GRANTS grant_id in
    match grant with
    | Some g => raise_if (negb (String.eqb (gr_space_id g) space_id)) 404 "workload_grant_not_found" ;;
                ret (JObj (grant_dict g))
    | None => raise 404 "workload_grant_not_found"
    end).

(** [verify_workload_grant] *)
Definition verify_workload_grant (principal : Principal) (space_id : string) : M World json :=
  match pr_workload principal with
  | None => raise 403 "workload_required"
  | Some identity =>
      transaction space_id principal false false (fun _ member =>
        let* grant := get_row GRANTS (wi_grant_id identity) in
        match grant with
        | Some g => ret (JObj (grant_dict g ++ [("effective_roles", json_strings (mb_roles member))]))
        | None => throw AttributeError
        end)
  end.
End Managed.
