(* ===== verification/Coordination.v ===== *)
(** * References, acquisitions and events

    The coordination commands of [hf2l_exchange.application.Service]: named
    references moved by compare-and-swap, leased acquisitions fenced by a
    per-reference counter, their completion, and the event feed. *)

From stdpp Require Import base gmap strings list fin_maps sorting.
From Stdlib Require Import ZArith Lia Ascii.
From S2P Require Import Prelude Json Domain Schemas Profiles Models Service Spaces Records.

Section Coordination.
Context {P : Platform}.

(** [ref_dict] *)
Definition ref_dict (r : Reference) : json :=
  JObj [("name", JStr (ref_name r)); ("record_id", JStr (ref_record_id r)); ("token", JStr (str_of_int (ref_generation r)))].

(** [validate_reference_name] *)
Definition validate_reference_name (name : json) : result string :=
  match name with
  | JStr s => if kind_ok s then Ok s else Error 422 "invalid_reference_name"
  | _ => Error 422 "invalid_reference_name"
  end.

(** [get_reference] *)
Definition get_reference (principal : Principal) (space_id name : string) : M World json :=
  let* _ := lift (validate_reference_name (JStr name)) in
  transaction space_id principal false false (fun _ member =>
    let* reference := get_row REFERENCES (space_id, name) in
    let* reference := found reference 404 "reference_not_found" in
    let* _ := record space_id (JStr (ref_record_id reference)) member principal false in
    ret (ref_dict reference)).

(** [active_acquisition] is not [None]. *)
Definition active_for (space_id name : string) (c : Coordination) : bool :=
  String.eqb (co_space_id c) space_id && String.eqb (co_reference_name c) name && bool_decide (co_state c = CO_ACTIVE).
Definition active_acquisition (space_id name : string) : M World bool :=
  let* now := database_time in
  exists_where COORDINATIONS (fun c => active_for space_id name c && (now <? co_lease_until c)).

(** The action of [put_reference]. *)
Definition put_reference_action (space : Space) (member : Member) (principal : Principal) (space_id name : string)
    (body : dict) (expected_token : string) : M World json :=
  let* r := record space_id (get_or_none body "record_id") member principal false in
  raise_if (negb (bool_decide (rec_state r = PUBLISHED)) || negb (rec_shared r)) 409 "reference_requires_shared_record" ;;
  let* reference := get_row REFERENCES (space_id, name) in
  raise_if (match reference with
            | None => negb (String.eqb expected_token "*")
            | Some f => negb (String.eqb (str_of_int (ref_generation f)) expected_token)
            end) 412 "reference_version_mismatch" ;;
  let* busy := active_acquisition space_id name in
  raise_if busy 409 "acquisition_active" ;;
  let* profile := profile_of space in
  let* _ := lift (validate_reference profile name (profile_record r) [] (option_map ref_record_id reference)) in
  let updated := match reference with
                 | None => mkReference space_id name (rec_id r) 1 0
                 | Some f => f <| ref_record_id := rec_id r |> <| ref_generation ::= Z.succ |>
                 end in
  (match reference with
   | None => add_row REFERENCES (space_id, name) updated
   | Some _ => set_row REFERENCES (space_id, name) (fun _ => updated)
   end) ;;
  emit space_id "reference.updated" (pr_id principal) (Some (rec_id r))
    [("name", JStr name); ("token", JStr (str_of_int (ref_generation updated)))] ;;
  ret (ref_dict updated).

(** [put_reference] *)
Definition put_reference (principal : Principal) (space_id name : string) (body : dict) (expected_token : string)
    (key : json) : M World json :=
  let* _ := lift (validate_reference_name (JStr name)) in
  transaction space_id principal true false (fun space member =>
    require member ["publisher"] ;;
    once space principal ("reference.put:" +:+ name) key
      (JObj [("body", JObj body); ("expected_token", JStr expected_token)])
      (put_reference_action space member principal space_id name body expected_token)).

(** [acquisition_dict] *)
Definition acquisition_inputs (attempt_id : string) (d : DB) : list string :=
  sorted_set (map ci_record_id (rows (fun ci => String.eqb (ci_attempt_id ci) attempt_id) (coordination_inputs d))).
Definition acquisition_dict_of (c : Coordination) (inputs : list string) : json :=
  JObj [("id", JStr (co_id c)); ("reference", JStr (co_reference_name c));
        ("expected_token", JStr (str_of_int (co_expected_generation c))); ("holder", JStr (co_holder c));
        ("fence", JInt (co_fence c)); ("state", JStr (coordination_state_value (co_state c)));
        ("lease_until", time_json (co_lease_until c)); ("input_record_ids", json_strings inputs);
        ("result_record_id", opt_str (co_result_record_id c))].

(** [_attempt] *)
Definition get_attempt (space_id : string) (attempt_id : json) : M World Coordination :=
  match attempt_id with
  | JStr id =>
      let* row := get_row COORDINATIONS id in
      match row with
      | Some c => if String.eqb (co_space_id c) space_id then ret c else raise 404 "acquisition_not_found"
      | None => raise 404 "acquisition_not_found"
      end
  | _ => raise 404 "acquisition_not_found"
  end.

Definition acquisition_dict (space_id attempt_id : string) : M World json :=
  let* c := get_attempt space_id (JStr attempt_id) in
  gets (fun w => acquisition_dict_of c (acquisition_inputs attempt_id (w_db w))).

(** The current member row of a principal, as the profile sees it. *)
Definition member_of (space_id creator : string) (d : DB) : option MemberView :=
  option_map member_view (members d !! (space_id, creator)).

(** The candidate query and the eligibility filter of [acquire]. *)
Definition eligible_inputs (profile : Profile) (space_id : string) (sel : SelectionSpec) (d : DB) : list Descriptor :=
  List.filter (fun r => input_eligible profile r (member_of space_id (d_creator r) d))
    (map profile_record
       (rows (fun r => String.eqb (rec_space_id r) space_id && String.eqb (rec_kind r) (sel_kind sel)
                       && bool_decide (rec_state r = PUBLISHED)
                       && bool_decide (rec_base_record_id r = Some (sel_base_id sel))) (records d))).

(** The inputs of an acquisition: the requested ones, or the profile's
    selection, of which the requested ones must be a part. *)
Definition choose_inputs (profile : Profile) (space_id name base : string) (ids : list string) (d : DB) : result (list string) :=
  match selection_spec profile name base with
  | None => Ok ids
  | Some sel =>
      let selected := map d_id (select_inputs profile (eligible_inputs profile space_id sel d) base) in
      if match ids with [] => false | _ => negb (subset_of ids selected) end
      then Error 409 "profile_input_selection_mismatch"
      else
        let ids := match ids with [] => sorted_set selected | _ => ids end in
        if Z.of_nat (List.length ids) <? sel_minimum sel then Error 409 (sel_minimum_error sel) else Ok ids
  end.

(** [ids = body.get("input_record_ids", [])] with its checks. *)
Definition requested_inputs (body : dict) : result (list string) :=
  match get_or body "input_record_ids" (JList []) with
  | JList l =>
      if 1000 <? Z.of_nat (List.length l) then Error 422 "invalid_input_records"
      else match strings_of l with
           | Some ids => if bool_decide (NoDup ids) then Ok ids else Error 422 "invalid_input_records"
           | None => Err TypeError
           end
  | _ => Error 422 "invalid_input_records"
  end.

Definition add_input (space_id attempt_id : string) (r : Record_) : M World unit :=
  add_row INPUTS (attempt_id, rec_id r) (mkCoordinationInput attempt_id (rec_id r) space_id).

(** The action of [acquire]. *)
Definition acquire_action (space : Space) (member : Member) (principal : Principal) (space_id : string)
    (body : dict) : M World json :=
  let* name := lift (validate_reference_name (get_or_none body "reference")) in
  let* reference := get_row REFERENCES (space_id, name) in
  let* reference := found reference 404 "reference_not_found" in
  raise_if (negb (String.eqb (str_of_int (ref_generation reference)) (py_str (get_or_none body "expected_token"))))
    412 "reference_version_mismatch" ;;
  let* _ := record space_id (JStr (ref_record_id reference)) member principal false in
  let* busy := active_acquisition space_id name in
  raise_if busy 409 "acquisition_busy" ;;
  let* ids := lift (requested_inputs body) in
  let* profile := profile_of space in
  let* d := gets w_db in
  let* ids := lift (choose_inputs profile space_id name (ref_record_id reference) ids d) in
  let* inputs := mapM (fun rid => record space_id (JStr rid) member principal false) ids in
  raise_if (existsb (fun r => negb (bool_decide (rec_state r = PUBLISHED))) inputs) 409 "input_not_published" ;;
  let* lease := found (int_in 10 3600 (get_or body "lease_seconds" (JInt (coordination_seconds settings))))
                  422 "invalid_lease_seconds" in
  bulk_update COORDINATIONS (active_for space_id name) (fun c => c <| co_state := CO_EXPIRED |>) ;;
  set_row REFERENCES (space_id, name) (fun f => f <| ref_fence ::= Z.succ |>) ;;
  let* id := identifier in
  let* now := database_time in
  let* created := database_time in
  add_row COORDINATIONS id
    (mkCoordination id space_id name (ref_generation reference) (pr_id principal) (Z.succ (ref_fence reference))
       CO_ACTIVE (now + seconds lease) None created) ;;
  for_each inputs (add_input space_id id) ;;
  emit space_id "acquisition.started" (pr_id principal) None [("id", JStr id); ("reference", JStr name)] ;;
  acquisition_dict space_id id.

(** [acquire] *)
Definition acquire (principal : Principal) (space_id : string) (body : dict) (key : json) : M World json :=
  transaction space_id principal true false (fun space member =>
    require member ["publisher"] ;;
    let* result := once space principal "acquisition.create" key (JObj body)
                     (acquire_action space member principal space_id body) in
    let* kvs := lift (as_dict result) in
    let* attempt := get_attempt space_id (get_or_none kvs "id") in
    (if bool_decide (co_state attempt = CO_ACTIVE) then
       let* now := database_time in
       raise_if (co_lease_until attempt <=? now) 409 "acquisition_expired"
     else ret tt) ;;
    raise_if (negb (bool_decide (co_state attempt = CO_ACTIVE)) && negb (bool_decide (co_state attempt = CO_COMPLETED)))
      409 "acquisition_not_active" ;;
    acquisition_dict space_id (co_id attempt)).

(** [get_acquisition] *)
Definition get_acquisition (principal : Principal) (space_id attempt_id : string) : M World json :=
  transaction space_id principal false false (fun _ member =>
    require member ["publisher"] ;;
    acquisition_dict space_id attempt_id).

(** [check_attempt]: the caller holds the attempt, which is active, within its
    lease, and the latest one of its reference. *)
Definition check_attempt (attempt : Coordination) (principal : Principal) (fence : json) : M World Reference :=
  raise_if (negb (String.eqb (co_holder attempt) (pr_id principal))) 403 "acquisition_holder_required" ;;
  let* reference := get_row REFERENCES (co_space_id attempt, co_reference_name attempt) in
  raise_if (negb (bool_decide (co_state attempt = CO_ACTIVE))) 409 "acquisition_not_active" ;;
  let* now := database_time in
  raise_if ((co_lease_until attempt <=? now) || negb (py_eqb fence (JInt (co_fence attempt)))) 409 "acquisition_not_active" ;;
  match reference with
  | None => throw AttributeError
  | Some f => raise_if (negb (py_eqb (JInt (ref_fence f)) fence)) 409 "acquisition_not_active" ;; ret f
  end.

(** [renew], [abandon] *)
Definition renew (principal : Principal) (space_id attempt_id : string) (fence : json) : M World json :=
  transaction space_id principal true false (fun _ member =>
    require member ["publisher"] ;;
    let* attempt := get_attempt space_id (JStr attempt_id) in
    let* _ := check_attempt attempt principal fence in
    let* now := database_time in
    set_row COORDINATIONS attempt_id (fun c => c <| co_lease_until := now + seconds (coordination_seconds settings) |>) ;;
    acquisition_dict space_id attempt_id).

Definition abandon (principal : Principal) (space_id attempt_id : string) (fence : json) : M World json :=
  transaction space_id principal true false (fun _ member =>
    require member ["publisher"] ;;
    let* attempt := get_attempt space_id (JStr attempt_id) in
    let* _ := check_attempt attempt principal fence in
    set_row COORDINATIONS attempt_id (fun c => c <| co_state := CO_ABANDONED |>) ;;
    emit space_id "acquisition.abandoned" (pr_id principal) None [("id", JStr (co_id attempt))] ;;
    acquisition_dict space_id attempt_id).

(** The action of [complete]. *)
Definition complete_action (space : Space) (member : Member) (principal : Principal) (space_id : string)
    (attempt : Coordination) (body : dict) : M World json :=
  let* reference := check_attempt attempt principal (get_or_none body "fence") in
  raise_if (negb (ref_generation reference =? co_expected_generation attempt)) 412 "reference_version_mismatch" ;;
  let* result := record space_id (get_or_none body "result_record_id") member principal false in
  raise_if (negb (bool_decide (rec_state result = PUBLISHED)) || negb (rec_shared result)) 409 "reference_requires_shared_record" ;;
  let* frozen := select_where INPUTS (fun ci => String.eqb (ci_attempt_id ci) (co_id attempt)) in
  let* inputs := mapM (fun rid => record space_id (JStr rid) member principal false) (map ci_record_id frozen) in
  let* profile := profile_of space in
  let* used := lift (completion_inputs profile (profile_record result) (map profile_record inputs) (co_reference_name attempt)) in
  raise_if (existsb (fun d => negb (bool_decide (d_state d = PUBLISHED))) used) 409 "input_not_published" ;;
  let* d := gets w_db in
  let* _ := lift (each (fun r => validate_input_current profile r (member_of space_id (d_creator r) d)) used) in
  let* _ := lift (validate_reference profile (co_reference_name attempt) (profile_record result) used
                    (Some (ref_record_id reference))) in
  let key := (co_space_id attempt, co_reference_name attempt) in
  set_row REFERENCES key (fun f => f <| ref_record_id := rec_id result |> <| ref_generation ::= Z.succ |>) ;;
  set_row COORDINATIONS (co_id attempt) (fun c => c <| co_state := CO_COMPLETED |> <| co_result_record_id := Some (rec_id result) |>) ;;
  emit space_id "reference.updated" (pr_id principal) (Some (rec_id result))
    [("name", JStr (ref_name reference)); ("token", JStr (str_of_int (Z.succ (ref_generation reference))))] ;;
  emit space_id "acquisition.completed" (pr_id principal) (Some (rec_id result)) [("id", JStr (co_id attempt))] ;;
  acquisition_dict space_id (co_id attempt).

(** [complete] *)
Definition complete (principal : Principal) (space_id attempt_id : string) (body : dict) (key : json) : M World json :=
  transaction space_id principal true false (fun space member =>
    require member ["publisher"] ;;
    let* attempt := get_attempt space_id (JStr attempt_id) in
    raise_if (negb (String.eqb (co_holder attempt) (pr_id principal))) 403 "acquisition_holder_required" ;;
    if bool_decide (co_state attempt = CO_COMPLETED) then
      raise_if (negb (py_eqb (JInt (co_fence attempt)) (get_or_none body "fence"))
                || negb (py_eqb (opt_str (co_result_record_id attempt)) (get_or_none body "result_record_id")))
        409 "completion_conflict" ;;
      acquisition_dict space_id attempt_id
    else
      once space principal ("acquisition.complete:" +:+ attempt_id) key (JObj body)
        (complete_action space member principal space_id attempt body)).

(** [events]: the rows of one space after a cursor that the member may see. *)
Definition event_visible (member : Member) (principal : Principal) (d : DB) (e : Event) : bool :=
  let roles := mb_roles member in
  let content := match ev_record_id e with
                 | Some rid => match records d !! rid with Some r => visible_clause member principal r | None => false end
                 | None => false
                 end in
  let tombstone_access :=
    if mem_str "publisher" roles then match ev_record_id e with Some _ => true | None => false end
    else if has_any roles ["reader"; "contributor"] then
      match get_or_none (ev_payload e) "kind" with
      | JStr kind => match kind_policies d !! (ev_space_id e, kind) with
                     | Some p => String.eqb (kp_visibility p) "shared"
                     | None => false
                     end
      | _ => false
      end
    else String.eqb (ev_type e) "__none__" in
  let tombstone := mem_str (ev_type e) TERMINAL_EVENTS
                   && json_eqb (get_or_none (ev_payload e) "published") (JBool true) && tombstone_access in
  let admin := if mem_str "admin" roles then match ev_record_id e with None => true | Some _ => false end
               else String.eqb (ev_type e) "__none__" in
  content || tombstone || admin.

Definition event_le (a b : Event) : Prop := ev_id a <= ev_id b.
#[local] Instance event_le_dec : RelDecision event_le.
Proof. intros a b. unfold event_le. apply _. Defined.

(** [row.type.split(".", 1)[1]] of a terminal event. *)
Definition after_dot (s : string) : string :=
  match split_on "."%char s with _ :: rest => join "." rest | [] => "" end.
Definition event_dict (e : Event) : json :=
  JObj [("id", JInt (ev_id e)); ("type", JStr (ev_type e)); ("record_id", opt_str (ev_record_id e));
        ("payload", if mem_str (ev_type e) TERMINAL_EVENTS then JObj [("state", JStr (after_dot (ev_type e)))]
                    else JObj (ev_payload e));
        ("created_at", time_json (ev_created_at e))].

Definition event_rows (member : Member) (principal : Principal) (space_id : string) (after : Z) (d : DB) : list Event :=
  merge_sort event_le (rows (fun e => String.eqb (ev_space_id e) space_id && (after <? ev_id e)
                                      && event_visible member principal d e) (events d)).

(** The largest event identifier of the space, or [after] when it has none. *)
Definition last_event (space_id : string) (after : Z) (d : DB) : Z :=
  match rows (fun e => String.eqb (ev_space_id e) space_id) (events d) with
  | [] => after
  | e :: es => fold_left (fun acc e => Z.max acc (ev_id e)) es (ev_id e)
  end.

Definition events_page (member : Member) (principal : Principal) (space_id : string) (after limit : Z) (d : DB)
    : list Event * Z :=
  let fetched := take (Z.to_nat (limit + 1)) (event_rows member principal space_id after d) in
  let more := limit <? Z.of_nat (List.length fetched) in
  let page := take (Z.to_nat limit) fetched in
  (page, if more then match last page with Some e => ev_id e | None => after end else last_event space_id after d).

Definition events_command (principal : Principal) (space_id : string) (after limit : Z) : M World json :=
  raise_if (negb ((1 <=? limit) && (limit <=? 1000)) || (after <? 0)) 422 "invalid_cursor" ;;
  transaction space_id principal false false (fun space member =>
    throw_if (after <? event_floor space)
      (ExchangeError 410 "event_cursor_expired"
         ("Reconcile current resources and resume at the supplied floor: " +:+ str_of_int (event_floor space))) ;;
    let* d := gets w_db in
    let '(rows, cursor) := events_page member principal space_id after limit d in
    ret (JObj [("items", JList (map event_dict rows)); ("next_cursor", JInt cursor)])).
End Coordination.
