(* ===== verification/Transfers.v ===== *)
(** * The transfer lifecycle

    [hf2l_exchange.transfers.TransferService]: upload attempts with their
    storage key, lease and mutation markers, the client commands (initiate,
    parts, grants, complete, download and the gateway's fenced PUT), and the
    transactions of a worker (acquire, commit, retry, settle, abandon, expire).
    Storage calls happen between transactions; [begin_session] lets any other
    thread commit before each of them. *)

From stdpp Require Import base gmap strings list fin_maps sorting.
From Stdlib Require Import ZArith Lia Ascii.
From S2P Require Import Prelude Json Domain Schemas Profiles Models Storage Service Spaces Records.

(** The private receipt of one gateway PUT. *)
Record GatewayPutHandle := mkGatewayPut {
  gw_space_id : string;
  gw_record_id : string;
  gw_attachment_id : string;
  gw_attempt_id : string;
  gw_object_key : string;
  gw_upload_id : string;
  gw_part_number : Z;
  gw_token : string;
}.

(** The third argument of [commit]. *)
Inductive CommitResult :=
  | NoResult
  | Started (handle : UploadHandle)
  | Completed (stored : StoredObject)
  | Verified_as (actual : Verification)
  | Reason (message : string).

(** [s.strip("/")], [s.endswith(suffix)] *)
Fixpoint lstrip_slash (s : string) : string :=
  match s with String c s' => if char_eqb c "/"%char then lstrip_slash s' else s | EmptyString => "" end.
Definition all_slashes (s : string) : bool := all_char (fun c => char_eqb c "/"%char) s.
Fixpoint rstrip_slash (s : string) : string :=
  match s with
  | EmptyString => ""
  | String c s' => if all_slashes s then "" else String c (rstrip_slash s')
  end.
Definition strip_slash (s : string) : string := rstrip_slash (lstrip_slash s).
Fixpoint endswith (s suffix : string) : bool :=
  String.eqb s suffix || match s with EmptyString => false | String _ s' => endswith s' suffix end.
Definition join_nonempty (sep : string) (pieces : list string) : string :=
  join sep (List.filter (fun x => negb (String.eqb x "")) pieces).

Definition without (token : string) (tokens : list string) : list string :=
  List.filter (fun t => negb (String.eqb t token)) tokens.
Definition nonempty {A} (l : list A) : bool := match l with [] => false | _ => true end.
Definition or_zero (o : option Z) : Z := match o with Some t => t | None => 0 end.

Section Transfers.
Context {P : Platform} {B : BlobStore}.

(** An attribute of a row that may be [None]. *)
Definition the {A} (o : option A) : M World A := match o with Some a => ret a | None => throw AttributeError end.

Definition transaction_after {A} (space_id : string) (principal : Principal) (write : bool)
    (body : Space -> Member -> M World A) : M World A :=
  interleaved ;; transaction space_id principal write false body.

(** [_attachment] *)
Definition attachment_of (space_id record_id attachment_id : string) (member : Member) (principal : Principal)
    (write : bool) : M World (Record_ * Blob) :=
  let* r := record space_id (JStr record_id) member principal write in
  let* b := attachment space_id record_id attachment_id in
  ret (r, b).

(** [_view] *)
Definition view (b : Blob) (a : option TransferAttempt) : dict :=
  [("attachment_id", JStr (bl_id b)); ("state", JStr (transfer_state_value (bl_state b)));
   ("protocol", JStr "s3-multipart-v1"); ("part_size", JInt (bl_part_size b))]
  ++ match a with Some a => [("attempt_id", JStr (at_id a))] | None => [] end.

(** [_upload] *)
Definition upload_of (a : TransferAttempt) : result UploadHandle :=
  match uh_id (at_upload_handle a) with
  | Some id => if String.eqb id "" then storage_failure "storage_missing" false false
               else Ok (mkUploadHandle id (at_object_key a))
  | None => storage_failure "storage_missing" false false
  end.

(** [_active]: the latest upload attempt of a blob that is still in use. *)
Definition in_use (a : TransferAttempt) : bool :=
  negb (bool_decide (at_state a ∈ [CLEANUP; CLEANED; XFER_FAILED])).
Definition active_upload (blob_id : string) (a : TransferAttempt) : bool :=
  String.eqb (at_blob_id a) blob_id && String.eqb (at_operation a) "upload" && in_use a.
Definition later_than (a b : TransferAttempt) : bool :=
  (at_created_at b <? at_created_at a) || ((at_created_at b =? at_created_at a) && str_gt (at_id a) (at_id b)).
Definition latest (l : list TransferAttempt) : option TransferAttempt :=
  fold_left (fun best a => match best with Some b => if later_than a b then Some a else best | None => Some a end) l None.
Definition active (b : Blob) : M World (option TransferAttempt) :=
  let* rows := select_where ATTEMPTS (active_upload (bl_id b)) in ret (latest rows).

Definition object_key_for (b : Blob) (attempt_id : string) : string :=
  join_nonempty "/" [strip_slash (storage_prefix (storage_settings settings)); bl_space_id b; bl_id b; attempt_id].
Definition lease_from (now : Z) : Z := now + seconds (lease_seconds (worker_settings settings)).

(** [_new_attempt] *)
Definition fresh_attempt (b : Blob) (now : Z) (attempt_id token : string) : TransferAttempt :=
  mkAttempt attempt_id (bl_id b) "upload" (object_key_for b attempt_id) INITIATING (Some token)
    (Some (lease_from now)) 0 now None no_handle [token] 0 now now.
Definition new_attempt (b : Blob) (now : Z) : M World TransferAttempt :=
  let* attempt_id := identifier in
  let* token := identifier in
  let a := fresh_attempt b now attempt_id token in
  add_row ATTEMPTS attempt_id a ;;
  set_row BLOBS (bl_id b) (fun b => b <| bl_state := INITIATING |>) ;;
  ret a.

(** [_owned] *)
Definition owned (current attempt : TransferAttempt) (now : Z) : bool :=
  bool_decide (at_token current = at_token attempt) && bool_decide (is_Some (at_token current))
  && (now <? or_zero (at_lease_until current)).

(** [release_lease]; one renewal of [heartbeat]. *)
Definition release_lease_body (attempt : TransferAttempt) : M World unit :=
  bulk_update ATTEMPTS
    (fun a => String.eqb (at_id a) (at_id attempt) && bool_decide (at_token a = at_token attempt))
    (fun a => a <| at_token := None |> <| at_lease_until := None |>).
Definition release_lease (attempt : TransferAttempt) : M World unit := begin_session (release_lease_body attempt).
Definition heartbeat_body (attempt : TransferAttempt) : M World unit :=
  let* now := database_time in
  bulk_update ATTEMPTS
    (fun a => String.eqb (at_id a) (at_id attempt) && bool_decide (at_token a = at_token attempt)
              && match at_lease_until a with Some t => now <? t | None => false end)
    (fun a => a <| at_lease_until := Some (lease_from now) |>).

(** [min(300, 2 ** min(retry_count, 8))] seconds after [now] *)
Definition backoff (now retry_count : Z) : Z := now + seconds (py_min 300 (2 ^ py_min retry_count 8)).
Definition deferred (now : Z) (code : string) (a : TransferAttempt) : TransferAttempt :=
  a <| at_retry_count ::= Z.succ |> <| at_last_error := Some code |>
    <| at_next_attempt := backoff now (at_retry_count a + 1) |> <| at_token := None |> <| at_lease_until := None |>.

(** The columns [commit] assigns to the attempt for every outcome. *)
Definition settled (attempt : TransferAttempt) (state : TransferState) (now : Z) (a : TransferAttempt) : TransferAttempt :=
  let tokens := if bool_decide (at_state attempt ∈ [INITIATING; COMPLETING]) && bool_decide (state ∈ [UPLOADING; VERIFYING])
                then match at_token attempt with Some t => without t (at_mutation_tokens a) | None => at_mutation_tokens a end
                else at_mutation_tokens a in
  a <| at_mutation_tokens := tokens |> <| at_state := state |> <| at_updated_at := now |> <| at_token := None |>
    <| at_lease_until := None |> <| at_retry_count := 0 |> <| at_last_error := None |> <| at_next_attempt := now |>.

(** The last branch of [commit]: the attempt is cleaned; the blob's bytes are
    reclaimed with its last attempt. *)
Definition commit_cleaned (attempt : TransferAttempt) (blob_id : string) : M World unit :=
  set_row ATTEMPTS (at_id attempt) (fun a => a <| at_upload_handle := no_handle |>) ;;
  let* remaining := exists_where ATTEMPTS (fun a => String.eqb (at_blob_id a) blob_id && negb (bool_decide (at_state a = CLEANED))) in
  let* b := get_row BLOBS blob_id in
  let* b := the b in
  when (negb remaining && bl_pending_deletion b) (
    set_row SPACES (bl_space_id b) (fun s => s <| reclaiming ::= fun n => n - bl_size b |>) ;;
    set_row BLOBS blob_id (fun b => b <| bl_pending_deletion := false |> <| bl_state := CLEANED |>)).

Definition commit_verified (attempt_id blob_id : string) (actual : Verification) : M World unit :=
  let* a := get_row ATTEMPTS attempt_id in
  let* a := the a in
  match uh_version (at_upload_handle a) with
  | None => throw KeyError
  | Some version =>
      set_row BLOBS blob_id (fun b => b <| bl_object_key := Some (at_object_key a) |> <| bl_object_version := Some version |>
                                        <| bl_verified_size := Some (vf_size actual) |>
                                        <| bl_verified_sha256 := Some (vf_sha256 actual) |>)
  end.

(** [str(result or "transfer_failed")] *)
Definition reason_of (result : CommitResult) : string :=
  match result with Reason m => if String.eqb m "" then "transfer_failed" else m | _ => "transfer_failed" end.

(** The branch of [commit] for the new state: what changes beside [settled]. *)
Definition commit_outcome (attempt : TransferAttempt) (b : Blob) (state : TransferState) (result : CommitResult)
    (now : Z) : M World unit :=
  let id := at_id attempt in
  match state, result with
  | UPLOADING, NoResult => ret tt
  | UPLOADING, Started h =>
      set_row ATTEMPTS id (fun a => a <| at_upload_handle := mkHandle (Some (hd_id h)) (Some (hd_key h)) None |>)
  | VERIFYING, Completed stored =>
      set_row ATTEMPTS id (fun a => a <| at_upload_handle ::= fun h => h <| uh_version := so_version stored |> |>) ;;
      set_row RECORDS (bl_record_id b)
        (fun r => r <| rec_expires_at ::= Z.max (now + seconds (failure_seconds (worker_settings settings))) |>)
  | VERIFIED, Verified_as actual => commit_verified id (bl_id b) actual
  | XFER_FAILED, _ =>
      set_row ATTEMPTS id (fun a => a <| at_last_error := Some (reason_of result) |>) ;;
      release (bl_space_id b) (bl_record_id b) FAILED
  | CLEANED, _ => commit_cleaned attempt (bl_id b)
  | _, _ => throw AttributeError
  end.

(** [commit]: the result of a storage call, if the lease it ran under is
    still the attempt's and the attempt has not moved. *)
Definition commit_body (attempt : TransferAttempt) (state : TransferState) (result : CommitResult) : M World bool :=
  let* b := get_row BLOBS (at_blob_id attempt) in
  let* b := the b in
  let* current := get_row ATTEMPTS (at_id attempt) in
  let* r := get_row RECORDS (bl_record_id b) in
  let* now := database_time in
  let* current := the current in
  if negb (owned current attempt now) || negb (bool_decide (at_state current = at_state attempt)) then ret false
  else
    let* draft := (if bool_decide (state = CLEANED) then ret true
                   else let* r := the r in ret (bool_decide (rec_state r = DRAFT))) in
    if negb draft then ret false
    else if bool_decide (state = CLEANED) && nonempty (at_mutation_tokens current) then
      set_row ATTEMPTS (at_id attempt) (deferred now "storage_mutation_uncertain") ;; ret false
    else
      set_row ATTEMPTS (at_id attempt) (settled attempt state now) ;;
      commit_outcome attempt b state result now ;;
      when (negb (bool_decide (state ∈ [XFER_FAILED; CLEANED])))
        (set_row BLOBS (bl_id b) (fun b => b <| bl_state := state |>)) ;;
      emit (bl_space_id b) ("attachment." +:+ transfer_state_value state) "worker" (Some (bl_record_id b))
        [("attachment_id", JStr (bl_id b))] ;;
      ret true.
Definition commit (attempt : TransferAttempt) (state : TransferState) (result : CommitResult) : M World bool :=
  begin_session (commit_body attempt state result).

(** [_retry] *)
Definition retry_body (attempt : TransferAttempt) (code : string) : M World unit :=
  let* b := get_row BLOBS (at_blob_id attempt) in
  match b with
  | None => ret tt
  | Some _ =>
      let* current := get_row ATTEMPTS (at_id attempt) in
      let* now := database_time in
      match current with
      | Some c => when (owned c attempt now && bool_decide (at_state c = at_state attempt))
                    (set_row ATTEMPTS (at_id attempt) (deferred now code))
      | None => ret tt
      end
  end.
Definition retry (attempt : TransferAttempt) (code : string) : M World unit := begin_session (retry_body attempt code).

(** [_rearm_cleanup]: an attempt already given up is scheduled again, since
    the storage may have changed under its key. *)
Definition rearm_cleanup (b : Blob) (current : TransferAttempt) : M World unit :=
  if negb (bool_decide (at_state current ∈ [CLEANUP; CLEANED])) then ret tt
  else
    let* r := get_row RECORDS (bl_record_id b) in
    let* now := database_time in
    set_row ATTEMPTS (at_id current)
      (fun a => a <| at_state := CLEANUP |> <| at_operation := "cleanup" |>
                  <| at_next_attempt := Z.max now (at_grant_expires_at a) |>
                  <| at_token := None |> <| at_lease_until := None |>) ;;
    let* r := the r in
    when (is_terminal (rec_state r) && negb (bl_pending_deletion b)) (
      set_row BLOBS (bl_id b) (fun b => b <| bl_pending_deletion := true |> <| bl_state := CLEANUP |>) ;;
      set_row SPACES (bl_space_id b) (fun s => s <| reclaiming ::= Z.add (bl_size b) |>)).

(** [_settle_mutation] *)
Definition settle_mutation_body (attempt : TransferAttempt) : M World unit :=
  let* b := get_row BLOBS (at_blob_id attempt) in
  match b with
  | None => ret tt
  | Some b =>
      let* current := get_row ATTEMPTS (at_id attempt) in
      match current, at_token attempt with
      | Some c, Some t =>
          when (mem_str t (at_mutation_tokens c)) (
            set_row ATTEMPTS (at_id c) (fun a => a <| at_mutation_tokens ::= without t |>) ;;
            rearm_cleanup b c)
      | _, _ => ret tt
      end
  end.
Definition settle_mutation (attempt : TransferAttempt) : M World unit := begin_session (settle_mutation_body attempt).

(** [_abandon] *)
Definition abandon_body (attempt : TransferAttempt) : M World unit :=
  let* b := get_row BLOBS (at_blob_id attempt) in
  match b with
  | None => ret tt
  | Some b =>
      let* current := get_row ATTEMPTS (at_id attempt) in
      match current with Some c => rearm_cleanup b c | None => ret tt end
  end.
Definition abandon (attempt : TransferAttempt) : M World unit := begin_session (abandon_body attempt).

(** [acquire]: lease current work of the wanted category. *)
Definition acquire_body (attempt_id : string) (cleanup : option bool) : M World (option TransferAttempt) :=
  let* now := database_time in
  let* row := get_row ATTEMPTS attempt_id in
  match row with
  | None => ret None
  | Some a =>
      let* b := get_row BLOBS (at_blob_id a) in
      let* b := the b in
      let uncertain a := a <| at_last_error := Some "storage_mutation_uncertain" |>
                           <| at_next_attempt := now + seconds (recover_after (worker_settings settings)) |> in
      if match cleanup with Some c => negb (Bool.eqb (bool_decide (at_state a = CLEANUP)) c) | None => false end then ret None
      else if (now <? at_next_attempt a) || (now <? or_zero (at_lease_until a)) then ret None
      else if bool_decide (at_state a = CLEANUP) && nonempty (at_mutation_tokens a) then
        set_row ATTEMPTS attempt_id uncertain ;; ret None
      else if bool_decide (at_state a = CLEANUP) && (now <? at_grant_expires_at a) then ret None
      else match at_state a with
      | INITIATING =>
          set_row ATTEMPTS attempt_id
            (fun a => a <| at_state := CLEANUP |> <| at_operation := "cleanup" |> <| at_next_attempt := now |>
                        <| at_updated_at := now |> <| at_token := None |> <| at_lease_until := None |>) ;;
          let* r := get_row RECORDS (bl_record_id b) in
          let* r := the r in
          if negb (bool_decide (rec_state r = DRAFT)) then ret None
          else if nonempty (at_mutation_tokens a) then
            set_row BLOBS (bl_id b) (fun b => b <| bl_state := Reserved |>) ;;
            set_row ATTEMPTS attempt_id (fun a => a <| at_last_error := Some "storage_mutation_uncertain" |>) ;;
            ret None
          else
            let* fresh := new_attempt b now in
            let inherit f := f <| at_retry_count := at_retry_count a |> <| at_last_error := at_last_error a |>
                               <| at_created_at := at_created_at a |> <| at_updated_at := now |> in
            set_row ATTEMPTS (at_id fresh) inherit ;;
            ret (Some (inherit fresh))
      | COMPLETING | VERIFYING | CLEANUP =>
          if bool_decide (at_state a = COMPLETING) && nonempty (at_mutation_tokens a) then
            set_row ATTEMPTS attempt_id uncertain ;; ret None
          else
            let* token := identifier in
            let leased a := a <| at_token := Some token |> <| at_lease_until := Some (lease_from now) |>
                              <| at_mutation_tokens ::= fun ts => if bool_decide (at_state a = COMPLETING) then ts ++ [token] else ts |> in
            set_row ATTEMPTS attempt_id leased ;;
            ret (Some (leased a))
      | _ => ret None
      end
  end.
Definition acquire (attempt_id : string) (cleanup : option bool) : M World (option TransferAttempt) :=
  begin_session (acquire_body attempt_id cleanup).
End Transfers.
