(* ===== verification/Uploads.v ===== *)
(** * Transfer commands, execution and recovery

    The rest of [hf2l_exchange.transfers]: [_execute], which runs the storage
    call an attempt is due and commits its result, the client commands over it,
    the gateway's fenced PUT, the worker queues, expiry of drafts and the
    operator's repair; the managed adapter of
    [hf2l_exchange.managed_transfers]; and [prune] and [tick] of
    [hf2l_exchange.worker]. *)

From stdpp Require Import base gmap strings list fin_maps sorting.
From Stdlib Require Import ZArith Lia Ascii.
From S2P Require Import Prelude Json Domain Schemas Profiles Models Storage Service Spaces Records Managed Transfers.

Section Uploads.
Context {P : Platform} {B : BlobStore}.

(** ** Execution of a due storage call *)

(** The body of the [try] of [_execute]. *)
Definition call_due (attempt : TransferAttempt) (size : Z) (digest : string) (part_size : Z)
    : M World (option (TransferState * CommitResult * string)) :=
  match at_state attempt with
  | CLEANUP =>
      let* skip := begin_session (
        let* b := get_row BLOBS (at_blob_id attempt) in
        let* _ := the b in
        let* current := get_row ATTEMPTS (at_id attempt) in
        match current with
        | None => ret true
        | Some c =>
            if negb (bool_decide (at_state c = CLEANUP)) || nonempty (at_mutation_tokens c) then ret true
            else let* now := database_time in ret (negb (owned c attempt now))
        end) in
      if skip then ret None
      else let* _ := provider (fun n => store_cleanup n (at_object_key attempt)) in
           ret (Some (CLEANED, NoResult, "cleaned"))
  | INITIATING =>
      let* h := provider (fun n => store_start n (at_object_key attempt)) in
      ret (Some (UPLOADING, Started h, "recovered"))
  | COMPLETING =>
      let* h := lift (upload_of attempt) in
      let* stored := provider (fun n => store_complete n h size part_size) in
      ret (Some (VERIFYING, Completed stored, "recovered"))
  | VERIFYING =>
      match uh_version (at_upload_handle attempt) with
      | None => throw KeyError
      | Some version =>
          let stored := mkStoredObject (Some (at_object_key attempt)) (Some version) in
          let* actual := provider (fun n => store_verify n stored size digest) in
          ret (Some (VERIFIED, Verified_as actual, "verified"))
      end
  | _ => ret None
  end.

Definition mutating (attempt : TransferAttempt) : bool := bool_decide (at_state attempt ∈ [INITIATING; COMPLETING]).

Definition execute_body (attempt : TransferAttempt) : M World string :=
  let* '(b, now) := begin_session (
    let* b := get_row BLOBS (at_blob_id attempt) in
    let* now := database_time in
    let* b := the b in
    ret (b, now)) in
  if negb (bool_decide (at_state attempt = CLEANUP))
     && (seconds (failure_seconds (worker_settings settings)) <? now - at_updated_at attempt) then
    let* done := commit attempt XFER_FAILED (Reason "transfer_deadline_exceeded") in
    ret (if done then "failed" else "skipped")
  else
    let* due := call_due attempt (bl_size b) (bl_sha256 b) (bl_part_size b) in
    match due with
    | None => ret "skipped"
    | Some (state, result, outcome) =>
        let* done := commit attempt state result in
        if done then ret outcome
        else when (mutating attempt) (abandon attempt) ;; ret "skipped"
    end.

(** [except StorageFailure as failure] *)
Definition on_failure (attempt : TransferAttempt) (code : string) (retryable : bool) : M World string :=
  if String.eqb code "invalid_parts" && bool_decide (at_state attempt = COMPLETING) then
    let* done := commit attempt UPLOADING NoResult in ret (if done then "invalid_parts" else "skipped")
  else if retryable || bool_decide (at_state attempt = CLEANUP) then
    retry attempt code ;; ret "retry"
  else
    let* done := commit attempt XFER_FAILED (Reason code) in ret (if done then "failed" else "skipped").

(** The [try] with its handlers: the outcome and [resolved]. *)
Definition execute_guarded (attempt : TransferAttempt) : World -> result string * bool * World :=
  fun w => match execute_body attempt w with
           | (Ok outcome, w1) => (Ok outcome, true, w1)
           | (Err (StorageFailure code retryable uncertain), w1) =>
               let '(r, w2) := on_failure attempt code retryable w1 in (r, negb uncertain, w2)
           | (Err _, w1) =>
               let '(r, w2) := (retry attempt "internal_transfer_error" ;; ret "retry") w1 in (r, false, w2)
           end.

(** [finally] *)
Definition finish (attempt : TransferAttempt) (resolved : bool) : M World unit :=
  when (mutating attempt) (when resolved (settle_mutation attempt) ;; abandon attempt) ;;
  release_lease attempt.

(** [_execute] *)
Definition execute (attempt : TransferAttempt) : M World string :=
  fun w => let '(r, resolved, w1) := execute_guarded attempt w in
           (finish attempt resolved ;; lift r) w1.

(** [process] *)
Definition process (attempt_id : string) (cleanup : bool) : M World string :=
  let* attempt := acquire attempt_id (Some cleanup) in
  match attempt with Some a => execute a | None => ret "skipped" end.

(** ** Client commands *)

(** [initiate]: the first transaction answers, or reserves a new attempt. *)
Definition initiate_body (space_id record_id attachment_id : string) (principal : Principal) (member : Member)
    : M World (dict + TransferAttempt) :=
  let* '(r, b) := attachment_of space_id record_id attachment_id member principal true in
  raise_if (negb (bool_decide (rec_state r = DRAFT))) 409 "record_not_draft" ;;
  let* current := active b in
  match current with
  | Some a => ret (inl (view b (Some a)))
  | None =>
      if bool_decide (bl_state b ∈ [VERIFIED; XFER_FAILED; CLEANED]) then ret (inl (view b None))
      else
        let* prior := select_where ATTEMPTS (fun a => String.eqb (at_blob_id a) (bl_id b)) in
        raise_if (existsb (fun a => nonempty (at_mutation_tokens a)) prior) 409 "storage_mutation_uncertain" ;;
        raise_if (existsb (fun a => bool_decide (at_state a = CLEANUP)) prior) 409 "cleanup_pending" ;;
        let* now := database_time in
        raise_if (rec_expires_at r <=? now) 409 "draft_expired" ;;
        let* a := new_attempt b now in
        ret (inr a)
  end.

(** The second transaction of [initiate] and [complete]. *)
Definition current_view (space_id record_id attachment_id : string) (principal : Principal) : M World dict :=
  transaction_after space_id principal false (fun _ member =>
    let* '(_, b) := attachment_of space_id record_id attachment_id member principal false in
    let* a := active b in
    ret (view b a)).

Definition initiate (space_id record_id attachment_id : string) (principal : Principal) : M World dict :=
  let* first := transaction space_id principal true false (fun _ member =>
    initiate_body space_id record_id attachment_id principal member) in
  match first with
  | inl answer => ret answer
  | inr attempt =>
      let* _ := execute attempt in
      current_view space_id record_id attachment_id principal
  end.

Definition uploading (a : option TransferAttempt) : option TransferAttempt :=
  match a with Some a => if bool_decide (at_state a = UPLOADING) then Some a else None | None => None end.

(** [parts] *)
Definition parts (space_id record_id attachment_id : string) (principal : Principal) : M World json :=
  let* handle := transaction space_id principal false false (fun _ member =>
    let* '(r, b) := attachment_of space_id record_id attachment_id member principal true in
    let* a := active b in
    match uploading a with
    | Some a => raise_if (negb (bool_decide (rec_state r = DRAFT))) 409 "upload_not_ready" ;; lift (upload_of a)
    | None => raise 409 "upload_not_ready"
    end) in
  let* ps := provider (fun n => store_parts n handle) in
  ret (JObj [("parts", JList (map part_dict ps))]).

Definition grant_window (r : Record_) (now : Z) : Z :=
  py_max 1 (py_min (grant_seconds (storage_settings settings)) (whole_seconds (rec_expires_at r - now))).

Definition numbers_ok (numbers : list Z) : bool :=
  nonempty numbers && (Z.of_nat (List.length numbers) <=? 100) && bool_decide (NoDup numbers).

Definition latest_expiry (grants : list TransferGrant) : Z :=
  match grants with
  | [] => 0
  | g :: gs => fold_left (fun acc g => Z.max acc (tg_expires_at g)) gs (tg_expires_at g)
  end.

Definition numbered (g : TransferGrant) (n size : Z) : json :=
  JObj (grant_asdict g ++ [("number", JInt n); ("size", JInt size)]).

(** [grants]: the checks, the signatures, and the checks again with the
    signed expiry recorded before a URL is returned. *)
Definition grants_check (space_id record_id attachment_id : string) (principal : Principal) (numbers : list Z)
    (member : Member) : M World (UploadHandle * string * list Z * Z * Z) :=
  let* '(r, b) := attachment_of space_id record_id attachment_id member principal true in
  let* a := active b in
  let* now := database_time in
  match uploading a with
  | Some a =>
      raise_if (negb (bool_decide (rec_state r = DRAFT)) || (rec_expires_at r <=? now)) 409 "upload_not_ready" ;;
      let* handle := lift (upload_of a) in
      let* sizes := lift (part_sizes numbers (bl_size b) (bl_part_size b)) in
      ret (handle, at_id a, sizes, now, grant_window r now)
  | None => raise 409 "upload_not_ready"
  end.

Definition grants_record (space_id record_id attachment_id : string) (principal : Principal) (attempt_id : string)
    (expiry : Z) (member : Member) : M World unit :=
  let* '(r, b) := attachment_of space_id record_id attachment_id member principal true in
  let* a := get_row ATTEMPTS attempt_id in
  raise_if (negb (bool_decide (rec_state r = DRAFT))) 409 "upload_not_ready" ;;
  let* now := database_time in
  raise_if (rec_expires_at r <=? now) 409 "upload_not_ready" ;;
  match uploading a with
  | Some a =>
      set_row ATTEMPTS attempt_id (fun a => a <| at_grant_expires_at ::= Z.max expiry |>) ;;
      set_row BLOBS (bl_id b) (fun b => b <| bl_grant_expires_at ::= Z.max expiry |>)
  | None => raise 409 "upload_not_ready"
  end.

Definition grants (space_id record_id attachment_id : string) (principal : Principal) (numbers : list Z) : M World json :=
  raise_if (negb (numbers_ok numbers)) 422 "invalid_part_numbers" ;;
  let* '(handle, attempt_id, sizes, now, window) := transaction space_id principal false false (fun _ member =>
    grants_check space_id record_id attachment_id principal numbers member) in
  let* gs := mapM (fun ns => provider (fun n => store_upload_grant n handle ns.1 ns.2 (now + seconds window) window))
               (zip numbers sizes) in
  transaction_after space_id principal true (fun _ member =>
    grants_record space_id record_id attachment_id principal attempt_id (latest_expiry gs) member) ;;
  ret (JObj [("grants", JList (map (fun '(g, (n, size)) => numbered g n size) (zip gs (zip numbers sizes))))]).

(** [complete]: the upload is closed under a fresh lease and marker. *)
Definition complete_body (space_id record_id attachment_id : string) (principal : Principal) (member : Member)
    : M World (dict + TransferAttempt) :=
  let* '(r, b) := attachment_of space_id record_id attachment_id member principal true in
  raise_if (negb (bool_decide (rec_state r = DRAFT))) 409 "record_not_draft" ;;
  let* current := active b in
  match uploading current with
  | None => ret (inl (view b current))
  | Some a =>
      let* now := database_time in
      raise_if (rec_expires_at r <=? now) 409 "draft_expired" ;;
      raise_if (nonempty (at_mutation_tokens a)) 409 "storage_mutation_uncertain" ;;
      let* token := identifier in
      let closing a := a <| at_state := COMPLETING |> <| at_token := Some token |> <| at_lease_until := Some (lease_from now) |>
                         <| at_mutation_tokens ::= fun ts => ts ++ [token] |>
                         <| at_updated_at := now |> <| at_next_attempt := now |> in
      set_row ATTEMPTS (at_id a) closing ;;
      set_row BLOBS (bl_id b) (fun b => b <| bl_state := COMPLETING |>) ;;
      ret (inr (closing a))
  end.

Definition complete_upload (space_id record_id attachment_id : string) (principal : Principal) : M World dict :=
  let* first := transaction space_id principal true false (fun _ member =>
    complete_body space_id record_id attachment_id principal member) in
  match first with
  | inl answer => ret answer
  | inr attempt =>
      let* outcome := execute attempt in
      raise_if (String.eqb outcome "invalid_parts") 409 "invalid_parts" ;;
      current_view space_id record_id attachment_id principal
  end.

(** [download] *)
Definition downloadable (space_id record_id attachment_id : string) (principal : Principal) (member : Member) : M World Blob :=
  let* '(r, b) := attachment_of space_id record_id attachment_id member principal false in
  raise_if (negb (bool_decide (rec_state r = PUBLISHED)) || negb (bool_decide (bl_state b = VERIFIED)))
    409 "attachment_not_available" ;;
  ret b.

Definition record_download (space_id record_id attachment_id : string) (principal : Principal) (expiry : Z)
    (member : Member) : M World unit :=
  let* b := downloadable space_id record_id attachment_id principal member in
  set_row BLOBS (bl_id b) (fun b => b <| bl_grant_expires_at ::= Z.max expiry |>) ;;
  let* a := active b in
  match a with
  | Some a => set_row ATTEMPTS (at_id a) (fun a => a <| at_grant_expires_at ::= Z.max expiry |>)
  | None => ret tt
  end.

Definition opt_int (o : option Z) : json := match o with Some n => JInt n | None => JNull end.

Definition download (space_id record_id attachment_id : string) (principal : Principal) : M World json :=
  let* '(b, now) := transaction space_id principal false false (fun _ member =>
    let* b := downloadable space_id record_id attachment_id principal member in
    let* now := database_time in
    ret (b, now)) in
  let window := grant_seconds (storage_settings settings) in
  let* g := provider (fun n => store_download_grant n (mkStoredObject (bl_object_key b) (bl_object_version b))
                                 (now + seconds window) window) in
  transaction_after space_id principal true (fun _ member =>
    record_download space_id record_id attachment_id principal (tg_expires_at g) member) ;;
  ret (JObj (grant_asdict g ++ [("size", opt_int (bl_verified_size b)); ("sha256", opt_str (bl_verified_sha256 b))])).

(** ** The gateway's fenced PUT *)

Definition key_is_private (object_key suffix : string) : bool :=
  String.eqb object_key suffix || endswith object_key ("/" +:+ suffix).
Definition put_token_prefix (number : Z) : string := "gateway-put-" +:+ str_of_int number +:+ "-".

(** [begin_gateway_put]: the marker is durable before the grant is signed. *)
Definition gateway_fence (principal : Principal) (space_id record_id attachment_id : string) (number : Z)
    (member : Member) : M World (GatewayPutHandle * UploadHandle * Z * Z * Z) :=
  let* '(r, b) := attachment_of space_id record_id attachment_id member principal true in
  let* a := active b in
  let* now := database_time in
  raise_if (negb (bool_decide (rec_state r = DRAFT)) || (rec_expires_at r <=? now) || bl_pending_deletion b) 409 "upload_not_ready" ;;
  match uploading a with
  | None => raise 409 "upload_not_ready"
  | Some a =>
      let* upload := (match upload_of a with Ok h => ret h | Err _ => raise 409 "upload_not_ready" end) in
      let suffix := join "/" [space_id; bl_id b; at_id a] in
      raise_if (negb (bool_decide (uh_key (at_upload_handle a) = Some (at_object_key a)))
                || negb (key_is_private (at_object_key a) suffix)) 409 "upload_not_ready" ;;
      let* size := (match part_size_for number (bl_size b) (bl_part_size b) with
                    | Ok s => ret s | Err _ => raise 422 "invalid_part_numbers" end) in
      raise_if (100 <=? Z.of_nat (List.length (at_mutation_tokens a))) 409 "storage_mutation_uncertain" ;;
      let* unique := identifier in
      let token := put_token_prefix number +:+ unique in
      set_row ATTEMPTS (at_id a) (fun a => a <| at_mutation_tokens ::= fun ts => ts ++ [token] |> <| at_updated_at := now |>) ;;
      ret (mkGatewayPut space_id record_id attachment_id (at_id a) (at_object_key a) (hd_id upload) number token,
           upload, size, now, grant_window r now)
  end.

(** The attempt a receipt was issued for, still holding its marker. *)
Definition receipt_matches (h : GatewayPutHandle) (a : TransferAttempt) : bool :=
  String.eqb (at_blob_id a) (gw_attachment_id h) && String.eqb (at_object_key a) (gw_object_key h)
  && bool_decide (uh_id (at_upload_handle a) = Some (gw_upload_id h))
  && bool_decide (uh_key (at_upload_handle a) = Some (gw_object_key h))
  && mem_str (gw_token h) (at_mutation_tokens a).

Definition gateway_confirm (principal : Principal) (space_id record_id attachment_id : string)
    (h : GatewayPutHandle) (expiry : Z) (member : Member) : M World unit :=
  let* '(r, b) := attachment_of space_id record_id attachment_id member principal true in
  let* current := get_row ATTEMPTS (gw_attempt_id h) in
  raise_if (negb (bool_decide (rec_state r = DRAFT))) 409 "upload_not_ready" ;;
  let* now := database_time in
  raise_if ((rec_expires_at r <=? now)
            || match uploading current with Some c => negb (receipt_matches h c) | None => true end) 409 "upload_not_ready" ;;
  set_row ATTEMPTS (gw_attempt_id h) (fun a => a <| at_grant_expires_at ::= Z.max expiry |>) ;;
  set_row BLOBS (bl_id b) (fun b => b <| bl_grant_expires_at ::= Z.max expiry |>).

Definition begin_gateway_put (principal : Principal) (space_id record_id attachment_id : string) (part_number : json)
    : M World (GatewayPutHandle * json) :=
  raise_if (match pr_workload principal with None => true | Some _ => false end) 403 "workload_identity_required" ;;
  let* number := found (int_in 1 10000 part_number) 422 "invalid_part_numbers" in
  let* '(h, upload, size, now, window) := transaction space_id principal true false (fun _ member =>
    gateway_fence principal space_id record_id attachment_id number member) in
  let* g := provider (fun n => store_upload_grant n upload number size (now + seconds window) window) in
  transaction_after space_id principal true (fun _ member =>
    gateway_confirm principal space_id record_id attachment_id h (tg_expires_at g) member) ;;
  ret (h, numbered g number size).

(** [finish_gateway_put] *)
Definition finish_gateway_body (h : GatewayPutHandle) : M World bool :=
  let* space := get_row SPACES (gw_space_id h) in
  match space with
  | None => ret false
  | Some _ =>
      let* b := get_row BLOBS (gw_attachment_id h) in
      let* current := get_row ATTEMPTS (gw_attempt_id h) in
      match b, current with
      | Some b, Some c =>
          if negb (String.eqb (bl_space_id b) (gw_space_id h)) || negb (String.eqb (bl_record_id b) (gw_record_id h))
             || negb (receipt_matches h c) then ret false
          else
            let* now := database_time in
            set_row ATTEMPTS (at_id c) (fun a => a <| at_mutation_tokens ::= without (gw_token h) |> <| at_updated_at := now |>) ;;
            rearm_cleanup b c ;;
            ret true
      | _, _ => ret false
      end
  end.
Definition finish_gateway_put (h : GatewayPutHandle) : M World bool :=
  if negb ((1 <=? gw_part_number h) && (gw_part_number h <=? 10000))
     || negb (startswith (gw_token h) (put_token_prefix (gw_part_number h))) then ret false
  else begin_session (finish_gateway_body h).

(** ** The worker's queues and the expiry of drafts *)

Definition due_le (a b : TransferAttempt) : Prop :=
  at_next_attempt a < at_next_attempt b \/ (at_next_attempt a = at_next_attempt b /\ str_gt (at_id a) (at_id b) = false).
#[local] Instance due_le_dec : RelDecision due_le.
Proof. intros a b. unfold due_le. apply _. Defined.

Definition is_free (now : Z) (a : TransferAttempt) : bool :=
  match at_lease_until a with None => true | Some t => t <=? now end && (at_next_attempt a <=? now).
Definition due_for_verification (now : Z) (a : TransferAttempt) : bool :=
  is_free now a && bool_decide (at_state a ∈ [INITIATING; COMPLETING; VERIFYING]).
Definition due_for_cleanup (now : Z) (a : TransferAttempt) : bool :=
  is_free now a && bool_decide (at_state a = CLEANUP) && (at_grant_expires_at a <=? now).
Definition queue (batch : Z) (due : TransferAttempt -> bool) : M World (list string) :=
  let* rows := select_where ATTEMPTS due in
  ret (map at_id (take (Z.to_nat batch) (merge_sort due_le rows))).

(** [work] *)
Definition work (batch : Z) : M World (list string * list string) :=
  begin_session (
    let* now := database_time in
    let* verify := queue batch (due_for_verification now) in
    let* cleanup := queue batch (due_for_cleanup now) in
    ret (verify, cleanup)).

Definition expiry_le (a b : Record_) : Prop := rec_expires_at a <= rec_expires_at b.
#[local] Instance expiry_le_dec : RelDecision expiry_le.
Proof. intros a b. unfold expiry_le. apply _. Defined.

(** One draft of [expire]. *)
Definition expire_body (record_id : string) : M World Z :=
  let* r := get_row RECORDS record_id in
  let* r := the r in
  let* now := database_time in
  if bool_decide (rec_state r = DRAFT) && (rec_expires_at r <=? now) then
    release (rec_space_id r) record_id EXPIRED ;; ret 1
  else ret 0.

(** [expire] *)
Definition expire (batch : Z) : M World Z :=
  let* ids := begin_session (
    let* now := database_time in
    let* rs := select_where RECORDS (fun r => bool_decide (rec_state r = DRAFT) && (rec_expires_at r <=? now)) in
    ret (map rec_id (take (Z.to_nat batch) (merge_sort expiry_le rs)))) in
  foldM (fun count id => let* n := begin_session (expire_body id) in ret (count + n)) 0 ids.

(** ** The operator's inventory and repair *)

Definition repairable (a : TransferAttempt) (r : Record_) (now : Z) : bool :=
  let gateway_pending := bool_decide (at_state a = UPLOADING) && bool_decide (rec_state r = DRAFT)
                         && nonempty (at_mutation_tokens a)
                         && forallb (fun t => startswith t "gateway-put-") (at_mutation_tokens a) in
  (bool_decide (at_state a ∈ [CLEANUP; INITIATING; COMPLETING]) || is_terminal (rec_state r) || gateway_pending)
  && negb (now <? or_zero (at_lease_until a)).

Definition recovers (a : TransferAttempt) (r : Record_) : bool :=
  bool_decide (rec_state r = DRAFT) && bool_decide (at_state a = COMPLETING).

Definition inventory_item (now : Z) (a : TransferAttempt) : M World json :=
  let* b := get_row BLOBS (at_blob_id a) in
  let* b := the b in
  let* r := get_row RECORDS (bl_record_id b) in
  let* r := the r in
  let eligible := repairable a r now in
  let action := if recovers a r then "recover_completion" else "schedule_cleanup" in
  ret (JObj [("attempt_id", JStr (at_id a)); ("space_id", JStr (bl_space_id b)); ("record_id", JStr (bl_record_id b));
             ("attachment_id", JStr (bl_id b)); ("state", JStr (transfer_state_value (at_state a)));
             ("mutation_count", JInt (Z.of_nat (List.length (at_mutation_tokens a))));
             ("repairable", JBool eligible); ("action", JStr (if eligible then action else "ineligible"))]).

(** [_repair_inventory] *)
Definition repair_inventory (ids : list string) : M World json :=
  let* rows := select_where ATTEMPTS (fun a => match ids with
                                               | [] => nonempty (at_mutation_tokens a)
                                               | _ => mem_str (at_id a) ids
                                               end) in
  let rows := take 101 (sort_items (map (fun a => (at_id a, a)) rows)).*2 in
  let* now := database_time in
  let* items := mapM (inventory_item now) (take 100 rows) in
  ret (JObj [("attempts", JList items); ("truncated", JBool (100 <? Z.of_nat (List.length rows)))]).

Definition selection_ok (ids : list string) : bool :=
  (Z.of_nat (List.length ids) <=? 100) && bool_decide (NoDup ids).

(** [inspect_mutations] *)
Definition inspect_mutations (ids : list string) : M World json :=
  raise_if (nonempty ids && negb (selection_ok ids)) 422 "invalid_attempt_selection" ;;
  begin_session (repair_inventory ids).

(** One attempt of [repair_mutations]. *)
Definition repair_attempt (now : Z) (attempt_id : string) : M World unit :=
  let* a := get_row ATTEMPTS attempt_id in
  let* a := the a in
  let* b := get_row BLOBS (at_blob_id a) in
  let* b := the b in
  let* r := get_row RECORDS (bl_record_id b) in
  let* r := the r in
  raise_if (negb (repairable a r now)) 409 "attempt_not_repairable" ;;
  let recover := recovers a r in
  set_row ATTEMPTS attempt_id
    (fun a => a <| at_mutation_tokens := [] |> <| at_operation := if recover then "upload" else "cleanup" |>
                <| at_state := if recover then COMPLETING else CLEANUP |> <| at_token := None |> <| at_lease_until := None |>
                <| at_next_attempt := if recover then now else Z.max now (Z.max (at_grant_expires_at a) (bl_grant_expires_at b)) |>
                <| at_last_error := None |> <| at_updated_at := now |>) ;;
  when (bool_decide (rec_state r = DRAFT) && negb recover) (set_row BLOBS (bl_id b) (fun b => b <| bl_state := Reserved |>)) ;;
  when (is_terminal (rec_state r) && negb (bl_pending_deletion b)) (
    set_row BLOBS (bl_id b) (fun b => b <| bl_pending_deletion := true |> <| bl_state := CLEANUP |>) ;;
    set_row SPACES (bl_space_id b) (fun s => s <| reclaiming ::= Z.add (bl_size b) |>)).

(** [repair_mutations] *)
Definition repair_body (ids : list string) : M World json :=
  let* rows := select_where ATTEMPTS (fun a => mem_str (at_id a) ids) in
  raise_if (negb (Nat.eqb (List.length rows) (List.length ids))) 404 "attempt_not_found" ;;
  let* now := database_time in
  for_each (map at_id rows) (repair_attempt now) ;;
  repair_inventory ids.
Definition repair_mutations (ids : list string) (execute writers_stopped provider_quiesced : bool) : M World json :=
  raise_if (negb (nonempty ids) || negb (selection_ok ids)) 422 "invalid_attempt_selection" ;;
  if negb execute then inspect_mutations ids
  else
    raise_if (negb writers_stopped || negb provider_quiesced) 409 "storage_quiescence_required" ;;
    begin_session (repair_body ids).

(** ** managed_transfers.py: descriptors without origin URLs *)
Definition MANAGED_PROTOCOL : string := "hf2l-managed-v1".

Definition managed_operation (space_id record_id attachment_id method : string) (number : option Z) : dict :=
  [("protocol", JStr MANAGED_PROTOCOL);
   ("operation", JObj ([("space_id", JStr space_id); ("record_id", JStr record_id);
                        ("attachment_id", JStr attachment_id); ("method", JStr method)]
                       ++ match number with Some n => [("part_number", JInt n)] | None => [] end));
   ("headers", JObj [])].

Definition managed_protocol (space_id : string) (response : dict) : M World dict :=
  let* managed := is_managed_space space_id in
  ret (if managed then merge_dicts response [("protocol", JStr MANAGED_PROTOCOL)] else response).

Definition managed_initiate (space_id record_id attachment_id : string) (principal : Principal) : M World dict :=
  let* response := initiate space_id record_id attachment_id principal in managed_protocol space_id response.
Definition managed_complete (space_id record_id attachment_id : string) (principal : Principal) : M World dict :=
  let* response := complete_upload space_id record_id attachment_id principal in managed_protocol space_id response.

Definition managed_grants (space_id record_id attachment_id : string) (principal : Principal) (numbers : list Z) : M World json :=
  let* managed := is_managed_space space_id in
  if negb managed then grants space_id record_id attachment_id principal numbers
  else
    raise_if (negb (numbers_ok numbers)) 422 "invalid_part_numbers" ;;
    let* sizes := transaction space_id principal false false (fun _ member =>
      let* '(r, b) := attachment_of space_id record_id attachment_id member principal true in
      let* a := active b in
      raise_if (negb (bool_decide (rec_state r = DRAFT))) 409 "upload_not_ready" ;;
      let* now := database_time in
      raise_if ((rec_expires_at r <=? now) || match uploading a with Some _ => false | None => true end) 409 "upload_not_ready" ;;
      match part_sizes numbers (bl_size b) (bl_part_size b) with
      | Ok sizes => ret sizes
      | Err _ => raise 422 "invalid_part_numbers"
      end) in
    ret (JObj [("grants", JList (map (fun '(n, size) =>
           JObj (managed_operation space_id record_id attachment_id "PUT" (Some n)
                 ++ [("number", JInt n); ("size", JInt size)])) (zip numbers sizes)))]).

Definition managed_download (space_id record_id attachment_id : string) (principal : Principal) : M World json :=
  let* managed := is_managed_space space_id in
  if negb managed then download space_id record_id attachment_id principal
  else
    let* b := transaction space_id principal false false (fun _ member =>
      downloadable space_id record_id attachment_id principal member) in
    ret (JObj (managed_operation space_id record_id attachment_id "GET" None
               ++ [("size", opt_int (bl_verified_size b)); ("sha256", opt_str (bl_verified_sha256 b))])).

(** ** worker.py *)

Definition op_age_le (a b : (string * string * (string * string)) * Operation) : Prop := op_created_at a.2 <= op_created_at b.2.
#[local] Instance op_age_le_dec : RelDecision op_age_le.
Proof. intros a b. unfold op_age_le. apply _. Defined.
Definition attempt_age_le (a b : TransferAttempt) : Prop := at_updated_at a <= at_updated_at b.
#[local] Instance attempt_age_le_dec : RelDecision attempt_age_le.
Proof. intros a b. unfold attempt_age_le. apply _. Defined.
Definition event_id_le (a b : Event) : Prop := ev_id a <= ev_id b.
#[local] Instance event_id_le_dec : RelDecision event_id_le.
Proof. intros a b. unfold event_id_le. apply _. Defined.

(** The first transaction of [prune]: old operations and cleaned attempts are
    deleted, old events are returned. *)
Definition prune_history (batch : Z) : M World (list Event) :=
  let ws := worker_settings settings in
  let first {A} (l : list A) := take (Z.to_nat batch) l in
  let* now := database_time in
  let* old := gets (fun w => List.filter (fun kv => op_created_at kv.2 <? now - seconds (operation_retention_seconds ws))
                               (map_to_list (operations (w_db w)))) in
  for_each (map fst (first (merge_sort op_age_le old))) (delete_row OPERATIONS) ;;
  let* cleaned := select_where ATTEMPTS (fun a => bool_decide (at_state a = CLEANED)
                    && (at_updated_at a <? now - seconds (operation_retention_seconds ws))) in
  for_each (map at_id (List.filter (fun a => negb (nonempty (at_mutation_tokens a)))
                         (first (merge_sort attempt_age_le cleaned)))) (delete_row ATTEMPTS) ;;
  let* evs := select_where EVENTS (fun e => ev_created_at e <? now - seconds (event_retention_seconds ws)) in
  ret (first (merge_sort event_id_le evs)).

(** One space of [prune]: its old events go and the cursor floor rises. *)
Definition prune_space (evs : list Event) (space_id : string) : M World unit :=
  let ids := map ev_id (List.filter (fun e => String.eqb (ev_space_id e) space_id) evs) in
  for_each ids (delete_row EVENTS) ;;
  set_row SPACES space_id (fun s => s <| event_floor := Z.max (event_floor s) (fold_left Z.max ids 0) |>).

Definition prune (batch : Z) : M World unit :=
  let* evs := begin_session (prune_history batch) in
  for_each (sorted_set (map ev_space_id evs)) (fun space_id => begin_session (prune_space evs space_id)).

(** [guarded] *)
Definition guarded (attempt_id : string) (cleanup : bool) : M World string :=
  catch (process attempt_id cleanup) (fun _ => ret "retry").

(** [tick]: the outcomes of one round, counted; the two pools run their items
    in any order, other threads included through [others]. *)
Definition count_outcome (counts : list (string * Z)) (outcome : string) : list (string * Z) :=
  map (fun kv => if String.eqb kv.1 outcome then (kv.1, kv.2 + 1) else kv) counts.
Definition tick (batch : Z) : M World (list (string * Z)) :=
  let* expired := expire batch in
  let* '(verification, cleanup) := work batch in
  let* verified := mapM (fun id => guarded id false) verification in
  let* reclaimed := mapM (fun id => guarded id true) cleanup in
  prune batch ;;
  ret (fold_left count_outcome (verified ++ reclaimed)
         [("verified", 0); ("failed", 0); ("recovered", 0); ("cleaned", 0); ("retry", 0); ("skipped", 0);
          ("invalid_parts", 0); ("expired", expired)]).
End Uploads.
