(* ===== verification/System.v ===== *)
(** * The exchange server as a transition system

    Every way the server changes its database is one transaction: a client
    command, or one of the transactions a transfer is made of.  [request] lists
    them, [serve] runs one, [step] relates the database before and after any of
    them, with any arguments, at any time and whatever its outcome, so that a
    run of the server, with all its threads, is a sequence of steps. *)

From stdpp Require Import base gmap strings list fin_maps relations.
From Stdlib Require Import ZArith Lia.
From S2P Require Import Prelude Json Domain Schemas Profiles Models Storage Service Spaces Records Managed Coordination Transfers Uploads.

(** The arguments every command of a principal has. *)
Inductive request :=
  | CreateSpace (p : Principal) (body : dict) (key : json)
  | GetSpace (p : Principal) (space : string)
  | UpdateSpaceLimits (p : Principal) (space : string) (body : json)
  | GetMembership (p : Principal) (space : string)
  | ListMembers (p : Principal) (space : string)
  | PutMember (p : Principal) (space member : string) (body : dict)
  | RegisterType (p : Principal) (space kind : string) (body : dict) (key : json)
  | GetType (p : Principal) (space kind : string) (revision : Z)
  | ListTypes (p : Principal) (space : string)
  | PutPolicy (p : Principal) (space kind : string) (body : dict)
  | CreateRecord (p : Principal) (space : string) (body : dict) (key : json)
  | GetRecord (p : Principal) (space record : string)
  | ListRecords (p : Principal) (space : string) (kind after : option string) (limit : Z) (state : option string)
  | PatchRecord (p : Principal) (space record : string) (body : dict) (version : json)
  | PublishRecord (p : Principal) (space record : string) (key : json)
  | WithdrawRecord (p : Principal) (space record : string)
  | PurgeRecord (p : Principal) (space record : string)
  | EnableManaged (p : Principal) (space : string) (body : dict) (key : json)
  | GetManaged (p : Principal) (space : string)
  | RetireManaged (p : Principal) (space : string) (body : dict) (key : json)
  | CreateGrant (p : Principal) (space : string) (body : dict) (key : json)
  | RevokeGrants (p : Principal) (space : string) (body : dict) (key : json)
  | GetGrant (p : Principal) (space grant : string)
  | VerifyGrant (p : Principal) (space : string)
  | GetReference (p : Principal) (space name : string)
  | PutReference (p : Principal) (space name : string) (body : dict) (token : string) (key : json)
  | Acquire (p : Principal) (space : string) (body : dict) (key : json)
  | GetAcquisition (p : Principal) (space attempt : string)
  | Renew (p : Principal) (space attempt : string) (fence : json)
  | Abandon (p : Principal) (space attempt : string) (fence : json)
  | Complete (p : Principal) (space attempt : string) (body : dict) (key : json)
  | Events (p : Principal) (space : string) (after limit : Z)
  (* transactions of a transfer *)
  | Initiate (p : Principal) (space record attachment : string)
  | CheckGrants (p : Principal) (space record attachment : string) (numbers : list Z)
  | RecordGrants (p : Principal) (space record attachment attempt : string) (expiry : Z)
  | FencePut (p : Principal) (space record attachment : string) (number : Z)
  | ConfirmPut (p : Principal) (space record attachment : string) (receipt : GatewayPutHandle) (expiry : Z)
  | FinishPut (receipt : GatewayPutHandle)
  | CompleteUpload (p : Principal) (space record attachment : string)
  | CheckDownload (p : Principal) (space record attachment : string)
  | RecordDownload (p : Principal) (space record attachment : string) (expiry : Z)
  | Lease (attempt : string) (cleanup : option bool)
  | Heartbeat (attempt : TransferAttempt)
  | ReleaseLease (attempt : TransferAttempt)
  | Commit (attempt : TransferAttempt) (state : TransferState) (result : CommitResult)
  | Retry (attempt : TransferAttempt) (code : string)
  | Settle (attempt : TransferAttempt)
  | AbandonAttempt (attempt : TransferAttempt)
  | Expire (record : string)
  | Repair (ids : list string)
  | PruneHistory (batch : Z)
  | PruneSpace (evs : list Event) (space : string).

Section System.
Context {P : Platform}.

Definition discard {A} (m : M World A) : M World unit := m ;; ret tt.

(** The commits [_execute] makes for an attempt in a given state. *)
Definition legal_commit (attempt : TransferAttempt) (state : TransferState) (result : CommitResult) : bool :=
  match state, result with
  | UPLOADING, Started _ => bool_decide (at_state attempt = INITIATING)
  | UPLOADING, NoResult => bool_decide (at_state attempt = COMPLETING)
  | VERIFYING, Completed _ => bool_decide (at_state attempt = COMPLETING)
  | VERIFIED, Verified_as _ => bool_decide (at_state attempt = VERIFYING)
  | CLEANED, NoResult => bool_decide (at_state attempt = CLEANUP)
  | XFER_FAILED, Reason _ => bool_decide (at_state attempt ∈ [INITIATING; COMPLETING; VERIFYING])
  | _, _ => false
  end.

(** A snapshot of an attempt, however old: the attempt of that name is still
    the one of its attachment and storage key. *)
Definition genuine (attempt : TransferAttempt) (d : DB) : bool :=
  match attempts d !! at_id attempt with
  | Some c => String.eqb (at_blob_id c) (at_blob_id attempt) && String.eqb (at_object_key c) (at_object_key attempt)
  | None => true
  end.
Definition on_snapshot {A} (attempt : TransferAttempt) (body : M World A) : M World unit :=
  let* ok := gets (fun w => genuine attempt (w_db w)) in
  if ok then discard body else ret tt.

(** Events as a worker read them: an event of that number is of that space. *)
Definition genuine_events (evs : list Event) (d : DB) : bool :=
  forallb (fun e => match events d !! ev_id e with
                    | Some c => String.eqb (ev_space_id c) (ev_space_id e)
                    | None => true
                    end) evs.
Definition on_events (evs : list Event) (body : M World unit) : M World unit :=
  let* ok := gets (fun w => genuine_events evs (w_db w)) in
  if ok then body else ret tt.

Definition transfer_tx {A} (p : Principal) (space : string) (write : bool) (body : Member -> M World A) : M World unit :=
  discard (transaction space p write false (fun _ member => body member)).

Definition serve (q : request) : M World unit :=
  match q with
  | CreateSpace p body key => discard (create_space p body key)
  | GetSpace p s => discard (get_space p s)
  | UpdateSpaceLimits p s body => discard (update_space_limits p s body)
  | GetMembership p s => discard (get_membership p s)
  | ListMembers p s => discard (list_members p s)
  | PutMember p s m body => discard (put_member p s m body)
  | RegisterType p s k body key => discard (register_type p s k body key)
  | GetType p s k n => discard (get_type p s k n)
  | ListTypes p s => discard (list_types p s)
  | PutPolicy p s k body => discard (put_policy p s k body)
  | CreateRecord p s body key => discard (create_record p s body key)
  | GetRecord p s r => discard (get_record p s r)
  | ListRecords p s kind after limit state => discard (list_records p s kind after limit state)
  | PatchRecord p s r body v => discard (patch_record p s r body v)
  | PublishRecord p s r key => discard (publish_record p s r key)
  | WithdrawRecord p s r => discard (withdraw_record p s r)
  | PurgeRecord p s r => discard (purge_record p s r)
  | EnableManaged p s body key => discard (enable_managed_space p s body key)
  | GetManaged p s => discard (get_managed_space p s)
  | RetireManaged p s body key => discard (retire_managed_space p s body key)
  | CreateGrant p s body key => discard (create_workload_grant p s body key)
  | RevokeGrants p s body key => discard (revoke_workload_grants p s body key)
  | GetGrant p s g => discard (get_workload_grant p s g)
  | VerifyGrant p s => discard (verify_workload_grant p s)
  | GetReference p s n => discard (get_reference p s n)
  | PutReference p s n body token key => discard (put_reference p s n body token key)
  | Acquire p s body key => discard (Coordination.acquire p s body key)
  | GetAcquisition p s a => discard (get_acquisition p s a)
  | Renew p s a fence => discard (renew p s a fence)
  | Abandon p s a fence => discard (Coordination.abandon p s a fence)
  | Complete p s a body key => discard (complete p s a body key)
  | Events p s after limit => discard (events_command p s after limit)
  | Initiate p s r b => transfer_tx p s true (initiate_body s r b p)
  | CheckGrants p s r b ns => transfer_tx p s false (grants_check s r b p ns)
  | RecordGrants p s r b a e => transfer_tx p s true (grants_record s r b p a e)
  | FencePut p s r b n => transfer_tx p s true (gateway_fence p s r b n)
  | ConfirmPut p s r b h e => transfer_tx p s true (gateway_confirm p s r b h e)
  | FinishPut h => atomically (discard (finish_gateway_body h))
  | CompleteUpload p s r b => transfer_tx p s true (complete_body s r b p)
  | CheckDownload p s r b => transfer_tx p s false (downloadable s r b p)
  | RecordDownload p s r b e => transfer_tx p s true (record_download s r b p e)
  | Lease a c => atomically (discard (acquire_body a c))
  | Heartbeat a => atomically (heartbeat_body a)
  | ReleaseLease a => atomically (release_lease_body a)
  | Commit a st res => atomically (if legal_commit a st res then on_snapshot a (commit_body a st res) else ret tt)
  | Retry a code => atomically (on_snapshot a (retry_body a code))
  | Settle a => atomically (on_snapshot a (settle_mutation_body a))
  | AbandonAttempt a => atomically (on_snapshot a (abandon_body a))
  | Expire r => atomically (discard (expire_body r))
  | Repair ids => atomically (discard (repair_body ids))
  | PruneHistory n => atomically (discard (prune_history n))
  | PruneSpace evs s => atomically (on_events evs (prune_space evs s))
  end.

(** One transaction, of any thread. *)
Definition step (d d' : DB) : Prop :=
  exists q w r w', w_db w = d /\ serve q w = (r, w') /\ w_db w' = d'.

Definition reachable (d : DB) : Prop := rtc step empty_db d.

(** A property every transaction preserves holds of every reachable database. *)
Lemma reachable_invariant (I : DB -> Prop) :
  I empty_db -> (forall d d', I d -> step d d' -> I d') -> forall d, reachable d -> I d.
Proof.
  intros H0 Hstep d Hd. unfold reachable in Hd. revert H0.
  induction Hd as [|d1 d2 d3 H12 _ IH]; [done|]. intros H. apply IH. exact (Hstep _ _ H H12).
Qed.
End System.
