(* ===== verification/Logic.v ===== *)
(** * Reasoning about transactions

    [keeps R m]: a successful run of [m] relates the database before to the one
    after by the preorder [R]; [always R m]: so does every run, failed or not.
    Invariants and monotonicity are both instances.  The tactic [keeping]
    decomposes a command along its statements; what is left are its updates of
    the tables [R] depends on. *)

From stdpp Require Import base gmap strings list fin_maps.
From Stdlib Require Import ZArith Lia.
From S2P Require Import Prelude Json Domain Schemas Profiles Models Storage Service Spaces Records Managed Coordination Transfers Uploads System.

(** The preorder of an invariant. *)
Definition preserving (I : DB -> Prop) (d d' : DB) : Prop := I d -> I d'.
#[export] Instance preserving_preorder I : PreOrder (preserving I).
Proof. split; unfold preserving; [intros d H; exact H | intros d1 d2 d3 H1 H2 H; exact (H2 (H1 H))]. Qed.

Section Keeps.
Context {P : Platform}.

Definition keeps (R : DB -> DB -> Prop) {A} (m : M World A) : Prop :=
  forall w a w', m w = (Ok a, w') -> R (w_db w) (w_db w').
Definition always (R : DB -> DB -> Prop) {A} (m : M World A) : Prop :=
  forall w r w', m w = (r, w') -> R (w_db w) (w_db w').
(** [m] leaves the database as it is. *)
Definition pure {A} (m : M World A) : Prop := forall w r w', m w = (r, w') -> w_db w' = w_db w.
End Keeps.

(** [R] does not depend on the table [T], or on the events. *)
Class Ignores {K V} `{Countable K} (R : DB -> DB -> Prop) (T : Tab DB K V) :=
  ignores : forall f d, R d (t_upd T f d).
Class IgnoresEvents (R : DB -> DB -> Prop) :=
  ignores_events : forall f n d, R d (d <| events ::= f |> <| last_event_id := n |>).

Section Rules.
Context {P : Platform} (R : DB -> DB -> Prop) {HR : PreOrder R}.

Lemma always_keeps {A} (m : M World A) : always R m -> keeps R m.
Proof. intros H w a w' Hm. exact (H w _ w' Hm). Qed.

Lemma pure_always {A} (m : M World A) : pure m -> always R m.
Proof. intros H w r w' Hm. rewrite (H w r w' Hm). reflexivity. Qed.

Lemma pure_keeps {A} (m : M World A) : pure m -> keeps R m.
Proof. intros H. by apply always_keeps, pure_always. Qed.

Lemma keeps_bind {A B} (m : M World A) (f : A -> M World B) :
  keeps R m -> (forall a, keeps R (f a)) -> keeps R (bind m f).
Proof.
  intros Hm Hf w b w' H. apply bind_ok in H as (a & w1 & H1 & H2).
  transitivity (w_db w1); [exact (Hm _ _ _ H1) | exact (Hf a _ _ _ H2)].
Qed.

Lemma always_bind {A B} (m : M World A) (f : A -> M World B) :
  always R m -> (forall a, always R (f a)) -> always R (bind m f).
Proof.
  intros Hm Hf w r w' H. unfold bind in H. destruct (m w) as [[a|e] w1] eqn:E.
  - transitivity (w_db w1); [exact (Hm _ _ _ E) | exact (Hf a _ _ _ H)].
  - injection H as <- <-. exact (Hm _ _ _ E).
Qed.

Lemma keeps_when c (m : M World unit) : keeps R m -> keeps R (when c m).
Proof. destruct c; [done|]. intros _. apply pure_keeps. by intros w r w' [= <- <-]. Qed.

Lemma always_when c (m : M World unit) : always R m -> always R (when c m).
Proof. destruct c; [done|]. intros _. apply pure_always. by intros w r w' [= <- <-]. Qed.

Lemma keeps_atomically {A} (m : M World A) : keeps R m -> keeps R (atomically m).
Proof.
  intros H w a w' Hm. unfold atomically in Hm. destruct (m w) as [[x|e] w1] eqn:E; [|done].
  injection Hm as -> ->. exact (H _ _ _ E).
Qed.

(** A transaction commits or rolls back. *)
Lemma always_atomically {A} (m : M World A) : keeps R m -> always R (atomically m).
Proof.
  intros H w r w' Hm. unfold atomically in Hm. destruct (m w) as [[x|e] w1] eqn:E.
  - injection Hm as <- <-. exact (H _ _ _ E).
  - injection Hm as <- <-. cbn. reflexivity.
Qed.

Lemma keeps_for_each {A} (l : list A) (f : A -> M World unit) :
  (forall a, a ∈ l -> keeps R (f a)) -> keeps R (for_each l f).
Proof.
  induction l as [|a l IH]; intros Hf; cbn.
  - apply pure_keeps. by intros w r w' [= <- <-].
  - apply keeps_bind; [apply Hf; left|]. intros _. apply IH. intros a' Ha. apply Hf. by right.
Qed.

Lemma always_for_each {A} (l : list A) (f : A -> M World unit) :
  (forall a, always R (f a)) -> always R (for_each l f).
Proof.
  intros Hf. induction l as [|a l IH]; cbn.
  - apply pure_always. by intros w r w' [= <- <-].
  - apply always_bind; [apply Hf|]. by intros _.
Qed.

Lemma keeps_mapM {A B} (f : A -> M World B) (l : list A) : (forall a, keeps R (f a)) -> keeps R (mapM f l).
Proof.
  intros Hf. induction l as [|a l IH]; cbn.
  - apply pure_keeps. by intros w r w' [= <- <-].
  - apply keeps_bind; [done|]. intros b. apply keeps_bind; [done|]. intros bs.
    apply pure_keeps. by intros w r w' [= <- <-].
Qed.

Lemma always_mapM {A B} (f : A -> M World B) (l : list A) : (forall a, always R (f a)) -> always R (mapM f l).
Proof.
  intros Hf. induction l as [|a l IH]; cbn.
  - apply pure_always. by intros w r w' [= <- <-].
  - apply always_bind; [done|]. intros b. apply always_bind; [done|]. intros bs.
    apply pure_always. by intros w r w' [= <- <-].
Qed.

Lemma always_foldM {A B} (f : B -> A -> M World B) (l : list A) b : (forall b a, always R (f b a)) -> always R (foldM f b l).
Proof.
  intros Hf. revert b. induction l as [|a l IH]; intros b; cbn.
  - apply pure_always. by intros w r w' [= <- <-].
  - apply always_bind; [done|]. intros b'. apply IH.
Qed.

Lemma always_catch {A} (m : M World A) h : always R m -> (forall e, always R (h e)) -> always R (catch m h).
Proof.
  intros Hm Hh w r w' H. unfold catch in H. destruct (m w) as [[a|e] w1] eqn:E.
  - injection H as <- <-. exact (Hm _ _ _ E).
  - transitivity (w_db w1); [exact (Hm _ _ _ E) | exact (Hh e _ _ _ H)].
Qed.

(** Updates of a table. *)
Lemma keeps_update {K V} `{Countable K} (T : Tab DB K V) f :
  (forall d, R d (t_upd T f d)) -> keeps R (update_table T f).
Proof. intros Hf w a w' E. apply modify_ok in E as ->. cbn. apply Hf. Qed.

Lemma keeps_set_row {K V} `{Countable K} (T : Tab DB K V) k f :
  (forall d, R d (t_upd T (alter f k) d)) -> keeps R (set_row T k f).
Proof. apply keeps_update. Qed.

Lemma keeps_bulk_update {K V} `{Countable K} (T : Tab DB K V) (p : V -> bool) (f : V -> V) :
  (forall d, R d (t_upd T (fmap (M := gmap K) (fun v => if p v then f v else v)) d)) -> keeps R (bulk_update T p f).
Proof. apply keeps_update. Qed.

Lemma keeps_bulk_delete {K V} `{Countable K} (T : Tab DB K V) (p : V -> bool) :
  (forall d, R d (t_upd T (filter (B := gmap K V) (fun kv : K * V => negb (p kv.2) = true)) d)) -> keeps R (bulk_delete T p).
Proof. apply keeps_update. Qed.

Lemma keeps_delete_row {K V} `{Countable K} (T : Tab DB K V) k :
  (forall d, R d (t_upd T (delete k) d)) -> keeps R (delete_row T k).
Proof. apply keeps_update. Qed.

Lemma add_unique_ok {K V} `{Countable K} (T : Tab DB K V) clash k row u w w' :
  add_unique T clash k row w = (Ok u, w') ->
  t_get T (w_db w) !! k = None /\ w' = w <| w_db ::= t_upd T (insert k row) |>
  /\ existsb clash (map_to_list (t_get T (w_db w))).*2 = false.
Proof.
  unfold add_unique, get_row, exists_where, update_table. intros E. inv_ok. subst.
  by destruct (t_get T (w_db w) !! k).
Qed.

Lemma keeps_add_unique {K V} `{Countable K} (T : Tab DB K V) clash k row :
  (forall d, t_get T d !! k = None -> R d (t_upd T (insert k row) d)) -> keeps R (add_unique T clash k row).
Proof. intros Hf w a w' E. apply add_unique_ok in E as (Hk & -> & _). by apply Hf. Qed.

Lemma keeps_add_row {K V} `{Countable K} (T : Tab DB K V) k row :
  (forall d, t_get T d !! k = None -> R d (t_upd T (insert k row) d)) -> keeps R (add_row T k row).
Proof. apply keeps_add_unique. Qed.

Lemma keeps_emit `{!IgnoresEvents R} space_id kind principal_id record_id data :
  keeps R (emit space_id kind principal_id record_id data).
Proof.
  unfold emit, database_time. apply keeps_bind.
  - apply pure_keeps. by intros w r w' [= <- <-].
  - intros now w a w' E. apply modify_ok in E as ->. cbn. apply ignores_events.
Qed.
End Rules.

(** ** Pure statements *)
Section Pure.
Context {P : Platform}.

Lemma pure_lift {A} (r : result A) : pure (lift r).
Proof. by intros w r' w' [= <- <-]. Qed.
Lemma pure_ret {A} (a : A) : pure (ret a).
Proof. by intros w r' w' [= <- <-]. Qed.
Lemma pure_raise {A} st code : pure (@raise World A st code).
Proof. apply pure_lift. Qed.
Lemma pure_throw {A} e : pure (@throw World A e).
Proof. apply pure_lift. Qed.
Lemma pure_raise_if c st code : pure (raise_if c st code).
Proof. destruct c; [apply pure_raise | apply pure_ret]. Qed.
Lemma pure_throw_if c e : pure (throw_if c e).
Proof. destruct c; [apply pure_throw | apply pure_ret]. Qed.
Lemma pure_gets {A} (f : World -> A) : pure (gets f).
Proof. by intros w r w' [= <- <-]. Qed.
Lemma pure_get_row {K V} `{Countable K} (T : Tab DB K V) k : pure (get_row T k).
Proof. apply pure_gets. Qed.
Lemma pure_select_where {K V} `{Countable K} (T : Tab DB K V) p : pure (select_where T p).
Proof. apply pure_gets. Qed.
Lemma pure_exists_where {K V} `{Countable K} (T : Tab DB K V) p : pure (exists_where T p).
Proof. apply pure_gets. Qed.
Lemma pure_database_time : pure database_time.
Proof. by intros w r w' [= <- <-]. Qed.
Lemma pure_identifier : pure identifier.
Proof. by intros w r w' [= <- <-]. Qed.
Lemma pure_provider {A} (op : nat -> result A) : pure (provider op).
Proof. by intros w r w' [= <- <-]. Qed.
Lemma pure_bind {A B} (m : M World A) (f : A -> M World B) : pure m -> (forall a, pure (f a)) -> pure (bind m f).
Proof.
  intros Hm Hf w r w' H. unfold bind in H. destruct (m w) as [[a|e] w1] eqn:E.
  - rewrite (Hf a _ _ _ H). exact (Hm _ _ _ E).
  - injection H as <- <-. exact (Hm _ _ _ E).
Qed.
Lemma pure_found {A} (o : option A) st code : pure (found o st code).
Proof. destruct o; [apply pure_ret | apply pure_raise]. Qed.
Lemma pure_operation_key key : pure (operation_key key).
Proof.
  destruct key; cbn; try apply pure_raise. apply pure_bind; [apply pure_raise_if|intros; apply pure_ret].
Qed.
Lemma pure_mapM {A B} (f : A -> M World B) l : (forall a, pure (f a)) -> pure (mapM f l).
Proof.
  intros Hf. induction l as [|a l IH]; cbn; [apply pure_ret|].
  apply pure_bind; [done|]. intros b. apply pure_bind; [done|]. intros bs. apply pure_ret.
Qed.
End Pure.

Create HintDb pure discriminated.
#[export] Hint Resolve pure_lift pure_ret pure_raise pure_throw pure_raise_if pure_throw_if pure_gets pure_get_row
  pure_select_where pure_exists_where pure_database_time pure_identifier pure_provider pure_found
  pure_operation_key : pure.

(** Case analysis on the scrutinee of the statement at hand. *)
Ltac split_cases :=
  match goal with
  | |- context [match ?x with _ => _ end] => destruct x
  end.

Ltac purely :=
  repeat first
    [ solve [eauto 1 with pure]
    | apply pure_bind; [|intros ?]
    | apply pure_mapM; intros ?
    | lazymatch goal with |- pure (match ?x with _ => _ end) => destruct x end ].

Section ServicePure.
Context {P : Platform}.

Lemma pure_require member roles : pure (require member roles).
Proof. apply pure_raise_if. Qed.
Lemma pure_require_provisioner p : pure (require_provisioner p).
Proof. apply pure_raise_if. Qed.
Lemma pure_matching_grant s m p i g : pure (matching_grant s m p i g).
Proof. unfold matching_grant. purely. Qed.
Lemma pure_effective_member s m p g : pure (effective_member s m p g).
Proof. unfold effective_member. purely. all: apply pure_matching_grant. Qed.
Lemma pure_record s i m p b : pure (record s i m p b).
Proof. unfold record, require. purely. Qed.
Lemma pure_attachment s r a : pure (attachment s r a).
Proof. unfold attachment. purely. Qed.
Lemma pure_record_blobs r : pure (record_blobs r).
Proof. apply pure_select_where. Qed.
Lemma pure_record_dict r : pure (record_dict r).
Proof. unfold record_dict, record_blobs. purely. Qed.
Lemma pure_profile_of s : pure (profile_of s).
Proof. apply pure_lift. Qed.
End ServicePure.
#[export] Hint Resolve pure_require pure_require_provisioner pure_matching_grant pure_effective_member pure_record
  pure_attachment pure_record_blobs pure_record_dict pure_profile_of : pure.

(** ** Inversion of database statements *)
Section Runs.
Context {P : Platform}.

Lemma get_row_ok {K V} `{Countable K} (T : Tab DB K V) k o w w' :
  get_row T k w = (Ok o, w') <-> o = t_get T (w_db w) !! k /\ w' = w.
Proof. unfold get_row. by rewrite gets_ok. Qed.
Lemma select_where_ok {K V} `{Countable K} (T : Tab DB K V) p l w w' :
  select_where T p w = (Ok l, w') <-> l = rows p (t_get T (w_db w)) /\ w' = w.
Proof. unfold select_where. by rewrite gets_ok. Qed.
Lemma exists_where_ok {K V} `{Countable K} (T : Tab DB K V) p b w w' :
  exists_where T p w = (Ok b, w') <-> b = existsb p (map_to_list (t_get T (w_db w))).*2 /\ w' = w.
Proof. unfold exists_where. by rewrite gets_ok. Qed.
Lemma database_time_ok t w w' :
  database_time w = (Ok t, w') <-> t = clock (w_clock w) /\ w' = w <| w_clock ::= S |>.
Proof. unfold database_time. intuition congruence. Qed.
Lemma identifier_ok i w w' :
  identifier w = (Ok i, w') <-> i = uuid4_hex (w_uuid w) /\ w' = w <| w_uuid ::= S |>.
Proof. unfold identifier. intuition congruence. Qed.
Lemma found_ok {A} (o : option A) st code a w w' : found o st code w = (Ok a, w') <-> o = Some a /\ w' = w.
Proof. unfold found. destruct o; cbn; [rewrite ret_ok; intuition congruence|]. split; [done|intuition congruence]. Qed.
Lemma update_table_ok {K V} `{Countable K} (T : Tab DB K V) f u w w' :
  update_table T f w = (Ok u, w') <-> w' = w <| w_db ::= t_upd T f |>.
Proof. unfold update_table. by rewrite modify_ok. Qed.
Lemma require_ok m roles u w w' : require m roles w = (Ok u, w') <-> has_any (mb_roles m) roles = true /\ w' = w.
Proof. unfold require. rewrite raise_if_ok, negb_false_iff. reflexivity. Qed.
(** The event an [emit] appends. *)
Definition appended (e : Event) (w : World) : World :=
  w <| w_clock ::= S |> <| w_db ::= fun d => d <| events ::= insert (ev_id e) e |> <| last_event_id := ev_id e |> |>.
Lemma emit_ok s k p r data u w w' : emit s k p r data w = (Ok u, w') ->
  exists e, e = mkEvent (last_event_id (w_db w) + 1) s r k p data (clock (w_clock w)) /\ w' = appended e w.
Proof. unfold emit, database_time. intros H. inv_ok. injection H0 as <- <-. eexists. by split. Qed.
Lemma record_dict_ok rid j w w' : record_dict rid w = (Ok j, w') ->
  w' = w /\ exists r, records (w_db w) !! rid = Some r.
Proof.
  unfold record_dict, record_blobs, get_row, select_where. intros H. inv_ok. subst. cbn in *.
  destruct (records (w_db w) !! rid); inv_ok; subst; eauto.
Qed.
Lemma atomically_ok {A} (body : M World A) a w w' : atomically body w = (Ok a, w') <-> body w = (Ok a, w').
Proof. unfold atomically. destruct (body w) as [[x|e] w1]; split; congruence. Qed.
Lemma profile_of_ok s p w w' : profile_of s w = (Ok p, w') <-> get_profile (JStr (sp_profile s)) = Ok p /\ w' = w.
Proof. unfold profile_of. by rewrite lift_ok. Qed.
Lemma record_ok space_id id member p write r w w' :
  record space_id id member p write w = (Ok r, w') ->
  w' = w /\ exists rid, id = JStr rid /\ records (w_db w) !! rid = Some r /\ rec_space_id r = space_id /\
    if write then rec_creator r = pr_id p else visible_clause member p r = true.
Proof.
  unfold record. intros H. destruct id; try by inv_ok.
  apply bind_ok in H as (o & w1 & Ho & H). apply get_row_ok in Ho as [-> ->]. cbn in H.
  destruct (records (w_db w) !! s) as [x|] eqn:Hx; [|by inv_ok].
  destruct (negb (String.eqb (rec_space_id x) space_id)) eqn:E; [by inv_ok|].
  apply negb_false_iff, String.eqb_eq in E. destruct write; unfold require in H; inv_ok; subst.
  all: match goal with H : negb _ = false |- _ => apply negb_false_iff in H end.
  - split; [done|]. eexists. split_and!; try done. by apply String.eqb_eq.
  - split; [done|]. eexists. by split_and!.
Qed.

Lemma attachment_row_ok space_id record_id attachment_id b w w' :
  attachment space_id record_id attachment_id w = (Ok b, w') ->
  w' = w /\ blobs (w_db w) !! attachment_id = Some b /\ bl_space_id b = space_id /\ bl_record_id b = record_id.
Proof.
  unfold attachment. intros H. apply bind_ok in H as (o & w1 & Ho & H). apply get_row_ok in Ho as [-> ->]. cbn in H.
  destruct (blobs (w_db w) !! attachment_id) as [x|] eqn:Hx; [|by inv_ok]. inv_ok. subst.
  match goal with H : _ || _ = false |- _ => apply orb_false_iff in H as [E1 E2] end.
  apply negb_false_iff, String.eqb_eq in E1, E2. done.
Qed.
End Runs.

Ltac run_hook := fail.
Ltac run_step :=
  first
    [ inv_ok_step
    | run_hook
    | match goal with
      | H : get_row _ _ _ = (Ok _, _) |- _ => apply get_row_ok in H as [? ?]
      | H : select_where _ _ _ = (Ok _, _) |- _ => apply select_where_ok in H as [? ?]
      | H : exists_where _ _ _ = (Ok _, _) |- _ => apply exists_where_ok in H as [? ?]
      | H : database_time _ = (Ok _, _) |- _ => apply database_time_ok in H as [? ?]
      | H : identifier _ = (Ok _, _) |- _ => apply identifier_ok in H as [? ?]
      | H : found _ _ _ _ = (Ok _, _) |- _ => apply found_ok in H as [? ?]
      | H : update_table _ _ _ = (Ok _, _) |- _ => apply update_table_ok in H
      | H : set_row _ _ _ _ = (Ok _, _) |- _ => apply update_table_ok in H
      | H : bulk_update _ _ _ _ = (Ok _, _) |- _ => apply update_table_ok in H
      | H : bulk_delete _ _ _ = (Ok _, _) |- _ => apply update_table_ok in H
      | H : delete_row _ _ _ = (Ok _, _) |- _ => apply update_table_ok in H
      | H : add_unique _ _ _ _ _ = (Ok _, _) |- _ => apply add_unique_ok in H as (? & ? & ?)
      | H : add_row _ _ _ _ = (Ok _, _) |- _ => apply add_unique_ok in H as (? & ? & _)
      | H : record_blobs _ _ = (Ok _, _) |- _ => apply select_where_ok in H as [? ?]
      | H : record _ _ _ _ _ _ = (Ok _, _) |- _ => apply record_ok in H as (? & ? & ? & ? & ? & ?)
      | H : attachment _ _ _ _ = (Ok _, _) |- _ => apply attachment_row_ok in H as (? & ? & ? & ?)
      | H : atomically _ _ = (Ok _, _) |- _ => rewrite atomically_ok in H
      | H : require _ _ _ = (Ok _, _) |- _ => apply require_ok in H as [? ?]
      | H : emit _ _ _ _ _ _ = (Ok _, _) |- _ =>
          let e := fresh "ev" in apply emit_ok in H as (e & ? & ?)
      | H : record_dict _ _ = (Ok _, _) |- _ => apply record_dict_ok in H as (? & ? & ?)
      | H : profile_of _ _ = (Ok _, _) |- _ => apply profile_of_ok in H as [? ?]
      | H : Some _ = None |- _ => discriminate H
      | H : None = Some _ |- _ => discriminate H
      | H : JStr ?a = JStr ?b |- _ => injection H as H; try (is_var b; subst b)
      | H : ?e = mkEvent _ _ _ _ _ _ _ |- _ => is_var e; clear H
      | H : ?w = _ |- _ => is_var w; lazymatch type of w with World => subst w end
      | H : _ = ?w |- _ => is_var w; lazymatch type of w with World => subst w end
      end ].
(** Decompose every successful run in the context down to the rows it read and
    the tables it wrote. *)
Ltac tables := cbn [fst snd t_get t_upd SPACES MANAGED REVOCATIONS GRANTS MEMBERS REVISIONS POLICIES RECORDS BLOBS ATTEMPTS
                    REFERENCES COORDINATIONS INPUTS EVENTS OPERATIONS] in *.
Ltac orient := repeat match goal with H : Some _ = _ !! _ |- _ => symmetry in H | H : [] = _ |- _ => symmetry in H end.
Ltac run_ok := repeat run_step; subst; tables; unfold appended in *; orient.
(** Lookups and sums of the state before the statements that left it alone. *)
Ltac lookups := repeat match goal with
  | E : _ (w_db (update _ _)) !! _ = _ |- _ => progress cbn in E
  | E : context [(map_to_list (_ (w_db (update _ _)))).*2] |- _ => progress cbn in E
  | E : context [rows _ (_ (w_db (update _ _)))] |- _ => progress cbn in E
  end.
(** The same through conditionals and matches: one goal per surviving branch. *)
Ltac run_case :=
  match goal with
  | H : (match ?x with _ => _ end) _ = (Ok _, _) |- _ => destruct x eqn:?
  | H : when ?c _ _ = (Ok _, _) |- _ => destruct c eqn:?; cbn [when] in H
  end.
Ltac run_all := repeat (first [run_step | run_case]); subst; tables; unfold appended in *; orient.

(** ** The wrappers every command goes through *)
Section Wrappers.
Context {P : Platform} (R : DB -> DB -> Prop) {HR : PreOrder R}.

Lemma keeps_once space principal scope key body action `{!Ignores R OPERATIONS} :
  keeps R action -> keeps R (once space principal scope key body action).
Proof.
  intros Ha. unfold once.
  apply keeps_bind; [done|apply pure_keeps; [done|]; auto with pure|intros k].
  apply keeps_bind; [done|apply pure_keeps; [done|]; auto with pure|intros bytes].
  apply keeps_bind; [done|apply pure_keeps; [done|]; auto with pure|intros [op|]].
  - apply pure_keeps; [done|]. purely.
  - apply keeps_bind; [done|done|intros v].
    apply keeps_bind; [done|apply pure_keeps; [done|]; auto with pure|intros now].
    apply keeps_bind; [done|apply keeps_add_row; intros; apply ignores|intros _].
    apply pure_keeps; [done|]. auto with pure.
Qed.

(** What a transaction establishes before its body runs, on the rows it reads. *)
Record opened (space_id : string) (principal : Principal) (write allow_retired : bool) (d : DB)
    (space : Space) (row member : Member) : Prop := {
  op_space : spaces d !! space_id = Some space;
  op_row : members d !! (space_id, pr_id principal) = Some row;
  op_roles : mb_roles row <> [];
  op_member : forall role, mem_str role (mb_roles member) = true -> mem_str role (mb_roles row) = true;
  op_bindings : mb_bindings member = mb_bindings row;
  op_retired : forall m, managed_spaces d !! space_id = Some m -> ms_retired_at m <> None ->
                 write && negb allow_retired = false;
}.

Lemma role_intersection_in a b role : mem_str role (role_intersection a b) = true -> mem_str role a = true.
Proof.
  unfold role_intersection, mem_str. rewrite !bool_decide_eq_true, elem_of_sorted_set, !list_elem_of_In.
  intros H. apply List.filter_In in H as [H _]. exact H.
Qed.

(** A clock that only moved forward, over the same rows. *)
Definition same_db (w w' : World) : Prop :=
  w_db w' = w_db w /\ (w_clock w <= w_clock w')%nat /\ w_uuid w' = w_uuid w.

Lemma effective_member_ok space member principal managed w m w' :
  effective_member space member principal managed w = (Ok m, w') ->
  (forall role, mem_str role (mb_roles m) = true -> mem_str role (mb_roles member) = true) /\
  mb_bindings m = mb_bindings member /\ same_db w w'.
Proof.
  unfold effective_member, matching_grant, same_db. intros H.
  repeat (run_ok; try match goal with H : match ?x with _ => _ end _ = _ |- _ => destruct x
                                   | H : (if ?x then _ else _) _ = _ |- _ => destruct x end).
  all: subst; cbn; split_and!; eauto using role_intersection_in; lia.
Qed.

Lemma transaction_ok {A} space_id principal write allow_retired (body : Space -> Member -> M World A) w a w' :
  transaction space_id principal write allow_retired body w = (Ok a, w') ->
  exists space row member w1, opened space_id principal write allow_retired (w_db w) space row member /\
    same_db w w1 /\ body space member w1 = (Ok a, w').
Proof.
  unfold transaction. intros H. run_ok.
  match goal with H : effective_member _ _ _ _ _ = _ |- _ => apply effective_member_ok in H as (Hr & Hb & Hw) end.
  eexists _, _, _, _. split; [|split; [exact Hw|eassumption]].
  split; try eassumption.
  - intros E. by rewrite E in *.
  - intros m Hm Hret. rewrite Hm in *. by destruct (ms_retired_at m).
Qed.

Lemma keeps_transaction_at {A} space_id principal write allow_retired (body : Space -> Member -> M World A) :
  (forall space row member w a w', opened space_id principal write allow_retired (w_db w) space row member ->
     body space member w = (Ok a, w') -> R (w_db w) (w_db w')) ->
  keeps R (transaction space_id principal write allow_retired body).
Proof.
  intros Hb w a w' H. apply transaction_ok in H as (space & row & member & w1 & Ho & (Hw & _) & H).
  rewrite <- Hw in Ho |- *. exact (Hb _ _ _ _ _ _ Ho H).
Qed.

Lemma once_ok space principal scope key body action v w w' :
  once space principal scope key body action w = (Ok v, w') ->
  exists k bytes, key = JStr k /\ canonical_bytes body = Ok bytes /\
    ((exists op, operations (w_db w) !! (sp_id space, pr_id principal, (scope, k)) = Some op /\ op_request_hash op = sha256_hex bytes
                /\ v = op_response op /\ w' = w) \/
    (operations (w_db w) !! (sp_id space, pr_id principal, (scope, k)) = None /\
     exists w1, action w = (Ok v, w1) /\
       w' = w1 <| w_clock ::= S |>
               <| w_db ::= fun d => d <| operations ::= insert (sp_id space, pr_id principal, (scope, k))
                                           (mkOperation (sha256_hex bytes) v (clock (w_clock w1))) |> |>)).
Proof.
  unfold once, operation_key. intros H. run_all.
  - eexists _, _. split_and!; [done|eassumption|]. left. eexists. split_and!; try done.
    match goal with H : negb (String.eqb _ _) = false |- _ => apply negb_false_iff, String.eqb_eq in H; done end.
  - eexists _, _. split_and!; [done|eassumption|]. right. split; [done|]. eexists. split; [eassumption|]. done.
Qed.

Lemma keeps_bind_lift {A B} (r : result A) (f : A -> M World B) :
  (forall a, r = Ok a -> keeps R (f a)) -> keeps R (bind (lift r) f).
Proof.
  intros Hf w b w' H. apply bind_ok in H as (a & w1 & Hl & H). apply lift_ok in Hl as [-> ->].
  exact (Hf _ eq_refl _ _ _ H).
Qed.

Lemma keeps_transaction {A} space_id principal write allow_retired (body : Space -> Member -> M World A) :
  (forall space member, keeps R (body space member)) -> keeps R (transaction space_id principal write allow_retired body).
Proof.
  intros Hb w a w' H. apply transaction_ok in H as (space & row & member & w1 & _ & (Hw & _) & H).
  rewrite <- Hw. exact (Hb _ _ _ _ _ H).
Qed.

Lemma always_transaction {A} space_id principal write allow_retired (body : Space -> Member -> M World A) :
  (forall space member, keeps R (body space member)) -> always R (transaction space_id principal write allow_retired body).
Proof.
  intros Hb. apply always_atomically; [done|].
  repeat first [apply keeps_bind; [done|apply pure_keeps; [done|]; solve [eauto with pure]|intros ?] | apply Hb].
Qed.
End Wrappers.

(** Decompose [keeps R command] down to the updates of the tables [R] depends
    on; lemmas about sub-commands are found in the hint database [keeps]. *)
Create HintDb keeps discriminated.
Ltac keep_step :=
  first
    [ solve [apply pure_keeps; [typeclasses eauto|]; eauto 1 with pure nocore]
    | solve [eauto 2 with keeps nocore]
    | lazymatch goal with
      | |- keeps _ (bind (lift _) _) => apply keeps_bind_lift; intros ? ?
      | |- keeps _ (bind _ _) => apply keeps_bind; [typeclasses eauto| |intros ?]
      | |- keeps _ (transaction _ _ _ _ _) => apply keeps_transaction; intros ? ?
      | |- keeps _ (once _ _ _ _ _ _) => apply keeps_once; [typeclasses eauto|typeclasses eauto|]
      | |- keeps _ (emit _ _ _ _ _) => apply keeps_emit; typeclasses eauto
      | |- keeps _ (when _ _) => apply keeps_when; [typeclasses eauto|]
      | |- keeps _ (atomically _) => apply keeps_atomically
      | |- keeps _ (for_each _ _) => apply keeps_for_each; [typeclasses eauto|intros ? ?]
      | |- keeps _ (mapM _ _) => apply keeps_mapM; [typeclasses eauto|intros ?]
      | |- keeps _ (set_row _ _ _) => apply keeps_set_row; intros ?; solve [apply ignores]
      | |- keeps _ (bulk_update _ _ _) => apply keeps_bulk_update; intros ?; solve [apply ignores]
      | |- keeps _ (bulk_delete _ _) => apply keeps_bulk_delete; intros ?; solve [apply ignores]
      | |- keeps _ (delete_row _ _) => apply keeps_delete_row; intros ?; solve [apply ignores]
      | |- keeps _ (add_row _ _ _) => apply keeps_add_row; intros ? ?; solve [apply ignores]
      | |- keeps _ (add_unique _ _ _ _) => apply keeps_add_unique; intros ? ?; solve [apply ignores]
      | |- keeps _ (match ?x with _ => _ end) => destruct x
      end ].
Ltac keeping := repeat keep_step.
(** The same up to the transactions. *)
Ltac keeping_outside :=
  repeat lazymatch goal with |- keeps _ (transaction _ _ _ _ _) => fail | _ => keep_step end.
(** A request seen before, or its action. *)
Ltac once_cases :=
  match goal with
  | H : once _ _ _ _ _ _ _ = (Ok _, _) |- _ =>
      apply once_ok in H as (? & ? & ? & ? & [(? & ? & ? & ? & ?)|(? & ? & H & ?)])
  end; subst.

(** The sub-statements shared by the transfer commands and the coordination commands. *)
Section CommandPure.
Context {P : Platform}.
Lemma pure_active b : pure (active b).
Proof. unfold active. purely. Qed.
Lemma pure_attachment_of sid rid bid m p write : pure (attachment_of sid rid bid m p write).
Proof. unfold attachment_of. purely. Qed.
Lemma pure_the {A} (o : option A) : pure (the o).
Proof. unfold the. purely. Qed.
Lemma pure_get_attempt sid id : pure (get_attempt sid id).
Proof. unfold get_attempt. purely. Qed.
Lemma pure_acquisition_dict sid id : pure (acquisition_dict sid id).
Proof. unfold acquisition_dict. purely. all: apply pure_get_attempt. Qed.
Lemma pure_check_attempt a p f : pure (check_attempt a p f).
Proof. unfold check_attempt. purely. Qed.
Lemma pure_active_acquisition s n : pure (active_acquisition s n).
Proof. unfold active_acquisition. purely. Qed.
End CommandPure.
#[export] Hint Resolve pure_active pure_attachment_of pure_the pure_get_attempt pure_acquisition_dict pure_check_attempt
  pure_active_acquisition : pure.

(** The definition of a command, down to its transaction. *)
Ltac open_command :=
  unfold transfer_tx, on_snapshot, on_events, discard,
    get_space, get_membership, list_members, put_member, register_type, get_type, list_types, put_policy,
    get_record, list_records, enable_managed_space, get_managed_space, create_workload_grant, create_grant_action,
    revoke_workload_grants, get_workload_grant, verify_workload_grant, get_reference, put_reference, put_reference_action,
    Coordination.acquire, acquire_action, add_input, get_acquisition, renew, Coordination.abandon, complete, complete_action,
    events_command, grants_check, downloadable.

(** ** Frames

    A relation that reads some tables only ignores updates of the others: by
    computation, the two databases are the same to it. *)
#[export] Hint Extern 5 (Ignores ?R ?T) =>
  (let f := fresh in let d := fresh in intros f d; change (R d d); reflexivity) : typeclass_instances.
#[export] Hint Extern 5 (IgnoresEvents ?R) =>
  (let f := fresh in let n := fresh in let d := fresh in intros f n d; change (R d d); reflexivity) : typeclass_instances.

(** Down to the statements of the transfer transactions, and of all commands. *)
Ltac open_transfers :=
  unfold initiate_body, grants_record, gateway_fence, gateway_confirm, finish_gateway_body, complete_body, record_download,
    downloadable, acquire_body, heartbeat_body, release_lease_body, commit_body, commit_outcome, commit_verified,
    commit_cleaned, retry_body, settle_mutation_body, abandon_body, rearm_cleanup, expire_body, repair_body, repair_attempt,
    repair_inventory, prune_history, prune_space, new_attempt, queue, inventory_item.
Ltac open_records :=
  unfold create_space, update_space_limits, create_record, create_record_action, add_blob, patch_record,
    publish_record, publish_record_action, withdraw_record, purge_record, retire_managed_space, withdraw_all,
    check_draft, record_in_space, release, release_blob.
Ltac open_all := open_command; open_transfers; open_records.

Lemma keeps_discard {P : Platform} (R : DB -> DB -> Prop) {HR : PreOrder R} {A} (m : M World A) : keeps R m -> keeps R (discard m).
Proof.
  intros H w a w' Hd. unfold discard in Hd. apply bind_ok in Hd as (x & w1 & Hm & Hr). apply ret_ok in Hr as [_ ->].
  exact (H _ _ _ Hm).
Qed.

(** All requests at once: the commands with a lemma of their own in the hint
    database are closed by it, the others are decomposed. *)
Ltac each_request :=
  match goal with |- keeps _ (serve ?q) => destruct q end;
  cbn [serve]; try solve [apply keeps_discard; [typeclasses eauto|]; eauto 1 with keeps nocore];
  open_all; keeping.
