(* ===== verification/Accounting.v ===== *)
(** * Quota accounting

    What the counters of a space mean: [Accounts] relates every space row to
    the records and attachments it is charged for, with the quotas that
    admission enforces, and ties attachments to their record and records to
    their space.  The lemmas say how it survives the row updates the commands
    are made of. *)

From stdpp Require Import base gmap strings list fin_maps.
From Stdlib Require Import ZArith Lia.
From S2P Require Import Prelude Json Domain Models.

Definition one_in (sid : string) (r : Record_) : Z := if String.eqb (rec_space_id r) sid then 1 else 0.
Definition metadata_in (sid : string) (r : Record_) : Z :=
  if String.eqb (rec_space_id r) sid then rec_metadata_bytes r else 0.
(** The bytes reserved for a record that has not been released. *)
Definition live_in (sid : string) (r : Record_) : Z :=
  if String.eqb (rec_space_id r) sid && negb (is_terminal (rec_state r)) then rec_declared_bytes r else 0.
(** The bytes of an attachment that waits for reclamation. *)
Definition pending_in (sid : string) (b : Blob) : Z :=
  if String.eqb (bl_space_id b) sid && bl_pending_deletion b then bl_size b else 0.
Definition size_in (rid : string) (b : Blob) : Z := if String.eqb (bl_record_id b) rid then bl_size b else 0.

Record space_ok (rc : gmap string Record_) (bl : gmap string Blob) (k : string) (s : Space) : Prop := {
  so_id : sp_id s = k;
  so_count : record_count s = sum_map (one_in k) rc;
  so_metadata : metadata_bytes s = sum_map (metadata_in k) rc;
  so_allocated : allocated s = sum_map (live_in k) rc;
  so_reclaiming : reclaiming s = sum_map (pending_in k) bl;
  so_quota : allocated s <= quota_bytes s;
  so_quota_records : record_count s <= quota_records s;
  so_quota_metadata : metadata_bytes s <= quota_metadata_bytes s;
}.

Record record_ok (sp : gmap string Space) (bl : gmap string Blob) (k : string) (r : Record_) : Prop := {
  ro_id : rec_id r = k;
  ro_space : is_Some (sp !! rec_space_id r);
  ro_metadata : 0 <= rec_metadata_bytes r;
  ro_declared : rec_declared_bytes r = sum_map (size_in k) bl;
}.

Record blob_home (rc : gmap string Record_) (k : string) (b : Blob) : Prop := {
  bh_id : bl_id b = k;
  bh_size : 0 <= bl_size b;
  bh_record : exists r, rc !! bl_record_id b = Some r /\ rec_space_id r = bl_space_id b;
}.

Record Accounts (sp : gmap string Space) (rc : gmap string Record_) (bl : gmap string Blob) : Prop := {
  acc_space : forall k s, sp !! k = Some s -> space_ok rc bl k s;
  acc_record : forall k r, rc !! k = Some r -> record_ok sp bl k r;
  acc_blob : forall k b, bl !! k = Some b -> blob_home rc k b;
}.

Lemma accounts_empty : Accounts ∅ ∅ ∅.
Proof. split; intros k v Hk; by rewrite lookup_empty in Hk. Qed.

Section Facts.
Context {sp : gmap string Space} {rc : gmap string Record_} {bl : gmap string Blob} (HA : Accounts sp rc bl).

Lemma declared_nonneg k r : rc !! k = Some r -> 0 <= rec_declared_bytes r.
Proof.
  intros Hk. rewrite (ro_declared _ _ _ _ (acc_record _ _ _ HA k r Hk)). apply sum_map_nonneg.
  intros j b Hj. unfold size_in. destruct (String.eqb _ _); [|lia].
  exact (bh_size _ _ _ (acc_blob _ _ _ HA j b Hj)).
Qed.

Lemma reclaiming_nonneg k s : sp !! k = Some s -> 0 <= reclaiming s.
Proof.
  intros Hk. rewrite (so_reclaiming _ _ _ _ (acc_space _ _ _ HA k s Hk)). apply sum_map_nonneg.
  intros j b Hj. unfold pending_in. destruct (_ && _); [|lia].
  exact (bh_size _ _ _ (acc_blob _ _ _ HA j b Hj)).
Qed.

Lemma allocated_nonneg k s : sp !! k = Some s -> 0 <= allocated s.
Proof.
  intros Hk. rewrite (so_allocated _ _ _ _ (acc_space _ _ _ HA k s Hk)). apply sum_map_nonneg.
  intros j r Hj. unfold live_in. destruct (_ && _); [|lia]. exact (declared_nonneg j r Hj).
Qed.

(** A space without a row has no records and no attachments. *)
Lemma no_space_no_rows k : sp !! k = None ->
  (forall j r, rc !! j = Some r -> String.eqb (rec_space_id r) k = false) /\
  (forall j b, bl !! j = Some b -> String.eqb (bl_space_id b) k = false).
Proof.
  intros Hk.
  assert (Hr : forall j r, rc !! j = Some r -> String.eqb (rec_space_id r) k = false).
  { intros j r Hj. apply String.eqb_neq. intros E.
    destruct (ro_space _ _ _ _ (acc_record _ _ _ HA j r Hj)) as [s Hs]. congruence. }
  split; [exact Hr|]. intros j b Hj.
  destruct (bh_record _ _ _ (acc_blob _ _ _ HA j b Hj)) as (r & Hrow & Hsp).
  rewrite <- Hsp. exact (Hr _ _ Hrow).
Qed.
End Facts.

Lemma eqb_refl_true s : String.eqb s s = true.
Proof. apply String.eqb_refl. Qed.
Lemma eqb_ne (a b : string) : a <> b -> String.eqb a b = false.
Proof. apply String.eqb_neq. Qed.

(** Lookups of updated tables. *)
Ltac split_lookup H :=
  lazymatch type of H with
  | <[?k := ?v]> ?m !! ?j = Some _ =>
      destruct (decide (j = k)) as [->|?];
      [rewrite lookup_insert_eq in H; injection H as H; subst
      |rewrite lookup_insert_ne in H by congruence]
  end.

(** ** A space row, with the limits and the counters it had *)
Lemma accounts_space sp rc bl k s s' :
  Accounts sp rc bl -> sp !! k = Some s -> space_ok rc bl k s' -> Accounts (<[k:=s']> sp) rc bl.
Proof.
  intros HA Hk Hs'. split.
  - intros j t Hj. split_lookup Hj; [done|]. exact (acc_space _ _ _ HA j t Hj).
  - intros j r Hj. destruct (acc_record _ _ _ HA j r Hj) as [? Hsp ? ?]. split; try done.
    destruct (decide (rec_space_id r = k)) as [->|]; [by rewrite lookup_insert_eq|by rewrite lookup_insert_ne by congruence].
  - apply HA.
Qed.

Lemma accounts_new_space sp rc bl k s :
  Accounts sp rc bl -> sp !! k = None -> sp_id s = k -> record_count s = 0 -> metadata_bytes s = 0 ->
  allocated s = 0 -> reclaiming s = 0 -> 0 <= quota_bytes s -> 0 <= quota_records s -> 0 <= quota_metadata_bytes s ->
  Accounts (<[k:=s]> sp) rc bl.
Proof.
  intros HA Hk ? Hc Hm Ha Hr ? ? ?. destruct (no_space_no_rows HA k Hk) as [Hrows Hblobs].
  assert (Hz : forall f : Record_ -> Z, (forall j r, rc !! j = Some r -> f r = 0) -> sum_map f rc = 0).
  { intros f Hf. rewrite (sum_map_ext f (fun _ => 0) rc Hf). clear. induction rc using map_ind.
    - apply sum_map_empty.
    - rewrite sum_map_insert_new by done. lia. }
  split.
  - intros j t Hj. split_lookup Hj; [|exact (acc_space _ _ _ HA j t Hj)].
    split; try done; try lia.
    + rewrite Hc, Hz; [done|]. intros j r Hr'. unfold one_in. by rewrite (Hrows j r Hr').
    + rewrite Hm, Hz; [done|]. intros j r Hr'. unfold metadata_in. by rewrite (Hrows j r Hr').
    + rewrite Ha, Hz; [done|]. intros j r Hr'. unfold live_in. by rewrite (Hrows j r Hr').
    + rewrite Hr. rewrite (sum_map_ext (pending_in (sp_id t)) (fun _ => 0) bl).
      * clear. induction bl using map_ind; [by rewrite sum_map_empty|rewrite sum_map_insert_new by done; lia].
      * intros j b Hb. unfold pending_in. by rewrite (Hblobs j b Hb).
  - intros j r Hj. destruct (acc_record _ _ _ HA j r Hj) as [? Hsp ? ?]. split; try done.
    rewrite lookup_insert_ne; [done|]. intros ->. destruct Hsp. congruence.
  - apply HA.
Qed.

(** ** One record and its space *)
Lemma accounts_record sp rc bl rid r r' s s' :
  Accounts sp rc bl -> rc !! rid = Some r -> sp !! rec_space_id r = Some s ->
  rec_id r' = rec_id r -> rec_space_id r' = rec_space_id r -> rec_declared_bytes r' = rec_declared_bytes r ->
  0 <= rec_metadata_bytes r' ->
  sp_id s' = sp_id s -> record_count s' = record_count s -> reclaiming s' = reclaiming s ->
  metadata_bytes s' = metadata_bytes s - rec_metadata_bytes r + rec_metadata_bytes r' ->
  allocated s' = allocated s - live_in (rec_space_id r) r + live_in (rec_space_id r) r' ->
  allocated s' <= quota_bytes s' -> record_count s' <= quota_records s' -> metadata_bytes s' <= quota_metadata_bytes s' ->
  Accounts (<[rec_space_id r := s']> sp) (<[rid := r']> rc) bl.
Proof.
  intros HA Hr Hs Hid Hsp Hd Hm0 Hi Hc Hre Hm Ha Hq1 Hq2 Hq3.
  destruct (acc_space _ _ _ HA _ _ Hs) as [Si Sc Sm Sa Sr _ _ _]. split.
  - intros j t Hj. split_lookup Hj.
    + split; rewrite ?(sum_map_insert _ rc rid r r' Hr); try lia; try congruence.
      * unfold one_in at 2 3. rewrite Hsp. lia.
      * unfold metadata_in at 2 3. rewrite Hsp, eqb_refl_true. lia.
    + destruct (acc_space _ _ _ HA _ _ Hj) as [? ? ? ? ? ? ? ?].
      split; rewrite ?(sum_map_insert _ rc rid r r' Hr); try done.
      * unfold one_in at 2 3. rewrite Hsp. lia.
      * unfold metadata_in at 2 3. rewrite Hsp, eqb_ne by done. lia.
      * unfold live_in at 2 3. rewrite Hsp, eqb_ne by done. cbn. lia.
  - intros j t Hj. split_lookup Hj.
    + destruct (acc_record _ _ _ HA _ _ Hr). split; try congruence.
      rewrite Hsp, lookup_insert_eq. done.
    + destruct (acc_record _ _ _ HA _ _ Hj) as [? [u Hu] ? ?]. split; try done.
      destruct (decide (rec_space_id t = rec_space_id r)) as [->|]; [by rewrite lookup_insert_eq|].
      rewrite lookup_insert_ne by congruence. by exists u.
  - intros j b Hj. destruct (acc_blob _ _ _ HA j b Hj) as [? ? (x & Hx & Hxs)]. split; try done.
    destruct (decide (bl_record_id b = rid)) as [E|].
    + rewrite E, lookup_insert_eq. exists r'. split; [done|]. congruence.
    + rewrite lookup_insert_ne by congruence. eauto.
Qed.

(** A record update that no counter depends on. *)
Lemma accounts_record_neutral sp rc bl rid r r' :
  Accounts sp rc bl -> rc !! rid = Some r ->
  rec_id r' = rec_id r -> rec_space_id r' = rec_space_id r -> rec_declared_bytes r' = rec_declared_bytes r ->
  rec_metadata_bytes r' = rec_metadata_bytes r -> is_terminal (rec_state r') = is_terminal (rec_state r) ->
  Accounts sp (<[rid := r']> rc) bl.
Proof.
  intros HA Hr Hid Hsp Hd Hm Ht. destruct (acc_record _ _ _ HA _ _ Hr) as [_ [s Hs] ? _].
  destruct (acc_space _ _ _ HA _ _ Hs). rewrite <- (insert_id sp _ _ Hs).
  apply (accounts_record sp rc bl rid r r' s s); try done; try lia.
  unfold live_in. rewrite Hsp, Hd, Ht. lia.
Qed.

(** ** One attachment and its space *)
Definition same_blob (b b' : Blob) : Prop :=
  bl_id b' = bl_id b /\ bl_record_id b' = bl_record_id b /\ bl_space_id b' = bl_space_id b /\ bl_size b' = bl_size b.

Lemma accounts_blob sp rc bl k b b' s s' :
  Accounts sp rc bl -> bl !! k = Some b -> sp !! bl_space_id b = Some s -> same_blob b b' ->
  s' = s <| reclaiming := reclaiming s - pending_in (bl_space_id b) b + pending_in (bl_space_id b) b' |> ->
  Accounts (<[bl_space_id b := s']> sp) rc (<[k := b']> bl).
Proof.
  intros HA Hb Hs (Hid & Hrec & Hsp & Hsz) ->.
  destruct (acc_space _ _ _ HA _ _ Hs) as [Si Sc Sm Sa Sr ? ? ?]. split.
  - intros j t Hj. split_lookup Hj.
    + split; cbn; try done. rewrite (sum_map_insert _ bl k b b' Hb). lia.
    + destruct (acc_space _ _ _ HA _ _ Hj) as [? ? ? ? ? ? ? ?]. split; try done.
      rewrite (sum_map_insert _ bl k b b' Hb). unfold pending_in at 2 3. rewrite Hsp, eqb_ne by done. cbn. lia.
  - intros j t Hj. destruct (acc_record _ _ _ HA _ _ Hj) as [? [u Hu] ? ?]. split; try done.
    + destruct (decide (rec_space_id t = bl_space_id b)) as [->|]; [by rewrite lookup_insert_eq|].
      rewrite lookup_insert_ne by congruence. by exists u.
    + rewrite (sum_map_insert _ bl k b b' Hb). unfold size_in at 2 3. rewrite Hrec, Hsz. lia.
  - intros j t Hj. split_lookup Hj; [|exact (acc_blob _ _ _ HA j t Hj)].
    destruct (acc_blob _ _ _ HA _ _ Hb) as [? ? ?]. split; [congruence|by rewrite Hsz|by rewrite Hrec, Hsp].
Qed.

Lemma accounts_blob_neutral sp rc bl k b b' :
  Accounts sp rc bl -> bl !! k = Some b -> same_blob b b' -> bl_pending_deletion b' = bl_pending_deletion b ->
  Accounts sp rc (<[k := b']> bl).
Proof.
  intros HA Hb Hsame Hp. destruct (acc_blob _ _ _ HA _ _ Hb) as [_ _ (r & Hr & Hsp)].
  destruct (acc_record _ _ _ HA _ _ Hr) as [_ [s Hs] _ _]. rewrite Hsp in Hs.
  rewrite <- (insert_id sp _ _ Hs). apply (accounts_blob sp rc bl k b b' s s); try done.
  destruct Hsame as (_ & _ & H1 & H2). unfold pending_in. rewrite H1, H2, Hp.
  replace (reclaiming s - _ + _) with (reclaiming s) by lia. by destruct s.
Qed.

(** ** A new record with its attachments *)
Record adds_blobs (rid sid : string) (bl0 bl : gmap string Blob) (total : Z) : Prop := {
  ab_old : forall k b, bl0 !! k = Some b -> bl !! k = Some b;
  ab_new : forall k b, bl !! k = Some b -> bl0 !! k = Some b \/
    (bl0 !! k = None /\ bl_id b = k /\ bl_record_id b = rid /\ bl_space_id b = sid /\ 0 <= bl_size b
     /\ bl_pending_deletion b = false /\ bl_state b = Reserved);
  ab_pending : forall s, sum_map (pending_in s) bl = sum_map (pending_in s) bl0;
  ab_size : forall r, sum_map (size_in r) bl = sum_map (size_in r) bl0 + (if String.eqb r rid then total else 0);
}.

Lemma adds_no_blobs rid sid bl : adds_blobs rid sid bl bl 0.
Proof. split; try done; [by left|]. intros r. destruct (String.eqb _ _); lia. Qed.

Lemma adds_blobs_step rid sid bl0 bl total k b :
  adds_blobs rid sid bl0 bl total -> bl !! k = None ->
  bl_id b = k -> bl_record_id b = rid -> bl_space_id b = sid -> 0 <= bl_size b ->
  bl_pending_deletion b = false -> bl_state b = Reserved ->
  adds_blobs rid sid bl0 (<[k := b]> bl) (total + bl_size b).
Proof.
  intros [Ho Hn Hp Hs] Hk Hid Hrec Hsp Hsz Hpend Hst. split.
  - intros j c Hj. rewrite lookup_insert_ne; [by apply Ho|]. intros ->. rewrite (Ho _ _ Hj) in Hk. done.
  - intros j c Hj. split_lookup Hj; [|by apply Hn]. right. split_and!; try done.
    destruct (bl0 !! _) as [x|] eqn:E; [|done]. by rewrite (Ho _ _ E) in Hk.
  - intros x. rewrite sum_map_insert_new by done. unfold pending_in at 1. rewrite Hpend, andb_false_r, Hp. lia.
  - intros x. rewrite sum_map_insert_new by done. unfold size_in at 1. rewrite Hs, Hrec, (String.eqb_sym rid x).
    destruct (String.eqb x rid); lia.
Qed.

Lemma accounts_new_record sp rc bl bl' sid rid r s s' :
  Accounts sp rc bl -> rc !! rid = None -> sp !! sid = Some s -> rec_space_id r = sid ->
  rec_id r = rid -> 0 <= rec_metadata_bytes r -> is_terminal (rec_state r) = false ->
  adds_blobs rid sid bl bl' (rec_declared_bytes r) ->
  s' = s <| record_count := record_count s + 1 |> <| metadata_bytes := metadata_bytes s + rec_metadata_bytes r |>
         <| allocated := allocated s + rec_declared_bytes r |> ->
  allocated s' <= quota_bytes s -> record_count s' <= quota_records s -> metadata_bytes s' <= quota_metadata_bytes s ->
  Accounts (<[sid := s']> sp) (<[rid := r]> rc) bl'.
Proof.
  intros HA Hr Hs <- Hid Hm Ht Hadd -> Hq1 Hq2 Hq3. cbn in Hq1, Hq2, Hq3.
  destruct (acc_space _ _ _ HA _ _ Hs) as [Si Sc Sm Sa Sr _ _ _]. destruct Hadd as [Ho Hn Hp Hz].
  assert (Hnone : sum_map (size_in rid) bl = 0).
  { rewrite (sum_map_ext _ (fun _ => 0) bl).
    - clear. induction bl using map_ind; [by rewrite sum_map_empty|rewrite sum_map_insert_new by done; lia].
    - intros j b Hj. unfold size_in. rewrite eqb_ne; [done|]. intros E.
      destruct (bh_record _ _ _ (acc_blob _ _ _ HA j b Hj)) as (x & Hx & _). congruence. }
  split.
  - intros j t Hj. split_lookup Hj.
    + split; cbn; rewrite ?sum_map_insert_new, ?Hp by done; try done.
      * unfold one_in at 1. rewrite eqb_refl_true. lia.
      * unfold metadata_in at 1. rewrite eqb_refl_true. lia.
      * unfold live_in at 1. rewrite eqb_refl_true, Ht. cbn. lia.
    + destruct (acc_space _ _ _ HA _ _ Hj). split; rewrite ?sum_map_insert_new, ?Hp by done; try done.
      * unfold one_in at 1. rewrite eqb_ne by done. done.
      * unfold metadata_in at 1. rewrite eqb_ne by done. done.
      * unfold live_in at 1. rewrite eqb_ne by done. done.
  - intros j t Hj. split_lookup Hj.
    + split; [done|by rewrite lookup_insert_eq|done|]. rewrite Hz, eqb_refl_true, Hnone. lia.
    + destruct (acc_record _ _ _ HA _ _ Hj) as [? [u Hu] ? ?]. split; try done.
      * destruct (decide (rec_space_id t = rec_space_id r)) as [->|]; [by rewrite lookup_insert_eq|].
        rewrite lookup_insert_ne by congruence. by exists u.
      * rewrite Hz, eqb_ne by done. lia.
  - intros j b Hj. destruct (Hn j b Hj) as [Hold|(_ & Hbid & Hbrec & Hbsp & Hbsz & _)].
    + destruct (acc_blob _ _ _ HA j b Hold) as [? ? (x & Hx & Hxs)]. split; try done.
      rewrite lookup_insert_ne; [by eauto|]. congruence.
    + split; [done|done|]. rewrite Hbrec, lookup_insert_eq. eauto.
Qed.

(** ** Purging a record whose attachments hold no bytes *)
Lemma accounts_purge sp rc bl rid r s s' :
  Accounts sp rc bl -> rc !! rid = Some r -> sp !! rec_space_id r = Some s -> is_terminal (rec_state r) = true ->
  (forall k b, bl !! k = Some b -> bl_record_id b = rid -> bl_pending_deletion b = false) ->
  s' = s <| record_count := record_count s - 1 |> <| metadata_bytes := metadata_bytes s - rec_metadata_bytes r |> ->
  Accounts (<[rec_space_id r := s']> sp) (delete rid rc)
           (filter (fun kv : string * Blob => negb (String.eqb (bl_record_id kv.2) rid) = true) bl).
Proof.
  intros HA Hr Hs Ht Hpend ->. destruct (acc_space _ _ _ HA _ _ Hs) as [Si Sc Sm Sa Sr ? ? ?].
  pose proof (ro_metadata _ _ _ _ (acc_record _ _ _ HA _ _ Hr)) as Hm0.
  assert (Hp : forall k, sum_map (pending_in k) (filter (fun kv : string * Blob => negb (String.eqb (bl_record_id kv.2) rid) = true) bl)
                         = sum_map (pending_in k) bl).
  { intros k. rewrite (sum_map_filter _ (fun b => negb (String.eqb (bl_record_id b) rid))). apply sum_map_ext.
    intros j b Hj. destruct (String.eqb (bl_record_id b) rid) eqn:E; [|done]. apply String.eqb_eq in E.
    unfold pending_in. by rewrite (Hpend j b Hj E), andb_false_r. }
  split.
  - intros j t Hj. split_lookup Hj.
    + split; cbn; rewrite ?(sum_map_delete _ rc rid r Hr), ?Hp; try done; try lia.
      * unfold one_in at 2. rewrite eqb_refl_true. lia.
      * unfold metadata_in at 2. rewrite eqb_refl_true. lia.
      * unfold live_in at 2. rewrite eqb_refl_true, Ht. cbn. lia.
    + destruct (acc_space _ _ _ HA _ _ Hj). split; rewrite ?(sum_map_delete _ rc rid r Hr), ?Hp; try done.
      * unfold one_in at 2. rewrite eqb_ne by done. lia.
      * unfold metadata_in at 2. rewrite eqb_ne by done. lia.
      * unfold live_in at 2. rewrite eqb_ne by done. cbn. lia.
  - intros j t Hj. apply lookup_delete_Some in Hj as [Hne Hj].
    destruct (acc_record _ _ _ HA _ _ Hj) as [? [u Hu] ? Hd]. split; try done.
    + destruct (decide (rec_space_id t = rec_space_id r)) as [->|]; [by rewrite lookup_insert_eq|].
      rewrite lookup_insert_ne by congruence. by exists u.
    + rewrite Hd, (sum_map_filter _ (fun b => negb (String.eqb (bl_record_id b) rid))). apply sum_map_ext.
      intros i b Hi. unfold size_in. destruct (String.eqb (bl_record_id b) rid) eqn:E; [|done].
      apply String.eqb_eq in E. rewrite eqb_ne; [done|congruence].
  - intros j b Hj. apply map_lookup_filter_Some in Hj as [Hj Hb]. cbn in Hb. apply negb_true_iff, String.eqb_neq in Hb.
    destruct (acc_blob _ _ _ HA j b Hj) as [? ? (x & Hx & Hxs)]. split; try done.
    rewrite lookup_delete_ne by congruence. eauto.
Qed.

(** ** Bulk updates that no counter depends on *)
Lemma accounts_fmap_records sp rc bl (g : Record_ -> Record_) :
  Accounts sp rc bl ->
  (forall r, rec_id (g r) = rec_id r /\ rec_space_id (g r) = rec_space_id r /\ rec_declared_bytes (g r) = rec_declared_bytes r
             /\ rec_metadata_bytes (g r) = rec_metadata_bytes r /\ rec_state (g r) = rec_state r) ->
  Accounts sp (g <$> rc) bl.
Proof.
  intros HA Hg. split.
  - intros k s Hk. destruct (acc_space _ _ _ HA k s Hk). split; rewrite ?sum_map_fmap; try done.
    + rewrite so_count0. apply sum_map_ext. intros j r _. destruct (Hg r) as (_ & E & _). unfold one_in. by rewrite E.
    + rewrite so_metadata0. apply sum_map_ext. intros j r _. destruct (Hg r) as (_ & E & _ & E' & _).
      unfold metadata_in. by rewrite E, E'.
    + rewrite so_allocated0. apply sum_map_ext. intros j r _. destruct (Hg r) as (_ & E & E' & _ & E'').
      unfold live_in. by rewrite E, E', E''.
  - intros k r Hk. rewrite lookup_fmap in Hk. destruct (rc !! k) as [r0|] eqn:E; [|done]. injection Hk as <-.
    destruct (Hg r0) as (E1 & E2 & E3 & E4 & _), (acc_record _ _ _ HA k r0 E). split; congruence.
  - intros k b Hk. destruct (acc_blob _ _ _ HA k b Hk) as [? ? (r & Hr & Hs)]. split; try done.
    exists (g r). rewrite lookup_fmap, Hr. destruct (Hg r) as (_ & E & _). split; [done|congruence].
Qed.
