(* ===== verification/Lifecycle.v ===== *)
(** * The life of attachments and transfer attempts

    [Phases] ties the state of an attachment to the state of its record and of
    its transfer attempts: only the attachments of a stopped record are
    reclaimed, those of a published record are verified, a reclaimed one has no
    attempt that could still hold bytes, an attempt is cleaned only without an
    outstanding mutation, and the object behind a verified attachment belongs
    to an attempt nobody reclaims.  [X] exempts the attachments a running
    [release] has not reached. *)

From stdpp Require Import base gmap strings list fin_maps.
From Stdlib Require Import ZArith Lia.
From S2P Require Import Prelude Json Domain Models Records Accounting.

Definition leased_state (s : TransferState) : Prop := s ∈ [INITIATING; COMPLETING; VERIFYING; CLEANUP].

Record blob_phase (exempt : Prop) (st : RecordState) (b : Blob) : Prop := {
  bp_pending : bl_pending_deletion b = true -> is_terminal st = true;
  bp_cleaned : bl_state b = CLEANED -> is_terminal st = true /\ bl_pending_deletion b = false;
  bp_terminal : ~ exempt -> is_terminal st = true -> bl_pending_deletion b = true \/ bl_state b = CLEANED;
  bp_published : st = PUBLISHED -> blob_unverified b = false;
}.

(** A verified attachment of a live record is backed by a verified attempt. *)
Definition backed (at_ : gmap string TransferAttempt) (st : RecordState) (k : string) (b : Blob) : Prop :=
  bl_state b = VERIFIED -> is_terminal st = false ->
  exists j a, at_ !! j = Some a /\ at_blob_id a = k /\ at_state a = VERIFIED /\ bl_object_key b = Some (at_object_key a).

Record blob_ok (X : string -> Prop) (rc : gmap string Record_) (at_ : gmap string TransferAttempt)
    (k : string) (b : Blob) : Prop := {
  bo_id : bl_id b = k;
  bo_record : exists r, rc !! bl_record_id b = Some r /\ blob_phase (X k) (rec_state r) b /\ backed at_ (rec_state r) k b;
}.

Record attempt_ok (bl : gmap string Blob) (k : string) (a : TransferAttempt) : Prop := {
  ao_id : at_id a = k;
  ao_cleaned : at_state a = CLEANED -> at_mutation_tokens a = [];
  ao_token : at_token a = None \/ leased_state (at_state a);
  ao_blob : exists b, bl !! at_blob_id a = Some b /\ (bl_state b = CLEANED -> at_state a = CLEANED);
}.

Record Phases (X : string -> Prop) (rc : gmap string Record_) (bl : gmap string Blob) (at_ : gmap string TransferAttempt) : Prop := {
  ph_blob : forall k b, bl !! k = Some b -> blob_ok X rc at_ k b;
  ph_attempt : forall k a, at_ !! k = Some a -> attempt_ok bl k a;
}.

Definition nobody : string -> Prop := fun _ => False.

Lemma phases_empty X : Phases X ∅ ∅ ∅.
Proof. split; intros k v Hk; by rewrite lookup_empty in Hk. Qed.

Section Facts.
Context {X : string -> Prop} {rc : gmap string Record_} {bl : gmap string Blob} {at_ : gmap string TransferAttempt}
  (HP : Phases X rc bl at_).

Lemma blob_record k b : bl !! k = Some b ->
  exists r, rc !! bl_record_id b = Some r /\ blob_phase (X k) (rec_state r) b /\ backed at_ (rec_state r) k b.
Proof. intros Hk. exact (bo_record _ _ _ _ _ (ph_blob _ _ _ _ HP k b Hk)). Qed.

Lemma live_blob_not_cleaned k b r : bl !! k = Some b -> rc !! bl_record_id b = Some r ->
  is_terminal (rec_state r) = false -> bl_state b <> CLEANED /\ bl_pending_deletion b = false.
Proof.
  intros Hk Hr Ht. destruct (blob_record k b Hk) as (r' & Hr' & Hp & _). rewrite Hr in Hr'. injection Hr' as <-.
  split.
  - intros E. destruct (bp_cleaned _ _ _ Hp E). congruence.
  - destruct (bl_pending_deletion b) eqn:E; [|done]. pose proof (bp_pending _ _ _ Hp E). congruence.
Qed.
End Facts.

(** ** Attempts *)
Lemma phases_attempt X rc bl at_ k a a' :
  Phases X rc bl at_ -> at_ !! k = Some a -> attempt_ok bl k a' ->
  at_blob_id a' = at_blob_id a -> at_object_key a' = at_object_key a ->
  (at_state a = VERIFIED -> at_state a' = VERIFIED) ->
  Phases X rc bl (<[k := a']> at_).
Proof.
  intros HP Hk Ha' Hb Ho Hv. split.
  - intros j b Hj. destruct (ph_blob _ _ _ _ HP j b Hj) as [Hid (r & Hr & Hph & Hback)]. split; [done|].
    exists r. split_and!; [done|done|]. intros Hst Ht. destruct (Hback Hst Ht) as (i & c & Hi & H1 & H2 & H3).
    destruct (decide (i = k)) as [->|].
    + rewrite Hk in Hi. injection Hi as <-. exists k, a'. rewrite lookup_insert_eq. split_and!; try congruence. by apply Hv.
    + exists i, c. by rewrite lookup_insert_ne by congruence.
  - intros j c Hj. split_lookup Hj; [done|]. exact (ph_attempt _ _ _ _ HP j c Hj).
Qed.

(** An attempt given up for cleanup, with the attachment and the record it belongs to. *)
Lemma phases_give_up rc bl at_ k a a' b r :
  Phases nobody rc bl at_ -> at_ !! k = Some a -> bl !! at_blob_id a = Some b -> rc !! bl_record_id b = Some r ->
  at_id a' = at_id a -> at_blob_id a' = at_blob_id a -> at_object_key a' = at_object_key a ->
  at_state a' = CLEANUP -> bl_state b <> CLEANED ->
  (at_state a = VERIFIED -> is_terminal (rec_state r) = true) ->
  Phases nobody rc bl (<[k := a']> at_).
Proof.
  intros HP Hk Hb Hr Hid Hbl Hkey Hst Hnc Hv.
  assert (Ha' : attempt_ok bl k a').
  { destruct (ph_attempt _ _ _ _ HP _ _ Hk). split; [congruence|congruence| |].
    - right. rewrite Hst. unfold leased_state. set_solver.
    - exists b. rewrite Hbl. done. }
  split.
  - intros j c Hj. destruct (ph_blob _ _ _ _ HP j c Hj) as [Hcid (x & Hx & Hph & Hback)]. split; [done|].
    exists x. split_and!; [done|done|]. intros Hcst Ht. destruct (Hback Hcst Ht) as (i & d & Hi & H1 & H2 & H3).
    exists i, d. rewrite lookup_insert_ne; [done|]. intros <-. rewrite Hk in Hi. injection Hi as <-.
    rewrite H1, Hj in Hb. injection Hb as <-. rewrite Hr in Hx. injection Hx as <-. rewrite Hv in Ht; done.
  - intros j c Hj. split_lookup Hj; [done|]. exact (ph_attempt _ _ _ _ HP j c Hj).
Qed.

Lemma phases_new_attempt X rc bl at_ k a :
  Phases X rc bl at_ -> at_ !! k = None -> attempt_ok bl k a -> Phases X rc bl (<[k := a]> at_).
Proof.
  intros HP Hk Ha. split.
  - intros j b Hj. destruct (ph_blob _ _ _ _ HP j b Hj) as [Hid (r & Hr & Hph & Hback)]. split; [done|].
    exists r. split_and!; [done|done|]. intros Hst Ht. destruct (Hback Hst Ht) as (i & c & Hi & H1).
    exists i, c. rewrite lookup_insert_ne by congruence. done.
  - intros j c Hj. split_lookup Hj; [done|]. exact (ph_attempt _ _ _ _ HP j c Hj).
Qed.

(** Attempts that are not verified may be forgotten. *)
Lemma phases_drop_attempts X rc bl at_ at' :
  Phases X rc bl at_ ->
  (forall k a, at' !! k = Some a -> at_ !! k = Some a) ->
  (forall k a, at_ !! k = Some a -> at_state a = VERIFIED -> at' !! k = Some a) ->
  Phases X rc bl at'.
Proof.
  intros HP Hsub Hkeep. split.
  - intros j b Hj. destruct (ph_blob _ _ _ _ HP j b Hj) as [Hid (r & Hr & Hph & Hback)]. split; [done|].
    exists r. split_and!; [done|done|]. intros Hst Ht. destruct (Hback Hst Ht) as (i & c & Hi & H1 & H2 & H3).
    exists i, c. split_and!; try done. by apply Hkeep.
  - intros j c Hj. exact (ph_attempt _ _ _ _ HP j c (Hsub _ _ Hj)).
Qed.

(** ** Attachments *)
Lemma phases_blob X X' rc bl at_ k b b' :
  Phases X rc bl at_ -> bl !! k = Some b -> blob_ok X' rc at_ k b' ->
  (bl_state b' = CLEANED -> forall j a, at_ !! j = Some a -> at_blob_id a = k -> at_state a = CLEANED) ->
  (forall j, j <> k -> X j -> X' j) ->
  Phases X' rc (<[k := b']> bl) at_.
Proof.
  intros HP Hk Hb' Hcl HX. split.
  - intros j c Hj. split_lookup Hj; [done|].
    destruct (ph_blob _ _ _ _ HP j c Hj) as [Hid (r & Hr & [Q1 Q2 Q3 Q4] & Hback)].
    split; [done|]. exists r. split_and!; [done| |done]. split; try done. intros Hx. apply Q3. naive_solver.
  - intros j a Hj. destruct (ph_attempt _ _ _ _ HP j a Hj) as [? ? ? (c & Hc & Hcc)]. split; try done.
    destruct (decide (at_blob_id a = k)) as [E|].
    + exists b'. rewrite E, lookup_insert_eq. split; [done|]. intros Hst. exact (Hcl Hst j a Hj E).
    + exists c. rewrite lookup_insert_ne by congruence. done.
Qed.

(** A blob update of a live record that does not reclaim it. *)
Lemma phases_live_blob rc bl at_ k b b' r :
  Phases nobody rc bl at_ -> bl !! k = Some b -> rc !! bl_record_id b = Some r ->
  rec_state r = DRAFT -> same_blob b b' -> bl_pending_deletion b' = bl_pending_deletion b ->
  bl_state b' <> CLEANED -> backed at_ DRAFT k b' ->
  Phases nobody rc (<[k := b']> bl) at_.
Proof.
  intros HP Hk Hr Hd (Hid & Hrec & _) Hpend Hst Hback.
  destruct (live_blob_not_cleaned HP k b r Hk Hr) as [_ Hp]; [by rewrite Hd|].
  apply (phases_blob nobody nobody rc bl at_ k b b'); try done.
  destruct (ph_blob _ _ _ _ HP k b Hk) as [Hbid _]. split; [congruence|].
  exists r. rewrite Hrec. split_and!; [done| |by rewrite Hd]. rewrite Hd. split; try done. congruence.
Qed.

(** An update of the columns no phase depends on. *)
Definition phase_columns (b b' : Blob) : Prop :=
  same_blob b b' /\ bl_state b' = bl_state b /\ bl_pending_deletion b' = bl_pending_deletion b /\
  bl_object_key b' = bl_object_key b /\ bl_object_version b' = bl_object_version b /\ bl_sha256 b' = bl_sha256 b /\
  bl_verified_size b' = bl_verified_size b /\ bl_verified_sha256 b' = bl_verified_sha256 b.

Lemma phases_blob_neutral X rc bl at_ k b b' :
  Phases X rc bl at_ -> bl !! k = Some b -> phase_columns b b' -> Phases X rc (<[k := b']> bl) at_.
Proof.
  intros HP Hk ((Hid & Hrec & Hsp & Hsz) & Hst & Hpend & Hkey & Hver & Hsha & Hvs & Hvh).
  destruct (ph_blob _ _ _ _ HP k b Hk) as [Hbid (r & Hr & [Q1 Q2 Q3 Q4] & Hback)].
  apply (phases_blob X X rc bl at_ k b b'); try done.
  - split; [congruence|]. exists r. rewrite Hrec. split_and!; [done| |].
    + split; rewrite ?Hst, ?Hpend; try done. intros E. unfold blob_unverified.
      rewrite Hst, Hver, Hvs, Hvh, Hsz, Hsha. exact (Q4 E).
    + intros E1 E2. rewrite Hst in E1. rewrite Hkey. exact (Hback E1 E2).
  - intros E j a Hj Ha. destruct (ph_attempt _ _ _ _ HP j a Hj) as [_ _ _ (c & Hc & Hcc)].
    rewrite Ha, Hk in Hc. injection Hc as <-. apply Hcc. congruence.
Qed.

(** ** Records *)
Lemma phases_record X X' rc bl at_ rid r r' :
  Phases X rc bl at_ -> rc !! rid = Some r ->
  (forall k b, bl !! k = Some b -> bl_record_id b = rid -> blob_phase (X k) (rec_state r) b ->
     blob_phase (X' k) (rec_state r') b) ->
  (is_terminal (rec_state r) = true -> is_terminal (rec_state r') = true) ->
  (forall k, X k -> X' k) ->
  Phases X' (<[rid := r']> rc) bl at_.
Proof.
  intros HP Hr Hstep Hterm HX. split; [|apply HP].
  intros k b Hk. destruct (ph_blob _ _ _ _ HP k b Hk) as [Hid (x & Hx & [Q1 Q2 Q3 Q4] & Hback)]. split; [done|].
  destruct (decide (bl_record_id b = rid)) as [E|].
  - rewrite E in Hx. rewrite Hr in Hx. injection Hx as <-. exists r'. rewrite E, lookup_insert_eq. split_and!; [done| |].
    + apply Hstep; try done.
    + intros Hst Ht. apply Hback; [done|]. destruct (is_terminal (rec_state r)); [|done]. by rewrite Hterm in Ht.
  - exists x. rewrite lookup_insert_ne by congruence. split_and!; [done| |done]. split; try done.
    intros Hn. apply Q3. naive_solver.
Qed.

Lemma phases_record_neutral X rc bl at_ rid r r' :
  Phases X rc bl at_ -> rc !! rid = Some r -> rec_state r' = rec_state r -> Phases X (<[rid := r']> rc) bl at_.
Proof. intros HP Hr Hst. apply (phases_record X X rc bl at_ rid r r'); try done; rewrite Hst; done. Qed.

Lemma phases_fmap_records X rc bl at_ (g : Record_ -> Record_) :
  Phases X rc bl at_ -> (forall r, rec_state (g r) = rec_state r) -> Phases X (g <$> rc) bl at_.
Proof.
  intros HP Hg. split; [|apply HP]. intros k b Hk.
  destruct (ph_blob _ _ _ _ HP k b Hk) as [Hid (r & Hr & Hph & Hback)]. split; [done|].
  exists (g r). rewrite lookup_fmap, Hr, Hg. done.
Qed.

(** Publication: every attachment of the draft is verified. *)
Lemma phases_publish rc bl at_ rid r r' :
  Phases nobody rc bl at_ -> rc !! rid = Some r -> rec_state r = DRAFT -> rec_state r' = PUBLISHED ->
  (forall k b, bl !! k = Some b -> bl_record_id b = rid -> blob_unverified b = false) ->
  Phases nobody (<[rid := r']> rc) bl at_.
Proof.
  intros HP Hr Hd Hp Hver. apply (phases_record nobody nobody rc bl at_ rid r r'); try done.
  - intros k b Hk Hb [Q1 Q2 Q3 Q4]. rewrite Hd in *. rewrite Hp. split; try done. intros _. by apply (Hver k).
  - by rewrite Hd.
Qed.

(** Stopping a record exempts its attachments until they are released. *)
Lemma phases_stop rc bl at_ rid r r' :
  Phases nobody rc bl at_ -> rc !! rid = Some r -> is_terminal (rec_state r) = false -> is_terminal (rec_state r') = true ->
  Phases (fun k => exists b, bl !! k = Some b /\ bl_record_id b = rid) (<[rid := r']> rc) bl at_.
Proof.
  intros HP Hr Hn Ht. apply (phases_record nobody _ rc bl at_ rid r r'); try done.
  intros k b Hk Hb [Q1 Q2 Q3 Q4]. split; try done.
  - intros E. apply Q2 in E as [? ?]. congruence.
  - intros Hx. exfalso. apply Hx. eauto.
  - intros E. by rewrite E in Ht.
Qed.

(** A new record and its attachments. *)
Lemma phases_new_record rc bl bl' at_ sid rid r total :
  Phases nobody rc bl at_ -> rc !! rid = None -> rec_state r = DRAFT ->
  adds_blobs rid sid bl bl' total -> Phases nobody (<[rid := r]> rc) bl' at_.
Proof.
  intros HP Hr Hd [Ho Hn _ _]. split.
  - intros k b Hk. destruct (Hn k b Hk) as [Hold|(_ & Hid & Hrec & _ & _ & Hpend & Hst)].
    + destruct (ph_blob _ _ _ _ HP k b Hold) as [Hid (x & Hx & Hrest)]. split; [done|]. exists x.
      rewrite lookup_insert_ne by congruence. done.
    + split; [done|]. exists r. rewrite Hrec, lookup_insert_eq, Hd. split_and!; [done| |].
      * split; try congruence. done.
      * unfold backed. congruence.
  - intros k a Hk. destruct (ph_attempt _ _ _ _ HP k a Hk) as [? ? ? (b & Hb & Hc)]. split; try done.
    exists b. split; [by apply Ho|done].
Qed.

(** Purging a record with its attachments and their attempts. *)
Lemma phases_purge rc bl at_ rid (gone : TransferAttempt -> bool) :
  Phases nobody rc bl at_ ->
  (forall k a, at_ !! k = Some a ->
     gone a = match bl !! at_blob_id a with Some b => String.eqb (bl_record_id b) rid | None => false end) ->
  Phases nobody (delete rid rc) (filter (fun kv : string * Blob => negb (String.eqb (bl_record_id kv.2) rid) = true) bl)
    (filter (fun kv : string * TransferAttempt => negb (gone kv.2) = true) at_).
Proof.
  intros HP Hgone. split.
  - intros k b Hk. apply map_lookup_filter_Some in Hk as [Hk Hb]. cbn in Hb. apply negb_true_iff, String.eqb_neq in Hb.
    destruct (ph_blob _ _ _ _ HP k b Hk) as [Hid (r & Hr & Hph & Hback)]. split; [done|].
    exists r. rewrite lookup_delete_ne by congruence. split_and!; [done|done|].
    intros Hst Ht. destruct (Hback Hst Ht) as (j & a & Hj & Ha & H1). exists j, a. split; [|done].
    apply map_lookup_filter_Some. split; [done|]. cbn. rewrite (Hgone _ _ Hj), Ha, Hk. by rewrite eqb_ne.
  - intros k a Hk. apply map_lookup_filter_Some in Hk as [Hk Hb]. cbn in Hb. rewrite (Hgone _ _ Hk) in Hb.
    destruct (ph_attempt _ _ _ _ HP k a Hk) as [? ? ? (b & Hbl & Hc)]. split; try done.
    exists b. split; [|done]. apply map_lookup_filter_Some. split; [done|]. cbn. by rewrite Hbl in Hb.
Qed.

(** A bulk update of attempts: a verified one may only be given up with its record. *)
Lemma phases_fmap_attempts X rc bl at_ (g : TransferAttempt -> TransferAttempt) :
  Phases X rc bl at_ ->
  (forall k a, at_ !! k = Some a -> at_blob_id (g a) = at_blob_id a /\ at_object_key (g a) = at_object_key a
     /\ attempt_ok bl k (g a)
     /\ (at_state a = VERIFIED -> at_state (g a) = VERIFIED \/
         exists b r, bl !! at_blob_id a = Some b /\ rc !! bl_record_id b = Some r /\ is_terminal (rec_state r) = true)) ->
  Phases X rc bl (g <$> at_).
Proof.
  intros HP Hg. split.
  - intros j b Hj. destruct (ph_blob _ _ _ _ HP j b Hj) as [Hid (r & Hr & Hph & Hback)]. split; [done|].
    exists r. split_and!; [done|done|]. intros Hst Ht. destruct (Hback Hst Ht) as (i & a & Hi & H1 & H2 & H3).
    destruct (Hg i a Hi) as (E1 & E2 & _ & Hv). exists i, (g a). rewrite lookup_fmap, Hi, E1, E2. split_and!; try done.
    destruct (Hv H2) as [|(b' & r' & Hb' & Hr' & Ht')]; [done|]. congruence.
  - intros k a Hk. rewrite lookup_fmap in Hk. destruct (at_ !! k) as [a0|] eqn:E; [|done]. injection Hk as <-.
    by apply (Hg k a0 E).
Qed.

Lemma phases_weaken X X' rc bl at_ : (forall k, X k -> X' k) -> Phases X rc bl at_ -> Phases X' rc bl at_.
Proof.
  intros HX HP. split; [|apply HP]. intros k b Hk.
  destruct (ph_blob _ _ _ _ HP k b Hk) as [Hid (r & Hr & [Q1 Q2 Q3 Q4] & Hback)]. split; [done|].
  exists r. split_and!; [done| |done]. split; try done. naive_solver.
Qed.
