(* ===== verification/Consistency.v ===== *)
(** * The accounts and life cycles are invariant

    Every transaction of the system preserves [Consistent]: the quota counters
    of each space are the sums over its records and attachments, and every
    attachment and attempt is in a phase its record allows.  One lemma per
    command that writes spaces, records, attachments or attempts. *)

From stdpp Require Import base gmap strings list fin_maps.
From Stdlib Require Import ZArith Lia.
From S2P Require Import Prelude Json Domain Schemas Profiles Models Storage Service Spaces Records Managed Coordination Transfers Uploads System Logic Accounting Lifecycle.

Definition Consistent_but (X : string -> Prop) (d : DB) : Prop :=
  Accounts (spaces d) (records d) (blobs d) /\ Phases X (records d) (blobs d) (attempts d).
Definition Consistent : DB -> Prop := Consistent_but nobody.

Abbreviation RC := (preserving Consistent).

#[export] Instance consistent_members : Ignores RC MEMBERS.
Proof. intros f d H. exact H. Qed.
#[export] Instance consistent_managed : Ignores RC MANAGED.
Proof. intros f d H. exact H. Qed.
#[export] Instance consistent_revocations : Ignores RC REVOCATIONS.
Proof. intros f d H. exact H. Qed.
#[export] Instance consistent_grants : Ignores RC GRANTS.
Proof. intros f d H. exact H. Qed.
#[export] Instance consistent_revisions : Ignores RC REVISIONS.
Proof. intros f d H. exact H. Qed.
#[export] Instance consistent_policies : Ignores RC POLICIES.
Proof. intros f d H. exact H. Qed.
#[export] Instance consistent_references : Ignores RC REFERENCES.
Proof. intros f d H. exact H. Qed.
#[export] Instance consistent_coordinations : Ignores RC COORDINATIONS.
Proof. intros f d H. exact H. Qed.
#[export] Instance consistent_inputs : Ignores RC INPUTS.
Proof. intros f d H. exact H. Qed.
#[export] Instance consistent_operations : Ignores RC OPERATIONS.
Proof. intros f d H. exact H. Qed.
#[export] Instance consistent_event_table : Ignores RC EVENTS.
Proof. intros f d H. exact H. Qed.
#[export] Instance consistent_events : IgnoresEvents RC.
Proof. intros f n d H. exact H. Qed.

(** An updated row of a table. *)
Lemma alter_row {K V} `{Countable K} (m : gmap K V) k v (f : V -> V) : m !! k = Some v -> alter f k m = <[k := f v]> m.
Proof. apply alter_alt_Some. Qed.

Section Commands.
Context {P : Platform}.

Lemma int_in_range lo hi v n : int_in lo hi v = Some n -> lo <= n <= hi.
Proof. destruct v; cbn; try done. destruct (_ && _) eqn:E; [|done]. intros [= <-]. bool_simpl. lia. Qed.

Lemma keeps_new_space sid name profile body s :
  new_space sid name profile body = Ok s -> keeps RC (add_row SPACES sid s).
Proof.
  unfold new_space, limit_of. intros H. apply keeps_add_row. intros d Hk [HA HP].
  destruct (int_in _ _ _) eqn:E1; [|done]. destruct (int_in 1 _ (get_or body "principal_quota_bytes" _)) eqn:E2; [|done].
  destruct (int_in 1 _ (get_or body "quota_records" _)) eqn:E3; [|done].
  destruct (int_in 1 _ (get_or body "quota_metadata_bytes" _)) eqn:E4; [|done]. injection H as <-.
  apply int_in_range in E1, E2, E3, E4. split; [|done]. apply accounts_new_space; try done; cbn; lia.
Qed.

Lemma keeps_create_space p body key : keeps RC (create_space p body key).
Proof.
  unfold create_space. keeping. eapply keeps_new_space. eassumption.
Qed.

(** [update_space_limits]: a limit never falls below what is in use. *)
Lemma set_limits_ok rc bl k usage space limits s : 0 <= reclaiming space ->
  existsb (fun nv => nv.2 <? limit_usage space usage nv.1) limits = false ->
  space_ok rc bl k s -> allocated s = allocated space -> reclaiming s = reclaiming space ->
  record_count s = record_count space -> metadata_bytes s = metadata_bytes space ->
  space_ok rc bl k (fold_left (fun s nv => set_limit nv.1 nv.2 s) limits s).
Proof.
  intros Hr. revert s. induction limits as [|[n v] limits IH]; cbn [fold_left existsb]; [done|].
  intros s He Hk Ha Hre Hc Hm. bool_simpl. cbn [fst snd] in *. unfold limit_usage in *. destruct Hk.
  apply IH; try done; unfold set_limit.
  all: destruct (String.eqb n "quota_bytes"), (String.eqb n "principal_quota_bytes"), (String.eqb n "quota_records"),
    (String.eqb n "quota_metadata_bytes"); try done; split; cbn; try done; lia.
Qed.

Lemma keeps_update_space_limits p sid body : keeps RC (update_space_limits p sid body).
Proof.
  unfold update_space_limits. keeping_outside.
  apply keeps_transaction_at. intros space row member w v w' Ho H [HA HP].
  run_all. split; [|exact HP]. cbn. rewrite (alter_row _ _ _ _ (op_space _ _ _ _ _ _ _ _ Ho)).
  apply (accounts_space _ _ _ _ space); [done|exact (op_space _ _ _ _ _ _ _ _ Ho)|].
  pose proof (acc_space _ _ _ HA _ _ (op_space _ _ _ _ _ _ _ _ Ho)) as Hs.
  eapply set_limits_ok; [|eassumption| |done..].
  - exact (reclaiming_nonneg HA _ _ (op_space _ _ _ _ _ _ _ _ Ho)).
  - by destruct Hs.
Qed.

(** [put_policy] *)
Lemma keeps_put_policy p sid kind body : keeps RC (put_policy p sid kind body).
Proof.
  unfold put_policy. keeping. apply keeps_bulk_update. intros d [HA HP]. split; cbn.
  - apply accounts_fmap_records; [done|]. intros r. by destruct (_ && _).
  - apply phases_fmap_records; [done|]. intros r. by destruct (_ && _).
Qed.

(** ** [release] *)
Definition unreleased (bs dn : list Blob) (k : string) : Prop := exists b, b ∈ bs /\ b ∉ dn /\ bl_id b = k.

(** The state of [release] after the attachments [dn]. *)
Definition releasing (rid : string) (r : Record_) (bs dn : list Blob) (d : DB) : Prop :=
  Consistent_but (unreleased bs dn) d /\ records d !! rid = Some r /\
  forall b, b ∈ bs -> b ∉ dn -> blobs d !! bl_id b = Some b.

(** The attempts of a stopped record's attachment, scheduled for cleanup. *)
Lemma phases_schedule X rc bl at_ k b r (g : TransferAttempt -> TransferAttempt) :
  Phases X rc bl at_ -> bl !! k = Some b -> rc !! bl_record_id b = Some r -> is_terminal (rec_state r) = true ->
  bl_state b <> CLEANED ->
  (forall a, at_id (g a) = at_id a /\ at_blob_id (g a) = at_blob_id a /\ at_object_key (g a) = at_object_key a
             /\ at_state (g a) = CLEANUP) ->
  Phases X rc bl ((fun a => if String.eqb (at_blob_id a) k && negb (bool_decide (at_state a = CLEANED)) then g a else a) <$> at_).
Proof.
  intros HP Hb Hr Ht Hst Hg. apply phases_fmap_attempts; [done|]. intros j a Hj.
  destruct (String.eqb (at_blob_id a) k && _) eqn:E.
  - apply andb_true_iff in E as [E _]. apply String.eqb_eq in E.
    destruct (Hg a) as (E1 & E2 & E3 & E4), (ph_attempt _ _ _ _ HP j a Hj) as [Hid _ _ _].
    split_and!; try done.
    + split; [congruence|congruence| |].
      * right. rewrite E4. unfold leased_state. set_solver.
      * exists b. rewrite E2, E. done.
    + intros _. right. exists b, r. rewrite E. done.
  - split_and!; try done; [|by left]. exact (ph_attempt _ _ _ _ HP j a Hj).
Qed.

Lemma release_blob_step rid r sid now bs dn b todo w w' :
  bs = dn ++ b :: todo -> NoDup bs -> (forall c, c ∈ bs -> bl_record_id c = rid) ->
  (forall c, c ∈ bs -> bl_id c = bl_id b -> c = b) ->
  is_terminal (rec_state r) = true -> rec_space_id r = sid ->
  releasing rid r bs dn (w_db w) -> release_blob sid now b w = (Ok tt, w') -> releasing rid r bs (dn ++ [b]) (w_db w').
Proof.
  intros Hbs Hnd Hall Hinj Ht Hsid ([HA HP] & Hr & Hcur) H.
  assert (Hin : b ∈ bs) by (rewrite Hbs; set_solver).
  assert (Hfresh : b ∉ dn).
  { intros Hdn. rewrite Hbs in Hnd. apply NoDup_app in Hnd as (_ & Hd & _). apply (Hd b Hdn). left. }
  assert (Hrest : forall c, c ∈ bs -> c ∉ dn ++ [b] -> c ∉ dn /\ bl_id c <> bl_id b).
  { intros c Hc Hn. rewrite not_elem_of_app in Hn. destruct Hn as [Hn Hn']. split; [done|].
    intros E. apply Hn'. rewrite list_elem_of_singleton. by apply Hinj. }
  assert (HX : forall j, j <> bl_id b -> unreleased bs dn j -> unreleased bs (dn ++ [b]) j).
  { intros j Hj (c & Hc & Hcd & <-). exists c. split_and!; try done.
    rewrite not_elem_of_app, list_elem_of_singleton. split; [done|]. naive_solver. }
  assert (Hdone : ~ unreleased bs (dn ++ [b]) (bl_id b)).
  { intros (c & Hc & Hcd & E). by apply Hrest in Hcd as [_ ?]. }
  pose proof (Hcur b Hin Hfresh) as Hb. pose proof (Hall b Hin) as Hrec.
  destruct (acc_blob _ _ _ HA _ _ Hb) as [_ Hsz (r' & Hr' & Hsp)]. rewrite Hrec, Hr in Hr'. injection Hr' as <-.
  destruct (ph_blob _ _ _ _ HP _ _ Hb) as [Hid (r' & Hr' & [Q1 Q2 Q3 Q4] & Hback)]. rewrite Hrec, Hr in Hr'.
  injection Hr' as <-.
  assert (Hcur' : forall b' c, c ∈ bs -> c ∉ (dn ++ [b]) -> <[bl_id b := b']> (blobs (w_db w)) !! bl_id c = Some c).
  { intros b' c Hc Hn. destruct (Hrest c Hc Hn). rewrite lookup_insert_ne by congruence. by apply Hcur. }
  destruct (acc_record _ _ _ HA _ _ Hr) as [_ [s Hs] _ _].
  clear Hbs. unfold release_blob in H. run_all.
  - (* no attempts *)
    bool_simpl. split; [split|split; [done|cbn; rewrite (alter_row _ _ _ _ Hb); by apply Hcur']];
      cbn; rewrite (alter_row _ _ _ _ Hb).
    + by apply (accounts_blob_neutral _ _ _ _ b).
    + apply (phases_blob (unreleased bs dn) _ _ _ _ _ b); try done.
      * split; [done|]. exists r. cbn. rewrite Hr. split_and!; [done| |by intros E].
        split; cbn; [done|by split|by right|]. intros E. by rewrite E in Ht.
      * intros _ j a Hj Ha. exfalso. match goal with H : rows _ _ = [] |- _ => rename H into Hrows end.
        pose proof (proj1 (rows_nil _ _) Hrows j a Hj) as E. cbn in E. by rewrite Ha, eqb_refl_true in E.
  - (* its bytes wait for reclamation *)
    bool_simpl. rewrite Hsp in Hs. rewrite Hsp.
    split; [split|split; [done|cbn; rewrite (alter_row _ _ _ _ Hb); by apply Hcur']];
      cbn; rewrite (alter_row _ _ _ _ Hb).
    + rewrite (alter_row _ _ _ _ Hs). apply accounts_blob with (s := s); try done.
      unfold pending_in. cbn. rewrite eqb_refl_true. match goal with H : bl_pending_deletion b = false |- _ => rewrite H end.
      destruct s; cbn. unfold update. cbn. f_equal. lia.
    + apply (phases_schedule _ _ _ _ (bl_id b) (b <| bl_pending_deletion := true |>
        <| bl_expires_at := Z.max now (bl_grant_expires_at b) |>) r); cbn; try done.
      * apply (phases_blob (unreleased bs dn) _ _ _ _ _ b); try done.
        -- split; [done|]. exists r. cbn. rewrite Hr. split_and!; [done| |by unfold backed; cbn; congruence].
           split; cbn; [done|done|by left|]. intros E. by rewrite E in Ht.
      * by rewrite lookup_insert_eq.
  - (* already released *)
    split; [|split; [done|]].
    + split; [done|]. rewrite <- (insert_id (blobs (w_db w)) _ _ Hb).
      apply (phases_blob (unreleased bs dn) _ _ _ _ _ b); try done.
      * split; [done|]. exists r. split_and!; [done| |done]. split; try done.
        intros _ _. match goal with H : _ && _ = false |- _ => apply andb_false_iff in H as [H|H]; bool_simpl; auto end.
      * intros E j a Hj Ha. destruct (ph_attempt _ _ _ _ HP j a Hj) as [_ _ _ (c & Hc & Hcc)].
        rewrite Ha, Hb in Hc. injection Hc as <-. by apply Hcc.
    + intros c Hc Hn. apply Hcur; [done|]. by destruct (Hrest c Hc Hn).
Qed.

Lemma release_consistent sid rid st u w w' :
  is_terminal st = true -> (forall r, records (w_db w) !! rid = Some r -> rec_space_id r = sid) ->
  release sid rid st w = (Ok u, w') -> Consistent (w_db w) -> Consistent (w_db w').
Proof.
  intros Hst Hsid H HC. unfold release in H. run_all; [done|].
  match goal with H : records _ !! _ = Some _ |- _ => rename H into Hr end.
  match goal with H : for_each _ _ _ = _ |- _ => rename H into Hloop end.
  match type of Hr with _ = Some ?x => rename x into r end. rename HC into HC0. pose proof HC0 as [HA HP].
  specialize (Hsid r Hr). subst sid.
  destruct (acc_record _ _ _ HA _ _ Hr) as [Hid [s Hs] Hmeta Hdecl].
  pose proof (acc_space _ _ _ HA _ _ Hs) as Hsok. pose proof (declared_nonneg HA _ _ Hr) as Hd0.
  set (r' := r <| rec_state := st |> <| rec_generation ::= Z.succ |>) in *.
  set (bs := rows (fun b => String.eqb (bl_record_id b) rid) (blobs (w_db w))).
  match type of Hloop with for_each ?l _ _ = _ => change l with bs in Hloop end.
  eapply (for_each_ok_prefix _ _ (fun dn w => releasing rid r' bs dn (w_db w))) in Hloop.
  - destruct Hloop as [[HA' HP'] _]. split; [exact HA'|]. cbn. eapply phases_weaken; [|exact HP'].
    intros k (b & Hb & Hn & _). exact (Hn Hb).
  - split; [split|split]; cbn; rewrite ?(alter_row _ _ _ _ Hr), ?(alter_row _ _ _ _ Hs).
    + apply (accounts_record _ _ _ _ r _ s); cbn; try done.
      * lia.
      * unfold live_in, r'. cbn. rewrite eqb_refl_true, Hst, Heqb. cbn. lia.
      * destruct Hsok. lia.
      * apply Hsok.
      * apply Hsok.
    + eapply phases_weaken; [|apply (phases_stop _ _ _ _ r); try done].
      intros k (b & Hb & Hrec). exists b. split_and!; [|set_solver|exact (bh_id _ _ _ (acc_blob _ _ _ HA _ _ Hb))].
      apply elem_of_rows. split; [cbn; by apply String.eqb_eq|eauto].
    + by rewrite lookup_insert_eq.
    + intros b Hb _. apply elem_of_rows in Hb as [_ (k & Hk)]. by rewrite (bh_id _ _ _ (acc_blob _ _ _ HA _ _ Hk)).
  - intros dn b todo w1 w2 Hl HR Hstep. cbn in Hl.
    assert (Hrow : forall c, c ∈ bs ->
              bl_record_id c = rid /\ blobs (w_db w) !! bl_id c = Some c).
    { intros c Hc. apply elem_of_rows in Hc as [Hc (k & Hk)]. apply String.eqb_eq in Hc.
      split; [done|]. by rewrite (bh_id _ _ _ (acc_blob _ _ _ HA _ _ Hk)). }
    eapply release_blob_step; [exact Hl| | | |exact Hst| |exact HR|exact Hstep].
    + apply (rows_NoDup _ _ bl_id). intros k c Hc. exact (bh_id _ _ _ (acc_blob _ _ _ HA _ _ Hc)).
    + intros c Hc. by apply Hrow.
    + intros c Hc E. assert (Hb : b ∈ bs) by (rewrite Hl; set_solver).
      apply Hrow in Hc as [_ Hc], Hb as [_ Hb]. rewrite E in Hc. congruence.
    + done.
Qed.

(** The space of each record, which no release changes. *)
Definition same_spaces (d d' : DB) : Prop :=
  forall k, rec_space_id <$> records d' !! k = rec_space_id <$> records d !! k.
#[local] Instance same_spaces_preorder : PreOrder same_spaces.
Proof. split; [by intros d k|]. intros d1 d2 d3 H1 H2 k. by rewrite H2. Qed.
#[local] Instance same_spaces_blobs : Ignores same_spaces BLOBS.
Proof. by intros f d k. Qed.
#[local] Instance same_spaces_attempts : Ignores same_spaces ATTEMPTS.
Proof. by intros f d k. Qed.
#[local] Instance same_spaces_spaces : Ignores same_spaces SPACES.
Proof. by intros f d k. Qed.
#[local] Instance same_spaces_events : IgnoresEvents same_spaces.
Proof. by intros f n d k. Qed.

Lemma release_same_spaces sid rid st : keeps same_spaces (release sid rid st).
Proof.
  unfold release, release_blob. keeping. apply keeps_set_row. intros d k. cbn.
  destruct (decide (k = rid)) as [->|]; [|by rewrite lookup_alter_ne].
  rewrite lookup_alter_eq. by destruct (records d !! rid).
Qed.

Lemma withdrawn_terminal r : is_terminal (withdrawn_state r) = true.
Proof. unfold withdrawn_state. by destruct (bool_decide _). Qed.

Lemma keeps_withdraw p sid rid : keeps RC (withdraw_record p sid rid).
Proof.
  apply keeps_transaction_at. intros space row member w v w' Ho H HC. unfold record_in_space in H.
  assert (forall r k, records (w_db w) !! k = Some r -> records (w_db w) !! rec_id r = Some r) as Hkey.
  { intros r k Hk. by rewrite (ro_id _ _ _ _ (acc_record _ _ _ (proj1 HC) _ _ Hk)). }
  run_all.
  all: match goal with H : release ?s (rec_id ?r) ?st _ = _ |- _ =>
    apply release_consistent in H; [exact H|apply withdrawn_terminal| |exact HC] end.
  all: cbn; intros r' Hr'.
  all: match goal with H : records _ !! ?k = Some ?r, H' : records _ !! rec_id ?r = _ |- _ =>
    rewrite (Hkey _ _ H) in H'; injection H' as <- end.
  all: try done.
  by apply String.eqb_eq.
Qed.

(** [retire_managed_space] stops every record of the space. *)
Lemma keeps_withdraw_all sid : keeps RC (withdraw_all sid).
Proof.
  intros w u w' Hrun HC. unfold withdraw_all in Hrun. run_ok. rename H0 into H.
  set (rs := rows _ _) in H.
  assert (Hrs : forall r, r ∈ rs -> rec_space_id <$> records (w_db w) !! rec_id r = Some sid).
  { intros r Hr. apply elem_of_rows in Hr as [E (k & Hk)]. apply String.eqb_eq in E.
    rewrite (ro_id _ _ _ _ (acc_record _ _ _ (proj1 HC) _ _ Hk)), Hk. cbn. by rewrite E. }
  clearbody rs.
  enough (HP : Consistent (w_db w') /\ same_spaces (w_db w) (w_db w')) by exact (proj1 HP).
  eapply (for_each_ok _ _ (fun w1 => Consistent (w_db w1) /\ same_spaces (w_db w) (w_db w1))); [exact H|by split|].
  intros r w1 w2 Hr [HC1 HS] Hrel. split.
  - eapply release_consistent; [apply withdrawn_terminal| |exact Hrel|exact HC1].
    intros r' Hr'. specialize (HS (rec_id r)). rewrite Hr', (Hrs r Hr) in HS. by injection HS.
  - transitivity (w_db w1); [done|]. exact (release_same_spaces _ _ _ _ _ _ Hrel).
Qed.
#[local] Hint Resolve keeps_withdraw_all : keeps.

Lemma keeps_retire p sid body key : keeps RC (retire_managed_space p sid body key).
Proof. unfold retire_managed_space. keeping. Qed.

(** ** Records: patch, publication, creation, purge *)

Lemma keeps_patch p sid rid body v : keeps RC (patch_record p sid rid body v).
Proof.
  apply keeps_transaction_at. intros space row member w a w' Ho H [HA HP].
  pose proof (op_space _ _ _ _ _ _ _ _ Ho) as Hs. unfold check_draft in H.
  run_all;
    match goal with H : validate_metadata _ _ = Ok _ |- _ => apply validate_metadata_bounds in H end;
    match goal with H : records _ !! _ = Some ?x, _ : rec_creator ?x = _ |- _ => rename H into Hr; rename x into r end;
    pose proof (acc_space _ _ _ HA _ _ Hs) as Hok; bool_simpl;
    (split; cbn; rewrite ?(alter_row _ _ _ _ Hr), ?(alter_row _ _ _ _ Hs); [|by apply (phases_record_neutral _ _ _ _ _ r)]);
    (apply (accounts_record _ _ _ _ r _ space); cbn; try done; try lia; try apply Hok; unfold live_in; cbn; lia).
Qed.

(** Publication. *)
Lemma publish_consistent space member p sid r policy w v w' :
  records (w_db w) !! rec_id r = Some r ->
  publish_record_action space member p sid r policy w = (Ok v, w') -> Consistent (w_db w) -> Consistent (w_db w').
Proof.
  intros Hr H [HA HP]. unfold publish_record_action, check_draft in H. run_all;
    match goal with H : existsb blob_unverified _ = false |- _ => rename H into Hver end;
    match goal with H : negb (bool_decide (rec_state r = DRAFT)) = false |- _ => rename H into Hd end; bool_simpl;
    (split; cbn; rewrite ?(alter_row _ _ _ _ Hr);
     [apply (accounts_record_neutral _ _ _ _ r); cbn; try done; by rewrite Hd|]);
    (apply (phases_publish _ _ _ _ r); try done; intros k b Hk Hb; destruct (blob_unverified b) eqn:E; [exfalso|done];
     apply Bool.not_true_iff_false in Hver; apply Hver, existsb_exists; exists b; split; [|done];
     apply list_elem_of_In, elem_of_rows; split; [|by eauto]; rewrite Hb; apply eqb_refl_true).
Qed.

Lemma keeps_publish p sid rid key : keeps RC (publish_record p sid rid key).
Proof.
  apply keeps_transaction_at. intros space row member w a w' Ho H HC. run_all.
  once_cases; [done|].
  match goal with H : publish_record_action _ _ _ _ _ _ _ = _ |- _ =>
    eapply publish_consistent in H; [exact H| |exact HC] end.
  by rewrite (ro_id _ _ _ _ (acc_record _ _ _ (proj1 HC) _ _ H4)).
Qed.

(** Creation: the attachments of [create_record] are those it declared. *)
Fixpoint declared (ds : list Declaration) : Z := match ds with [] => 0 | d :: ds => dc_size d + declared ds end.

Lemma check_attachments_ok l paths amount ds total :
  check_attachments l paths amount = Ok (ds, total) ->
  total = amount + declared ds /\ Forall (fun d => 0 <= dc_size d) ds.
Proof.
  revert paths amount ds total. induction l as [|a l IH]; intros paths amount ds total; cbn.
  - intros [= <- <-]. cbn. split; [lia|constructor].
  - destruct (as_dict a) as [kvs|]; [|done]. destruct (validate_path _) as [path|]; [|done].
    destruct (existsb _ _); [done|]. destruct (int_in _ _ _) as [n|] eqn:En; [|done].
    destruct (get_or_none kvs "sha256"); try done. destruct (_ || _); [done|].
    destruct (check_attachments l _ _) as [[ds' total']|] eqn:E; [|done]. intros [= <- <-].
    apply IH in E as [-> Hall]. apply int_in_range in En. cbn. split; [lia|]. constructor; [cbn; lia|done].
Qed.

Lemma add_blobs_ok sid rid e ds u w w' bl0 total :
  for_each ds (add_blob sid rid e) w = (Ok u, w') -> Forall (fun d => 0 <= dc_size d) ds ->
  adds_blobs rid sid bl0 (blobs (w_db w)) total ->
  w_db w' = (w_db w) <| blobs := blobs (w_db w') |> /\ adds_blobs rid sid bl0 (blobs (w_db w')) (total + declared ds).
Proof.
  revert w total u. induction ds as [|d ds IH]; intros w total u H Hall Hadd; cbn in H.
  - run_ok. split; [by destruct (w_db w)|]. cbn. by rewrite Z.add_0_r.
  - inversion Hall as [|? ? Hd Hall']; subst. apply bind_ok in H as ([] & w1 & H1 & H2).
    unfold add_blob in H1. run_ok. eapply IH in H2 as [E HA]; [|done|].
    + split; [rewrite E; cbn; done|]. cbn in HA. cbn. rewrite Z.add_assoc. exact HA.
    + cbn. apply (adds_blobs_step _ _ _ _ _ _ (new_blob sid rid e d (uuid4_hex (w_uuid w)))); done.
Qed.

Lemma create_record_consistent space member p sid body w v w' :
  spaces (w_db w) !! sid = Some space ->
  create_record_action space member p sid body w = (Ok v, w') -> Consistent (w_db w) -> Consistent (w_db w').
Proof.
  intros Hs H [HA HP]. unfold create_record_action in H. run_all;
    match goal with H : validate_metadata _ _ = Ok _ |- _ => apply validate_metadata_bounds in H end;
    match goal with H : check_attachments _ _ _ = Ok _ |- _ => apply check_attachments_ok in H as [Htotal Hall] end;
    match goal with H : for_each _ (add_blob _ _ _) _ = _ |- _ =>
      eapply add_blobs_ok in H as [E Hadd]; [|exact Hall|apply adds_no_blobs] end;
    pose proof (acc_space _ _ _ HA _ _ Hs) as Hok; pose proof (reclaiming_nonneg HA _ _ Hs);
    bool_simpl; cbn in E, Hadd;
    (split; cbn; rewrite E; cbn; rewrite ?(alter_row _ _ _ _ Hs);
     [eapply (accounts_new_record _ _ _ _ _ _ _ space)|eapply phases_new_record]);
    try eassumption; cbn; try done; try lia;
    first [rewrite Htotal; exact Hadd | destruct space; unfold update; cbn; f_equal; lia].
Qed.

Lemma keeps_create_record p sid body key : keeps RC (create_record p sid body key).
Proof.
  apply keeps_transaction_at. intros space row member w a w' Ho H HC. run_ok. once_cases; [done|].
  match goal with H : create_record_action _ _ _ _ _ _ = _ |- _ =>
    eapply create_record_consistent in H; [exact H|exact (op_space _ _ _ _ _ _ _ _ Ho)|exact HC] end.
Qed.

(** Purge. *)
Lemma keeps_purge p sid rid : keeps RC (purge_record p sid rid).
Proof.
  apply keeps_transaction_at. intros space row member w a w' Ho H [HA HP]. unfold record_in_space in H.
  pose proof (op_space _ _ _ _ _ _ _ _ Ho) as Hs. run_all.
  match goal with H : records _ !! rid = Some _ |- _ => rename H into Hr end. bool_simpl.
  match goal with H : existsb (fun b => negb (bool_decide (bl_state b = CLEANED))) _ = false |- _ => rename H into Hcl end.
  assert (Hclean : forall k b, blobs (w_db w) !! k = Some b -> bl_record_id b = rid -> bl_state b = CLEANED).
  { intros k b Hk Hb. destruct (decide (bl_state b = CLEANED)) as [|Hn]; [done|]. exfalso.
    apply Bool.not_true_iff_false in Hcl. apply Hcl, existsb_exists. exists b. rewrite bool_decide_eq_false_2 by done.
    split; [|done]. apply list_elem_of_In, elem_of_rows. rewrite (ro_id _ _ _ _ (acc_record _ _ _ HA _ _ Hr)), Hb.
    split; [apply eqb_refl_true|by eauto]. }
  pose proof (ro_id _ _ _ _ (acc_record _ _ _ HA _ _ Hr)) as Hid. rewrite Hid.
  match goal with H : String.eqb _ _ = true |- _ => apply String.eqb_eq in H; rewrite <- H in * end.
  split; cbn; rewrite ?(alter_row _ _ _ _ Hs).
  - apply (accounts_purge _ _ _ _ r space); try done. intros k b Hk Hb.
    destruct (ph_blob _ _ _ _ HP k b Hk) as [_ (x & _ & Hph & _)]. by apply (bp_cleaned _ _ _ Hph), (Hclean k).
  - apply (phases_purge _ _ _ _ (fun a => mem_str (at_blob_id a)
      (map bl_id (rows (fun b => String.eqb (bl_record_id b) rid) (blobs (w_db w)))))); [done|]. intros k a Hk.
    destruct (ph_attempt _ _ _ _ HP k a Hk) as [_ _ _ (b & Hb & _)]. rewrite Hb. unfold mem_str.
    destruct (String.eqb (bl_record_id b) rid) eqn:E; [apply bool_decide_eq_true_2|apply bool_decide_eq_false_2].
    + rewrite <- (bh_id _ _ _ (acc_blob _ _ _ HA _ _ Hb)). apply list_elem_of_fmap_2, elem_of_rows. by eauto.
    + intros Hin. apply list_elem_of_fmap in Hin as (c & Ec & Hc). apply elem_of_rows in Hc as [Ec' (j & Hj)].
      rewrite (bh_id _ _ _ (acc_blob _ _ _ HA _ _ Hj)) in Ec. subst j. congruence.
Qed.
End Commands.
