(* ===== verification/TransferConsistency.v ===== *)
(** * Transfers preserve the accounts and life cycles

    [Consistent] is preserved by every transaction of a transfer, for any
    snapshot of the attempt it was started with: leases, commits, retries,
    settled and abandoned mutations, repairs and pruning. *)

From stdpp Require Import base gmap strings list fin_maps sorting relations.
From Stdlib Require Import ZArith Lia.
From S2P Require Import Prelude Json Domain Schemas Profiles Models Storage Service Spaces Records Managed Coordination Transfers Uploads System Logic Accounting Lifecycle Consistency.

Lemma attempt_move bl k a a' :
  attempt_ok bl k a -> at_id a' = at_id a -> at_blob_id a' = at_blob_id a ->
  (at_state a' = CLEANED -> at_mutation_tokens a' = []) ->
  (at_token a' = None \/ leased_state (at_state a')) ->
  (forall b, bl !! at_blob_id a = Some b -> bl_state b = CLEANED -> at_state a' = CLEANED) ->
  attempt_ok bl k a'.
Proof.
  intros [Hid _ _ (b & Hb & _)] Hid' Hbl Hcl Htok Hst. split; [congruence|done|done|].
  exists b. rewrite Hbl. split; [done|]. by apply Hst.
Qed.

(** Columns of an attempt no phase depends on; its token may be dropped. *)
Definition attempt_columns (a a' : TransferAttempt) : Prop :=
  at_id a' = at_id a /\ at_blob_id a' = at_blob_id a /\ at_object_key a' = at_object_key a /\ at_state a' = at_state a /\
  (at_mutation_tokens a = [] -> at_mutation_tokens a' = []) /\ (at_token a' = at_token a \/ at_token a' = None).

Lemma attempt_columns_ok bl k a a' : attempt_ok bl k a -> attempt_columns a a' -> attempt_ok bl k a'.
Proof.
  intros Ha (H1 & H2 & H3 & H4 & H5 & H6). apply (attempt_move _ _ a); try done; destruct Ha as [Hid Hcl Htok (b & Hb & Hc)].
  - intros E. apply H5, Hcl. congruence.
  - rewrite H4. destruct H6 as [-> | ->]; [done|by left].
  - intros c Hc' E. rewrite Hb in Hc'. injection Hc' as <-. rewrite H4. by apply Hc.
Qed.

Lemma phases_attempt_neutral X rc bl at_ k a a' :
  Phases X rc bl at_ -> at_ !! k = Some a -> attempt_columns a a' -> Phases X rc bl (<[k := a']> at_).
Proof.
  intros HP Hk Hc. pose proof Hc as (_ & H2 & H3 & H4 & _). apply (phases_attempt _ _ _ _ _ a); try done.
  - exact (attempt_columns_ok _ _ _ _ (ph_attempt _ _ _ _ HP _ _ Hk) Hc).
  - by rewrite H4.
Qed.

Lemma phases_attempts_neutral X rc bl at_ (g : TransferAttempt -> TransferAttempt) :
  Phases X rc bl at_ -> (forall a, attempt_columns a (g a)) -> Phases X rc bl (g <$> at_).
Proof.
  intros HP Hg. apply phases_fmap_attempts; [done|]. intros k a Hk. pose proof (Hg a) as Hc.
  pose proof Hc as (_ & H2 & H3 & H4 & _). split_and!; try done.
  - exact (attempt_columns_ok _ _ _ _ (ph_attempt _ _ _ _ HP _ _ Hk) Hc).
  - rewrite H4. by left.
Qed.

Section Transfers.
Context {P : Platform}.

Lemma latest_in l a : latest l = Some a -> a ∈ l.
Proof.
  unfold latest. enough (G : forall best, fold_left (fun best a => match best with
      | Some b => if later_than a b then Some a else best | None => Some a end) l best = Some a ->
      best = Some a \/ a ∈ l) by (intros H; by destruct (G None H)).
  induction l as [|x l IH]; cbn; intros best H; [by left|].
  apply IH in H as [H|H]; [|right; by right].
  destruct best as [b|]; [destruct (later_than x b)|]; try (injection H as <-; right; left); by left.
Qed.

Lemma active_ok b o w w' : active b w = (Ok o, w') ->
  w' = w /\ forall a, o = Some a -> exists k, attempts (w_db w) !! k = Some a /\ active_upload (bl_id b) a = true.
Proof.
  unfold active. intros H. run_ok. split; [done|]. intros a Ha. apply latest_in, elem_of_rows in Ha as [? (k & Hk)]. eauto.
Qed.

Lemma attachment_of_ok sid rid bid m p write rb w w' : attachment_of sid rid bid m p write w = (Ok rb, w') ->
  w' = w /\ records (w_db w) !! rid = Some rb.1 /\ rec_space_id rb.1 = sid /\
  (if write then rec_creator rb.1 = pr_id p else visible_clause m p rb.1 = true) /\
  blobs (w_db w) !! bid = Some rb.2 /\ bl_space_id rb.2 = sid /\ bl_record_id rb.2 = rid.
Proof. unfold attachment_of. intros H. run_ok. by split_and!. Qed.

Lemma the_ok {A} (o : option A) a w w' : the o w = (Ok a, w') -> o = Some a /\ w' = w.
Proof. destruct o; cbn; intros H; inv_ok; by subst. Qed.

Lemma uploading_some o a : uploading o = Some a -> o = Some a /\ at_state a = UPLOADING.
Proof. destruct o as [x|]; cbn; [|done]. case_bool_decide; [|done]. by intros [= <-]. Qed.
End Transfers.

Ltac run_hook ::=
  match goal with
  | H : active _ _ = (Ok _, _) |- _ =>
      let A := fresh "Hactive" in apply active_ok in H as [? A]
  | H : attachment_of _ _ _ _ _ _ _ = (Ok _, _) |- _ => apply attachment_of_ok in H as (? & ? & ? & ? & ? & ? & ?); cbn [fst snd] in *
  | H : the _ _ = (Ok _, _) |- _ => apply the_ok in H as [? ?]
  end.

Section Commands.
Context {P : Platform} {B : BlobStore}.

(** ** Neutral updates *)
Lemma keeps_heartbeat a : keeps RC (heartbeat_body a).
Proof.
  unfold heartbeat_body. keeping. apply keeps_bulk_update. intros d [HA HP]. split; [done|]. cbn.
  apply phases_attempts_neutral; [done|]. intros b. destruct (_ && _); repeat split; cbn; auto.
Qed.

Lemma keeps_release_lease a : keeps RC (release_lease_body a).
Proof.
  apply keeps_bulk_update. intros d [HA HP]. split; [done|]. cbn.
  apply phases_attempts_neutral; [done|]. intros b. destruct (_ && _); repeat split; cbn; auto.
Qed.

(** A signed expiry recorded on an attempt and its attachment. *)
Lemma consistent_expiry d k a bid b e :
  Consistent d -> attempts d !! k = Some a -> blobs d !! bid = Some b ->
  Consistent (d <| attempts ::= alter (fun a => a <| at_grant_expires_at ::= Z.max e |>) k |>
                <| blobs ::= alter (fun b => b <| bl_grant_expires_at ::= Z.max e |>) bid |>).
Proof.
  intros [HA HP] Ha Hb. split; cbn; rewrite ?(alter_row _ _ _ _ Ha), ?(alter_row _ _ _ _ Hb).
  - by apply (accounts_blob_neutral _ _ _ _ b).
  - apply (phases_blob_neutral _ _ _ _ _ b); [|done|by repeat split].
    apply (phases_attempt_neutral _ _ _ _ _ a); [done|done|]. repeat split; cbn; auto.
Qed.

Lemma blob_key d k b : Consistent d -> blobs d !! k = Some b -> bl_id b = k.
Proof. intros [HA _] H. exact (bh_id _ _ _ (acc_blob _ _ _ HA _ _ H)). Qed.
Lemma attempt_key d k a : Consistent d -> attempts d !! k = Some a -> at_id a = k.
Proof. intros [_ HP] H. exact (ao_id _ _ _ (ph_attempt _ _ _ _ HP _ _ H)). Qed.

Lemma keeps_grants_record sid rid bid p aid e m : keeps RC (grants_record sid rid bid p aid e m).
Proof.
  intros w u w' H HC. unfold grants_record in H. run_all.
  match goal with H : uploading _ = Some _ |- _ => apply uploading_some in H as [H _] end.
  eapply consistent_expiry; [exact HC|eassumption|]. cbn. erewrite blob_key; [eassumption|exact HC|eassumption].
Qed.

Lemma keeps_gateway_confirm p sid rid bid h e m : keeps RC (gateway_confirm p sid rid bid h e m).
Proof.
  intros w u w' H HC. unfold gateway_confirm in H. run_all. bool_simpl.
  destruct (uploading _) as [c|] eqn:Hu; [|done]. apply uploading_some in Hu as [Hu _].
  eapply consistent_expiry; [exact HC|eassumption|]. cbn. erewrite blob_key; [eassumption|exact HC|eassumption].
Qed.

Lemma keeps_record_download sid rid bid p e m : keeps RC (record_download sid rid bid p e m).
Proof.
  intros w u w' H HC. unfold record_download, downloadable in H. run_all.
  - destruct (Hactive _ eq_refl) as (k & Hk & _). cbn in Hk. apply (consistent_expiry (w_db w) (at_id t) t (bl_id b) b); [done| |].
    + by rewrite (attempt_key _ _ _ HC Hk).
    + erewrite blob_key; [eassumption|done|eassumption].
  - destruct HC as [HA HP]. rewrite (bh_id _ _ _ (acc_blob _ _ _ HA _ _ H7)). split; cbn; rewrite (alter_row _ _ _ _ H7).
    + by apply (accounts_blob_neutral _ _ _ _ b).
    + by apply (phases_blob_neutral _ _ _ _ _ b).
Qed.

Lemma keeps_gateway_fence p sid rid bid n m : keeps RC (gateway_fence p sid rid bid n m).
Proof.
  intros w v w' H HC. unfold gateway_fence in H. run_all.
  match goal with H : uploading _ = Some _ |- _ => apply uploading_some in H as [-> Hst] end.
  destruct (Hactive _ eq_refl) as (k & Hk & _). pose proof (attempt_key _ _ _ HC Hk) as <-. destruct HC as [HA HP].
  split; [done|]. cbn. rewrite (alter_row _ _ _ _ Hk).
  apply (phases_attempt _ _ _ _ _ t); try done; cbn; try congruence.
  apply (attempt_move _ _ t); try done; cbn; try congruence.
  - exact (ph_attempt _ _ _ _ HP _ _ Hk).
  - exact (ao_token _ _ _ (ph_attempt _ _ _ _ HP _ _ Hk)).
  - intros c Hc E. destruct (ph_attempt _ _ _ _ HP _ _ Hk) as [_ _ _ (c' & Hc' & Hcc)].
    rewrite Hc in Hc'. injection Hc' as <-. by apply Hcc.
Qed.

(** ** Uploads opened and closed *)
Lemma new_attempt_consistent b now r a w w' :
  new_attempt b now w = (Ok a, w') -> Consistent (w_db w) ->
  (exists b0, blobs (w_db w) !! bl_id b = Some b0 /\ bl_record_id b0 = bl_record_id b) ->
  records (w_db w) !! bl_record_id b = Some r -> rec_state r = DRAFT ->
  Consistent (w_db w') /\ attempts (w_db w') !! at_id a = Some a.
Proof.
  intros H [HA HP] (b0 & Hb & Hb0) Hr Hd. unfold new_attempt in H. run_ok.
  destruct (live_blob_not_cleaned HP _ b0 r Hb) as [Hnc Hnp]; [by rewrite Hb0|by rewrite Hd|].
  split; [|cbn; by rewrite lookup_insert_eq]. split; cbn; rewrite (alter_row _ _ _ _ Hb).
  - by apply (accounts_blob_neutral _ _ _ _ b0).
  - apply (phases_live_blob _ _ _ _ b0 _ r); try done.
    + apply phases_new_attempt; [done|done|]. split; cbn; try done.
      * right. unfold leased_state. set_solver.
      * exists b0. by split.
    + by rewrite Hb0.
Qed.

Lemma keeps_initiate sid rid bid p m : keeps RC (initiate_body sid rid bid p m).
Proof.
  intros w v w' H HC. unfold initiate_body in H. run_all; try done.
  match goal with H : new_attempt _ _ _ = _ |- _ => eapply new_attempt_consistent in H as [H _]; [exact H|..] end.
  - done.
  - cbn. erewrite (blob_key _ _ _ HC); [|eassumption]. eauto.
  - cbn. eassumption.
  - bool_simpl. done.
Qed.

Lemma keeps_complete sid rid bid p m : keeps RC (complete_body sid rid bid p m).
Proof.
  intros w v w' H HC. unfold complete_body in H. run_all; try done.
  match goal with H : uploading _ = Some _ |- _ => apply uploading_some in H as [-> Hst] end.
  destruct (Hactive _ eq_refl) as (k & Hk & Hact). pose proof (attempt_key _ _ _ HC Hk) as <-.
  match goal with H : blobs _ !! bid = Some ?x |- _ => rename H into Hb; pose proof (blob_key _ _ _ HC Hb) as <- end.
  destruct HC as [HA HP]. bool_simpl. split; cbn; rewrite (alter_row _ _ _ _ Hb), ?(alter_row _ _ _ _ Hk).
  - by eapply accounts_blob_neutral.
  - eapply phases_live_blob; try done.
    apply (phases_attempt _ _ _ _ _ t); try done; [|cbn; congruence].
    unfold active_upload in Hact. bool_simpl. 
    apply (attempt_move _ _ t); try done; cbn.
    + exact (ph_attempt _ _ _ _ HP _ _ Hk).
    + right. unfold leased_state. set_solver.
    + intros c Hc E. exfalso.
      match goal with H : String.eqb (at_blob_id t) _ = true |- _ => apply String.eqb_eq in H; rewrite H, Hb in Hc end.
      injection Hc as <-. by eapply (live_blob_not_cleaned HP) in E; [|eassumption|eassumption|by match goal with H : rec_state _ = DRAFT |- _ => rewrite H end].
Qed.

(** ** Attempts given up *)

(** An attempt is given up while its attachment is live or already waits for reclamation. *)
Lemma give_up_attempt d k a b r f :
  Consistent d -> attempts d !! k = Some a -> blobs d !! at_blob_id a = Some b -> records d !! bl_record_id b = Some r ->
  at_id (f a) = at_id a -> at_blob_id (f a) = at_blob_id a -> at_object_key (f a) = at_object_key a ->
  at_state (f a) = CLEANUP -> is_terminal (rec_state r) && negb (bl_pending_deletion b) = false ->
  (at_state a = VERIFIED -> is_terminal (rec_state r) = true) ->
  Consistent (d <| attempts ::= alter f k |>).
Proof.
  intros [HA HP] Hk Hb Hr H1 H2 H3 H4 Hcase Hv. split; [done|]. cbn. rewrite (alter_row _ _ _ _ Hk).
  apply (phases_give_up _ _ _ _ a _ b r); try done. intros E.
  destruct (ph_blob _ _ _ _ HP _ _ Hb) as [_ (r' & Hr' & Hph & _)]. rewrite Hr in Hr'. injection Hr' as <-.
  destruct (bp_cleaned _ _ _ Hph E) as [Ht Hp]. by rewrite Ht, Hp in Hcase.
Qed.

(** An attempt of a stopped record is given up: its attachment's bytes are charged again. *)
Lemma give_up_stopped d k a b r f :
  Consistent d -> attempts d !! k = Some a -> blobs d !! at_blob_id a = Some b -> records d !! bl_record_id b = Some r ->
  at_id (f a) = at_id a -> at_blob_id (f a) = at_blob_id a -> at_object_key (f a) = at_object_key a ->
  at_state (f a) = CLEANUP -> is_terminal (rec_state r) = true -> bl_pending_deletion b = false ->
  Consistent (d <| attempts ::= alter f k |>
                <| blobs ::= alter (fun b => b <| bl_pending_deletion := true |> <| bl_state := CLEANUP |>) (bl_id b) |>
                <| spaces ::= alter (fun s => s <| reclaiming ::= Z.add (bl_size b) |>) (bl_space_id b) |>).
Proof.
  intros [HA HP] Hk Hb Hr H1 H2 H3 H4 Ht Hp.
  destruct (acc_blob _ _ _ HA _ _ Hb) as [Hid _ (r' & Hr' & Hsp)]. rewrite Hr in Hr'. injection Hr' as <-.
  destruct (acc_record _ _ _ HA _ _ Hr) as [_ [s Hs] _ _]. rewrite Hsp in Hs. rewrite Hid.
  split; cbn; rewrite ?(alter_row _ _ _ _ Hk), ?(alter_row _ _ _ _ Hb), ?(alter_row _ _ _ _ Hs).
  - apply accounts_blob with (s := s); try done. unfold pending_in. cbn. rewrite eqb_refl_true, Hp.
    destruct s; unfold update; cbn; f_equal; lia.
  - set (b' := b <| bl_pending_deletion := true |> <| bl_state := CLEANUP |>).
    apply (phases_give_up _ _ _ _ a _ b' r); try done; [|by rewrite lookup_insert_eq].
    destruct (ph_blob _ _ _ _ HP _ _ Hb) as [_ (r' & Hr' & [Q1 Q2 Q3 Q4] & Hback)]. rewrite Hr in Hr'. injection Hr' as <-.
    apply (phases_blob nobody _ _ _ _ _ b); try done. split; [done|]. exists r. split_and!; [done| |done].
    split; cbn; [done|done|by left|]. intros E. by rewrite E in Ht.
Qed.

(** [_rearm_cleanup] on the current rows. *)
Lemma rearm_consistent b c u w w' :
  rearm_cleanup b c w = (Ok u, w') -> Consistent (w_db w) -> blobs (w_db w) !! bl_id b = Some b ->
  (exists c0, attempts (w_db w) !! at_id c = Some c0 /\ at_blob_id c0 = bl_id b /\ at_state c0 = at_state c) ->
  Consistent (w_db w').
Proof.
  intros H HC Hb (c0 & Hc & Hcb & Hcs). unfold rearm_cleanup in H. rewrite <- Hcb in Hb.
  assert (Hv : negb (bool_decide (at_state c ∈ [CLEANUP; CLEANED])) = false -> at_state c0 <> VERIFIED).
  { intros E E'. rewrite Hcs in E'. rewrite E' in E. vm_compute in E. done. }
  run_all; [done| |].
  - bool_simpl. eapply (give_up_stopped (w_db w)); eauto.
  - eapply (give_up_attempt (w_db w)); eauto. intros E. by apply Hv in E.
Qed.

Lemma keeps_finish_gateway h : keeps RC (finish_gateway_body h).
Proof.
  intros w v w' H HC. unfold finish_gateway_body in H. run_all; try done.
  pose proof (attempt_key _ _ _ HC H1) as Hk. pose proof (blob_key _ _ _ HC H0) as Hb. bool_simpl.
  eapply rearm_consistent; [eassumption| | |].
  - destruct HC as [HA HP]. split; [done|]. cbn. rewrite Hk, (alter_row _ _ _ _ H1).
    apply (phases_attempt_neutral _ _ _ _ _ t); [done|done|]. repeat split; cbn; auto. by intros ->.
  - cbn. by rewrite Hb.
  - cbn. rewrite Hk, lookup_alter_eq, H1. eexists. split; [done|]. cbn. split; [|done].
    unfold receipt_matches in *. bool_simpl. rewrite Hb. by apply String.eqb_eq.
Qed.

Lemma genuine_row a c d : genuine a d = true -> attempts d !! at_id a = Some c ->
  at_blob_id c = at_blob_id a /\ at_object_key c = at_object_key a.
Proof.
  unfold genuine. intros H Hc. rewrite Hc in H. apply andb_true_iff in H as [H1 H2].
  apply String.eqb_eq in H1, H2. done.
Qed.

Lemma keeps_on_snapshot {A} a (body : M World A) :
  (forall w v w', genuine a (w_db w) = true -> body w = (Ok v, w') -> Consistent (w_db w) -> Consistent (w_db w')) ->
  keeps RC (on_snapshot a body).
Proof.
  intros Hb w v w' H HC. unfold on_snapshot, discard in H. run_all; [|done].
  eapply Hb; eassumption.
Qed.

(** The current rows of a snapshot. *)
Lemma current_rows a b c d : Consistent d -> genuine a d = true -> blobs d !! at_blob_id a = Some b ->
  attempts d !! at_id a = Some c -> at_id c = at_id a /\ bl_id b = at_blob_id a /\ at_blob_id c = bl_id b.
Proof.
  intros HC Hg Hb Hc. pose proof (attempt_key _ _ _ HC Hc). pose proof (blob_key _ _ _ HC Hb).
  destruct (genuine_row _ _ _ Hg Hc). split_and!; congruence.
Qed.

Ltac current HC Hg :=
  match goal with H1 : blobs _ !! at_blob_id _ = Some ?x, H2 : attempts _ !! at_id _ = Some ?y |- _ =>
    destruct (current_rows _ _ _ _ HC Hg H1 H2) as (Hk & Hbid & Hcb);
    rename x into b, y into c, H1 into Hb, H2 into Hc end.

Lemma keeps_settle a : keeps RC (on_snapshot a (settle_mutation_body a)).
Proof.
  apply keeps_on_snapshot. intros w v w' Hg H HC. unfold settle_mutation_body in H. run_all; try done.
  current HC Hg. eapply rearm_consistent; [eassumption| | |].
  - destruct HC as [HA HP]. split; [done|]. cbn. rewrite Hk, (alter_row _ _ _ _ Hc).
    apply (phases_attempt_neutral _ _ _ _ _ c); [done|done|]. repeat split; cbn; auto. by intros ->.
  - cbn. by rewrite Hbid.
  - cbn. rewrite Hk, lookup_alter_eq, Hc. by eexists.
Qed.

Lemma keeps_abandon a : keeps RC (on_snapshot a (abandon_body a)).
Proof.
  apply keeps_on_snapshot. intros w v w' Hg H HC. unfold abandon_body in H. run_all; try done.
  current HC Hg. eapply rearm_consistent; [eassumption|done| |].
  - by rewrite Hbid.
  - rewrite Hk. by exists c.
Qed.

Lemma keeps_retry a code : keeps RC (on_snapshot a (retry_body a code)).
Proof.
  apply keeps_on_snapshot. intros w v w' Hg H HC. unfold retry_body in H. run_all; try done.
  current HC Hg. destruct HC as [HA HP]. split; [done|]. cbn. rewrite (alter_row _ _ _ _ Hc).
  apply (phases_attempt_neutral _ _ _ _ _ c); [done|done|]. repeat split; cbn; auto.
Qed.

(** ** Commit *)

(** A held lease: the attempt is in one of the working states. *)
Lemma owned_leased d k c a now : Consistent d -> attempts d !! k = Some c -> owned c a now = true -> leased_state (at_state c).
Proof.
  intros [_ HP] Hk Ho. unfold owned in Ho. bool_simpl.
  destruct (ao_token _ _ _ (ph_attempt _ _ _ _ HP _ _ Hk)) as [E|]; [|done].
  match goal with H : is_Some (at_token c) |- _ => rewrite E in H; by destruct H end.
Qed.

Lemma leased_not_verified s : leased_state s -> s <> VERIFIED /\ s <> CLEANED /\ s <> XFER_FAILED.
Proof. intros H. split_and!; intros ->; apply (bool_decide_eq_true_2 _) in H; vm_compute in H; done. Qed.

(** A result recorded for a draft. *)
Lemma commit_live d k c c' b b' r :
  Consistent d -> attempts d !! k = Some c -> blobs d !! at_blob_id c = Some b -> records d !! bl_record_id b = Some r ->
  rec_state r = DRAFT -> at_state c <> VERIFIED -> at_id c' = at_id c -> at_blob_id c' = at_blob_id c ->
  at_object_key c' = at_object_key c -> at_token c' = None -> at_state c' <> CLEANED -> bl_state b' = at_state c' ->
  same_blob b b' -> bl_pending_deletion b' = bl_pending_deletion b ->
  (at_state c' = VERIFIED -> bl_object_key b' = Some (at_object_key c)) ->
  Consistent (d <| attempts := <[k := c']> (attempts d) |> <| blobs := <[bl_id b := b']> (blobs d) |>).
Proof.
  intros [HA HP] Hc Hb Hr Hd Hnv Hid Hbl Hkey Htok Hncl Hst Hsame Hpend Hver.
  pose proof (bh_id _ _ _ (acc_blob _ _ _ HA _ _ Hb)) as Hbid. rewrite Hbid. split; cbn.
  - by apply (accounts_blob_neutral _ _ _ _ b).
  - destruct (live_blob_not_cleaned HP _ _ _ Hb Hr) as [Hncb _]; [by rewrite Hd|].
    apply (phases_live_blob _ _ _ _ b _ r); try done; [|congruence|].
    + apply (phases_attempt _ _ _ _ _ c); try done.
      apply (attempt_move _ _ c); try done; [exact (ph_attempt _ _ _ _ HP _ _ Hc)|by left|]. congruence.
    + intros E _. exists k, c'. rewrite lookup_insert_eq, Hbl, Hkey. split_and!; try done; [congruence|]. apply Hver. congruence.
Qed.

(** The facts the guards of [commit] leave about the current rows. *)
Lemma commit_rows a b c d now :
  Consistent d -> genuine a d = true -> blobs d !! at_blob_id a = Some b -> attempts d !! at_id a = Some c ->
  negb (owned c a now) || negb (bool_decide (at_state c = at_state a)) = false ->
  at_id c = at_id a /\ bl_id b = at_blob_id c /\ blobs d !! at_blob_id c = Some b /\ at_state c = at_state a /\
  leased_state (at_state c).
Proof.
  intros HC Hg Hb Hc H. destruct (current_rows _ _ _ _ HC Hg Hb Hc) as (Hk & Hbid & Hcb). bool_simpl.
  split_and!; try done. - by rewrite Hcb, Hbid. - by eapply owned_leased.
Qed.

Ltac commit_facts HC Hg :=
  match goal with
  | H1 : blobs _ !! at_blob_id _ = Some ?x, H2 : attempts _ !! at_id _ = Some ?y, H3 : negb (owned _ _ _) || _ = false |- _ =>
      destruct (commit_rows _ _ _ _ _ HC Hg H1 H2 H3) as (Hk & Hbid & Hb & Hst & Hleased);
      rename x into b, y into c, H2 into Hc; clear H1 H3
  end.

(** The attempt and the attachment of a commit that keeps the record a draft. *)
Ltac commit_draft :=
  match goal with H : records _ !! bl_record_id _ = Some ?x, H' : negb (bool_decide (rec_state ?x = DRAFT)) = false |- _ =>
    apply negb_false_iff, bool_decide_eq_true in H'; rename x into r, H into Hr, H' into Hd end.

Lemma keeps_commit_draft a st res : legal_commit a st res = true -> st <> CLEANED -> st <> XFER_FAILED ->
  keeps RC (on_snapshot a (commit_body a st res)).
Proof.
  intros Hlegal Hn1 Hn2. apply keeps_on_snapshot. intros w v w' Hg H HC.
  destruct st, res; try discriminate Hlegal; try done; cbn in Hlegal; apply bool_decide_eq_true in Hlegal;
    unfold commit_body, commit_outcome, commit_verified in H; cbn in H; run_all; try done;
    commit_facts HC Hg; commit_draft;
    destruct (leased_not_verified _ Hleased) as (Hnv & _);
    assert (Hb' : blobs (w_db w) !! bl_id b = Some b) by (by rewrite Hbid);
    unfold Consistent, Consistent_but; cbn;
    rewrite ?(alter_row _ _ _ _ Hc), ?(alter_row _ _ _ _ Hb'), ?alter_insert_eq.
  1, 2: by eapply (commit_live (w_db w) (at_id a) c _ b _ r).
  - rewrite (alter_row _ _ _ _ Hr).
    match goal with |- Accounts _ _ ?bl /\ Phases _ _ _ ?at_ =>
      assert (HC' : Consistent ((w_db w) <| attempts := at_ |> <| blobs := bl |>))
        by (by eapply (commit_live (w_db w) (at_id a) c _ b _ r)) end.
    destruct HC' as [HA' HP']. split.
    + by apply (accounts_record_neutral _ _ _ _ r).
    + by apply (phases_record_neutral _ _ _ _ _ r).
  - match goal with H : attempts _ !! at_id a = Some ?x |- _ => cbn in H; rewrite lookup_alter_eq, Hc in H; injection H as <- end.
    by eapply (commit_live (w_db w) (at_id a) c _ b _ r).
Qed.

(** A failed upload stops its record. *)
Lemma keeps_commit_failed a m : legal_commit a XFER_FAILED (Reason m) = true ->
  keeps RC (on_snapshot a (commit_body a XFER_FAILED (Reason m))).
Proof.
  intros Hlegal. apply keeps_on_snapshot. intros w v w' Hg H HC. cbn in Hlegal. bool_simpl.
  unfold commit_body, commit_outcome in H; cbn [andb] in H. run_all; try done.
  commit_facts HC Hg. commit_draft. destruct (leased_not_verified _ Hleased) as (Hnv & Hncl & _).
  match goal with H : release _ _ _ _ = _ |- _ => eapply release_consistent in H; [exact H|done|..] end.
  - cbn. intros r' Hr'. rewrite Hr in Hr'. injection Hr' as <-. destruct HC as [HA _].
    destruct (acc_blob _ _ _ HA _ _ Hb) as [_ _ (x & Hx & Hxs)]. congruence.
  - destruct HC as [HA HP]. split; [done|]. cbn. rewrite (alter_row _ _ _ _ Hc), alter_insert_eq.
    apply (phases_attempt _ _ _ _ _ c); try done. apply (attempt_move _ _ c); try done.
    + exact (ph_attempt _ _ _ _ HP _ _ Hc).
    + by left.
    + intros b0 Hb0 E. exfalso. rewrite Hb in Hb0. injection Hb0 as <-.
      destruct (live_blob_not_cleaned HP _ _ _ Hb Hr); [by rewrite Hd|done].
Qed.

Lemma attempt_cleaned d k c c' : Consistent d -> attempts d !! k = Some c -> at_state c <> VERIFIED ->
  at_id c' = at_id c -> at_blob_id c' = at_blob_id c -> at_object_key c' = at_object_key c ->
  at_state c' = CLEANED -> at_mutation_tokens c' = [] -> at_token c' = None ->
  Consistent (d <| attempts := <[k := c']> (attempts d) |>).
Proof.
  intros [HA HP] Hc Hnv H1 H2 H3 H4 H5 H6. split; [done|]. cbn. apply (phases_attempt _ _ _ _ _ c); try done.
  apply (attempt_move _ _ c); try done; [exact (ph_attempt _ _ _ _ HP _ _ Hc)|by left].
Qed.

(** The last attempt of a stopped attachment is cleaned: its bytes are reclaimed. *)
Lemma blob_reclaimed d k b :
  Consistent d -> blobs d !! k = Some b -> bl_pending_deletion b = true ->
  (forall j a, attempts d !! j = Some a -> at_blob_id a = k -> at_state a = CLEANED) ->
  Consistent (d <| spaces ::= alter (fun s => s <| reclaiming ::= fun n => n - bl_size b |>) (bl_space_id b) |>
                <| blobs ::= alter (fun b => b <| bl_pending_deletion := false |> <| bl_state := CLEANED |>) k |>).
Proof.
  intros [HA HP] Hb Hp Hall. destruct (acc_blob _ _ _ HA _ _ Hb) as [Hid _ (r & Hr & Hsp)].
  destruct (acc_record _ _ _ HA _ _ Hr) as [_ [s Hs] _ _]. rewrite Hsp in Hs.
  split; cbn; rewrite (alter_row _ _ _ _ Hb), ?(alter_row _ _ _ _ Hs).
  - apply accounts_blob with (s := s); try done. unfold pending_in. cbn. rewrite eqb_refl_true, Hp.
    destruct s; unfold update; cbn; f_equal; lia.
  - apply (phases_blob nobody _ _ _ _ _ b); try done. split; [done|].
    destruct (ph_blob _ _ _ _ HP _ _ Hb) as [_ (r' & Hr' & [Q1 Q2 Q3 Q4] & _)]. rewrite Hr in Hr'. injection Hr' as <-.
    exists r. split_and!; [done| |by unfold backed]. split; cbn; [done|by auto|by right|].
    intros E. apply Q1 in Hp. by rewrite E in Hp.
Qed.

Lemma cleaned_tokens (a c : TransferAttempt) (b : bool) : nonempty (at_mutation_tokens c) = false ->
  (if b then match at_token a with Some t => without t (at_mutation_tokens c) | None => at_mutation_tokens c end
   else at_mutation_tokens c) = [].
Proof. intros E. destruct (at_mutation_tokens c); [|done]. by destruct b, (at_token a). Qed.

Lemma keeps_commit_cleaned a : legal_commit a CLEANED NoResult = true ->
  keeps RC (on_snapshot a (commit_body a CLEANED NoResult)).
Proof.
  intros Hlegal. apply keeps_on_snapshot. intros w v w' Hg H HC. cbn in Hlegal. bool_simpl.
  unfold commit_body, commit_outcome, commit_cleaned in H; cbn [andb] in H. run_all; try done;
    commit_facts HC Hg; destruct (leased_not_verified _ Hleased) as (Hnv & _).
  - destruct HC as [HA HP]. split; [done|]. cbn. rewrite (alter_row _ _ _ _ Hc).
    apply (phases_attempt_neutral _ _ _ _ _ c); [done|done|]. repeat split; cbn; auto.
  - bool_simpl. match goal with H : existsb _ (map_to_list (attempts ?x)).*2 = _ |- _ => set (w1 := x) in *; rename H into Hrem end.
    assert (HC1 : Consistent w1).
    { unfold w1, Consistent, Consistent_but. cbn. rewrite (alter_row _ _ _ _ Hc), alter_insert_eq.
      eapply (attempt_cleaned (w_db w) (at_id a) c); try done. by apply cleaned_tokens. }
    eapply (blob_reclaimed w1); [done|eassumption|done|].
    intros j d Hj Hd. pose proof (existsb_rows_false _ _ Hrem j d Hj) as E. cbn in E. rewrite Hd, eqb_refl_true in E.
    by apply negb_false_iff, bool_decide_eq_true in E.
  - unfold Consistent, Consistent_but. cbn. rewrite (alter_row _ _ _ _ Hc), alter_insert_eq.
    eapply (attempt_cleaned (w_db w) (at_id a) c); try done. by apply cleaned_tokens.
Qed.

Lemma keeps_commit a st res : keeps RC (if legal_commit a st res then on_snapshot a (commit_body a st res) else ret tt).
Proof.
  destruct (legal_commit a st res) eqn:Hl; [|keeping].
  destruct (decide (st = CLEANED)) as [->|]; [|destruct (decide (st = XFER_FAILED)) as [->|]].
  - destruct res; try discriminate Hl. by apply keeps_commit_cleaned.
  - destruct res; try discriminate Hl. by apply keeps_commit_failed.
  - by apply keeps_commit_draft.
Qed.

(** ** Leases *)
Lemma attempt_neutral d k a f : Consistent d -> attempts d !! k = Some a -> attempt_columns a (f a) ->
  Consistent (d <| attempts ::= alter f k |>).
Proof.
  intros [HA HP] Hk Hf. split; [done|]. cbn. rewrite (alter_row _ _ _ _ Hk).
  by apply (phases_attempt_neutral _ _ _ _ _ a).
Qed.

Lemma draft_blob_state d k b r st : Consistent d -> blobs d !! k = Some b -> records d !! bl_record_id b = Some r ->
  rec_state r = DRAFT -> st <> CLEANED -> st <> VERIFIED ->
  Consistent (d <| blobs ::= alter (fun b => b <| bl_state := st |>) k |>).
Proof.
  intros [HA HP] Hb Hr Hd H1 H2. split; cbn; rewrite (alter_row _ _ _ _ Hb).
  - by apply (accounts_blob_neutral _ _ _ _ b).
  - apply (phases_live_blob _ _ _ _ b _ r); try done. intros E. by apply H2 in E.
Qed.

(** A stopped record's attachment waits for reclamation as long as it has an attempt that is not cleaned. *)
Lemma uncleaned_pending d k a b r : Consistent d -> attempts d !! k = Some a -> blobs d !! at_blob_id a = Some b ->
  records d !! bl_record_id b = Some r -> at_state a <> CLEANED ->
  is_terminal (rec_state r) && negb (bl_pending_deletion b) = false.
Proof.
  intros [_ HP] Ha Hb Hr Hn. destruct (ph_blob _ _ _ _ HP _ _ Hb) as [_ (r' & Hr' & [_ _ Q3 _] & _)].
  rewrite Hr in Hr'. injection Hr' as <-. destruct (is_terminal (rec_state r)) eqn:Ht; [|done].
  destruct (Q3 (fun x => x) eq_refl) as [->|E]; [done|]. exfalso. apply Hn.
  destruct (ph_attempt _ _ _ _ HP _ _ Ha) as [_ _ _ (c & Hc & Hcc)]. rewrite Hb in Hc. injection Hc as <-. by apply Hcc.
Qed.

(** The attempt of a draft is given up, and its attachment may be uploaded anew. *)
Lemma give_up_draft d k a b r f g st : Consistent d -> attempts d !! k = Some a -> blobs d !! at_blob_id a = Some b ->
  records d !! bl_record_id b = Some r -> rec_state r = DRAFT -> at_state a <> VERIFIED ->
  at_id (f a) = at_id a -> at_blob_id (f a) = at_blob_id a -> at_object_key (f a) = at_object_key a ->
  at_state (f a) = CLEANUP -> st <> CLEANED -> st <> VERIFIED -> attempt_columns (f a) (g (f a)) ->
  Consistent (d <| attempts ::= alter f k |> <| blobs ::= alter (fun b => b <| bl_state := st |>) (bl_id b) |>
                <| attempts ::= alter g k |>).
Proof.
  intros HC Ha Hb Hr Hd Hnv H1 H2 H3 H4 Hs1 Hs2 Hg. rewrite (blob_key _ _ _ HC Hb).
  apply (attempt_neutral _ _ (f a)); [|cbn; by rewrite lookup_alter_eq, Ha|done].
  apply (draft_blob_state _ _ b r); try done. apply (give_up_attempt _ _ a b r); try done. by rewrite Hd.
Qed.

Lemma attempt_leased d k a f tok : Consistent d -> attempts d !! k = Some a ->
  at_id (f a) = at_id a -> at_blob_id (f a) = at_blob_id a -> at_object_key (f a) = at_object_key a ->
  at_state (f a) = at_state a -> at_token (f a) = Some tok -> leased_state (at_state a) ->
  Consistent (d <| attempts ::= alter f k |>).
Proof.
  intros [HA HP] Hk H1 H2 H3 H4 H5 Hl. destruct (leased_not_verified _ Hl) as (? & ? & _).
  split; [done|]. cbn. rewrite (alter_row _ _ _ _ Hk).
  apply (phases_attempt _ _ _ _ _ a); try done. apply (attempt_move _ _ a); try done.
  - exact (ph_attempt _ _ _ _ HP _ _ Hk).
  - congruence.
  - right. by rewrite H4.
  - intros b Hb E. destruct (ph_attempt _ _ _ _ HP _ _ Hk) as [_ _ _ (c & Hc & Hcc)].
    rewrite Hb in Hc. injection Hc as <-. rewrite H4. by apply Hcc.
Qed.

Lemma leased_working s : bool_decide (s ∈ [INITIATING; COMPLETING; VERIFYING; CLEANUP]) = true -> leased_state s.
Proof. apply bool_decide_eq_true_1. Qed.

Lemma keeps_acquire aid cleanup : keeps RC (acquire_body aid cleanup).
Proof.
  intros w v w' H HC. unfold acquire_body in H. run_all; try done;
    match goal with H : attempts _ !! aid = Some ?x, H' : blobs _ !! at_blob_id ?x = Some ?y |- _ =>
      cbn in H, H'; rename x into a, y into b, H into Ha, H' into Hb end;
    pose proof (blob_key _ _ _ HC Hb) as Hbid.
  - eapply (attempt_neutral (w_db w)); [done|exact Ha|]. repeat split; cbn; auto.
  - eapply (give_up_attempt (w_db w)); try eassumption; try done; [|congruence].
    eapply uncleaned_pending; try eassumption. congruence.
  - match goal with H : records _ !! bl_record_id b = Some ?x |- _ => rename x into r, H into Hr; cbn in Hr end. bool_simpl.
    eapply (give_up_draft (w_db w)); try eassumption; try done; [congruence|]. repeat split; cbn; auto.
  - match goal with H : records _ !! bl_record_id b = Some ?x |- _ => rename x into r, H into Hr; cbn in Hr end. bool_simpl.
    match goal with H : new_attempt b _ _ = _ |- _ => eapply new_attempt_consistent in H as [HC2 Hnew] end.
    + eapply (attempt_neutral _ _ _ _ HC2); [exact Hnew|]. repeat split; cbn; auto.
    + eapply (give_up_attempt (w_db w)); try eassumption; try done; [|congruence]. eapply uncleaned_pending; try eassumption. congruence.
    + cbn. rewrite Hbid. eauto.
    + exact Hr.
    + done.
  - eapply (attempt_neutral (w_db w)); [done|exact Ha|]. repeat split; cbn; auto.
  - eapply (attempt_leased (w_db w)); try eassumption; try done. apply leased_working.
    match goal with H : at_state a = _ |- _ => rewrite H end. done.
  - eapply (attempt_leased (w_db w)); try eassumption; try done. apply leased_working.
    match goal with H : at_state a = _ |- _ => rewrite H end. done.
  - eapply (attempt_leased (w_db w)); try eassumption; try done. apply leased_working.
    match goal with H : at_state a = _ |- _ => rewrite H end. done.
Qed.

(** ** Expiry, repair, pruning *)
Lemma keeps_expire rid : keeps RC (expire_body rid).
Proof.
  intros w v w' H HC. unfold expire_body in H. run_all; try done.
  match goal with H : release _ _ _ _ = _ |- _ => eapply release_consistent in H; [exact H|done| |exact HC] end.
  intros r Hr. cbn in *. congruence.
Qed.

Lemma repairable_verified a r now : repairable a r now = true -> at_state a = VERIFIED -> is_terminal (rec_state r) = true.
Proof.
  unfold repairable. intros H E. rewrite E in H. destruct (is_terminal (rec_state r)); [done|].
  by rewrite !bool_decide_eq_false_2 in H by (done || (intros X; apply (bool_decide_eq_true_2 _) in X; vm_compute in X; done)).
Qed.

Lemma keeps_repair_attempt now aid : keeps RC (repair_attempt now aid).
Proof.
  intros w v w' H HC. unfold repair_attempt in H. run_all;
    match goal with H : attempts _ !! aid = Some ?x, H' : blobs _ !! at_blob_id ?x = Some ?y, H'' : records _ !! bl_record_id ?y = Some ?z |- _ =>
      rename x into a, y into b, z into r, H into Ha, H' into Hb, H'' into Hr end;
    match goal with H : negb (repairable _ _ _) = false |- _ => apply negb_false_iff in H; pose proof (repairable_verified _ _ _ H) as Hv end;
    bool_simpl.
  - match goal with H : rec_state r = DRAFT, H' : is_terminal _ = true |- _ => by rewrite H in H' end.
  - assert (Hrec : recovers a r = false).
    { unfold recovers. apply andb_false_iff. left. apply bool_decide_eq_false. intros E. by rewrite E in *. }
    eapply (give_up_stopped (w_db w)); try eassumption; cbn; try done; by rewrite Hrec.
  - match goal with H : recovers a r = false |- _ => rename H into Hrec end.
    rewrite (blob_key _ _ _ HC Hb). eapply draft_blob_state; [|exact Hb|exact Hr|done..].
    eapply (give_up_attempt (w_db w)); try eassumption; cbn; try done; by rewrite Hrec.
  - destruct (recovers a r) eqn:Hrec.
    + eapply (attempt_neutral (w_db w)); [done|exact Ha|]. unfold recovers in Hrec. bool_simpl. repeat split; cbn; auto.
    + eapply (give_up_attempt (w_db w)); try eassumption; cbn; done.
Qed.

Lemma keeps_repair ids : keeps RC (repair_body ids).
Proof.
  unfold repair_body, repair_inventory. keeping; try apply keeps_repair_attempt.
  apply pure_keeps; [typeclasses eauto|]. unfold inventory_item, the. purely.
Qed.

Lemma keeps_delete_cleaned ids : forall u w w', (forall id a, id ∈ ids -> attempts (w_db w) !! id = Some a -> at_state a = CLEANED) ->
  for_each ids (delete_row ATTEMPTS) w = (Ok u, w') -> Consistent (w_db w) -> Consistent (w_db w').
Proof.
  intros u w w' Hids H HC.
  enough (HP : Consistent (w_db w') /\ forall k c, attempts (w_db w') !! k = Some c -> attempts (w_db w) !! k = Some c) by exact (proj1 HP).
  eapply (for_each_ok _ _ (fun w1 => Consistent (w_db w1) /\
    forall k c, attempts (w_db w1) !! k = Some c -> attempts (w_db w) !! k = Some c)); [exact H|by split|].
  intros id w1 w2 Hid [[HA HP] Hsub] Hdel. run_ok. split.
  - split; [exact HA|]. cbn. apply (phases_drop_attempts _ _ _ _ _ HP).
    + intros k c Hk. by apply lookup_delete_Some in Hk as [_ Hk].
    + intros k c Hk E. rewrite lookup_delete_ne; [done|]. intros ->. apply Hsub in Hk. rewrite (Hids _ _ Hid Hk) in E. done.
  - cbn. intros k c Hk. apply lookup_delete_Some in Hk as [_ Hk]. by apply Hsub.
Qed.

Lemma keeps_prune_history n : keeps RC (prune_history n).
Proof.
  unfold prune_history. apply keeps_bind; [typeclasses eauto|keeping|intros now].
  apply keeps_bind; [typeclasses eauto|keeping|intros old]. apply keeps_bind; [typeclasses eauto|keeping|intros _].
  intros w v w' H HC. apply bind_ok in H as (cl & w1 & Hsel & H). apply select_where_ok in Hsel as [-> ->].
  apply bind_ok in H as (u & w2 & Hdel & H). run_ok.
  eapply keeps_delete_cleaned; [|exact Hdel|exact HC].
  intros id a Hid Ha. apply list_elem_of_fmap in Hid as (c & -> & Hc). apply list_elem_of_In, List.filter_In in Hc as [Hc _].
  apply list_elem_of_In, elem_of_first, elem_of_rows in Hc as [E (k & Hk)]. bool_simpl.
  cbn in Ha. rewrite (attempt_key _ _ _ HC Hk) in Ha. congruence.
Qed.

Lemma keeps_prune_space evs sid : keeps RC (prune_space evs sid).
Proof.
  unfold prune_space. keeping. apply keeps_set_row. intros d [HA HP]. split; [|done]. cbn.
  destruct (spaces d !! sid) as [s|] eqn:Hs; [|by rewrite alter_id'].
  rewrite (alter_row _ _ _ _ Hs). apply (accounts_space _ _ _ _ s); [done|done|].
  by destruct (acc_space _ _ _ HA _ _ Hs).
Qed.
End Commands.

(** ** The whole system *)
Section Invariant.
Context {P : Platform} {B : BlobStore}.

#[local] Hint Resolve keeps_create_space keeps_update_space_limits keeps_put_policy keeps_withdraw keeps_retire keeps_patch
  keeps_publish keeps_create_record keeps_purge keeps_heartbeat keeps_release_lease keeps_grants_record
  keeps_gateway_confirm keeps_record_download keeps_gateway_fence keeps_initiate keeps_complete keeps_finish_gateway
  keeps_settle keeps_abandon keeps_retry keeps_commit keeps_acquire keeps_expire keeps_repair keeps_prune_history
  keeps_prune_space : keeps.

Lemma serve_consistent q : keeps RC (serve q).
Proof. destruct q; cbn [serve]; open_command; keeping. Qed.
End Invariant.

(** ** Reachable databases

    Every request of the system is one transaction: it commits as a whole or
    leaves the database as it was.  So what a successful request preserves
    holds of every reachable database, and a property of a single request
    extends along the runs of the system. *)

(** ** Atomicity *)
Section Atomic.
Context {P : Platform}.

(** [m] changes nothing when it raises. *)
Definition atomic {A} (m : M World A) : Prop := forall w e w', m w = (Err e, w') -> w_db w' = w_db w.

Lemma atomic_pure {A} (m : M World A) : pure m -> atomic m.
Proof. intros H w e w' Hm. exact (H _ _ _ Hm). Qed.

Lemma atomic_bind {A B} (m : M World A) (f : A -> M World B) : pure m -> (forall a, atomic (f a)) -> atomic (bind m f).
Proof.
  intros Hm Hf w e w' H. unfold bind in H. destruct (m w) as [[a|x] w1] eqn:E.
  - rewrite (Hf a _ _ _ H). exact (Hm _ _ _ E).
  - injection H as -> <-. exact (Hm _ _ _ E).
Qed.

Lemma atomic_discard {A} (m : M World A) : atomic m -> atomic (discard m).
Proof.
  intros Hm w e w' H. unfold discard, bind in H. destruct (m w) as [[a|x] w1] eqn:E; [done|].
  injection H as -> <-. exact (Hm _ _ _ E).
Qed.

Lemma atomic_atomically {A} (m : M World A) : atomic (atomically m).
Proof. intros w e w' H. unfold atomically in H. destruct (m w) as [[a|x] w1]; [done|]. by injection H as _ <-. Qed.

Lemma atomic_transaction {A} s p write retired (body : Space -> Member -> M World A) : atomic (transaction s p write retired body).
Proof. apply atomic_atomically. Qed.
End Atomic.

Ltac atomic_step :=
  first [ apply atomic_discard | apply atomic_atomically | apply atomic_transaction
        | apply atomic_bind; [solve [eauto 1 with pure nocore | purely]|intros ?]
        | lazymatch goal with |- atomic (match ?x with _ => _ end) => destruct x end
        | apply atomic_pure; solve [eauto 1 with pure nocore] ].

Section Reachable.
Context {P : Platform}.

Lemma serve_atomic q : atomic (serve q).
Proof.
  destruct q; cbn [serve]; unfold transfer_tx; repeat atomic_step.
  all: unfold create_space, get_space, update_space_limits, get_membership, list_members, put_member, register_type, get_type,
    list_types, put_policy, create_record, get_record, list_records, patch_record, publish_record, withdraw_record,
    purge_record, enable_managed_space, get_managed_space, retire_managed_space, create_workload_grant,
    revoke_workload_grants, get_workload_grant, verify_workload_grant, get_reference, put_reference, Coordination.acquire,
    get_acquisition, renew, Coordination.abandon, complete, events_command; repeat atomic_step.
Qed.

(** What a successful request keeps, every request keeps. *)
Lemma serve_always (R : DB -> DB -> Prop) {HR : PreOrder R} q : keeps R (serve q) -> always R (serve q).
Proof.
  intros H w [u|e] w' Hs; [exact (H _ _ _ Hs)|]. rewrite (serve_atomic _ _ _ _ Hs). reflexivity.
Qed.

Lemma step_keeps (R : DB -> DB -> Prop) {HR : PreOrder R} d d' : (forall q, keeps R (serve q)) -> step d d' -> R d d'.
Proof. intros H (q & w & r & w' & <- & Hs & <-). exact (serve_always R q (H q) _ _ _ Hs). Qed.

Lemma reachable_preserved (I : DB -> Prop) : I empty_db -> (forall q, keeps (preserving I) (serve q)) ->
  forall d, reachable d -> I d.
Proof.
  intros H0 H. apply reachable_invariant; [done|]. intros d d' HI Hs. exact (step_keeps (preserving I) _ _ H Hs HI).
Qed.

(** The same under an invariant already established. *)
Lemma reachable_under (J I : DB -> Prop) : (forall d, reachable d -> J d) -> I empty_db ->
  (forall q, keeps (fun d d' => J d -> J d' -> I d -> I d') (serve q)) -> forall d, reachable d -> I d.
Proof.
  intros HJ H0 H d Hd. enough (G : reachable d /\ I d) by apply G.
  refine (reachable_invariant (fun d => reachable d /\ I d) _ _ d Hd); [split; [apply rtc_refl|done]|].
  clear d Hd. intros d d' [Hd HI] Hs. assert (Hd' : reachable d') by (eapply rtc_r; eauto). split; [done|].
  destruct Hs as (q & w & [u|e] & w' & <- & Hs & <-).
  - exact (H q _ _ _ Hs (HJ _ Hd) (HJ _ Hd') HI).
  - by rewrite (serve_atomic _ _ _ _ Hs).
Qed.

Lemma consistent_empty : Consistent empty_db.
Proof. split; [apply accounts_empty|apply phases_empty]. Qed.

Lemma consistent_reachable d : reachable d -> Consistent d.
Proof. apply reachable_preserved; [exact consistent_empty|apply serve_consistent]. Qed.

(** A relation every request respects holds along runs. *)
Lemma run_keeps (R : DB -> DB -> Prop) {HR : PreOrder R} : (forall q, keeps R (serve q)) -> forall d d', rtc step d d' -> R d d'.
Proof.
  intros H d d' Hr. induction Hr as [|d1 d2 d3 Hs _ IH]; [reflexivity|].
  transitivity d2; [exact (step_keeps R _ _ H Hs)|exact IH].
Qed.
End Reachable.
