(* ===== verification/Fencing.v ===== *)
(** * Workload grants are fenced

    The grants of a managed space: a grant is enabled exactly as long as its
    attempt has no tombstone; the enabled grants of a principal are all of one
    attempt and one epoch, which no other grant of it reaches; a space belongs
    to one job, keeps it, and has no enabled grant once it is retired. *)

From stdpp Require Import base gmap strings list fin_maps relations.
From Stdlib Require Import ZArith Lia.
From S2P Require Import Prelude Json Domain Schemas Profiles Models Storage Service Spaces Records Managed Coordination Transfers Uploads System Logic TransferConsistency.

Record grant_ok (ms : gmap string ManagedSpace) (rv : gmap (string * string) Z) (g : WorkloadGrant) : Prop := {
  go_binding : exists m, ms !! gr_space_id g = Some m /\ ms_job_id m = gr_job_id g /\
                         (gr_enabled g = true -> ms_retired_at m = None);
  go_enabled : gr_enabled g = true <-> rv !! (gr_space_id g, gr_attempt_id g) = None;
}.

(** Two grants of one principal in one space. *)
Record grants_agree (g h : WorkloadGrant) : Prop := {
  ga_component : gr_component_id g = gr_component_id h;
  ga_epoch : gr_attempt_id g = gr_attempt_id h <-> gr_epoch g = gr_epoch h;
  ga_latest : gr_enabled g = true -> gr_enabled h = false -> gr_epoch h < gr_epoch g;
  ga_current : gr_enabled g = true -> gr_enabled h = true -> gr_attempt_id g = gr_attempt_id h;
}.

Record Fenced_tables (ms : gmap string ManagedSpace) (rv : gmap (string * string) Z) (gr : gmap string WorkloadGrant) : Prop := {
  fe_grant : forall k g, gr !! k = Some g -> grant_ok ms rv g;
  fe_agree : forall j k g h, gr !! j = Some g -> gr !! k = Some h ->
             gr_space_id g = gr_space_id h -> gr_principal_id g = gr_principal_id h -> grants_agree g h;
  fe_jobs : forall j k m n, ms !! j = Some m -> ms !! k = Some n -> ms_job_id m = ms_job_id n -> j = k;
}.
Definition Fenced (d : DB) : Prop := Fenced_tables (managed_spaces d) (workload_revocations d) (workload_grants d).

Abbreviation RF := (preserving Fenced).

Lemma fenced_empty : Fenced empty_db.
Proof. split; [intros ? ? E|intros ? ? ? ? E|intros ? ? ? ? E]; exfalso; cbn in E; by rewrite lookup_empty in E. Qed.

Lemma agree_refl g : grants_agree g g.
Proof. split; try done. congruence. Qed.
Lemma agree_sym_case g h : grants_agree g h -> (gr_enabled h = true -> gr_enabled g = false -> gr_epoch g < gr_epoch h) ->
  grants_agree h g.
Proof. intros [H1 H2 H3 H4] H. split; [done| |done|]; [split; intros E; symmetry; apply H2; congruence|]. intros. symmetry. by apply H4. Qed.

(** A space is bound to a job nobody else has. *)
Lemma fenced_bind ms rv gr sid job now : Fenced_tables ms rv gr -> ms !! sid = None ->
  (forall k m, ms !! k = Some m -> String.eqb (ms_job_id m) job = false) ->
  Fenced_tables (<[sid := mkManagedSpace sid job now None]> ms) rv gr.
Proof.
  intros [Hg Ha Hj] Hn Hfresh. split; cbn.
  - intros k g Hk. destruct (Hg k g Hk) as [(m & Hm & Hb) He]. split; [|done]. exists m. cbn.
    rewrite lookup_insert_ne by congruence. done.
  - exact Ha.
  - intros j k m n Hm Hk E. rewrite lookup_insert_Some in Hm. rewrite lookup_insert_Some in Hk.
    destruct Hm as [[<- <-]|[? Hm]], Hk as [[<- <-]|[? Hk]]; try done; cbn in E.
    + apply Hfresh in Hk. apply String.eqb_neq in Hk. congruence.
    + apply Hfresh in Hm. apply String.eqb_neq in Hm. congruence.
    + exact (Hj _ _ _ _ Hm Hk E).
Qed.

(** A space without enabled grants is retired. *)
Lemma fenced_retire ms rv gr sid now : Fenced_tables ms rv gr ->
  (forall k g, gr !! k = Some g -> gr_space_id g = sid -> gr_enabled g = false) ->
  Fenced_tables (alter (fun m => m <| ms_retired_at := Some now |>) sid ms) rv gr.
Proof.
  intros [Hg Ha Hj] Hdead. split; cbn.
  - intros k g Hk. destruct (Hg k g Hk) as [(m & Hm & Hb & Hr) He]. split; [|done]. cbn.
    destruct (decide (sid = gr_space_id g)) as [->|Hne].
    + exists (m <| ms_retired_at := Some now |>). rewrite lookup_alter_eq, Hm. split_and!; [done..|].
      intros E. rewrite (Hdead k g Hk eq_refl) in E. done.
    + exists m. by rewrite lookup_alter_ne.
  - exact Ha.
  - intros j k m n Hm Hk E. rewrite lookup_alter_Some in Hm. rewrite lookup_alter_Some in Hk.
    destruct Hm as [[<- (m0 & Hm & ->)]|[? Hm]], Hk as [[<- (n0 & Hk & ->)]|[? Hk]]; try done; cbn in E; exact (Hj _ _ _ _ Hm Hk E).
Qed.

(** The live grants of an attempt are disabled with its tombstone. *)
Lemma fenced_revoke ms rv gr sid att now now' : Fenced_tables ms rv gr ->
  Fenced_tables ms (match rv !! (sid, att) with None => <[(sid, att) := now]> rv | Some _ => rv end)
    ((fun g => if String.eqb (gr_space_id g) sid && String.eqb (gr_attempt_id g) att && gr_enabled g
               then g <| gr_enabled := false |> <| gr_revoked_at := Some now' |> else g) <$> gr).
Proof.
  intros [Hg Ha Hj].
  set (live g := String.eqb (gr_space_id g) sid && String.eqb (gr_attempt_id g) att && gr_enabled g).
  set (f g := if live g then g <| gr_enabled := false |> <| gr_revoked_at := Some now' |> else g).
  assert (Hf : forall g, gr_space_id (f g) = gr_space_id g /\ gr_principal_id (f g) = gr_principal_id g /\
    gr_component_id (f g) = gr_component_id g /\ gr_attempt_id (f g) = gr_attempt_id g /\ gr_epoch (f g) = gr_epoch g /\
    gr_job_id (f g) = gr_job_id g /\
    gr_enabled (f g) = gr_enabled g && negb (String.eqb (gr_space_id g) sid && String.eqb (gr_attempt_id g) att)).
  { intros g. unfold f, live. destruct (String.eqb _ _), (String.eqb _ _), (gr_enabled g) eqn:E; split_and!; try done; by rewrite E. }
  split.
  - intros k h Hk. cbn in Hk. apply lookup_fmap_Some in Hk as (g & <- & Hk). fold (live g) (f g).
    destruct (Hf g) as (E1 & E2 & E3 & E4 & E5 & E6 & E7), (Hg k g Hk) as [(m & Hm & Hb & Hr) He]. split.
    + exists m. cbn. rewrite E1, E6. split_and!; [done..|]. rewrite E7. intros E. apply Hr. by apply andb_true_iff in E as [? _].
    + cbn. rewrite E7, E1, E4. destruct (String.eqb _ sid) eqn:Es, (String.eqb _ att) eqn:Eat; cbn; rewrite ?andb_true_r, ?andb_false_r.
      * apply String.eqb_eq in Es, Eat. rewrite Es, Eat. destruct (rv !! (sid, att)) eqn:Er.
        -- rewrite Er. done.
        -- rewrite lookup_insert_eq. done.
      * rewrite He. apply String.eqb_neq in Eat. destruct (rv !! (sid, att)); [done|].
        rewrite lookup_insert_ne by congruence. done.
      * rewrite He. apply String.eqb_neq in Es. destruct (rv !! (sid, att)); [done|].
        rewrite lookup_insert_ne by congruence. done.
      * rewrite He. apply String.eqb_neq in Es. destruct (rv !! (sid, att)); [done|].
        rewrite lookup_insert_ne by congruence. done.
  - intros j k g h Hj' Hk' Es Ep. cbn in Hj', Hk'. apply lookup_fmap_Some in Hj' as (g0 & <- & Hg0), Hk' as (h0 & <- & Hh0).
    fold (live g0) (f g0) (live h0) (f h0) in *.
    destruct (Hf g0) as (E1 & E2 & E3 & E4 & E5 & E6 & E7), (Hf h0) as (F1 & F2 & F3 & F4 & F5 & F6 & F7).
    rewrite E1, F1 in Es. rewrite E2, F2 in Ep. destruct (Ha _ _ _ _ Hg0 Hh0 Es Ep) as [A1 A2 A3 A4].
    split; rewrite ?E3, ?F3, ?E4, ?F4, ?E5, ?F5, ?E7, ?F7; try done.
    + rewrite Es. intros Hl Hr. apply andb_true_iff in Hl as [Hl Hn]. apply andb_false_iff in Hr as [Hr|Hr].
      * exact (A3 Hl Hr).
      * destruct (gr_enabled h0) eqn:Eh; [|exact (A3 Hl eq_refl)]. rewrite (A4 Hl eq_refl) in Hn. rewrite Hn in Hr. done.
    + intros Hl Hr. apply andb_true_iff in Hl as [Hl _], Hr as [Hr _]. exact (A4 Hl Hr).
  - exact Hj.
Qed.

(** A new grant of an attempt without a tombstone, at an epoch above the other
    attempts' and equal to the enabled ones'. *)
Lemma fenced_grant ms rv gr gid g m : Fenced_tables ms rv gr -> gr !! gid = None ->
  ms !! gr_space_id g = Some m -> ms_job_id m = gr_job_id g -> ms_retired_at m = None ->
  rv !! (gr_space_id g, gr_attempt_id g) = None -> gr_enabled g = true ->
  (forall k h, gr !! k = Some h -> gr_space_id h = gr_space_id g -> gr_principal_id h = gr_principal_id g ->
     gr_component_id h = gr_component_id g /\
     (gr_enabled h = true -> gr_attempt_id h = gr_attempt_id g /\ gr_epoch h = gr_epoch g) /\
     (gr_attempt_id h <> gr_attempt_id g -> gr_epoch h < gr_epoch g)) ->
  Fenced_tables ms rv (<[gid := g]> gr).
Proof.
  intros HF Hgid Hm Hjob Hret Hrev Hen Hprev. pose proof HF as [Hg Ha Hj]. 
  assert (Hnew : forall k h, gr !! k = Some h -> gr_space_id h = gr_space_id g -> gr_principal_id h = gr_principal_id g ->
            grants_agree g h /\ grants_agree h g).
  { intros k h Hk Es Ep. destruct (Hprev k h Hk Es Ep) as (Hc & He & Hlt).
    assert (Hdis : gr_enabled h = false -> gr_attempt_id h <> gr_attempt_id g).
    { intros Hd E. destruct (Hg k h Hk) as [_ Hiff]. rewrite Es, E in Hiff. apply Hiff in Hrev. congruence. }
    assert (Hgh : grants_agree g h).
    { split; [done| | |].
      - split; [|intros E; destruct (decide (gr_attempt_id h = gr_attempt_id g)) as [|Hne]; [done|]; apply Hlt in Hne; lia].
        intros E. destruct (gr_enabled h) eqn:Eh; [symmetry; by apply He|]. by destruct (Hdis eq_refl).
      - intros _ Hd. by apply Hlt, Hdis.
      - intros _ Eh. symmetry. by apply He. }
    split; [done|]. apply agree_sym_case; [done|]. congruence. }
  split.
  - intros k h Hk. cbn in Hk. rewrite lookup_insert_Some in Hk. destruct Hk as [[<- <-]|[_ Hk]].
    + split; [|done]. by exists m.
    + destruct (Hg k h Hk). split; done.
  - intros j k h1 h2 H1 H2 Es Ep. cbn in H1, H2. rewrite lookup_insert_Some in H1, H2.
    destruct H1 as [[<- <-]|[_ H1]], H2 as [[<- <-]|[_ H2]].
    + apply agree_refl.
    + by apply (Hnew k h2).
    + by apply (Hnew j h1).
    + exact (Ha _ _ _ _ H1 H2 Es Ep).
  - exact Hj.
Qed.

Section Commands.
Context {P : Platform}.

Lemma keeps_release_fenced sid rid st : keeps RF (release sid rid st).
Proof. unfold release, release_blob. keeping. Qed.

Lemma keeps_enable p sid body key : keeps RF (enable_managed_space p sid body key).
Proof.
  unfold enable_managed_space. keeping.
  intros w u w' H HF. run_ok. apply fenced_bind; [done|done|]. exact (existsb_rows_false _ _ ltac:(eassumption)).
Qed.

Lemma keeps_revoke p sid body key : keeps RF (revoke_workload_grants p sid body key).
Proof.
  unfold revoke_workload_grants. keeping_outside.
  apply keeps_transaction_at. intros space row member w u w' _ H HF.
  run_step. run_step. once_cases; [done|]. cbn.
  pose proof (fun now now' => fenced_revoke _ _ _ sid a0 now now' HF) as Hrev.
  run_all; lookups.
  - match goal with E : workload_revocations _ !! _ = Some ?z |- _ => rewrite E in Hrev; exact (Hrev 0 z) end.
  - match goal with E : workload_revocations _ !! _ = None |- _ => rewrite E in Hrev; exact (Hrev _ _) end.
Qed.

Lemma keeps_withdraw_all_fenced sid : keeps RF (withdraw_all sid).
Proof. unfold withdraw_all. keeping. apply keeps_release_fenced. Qed.

Lemma keeps_retire_fenced p sid body key : keeps RF (retire_managed_space p sid body key).
Proof.
  unfold retire_managed_space. keeping_outside.
  apply keeps_transaction_at. intros space row member w u w' _ H HF.
  run_all; try done. once_cases; [done|]. run_all; lookups; try exact HF.
  match goal with Hw : withdraw_all _ _ = _ |- _ => refine (keeps_withdraw_all_fenced sid _ _ _ Hw _) end.
  apply (fenced_retire _ _ _ sid _ HF). intros k g Hk Hs.
  match goal with Hl : existsb _ _ = false |- _ => pose proof (existsb_rows_false _ _ Hl k g Hk) as E end.
  cbn in E. rewrite Hs, String.eqb_refl in E. exact E.
Qed.

Lemma keeps_grant p sid body key : keeps RF (create_workload_grant p sid body key).
Proof.
  unfold create_workload_grant. keeping_outside.
  apply keeps_transaction_at. intros space row member w u w' Ho Hrun HF.
  run_step. run_step. once_cases; [done|]. cbn.
  unfold create_grant_action in *. run_all; lookups.
  destruct (managed_spaces (w_db w) !! sid) as [m|] eqn:Hm; [|done].
  destruct (workload_revocations (w_db w) !! (sid, gq_attempt_id a0)) as [|] eqn:Hrv; [done|].
  bool_simpl. apply String.eqb_eq in H1.
  refine (fenced_grant _ _ _ _ _ m HF _ _ _ _ _ _ _); try done.
  - destruct (ms_retired_at m) eqn:Er; [|done]. pose proof (op_retired _ _ _ _ _ _ _ _ Ho m Hm) as E.
    rewrite Er in E. by discriminate E.
  - cbn. intros k h Hk Es Ep.
    assert (Hsel : String.eqb (gr_space_id h) sid && String.eqb (gr_principal_id h)
              (bound_principal_id (workload_issuer (auth_settings settings)) (gq_subject a0)) = true).
    { by rewrite Es, Ep, !String.eqb_refl. }
    pose proof (rows_none _ _ _ _ _ H12 Hk Hsel) as Hc. pose proof (rows_none _ _ _ _ _ H14 Hk Hsel) as He.
    pose proof (rows_none _ _ _ _ _ H15 Hk Hsel) as Hl. cbn in Hc, He, Hl.
    apply negb_false_iff, String.eqb_eq in Hc. split_and!; [done| |].
    + intros E. rewrite E in He. cbn in He. bool_simpl. by split; [apply String.eqb_eq|].
    + intros Hne. apply String.eqb_neq in Hne. rewrite Hne in Hl. cbn in Hl. bool_simpl. lia.
Qed.
End Commands.

Section System.
Context {P : Platform}.
#[local] Hint Resolve keeps_enable keeps_revoke keeps_retire_fenced keeps_grant keeps_release_fenced : keeps.

Lemma serve_fenced q : keeps RF (serve q).
Proof. each_request. Qed.

Lemma fenced_reachable d : reachable d -> Fenced d.
Proof. apply reachable_preserved; [exact fenced_empty|exact serve_fenced]. Qed.
End System.
