(* ===== verification/Provenance.v ===== *)
(** * References, bases and frozen inputs always resolve

    The rows that name records -- references, acquisitions with their frozen
    inputs and results, and records with a base -- name records that exist, in
    their own space.  In a space that is not retired a reference names a
    published, shared record, and a published record has a published base.
    Acquisitions of a reference have distinct fences, none above the fence of
    the reference, and only the one at that fence can be active. *)

From stdpp Require Import base gmap strings list fin_maps relations.
From Stdlib Require Import ZArith Lia.
From S2P Require Import Prelude Json Domain Schemas Profiles Models Storage Service Spaces Records Managed Coordination Transfers Uploads System Logic Accounting Consistency TransferConsistency.

(** The row [k] is a record of the space that satisfies [Q]. *)
Definition names (rc : gmap string Record_) (sid k : string) (Q : Record_ -> Prop) : Prop :=
  exists r, rc !! k = Some r /\ rec_space_id r = sid /\ Q r.

Definition retired (ms : gmap string ManagedSpace) (sid : string) : Prop :=
  exists m, ms !! sid = Some m /\ ms_retired_at m <> None.

Definition was_published (r : Record_) : Prop := is_Some (rec_published_at r).

Record record_links (rc : gmap string Record_) (ms : gmap string ManagedSpace) (k : string) (r : Record_) : Prop := {
  rl_id : rec_id r = k;
  rl_published : rec_state r = PUBLISHED -> was_published r;
  rl_draft : rec_state r = DRAFT -> rec_published_at r = None;
  rl_key : base_key_ok (rec_base_record_id r) = true;
  rl_base : forall b, rec_base_record_id r = Some b -> names rc (rec_space_id r) b (fun base =>
              rec_state r = PUBLISHED -> ~ retired ms (rec_space_id r) -> rec_state base = PUBLISHED);
}.

Record reference_ok (rc : gmap string Record_) (ms : gmap string ManagedSpace) (k : string * string) (f : Reference) : Prop := {
  rf_key : k = (ref_space_id f, ref_name f);
  rf_record : names rc (ref_space_id f) (ref_record_id f) (fun r =>
                ~ retired ms (ref_space_id f) -> rec_state r = PUBLISHED /\ rec_shared r = true);
}.

Record coordination_ok (rc : gmap string Record_) (rf : gmap (string * string) Reference) (k : string) (c : Coordination) : Prop := {
  co_key : co_id c = k;
  co_reference : exists f, rf !! (co_space_id c, co_reference_name c) = Some f /\
                   co_fence c <= ref_fence f /\ co_expected_generation c <= ref_generation f /\
                   (co_state c = CO_ACTIVE -> co_fence c = ref_fence f) /\
                   (co_state c = CO_COMPLETED -> co_expected_generation c < ref_generation f);
  co_result : (co_state c = CO_COMPLETED <-> is_Some (co_result_record_id c)) /\
              forall rid, co_result_record_id c = Some rid -> names rc (co_space_id c) rid was_published;
}.

Record input_ok (rc : gmap string Record_) (co : gmap string Coordination) (k : string * string) (i : CoordinationInput) : Prop := {
  in_key : k = (ci_attempt_id i, ci_record_id i);
  in_attempt : exists c, co !! ci_attempt_id i = Some c /\ co_space_id c = ci_space_id i;
  in_record : names rc (ci_space_id i) (ci_record_id i) was_published;
}.

Record Linked_tables (rc : gmap string Record_) (ms : gmap string ManagedSpace) (rf : gmap (string * string) Reference)
    (co : gmap string Coordination) (ci : gmap (string * string) CoordinationInput) : Prop := {
  li_record : forall k r, rc !! k = Some r -> record_links rc ms k r;
  li_reference : forall k f, rf !! k = Some f -> reference_ok rc ms k f;
  li_coordination : forall k c, co !! k = Some c -> coordination_ok rc rf k c;
  li_fence : forall j k c e, co !! j = Some c -> co !! k = Some e -> co_space_id c = co_space_id e ->
             co_reference_name c = co_reference_name e -> co_fence c = co_fence e -> j = k;
  li_input : forall k i, ci !! k = Some i -> input_ok rc co k i;
}.
Definition Linked (d : DB) : Prop :=
  Linked_tables (records d) (managed_spaces d) (references d) (coordinations d) (coordination_inputs d).

Abbreviation RL := (preserving Linked).

Lemma linked_empty : Linked empty_db.
Proof. split; [intros ? ? E|intros ? ? E|intros ? ? E|intros ? ? ? ? E|intros ? ? E]; exfalso; cbn in E; by rewrite lookup_empty in E. Qed.

(** ** Updates of records *)

(** A new version of the records in which every record named by others still is
    what they rely on. *)
Lemma names_mono rc rc' sid k (Q Q' : Record_ -> Prop) : names rc sid k Q ->
  (forall r, rc !! k = Some r -> rec_space_id r = sid -> Q r -> exists r', rc' !! k = Some r' /\ rec_space_id r' = sid /\ Q' r') ->
  names rc' sid k Q'.
Proof. intros (r & Hr & Hs & HQ) H. exact (H r Hr Hs HQ). Qed.

(** The record [k] is still there, published if it ever was. *)
Definition stays (rc rc' : gmap string Record_) (k : string) : Prop := forall r, rc !! k = Some r ->
  exists r', rc' !! k = Some r' /\ rec_space_id r' = rec_space_id r /\ (was_published r -> was_published r').
(** ... and still published and shared, in a space that is not retired. *)
Definition serves (rc rc' : gmap string Record_) (ms : gmap string ManagedSpace) (k : string) : Prop := forall r, rc !! k = Some r ->
  rec_state r = PUBLISHED -> rec_shared r = true -> ~ retired ms (rec_space_id r) ->
  exists r', rc' !! k = Some r' /\ rec_state r' = PUBLISHED /\ rec_shared r' = true.

Lemma linked_records rc rc' ms rf co ci : Linked_tables rc ms rf co ci ->
  (forall k r, rc' !! k = Some r -> record_links rc' ms k r) ->
  (forall k f, rf !! k = Some f -> stays rc rc' (ref_record_id f) /\ serves rc rc' ms (ref_record_id f)) ->
  (forall k c rid, co !! k = Some c -> co_result_record_id c = Some rid -> stays rc rc' rid) ->
  (forall k i, ci !! k = Some i -> stays rc rc' (ci_record_id i)) ->
  Linked_tables rc' ms rf co ci.
Proof.
  intros [Hr Hf Hc Hn Hi] Hr' Kf Kc Ki. split; [done| | |done|].
  - intros k f Hk. destruct (Hf k f Hk) as [E Hname]. split; [done|]. eapply names_mono; [exact Hname|].
    cbn. intros r Hrow Hs HQ. destruct (Kf k f Hk) as [K1 K2]. destruct (K1 r Hrow) as (r' & H1 & H2 & H3).
    exists r'. split_and!; [done|congruence|]. intros Hnr. destruct (HQ Hnr) as [Hp Hsh]. rewrite <- Hs in Hnr.
    destruct (K2 r Hrow Hp Hsh Hnr) as (x & H1' & ?). rewrite H1 in H1'. by injection H1' as <-.
  - intros k c Hk. destruct (Hc k c Hk) as [E Href [Hiff Hres]]. split; [done|done|]. split; [done|].
    intros rid Hrid. eapply names_mono; [exact (Hres rid Hrid)|]. cbn. intros r Hrow Hs HQ.
    destruct (Kc k c rid Hk Hrid r Hrow) as (r' & H1 & H2 & H3). exists r'. split_and!; [done|congruence|auto].
  - intros k i Hk. destruct (Hi k i Hk) as [E Hco Hname]. split; [done|done|]. eapply names_mono; [exact Hname|].
    cbn. intros r Hrow Hs HQ. destruct (Ki k i Hk r Hrow) as (r' & H1 & H2 & H3).
    exists r'. split_and!; [done|congruence|auto].
Qed.

(** One record replaced by a new version that keeps its identity. *)
Record new_version (rc : gmap string Record_) (ms : gmap string ManagedSpace) (k : string) (r r' : Record_) : Prop := {
  nv_id : rec_id r' = k;
  nv_space : rec_space_id r' = rec_space_id r;
  nv_was : was_published r -> was_published r';
  nv_published : rec_state r' = PUBLISHED -> was_published r';
  nv_draft : rec_state r' = DRAFT -> rec_published_at r' = None;
  nv_key : base_key_ok (rec_base_record_id r') = true;
  nv_base : forall b, rec_base_record_id r' = Some b -> names rc (rec_space_id r) b (fun base =>
              rec_state r' = PUBLISHED -> ~ retired ms (rec_space_id r) -> rec_state base = PUBLISHED);
}.

Lemma linked_update rc ms rf co ci k r r' : Linked_tables rc ms rf co ci -> rc !! k = Some r -> new_version rc ms k r r' ->
  (rec_state r = PUBLISHED -> ~ retired ms (rec_space_id r) ->
     (rec_state r' = PUBLISHED /\ rec_shared r' = rec_shared r) \/
     (forall j f, rf !! j = Some f -> ref_record_id f <> k) /\
     (forall j x, rc !! j = Some x -> rec_space_id x = rec_space_id r -> rec_base_record_id x = Some k -> rec_state x <> PUBLISHED)) ->
  Linked_tables (<[k := r']> rc) ms rf co ci.
Proof.
  intros HL Hk [Hid Hsp Hwp Hpub Hdr Hkey Hbase] Hstop. pose proof HL as [Hr Hf Hc Hn Hi].
  assert (Hstays : forall j, stays rc (<[k := r']> rc) j).
  { intros j x Hx. destruct (decide (j = k)) as [->|Hne].
    - rewrite Hk in Hx. injection Hx as <-. exists r'. by rewrite lookup_insert_eq.
    - exists x. by rewrite lookup_insert_ne by congruence. }
  assert (Hbases : forall b x, rec_space_id x = rec_space_id r \/ b <> k -> forall sid, rec_space_id x = sid ->
            (rec_state x = PUBLISHED -> b = k -> ~ retired ms sid -> rec_state r = PUBLISHED -> rec_state r' = PUBLISHED) ->
            names rc sid b (fun base => rec_state x = PUBLISHED -> ~ retired ms sid -> rec_state base = PUBLISHED) ->
            names (<[k := r']> rc) sid b (fun base => rec_state x = PUBLISHED -> ~ retired ms sid -> rec_state base = PUBLISHED)).
  { intros b x Hor sid Hsid Hx Hname. eapply names_mono; [exact Hname|]. cbn. intros base Hrow Hs HQ.
    destruct (decide (b = k)) as [->|Hbk].
    - rewrite Hk in Hrow. injection Hrow as <-. exists r'. rewrite lookup_insert_eq. split_and!; [done|congruence|auto].
    - exists base. by rewrite lookup_insert_ne by congruence. }
  apply (linked_records rc); [done| | |by auto|by auto].
  - intros j x Hx. destruct (decide (j = k)) as [->|Hne].
    + rewrite lookup_insert_eq in Hx. injection Hx as <-. split; [done..|].
      intros b Hb. rewrite Hsp. apply Hbases; [by left|done| |exact (Hbase b Hb)]. intros ? -> ? _. done.
    + rewrite lookup_insert_ne in Hx by congruence. destruct (Hr _ _ Hx) as [E1 E2 E3 E5 E4]. split; [done..|].
      intros b Hb. destruct (decide (b = k)) as [->|Hbk].
      * destruct (E4 k Hb) as (base & Hrow & Hs & _). rewrite Hk in Hrow. injection Hrow as <-.
        apply Hbases; [by left|done| |exact (E4 k Hb)]. intros Hxp _ Hnr Hrp. rewrite <- Hs in Hnr.
        destruct (Hstop Hrp Hnr) as [[? _]|[_ Hd]]; [done|]. by destruct (Hd _ _ Hx ltac:(congruence) Hb).
      * apply Hbases; [by right|done| |exact (E4 b Hb)]. done.
  - intros j f Hj. split; [apply Hstays|]. intros x Hx Hp Hsh Hnr. destruct (decide (ref_record_id f = k)) as [E|Hne].
    + rewrite E in *. rewrite Hk in Hx. injection Hx as <-. exists r'. rewrite lookup_insert_eq.
      destruct (Hstop Hp Hnr) as [[? ?]|[Hd _]]; [split_and!; congruence|]. by destruct (Hd _ _ Hj).
    + exists x. by rewrite lookup_insert_ne by congruence.
Qed.

(** A new draft. *)
Lemma linked_new_record rc ms rf co ci k r : Linked_tables rc ms rf co ci -> rc !! k = None -> rec_id r = k ->
  rec_state r = DRAFT -> rec_published_at r = None -> base_key_ok (rec_base_record_id r) = true ->
  (forall b, rec_base_record_id r = Some b -> names rc (rec_space_id r) b (fun _ => True)) ->
  Linked_tables (<[k := r]> rc) ms rf co ci.
Proof.
  intros HL Hk Hid Hst Hpub Hkey Hbase.
  assert (Hsame : forall j x, rc !! j = Some x -> (<[k := r]> rc) !! j = Some x)
    by (intros j x Hx; rewrite lookup_insert_ne by congruence; done).
  apply (linked_records rc); [done| | | |].
  - intros j x Hx. rewrite lookup_insert_Some in Hx. destruct Hx as [[<- <-]|[_ Hx]].
    + split; [done|congruence|done|done|]. intros b Hb. eapply names_mono; [exact (Hbase b Hb)|]. cbn.
      intros base Hrow Hs _. exists base. split_and!; [auto|done|congruence].
    + destruct (li_record _ _ _ _ _ HL _ _ Hx) as [E1 E2 E3 E5 E4]. split; [done..|]. intros b Hb.
      eapply names_mono; [exact (E4 b Hb)|]. cbn. intros base Hrow Hs HQ. exists base. auto.
  - intros j f _. split; intros x Hx; [|intros]; exists x; auto.
  - intros j c rid _ _ x Hx. exists x. auto.
  - intros j i _ x Hx. exists x. auto.
Qed.

(** A record nothing names is forgotten. *)
Lemma linked_purge rc ms rf co ci k r : Linked_tables rc ms rf co ci -> rc !! k = Some r ->
  is_terminal (rec_state r) = true -> ~ retired ms (rec_space_id r) ->
  (forall j x, rc !! j = Some x -> rec_space_id x = rec_space_id r -> rec_base_record_id x <> Some k) ->
  (forall j c, co !! j = Some c -> co_result_record_id c <> Some k) ->
  (forall j i, ci !! j = Some i -> ci_record_id i <> k) ->
  Linked_tables (delete k rc) ms rf co ci.
Proof.
  intros HL Hk Ht Hnr Hb Hc Hi. apply (linked_records rc); [done| | | |].
  - intros j x Hx. apply lookup_delete_Some in Hx as [Hne Hx]. destruct (li_record _ _ _ _ _ HL _ _ Hx) as [E1 E2 E3 E5 E4].
    split; [done..|]. intros b Hxb. eapply names_mono; [exact (E4 b Hxb)|]. cbn. intros base Hrow Hs HQ. exists base.
    rewrite lookup_delete_ne; [done|]. intros <-. rewrite Hk in Hrow. injection Hrow as <-. by apply (Hb _ _ Hx).
  - intros j f Hj. assert (Hne : ref_record_id f <> k).
    { intros E. destruct (li_reference _ _ _ _ _ HL _ _ Hj) as [_ (x & Hx & Hs & HQ)]. rewrite E, Hk in Hx. injection Hx as <-.
      rewrite Hs in Hnr. destruct (HQ Hnr) as [Hp _]. by rewrite Hp in Ht. }
    split; intros x Hx; [|intros]; exists x; by rewrite lookup_delete_ne by congruence.
  - intros j c rid Hj Hrid x Hx. exists x. rewrite lookup_delete_ne; [done|]. intros <-. by apply (Hc _ _ Hj).
  - intros j i Hj x Hx. exists x. rewrite lookup_delete_ne; [done|]. intros E. by apply (Hi _ _ Hj).
Qed.

(** The sharing of a kind changes; to private only when no reference names it. *)
Lemma linked_share rc ms rf co ci (p : Record_ -> bool) b : Linked_tables rc ms rf co ci ->
  (b = false -> forall j f r, rf !! j = Some f -> rc !! ref_record_id f = Some r -> rec_space_id r = ref_space_id f -> p r = false) ->
  Linked_tables ((fun r => if p r then r <| rec_shared := b |> else r) <$> rc) ms rf co ci.
Proof.
  intros HL Hb. set (g r := if p r then r <| rec_shared := b |> else r).
  assert (Hg : forall r, rec_id (g r) = rec_id r /\ rec_state (g r) = rec_state r /\ rec_published_at (g r) = rec_published_at r
            /\ rec_base_record_id (g r) = rec_base_record_id r /\ rec_space_id (g r) = rec_space_id r)
    by (intros r; unfold g; by destruct (p r)).
  assert (Hs : forall j, stays rc (g <$> rc) j).
  { intros j x Hx. exists (g x). rewrite lookup_fmap, Hx. destruct (Hg x) as (E1 & E2 & E3 & E4 & E5). unfold was_published.
    rewrite E3. done. }
  apply (linked_records rc); [done| | |auto|auto].
  - intros j x Hx. apply lookup_fmap_Some in Hx as (x0 & <- & Hx). destruct (Hg x0) as (E1 & E2 & E3 & E4 & E5).
    destruct (li_record _ _ _ _ _ HL _ _ Hx) as [H1 H2 H3 H5 H4]. unfold was_published in *.
    split; unfold was_published; rewrite ?E1, ?E2, ?E3, ?E4, ?E5; try done.
    intros c Hc. eapply names_mono; [exact (H4 c Hc)|]. cbn. intros base Hrow Hsp HQ. exists (g base).
    rewrite lookup_fmap, Hrow. destruct (Hg base) as (F1 & F2 & F3 & F4 & F5). rewrite F2, F5. done.
  - intros j f Hj. split; [apply Hs|]. intros x Hx Hp Hsh _. exists (g x). rewrite lookup_fmap, Hx. split_and!; [done| |].
    + by destruct (Hg x) as (_ & -> & _).
    + unfold g. destruct (p x) eqn:Epx; [|done]. cbn. destruct b; [done|].
      rewrite (Hb eq_refl _ _ _ Hj Hx) in Epx; [done|].
      destruct (li_reference _ _ _ _ _ HL _ _ Hj) as [_ (y & Hy & Hys & _)]. congruence.
Qed.

(** ** Updates of the other tables *)
Lemma linked_managed rc ms ms' rf co ci : Linked_tables rc ms rf co ci ->
  (forall sid, retired ms sid -> retired ms' sid) -> Linked_tables rc ms' rf co ci.
Proof.
  intros [Hr Hf Hc Hn Hi] Hret. split; try done.
  - intros k r Hk. destruct (Hr k r Hk) as [E1 E2 E3 E5 E4]. split; [done..|]. intros b Hb.
    eapply names_mono; [exact (E4 b Hb)|]. cbn. intros base Hrow Hs HQ. exists base. split_and!; [done..|]. intros Hp Hnr. apply HQ; [done|]. intros Hx. by apply Hnr, Hret.
  - intros k f Hk. destruct (Hf k f Hk) as [E Hname]. split; [done|]. eapply names_mono; [exact Hname|].
    cbn. intros r Hrow Hs HQ. exists r. split_and!; [done..|]. intros Hnr. apply HQ. intros Hx. by apply Hnr, Hret.
Qed.

Lemma linked_reference rc ms rf co ci k f' : Linked_tables rc ms rf co ci -> reference_ok rc ms k f' ->
  match rf !! k with
  | Some f => ref_fence f <= ref_fence f' /\ ref_generation f <= ref_generation f' /\
      (ref_fence f' = ref_fence f \/ forall j c, co !! j = Some c -> (co_space_id c, co_reference_name c) = k -> co_state c <> CO_ACTIVE)
  | None => True
  end ->
  Linked_tables rc ms (<[k := f']> rf) co ci.
Proof.
  intros [Hr Hf Hc Hn Hi] Hok Hold. split; try done.
  - intros j f Hj. rewrite lookup_insert_Some in Hj. destruct Hj as [[<- <-]|[_ Hj]]; [done|auto].
  - intros j c Hj. destruct (Hc j c Hj) as [E (f & Hrow & H1 & H2 & H3 & H4) Hres]. split; [done| |done].
    destruct (decide ((co_space_id c, co_reference_name c) = k)) as [Ek|Hne].
    + rewrite Ek, lookup_insert_eq. exists f'. rewrite Ek in Hrow. rewrite Hrow in Hold. destruct Hold as (G1 & G2 & G3).
      split_and!; [done|lia|lia| |].
      * intros Ha. destruct G3 as [->|G3]; [auto|]. by destruct (G3 _ _ Hj Ek).
      * intros Hcomp. specialize (H4 Hcomp). lia.
    + rewrite lookup_insert_ne by congruence. by exists f.
Qed.

(** Coordinations that leave the active state, keeping what identifies them. *)
Lemma linked_stop rc ms rf co ci (p : Coordination -> bool) : Linked_tables rc ms rf co ci ->
  (forall c, p c = true -> co_state c = CO_ACTIVE) ->
  Linked_tables rc ms rf ((fun c => if p c then c <| co_state := CO_EXPIRED |> else c) <$> co) ci.
Proof.
  intros [Hr Hf Hc Hn Hi] Hp. set (g c := if p c then c <| co_state := CO_EXPIRED |> else c).
  assert (Hg : forall c, co_id (g c) = co_id c /\ co_space_id (g c) = co_space_id c /\ co_reference_name (g c) = co_reference_name c
            /\ co_fence (g c) = co_fence c /\ co_expected_generation (g c) = co_expected_generation c
            /\ co_result_record_id (g c) = co_result_record_id c
            /\ (co_state (g c) = CO_ACTIVE -> co_state c = CO_ACTIVE)
            /\ (co_state (g c) = CO_COMPLETED <-> co_state c = CO_COMPLETED)).
  { intros c. unfold g. destruct (p c) eqn:E; [|done]. pose proof (Hp c E) as Ha. cbn. split_and!; try done. split; [done|congruence]. }
  split; try done.
  - intros j c Hj. apply lookup_fmap_Some in Hj as (c0 & <- & Hj). destruct (Hg c0) as (E1 & E2 & E3 & E4 & E5 & E6 & E7 & E8).
    destruct (Hc _ _ Hj) as [H1 (f & Hrow & H2 & H3 & H4 & H5) [H6 H7]].
    split; rewrite ?E1, ?E2, ?E3, ?E4, ?E5, ?E6; [done| |].
    + exists f. split_and!; [done..|by intros ?%E7; auto|by intros ?%E8; auto].
    + split; [by rewrite E8|done].
  - intros j k c e Hj Hk. apply lookup_fmap_Some in Hj as (c0 & <- & Hj), Hk as (e0 & <- & Hk).
    destruct (Hg c0) as (_ & -> & -> & -> & _), (Hg e0) as (_ & -> & -> & -> & _). by apply Hn.
  - intros j i Hj. destruct (Hi j i Hj) as [E (c & Hco & Hs) Hname]. split; [done| |done]. exists (g c).
    rewrite lookup_fmap, Hco. by destruct (Hg c) as (_ & -> & _).
Qed.

(** A new acquisition, at the fence of the reference. *)
Lemma linked_acquire rc ms rf co ci k c f : Linked_tables rc ms rf co ci -> co !! k = None -> co_id c = k ->
  rf !! (co_space_id c, co_reference_name c) = Some f -> co_fence c = ref_fence f ->
  co_expected_generation c <= ref_generation f -> co_state c = CO_ACTIVE -> co_result_record_id c = None ->
  (forall j e, co !! j = Some e -> co_space_id e = co_space_id c -> co_reference_name e = co_reference_name c ->
     co_fence e < co_fence c) ->
  Linked_tables rc ms rf (<[k := c]> co) ci.
Proof.
  intros [Hr Hf Hc Hn Hi] Hk Hid Hrow Hfence Hgen Hst Hres Hlt. split; try done.
  - intros j e Hj. rewrite lookup_insert_Some in Hj. destruct Hj as [[<- <-]|[_ Hj]]; [|auto]. split; [done| |].
    + exists f. split_and!; try done; [lia|congruence].
    + split; [rewrite Hst, Hres; split; [done|by intros []]|congruence].
  - intros i j e e' H1 H2 Es En Ef. rewrite lookup_insert_Some in H1. rewrite lookup_insert_Some in H2.
    destruct H1 as [[<- <-]|[_ H1]], H2 as [[<- <-]|[_ H2]]; try done.
    + specialize (Hlt _ _ H2 (eq_sym Es) (eq_sym En)). lia.
    + specialize (Hlt _ _ H1 Es En). lia.
    + eauto.
  - intros j i Hj. destruct (Hi j i Hj) as [E (e & Hco & Hs) Hname]. split; [done| |done]. exists e.
    rewrite lookup_insert_ne by congruence. done.
Qed.

(** An acquisition moves on. *)
Lemma linked_coordination rc ms rf co ci k c c' : Linked_tables rc ms rf co ci -> co !! k = Some c ->
  co_id c' = co_id c -> co_space_id c' = co_space_id c -> co_reference_name c' = co_reference_name c -> co_fence c' = co_fence c ->
  co_expected_generation c' = co_expected_generation c -> (co_state c' = CO_ACTIVE -> co_state c = CO_ACTIVE) ->
  (co_state c' = CO_COMPLETED -> forall f, rf !! (co_space_id c, co_reference_name c) = Some f -> co_expected_generation c < ref_generation f) ->
  (co_state c' = CO_COMPLETED <-> is_Some (co_result_record_id c')) ->
  (forall rid, co_result_record_id c' = Some rid -> names rc (co_space_id c) rid was_published) ->
  Linked_tables rc ms rf (<[k := c']> co) ci.
Proof.
  intros [Hr Hf Hc Hn Hi] Hk E1 E2 E3 E4 E5 Ha Hcomp Hiff Hres. split; try done.
  - intros j e Hj. rewrite lookup_insert_Some in Hj. destruct Hj as [[<- <-]|[_ Hj]]; [|auto].
    destruct (Hc _ _ Hk) as [H1 (f & Hrow & H2 & H3 & H4 & H5) _]. split; [congruence| |].
    + exists f. rewrite E2, E3, E4, E5. split_and!; auto.
    + rewrite E2. done.
  - intros i j e e' H1 H2. rewrite lookup_insert_Some in H1. rewrite lookup_insert_Some in H2.
    destruct H1 as [[<- <-]|[_ H1]], H2 as [[<- <-]|[_ H2]]; rewrite ?E2, ?E3, ?E4; try done; intros; eauto.
  - intros j i Hj. destruct (Hi j i Hj) as [E (e & Hco & Hs) Hname]. split; [done| |done].
    destruct (decide (ci_attempt_id i = k)) as [Ek|Hne].
    + exists c'. rewrite Ek, lookup_insert_eq. rewrite Ek, Hk in Hco. injection Hco as <-. split; [done|congruence].
    + exists e. by rewrite lookup_insert_ne by congruence.
Qed.

Lemma linked_input rc ms rf co ci k i : Linked_tables rc ms rf co ci -> input_ok rc co k i -> Linked_tables rc ms rf co (<[k := i]> ci).
Proof.
  intros [Hr Hf Hc Hn Hi] Hok. split; try done. intros j x Hj. rewrite lookup_insert_Some in Hj.
  destruct Hj as [[<- <-]|[_ Hj]]; auto.
Qed.

(** ** The commands *)
Section Commands.
Context {P : Platform}.

(** Nothing relies on the record [rid] being published. *)
Definition unneeded (d : DB) (rid : string) : Prop := forall r, records d !! rid = Some r -> rec_state r = PUBLISHED ->
  ~ retired (managed_spaces d) (rec_space_id r) ->
  (forall j f, references d !! j = Some f -> ref_record_id f <> rid) /\
  (forall j x, records d !! j = Some x -> rec_space_id x = rec_space_id r -> rec_base_record_id x = Some rid -> rec_state x <> PUBLISHED).

Lemma unneeded_draft d rid r : records d !! rid = Some r -> rec_state r <> PUBLISHED -> unneeded d rid.
Proof. intros Hr Hst x Hx Hp. congruence. Qed.

Lemma release_linked sid rid st w u w' : release sid rid st w = (Ok u, w') -> Linked (w_db w) -> is_terminal st = true ->
  unneeded (w_db w) rid -> Linked (w_db w').
Proof.
  unfold release. intros H HL Hst Hun. apply bind_ok in H as (o & w1 & Ho & H). apply get_row_ok in Ho as [-> ->].
  tables. destruct (records (w_db w) !! rid) as [r|] eqn:Hr; [|by inv_ok]. destruct (is_terminal (rec_state r)) eqn:Et; [by run_ok|].
  apply bind_ok in H as (v & w1 & Hset & H). apply update_table_ok in Hset as ->.
  assert (K : keeps RL (set_row SPACES sid (fun s => s <| allocated ::= fun a => a - rec_declared_bytes r |>) ;;
    let* now := database_time in let* bs := record_blobs rid in for_each bs (release_blob sid now) ;;
    emit sid ("record." +:+ record_state_value st) "system" (Some rid)
      [("state", JStr (record_state_value st)); ("kind", JStr (rec_kind r));
       ("published", JBool (match rec_published_at r with Some _ => true | None => false end))])).
  { unfold release_blob. keeping. }
  refine (K _ _ _ H _). clear K H. unfold Linked. cbn. rewrite (alter_row _ _ _ _ Hr).
  destruct (li_record _ _ _ _ _ HL _ _ Hr) as [E1 E2 E3 E5 E4].
  eapply linked_update; [exact HL|exact Hr| |].
  - split; try done.
    + cbn. by intros ->.
    + cbn. by intros ->.
    + cbn. intros b Hb. destruct (E4 b Hb) as (base & Hrow & Hs & _). exists base. split_and!; [done..|]. by intros ->.
  - intros Hp Hnr. right. exact (Hun _ Hr Hp Hnr).
Qed.

Lemma withdrawn_stops r : is_terminal (withdrawn_state r) = true.
Proof. unfold withdrawn_state. by destruct (bool_decide _). Qed.

Lemma keeps_expire_linked rid : keeps RL (expire_body rid).
Proof.
  unfold expire_body. intros w u w' H HL. run_all; try done.
  match goal with Hx : release _ _ _ _ = _ |- _ => refine (release_linked _ _ _ _ _ _ Hx HL eq_refl _) end.
  bool_simpl. unfold the in *. run_all. eapply unneeded_draft; [eassumption|]. congruence.
Qed.

Lemma keeps_expires_at_linked rid g : keeps RL (set_row RECORDS rid (fun r => r <| rec_expires_at ::= g |>)).
Proof.
  apply keeps_set_row. intros d HL. unfold Linked. cbn. destruct (records d !! rid) as [r|] eqn:Hr; [|by rewrite alter_id'].
  rewrite (alter_row _ _ _ _ Hr). destruct (li_record _ _ _ _ _ HL _ _ Hr) as [E1 E2 E3 E5 E4].
  eapply linked_update; [exact HL|exact Hr|by split|]. intros Hp Hnr. by left.
Qed.
#[local] Hint Resolve keeps_expires_at_linked : keeps.

Lemma keeps_commit_linked att st res : keeps RL (commit_body att st res).
Proof.
  destruct (decide (st = XFER_FAILED)) as [->|Hne].
  - unfold commit_body, commit_outcome, the. intros w u w' H HL. run_all; try done.
    match goal with Hx : release _ _ _ _ = _ |- _ => refine (release_linked _ _ _ _ _ _ Hx HL eq_refl _) end.
    bool_simpl. eapply unneeded_draft; [eassumption|]. congruence.
  - unfold commit_body, commit_outcome, commit_verified, commit_cleaned, the. keeping. done.
Qed.

Lemma keeps_withdraw_linked p sid rid : keeps RL (withdraw_record p sid rid).
Proof.
  unfold withdraw_record. apply keeps_transaction_at. intros space row member w u w' Ho H HL.
  apply bind_ok in H as (r & w1 & Hr & H).
  assert (Hrow : w1 = w /\ exists k, records (w_db w) !! k = Some r /\ rec_space_id r = sid).
  { unfold record_in_space in Hr. run_all; (split; [done|]); eexists; split; try eassumption; try done. by apply String.eqb_eq. }
  clear Hr. destruct Hrow as (-> & k & Hk & Hs). destruct (li_record _ _ _ _ _ HL _ _ Hk) as [<- _ _ _ _].
  run_all; lookups; try done.
  match goal with Hx : release _ _ _ _ = _ |- _ => refine (release_linked _ _ _ _ _ _ Hx HL (withdrawn_stops r) _) end.
  match goal with Hd : existsb _ (map_to_list (records _)).*2 = false, Hf : existsb _ (map_to_list (references _)).*2 = false |- _ =>
    rename Hd into Hder, Hf into Href end.
  intros x Hx _ _. cbn in Hx. rewrite Hk in Hx. injection Hx as <-. split.
  - intros j f Hj E. pose proof (existsb_rows_false _ _ Href _ _ Hj) as Hf. cbn in Hf.
    destruct (li_reference _ _ _ _ _ HL _ _ Hj) as [_ (y & Hy & Hys & _)]. rewrite E, Hk in Hy. injection Hy as <-.
    by rewrite E, <- Hys, !String.eqb_refl in Hf.
  - intros j y Hj Es Eb Ep. pose proof (existsb_rows_false _ _ Hder _ _ Hj) as Hf. cbn in Hf.
    rewrite Es, String.eqb_refl, Eb, Ep, !bool_decide_eq_true_2 in Hf by done. done.
Qed.

Lemma release_retired sid rid st w u w' : release sid rid st w = (Ok u, w') -> is_terminal st = true ->
  retired (managed_spaces (w_db w)) sid -> (forall r, records (w_db w) !! rid = Some r -> rec_space_id r = sid) ->
  Linked (w_db w) -> Linked (w_db w').
Proof.
  intros H Hst Hret Hsp HL. refine (release_linked _ _ _ _ _ _ H HL Hst _). intros r Hr _ Hnr. by rewrite (Hsp r Hr) in Hnr.
Qed.

(** The records keep their spaces, the spaces stay retired. *)
Definition same_homes (d d' : DB) : Prop := managed_spaces d' = managed_spaces d /\
  forall k r', records d' !! k = Some r' -> exists r, records d !! k = Some r /\ rec_space_id r' = rec_space_id r.
#[local] Instance same_homes_preorder : PreOrder same_homes.
Proof.
  split; [split; eauto|]. intros d1 d2 d3 [E1 H1] [E2 H2]. split; [congruence|]. intros k r3 Hk.
  destruct (H2 _ _ Hk) as (r2 & Hk2 & E3). destruct (H1 _ _ Hk2) as (r1 & Hk1 & E4). exists r1. split; [done|congruence].
Qed.
Lemma keeps_release_homes sid rid st : keeps same_homes (release sid rid st).
Proof.
  unfold release, release_blob. keeping. apply keeps_set_row. intros d. split; [done|]. cbn. intros k r' Hk.
  apply lookup_alter_Some in Hk as [(-> & x & Hx & ->)|[_ Hk]]; eauto.
Qed.

Lemma withdraw_all_linked sid w u w' : withdraw_all sid w = (Ok u, w') -> retired (managed_spaces (w_db w)) sid ->
  Linked (w_db w) -> Linked (w_db w').
Proof.
  unfold withdraw_all. intros H Hret HL. apply bind_ok in H as (rs & w1 & Hsel & H). apply select_where_ok in Hsel as [-> ->].
  enough (G : Linked (w_db w') /\ same_homes (w_db w) (w_db w')) by apply G.
  eapply (for_each_ok _ _ (fun w1 => Linked (w_db w1) /\ same_homes (w_db w) (w_db w1))); [exact H|by split|].
  intros r w1 w2 Hin [HL1 Hh] Hrel. apply elem_of_rows in Hin as [Hs (k & Hk)]. apply String.eqb_eq in Hs.
  split; [|transitivity (w_db w1); [done|exact (keeps_release_homes _ _ _ _ _ _ Hrel)]].
  destruct Hh as [Em Hh]. refine (release_retired _ _ _ _ _ _ Hrel (withdrawn_stops r) _ _ HL1); [by rewrite Em|].
  intros r1 Hr1. destruct (Hh _ _ Hr1) as (r0 & Hr0 & E). rewrite (rl_id _ _ _ _ (li_record _ _ _ _ _ HL _ _ Hk)) in Hr0.
  tables. congruence.
Qed.

Lemma keeps_retire_linked p sid body key : keeps RL (retire_managed_space p sid body key).
Proof.
  unfold retire_managed_space. keeping_outside.
  apply keeps_transaction_at. intros space row member w u w' _ H HL.
  run_all; try done. once_cases; [done|]. run_all; lookups; try exact HL.
  match goal with Hw : withdraw_all _ _ = _ |- _ => refine (withdraw_all_linked _ _ _ _ Hw _ _) end.
  - eexists. cbn. match goal with Hm : managed_spaces _ !! _ = Some _ |- _ => rewrite lookup_alter_eq, Hm end. by split.
  - refine (linked_managed _ _ _ _ _ _ HL _). intros s (y & Hy & Hn). destruct (decide (sid = s)) as [<-|Hne].
    + eexists. cbn. rewrite lookup_alter_eq, Hy. by split.
    + exists y. cbn. by rewrite lookup_alter_ne.
Qed.

Lemma keeps_enable_linked p sid body key : keeps RL (enable_managed_space p sid body key).
Proof.
  unfold enable_managed_space. keeping. intros w u w' H HL. run_ok. refine (linked_managed _ _ _ _ _ _ HL _).
  intros s (y & Hy & Hn). exists y. cbn. by rewrite lookup_insert_ne by congruence.
Qed.

Lemma opened_active sid p d space row member : opened sid p true false d space row member -> ~ retired (managed_spaces d) sid.
Proof. intros Ho (m & Hm & Hn). by pose proof (op_retired _ _ _ _ _ _ _ _ Ho m Hm Hn). Qed.

Lemma keeps_purge_linked p sid rid : keeps RL (purge_record p sid rid).
Proof.
  unfold purge_record. apply keeps_transaction_at. intros space row member w u w' Ho H HL.
  unfold record_in_space in H. run_all; lookups; try done. 
  apply String.eqb_eq in Heqb. bool_simpl.
  repeat match goal with Hx : existsb _ (map_to_list _).*2 = false |- _ => pose proof (existsb_rows_false _ _ Hx); clear Hx end.
  match goal with Hk : records (w_db w) !! rid = Some r |- _ =>
    pose proof (rl_id _ _ _ _ (li_record _ _ _ _ _ HL _ _ Hk)) as Hid; rewrite <- Hid in Hk;
    refine (linked_purge _ _ _ _ _ _ r HL Hk _ _ _ _ _) end.
  - done.
  - rewrite Heqb. exact (opened_active _ _ _ _ _ _ Ho).
  - match goal with Hx : forall _ (_ : Record_), _ -> _ |- _ => intros j x Hj Es Eb; pose proof (Hx j x Hj) as E; cbn in E end.
    rewrite Es, Heqb, String.eqb_refl, Eb, bool_decide_eq_true_2 in E; done.
  - match goal with Hx : forall _ (_ : Coordination), _ -> _ |- _ => intros j c Hj Ec; pose proof (Hx j c Hj) as E; cbn in E end.
    by rewrite Ec, bool_decide_eq_true_2 in E.
  - match goal with Hx : forall _ (_ : CoordinationInput), _ -> _ |- _ => intros j i Hj Ei; pose proof (Hx j i Hj) as E; cbn in E end.
    by rewrite Ei, String.eqb_refl in E.
Qed.

Lemma validate_policy_visibility body roles v : validate_policy body = Ok (roles, v) -> v = "shared" \/ v = "private".
Proof.
  unfold validate_policy. destruct (get_or body "publish_roles" _) as [| | | | |[|x l]|]; try done.
  destruct (check_roles _ _ _) as [rs|]; [|done]. destruct (get_or body "visibility" _) as [| | | |s| |]; try done.
  destruct (mem_str s _) eqn:E; [|done]. intros [= <- <-]. unfold mem_str in E. bool_simpl. set_solver.
Qed.

Lemma keeps_policy_linked p sid kind body : keeps RL (put_policy p sid kind body).
Proof.
  unfold put_policy. apply keeps_transaction_at. intros space row member w u w' Ho H HL.
  run_all; lookups. refine (linked_share _ _ _ _ _ _ _ HL _). intros Hv j f r Hf Hr Hs.
  match goal with Hx : String.eqb _ "private" && _ = false, Hy : validate_policy _ = _ |- _ =>
    rename Hx into Hp; destruct (validate_policy_visibility _ _ _ Hy) as [-> | ->] end; [done|].
  cbn in Hp. pose proof (existsb_rows_false _ _ Hp _ _ Hf) as E. cbn in E. rewrite Hr, <- Hs in E.
  by destruct (String.eqb (rec_space_id r) sid).
Qed.

(** The base of a draft that its checks let through. *)
Lemma base_named rc base_id sid : (truthy base_id = true -> exists b, base_id = JStr b /\ names rc sid b (fun _ => True)) ->
  base_key_ok (base_column base_id) = true -> forall b, base_column base_id = Some b -> names rc sid b (fun _ => True).
Proof.
  intros Ht Hk b Hb. destruct base_id; try done. cbn in *. injection Hb as ->. apply negb_true_iff in Hk.
  rewrite Hk in Ht. destruct (Ht eq_refl) as (c & [= ->] & Hn). exact Hn.
Qed.

Lemma keeps_add_blob_linked sid rid e d : keeps RL (add_blob sid rid e d).
Proof. unfold add_blob. keeping. Qed.

Lemma create_linked space member p sid body w u w' : create_record_action space member p sid body w = (Ok u, w') ->
  Linked (w_db w) -> Linked (w_db w').
Proof.
  intros H HL. unfold create_record_action in H.
  run_all; lookups; match goal with Hx : for_each _ (add_blob ?s ?r ?e) ?w1 = (Ok _, ?w2) |- _ =>
      enough (HL1 : Linked (w_db w1)) by
        exact (keeps_for_each RL _ _ (fun d _ => keeps_add_blob_linked s r e d) _ _ _ Hx HL1) end.
  all: apply (linked_new_record _ _ _ _ _ _ _ HL); bool_simpl; [done|done|done|done|done|]; cbn.
  all: apply base_named; [|done].
  - intros _. do 2 eexists; [eassumption|]. eexists. split_and!; [eassumption|done|done].
  - congruence.
Qed.

Lemma keeps_create_linked p sid body key : keeps RL (create_record p sid body key).
Proof.
  unfold create_record. keeping_outside. apply keeps_transaction_at. intros space row member w u w' Ho H HL.
  run_step. run_step. once_cases; [done|].
  match goal with Hx : create_record_action _ _ _ _ _ _ = _ |- _ => exact (create_linked _ _ _ _ _ _ _ _ Hx HL) end.
Qed.

Lemma keeps_patch_linked p sid rid body v : keeps RL (patch_record p sid rid body v).
Proof.
  apply keeps_transaction_at. intros space row member w a w' Ho H HL. unfold check_draft in H. run_all; lookups.
  all: match goal with H : records _ !! _ = Some ?x, _ : rec_creator ?x = _ |- _ => rename H into Hr; rename x into r end.
  all: unfold Linked; cbn; rewrite (alter_row _ _ _ _ Hr); bool_simpl.
  all: destruct (li_record _ _ _ _ _ HL _ _ Hr) as [E1 E2 E3 E5 E4].
  all: apply (linked_update _ _ _ _ _ _ r); [exact HL|exact Hr| |congruence]; split; cbn; try done.
  all: match goal with |- forall b, base_column ?base_id = Some b -> _ =>
         intros b Hb; cut (names (records (w_db w)) (rec_space_id r) b (fun _ => True));
         [intros (base & Hrow & Hs & _); exists base; split_and!; [done|done|congruence]
         |revert b Hb; apply base_named; [|done]] end.
  - intros _. do 2 eexists; [eassumption|]. eexists. split_and!; [eassumption|done|done].
  - congruence.
Qed.

Lemma keeps_publish_linked p sid rid key : keeps RL (publish_record p sid rid key).
Proof.
  apply keeps_transaction_at. intros space row member w a w' Ho H HL. run_all. once_cases; [done|].
  match goal with Hx : publish_record_action _ _ _ _ ?x _ _ = _, Hy : records _ !! _ = Some ?x |- _ =>
    rename Hx into Hrun; rename Hy into Hr; rename x into r end.
  destruct (li_record _ _ _ _ _ HL _ _ Hr) as [<- E2 E3 E5 E4].
  unfold publish_record_action, check_draft in Hrun. run_all; lookups.
  all: unfold Linked; cbn; rewrite (alter_row _ _ _ _ Hr); bool_simpl.
  all: apply (linked_update _ _ _ _ _ _ r); [exact HL|exact Hr| |congruence]; split; cbn; try done.
  all: try (intros; unfold was_published; cbn; by eauto).
  all: try congruence.
  - intros b Hb. match goal with Hx : String.eqb _ "" = true |- _ => cbn in E5; by rewrite Hx in E5 end.
  - intros b Hb. match goal with Hx : rec_base_record_id r = Some _ |- _ => rewrite Hx in Hb; injection Hb as -> end.
    eexists. split_and!; [eassumption|done|]. by intros _ _.
Qed.

Lemma keeps_put_reference_linked p sid name body token key : keeps RL (put_reference p sid name body token key).
Proof.
  unfold put_reference. keeping_outside. apply keeps_transaction_at. intros space row member w u w' Ho Hrun HL.
  run_step. run_step. once_cases; [done|]. unfold put_reference_action, active_acquisition in *. run_all; lookups.
  all: match goal with Hx : records _ !! _ = Some ?x, _ : visible_clause _ _ ?x = true |- _ => rename Hx into Hr; rename x into rr end.
  all: bool_simpl; destruct (li_record _ _ _ _ _ HL _ _ Hr) as [<- _ _ _ _].
  all: unfold Linked; cbn; try match goal with Hx : references _ !! _ = Some _ |- _ => rewrite (alter_row _ _ _ _ Hx); rename Hx into Hf end.
  - apply (linked_reference _ _ _ _ _ _ _ HL); [|rewrite Hf; cbn; split_and!; [lia|lia|by left]].
    destruct (li_reference _ _ _ _ _ HL _ _ Hf) as [Ek _]. injection Ek as Es En. split; cbn; [congruence|].
    exists rr. by rewrite <- Es.
  - apply (linked_reference _ _ _ _ _ _ _ HL); [|by match goal with Hx : references _ !! _ = None |- _ => rewrite Hx end].
    split; cbn; [done|]. by exists rr.
Qed.

(** The row an identifier of an acquisition stands for. *)
Lemma get_attempt_ok sid id c w w' : get_attempt sid id w = (Ok c, w') ->
  w' = w /\ exists k, id = JStr k /\ coordinations (w_db w) !! k = Some c /\ co_space_id c = sid.
Proof.
  unfold get_attempt. intros H. run_all. split; [done|]. eexists. split_and!; [done|eassumption|by apply String.eqb_eq].
Qed.

(** What [check_attempt] establishes at the time it reads. *)
Lemma check_attempt_ok c p fence f w w' : check_attempt c p fence w = (Ok f, w') ->
  w' = w <| w_clock ::= S |> /\ co_holder c = pr_id p /\ co_state c = CO_ACTIVE /\ clock (w_clock w) < co_lease_until c /\
  py_eqb fence (JInt (co_fence c)) = true /\ py_eqb (JInt (ref_fence f)) fence = true /\
  references (w_db w) !! (co_space_id c, co_reference_name c) = Some f.
Proof.
  unfold check_attempt. intros H. run_all. bool_simpl. split_and!; try done. by apply String.eqb_eq.
Qed.

Lemma acquisition_dict_ok sid id j w w' : acquisition_dict sid id w = (Ok j, w') -> w' = w.
Proof.
  unfold acquisition_dict. intros H. apply bind_ok in H as (c & w1 & Hc & H). apply get_attempt_ok in Hc as [-> _]. by run_ok.
Qed.

(** Several records read under one authorization. *)
Lemma records_read sid member p ids l w w' : mapM (fun rid => record sid (JStr rid) member p false) ids w = (Ok l, w') ->
  w' = w /\ Forall2 (fun rid r => records (w_db w) !! rid = Some r /\ rec_space_id r = sid /\ visible_clause member p r = true) ids l.
Proof.
  revert l w'. induction ids as [|rid ids IH]; intros l w' H; cbn [mapM] in H.
  - apply ret_ok in H as [-> ->]. split; [done|constructor].
  - apply bind_ok in H as (r & w1 & Hr & H). apply Logic.record_ok in Hr as (-> & k & [= <-] & Hk & Hs & Hv).
    apply bind_ok in H as (l' & w2 & Hl & H). apply IH in Hl as [-> Hall]. apply ret_ok in H as [-> ->].
    split; [done|]. by constructor.
Qed.

#[local] Ltac run_hook ::=
  match goal with
  | Hx : mapM _ _ _ = _ |- _ => apply records_read in Hx as [-> Hx]
  | Hx : get_attempt _ _ _ = _ |- _ => let H := fresh in apply get_attempt_ok in Hx as (-> & ? & H & ? & ?); try (injection H as <-)
  | Hx : check_attempt _ _ _ _ = _ |- _ => apply check_attempt_ok in Hx as (-> & ? & ? & ? & ? & ? & ?)
  | Hx : acquisition_dict _ _ _ = _ |- _ => apply acquisition_dict_ok in Hx as ->
  end.
(** The acquisition a command checked, as the variable [c] at [k]. *)
#[local] Ltac open_acquisition :=
  match goal with Hx : coordinations _ !! _ = Some _ |- _ => unfold Linked; cbn; rewrite (alter_row _ _ _ _ Hx) end.

(** An active acquisition changes its lease, or stops without a result. *)
Lemma linked_active rc ms rf co ci k c c' : Linked_tables rc ms rf co ci -> co !! k = Some c -> co_state c = CO_ACTIVE ->
  co_id c' = co_id c -> co_space_id c' = co_space_id c -> co_reference_name c' = co_reference_name c -> co_fence c' = co_fence c ->
  co_expected_generation c' = co_expected_generation c -> co_state c' <> CO_COMPLETED -> co_result_record_id c' = co_result_record_id c ->
  Linked_tables rc ms rf (<[k := c']> co) ci.
Proof.
  intros HL Hk Ha E1 E2 E3 E4 E5 Hst Hres. destruct (li_coordination _ _ _ _ _ HL _ _ Hk) as [_ _ [Hiff _]].
  assert (Hn : co_result_record_id c = None).
  { destruct (co_result_record_id c); [|done]. destruct Hiff as [_ Hi]. rewrite Ha in Hi. by specialize (Hi ltac:(eauto)). }
  apply (linked_coordination _ _ _ _ _ _ _ _ HL Hk); try done.
  - rewrite Hres, Hn. split; [done|by intros []].
  - by rewrite Hres, Hn.
Qed.

Lemma keeps_renew_linked p sid att fence : keeps RL (renew p sid att fence).
Proof.
  unfold renew. apply keeps_transaction_at. intros space row member w u w' Ho H HL. run_ok. open_acquisition.
  eapply (linked_active _ _ _ _ _ _ _ _ HL); [eassumption|done..| |done]. cbn. congruence.
Qed.

Lemma keeps_abandon_linked p sid att fence : keeps RL (Coordination.abandon p sid att fence).
Proof.
  unfold Coordination.abandon. apply keeps_transaction_at. intros space row member w u w' Ho H HL. run_ok. open_acquisition.
  by eapply (linked_active _ _ _ _ _ _ _ _ HL); [eassumption|..].
Qed.

Lemma keeps_complete_linked p sid att body key : keeps RL (complete p sid att body key).
Proof.
  unfold complete. apply keeps_transaction_at. intros space row member w u w' Ho Hrun HL. run_all; try done.
  once_cases; [done|]. unfold complete_action in *. run_all; lookups.
  match goal with Hx : coordinations _ !! _ = Some ?x, Hy : records _ !! _ = Some ?y, Hz : references _ !! _ = Some ?z |- _ =>
    rename Hx into Hc, Hy into Hr, Hz into Hf; rename x into c; rename y into r; rename z into f end.
  bool_simpl. destruct (li_coordination _ _ _ _ _ HL _ _ Hc) as [<- _ [Hiff _]].
  destruct (li_record _ _ _ _ _ HL _ _ Hr) as [<- Hpub _ _ _].
  unfold Linked; cbn. rewrite (alter_row _ _ _ _ Hc), (alter_row _ _ _ _ Hf).
  destruct (li_reference _ _ _ _ _ HL _ _ Hf) as [Ek _]. injection Ek as Es En.
  eapply linked_coordination; [|exact Hc|done..| | |].
  - apply (linked_reference _ _ _ _ _ _ _ HL); [|rewrite Hf; cbn; split_and!; [lia|lia|by left]].
    split; cbn; [congruence|]. exists r. by rewrite <- Es.
  - intros _ g Hg. rewrite lookup_insert_eq in Hg. injection Hg as <-. cbn. lia.
  - cbn. split; [by eauto|done].
  - cbn. intros rid [= <-]. exists r. split_and!; [done|done|]. by apply Hpub.
Qed.

(** The tables [acquire] writes before the inputs. *)
Lemma linked_start rc ms rf co ci sid name f id c : Linked_tables rc ms rf co ci -> rf !! (sid, name) = Some f ->
  ((fun c => if active_for sid name c then c <| co_state := CO_EXPIRED |> else c) <$> co) !! id = None ->
  co_id c = id -> co_space_id c = sid -> co_reference_name c = name -> co_fence c = Z.succ (ref_fence f) ->
  co_expected_generation c = ref_generation f -> co_state c = CO_ACTIVE -> co_result_record_id c = None ->
  Linked_tables rc ms (alter (fun f => f <| ref_fence ::= Z.succ |>) (sid, name) rf)
    (<[id := c]> ((fun c => if active_for sid name c then c <| co_state := CO_EXPIRED |> else c) <$> co)) ci.
Proof.
  intros HL Hf Hid <- <- <- Hfence Hgen Hst Hres. rewrite (alter_row _ _ _ _ Hf).
  set (p := active_for (co_space_id c) (co_reference_name c)) in *.
  assert (Hold : forall j e, ((fun c => if p c then c <| co_state := CO_EXPIRED |> else c) <$> co) !! j = Some e ->
    co_space_id e = co_space_id c -> co_reference_name e = co_reference_name c -> co_state e <> CO_ACTIVE /\ co_fence e <= ref_fence f).
  { intros j e Hj Es En. apply lookup_fmap_Some in Hj as (e0 & <- & Hj).
    assert (Eb : co_space_id e0 = co_space_id c /\ co_reference_name e0 = co_reference_name c) by (destruct (p e0); by split).
    destruct Eb as [Es0 En0]. destruct (li_coordination _ _ _ _ _ HL _ _ Hj) as [_ (g & Hg & Hle & _) _].
    rewrite Es0, En0, Hf in Hg. injection Hg as <-.
    unfold p, active_for in *. rewrite Es0, En0, !String.eqb_refl in *. cbn in *.
    case_bool_decide; [split; [done|exact Hle]|split; [done|exact Hle]]. }
  eapply linked_acquire; [|done|done|by rewrite lookup_insert_eq|done|cbn; lia|done|done|].
  - apply linked_reference.
    + apply linked_stop; [exact HL|]. intros e He. unfold p, active_for in He. by bool_simpl.
    + destruct (li_reference _ _ _ _ _ HL _ _ Hf) as [Ek Hname]. by split.
    + rewrite Hf. cbn. split_and!; [lia|lia|]. right. intros j e Hj Ek. injection Ek as Es En. by destruct (Hold j e Hj Es En).
  - intros j e Hj Es En. destruct (Hold j e Hj Es En). lia.
Qed.

Lemma add_inputs_linked sid id rs w u w' : for_each rs (add_input sid id) w = (Ok u, w') ->
  (exists c, coordinations (w_db w) !! id = Some c /\ co_space_id c = sid) ->
  Forall (fun r => names (records (w_db w)) sid (rec_id r) was_published) rs -> Linked (w_db w) -> Linked (w_db w').
Proof.
  intros H Hc Hall HL.
  enough (G : Linked (w_db w') /\ records (w_db w') = records (w_db w) /\ coordinations (w_db w') = coordinations (w_db w)) by apply G.
  eapply (for_each_ok _ _ (fun w1 => Linked (w_db w1) /\ records (w_db w1) = records (w_db w) /\
    coordinations (w_db w1) = coordinations (w_db w))); [exact H|by split|].
  intros r w1 w2 Hin (HL1 & E1 & E2) Hadd. unfold add_input in Hadd. run_ok. split_and!; [|done|done].
  apply (linked_input _ _ _ _ _ _ _ HL1). split; [done|by cbn; rewrite E2|]. cbn. rewrite E1.
  by apply (proj1 (Forall_forall _ _) Hall).
Qed.

Lemma acquire_linked space member p sid body w u w' : acquire_action space member p sid body w = (Ok u, w') ->
  Linked (w_db w) -> Linked (w_db w').
Proof.
  intros H HL. unfold acquire_action, active_acquisition in H. run_all; lookups.
  match goal with Hx : Forall2 _ _ _, Hp : existsb (fun _ => negb (bool_decide (rec_state _ = PUBLISHED))) _ = false |- _ =>
    rename Hx into Hread, Hp into Hpub end.
  match goal with Hx : for_each _ (add_input _ _) _ = _ |- _ => refine (add_inputs_linked _ _ _ _ _ _ Hx _ _ _) end.
  - eexists. cbn. rewrite lookup_insert_eq. done.
  - cbn. apply Forall_forall. intros r Hin. apply list_elem_of_lookup in Hin as (i & Hi).
    destruct (Forall2_lookup_r _ _ _ _ _ Hread Hi) as (rid & _ & Hr & Hs & _). cbn in Hr.
    destruct (li_record _ _ _ _ _ HL _ _ Hr) as [<- Hwas _ _ _]. exists r. split_and!; [done|done|]. apply Hwas.
    destruct (decide (rec_state r = PUBLISHED)) as [|Hn]; [done|]. exfalso. apply not_true_iff_false in Hpub.
    apply Hpub, existsb_exists. exists r. rewrite bool_decide_eq_false_2 by done. split; [|done].
    apply list_elem_of_In. by eapply list_elem_of_lookup_2.
  - unfold Linked. cbn. eapply linked_start; [exact HL|eassumption|eassumption|done..].
Qed.

Lemma keeps_acquire_linked p sid body key : keeps RL (Coordination.acquire p sid body key).
Proof.
  unfold Coordination.acquire. apply keeps_transaction_at. intros space row member w u w' Ho H HL.
  apply bind_ok in H as (v1 & w1 & Hreq & H). apply require_ok in Hreq as [_ ->].
  apply bind_ok in H as (v2 & w2 & Honce & H). cbv beta in H.
  match type of H with ?m w2 = _ => assert (Hp : pure m) by purely end. rewrite (Hp _ _ _ H). once_cases; [done|].
  match goal with Hx : acquire_action _ _ _ _ _ _ = _ |- _ => exact (acquire_linked _ _ _ _ _ _ _ _ Hx HL) end.
Qed.
End Commands.

Section System.
Context {P : Platform}.
#[local] Hint Resolve keeps_expire_linked keeps_expires_at_linked keeps_commit_linked keeps_withdraw_linked keeps_retire_linked
  keeps_enable_linked keeps_purge_linked keeps_policy_linked keeps_create_linked keeps_patch_linked keeps_publish_linked
  keeps_put_reference_linked keeps_renew_linked keeps_abandon_linked keeps_complete_linked keeps_acquire_linked : keeps.

Lemma serve_linked q : keeps RL (serve q).
Proof.
  destruct q; cbn [serve]; try solve [apply keeps_discard; [typeclasses eauto|]; eauto 1 with keeps nocore].
  all: open_command; keeping; open_all; keeping.
  all: try apply keeps_expires_at_linked.
Qed.

Lemma linked_reachable d : reachable d -> Linked d.
Proof. apply reachable_preserved; [exact linked_empty|exact serve_linked]. Qed.
End System.
