(* ===== verification/AttemptHistory.v ===== *)
(** * The state machine of transfer attempts

    Along every request, an attempt keeps its identity, attachment and storage
    key, never returns to an earlier stage, keeps the version of the object it
    completed, and never shortens the time until which a signed URL may still
    write; it disappears only cleaned and without an outstanding mutation. *)

From stdpp Require Import base gmap strings list fin_maps relations.
From Stdlib Require Import ZArith Lia.
From S2P Require Import Prelude Json Domain Schemas Profiles Models Storage Service Spaces Records Managed Coordination Transfers Uploads System Logic Accounting Lifecycle Consistency TransferConsistency.

(** The stage of an attempt: an upload may be completed again after its parts
    were rejected, and a given-up attempt be cleaned again, but nothing else
    goes back. *)
Definition stage (s : TransferState) : nat :=
  match s with
  | Reserved => 0 | INITIATING => 1 | UPLOADING | COMPLETING => 2 | VERIFYING => 3 | VERIFIED => 4
  | XFER_FAILED => 5 | CLEANUP | CLEANED => 6
  end%nat.

(** The object exists: the version is that of the completed upload. *)
Definition has_object (a : TransferAttempt) : Prop := at_state a = VERIFYING \/ at_state a = VERIFIED.

Record attempt_evolves (a a' : TransferAttempt) : Prop := {
  ae_id : at_id a' = at_id a;
  ae_blob : at_blob_id a' = at_blob_id a;
  ae_key : at_object_key a' = at_object_key a;
  ae_stage : (stage (at_state a) <= stage (at_state a'))%nat;
  ae_object : has_object a -> has_object a' -> at_upload_handle a' = at_upload_handle a;
  ae_grant : at_grant_expires_at a <= at_grant_expires_at a';
}.

#[export] Instance attempt_evolves_preorder : PreOrder attempt_evolves.
Proof.
  split; [intros a; by split|]. intros a1 a2 a3 [E1 E2 E3 E4 E5 E6] [F1 F2 F3 F4 F5 F6].
  split; try congruence; try lia. intros H1 H3.
  assert (H2 : has_object a2).
  { unfold has_object in *. destruct H1 as [H1|H1], H3 as [H3|H3]; rewrite H1 in E4; rewrite H3 in F4; cbn in E4, F4;
      destruct (at_state a2); cbn in E4, F4; auto; lia. }
  transitivity (at_upload_handle a2); auto.
Qed.

(** The rows carry their keys, and every row evolves. *)
Definition keyed (at_ : gmap string TransferAttempt) : Prop := forall k a, at_ !! k = Some a -> at_id a = k.
Definition attempts_evolve (d d' : DB) : Prop := keyed (attempts d) -> keyed (attempts d') /\
  forall k a, attempts d !! k = Some a -> exists a', attempts d' !! k = Some a' /\ attempt_evolves a a'.
Abbreviation RA := attempts_evolve.

#[export] Instance attempts_evolve_preorder : PreOrder attempts_evolve.
Proof.
  split.
  - intros d Hk. split; [done|]. intros k a Ha. exists a. by split.
  - intros d1 d2 d3 H12 H23 K1. destruct (H12 K1) as [K2 E1]. destruct (H23 K2) as [K3 E2]. split; [done|].
    intros k a Ha. destruct (E1 k a Ha) as (b & Hb & Eab). destruct (E2 k b Hb) as (c & Hc & Ebc).
    exists c. split; [done|]. by transitivity b.
Qed.

(** Updates of a table that let every row evolve. *)
Lemma evolve_alter d k (f : TransferAttempt -> TransferAttempt) :
  (forall a, attempts d !! k = Some a -> at_id a = k -> attempt_evolves a (f a)) -> RA d (t_upd ATTEMPTS (alter f k) d).
Proof.
  intros Hf K. split; cbn.
  - intros j b Hj. apply lookup_alter_Some in Hj as [(-> & a & Ha & ->)|[_ Hj]]; [|by apply K].
    rewrite (ae_id _ _ (Hf a Ha (K _ _ Ha))). by apply K.
  - intros j a Hj. destruct (decide (k = j)) as [->|Hne].
    + exists (f a). rewrite lookup_alter_eq, Hj. split; [done|]. apply Hf; [done|]. by apply K.
    + exists a. rewrite lookup_alter_ne by done. by split.
Qed.

Lemma evolve_bulk d (p : TransferAttempt -> bool) f :
  (forall a, p a = true -> attempt_evolves a (f a)) -> RA d (t_upd ATTEMPTS (fmap (M := gmap string) (fun a => if p a then f a else a)) d).
Proof.
  intros Hf K. assert (Hg : forall a, attempt_evolves a (if p a then f a else a)) by (intros a; destruct (p a) eqn:E; [auto|reflexivity]).
  split; cbn.
  - intros j b Hj. apply lookup_fmap_Some in Hj as (a & <- & Ha). rewrite (ae_id _ _ (Hg a)). by apply K.
  - intros j a Hj. eexists. rewrite lookup_fmap, Hj. split; [done|]. apply Hg.
Qed.

Lemma evolve_insert d k a : attempts d !! k = None -> at_id a = k -> RA d (t_upd ATTEMPTS (insert k a) d).
Proof.
  intros Hk Hid K. split; cbn.
  - intros j b Hj. rewrite lookup_insert_Some in Hj. destruct Hj as [[<- <-]|[_ Hj]]; [done|by apply K].
  - intros j b Hj. exists b. rewrite lookup_insert_ne by congruence. by split.
Qed.

(** An update of columns the machine does not constrain. *)
Ltac evolving := split; cbn; first [done | lia | reflexivity | intros [H|H]; rewrite H; cbn; lia | intros [|]; congruence | idtac].

Section Commands.
Context {P : Platform}.

Lemma keeps_attempt_neutral k f : (forall a, attempt_evolves a (f a)) -> keeps RA (set_row ATTEMPTS k f).
Proof. intros Hf. apply keeps_set_row. intros d. apply evolve_alter. auto. Qed.

(** Given up for cleanup. *)
Lemma evolves_cleanup a a' : at_id a' = at_id a -> at_blob_id a' = at_blob_id a -> at_object_key a' = at_object_key a ->
  at_state a' = CLEANUP -> at_grant_expires_at a <= at_grant_expires_at a' -> attempt_evolves a a'.
Proof.
  intros E1 E2 E3 E4 E5. split; try done; rewrite ?E4; cbn; [destruct (at_state a); cbn; lia|].
  intros _ [|]; congruence.
Qed.

Lemma keeps_attempts_give_up (p : TransferAttempt -> bool) f : (forall a, attempt_evolves a (f a)) -> keeps RA (bulk_update ATTEMPTS p f).
Proof. intros Hf. apply keeps_bulk_update. intros d. apply evolve_bulk. auto. Qed.

Lemma keeps_add_attempt k a : at_id a = k -> keeps RA (add_row ATTEMPTS k a).
Proof. intros Hk. apply keeps_add_row. intros d Hd. by apply evolve_insert. Qed.

(** The cases of an update that do not depend on the row. *)
Ltac neutral :=
  lazymatch goal with
  | |- keeps _ (add_row ATTEMPTS _ _) => apply keeps_add_attempt; done
  | |- keeps _ (bulk_update ATTEMPTS _ _) => apply keeps_attempts_give_up; intros ?
  | |- keeps _ (set_row ATTEMPTS _ _) => apply keeps_attempt_neutral; intros ?
  end;
  try solve [apply evolves_cleanup; cbn; first [done|lia] | split; cbn; first [done|lia]].

Lemma keeps_release_attempts sid rid st : keeps RA (release sid rid st).
Proof. unfold release, release_blob. keeping. neutral. Qed.

(** One row was rewritten, by one or several assignments. *)
Lemma evolve_row w w' k f : attempts (w_db w') = alter f k (attempts (w_db w)) ->
  (keyed (attempts (w_db w)) -> forall a, attempts (w_db w) !! k = Some a -> attempt_evolves a (f a)) -> RA (w_db w) (w_db w').
Proof. intros E Hf K. unfold attempts_evolve in *. rewrite E. apply (evolve_alter (w_db w) k f); [|done]. intros a Ha _. auto. Qed.

Lemma keeps_complete_attempts sid rid bid p member : keeps RA (complete_body sid rid bid p member).
Proof.
  unfold complete_body. intros w u w' H. run_all; [|reflexivity].
  eapply evolve_row; [reflexivity|]. intros K a Ha.
  match goal with Hx : uploading ?o = Some ?x, Hy : context [?o] |- _ =>
    unfold uploading in Hx; destruct o as [y|]; [|done]; case_bool_decide; [|done]; injection Hx as ->;
    destruct (Hy x eq_refl) as (k & Hk & _) end.
  rewrite (K _ _ Hk), Hk in Ha. injection Ha as <-. split; cbn; try done.
  match goal with Hx : at_state _ = UPLOADING |- _ => rewrite Hx end. cbn. lia.
Qed.

Lemma keeps_commit_attempts a st res : keeps RA (if legal_commit a st res then on_snapshot a (commit_body a st res) else ret tt).
Proof.
  destruct (legal_commit a st res) eqn:Hl; [|by apply pure_keeps; [typeclasses eauto|apply pure_ret]].
  unfold on_snapshot, discard. intros w u w' H. run_all; [|done].
  unfold commit_body, commit_outcome, commit_verified, commit_cleaned, the in *.
  assert (G : forall t f w', attempts (w_db w) !! at_id a = Some t ->
    attempts (w_db w') = alter f (at_id a) (attempts (w_db w)) -> attempt_evolves t (f t) -> RA (w_db w) (w_db w')).
  { intros t f w1 Ht E Hev. eapply evolve_row; [exact E|]. intros _ c Hc. rewrite Ht in Hc. by injection Hc as <-. }
  assert (G2 : forall t f g w', attempts (w_db w) !! at_id a = Some t ->
    attempts (w_db w') = alter g (at_id a) (alter f (at_id a) (attempts (w_db w))) -> attempt_evolves t (g (f t)) -> RA (w_db w) (w_db w')).
  { intros t f g w1 Ht E Hev. apply (G t (g ∘ f)); [done|by rewrite <- alter_alter_eq|done]. }
  destruct st, res; cbn in Hl; try done; bool_simpl; run_all; try reflexivity; bool_simpl;
    try match goal with Hs : at_state ?x = at_state a |- _ => rewrite Hl in Hs end;
    try first [eapply G; [eassumption|reflexivity|] | eapply G2; [eassumption|reflexivity|]];
    try solve [split; cbn; first [done | lia | congruence | match goal with Hs : at_state _ = _ |- _ => rewrite Hs end; cbn; lia
                                 | intros [Ho|Ho]; congruence | intros _ [Ho|Ho]; discriminate Ho]].
  all: etransitivity; [|match goal with Hr : release _ _ _ _ = _ |- _ => refine (keeps_release_attempts _ _ _ _ _ _ Hr) end].
  all: eapply G2; [eassumption|reflexivity|].
  all: match goal with Hl0 : at_state ?y ∈ _, Hs : at_state ?x = at_state ?y |- _ => rewrite <- Hs in Hl0; rename Hl0 into Hl1 end.
  all: split; cbn; try done; try by intros _ [Ho|Ho].
  all: repeat (apply elem_of_cons in Hl1 as [Hl1|Hl1]; [rewrite Hl1; cbn; lia|]); by apply elem_of_nil in Hl1.
Qed.

(** The action of an operator's repair. *)
Lemma keeps_repair_one now id : keeps RA (repair_attempt now id).
Proof.
  unfold repair_attempt, the. intros w u w' H. run_all; (eapply evolve_row; [reflexivity|]; intros _ a Ha);
    match goal with Hx : attempts _ !! ?k = Some ?x, Hy : attempts _ !! ?k = Some a |- _ =>
      assert (a = x) as -> by (rewrite Hx in Hy; by injection Hy) end.
  all: unfold recovers; split; cbn; first [done | lia | idtac].
  all: destruct (bool_decide (rec_state _ = DRAFT)); cbn; [case_bool_decide as E; [rewrite E; cbn; lia|]|].
  all: destruct (at_state _); cbn; lia.
Qed.
#[local] Hint Resolve keeps_release_attempts keeps_complete_attempts keeps_commit_attempts keeps_repair_one : keeps.

Lemma serve_attempts q : (forall p s r, q <> PurgeRecord p s r) -> (forall n, q <> PruneHistory n) -> keeps RA (serve q).
Proof.
  intros H1 H2. destruct q; cbn [serve]; try (by exfalso; eapply H1 + eapply H2); clear H1 H2.
  all: unfold transfer_tx, discard; keeping; open_all; keeping; neutral.
Qed.

(** What the two deleting requests leave: the rest unchanged. *)
Definition forgotten (d d' : DB) : Prop := forall k a, attempts d !! k = Some a ->
  attempts d' !! k = Some a \/ attempts d' !! k = None /\ at_state a = CLEANED /\ at_mutation_tokens a = [].

Lemma purge_forgets p sid rid w u w' : purge_record p sid rid w = (Ok u, w') -> Consistent (w_db w) -> forgotten (w_db w) (w_db w').
Proof.
  intros H [HA HP]. apply transaction_ok in H as (space & row & member & w1 & _ & (Ew & _) & H). unfold record_in_space in H.
  rewrite <- Ew in HA, HP |- *. clear Ew.
  run_all. intros k x Hk. cbn.
  match goal with Hx : existsb (fun b => negb (bool_decide (bl_state b = CLEANED))) _ = false |- _ => rename Hx into Hcl end.
  destruct (filter _ (attempts (w_db w1)) !! k) as [c|] eqn:E.
  - apply map_lookup_filter_Some in E as [E _]. rewrite Hk in E. left. congruence.
  - right. split; [done|]. apply map_lookup_filter_None in E as [E|E]; [congruence|]. specialize (E _ Hk). cbn in E.
    apply not_true_is_false, negb_false_iff in E. unfold mem_str in E. bool_simpl.
    apply list_elem_of_fmap in E as (b & Eb & Hb).
    assert (Hst : bl_state b = CLEANED).
    { destruct (decide (bl_state b = CLEANED)) as [|Hn]; [done|]. exfalso. apply not_true_iff_false in Hcl. apply Hcl, existsb_exists.
      exists b. rewrite bool_decide_eq_false_2 by done. split; [by apply list_elem_of_In|done]. }
    destruct (ph_attempt _ _ _ _ HP k x Hk) as [_ Htok _ (b' & Hb' & Hc)].
    apply elem_of_rows in Hb as [_ (j & Hj)]. pose proof (bh_id _ _ _ (acc_blob _ _ _ HA _ _ Hj)) as Ej.
    rewrite Eb, Ej in Hb'. rewrite Hj in Hb'. injection Hb' as <-. auto.
Qed.

Lemma delete_forgets ids w u w' d0 : for_each ids (delete_row ATTEMPTS) w = (Ok u, w') -> forgotten d0 (w_db w) ->
  (forall id a, id ∈ ids -> attempts d0 !! id = Some a -> at_state a = CLEANED /\ at_mutation_tokens a = []) -> forgotten d0 (w_db w').
Proof.
  intros H Hf Hids. eapply (for_each_ok _ _ (fun w1 => forgotten d0 (w_db w1))); [exact H|exact Hf|].
  intros id w1 w2 Hin Hw1 Hdel. run_ok. intros k a Hk. cbn. destruct (decide (id = k)) as [->|Hne].
  - right. rewrite lookup_delete_eq. split; [done|]. exact (Hids _ _ Hin Hk).
  - rewrite lookup_delete_ne by done. by apply Hw1.
Qed.

Definition attempts_kept (d d' : DB) : Prop := attempts d' = attempts d.
#[local] Instance attempts_kept_preorder : PreOrder attempts_kept.
Proof. split; [done|]. intros d1 d2 d3 H1 H2. unfold attempts_kept in *. congruence. Qed.

Lemma prune_forgets n w u w' : prune_history n w = (Ok u, w') -> keyed (attempts (w_db w)) -> forgotten (w_db w) (w_db w').
Proof.
  intros H K. unfold prune_history in H.
  apply bind_ok in H as (now & w1 & Hnow & H). apply database_time_ok in Hnow as [-> ->].
  apply bind_ok in H as (old & w1 & Hold & H). apply gets_ok in Hold as [-> ->].
  apply bind_ok in H as (v & w1 & Hops & H).
  assert (E1 : attempts (w_db w1) = attempts (w_db w)).
  { apply (keeps_for_each attempts_kept) in Hops; [exact Hops|]. intros a _. keeping. }
  clear Hops. run_ok.
  match goal with Hx : for_each _ _ _ = _ |- _ => apply (delete_forgets _ _ _ _ (w_db w)) in Hx; [exact Hx| |] end.
  - intros k a Hk. left. congruence.
  - intros id a Hin Ha. apply list_elem_of_fmap in Hin as (c & -> & Hc). apply list_elem_of_In, List.filter_In in Hc as [Hc Ht].
    apply list_elem_of_In, elem_of_first, elem_of_rows in Hc as [E (k & Hk)]. rewrite E1 in Hk. bool_simpl.
    rewrite (K _ _ Hk), Hk in Ha. injection Ha as <-. split; [done|]. by destruct (at_mutation_tokens c).
Qed.
End Commands.

Section History.
Context {P : Platform}.

Lemma attempt_history_step d d' k a : reachable d -> step d d' -> attempts d !! k = Some a ->
  (exists a', attempts d' !! k = Some a' /\ attempt_evolves a a') \/
  (attempts d' !! k = None /\ at_state a = CLEANED /\ at_mutation_tokens a = []).
Proof.
  intros Hd (q & w & [u|e] & w' & <- & Hs & <-) Hk; [|rewrite (serve_atomic _ _ _ _ Hs); left; exists a; by split].
  pose proof (consistent_reachable _ Hd) as HC.
  assert (HK : keyed (attempts (w_db w))) by (intros j c Hj; exact (ao_id _ _ _ (ph_attempt _ _ _ _ (proj2 HC) j c Hj))).
  assert (Hforgot : forgotten (w_db w) (w_db w') -> (exists a', attempts (w_db w') !! k = Some a' /\ attempt_evolves a a') \/
    (attempts (w_db w') !! k = None /\ at_state a = CLEANED /\ at_mutation_tokens a = [])).
  { intros Hf. destruct (Hf k a Hk) as [H|H]; [left|by right]. exists a. by split. }
  assert (Hev : keeps RA (serve q) -> exists a', attempts (w_db w') !! k = Some a' /\ attempt_evolves a a').
  { intros Hq. by apply (Hq _ _ _ Hs HK). }
  destruct q; try (left; apply Hev; by apply serve_attempts); apply Hforgot; cbn [serve] in Hs; unfold discard in Hs; run_ok.
  - eapply purge_forgets; [eassumption|exact HC].
  - eapply prune_forgets; [eassumption|exact HK].
Qed.
End History.
