(* ===== verification/RecordHistory.v ===== *)
(** * The history of records and attachments

    Along every request but a purge, a record keeps its identity and only moves
    forward -- a draft is published or stopped, a published record is
    withdrawn, a stopped one stays -- its version grows with every change, and
    what was published never changes, nor do its attachments, which neither
    appear nor disappear. *)

From stdpp Require Import base gmap strings list fin_maps relations.
From Stdlib Require Import ZArith Lia.
From S2P Require Import Prelude Json Domain Schemas Profiles Models Storage Service Spaces Records Managed Coordination Transfers Uploads System Logic Accounting Lifecycle Consistency TransferConsistency.

Definition may_become (s s' : RecordState) : Prop := s' = s \/ s = DRAFT \/ (s = PUBLISHED /\ s' = WITHDRAWN).

Record record_evolves (r r' : Record_) : Prop := {
  re_id : rec_id r' = rec_id r;
  re_space : rec_space_id r' = rec_space_id r;
  re_kind : rec_kind r' = rec_kind r;
  re_revision : rec_schema_revision_id r' = rec_schema_revision_id r;
  re_creator : rec_creator r' = rec_creator r;
  re_bindings : rec_creator_bindings r' = rec_creator_bindings r;
  re_declared : rec_declared_bytes r' = rec_declared_bytes r;
  re_state : may_become (rec_state r) (rec_state r');
  re_frozen : rec_state r <> DRAFT -> rec_metadata_json r' = rec_metadata_json r /\
                rec_base_record_id r' = rec_base_record_id r /\ rec_published_at r' = rec_published_at r /\
                rec_expires_at r' = rec_expires_at r;
  re_version : rec_generation r <= rec_generation r';
  re_unchanged : rec_generation r' = rec_generation r -> rec_state r' = rec_state r /\
                   rec_metadata_json r' = rec_metadata_json r /\ rec_base_record_id r' = rec_base_record_id r;
}.

#[export] Instance record_evolves_preorder : PreOrder record_evolves.
Proof.
  split; [intros r; split; try done; by left|].
  intros r1 r2 r3 [A1 A2 A3 A4 A5 A6 A7 A8 A9 A10 A11] [B1 B2 B3 B4 B5 B6 B7 B8 B9 B10 B11]. split; try congruence; try lia.
  - unfold may_become in *. destruct A8 as [E|[E|[E E']]], B8 as [F|[F|[F F']]]; rewrite ?E, ?F, ?E', ?F' in *; auto; try congruence.
  - intros Hn. destruct (A9 Hn) as (? & ? & ? & ?). assert (Hd2 : rec_state r2 <> DRAFT).
    { intros E. unfold may_become in A8. rewrite E in A8. destruct A8 as [|[|[]]]; congruence. }
    destruct (B9 Hd2) as (? & ? & ? & ?). split_and!; congruence.
  - intros Hg. destruct (A11 ltac:(lia)) as (? & ? & ?), (B11 ltac:(lia)) as (? & ? & ?). split_and!; congruence.
Qed.

(** What identifies an attachment, and the object behind it. *)
Definition declaration (b : Blob) := (bl_id b, bl_space_id b, bl_record_id b, bl_path b, bl_size b, bl_sha256 b, bl_media_type b).
Definition object_of (b : Blob) := (bl_object_key b, bl_object_version b, bl_verified_size b, bl_verified_sha256 b).

(** Rows carry their keys. *)
Definition keyed_rows (rc : gmap string Record_) (bl : gmap string Blob) : Prop :=
  (forall k r, rc !! k = Some r -> rec_id r = k) /\ (forall k b, bl !! k = Some b -> bl_id b = k).

Record evolved (d d' : DB) : Prop := {
  ev_keyed : keyed_rows (records d') (blobs d');
  ev_record : forall k r, records d !! k = Some r -> exists r', records d' !! k = Some r' /\ record_evolves r r';
  ev_blob : forall k b, blobs d !! k = Some b -> exists b', blobs d' !! k = Some b' /\ declaration b' = declaration b /\
              (forall r, records d !! bl_record_id b = Some r -> rec_state r <> DRAFT -> object_of b' = object_of b);
  ev_new : forall k b', blobs d' !! k = Some b' -> blobs d !! k = None ->
             forall r, records d !! bl_record_id b' = Some r -> rec_state r = DRAFT;
}.
Definition rows_keyed (d : DB) : Prop := keyed_rows (records d) (blobs d).
Definition history (rc rc' : gmap string Record_) (bl bl' : gmap string Blob) : Prop := 
  keyed_rows rc bl -> evolved (empty_db <| records := rc |> <| blobs := bl |>)
                                                      (empty_db <| records := rc' |> <| blobs := bl' |>).
Definition history_of (d d' : DB) : Prop := history (records d) (records d') (blobs d) (blobs d').
Abbreviation RH := history_of.

Lemma evolves_not_draft r r' : record_evolves r r' -> rec_state r <> DRAFT -> rec_state r' <> DRAFT.
Proof. intros [_ _ _ _ _ _ _ H _ _ _] Hn E. unfold may_become in H. rewrite E in H. destruct H as [|[|[]]]; congruence. Qed.

#[export] Instance history_preorder : PreOrder history_of.
Proof.
  split.
  - intros d K. split; cbn; [done| | |].
    + intros k r Hk. exists r. by split.
    + intros k b Hk. exists b. by split_and!.
    + intros k b H1 H2. congruence.
  - intros d1 d2 d3 H12 H23 K1. destruct (H12 K1) as [K2 R12 B12 N12]. destruct (H23 K2) as [K3 R23 B23 N23]. cbn in *.
    split; cbn; [done| | |].
    + intros k r Hk. destruct (R12 _ _ Hk) as (r2 & Hk2 & E2), (R23 _ _ Hk2) as (r3 & Hk3 & E3). exists r3. split; [done|].
      by transitivity r2.
    + intros k b Hk. destruct (B12 _ _ Hk) as (b2 & Hk2 & E2 & O2), (B23 _ _ Hk2) as (b3 & Hk3 & E3 & O3). exists b3.
      split_and!; [done|congruence|]. intros r Hr Hn. destruct (R12 _ _ Hr) as (r2 & Hr2 & Ev).
      rewrite <- (O2 _ Hr Hn). apply (O3 r2); [|by eapply evolves_not_draft]. unfold declaration in E2. congruence.
    + intros k b3 Hk3 Hn r Hr. destruct (blobs d2 !! k) as [b2|] eqn:Hk2.
      * destruct (B23 _ _ Hk2) as (b & Hb & E & _). rewrite Hk3 in Hb. injection Hb as <-. apply (N12 _ _ Hk2 Hn).
        unfold declaration in E. congruence.
      * destruct (R12 _ _ Hr) as (r2 & Hr2 & Ev). pose proof (N23 _ _ Hk3 Hk2 _ Hr2) as E.
        destruct (decide (rec_state r = DRAFT)) as [|Hd]; [done|]. by apply (evolves_not_draft _ _ Ev) in Hd.
Qed.

(** Updates of records. *)
Lemma history_records d d' : blobs d' = blobs d ->
  (rows_keyed d -> (forall k r, records d' !! k = Some r -> rec_id r = k) /\
     forall k r, records d !! k = Some r -> exists r', records d' !! k = Some r' /\ record_evolves r r') ->
  RH d d'.
Proof.
  intros Eb H K. destruct (H K) as [K' R]. unfold history_of. rewrite Eb. split; cbn; [by split; [|apply K]|done| |].
  - intros k b Hk. exists b. by split_and!.
  - intros k b H1 H2. congruence.
Qed.

Lemma history_alter d k f : (rows_keyed d -> forall r, records d !! k = Some r -> record_evolves r (f r)) ->
  RH d (t_upd RECORDS (alter f k) d).
Proof.
  intros Hf. apply history_records; [done|]. intros K. specialize (Hf K). split; cbn.
  - intros j r Hj. cbn in Hj. apply lookup_alter_Some in Hj as [(-> & x & Hx & ->)|[_ Hj]]; [|by apply K].
    rewrite (re_id _ _ (Hf x Hx)). by apply K.
  - intros j r Hj. destruct (decide (k = j)) as [->|Hne].
    + exists (f r). rewrite lookup_alter_eq, Hj. auto.
    + exists r. rewrite lookup_alter_ne by done. by split.
Qed.

Lemma history_insert d k r : records d !! k = None -> rec_id r = k -> RH d (t_upd RECORDS (insert k r) d).
Proof.
  intros Hk Hid. apply history_records; [done|]. intros K. split.
  - intros j x Hj. cbn in Hj. rewrite lookup_insert_Some in Hj. destruct Hj as [[<- <-]|[_ Hj]]; [done|by apply K].
  - intros j x Hj. exists x. cbn. rewrite lookup_insert_ne by congruence. by split.
Qed.

Lemma history_fmap d (p : Record_ -> bool) f : (forall r, record_evolves r (f r)) ->
  RH d (t_upd RECORDS (fmap (M := gmap string) (fun r => if p r then f r else r)) d).
Proof.
  intros Hf. assert (Hg : forall r, record_evolves r (if p r then f r else r)) by (intros r; destruct (p r); [auto|reflexivity]).
  apply history_records; [done|]. intros K. split; cbn.
  - intros j x Hj. cbn in Hj. apply lookup_fmap_Some in Hj as (r & <- & Hr). rewrite (re_id _ _ (Hg r)). by apply K.
  - intros j r Hj. eexists. rewrite lookup_fmap, Hj. by split.
Qed.

(** Updates of attachments. *)
Lemma history_blob d k f : (rows_keyed d -> forall b, blobs d !! k = Some b -> declaration (f b) = declaration b /\
    (object_of (f b) = object_of b \/ forall r, records d !! bl_record_id b = Some r -> rec_state r = DRAFT)) ->
  RH d (t_upd BLOBS (alter f k) d).
Proof.
  intros Hf K. specialize (Hf K). unfold history_of. split; cbn.
  - split; [apply K|]. intros j c Hj. apply lookup_alter_Some in Hj as [(-> & x & Hx & ->)|[_ Hj]]; [|by apply K].
    destruct (Hf x Hx) as [E _]. assert (bl_id (f x) = bl_id x) as -> by (unfold declaration in E; congruence). by apply K.
  - intros j r Hj. exists r. by split.
  - intros j b Hj. destruct (decide (k = j)) as [->|Hne].
    + destruct (Hf b Hj) as [E Ho]. exists (f b). rewrite lookup_alter_eq, Hj. split_and!; [done|done|].
      intros r Hr Hn. destruct Ho as [|Ho]; [done|]. by destruct Hn; apply Ho.
    + exists b. rewrite lookup_alter_ne by done. by split_and!.
  - intros j b Hj Hn. exfalso. apply lookup_alter_Some in Hj as [(-> & x & Hx & _)|[_ Hj]]; congruence.
Qed.

Lemma history_new_blob d k b : blobs d !! k = None -> bl_id b = k ->
  (forall r, records d !! bl_record_id b = Some r -> rec_state r = DRAFT) -> RH d (t_upd BLOBS (insert k b) d).
Proof.
  intros Hk Hid Hd K. unfold history_of. split; cbn.
  - split; [apply K|]. intros j c Hj. rewrite lookup_insert_Some in Hj. destruct Hj as [[<- <-]|[_ Hj]]; [done|by apply K].
  - intros j r Hj. exists r. by split.
  - intros j c Hj. exists c. rewrite lookup_insert_ne by congruence. by split_and!.
  - intros j c Hj Hn. rewrite lookup_insert_Some in Hj. destruct Hj as [[<- <-]|[_ Hj]]; [done|congruence].
Qed.

(** The tables of records and attachments are as they were. *)
Ltac unchanged := solve [lazymatch goal with |- ?R ?d _ => change (R d d); reflexivity end].

Section Commands.
Context {P : Platform}.

(** Updates that concern neither identity nor object. *)
Lemma keeps_blob_neutral k f : (forall b, declaration (f b) = declaration b /\ object_of (f b) = object_of b) -> keeps RH (set_row BLOBS k f).
Proof. intros Hf. apply keeps_set_row. intros d. apply history_blob. intros _ b _. destruct (Hf b). auto. Qed.

Lemma keeps_share p b : keeps RH (bulk_update RECORDS p (fun r => r <| rec_shared := b |>)).
Proof. apply keeps_bulk_update. intros d. apply history_fmap. intros r. split; try done. by left. Qed.

Ltac blob_neutral :=
  lazymatch goal with |- keeps _ (set_row BLOBS _ _) => apply keeps_blob_neutral; intros ?; split; reflexivity end.

Lemma keeps_release_blob sid now b : keeps RH (release_blob sid now b).
Proof. unfold release_blob. keeping; blob_neutral. Qed.

(** A stop that the state of the record allows. *)
Lemma release_history sid rid st w u w' : release sid rid st w = (Ok u, w') ->
  (forall r, records (w_db w) !! rid = Some r -> is_terminal (rec_state r) = false -> may_become (rec_state r) st /\ st <> rec_state r) ->
  RH (w_db w) (w_db w').
Proof.
  unfold release. intros H Hst. apply bind_ok in H as (o & w1 & Ho & H). apply get_row_ok in Ho as [-> ->].
  tables. destruct (records (w_db w) !! rid) as [r|] eqn:Hr; [|by inv_ok]. destruct (is_terminal (rec_state r)) eqn:Et; [by run_ok|].
  destruct (Hst r eq_refl Et) as [Hm Hne].
  apply bind_ok in H as (v & w1 & Hset & H). apply update_table_ok in Hset as ->.
  assert (K : keeps RH (set_row SPACES sid (fun s => s <| allocated ::= fun a => a - rec_declared_bytes r |>) ;;
    let* now := database_time in let* bs := record_blobs rid in for_each bs (release_blob sid now) ;;
    emit sid ("record." +:+ record_state_value st) "system" (Some rid)
      [("state", JStr (record_state_value st)); ("kind", JStr (rec_kind r));
       ("published", JBool (match rec_published_at r with Some _ => true | None => false end))])).
  { keeping. apply keeps_release_blob. }
  etransitivity; [|exact (K _ _ _ H)]. apply history_alter. intros _ x Hx. rewrite Hr in Hx. injection Hx as <-.
  split; cbn; try done; lia.
Qed.

Lemma may_become_withdrawn r : is_terminal (rec_state r) = false -> may_become (rec_state r) (withdrawn_state r) /\ withdrawn_state r <> rec_state r.
Proof. unfold withdrawn_state, may_become. intros Ht. case_bool_decide as E; [rewrite E; auto|]. destruct (rec_state r); cbn; auto; done. Qed.

Lemma keeps_expire_history rid : keeps RH (expire_body rid).
Proof.
  unfold expire_body, the. intros w u w' H. run_all; [|reflexivity].
  match goal with Hx : release _ _ _ _ = _ |- _ => apply release_history in Hx; [exact Hx|] end.
  bool_simpl. intros x Hx _. cbn in Hx. split; [right; left; congruence|congruence].
Qed.

Lemma keeps_withdraw_history p sid rid : keeps RH (withdraw_record p sid rid).
Proof.
  unfold withdraw_record. apply keeps_transaction_at. intros space row member w u w' Ho H K.
  assert (G : RH (w_db w) (w_db w')); [|by apply G]. clear Ho.
  apply bind_ok in H as (r & w1 & Hr & H).
  assert (Hrow : w1 = w /\ exists k, records (w_db w) !! k = Some r).
  { unfold record_in_space in Hr. run_all; (split; [done|]); eexists; eassumption. }
  clear Hr. destruct Hrow as (-> & k & Hk). pose proof (proj1 K _ _ Hk) as E. subst k.
  run_all; lookups. match goal with Hx : release _ _ _ _ = _ |- _ => apply release_history in Hx; [exact Hx|] end.
  cbn. intros x Hx Ht. rewrite Hk in Hx. injection Hx as <-. by apply may_become_withdrawn.
Qed.

(** Only the records it names change their state. *)
Definition states_kept (rid : string) (d d' : DB) : Prop := forall k, k <> rid -> records d' !! k = records d !! k.
#[local] Instance states_kept_preorder rid : PreOrder (states_kept rid).
Proof. split; [done|]. intros d1 d2 d3 H1 H2 k Hk. rewrite H2, H1 by done. done. Qed.
Lemma keeps_release_others sid rid st : keeps (states_kept rid) (release sid rid st).
Proof.
  unfold release, release_blob. keeping. apply keeps_set_row. intros d k Hk. cbn. by rewrite lookup_alter_ne.
Qed.

Lemma withdraw_all_history sid w u w' : withdraw_all sid w = (Ok u, w') -> rows_keyed (w_db w) -> RH (w_db w) (w_db w').
Proof.
  unfold withdraw_all. intros H K. apply bind_ok in H as (rs & w1 & Hsel & H). apply select_where_ok in Hsel as [-> ->].
  set (rs := rows _ _) in H.
  assert (Hrs : forall r, r ∈ rs -> records (w_db w) !! rec_id r = Some r).
  { intros r Hin. apply elem_of_rows in Hin as [_ (k & Hk)]. tables. by rewrite (proj1 K _ _ Hk). }
  assert (Hnd : NoDup rs) by (apply (rows_NoDup _ _ rec_id); exact (proj1 K)).
  enough (G : RH (w_db w) (w_db w') /\ forall r, r ∈ rs -> r ∉ rs -> records (w_db w') !! rec_id r = Some r) by apply G.
  eapply (for_each_ok_prefix rs _ (fun dn w1 => RH (w_db w) (w_db w1) /\
    forall r, r ∈ rs -> r ∉ dn -> records (w_db w1) !! rec_id r = Some r)); [exact H|by split; [reflexivity|auto]|].
  intros dn r todo w1 w2 Ers [HR Hcur] Hrel.
  assert (Hin : r ∈ rs) by (rewrite Ers; set_solver).
  assert (Hfresh : r ∉ dn) by (intros Hdn; rewrite Ers in Hnd; apply NoDup_app in Hnd as (_ & Hd & _); apply (Hd r Hdn); left).
  split.
  - etransitivity; [exact HR|]. apply (release_history _ _ _ _ _ _ Hrel). intros x Hx Ht.
    rewrite (Hcur r Hin Hfresh) in Hx. injection Hx as <-. by apply may_become_withdrawn.
  - intros c Hc Hcd. rewrite not_elem_of_app, list_elem_of_singleton in Hcd. destruct Hcd as [Hcd Hne].
    rewrite (keeps_release_others _ _ _ _ _ _ Hrel); [by apply Hcur|]. intros E.
    apply Hne. pose proof (Hrs c Hc) as H1. rewrite E, (Hrs r Hin) in H1. by injection H1.
Qed.

Lemma keeps_retire_history p sid body key : keeps RH (retire_managed_space p sid body key).
Proof.
  unfold retire_managed_space. keeping_outside. apply keeps_transaction_at. intros space row member w u w' _ H K.
  assert (G : RH (w_db w) (w_db w')); [|by apply G].
  run_all; try unchanged. once_cases; [unchanged|]. run_all; lookups; try unchanged.
  match goal with Hw : withdraw_all _ _ = _ |- _ => exact (withdraw_all_history _ _ _ _ Hw K) end.
Qed.

Lemma evolves_expiry g r : rec_state r = DRAFT -> record_evolves r (r <| rec_expires_at ::= g |>).
Proof. intros Hd. split; try done; first [by left|congruence]. Qed.

Lemma keeps_commit_history a st res : keeps RH (commit_body a st res).
Proof.
  assert (Hcase : st <> VERIFYING -> st <> VERIFIED -> st <> XFER_FAILED -> keeps RH (commit_body a st res)).
  { intros H1 H2 H3. unfold commit_body, commit_outcome, commit_cleaned, the. destruct st; try done; keeping; blob_neutral. }
  destruct (decide (st = VERIFYING)) as [->|H1]; [clear Hcase|destruct (decide (st = VERIFIED)) as [->|H2];
    [clear Hcase|destruct (decide (st = XFER_FAILED)) as [->|H3]; [clear Hcase|by apply Hcase]]].
  - unfold commit_body, commit_outcome, the. destruct res; try (intros w u w' H; by run_all).
    intros w u w' H. run_all; try unchanged; bool_simpl; try done; match goal with Hb : blobs (w_db w) !! at_blob_id a = Some ?b |- _ =>
      transitivity (t_upd RECORDS (alter (fun r => r <| rec_expires_at ::=
        Z.max (clock (w_clock w) + seconds (failure_seconds (worker_settings settings))) |>) (bl_record_id b)) (w_db w));
      [apply history_alter; intros _ x Hx; apply evolves_expiry; congruence
      |first [unchanged | refine (history_blob _ (bl_id b) (fun b => b <| bl_state := VERIFYING |>) _); intros _ y _; by split; [|left]]] end.
  - unfold commit_body, commit_outcome, commit_verified, the. destruct res; try (intros w u w' H; by run_all).
    intros w u w' H. run_all; try unchanged; bool_simpl; try done;
    match goal with Hb : blobs (w_db w) !! at_blob_id a = Some ?b, Ho : uh_version (at_upload_handle ?t) = Some ?v |- _ =>
      transitivity (t_upd BLOBS (alter (fun b => b <| bl_object_key := Some (at_object_key t) |> <| bl_object_version := Some v |>
        <| bl_verified_size := Some (vf_size actual) |> <| bl_verified_sha256 := Some (vf_sha256 actual) |>) (bl_id b)) (w_db w));
      [apply history_blob; intros [_ K] y Hy; split; [done|]; right; intros z Hz; rewrite (K _ _ Hb), Hb in Hy; congruence
      |first [unchanged | refine (history_blob _ (bl_id b) (fun b => b <| bl_state := VERIFIED |>) _); intros _ y _; by split; [|left]]] end.
  - unfold commit_body, commit_outcome, the. intros w u w' H. run_all; try unchanged; bool_simpl; try done;
    match goal with Hr : release _ _ _ ?w1 = (Ok _, ?w2) |- _ =>
      transitivity (w_db w2); [apply release_history in Hr; [exact Hr|]; cbn; intros x Hx _; split; [right; left|]; congruence
      |first [unchanged | refine (history_blob _ _ (fun b => b <| bl_state := XFER_FAILED |>) _); intros _ y _; by split; [|left]]] end.
Qed.

Lemma evolves_metadata m n base r : rec_state r = DRAFT ->
  record_evolves r (r <| rec_metadata_json := m |> <| rec_metadata_bytes := n |> <| rec_base_record_id := base |> <| rec_generation ::= Z.succ |>).
Proof. intros Hd. split; cbn; first [done | by left | congruence | lia]. Qed.

Lemma keeps_patch_history p sid rid body v : keeps RH (patch_record p sid rid body v).
Proof.
  unfold patch_record, check_draft. apply keeps_transaction_at. intros space row member w u w' Ho H. run_all; bool_simpl;
    (match goal with |- RH ?d ?d' => let E := fresh in enough (E : RH d (t_upd RECORDS (alter _ rid) d)) by exact E end);
    apply history_alter; intros _ y Hy; apply evolves_metadata; congruence.
Qed.

Lemma evolves_publish now shared r : rec_state r = DRAFT ->
  record_evolves r (r <| rec_state := PUBLISHED |> <| rec_published_at := Some now |> <| rec_shared := shared |> <| rec_generation ::= Z.succ |>).
Proof. intros Hd. split; cbn; first [done | by right; left | congruence | lia]. Qed.

Lemma keeps_publish_history p sid rid key : keeps RH (publish_record p sid rid key).
Proof.
  unfold publish_record, publish_record_action, check_draft. apply keeps_transaction_at. intros space row member w u w' Ho H.
  run_all; try unchanged. once_cases; [unchanged|]. run_all; bool_simpl;
    (match goal with Hr : records (w_db w) !! _ = Some ?r |- RH ?d ?d' =>
       let E := fresh in enough (E : RH d (t_upd RECORDS (alter _ (rec_id r)) d)) by exact E end).
  all: apply history_alter; intros [K _] y Hy; apply evolves_publish.
  all: match goal with Hk : records _ !! _ = Some ?r, Hs : rec_state ?r = DRAFT |- _ => rewrite (K _ _ Hk) in Hy end; congruence.
Qed.

Lemma add_blobs_history sid rid e ds w u w' : for_each ds (add_blob sid rid e) w = (Ok u, w') ->
  (forall r, records (w_db w) !! rid = Some r -> rec_state r = DRAFT) -> RH (w_db w) (w_db w').
Proof.
  intros H Hd. enough (G : RH (w_db w) (w_db w') /\ records (w_db w') = records (w_db w)) by apply G.
  eapply (for_each_ok _ _ (fun w1 => RH (w_db w) (w_db w1) /\ records (w_db w1) = records (w_db w))); [exact H|by split|].
  intros dc w1 w2 _ [HR Er] Hadd. unfold add_blob in Hadd. run_ok. split; [|done].
  etransitivity; [exact HR|]. apply history_new_blob; [done|done|]. cbn. by rewrite Er.
Qed.

Lemma keeps_create_history p sid body key : keeps RH (create_record p sid body key).
Proof.
  unfold create_record. keeping_outside. apply keeps_transaction_at. intros space row member w u w' Ho H.
  run_step. run_step. once_cases; [unchanged|].
  match goal with Hx : create_record_action _ _ _ _ _ _ = (Ok _, ?w1) |- _ => rename Hx into Hrun; transitivity (w_db w1); [|unchanged] end.
  unfold create_record_action in Hrun. run_all; lookups;
    (match goal with Hx : for_each _ (add_blob ?s ?r ?e) ?w1 = (Ok _, ?w2) |- _ =>
      transitivity (w_db w1); [|apply add_blobs_history in Hx; [exact Hx|]] end);
    first [refine (history_insert (w_db w) _ _ _ eq_refl); eassumption
          |cbn; intros y; rewrite lookup_insert_eq; intros [= <-]; done].
Qed.

#[local] Hint Resolve keeps_create_history keeps_publish_history keeps_patch_history keeps_commit_history keeps_retire_history
  keeps_withdraw_history keeps_expire_history keeps_release_blob keeps_share : keeps.

Lemma serve_records q : (forall p s r, q <> PurgeRecord p s r) -> keeps RH (serve q).
Proof.
  intros Hq. destruct q; cbn [serve]; try (by exfalso; eapply Hq); clear Hq;
    try solve [apply keeps_discard; [typeclasses eauto|]; eauto 1 with keeps nocore].
  all: open_command; keeping; open_all; keeping; blob_neutral.
Qed.
End Commands.

Section History.
Context {P : Platform}.

(** What a purge removes: a stopped record, with the attachments it had. *)
Lemma purge_history p sid rid w u w' : purge_record p sid rid w = (Ok u, w') -> rows_keyed (w_db w) ->
  (exists r, records (w_db w) !! rid = Some r /\ is_terminal (rec_state r) = true) /\
  records (w_db w') = delete rid (records (w_db w)) /\
  blobs (w_db w') = filter (fun kv : string * Blob => negb (String.eqb (bl_record_id kv.2) rid) = true) (blobs (w_db w)).
Proof.
  intros H [K _]. apply transaction_ok in H as (space & row & member & w1 & _ & (Ew & _) & H). unfold record_in_space in H.
  rewrite <- Ew in K |- *. clear Ew. run_all.
  match goal with Hr : records _ !! rid = Some ?r |- _ => pose proof (K _ _ Hr) as <- end. bool_simpl. split; [by eauto|done].
Qed.

(** Along one request: the record evolves, or is purged after it stopped. *)
Lemma record_history_step d d' k r : reachable d -> step d d' -> records d !! k = Some r ->
  (exists r', records d' !! k = Some r' /\ record_evolves r r') \/ (records d' !! k = None /\ is_terminal (rec_state r) = true).
Proof.
  intros Hd (q & w & [u|e] & w' & <- & Hs & <-) Hk; [|rewrite (serve_atomic _ _ _ _ Hs); left; exists r; by split].
  pose proof (consistent_reachable _ Hd) as HC.
  assert (K : rows_keyed (w_db w)).
  { split; [intros j x Hj; exact (ro_id _ _ _ _ (acc_record _ _ _ (proj1 HC) _ _ Hj))|intros j x Hj; exact (bh_id _ _ _ (acc_blob _ _ _ (proj1 HC) _ _ Hj))]. }
  assert (G : keeps RH (serve q) -> exists r', records (w_db w') !! k = Some r' /\ record_evolves r r').
  { intros Hq. exact (ev_record _ _ (Hq _ _ _ Hs K) k r Hk). }
  destruct q; try (left; apply G; by apply serve_records). cbn [serve] in Hs. unfold discard in Hs. run_ok.
  match goal with Hp : purge_record _ _ _ _ = _ |- _ => apply purge_history in Hp as ((x & Hx & Ht) & E & _); [|exact K] end.
  rewrite E. destruct (decide (record = k)) as [->|Hne].
  - right. rewrite lookup_delete_eq. split; [done|congruence].
  - left. exists r. rewrite lookup_delete_ne by done. by split.
Qed.

(** Along one request: the attachments of a record that is not a draft stay
    exactly those it has, with their objects, as long as it is there. *)
Lemma attachments_step d d' k r : reachable d -> step d d' -> records d !! k = Some r -> rec_state r <> DRAFT ->
  is_Some (records d' !! k) ->
  (forall j b, blobs d !! j = Some b -> bl_record_id b = k ->
     exists b', blobs d' !! j = Some b' /\ declaration b' = declaration b /\ object_of b' = object_of b) /\
  (forall j b', blobs d' !! j = Some b' -> bl_record_id b' = k -> is_Some (blobs d !! j)).
Proof.
  intros Hd (q & w & [u|e] & w' & <- & Hs & <-) Hk Hn Hsome; [|rewrite (serve_atomic _ _ _ _ Hs); split; eauto 10].
  pose proof (consistent_reachable _ Hd) as HC.
  assert (K : rows_keyed (w_db w)).
  { split; [intros j x Hj; exact (ro_id _ _ _ _ (acc_record _ _ _ (proj1 HC) _ _ Hj))|intros j x Hj; exact (bh_id _ _ _ (acc_blob _ _ _ (proj1 HC) _ _ Hj))]. }
  assert (G : keeps RH (serve q) -> 
    (forall j b, blobs (w_db w) !! j = Some b -> bl_record_id b = k ->
       exists b', blobs (w_db w') !! j = Some b' /\ declaration b' = declaration b /\ object_of b' = object_of b) /\
    (forall j b', blobs (w_db w') !! j = Some b' -> bl_record_id b' = k -> is_Some (blobs (w_db w) !! j))).
  { intros Hq. destruct (Hq _ _ _ Hs K) as [_ _ HB HN]. cbn in *. split.
    - intros j b Hj <-. destruct (HB j b Hj) as (b' & Hb' & E & Ho). exists b'. split_and!; [done..|]. by apply (Ho r).
    - intros j b' Hj <-. destruct (blobs (w_db w) !! j) eqn:E; [by eauto|]. by destruct Hn; apply (HN j b' Hj E). }
  destruct q; try (apply G; by apply serve_records). cbn [serve] in Hs. unfold discard in Hs. run_ok.
  match goal with Hp : purge_record _ _ _ _ = _ |- _ => apply purge_history in Hp as ((x & Hx & Ht) & E & Eb); [|exact K] end.
  assert (Hne : record <> k) by (intros <-; rewrite E, lookup_delete_eq in Hsome; by destruct Hsome).
  rewrite Eb. split.
  - intros j b Hj Hb. exists b. split_and!; [|done..]. apply map_lookup_filter_Some. split; [done|]. cbn.
    apply negb_true_iff, String.eqb_neq. congruence.
  - intros j b' Hj _. apply map_lookup_filter_Some in Hj as [Hj _]. by eauto.
Qed.
End History.
