(* ===== verification/Monotone.v ===== *)
(** * What only grows

    Along every request: tombstones of attempts stay, a space keeps its job and
    stays retired, grants keep their terms and are never enabled again, a
    reference never goes back to an older generation or fence and names
    another record only under a new generation, an acquisition changes only
    while it is active, every space keeps an administrator, and the event
    sequence only moves forward. *)

From stdpp Require Import base gmap strings list fin_maps relations.
From Stdlib Require Import ZArith Lia.
From S2P Require Import Prelude Json Domain Schemas Profiles Models Storage Service Spaces Records Managed Coordination Transfers Uploads System Logic Consistency TransferConsistency Provenance.

(** A preorder on rows extends to tables whose rows are never removed. *)
Definition rows_grow {K V} `{Countable K} (R : V -> V -> Prop) (m m' : gmap K V) : Prop :=
  forall k v, m !! k = Some v -> exists v', m' !! k = Some v' /\ R v v'.

Section Rows.
Context `{Countable K} {V : Type} (R : V -> V -> Prop) {HR : PreOrder R}.

#[export] Instance rows_grow_preorder : PreOrder (rows_grow (K := K) R).
Proof.
  split.
  - intros m k v Hk. exists v. split; [done|reflexivity].
  - intros m1 m2 m3 H12 H23 k v Hk. destruct (H12 k v Hk) as (v2 & Hk2 & E2), (H23 k v2 Hk2) as (v3 & Hk3 & E3).
    exists v3. split; [done|]. by transitivity v2.
Qed.

Lemma grow_insert_new (m : gmap K V) k v : m !! k = None -> rows_grow R m (<[k := v]> m).
Proof. intros Hk j x Hj. exists x. rewrite lookup_insert_ne by congruence. split; [done|reflexivity]. Qed.

Lemma grow_alter (m : gmap K V) k f : (forall v, m !! k = Some v -> R v (f v)) -> rows_grow R m (alter f k m).
Proof.
  intros Hf j x Hj. destruct (decide (k = j)) as [->|Hne].
  - exists (f x). rewrite lookup_alter_eq, Hj. auto.
  - exists x. rewrite lookup_alter_ne by done. split; [done|reflexivity].
Qed.

Lemma grow_fmap (m : gmap K V) (p : V -> bool) f : (forall v, p v = true -> R v (f v)) ->
  rows_grow R m ((fun v => if p v then f v else v) <$> m).
Proof.
  intros Hf j x Hj. eexists. rewrite lookup_fmap, Hj. split; [done|]. destruct (p x) eqn:E; [auto|reflexivity].
Qed.
End Rows.

(** ** Tombstones, spaces and grants *)
Definition managed_grows (m m' : ManagedSpace) : Prop :=
  ms_job_id m' = ms_job_id m /\ (ms_retired_at m <> None -> ms_retired_at m' = ms_retired_at m).
#[export] Instance managed_grows_preorder : PreOrder managed_grows.
Proof.
  split; [by intros m|]. intros m1 m2 m3 [A1 A2] [B1 B2]. split; [congruence|]. intros H. rewrite <- (A2 H). apply B2. by rewrite (A2 H).
Qed.

Definition terms (g : WorkloadGrant) :=
  (gr_id g, gr_space_id g, gr_principal_id g, gr_subject g, gr_job_id g, gr_attempt_id g, gr_component_id g,
   (gr_epoch g, gr_roles g, gr_bindings g, gr_certificate_thumbprint g, gr_expires_at g)).
Definition grant_grows (g g' : WorkloadGrant) : Prop := terms g' = terms g /\ (gr_enabled g' = true -> gr_enabled g = true).
#[export] Instance grant_grows_preorder : PreOrder grant_grows.
Proof. split; [by intros g|]. intros g1 g2 g3 [A1 A2] [B1 B2]. split; [congruence|auto]. Qed.

Definition fences_grow (d d' : DB) : Prop :=
  rows_grow eq (workload_revocations d) (workload_revocations d') /\ rows_grow managed_grows (managed_spaces d) (managed_spaces d') /\
  rows_grow grant_grows (workload_grants d) (workload_grants d').
#[export] Instance fences_grow_preorder : PreOrder fences_grow.
Proof.
  split; [intros d; split_and!; reflexivity|]. intros d1 d2 d3 (A1 & A2 & A3) (B1 & B2 & B3).
  split_and!; etransitivity; eassumption.
Qed.

Section Fences.
Context {P : Platform}.

Lemma keeps_retire_fences p sid body key : keeps fences_grow (retire_managed_space p sid body key).
Proof.
  unfold retire_managed_space. keeping_outside. apply keeps_transaction_at. intros space row member w u w' _ H.
  assert (K : keeps fences_grow (withdraw_all sid)) by (unfold withdraw_all, release, release_blob; keeping).
  run_all; try (split_and!; reflexivity). once_cases; [reflexivity|]. run_all; lookups; try (split_and!; reflexivity).
  match goal with Hw : withdraw_all _ ?w1 = (Ok _, ?w2) |- _ => apply K in Hw; transitivity (w_db w1); [|exact Hw] end.
  split_and!; [reflexivity| |reflexivity]. cbn. apply grow_alter; [typeclasses eauto|]. intros x1 Hx1. split; [done|]. congruence.
Qed.
#[local] Hint Resolve keeps_retire_fences : keeps.

Lemma serve_fences q : keeps fences_grow (serve q).
Proof.
  each_request.
  - apply keeps_add_unique. intros d Hd. split_and!; [reflexivity|by apply grow_insert_new; [typeclasses eauto|]|reflexivity].
  - apply keeps_add_row. intros d Hd. split_and!; [reflexivity|reflexivity|by apply grow_insert_new; [typeclasses eauto|]].
  - apply keeps_add_row. intros d Hd. split_and!; [by apply grow_insert_new; [typeclasses eauto|]|reflexivity|reflexivity].
  - apply keeps_bulk_update. intros d. split_and!; [reflexivity|reflexivity|]. cbn. apply grow_fmap; [typeclasses eauto|].
    intros g _. by split.
Qed.

Lemma fences_run d d' : rtc step d d' -> fences_grow d d'.
Proof. apply run_keeps; [typeclasses eauto|exact serve_fences]. Qed.
End Fences.

(** ** References and acquisitions *)
Definition reference_grows (f f' : Reference) : Prop :=
  ref_space_id f' = ref_space_id f /\ ref_name f' = ref_name f /\ ref_fence f <= ref_fence f' /\ ref_generation f <= ref_generation f' /\
  (ref_generation f' = ref_generation f -> ref_record_id f' = ref_record_id f).
#[export] Instance reference_grows_preorder : PreOrder reference_grows.
Proof.
  split; [intros f; split_and!; by try lia|]. intros f1 f2 f3 (A1 & A2 & A3 & A4 & A5) (B1 & B2 & B3 & B4 & B5).
  split_and!; try congruence; try lia. intros E. rewrite B5, A5 by lia. done.
Qed.

Definition identity_of (c : Coordination) :=
  (co_id c, co_space_id c, co_reference_name c, co_expected_generation c, co_holder c, co_fence c, co_created_at c).
Definition coordination_grows (c c' : Coordination) : Prop := identity_of c' = identity_of c /\ (co_state c <> CO_ACTIVE -> c' = c).
#[export] Instance coordination_grows_preorder : PreOrder coordination_grows.
Proof.
  split; [by intros c|]. intros c1 c2 c3 [A1 A2] [B1 B2]. split; [congruence|]. intros H. rewrite <- (A2 H). apply B2. by rewrite (A2 H).
Qed.

Definition references_grow (d d' : DB) : Prop :=
  rows_grow reference_grows (references d) (references d') /\ rows_grow coordination_grows (coordinations d) (coordinations d').
#[export] Instance references_grow_preorder : PreOrder references_grow.
Proof. split; [intros d; split; reflexivity|]. intros d1 d2 d3 (A1 & A2) (B1 & B2). split; etransitivity; eassumption. Qed.

Section References.
Context {P : Platform}.

Lemma keeps_put_reference_grow p sid name body token key : keeps references_grow (put_reference p sid name body token key).
Proof.
  unfold put_reference. keeping_outside. apply keeps_transaction_at. intros space row member w u w' Ho Hrun.
  run_step. run_step. once_cases; [reflexivity|]. unfold put_reference_action, active_acquisition in *. run_all; lookups.
  - split; [|reflexivity]. cbn. apply grow_alter; [typeclasses eauto|]. intros f Hf.
    match goal with Hx : references _ !! _ = Some _ |- _ => rewrite Hx in Hf; injection Hf as <- end. split_and!; cbn; try done; lia.
  - split; [|reflexivity]. cbn. by apply grow_insert_new; [typeclasses eauto|].
Qed.

#[local] Ltac run_hook ::=
  match goal with
  | Hx : get_attempt _ _ _ = _ |- _ => let H := fresh in apply get_attempt_ok in Hx as (-> & ? & H & ? & ?); try (injection H as <-)
  | Hx : check_attempt _ _ _ _ = _ |- _ => apply check_attempt_ok in Hx as (-> & ? & ? & ? & ? & ? & ?)
  | Hx : acquisition_dict _ _ _ = _ |- _ => apply acquisition_dict_ok in Hx as ->
  | Hx : mapM _ _ _ = _ |- _ => apply records_read in Hx as [-> Hx]
  end.

Lemma grow_active (co : gmap string Coordination) k c f : co !! k = Some c -> co_state c = CO_ACTIVE -> identity_of (f c) = identity_of c ->
  rows_grow coordination_grows co (alter f k co).
Proof.
  intros Hk Ha Hf. apply grow_alter; [typeclasses eauto|]. intros x Hx. rewrite Hk in Hx. injection Hx as <-. split; [done|by intros []].
Qed.

Lemma keeps_renew_grow p sid att fence : keeps references_grow (renew p sid att fence).
Proof.
  unfold renew. apply keeps_transaction_at. intros space row member w u w' Ho Hrun. run_ok. split; [reflexivity|]. by eapply grow_active.
Qed.
Lemma keeps_abandon_grow p sid att fence : keeps references_grow (Coordination.abandon p sid att fence).
Proof.
  unfold Coordination.abandon. apply keeps_transaction_at. intros space row member w u w' Ho Hrun. run_ok.
  split; [reflexivity|]. by eapply grow_active.
Qed.
#[local] Hint Resolve keeps_put_reference_grow keeps_renew_grow keeps_abandon_grow : keeps.

Lemma complete_grow p sid att body key w u w' : complete p sid att body key w = (Ok u, w') ->
  (forall k c, coordinations (w_db w) !! k = Some c -> co_id c = k) -> references_grow (w_db w) (w_db w').
Proof.
  unfold complete. intros H K. apply transaction_ok in H as (space & row & member & w1 & _ & (Ew & _) & H).
  rewrite <- Ew in K |- *. clear Ew. run_all; try reflexivity. once_cases; [reflexivity|]. unfold complete_action in *. run_all.
  split; cbn.
  - apply grow_alter; [typeclasses eauto|]. intros f _. split_and!; cbn; try done; lia.
  - match goal with Hx : coordinations _ !! _ = Some _ |- _ => rewrite (K _ _ Hx) end. by eapply grow_active.
Qed.

Lemma serve_references q : (forall p s a b k, q <> Complete p s a b k) -> keeps references_grow (serve q).
Proof.
  intros Hq. destruct q; cbn [serve]; try (by exfalso; eapply Hq); clear Hq;
    try solve [apply keeps_discard; [typeclasses eauto|]; eauto 1 with keeps nocore].
  all: open_all; keeping.
  - apply keeps_bulk_update. intros d. split; [reflexivity|]. cbn. apply grow_fmap; [typeclasses eauto|]. intros c Hc.
    unfold active_for in Hc. bool_simpl. split; [done|]. by intros [].
  - apply keeps_set_row. intros d. split; [|reflexivity]. cbn. apply grow_alter; [typeclasses eauto|].
    intros f _. split_and!; cbn; try done; lia.
  - apply keeps_add_row. intros d Hd. split; [reflexivity|]. cbn. by apply grow_insert_new; [typeclasses eauto|].
Qed.

Lemma references_step d d' : reachable d -> step d d' -> references_grow d d'.
Proof.
  intros Hd (q & w & [u|e] & w' & <- & Hs & <-); [|rewrite (serve_atomic _ _ _ _ Hs); reflexivity].
  destruct q; try (refine (serve_references _ _ _ _ _ Hs); done). cbn [serve] in Hs. unfold discard in Hs. run_ok.
  match goal with Hc : complete _ _ _ _ _ _ = _ |- _ => apply complete_grow in Hc; [exact Hc|] end.
  intros k c Hk. exact (co_key _ _ _ _ (li_coordination _ _ _ _ _ (linked_reachable _ Hd) _ _ Hk)).
Qed.

Lemma references_run d d' : reachable d -> rtc step d d' -> references_grow d d'.
Proof.
  intros Hd Hr. induction Hr as [|d1 d2 d3 H12 _ IH]; [reflexivity|]. transitivity d2; [by apply references_step|].
  apply IH. by eapply rtc_r.
Qed.
End References.

(** ** Every space keeps an administrator

    A space is created with one, and no change of a membership takes the last
    one away. *)

Definition is_admin (m : Member) : bool := mem_str "admin" (mb_roles m).

Record Administered_tables (sp : gmap string Space) (mb : gmap (string * string) Member) : Prop := {
  ad_key : forall k m, mb !! k = Some m -> k = (mb_space_id m, mb_principal_id m);
  ad_admin : forall sid, is_Some (sp !! sid) -> exists pid m, mb !! (sid, pid) = Some m /\ is_admin m = true;
}.
Definition Administered (d : DB) : Prop := Administered_tables (spaces d) (members d).
Abbreviation RM := (preserving Administered).

Lemma administered_empty : Administered empty_db.
Proof. split; [intros k m E|intros sid [x E]]; cbn in E; by rewrite lookup_empty in E. Qed.

Lemma administered_spaces sp sp' mb : Administered_tables sp mb -> (forall k, is_Some (sp' !! k) -> is_Some (sp !! k)) ->
  Administered_tables sp' mb.
Proof. intros [H1 H2] H. split; [done|]. auto. Qed.

(** A membership is written. *)
Lemma administered_member sp mb sid pid m : Administered_tables sp mb -> mb_space_id m = sid -> mb_principal_id m = pid ->
  (is_admin m = true \/ exists p x, p <> pid /\ mb !! (sid, p) = Some x /\ is_admin x = true) ->
  Administered_tables sp (<[(sid, pid) := m]> mb).
Proof.
  intros [H1 H2] <- <- Had. split.
  - intros k x Hk. rewrite lookup_insert_Some in Hk. destruct Hk as [[<- <-]|[_ Hk]]; [done|auto].
  - intros s Hs. destruct (decide (s = mb_space_id m)) as [->|Hne].
    + destruct Had as [Ha|(p & x & Hne & Hx & Ha)].
      * exists (mb_principal_id m), m. by rewrite lookup_insert_eq.
      * exists p, x. by rewrite lookup_insert_ne by congruence.
    + destruct (H2 s Hs) as (p & x & Hx & Ha). exists p, x. by rewrite lookup_insert_ne by congruence.
Qed.

Lemma administered_new sp mb sid s pid m : Administered_tables sp mb -> mb_space_id m = sid -> mb_principal_id m = pid ->
  is_admin m = true -> Administered_tables (<[sid := s]> sp) (<[(sid, pid) := m]> mb).
Proof.
  intros [H1 H2] <- <- Ha. split.
  - intros k x Hk. rewrite lookup_insert_Some in Hk. destruct Hk as [[<- <-]|[_ Hk]]; [done|auto].
  - intros t Ht. destruct (decide (t = mb_space_id m)) as [->|Hne].
    + exists (mb_principal_id m), m. by rewrite lookup_insert_eq.
    + rewrite lookup_insert_ne in Ht by congruence. destruct (H2 t Ht) as (p & x & Hx & Hax). exists p, x.
      by rewrite lookup_insert_ne by congruence.
Qed.

Section Commands.
Context {P : Platform}.

Lemma keeps_set_space sid f : keeps RM (set_row SPACES sid f).
Proof.
  apply keeps_set_row. intros d HA. refine (administered_spaces _ _ _ HA _). intros k. cbn.
  destruct (decide (sid = k)) as [->|Hne]; [rewrite lookup_alter_eq|by rewrite lookup_alter_ne].
  destruct (spaces d !! k); [by eauto|by intros []].
Qed.

Lemma keeps_create_space_admin p body key : keeps RM (create_space p body key).
Proof.
  unfold create_space. intros w u w' H HA. run_all; try done; once_cases; run_all;
    match goal with Hx : operation_key _ _ = (Ok _, _) |- _ => rewrite <- (pure_operation_key _ _ _ _ Hx) in HA end; try exact HA.
  all: unfold Administered; cbn; apply (administered_new _ _ _ _ _ _ HA); try done.
  all: unfold is_admin, mem_str; cbn; by rewrite bool_decide_eq_true_2 by set_solver.
Qed.

Lemma mem_sorted x l : mem_str x (sorted_set l) = mem_str x l.
Proof. unfold mem_str. apply bool_decide_ext. apply elem_of_sorted_set. Qed.

(** The check of [put_member] leaves an administrator. *)
Lemma administrator_left sp mb sid mid roles : Administered_tables sp mb -> is_Some (sp !! sid) ->
  match mb !! (sid, mid) with
  | Some c => mem_str "admin" (mb_roles c) && negb (mem_str "admin" roles)
              && negb (existsb (fun m => mem_str "admin" (mb_roles m))
                   (rows (fun m => String.eqb (mb_space_id m) sid && negb (String.eqb (mb_principal_id m) mid)) mb))
  | None => false
  end = false ->
  mem_str "admin" roles = true \/ exists p x, p <> mid /\ mb !! (sid, p) = Some x /\ is_admin x = true.
Proof.
  intros [HK HA] Hs Hc. destruct (HA sid Hs) as (p & x & Hx & Ha). destruct (mem_str "admin" roles) eqn:Er; [by left|right].
  destruct (decide (p = mid)) as [->|Hne]; [|by exists p, x]. rewrite Hx in Hc. unfold is_admin in Ha. rewrite Ha in Hc. cbn in Hc.
  apply negb_false_iff, existsb_exists in Hc as (y & Hy & Hya). apply list_elem_of_In, elem_of_rows in Hy as [Hy (k & Hk)].
  bool_simpl. pose proof (HK _ _ Hk) as E. subst k. exists (mb_principal_id y), y.
  match goal with H1 : String.eqb _ sid = true, H2 : String.eqb _ mid = false |- _ =>
    apply String.eqb_eq in H1; apply String.eqb_neq in H2; by rewrite H1 in Hk end.
Qed.

Lemma keeps_put_member p sid mid body : keeps RM (put_member p sid mid body).
Proof.
  unfold put_member. apply keeps_transaction_at. intros space row member w u w' Ho Hrun HA.
  assert (Hs : is_Some (spaces (w_db w) !! sid)) by (rewrite (op_space _ _ _ _ _ _ _ _ Ho); eauto).
  run_all; lookups; unfold Administered; cbn;
    repeat match goal with Hx : members _ !! _ = Some _ |- context [alter _ _ _] => rewrite (alter_alt_Some _ _ _ _ Hx) end;
    (apply administered_member; [exact HA|done|done|]); unfold is_admin at 1; cbn; rewrite mem_sorted;
    apply (administrator_left _ _ _ _ _ HA Hs);
    match goal with Hx : members _ !! _ = _ |- _ => rewrite Hx end; done.
Qed.
End Commands.

Section System.
Context {P : Platform}.
#[local] Hint Resolve keeps_set_space keeps_create_space_admin keeps_put_member : keeps.

Lemma serve_administered q : keeps RM (serve q).
Proof.
  destruct q; cbn [serve]; try solve [apply keeps_discard; [typeclasses eauto|]; eauto 1 with keeps nocore].
  all: open_all; keeping.
Qed.

Lemma administered_reachable d : reachable d -> Administered d.
Proof. apply reachable_preserved; [exact administered_empty|exact serve_administered]. Qed.
End System.
