(* ===== verification/EventLog.v ===== *)
(** * The event log

    Event numbers only grow; an event disappears with the record it is about,
    or below the cursor floor of its space; and a reader that follows the
    cursors of [events] misses no event it may see. *)

From stdpp Require Import base gmap strings list fin_maps relations sorting.
From Stdlib Require Import ZArith Lia.
From S2P Require Import Prelude Json Domain Schemas Profiles Models Storage Service Spaces Records Managed Coordination Transfers Uploads System Logic Accounting Consistency TransferConsistency RecordHistory.

Definition log_in (ev : gmap Z Event) (last : Z) : Prop := 0 <= last /\ forall k e, ev !! k = Some e -> ev_id e = k /\ 0 < k <= last.
Definition log_ok (d : DB) : Prop := log_in (events d) (last_event_id d).

(** Numbers grow, and new events come after all that were there. *)
Definition log_extends (ev ev' : gmap Z Event) (last last' : Z) : Prop :=
  log_in ev last -> log_in ev' last' /\ last <= last' /\ forall k e, ev' !! k = Some e -> ev !! k = Some e \/ last < k.
Definition log_grows (d d' : DB) : Prop := log_extends (events d) (events d') (last_event_id d) (last_event_id d').
(** ... and nothing is removed. *)
Definition log_kept (d d' : DB) : Prop :=
  log_in (events d) (last_event_id d) ->
  log_in (events d') (last_event_id d') /\ forall k e, events d !! k = Some e -> events d' !! k = Some e.

#[export] Instance log_grows_preorder : PreOrder log_grows.
Proof.
  split; [by intros d H; split_and!; eauto|]. intros d1 d2 d3 H12 H23 H1. destruct (H12 H1) as (H2 & L1 & N1).
  destruct (H23 H2) as (H3 & L2 & N2). split_and!; [done|lia|]. intros k e Hk. destruct (N2 k e Hk) as [Hk2|]; [|right; lia].
  destruct (N1 k e Hk2); [by left|by right].
Qed.
#[export] Instance log_kept_preorder : PreOrder log_kept.
Proof.
  split; [by intros d H; split|]. intros d1 d2 d3 H12 H23 H1. destruct (H12 H1) as (H2 & L1). destruct (H23 H2) as (H3 & L2).
  split; [done|]. auto.
Qed.

Section Log.
Context {P : Platform}.

Lemma keeps_emit_grows s k p r data : keeps log_grows (emit s k p r data).
Proof.
  intros w u w' H. apply emit_ok in H as (e & -> & ->). intros [H0 Hl]. cbn. split_and!; [|lia|].
  - split; [lia|]. intros j x Hj. rewrite lookup_insert_Some in Hj. destruct Hj as [[<- <-]|[_ Hj]]; [cbn; lia|].
    destruct (Hl _ _ Hj). lia.
  - intros j x Hj. rewrite lookup_insert_Some in Hj. destruct Hj as [[<- <-]|[_ Hj]]; [right; lia|by left].
Qed.

Lemma keeps_emit_kept s k p r data : keeps log_kept (emit s k p r data).
Proof.
  intros w u w' H. pose proof (keeps_emit_grows _ _ _ _ _ _ _ _ H) as Hg. apply emit_ok in H as (e & -> & ->). intros Hl.
  destruct (Hg Hl) as (Hl' & _). split; [done|]. intros j x Hj. cbn. rewrite lookup_insert_ne; [done|].
  destruct Hl as [_ Hl]. destruct (Hl _ _ Hj). lia.
Qed.

Lemma extends_subset ev ev' last : (forall k e, ev' !! k = Some e -> ev !! k = Some e) -> log_extends ev ev' last last.
Proof. intros Hs [H0 Hl]. split_and!; [|lia|auto]. split; [done|]. intros k e Hk. by apply Hl, Hs. Qed.

Lemma keeps_delete_event k : keeps log_grows (delete_row EVENTS k).
Proof. apply keeps_delete_row. intros d. apply extends_subset. intros j e Hj. cbn in Hj. by apply lookup_delete_Some in Hj as [_ Hj]. Qed.

Lemma keeps_delete_events p : keeps log_grows (bulk_delete EVENTS p).
Proof. apply keeps_bulk_delete. intros d. apply extends_subset. intros j e Hj. cbn in Hj. by apply map_lookup_filter_Some in Hj as [Hj _]. Qed.

#[local] Hint Resolve keeps_emit_grows keeps_emit_kept keeps_delete_event keeps_delete_events : keeps.

Lemma serve_log q : keeps log_grows (serve q).
Proof. each_request. Qed.

Lemma serve_kept q : (forall p s r, q <> PurgeRecord p s r) -> (forall evs s, q <> PruneSpace evs s) -> keeps log_kept (serve q).
Proof. intros H1 H2. destruct q; cbn [serve]; try (by exfalso; eapply H1 + eapply H2); clear H1 H2; open_all; keeping. Qed.

Lemma log_reachable d : reachable d -> log_ok d.
Proof.
  intros Hd. assert (H : log_grows empty_db d) by (refine (run_keeps log_grows serve_log _ _ Hd)).
  apply H. split; [done|]. intros k e Hk. cbn in Hk. by rewrite lookup_empty in Hk.
Qed.
End Log.

(** ** What may be forgotten *)
Lemma fold_max_bound ids acc : acc <= fold_left Z.max ids acc /\ forall k, k ∈ ids -> k <= fold_left Z.max ids acc.
Proof.
  revert acc. induction ids as [|x ids IH]; intros acc; cbn; [split; [lia|intros k Hk; by apply elem_of_nil in Hk]|].
  destruct (IH (Z.max acc x)) as [I1 I2]. split; [lia|]. intros k [->|Hin]%elem_of_cons; [lia|auto].
Qed.

(** The event is about a record that is gone, or below the floor of its space. *)
Definition forgettable (d' : DB) (k : Z) (e : Event) : Prop :=
  (exists rid, ev_record_id e = Some rid /\ records d' !! rid = None /\ mem_str (ev_type e) TERMINAL_EVENTS = false) \/
  (forall s, spaces d' !! ev_space_id e = Some s -> k <= event_floor s).

Section Forget.
Context {P : Platform}.

Lemma delete_events_ok ids w u w' : for_each ids (delete_row EVENTS) w = (Ok u, w') ->
  spaces (w_db w') = spaces (w_db w) /\ forall k e, events (w_db w) !! k = Some e -> k ∈ ids \/ events (w_db w') !! k = Some e.
Proof.
  intros H. eapply (for_each_ok _ _ (fun w1 => spaces (w_db w1) = spaces (w_db w) /\
    forall k e, events (w_db w) !! k = Some e -> k ∈ ids \/ events (w_db w1) !! k = Some e)); [exact H|auto|].
  intros id w1 w2 Hin [Es Hk] Hdel. run_ok. split; [done|]. intros k e He. destruct (Hk k e He) as [|Hk1]; [by left|].
  destruct (decide (id = k)) as [<-|Hne]; [by left|right]. cbn. by rewrite lookup_delete_ne.
Qed.

Lemma prune_space_forgets evs sid w u w' k e : prune_space evs sid w = (Ok u, w') -> genuine_events evs (w_db w) = true ->
  events (w_db w) !! k = Some e -> events (w_db w') !! k = Some e \/ forgettable (w_db w') k e.
Proof.
  intros H Hg Hk. unfold prune_space in H. set (ids := map _ _) in H. apply bind_ok in H as (v & w1 & Hdel & H).
  apply delete_events_ok in Hdel as [Es Hev]. destruct (Hev k e Hk) as [Hin|Hk']; run_ok; [right; right|by left].
  cbn. rewrite Es. intros s Hs. subst ids. apply list_elem_of_fmap in Hin as (e0 & -> & Hin).
  apply list_elem_of_In, List.filter_In in Hin as [Hin Esp]. apply String.eqb_eq in Esp. subst sid.
  unfold genuine_events in Hg. rewrite forallb_forall in Hg. pose proof (Hg _ Hin) as He. cbn in He. rewrite Hk in He.
  apply String.eqb_eq in He. rewrite He, lookup_alter_eq in Hs.
  destruct (spaces (w_db w) !! ev_space_id e0) as [s0|]; [|done]. injection Hs as <-. cbn.
  assert (Hle : ev_id e0 <= fold_left Z.max (map ev_id (List.filter (fun e1 => String.eqb (ev_space_id e1) (ev_space_id e0)) evs)) 0);
    [|lia].
  apply fold_max_bound, list_elem_of_fmap. exists e0. split; [done|]. apply list_elem_of_In, List.filter_In. by rewrite String.eqb_refl.
Qed.

(** Only events about the record [rid], its final ones apart, disappear. *)
Definition forgets_about (rid : string) (d d' : DB) : Prop := log_in (events d) (last_event_id d) ->
  log_in (events d') (last_event_id d') /\ forall k e, events d !! k = Some e -> events d' !! k = Some e \/
    (ev_record_id e = Some rid /\ mem_str (ev_type e) TERMINAL_EVENTS = false).
#[local] Instance forgets_about_preorder rid : PreOrder (forgets_about rid).
Proof.
  split; [by intros d H; split; auto|]. intros d1 d2 d3 H12 H23 H1. destruct (H12 H1) as (H2 & L1). destruct (H23 H2) as (H3 & L2).
  split; [done|]. intros k e Hk. destruct (L1 k e Hk) as [Hk2|]; [|by right]. exact (L2 k e Hk2).
Qed.
Lemma keeps_emit_about rid s k p r data : keeps (forgets_about rid) (emit s k p r data).
Proof.
  intros w u w' H Hl. destruct (keeps_emit_kept _ _ _ _ _ _ _ _ H Hl) as [H1 H2]. split; [done|]. intros j x Hj. left. auto.
Qed.
#[local] Hint Resolve keeps_emit_about : keeps.

Lemma purge_forgets_events p sid rid w u w' k e : purge_record p sid rid w = (Ok u, w') -> log_ok (w_db w) -> rows_keyed (w_db w) ->
  events (w_db w) !! k = Some e -> events (w_db w') !! k = Some e \/ forgettable (w_db w') k e.
Proof.
  intros H Hl HK Hk. pose proof (purge_history _ _ _ _ _ _ H HK) as (_ & Erec & _).
  apply transaction_ok in H as (space & row & member & w1 & _ & (Ew & _) & H). rewrite <- Ew in Hl, HK, Hk.
  apply bind_ok in H as (v & w2 & Hv & H). apply require_ok in Hv as [_ ->].
  apply bind_ok in H as (r & w2 & Hr & H). assert (Hrow : w2 = w1 /\ rec_id r = rid).
  { unfold record_in_space in Hr. run_all. split; [done|]. by apply HK. }
  destruct Hrow as [-> Erid]. clear Hr. cbv beta in H.
  match type of H with ?m _ = _ => assert (K : keeps (forgets_about (rec_id r)) m) end.
  { keeping; cbv zeta; keeping. apply keeps_bulk_delete. intros d0 Hd0. split.
    - split; [apply Hd0|]. intros j x Hj. apply map_lookup_filter_Some in Hj as [Hj _]. by apply Hd0.
    - intros j x Hj. cbn. destruct (bool_decide (ev_record_id x = Some (rec_id r)) && negb (mem_str (ev_type x) TERMINAL_EVENTS)) eqn:E.
      + right. by bool_simpl.
      + left. apply map_lookup_filter_Some. split; [done|]. cbn. by rewrite E. }
  destruct (proj2 (K _ _ _ H Hl) k e Hk) as [|[H1 H2]]; [by left|]. right; left. exists rid. rewrite Erec, lookup_delete_eq. 
  by rewrite <- Erid.
Qed.

Lemma event_step d d' k e : reachable d -> step d d' -> events d !! k = Some e ->
  events d' !! k = Some e \/ forgettable d' k e.
Proof.
  intros Hd (q & w & [u|x] & w' & <- & Hs & <-) Hk; [|rewrite (serve_atomic _ _ _ _ Hs); by left].
  pose proof (log_reachable _ Hd) as Hl.
  destruct q; try (left; refine (proj2 (serve_kept _ _ _ _ _ _ Hs Hl) k e Hk); done); cbn [serve] in Hs; unfold discard, on_events in Hs.
  - run_ok. pose proof (proj1 (consistent_reachable _ Hd)) as HA. eapply purge_forgets_events; eauto.
    split; intros j y Hj; [exact (ro_id _ _ _ _ (acc_record _ _ _ HA _ _ Hj))|exact (bh_id _ _ _ (acc_blob _ _ _ HA _ _ Hj))].
  - run_ok. destruct (genuine_events evs (w_db w)) eqn:Hg; run_ok; [|by left]. eapply prune_space_forgets; eauto.
Qed.
End Forget.

(** ** Pages *)
Section Pages.
Context {P : Platform}.
Variables (member : Member) (principal : Principal) (space_id : string) (d : DB).
Hypothesis Hlog : log_ok d.

Lemma event_rows_spec after e : e ∈ event_rows member principal space_id after d <->
  events d !! ev_id e = Some e /\ ev_space_id e = space_id /\ after < ev_id e /\ event_visible member principal d e = true.
Proof.
  unfold event_rows. rewrite merge_sort_Permutation, elem_of_rows. split.
  - intros [Hp (k & Hk)]. bool_simpl. destruct (proj2 Hlog _ _ Hk) as [E _]. rewrite E. split_and!; try done; [by apply String.eqb_eq|lia].
  - intros (Hk & <- & Ha & Hv). split; [|by eauto]. rewrite String.eqb_refl, Hv, andb_true_r. cbn. lia.
Qed.

#[local] Instance event_le_preorder : Transitive event_le.
Proof. intros a b c. unfold event_le. lia. Qed.
#[local] Instance event_le_total : Total event_le.
Proof. intros a b. unfold event_le. lia. Qed.

Lemma event_rows_sorted after : StronglySorted event_le (event_rows member principal space_id after d).
Proof. apply StronglySorted_merge_sort; typeclasses eauto. Qed.

Lemma sorted_split (l : list Event) n e x : StronglySorted event_le l -> last (take n l) = Some x -> e ∈ l ->
  e ∈ take n l /\ ev_id e <= ev_id x \/ ev_id x <= ev_id e.
Proof.
  intros Hs Hx He. rewrite <- (take_drop n l) in Hs, He. apply last_Some in Hx as [l' El]. rewrite El in Hs, He |- *.
  apply StronglySorted_app in Hs as (Hc & Hs1 & _). rewrite elem_of_app in He. destruct He as [He|He].
  - left. split; [done|]. rewrite elem_of_app, list_elem_of_singleton in He. destruct He as [He| ->]; [|lia].
    apply StronglySorted_app in Hs1 as (Hc1 & _ & _). apply (Hc1 e x); [done|left].
  - right. apply (Hc x e); [|done]. rewrite elem_of_app. right. left.
Qed.

Lemma last_event_bound e after : events d !! ev_id e = Some e -> ev_space_id e = space_id -> ev_id e <= last_event space_id after d.
Proof.
  intros Hk Hs. unfold last_event.
  assert (He : e ∈ rows (fun e => String.eqb (ev_space_id e) space_id) (events d))
    by (apply elem_of_rows; rewrite Hs, String.eqb_refl; eauto).
  destruct (rows _ _) as [|x l]; [by apply elem_of_nil in He|].
  enough (G : forall l a, a <= fold_left (fun acc e => Z.max acc (ev_id e)) l a /\
    forall y, y ∈ l -> ev_id y <= fold_left (fun acc e => Z.max acc (ev_id e)) l a).
  { apply elem_of_cons in He as [->|He]; [exact (proj1 (G l (ev_id x)))|exact (proj2 (G l (ev_id x)) e He)]. }
  clear. induction l as [|z l IH]; intros a; cbn; [split; [lia|intros y Hy; by apply elem_of_nil in Hy]|].
  destruct (IH (Z.max a (ev_id z))) as [I1 I2]. split; [lia|]. intros y [->|Hy]%elem_of_cons; [lia|auto].
Qed.

Lemma events_page_spec after limit page cursor : 1 <= limit ->
  events_page member principal space_id after limit d = (page, cursor) ->
  StronglySorted event_le page /\ Z.of_nat (List.length page) <= limit /\
  forall e, e ∈ page <-> events d !! ev_id e = Some e /\ ev_space_id e = space_id /\ after < ev_id e <= cursor /\
                       event_visible member principal d e = true.
Proof.
  intros Hlim. unfold events_page. set (l := event_rows member principal space_id after d).
  pose proof (event_rows_sorted after) as Hs. fold l in Hs. pose proof (event_rows_spec after) as Hspec. fold l in Hspec.
  rewrite take_take, Nat.min_l by lia. intros [= <- Hcur]. set (n := Z.to_nat limit) in *.
  assert (Hst : StronglySorted event_le (take n l)) by (rewrite <- (take_drop n l) in Hs; by apply StronglySorted_app in Hs as (_ & ? & _)).
  split_and!; [done|rewrite length_take; lia|]. rewrite length_take in Hcur.
  destruct (limit <? Z.of_nat (Z.to_nat (limit + 1) `min` List.length l)) eqn:Em.
  - apply Z.ltb_lt in Em. destruct (last (take n l)) as [x|] eqn:El.
    2: { apply last_None, (f_equal (@List.length _)) in El. rewrite length_take in El. cbn in El. lia. }
    subst cursor. assert (Hx : x ∈ take n l) by (apply last_Some in El as [l' ->]; rewrite elem_of_app; right; left).
    intros e. split.
    + intros He. assert (Hel : e ∈ l) by (rewrite <- (take_drop n l), elem_of_app; by left).
      destruct (proj1 (Hspec e) Hel) as (H1 & H2 & H3 & H4). split_and!; try done.
      apply last_Some in El as [l' El]. rewrite El in He, Hst. rewrite elem_of_app, list_elem_of_singleton in He.
      destruct He as [He| ->]; [|lia]. apply StronglySorted_app in Hst as (Hc & _ & _). apply (Hc e x); [done|left].
    + intros (H1 & H2 & [H3 H5] & H4). assert (Hel : e ∈ l) by (by apply Hspec).
      destruct (sorted_split l n e x Hs El Hel) as [[]|Hle]; [done|].
      assert (Hxl : x ∈ l) by (rewrite <- (take_drop n l), elem_of_app; by left).
      destruct (proj1 (Hspec x) Hxl) as (Hx1 & _). replace (ev_id x) with (ev_id e) in Hx1 by lia. congruence.
  - apply Z.ltb_ge in Em. rewrite take_ge by lia. subst cursor. intros e. rewrite Hspec. split.
    + intros (H1 & H2 & H3 & H4). split_and!; try done. by apply last_event_bound.
    + intros (H1 & H2 & [H3 _] & H4). by split_and!.
Qed.
End Pages.
