(* ===== verification/Refinement.v ===== *)
(** * The transfer service is made of atomic requests

    [System] describes the server by the transactions it may commit, in any
    order.  Here the multi-transaction operations of the transfer service --
    which call the storage provider between their transactions, with any
    outcome, while other threads commit -- are shown to be such sequences:
    whatever an operation does to the database is a run of [step]. *)

From stdpp Require Import base gmap strings list fin_maps relations sorting.
From Stdlib Require Import ZArith Lia.
From S2P Require Import Prelude Json Domain Schemas Profiles Models Storage Service Spaces Records Managed Coordination Transfers Uploads System Logic Lifecycle TransferConsistency EventLog.

(** ** Requests and the bodies they run *)
Section Requests.
Context {P : Platform}.

Definition runs : DB -> DB -> Prop := rtc step.
#[export] Instance runs_preorder : PreOrder runs.
Proof. apply rtc_po. Qed.

Lemma serve_runs q w r w' : serve q w = (r, w') -> runs (w_db w) (w_db w').
Proof. intros H. apply rtc_once. exists q, w, r, w'. done. Qed.

(** [m] does to the state what the request does; results aside. *)
Lemma discard_state {A} (m : M World A) w r w' : m w = (r, w') -> exists r', discard m w = (r', w').
Proof. intros H. unfold discard, bind. rewrite H. destruct r; eexists; reflexivity. Qed.

Lemma always_request {A} (m : M World A) q : serve q = discard m -> always runs m.
Proof.
  intros Hq w r w' H. destruct (discard_state m w r w' H) as [r' Hd]. rewrite <- Hq in Hd. exact (serve_runs _ _ _ _ Hd).
Qed.

Lemma atomically_discard {A} (m : M World A) w : atomically (discard m) w = discard (atomically m) w.
Proof. unfold atomically, discard, bind. by destruct (m w) as [[a|e] w1]. Qed.

Lemma always_atomic_request {A} (m : M World A) q : serve q = atomically (discard m) -> always runs (atomically m).
Proof.
  intros Hq w r w' H. destruct (discard_state _ w r w' H) as [r' Hd]. rewrite <- atomically_discard, <- Hq in Hd.
  exact (serve_runs _ _ _ _ Hd).
Qed.

Lemma always_transfer_request {A} p sid write (body : Member -> M World A) q : serve q = transfer_tx p sid write body ->
  always runs (transaction sid p write false (fun _ member => body member)).
Proof. apply always_request. Qed.
End Requests.

(** ** Snapshots of attempts *)

(** No attempt appears, none changes hands. *)
Definition no_new (d d' : DB) : Prop := forall k c', attempts d' !! k = Some c' ->
  exists c, attempts d !! k = Some c /\ at_blob_id c' = at_blob_id c /\ at_object_key c' = at_object_key c.
#[export] Instance no_new_preorder : PreOrder no_new.
Proof.
  split; [intros d k c Hk; by exists c|]. intros d1 d2 d3 H12 H23 k c3 Hk. destruct (H23 _ _ Hk) as (c2 & Hk2 & E2 & F2).
  destruct (H12 _ _ Hk2) as (c1 & Hk1 & E1 & F1). exists c1. split_and!; [done|congruence|congruence].
Qed.

Lemma genuine_no_new a d d' : no_new d d' -> genuine a d = true -> genuine a d' = true.
Proof.
  unfold genuine. intros H Hg. destruct (attempts d' !! at_id a) as [c'|] eqn:E; [|done].
  destruct (H _ _ E) as (c & Hc & Eb & Ek). rewrite Hc in Hg. by rewrite Eb, Ek.
Qed.

Section NoNew.
Context {P : Platform}.

Lemma keeps_no_new_row k f : (forall a, at_blob_id (f a) = at_blob_id a /\ at_object_key (f a) = at_object_key a) ->
  keeps no_new (set_row ATTEMPTS k f).
Proof.
  intros Hf. apply keeps_set_row. intros d j c' Hj. cbn in Hj. apply lookup_alter_Some in Hj as [(-> & c & Hc & ->)|[_ Hj]].
  - exists c. destruct (Hf c). done.
  - by exists c'.
Qed.
Lemma keeps_no_new_rows (p : TransferAttempt -> bool) f : (forall a, at_blob_id (f a) = at_blob_id a /\ at_object_key (f a) = at_object_key a) ->
  keeps no_new (bulk_update ATTEMPTS p f).
Proof.
  intros Hf. apply keeps_bulk_update. intros d j c' Hj. cbn in Hj. apply lookup_fmap_Some in Hj as (c & <- & Hc). exists c.
  destruct (p c), (Hf c); done.
Qed.

Ltac old_rows :=
  keeping; try lazymatch goal with
  | |- keeps _ (set_row ATTEMPTS _ _) => apply keeps_no_new_row; intros ?; split; reflexivity
  | |- keeps _ (bulk_update ATTEMPTS _ _) => apply keeps_no_new_rows; intros ?; split; reflexivity
  end.

Lemma keeps_commit_old a st res : keeps no_new (commit_body a st res).
Proof. unfold commit_body, commit_outcome, commit_verified, commit_cleaned, release, release_blob. old_rows. Qed.
Lemma keeps_retry_old a code : keeps no_new (retry_body a code).
Proof. unfold retry_body. old_rows. Qed.
Lemma keeps_settle_old a : keeps no_new (settle_mutation_body a).
Proof. unfold settle_mutation_body, rearm_cleanup. old_rows. Qed.
Lemma keeps_abandon_old a : keeps no_new (abandon_body a).
Proof. unfold abandon_body, rearm_cleanup. old_rows. Qed.
Lemma keeps_release_lease_old a : keeps no_new (release_lease_body a).
Proof. unfold release_lease_body. old_rows. Qed.
End NoNew.

(** ** Execution *)

(** The assumptions on the other threads: they run the same server, and the
    identifier of a deleted attempt is not issued again. *)
Class Fair {P : Platform} (B : BlobStore) := {
  others_run : forall n d, runs d (others n d);
  others_genuine : forall n d a, genuine a d = true -> genuine a (others n d) = true;
}.

Section Execution.
Context {P : Platform} {B : BlobStore} {F : Fair B}.

(** From a database with the attempt, a run to a database with the attempt. *)
Definition tracked (a : TransferAttempt) (d d' : DB) : Prop := genuine a d = true -> runs d d' /\ genuine a d' = true.
#[local] Instance tracked_preorder a : PreOrder (tracked a).
Proof.
  split; [by intros d H; split|]. intros d1 d2 d3 H12 H23 H1. destruct (H12 H1) as [R1 G1], (H23 G1) as [R2 G2].
  split; [by transitivity d2|done].
Qed.

Lemma always_interleaved : always runs interleaved.
Proof. intros w r w' [= <- <-]. cbn. apply others_run. Qed.

Lemma always_session {A} (body : M World A) : always runs (atomically body) -> always runs (begin_session body).
Proof. intros H. apply always_bind; [typeclasses eauto|exact always_interleaved|by intros _]. Qed.

Lemma always_read {A} (body : M World A) : pure body -> always runs (begin_session body).
Proof. intros H. apply always_session, always_atomically; [typeclasses eauto|]. apply pure_keeps; [typeclasses eauto|done]. Qed.

Lemma tracked_interleaved a : always (tracked a) interleaved.
Proof. intros w r w' [= <- <-]. cbn. intros Hg. split; [apply others_run|by apply others_genuine]. Qed.

Lemma tracked_session {A} a (body : M World A) : always (tracked a) (atomically body) -> always (tracked a) (begin_session body).
Proof. intros H. apply always_bind; [typeclasses eauto|apply tracked_interleaved|by intros _]. Qed.

(** A transaction on a snapshot that is still genuine is a request. *)
Lemma tracked_request {A} a (body : M World A) q : (forall w, genuine a (w_db w) = true -> serve q w = atomically (discard body) w) ->
  keeps no_new body -> always (tracked a) (atomically body).
Proof.
  intros Hq Hold w r w' H Hg. split.
  - destruct (discard_state _ w r w' H) as [r' Hd]. rewrite <- atomically_discard, <- (Hq w Hg) in Hd. exact (serve_runs _ _ _ _ Hd).
  - eapply genuine_no_new; [|exact Hg]. exact (always_atomically no_new body Hold _ _ _ H).
Qed.

Lemma on_snapshot_genuine {A} a (body : M World A) w : genuine a (w_db w) = true -> on_snapshot a body w = discard body w.
Proof. intros Hg. unfold on_snapshot, bind, gets. by rewrite Hg. Qed.

Lemma atomically_ext {A} (m m' : M World A) w : m w = m' w -> atomically m w = atomically m' w.
Proof. unfold atomically. by intros ->. Qed.

Lemma tracked_commit a st res : legal_commit a st res = true -> always (tracked a) (commit a st res).
Proof.
  intros Hl. apply tracked_session, (tracked_request a _ (Commit a st res)); [|apply keeps_commit_old].
  intros w Hg. cbn [serve]. rewrite Hl. by apply atomically_ext, on_snapshot_genuine.
Qed.
Lemma tracked_retry a code : always (tracked a) (retry a code).
Proof.
  apply tracked_session, (tracked_request a _ (Retry a code)); [|apply keeps_retry_old].
  intros w Hg. cbn [serve]. by apply atomically_ext, on_snapshot_genuine.
Qed.
Lemma tracked_settle a : always (tracked a) (settle_mutation a).
Proof.
  apply tracked_session, (tracked_request a _ (Settle a)); [|apply keeps_settle_old].
  intros w Hg. cbn [serve]. by apply atomically_ext, on_snapshot_genuine.
Qed.
Lemma tracked_abandon a : always (tracked a) (Transfers.abandon a).
Proof.
  apply tracked_session, (tracked_request a _ (AbandonAttempt a)); [|apply keeps_abandon_old].
  intros w Hg. cbn [serve]. by apply atomically_ext, on_snapshot_genuine.
Qed.
Lemma tracked_release_lease a : always (tracked a) (release_lease a).
Proof.
  apply tracked_session, (tracked_request a _ (ReleaseLease a)); [|apply keeps_release_lease_old].
  intros w Hg. cbn [serve]. apply atomically_ext. unfold discard, bind. by destruct (release_lease_body a w) as [[[]|e] w1].
Qed.
Lemma tracked_pure {A} a (m : M World A) : pure m -> always (tracked a) m.
Proof. apply pure_always. typeclasses eauto. Qed.
Lemma tracked_read {A} a (body : M World A) : pure body -> always (tracked a) (begin_session body).
Proof. intros H. apply tracked_session, always_atomically, pure_keeps; [typeclasses eauto..|done]. Qed.

(** A continuation that may use what the statement before it returned. *)
Lemma always_bind_post {A B'} R {HR : PreOrder R} (m : M World A) (f : A -> M World B') :
  always R m -> (forall w x w', m w = (Ok x, w') -> always R (f x)) -> always R (bind m f).
Proof.
  intros Hm Hf w r w' H. unfold bind in H. destruct (m w) as [[x|e] w1] eqn:E.
  - transitivity (w_db w1); [exact (Hm _ _ _ E)|exact (Hf _ _ _ E _ _ _ H)].
  - injection H as <- <-. exact (Hm _ _ _ E).
Qed.

(** ** [_execute] *)
Section Execute.
Variable a : TransferAttempt.
Hypothesis Hleased : leased_state (at_state a).

Lemma legal_failure m : at_state a <> CLEANUP -> legal_commit a XFER_FAILED (Reason m) = true.
Proof. intros Hn. cbn. apply bool_decide_eq_true_2. unfold leased_state in Hleased. set_solver. Qed.

Lemma call_due_legal size digest part_size w st res out w' :
  call_due a size digest part_size w = (Ok (Some (st, res, out)), w') -> legal_commit a st res = true.
Proof.
  unfold call_due. intros H. destruct (at_state a) eqn:Est; inv_ok; try done.
  3: destruct (uh_version _); [|by inv_ok].
  4: destruct a0.
  all: inv_ok; try done.
  all: match goal with Hx : Some _ = Some _ |- _ => injection Hx as -> -> -> end; cbn; by rewrite Est.
Qed.

Lemma tracked_call_due size digest part_size : always (tracked a) (call_due a size digest part_size).
Proof.
  unfold call_due. destruct (at_state a); try (apply tracked_pure; by purely).
  - apply always_bind; [typeclasses eauto| |intros []; apply tracked_pure; by purely].
    apply tracked_read. purely.
Qed.

Lemma tracked_execute_body : always (tracked a) (execute_body a).
Proof.
  unfold execute_body. apply always_bind; [typeclasses eauto|apply tracked_read; by purely|]. intros [b now].
  destruct (negb (bool_decide (at_state a = CLEANUP)) && _) eqn:E.
  - bool_simpl. apply always_bind; [typeclasses eauto|by apply tracked_commit, legal_failure|].
    intros done_. apply tracked_pure. purely.
  - apply always_bind_post; [typeclasses eauto|apply tracked_call_due|]. intros w [[[st res] out]|] w' H.
    + apply always_bind; [typeclasses eauto|apply tracked_commit; by eapply call_due_legal|].
      intros []; [apply tracked_pure; by purely|]. apply always_bind; [typeclasses eauto| |intros _; apply tracked_pure; by purely].
      apply always_when; [typeclasses eauto|apply tracked_abandon].
    + apply tracked_pure. purely.
Qed.

Lemma tracked_on_failure code retryable : always (tracked a) (on_failure a code retryable).
Proof.
  unfold on_failure. destruct (_ && _) eqn:E1; [|destruct (_ || _) eqn:E2].
  - bool_simpl. apply always_bind; [typeclasses eauto|apply tracked_commit; cbn; by apply bool_decide_eq_true_2|].
    intros ?. apply tracked_pure. purely.
  - apply always_bind; [typeclasses eauto|apply tracked_retry|intros _; apply tracked_pure; by purely].
  - bool_simpl. apply always_bind; [typeclasses eauto|by apply tracked_commit, legal_failure|].
    intros ?. apply tracked_pure. purely.
Qed.

Lemma tracked_execute_guarded w r resolved w' : execute_guarded a w = (r, resolved, w') -> tracked a (w_db w) (w_db w').
Proof.
  unfold execute_guarded. intros H. destruct (execute_body a w) as [[out|e] w1] eqn:Eb.
  - injection H as <- <- <-. exact (tracked_execute_body _ _ _ Eb).
  - transitivity (w_db w1); [exact (tracked_execute_body _ _ _ Eb)|].
    assert (G : always (tracked a) (retry a "internal_transfer_error" ;; ret "retry")).
    { apply always_bind; [typeclasses eauto|apply tracked_retry|intros _; apply tracked_pure; by purely]. }
    destruct e; try (destruct ((retry a "internal_transfer_error" ;; ret "retry") w1) as [r2 w2] eqn:E2;
      injection H as <- <- <-; exact (G _ _ _ E2)).
    destruct (on_failure a code retryable w1) as [r2 w2] eqn:E2. injection H as <- <- <-.
    exact (tracked_on_failure _ _ _ _ _ E2).
Qed.

Lemma tracked_finish resolved : always (tracked a) (finish a resolved).
Proof.
  unfold finish. apply always_bind; [typeclasses eauto| |intros _; apply tracked_release_lease].
  apply always_when; [typeclasses eauto|]. apply always_bind; [typeclasses eauto| |intros _; apply tracked_abandon].
  apply always_when; [typeclasses eauto|apply tracked_settle].
Qed.

Lemma tracked_execute : always (tracked a) (execute a).
Proof.
  intros w r w' H. unfold execute in H. destruct (execute_guarded a w) as [[r1 resolved] w1] eqn:E.
  transitivity (w_db w1); [exact (tracked_execute_guarded _ _ _ _ E)|].
  refine (always_bind (tracked a) _ _ (tracked_finish resolved) (fun _ => _) _ _ _ H). apply tracked_pure. purely.
Qed.
End Execute.

(** ** Operations that acquire an attempt and execute it *)
Lemma reachable_runs d d' : reachable d -> runs d d' -> reachable d'.
Proof. intros H1 H2. unfold reachable, runs in *. by etransitivity. Qed.

Lemma attempt_keyed d k a : reachable d -> attempts d !! k = Some a -> at_id a = k.
Proof. intros Hd Hk. exact (ao_id _ _ _ (ph_attempt _ _ _ _ (proj2 (consistent_reachable _ Hd)) _ _ Hk)). Qed.

Lemma genuine_by_row a c d : attempts d !! at_id a = Some c -> at_blob_id c = at_blob_id a -> at_object_key c = at_object_key a ->
  genuine a d = true.
Proof. intros Hc Eb Ek. unfold genuine. by rewrite Hc, Eb, Ek, !String.eqb_refl. Qed.

Lemma new_attempt_row b now a w w' : new_attempt b now w = (Ok a, w') ->
  at_state a = INITIATING /\ attempts (w_db w') !! at_id a = Some a.
Proof. unfold new_attempt. intros H. run_all. split; [done|]. cbn. by rewrite lookup_insert_eq. Qed.

Lemma genuine_alter d k f c a : attempts d !! k = Some c -> at_id a = k -> at_blob_id (f c) = at_blob_id a ->
  at_object_key (f c) = at_object_key a -> genuine a (d <| attempts ::= alter f k |>) = true.
Proof. intros Hc <- Eb Ek. apply (genuine_by_row a (f c)); [|done|done]. cbn. by rewrite lookup_alter_eq, Hc. Qed.

Lemma acquire_body_ok id c a w w' : acquire_body id c w = (Ok (Some a), w') -> reachable (w_db w) ->
  leased_state (at_state a) /\ genuine a (w_db w') = true.
Proof.
  intros H Hd. unfold acquire_body in H. run_all; try done;
    match goal with Hx : Some a = Some _ |- _ => injection Hx as -> end.
  1: { match goal with Hn : new_attempt _ _ _ = _ |- _ => apply new_attempt_row in Hn as [Hst Hrow] end.
       split; [cbn; rewrite Hst; unfold leased_state; set_solver|]. by eapply genuine_alter. }
  all: split; [cbn; unfold leased_state; set_solver|].
  all: eapply genuine_alter; [eassumption|cbn; by apply (attempt_keyed _ _ _ Hd)|done|done].
Qed.

Lemma execute_run a w r w' : execute a w = (r, w') -> leased_state (at_state a) -> genuine a (w_db w) = true -> runs (w_db w) (w_db w').
Proof. intros H Hl Hg. exact (proj1 (tracked_execute a Hl _ _ _ H Hg)). Qed.

Lemma process_run id c w r w' : process id c w = (r, w') -> reachable (w_db w) -> runs (w_db w) (w_db w').
Proof.
  intros H Hd. unfold process, bind in H. unfold acquire in H.
  assert (Hacq : always runs (begin_session (acquire_body id (Some c)))) by
    (apply always_session; exact (always_atomic_request _ (Lease id (Some c)) eq_refl)).
  destruct (begin_session (acquire_body id (Some c)) w) as [[[a|]|e] w1] eqn:E; pose proof (Hacq _ _ _ E) as R1.
  - transitivity (w_db w1); [done|]. unfold begin_session in E. apply bind_ok in E as ([] & w2 & Hi & Hb).
    injection Hi as <-. rewrite atomically_ok in Hb. apply acquire_body_ok in Hb as [Hl Hg]; [by eapply execute_run|].
    eapply reachable_runs; [exact Hd|]. apply others_run.
  - by injection H as <- <-.
  - by injection H as <- <-.
Qed.

Lemma initiate_body_ok sid rid bid p m a w w' : initiate_body sid rid bid p m w = (Ok (inr a), w') ->
  leased_state (at_state a) /\ genuine a (w_db w') = true.
Proof.
  intros H. unfold initiate_body in H. run_all; try done.
  all: match goal with Hx : inr _ = inr _ |- _ => injection Hx as -> end.
  all: match goal with Hn : new_attempt _ _ _ = _ |- _ => apply new_attempt_row in Hn as [Hst Hrow] end.
  all: split; [rewrite Hst; unfold leased_state; set_solver|by eapply genuine_by_row].
Qed.

Lemma complete_body_ok sid rid bid p m a w w' : complete_body sid rid bid p m w = (Ok (inr a), w') -> reachable (w_db w) ->
  leased_state (at_state a) /\ genuine a (w_db w') = true.
Proof.
  intros H Hd. unfold complete_body in H. run_all; try done. 
  match goal with Hx : inr a = inr _ |- _ => injection Hx as -> end. split; [cbn; unfold leased_state; set_solver|].
  match goal with Hx : uploading ?o = Some ?x, Hy : context [?o] |- _ =>
    unfold uploading in Hx; destruct o as [y|]; [|done]; case_bool_decide; [|done]; injection Hx as ->;
    destruct (Hy x eq_refl) as (k & Hk & _) end.
  pose proof (attempt_keyed _ _ _ Hd Hk) as Ek. rewrite Ek. eapply genuine_alter; [exact Hk|done|done|done].
Qed.

(** ** Client commands of the transfer service *)
Lemma runs_pure {A} (m : M World A) : pure m -> always runs m.
Proof. apply pure_always. typeclasses eauto. Qed.

Lemma current_view_run sid rid bid p : always runs (current_view sid rid bid p).
Proof.
  unfold current_view, transaction_after. apply always_bind; [typeclasses eauto|exact always_interleaved|intros _].
  apply always_transaction; [typeclasses eauto|]. intros space member. apply pure_keeps; [typeclasses eauto|]. purely.
Qed.

Lemma always_tx_after {A} p sid write (body : Member -> M World A) q : serve q = transfer_tx p sid write body ->
  always runs (transaction_after sid p write (fun _ member => body member)).
Proof.
  intros H. apply always_bind; [typeclasses eauto|exact always_interleaved|intros _]. by apply always_transfer_request with q.
Qed.

(** A transaction that returns the attempt to execute, and what follows. *)
Lemma execute_after {A} sid p (body : Member -> M World (dict + TransferAttempt)) (next : string -> M World A)
    (answer : dict -> M World A) q w r w' :
  serve q = transfer_tx p sid true body ->
  (forall m a w w', body m w = (Ok (inr a), w') -> reachable (w_db w) -> leased_state (at_state a) /\ genuine a (w_db w') = true) ->
  (forall o, always runs (next o)) -> (forall d, always runs (answer d)) ->
  bind (transaction sid p true false (fun _ member => body member))
    (fun first => match first with inl d => answer d | inr a => bind (execute a) next end) w = (r, w') ->
  reachable (w_db w) -> runs (w_db w) (w_db w').
Proof.
  intros Hq Hbody Hnext Hanswer H Hd. unfold bind in H.
  pose proof (always_transfer_request p sid true body q Hq w) as Htx.
  destruct (transaction _ _ _ _ _ w) as [[[d|a]|e] w1] eqn:E; specialize (Htx _ _ eq_refl).
  - transitivity (w_db w1); [done|exact (Hanswer _ _ _ _ H)].
  - apply transaction_ok in E as (space & row & member & w0 & _ & (Ew & _) & Hb).
    destruct (Hbody _ _ _ _ Hb) as [Hl Hg]; [by rewrite Ew|]. transitivity (w_db w1); [done|].
    destruct (execute a w1) as [[o|e] w2] eqn:E2; pose proof (execute_run _ _ _ _ E2 Hl Hg) as R2.
    + transitivity (w_db w2); [done|exact (Hnext _ _ _ _ H)].
    + by injection H as <- <-.
  - by injection H as <- <-.
Qed.

Lemma initiate_run sid rid bid p w r w' : initiate sid rid bid p w = (r, w') -> reachable (w_db w) -> runs (w_db w) (w_db w').
Proof.
  intros H. refine (execute_after sid p (initiate_body sid rid bid p) _ _ (Initiate p sid rid bid) _ _ _ eq_refl _ _ _ H).
  - intros m a w1 w2 Hb _. by eapply initiate_body_ok.
  - intros _. apply current_view_run.
  - intros d. apply runs_pure. purely.
Qed.

Lemma complete_upload_run sid rid bid p w r w' :
  complete_upload sid rid bid p w = (r, w') -> reachable (w_db w) -> runs (w_db w) (w_db w').
Proof.
  intros H. refine (execute_after sid p (complete_body sid rid bid p) _ _ (CompleteUpload p sid rid bid) _ _ _ eq_refl _ _ _ H).
  - intros m a w1 w2 Hb Hd. by eapply complete_body_ok.
  - intros o. apply always_bind; [typeclasses eauto|apply runs_pure; by purely|intros _; apply current_view_run].
  - intros d. apply runs_pure. purely.
Qed.

Ltac then_ := apply always_bind; [typeclasses eauto| |].
Ltac quiet := apply runs_pure; by purely.

Lemma parts_run sid rid bid p : always runs (parts sid rid bid p).
Proof.
  unfold parts. then_; [|intros h; quiet]. apply always_transaction; [typeclasses eauto|]. intros s m.
  apply pure_keeps; [typeclasses eauto|]. purely.
Qed.

Lemma grants_run sid rid bid p ns : always runs (grants sid rid bid p ns).
Proof.
  unfold grants. then_; [quiet|intros _]. then_.
  - exact (always_transfer_request p sid false _ (CheckGrants p sid rid bid ns) eq_refl).
  - intros [[[[h aid] sizes] now] window]. then_; [quiet|intros gs]. then_; [|intros _; quiet].
    exact (always_tx_after p sid true _ (RecordGrants p sid rid bid aid (latest_expiry gs)) eq_refl).
Qed.

Lemma download_run sid rid bid p : always runs (download sid rid bid p).
Proof.
  unfold download. then_.
  - apply always_transaction; [typeclasses eauto|]. intros s m. apply pure_keeps; [typeclasses eauto|]. unfold downloadable. purely.
  - intros [b now]. then_; [quiet|intros g]. then_; [|intros _; quiet].
    exact (always_tx_after p sid true _ (RecordDownload p sid rid bid (tg_expires_at g)) eq_refl).
Qed.

Lemma begin_gateway_put_run p sid rid bid n : always runs (begin_gateway_put p sid rid bid n).
Proof.
  unfold begin_gateway_put. then_; [quiet|intros _]. then_; [quiet|intros number]. then_.
  - exact (always_transfer_request p sid true _ (FencePut p sid rid bid number) eq_refl).
  - intros [[[[h upload] size] now] window]. then_; [quiet|intros g]. then_; [|intros _; quiet].
    exact (always_tx_after p sid true _ (ConfirmPut p sid rid bid h (tg_expires_at g)) eq_refl).
Qed.

Lemma finish_gateway_put_run h : always runs (finish_gateway_put h).
Proof.
  unfold finish_gateway_put. destruct (_ || _); [quiet|].
  apply always_session. exact (always_atomic_request _ (FinishPut h) eq_refl).
Qed.

Lemma heartbeat_run a : always runs (begin_session (heartbeat_body a)).
Proof.
  apply always_session. intros w r w' H. exact (serve_runs (Heartbeat a) _ _ _ H).
Qed.

Lemma is_managed_run sid : always runs (is_managed_space sid).
Proof. apply always_atomically, pure_keeps; [typeclasses eauto..|purely]. Qed.
Lemma managed_protocol_run sid d : always runs (managed_protocol sid d).
Proof. unfold managed_protocol. then_; [apply is_managed_run|intros c; quiet]. Qed.

(** ** The worker *)
Lemma work_run batch : always runs (work batch).
Proof. apply always_read. unfold queue. purely. Qed.

Lemma expire_run batch : always runs (expire batch).
Proof.
  unfold expire. then_; [apply always_read; by purely|intros ids]. apply always_foldM; [typeclasses eauto|]. intros n id.
  then_; [|intros k; quiet]. apply always_session. exact (always_atomic_request _ (Expire id) eq_refl).
Qed.

Lemma repair_mutations_run ids ex stopped quiesced : always runs (repair_mutations ids ex stopped quiesced).
Proof.
  unfold repair_mutations. then_; [quiet|intros _]. destruct (negb ex).
  - unfold inspect_mutations. then_; [quiet|intros _]. apply always_read. unfold repair_inventory, inventory_item. purely.
  - then_; [quiet|intros _]. apply always_session. exact (always_atomic_request _ (Repair ids) eq_refl).
Qed.

(** Events that were read stay genuine while their numbers are not reused. *)
Definition remembered (evs : list Event) (d : DB) : Prop :=
  reachable d /\ genuine_events evs d = true /\ forall e, e ∈ evs -> ev_id e <= last_event_id d.

Lemma runs_log d d' : runs d d' -> log_grows d d'.
Proof. exact (run_keeps log_grows serve_log d d'). Qed.

Lemma remembered_runs evs d d' : remembered evs d -> runs d d' -> remembered evs d'.
Proof.
  intros (Hd & Hg & Hle) Hr. destruct (runs_log _ _ Hr (log_reachable _ Hd)) as (_ & Hlast & Hnew).
  split_and!; [by eapply reachable_runs| |intros e He; specialize (Hle e He); lia].
  unfold genuine_events in *. apply forallb_forall. intros e He. rewrite forallb_forall in Hg. specialize (Hg e He). cbn in Hg.
  apply list_elem_of_In in He. specialize (Hle e He). destruct (events d' !! ev_id e) as [c|] eqn:Ec; [|done].
  destruct (Hnew _ _ Ec) as [Hc|Hlt]; [by rewrite Hc in Hg|lia].
Qed.

Definition remembering (evs : list Event) (d d' : DB) : Prop := remembered evs d -> runs d d' /\ remembered evs d'.
#[local] Instance remembering_preorder evs : PreOrder (remembering evs).
Proof.
  split; [by intros d H; split|]. intros d1 d2 d3 H12 H23 H1. destruct (H12 H1) as [R1 G1], (H23 G1) as [R2 G2].
  split; [by transitivity d2|done].
Qed.

Lemma remembering_interleaved evs : always (remembering evs) interleaved.
Proof.
  intros w r w' [= <- <-] H. cbn. split; [apply others_run|]. eapply remembered_runs; [exact H|apply others_run].
Qed.

Lemma prune_space_run evs s : always (remembering evs) (begin_session (prune_space evs s)).
Proof.
  unfold begin_session. then_; [apply remembering_interleaved|intros _]. intros w r w' H Hrem.
  assert (R : runs (w_db w) (w_db w')); [|split; [done|by eapply remembered_runs]].
  apply (serve_runs (PruneSpace evs s) w r w'). cbn [serve]. rewrite <- H. apply atomically_ext.
  unfold on_events, bind, gets. destruct Hrem as (_ & -> & _). done.
Qed.

Lemma prune_history_remembers batch w evs w' : prune_history batch w = (Ok evs, w') -> reachable (w_db w) -> reachable (w_db w') ->
  remembered evs (w_db w').
Proof.
  intros H Hd Hd'. pose proof (log_reachable _ Hd') as [_ Hlog].
  assert (Hin : forall e, e ∈ evs -> events (w_db w') !! ev_id e = Some e).
  { unfold prune_history in H. do 5 (apply bind_ok in H as (? & ? & _ & H); cbv beta zeta in H).
    apply bind_ok in H as (evs' & w2 & Hs & H). apply select_where_ok in Hs as [-> ->]. injection H as <- <-.
    intros e He. apply elem_of_first, elem_of_rows in He as [_ [k Hk]]. cbn in Hk. by destruct (Hlog _ _ Hk) as [-> _]. }
  split_and!; [done| |].
  - apply forallb_forall. intros e He%list_elem_of_In. rewrite (Hin e He). apply String.eqb_refl.
  - intros e He. destruct (Hlog _ _ (Hin e He)) as [_ Hb]. lia.
Qed.

Lemma prune_history_run batch : always runs (begin_session (prune_history batch)).
Proof. apply always_session. exact (always_atomic_request _ (PruneHistory batch) eq_refl). Qed.

Lemma prune_run batch w r w' : prune batch w = (r, w') -> reachable (w_db w) -> runs (w_db w) (w_db w').
Proof.
  intros H Hd. unfold prune, bind in H. pose proof (prune_history_run batch w) as R1.
  destruct (begin_session (prune_history batch) w) as [[evs|e] w1] eqn:E; specialize (R1 _ _ eq_refl); [|by injection H as <- <-].
  transitivity (w_db w1); [done|].
  assert (Hrem : remembered evs (w_db w1)).
  { unfold begin_session in E. apply bind_ok in E as ([] & w2 & Hi & Hb). injection Hi as <-. rewrite atomically_ok in Hb.
    eapply prune_history_remembers; [exact Hb| |]; (eapply reachable_runs; [exact Hd|]); [apply others_run|done]. }
  refine (proj1 (always_for_each (remembering evs) _ _ (fun s => prune_space_run evs s) _ _ _ H Hrem)).
Qed.

(** ** Rounds of the worker *)
(** A statement that is a run from any reachable database, and one that has
    become reachable stays so. *)
Definition running (d d' : DB) : Prop := reachable d -> runs d d'.
#[local] Instance running_preorder : PreOrder running.
Proof.
  split; [by intros d H|]. intros d1 d2 d3 H12 H23 H1. transitivity d2; [by apply H12|]. apply H23.
  eapply reachable_runs; [exact H1|by apply H12].
Qed.
Lemma running_runs {A} (m : M World A) : always runs m -> always running m.
Proof. intros H w r w' E _. exact (H _ _ _ E). Qed.

Lemma process_running id c : always running (process id c).
Proof. intros w r w' H Hd. exact (process_run _ _ _ _ _ H Hd). Qed.

Lemma guarded_running id c : always running (guarded id c).
Proof. apply always_catch; [typeclasses eauto|apply process_running|intros e; apply running_runs, runs_pure; by purely]. Qed.

Lemma tick_running batch : always running (tick batch).
Proof.
  unfold tick. then_; [apply running_runs, expire_run|intros expired]. then_; [apply running_runs, work_run|intros [vs cs]].
  then_; [apply always_mapM; [typeclasses eauto|intros id; apply guarded_running]|intros verified].
  then_; [apply always_mapM; [typeclasses eauto|intros id; apply guarded_running]|intros reclaimed].
  then_; [intros w r w' H Hd; exact (prune_run _ _ _ _ H Hd)|intros _; apply running_runs; quiet].
Qed.

Lemma initiate_running sid rid bid p : always running (initiate sid rid bid p).
Proof. intros w r w' H Hd. exact (initiate_run _ _ _ _ _ _ _ H Hd). Qed.
Lemma complete_upload_running sid rid bid p : always running (complete_upload sid rid bid p).
Proof. intros w r w' H Hd. exact (complete_upload_run _ _ _ _ _ _ _ H Hd). Qed.
End Execution.

(** ** The operations of the two modules *)
Inductive operation : Type -> Type :=
  | OpInitiate (space record attachment : string) (p : Principal) : operation dict
  | OpParts (space record attachment : string) (p : Principal) : operation json
  | OpGrants (space record attachment : string) (p : Principal) (numbers : list Z) : operation json
  | OpComplete (space record attachment : string) (p : Principal) : operation dict
  | OpDownload (space record attachment : string) (p : Principal) : operation json
  | OpBeginPut (p : Principal) (space record attachment : string) (number : json) : operation (GatewayPutHandle * json)
  | OpFinishPut (receipt : GatewayPutHandle) : operation bool
  | OpProcess (attempt : string) (cleanup : bool) : operation string
  | OpWork (batch : Z) : operation (list string * list string)
  | OpExpire (batch : Z) : operation Z
  | OpRepair (ids : list string) (execute writers_stopped provider_quiesced : bool) : operation json
  | OpPrune (batch : Z) : operation unit
  | OpTick (batch : Z) : operation (list (string * Z)).

Section Operations.
Context {P : Platform} {B : BlobStore} {F : Fair B}.

Definition perform {A} (op : operation A) : M World A :=
  match op with
  | OpInitiate s r a p => managed_initiate s r a p
  | OpParts s r a p => parts s r a p
  | OpGrants s r a p ns => managed_grants s r a p ns
  | OpComplete s r a p => managed_complete s r a p
  | OpDownload s r a p => managed_download s r a p
  | OpBeginPut p s r a n => begin_gateway_put p s r a n
  | OpFinishPut h => finish_gateway_put h
  | OpProcess a c => process a c
  | OpWork n => work n
  | OpExpire n => expire n
  | OpRepair ids e s q => repair_mutations ids e s q
  | OpPrune n => prune n
  | OpTick n => tick n
  end.

Lemma managed_grants_run s r a p ns : always runs (managed_grants s r a p ns).
Proof.
  unfold managed_grants. apply always_bind; [typeclasses eauto|apply is_managed_run|].
  intros []; [|apply grants_run]. apply always_bind; [typeclasses eauto|apply runs_pure; by purely|intros _].
  apply always_bind; [typeclasses eauto| |intros sizes; apply runs_pure; by purely].
  apply always_transaction; [typeclasses eauto|]. intros sp m. apply pure_keeps; [typeclasses eauto|]. purely.
Qed.
Lemma managed_download_run s r a p : always runs (managed_download s r a p).
Proof.
  unfold managed_download. apply always_bind; [typeclasses eauto|apply is_managed_run|].
  intros []; [|apply download_run]. apply always_bind; [typeclasses eauto| |intros b; apply runs_pure; by purely].
  apply always_transaction; [typeclasses eauto|]. intros sp m. apply pure_keeps; [typeclasses eauto|]. unfold downloadable. purely.
Qed.

Lemma perform_running {A} (op : operation A) : always running (perform op).
Proof.
  destruct op; cbn [perform].
  all: try (apply running_runs; first [apply parts_run|apply managed_grants_run|apply managed_download_run|apply begin_gateway_put_run
    |apply finish_gateway_put_run|apply work_run|apply expire_run|apply repair_mutations_run]).
  - unfold managed_initiate. apply always_bind; [apply running_preorder|apply initiate_running|].
    intros d. apply running_runs, managed_protocol_run.
  - unfold managed_complete. apply always_bind; [apply running_preorder|apply complete_upload_running|].
    intros d. apply running_runs, managed_protocol_run.
  - apply process_running.
  - intros w r w' H Hd. exact (prune_run _ _ _ _ H Hd).
  - apply tick_running.
Qed.

Lemma perform_reachable {A} (op : operation A) w r w' : perform op w = (r, w') -> reachable (w_db w) ->
  runs (w_db w) (w_db w') /\ reachable (w_db w').
Proof.
  intros H Hd. pose proof (perform_running op _ _ _ H Hd) as Hr. split; [done|]. by eapply reachable_runs.
Qed.
End Operations.
