(* ===== verification/Scenario.v ===== *)
(** * A concrete platform and concrete runs

    Functions in place of the parameters of the model -- an injective stand-in
    for the hash, numbered identifiers, a clock that advances by one second per
    reading -- and the databases a few scripts of requests lead to: a federated
    round carried out to its completion, a draft whose upload was given up, and
    a managed space with a revoked workload.  They show that the hypotheses of
    the theorems can hold. *)

From stdpp Require Import base gmap strings list fin_maps relations.
From Stdlib Require Import ZArith Lia.
From S2P Require Import Prelude Json Domain Schemas Profiles Models Storage Service Spaces Records Managed Coordination Transfers Uploads System.

#[export] Instance demo : Platform := {|
  sha256_hex s := "h" +:+ s;
  float_repr _ := "0.0";
  py_repr _ := "";
  casefold s := s;
  schema_wellformed _ := true;
  schema_accepts _ _ := true;
  clock n := seconds (1600000000 + Z.of_nat n);
  uuid4_hex n := "u" +:+ str_of_int (Z.of_nat n);
  settings := mkSettings
    (mkAuthSettings "root" "issuer" ["admin"] ["broker"])
    (mkStorageSettings "/objects/" 60 8)
    (mkWorkerSettings 30 100 5 50 50)
    3600 60
|}.

#[export] Instance demo_clock : ClockMonotone demo.
Proof. intros n m H. cbn. unfold seconds, SECOND. lia. Qed.

(** ** Scripts *)
Definition script : Type := list (World -> request).
Definition genesis : World := mkWorld empty_db 0 0 0.
Fixpoint play (s : script) (w : World) : World :=
  match s with
  | [] => w
  | q :: s => play s (serve (q w) w).2
  end.

Lemma play_run s w : rtc step (w_db w) (w_db (play s w)).
Proof.
  revert w. induction s as [|q s IH]; intros w; cbn; [reflexivity|]. destruct (serve (q w) w) as [r w'] eqn:E. cbn.
  eapply rtc_l; [|apply IH]. by exists (q w), w, r, w'.
Qed.
Lemma play_reachable s : reachable (w_db (play s genesis)).
Proof. exact (play_run s genesis). Qed.

(** The database after a script, and the outcome of one more request. *)
Definition after (s : script) : DB := w_db (play s genesis).
Definition outcome (s : script) (q : request) : result unit := let w := play s genesis in (serve q w).1.

Lemma after_reachable s : reachable (after s).
Proof. exact (play_reachable s). Qed.
Lemma after_step s q : step (after s) (after (s ++ [fun _ => q])).
Proof.
  unfold after. assert (E : forall w, play (s ++ [fun _ => q]) w = (serve q (play s w)).2).
  { induction s as [|x s IH]; intros w; cbn; [done|]. by rewrite IH. }
  rewrite E. destruct (serve q (play s genesis)) as [r w'] eqn:Es. by exists q, (play s genesis), r, w'.
Qed.

(** ** Principals, bodies and rows *)
Definition person (id : string) : Principal := mkPrincipal id ("sub-" +:+ id) false None.
Definition admin : Principal := mkPrincipal "admin" "root" true None.
Definition pub : Principal := person "pub".
Definition site1 : Principal := person "site1".
Definition site2 : Principal := person "site2".

(** The identifier [create_space] gives the space of key ["k"]. *)
Definition SID : string := Eval vm_compute in
  match canonical_bytes (json_strings ["admin"; "k"]) with
  | Ok b => String.substring 0 32 (sha256_hex b)
  | Err _ => ""
  end.

Definition key (s : string) : json := JStr s.
Definition roles (l : list string) : string * json := ("roles", json_strings l).
Definition participant (p : string) : string * json := ("bindings", JObj [("participant", JStr p)]).
Definition digest : string := "0123456789abcdef0123456789abcdef0123456789abcdef0123456789abcdef".
Definition object_schema : dict := [("schema", JObj [("type", JStr "object")])].
Definition attachment_body (path : string) (size : Z) : json :=
  JObj [("path", JStr path); ("size", JInt size); ("sha256", JStr digest)].

Definition first_key {V} (p : V -> bool) (m : gmap string V) : string :=
  match List.filter (fun kv => p kv.2) (map_to_list m) with (k, _) :: _ => k | [] => "" end.
Definition revision_of (kind : string) (w : World) : string :=
  first_key (fun r => String.eqb (sr_kind r) kind) (schema_revisions (w_db w)).
Definition record_of (creator kind : string) (w : World) : string :=
  first_key (fun r => String.eqb (rec_creator r) creator && String.eqb (rec_kind r) kind) (records (w_db w)).
Definition attachment_in (rid : string) (w : World) : string :=
  first_key (fun b => String.eqb (bl_record_id b) rid) (blobs (w_db w)).
Definition attempt_on (bid : string) (w : World) : TransferAttempt :=
  default (mkAttempt "" "" "" "" INITIATING None None 0 0 None no_handle [] 0 0 0)
    (head (rows (fun a => String.eqb (at_blob_id a) bid) (attempts (w_db w)))).

Definition record_body (kind : string) (metadata : dict) (attachments : list json) (w : World) : dict :=
  [("kind", JStr kind); ("schema_revision_id", JStr (revision_of kind w)); ("metadata", JObj metadata);
   ("attachments", JList attachments)].

(** ** A space with its members and types *)
Definition founding : script := [
  (fun _ => CreateSpace admin [("name", JStr "trial"); ("profile", JStr "fedavg.v1"); ("quota_bytes", JInt 100)] (key "k"));
  (fun _ => PutMember admin SID "pub" [roles ["publisher"; "contributor"]; ("subject", JStr "sub-pub")]);
  (fun _ => PutMember admin SID "site1" [roles ["contributor"]; participant "p1"]);
  (fun _ => PutMember admin SID "site2" [roles ["contributor"]; participant "p2"]);
  (fun _ => RegisterType admin SID "model.global" object_schema (key "t1"));
  (fun _ => RegisterType admin SID "training.update" object_schema (key "t2"))
].

(** The upload of the attachment of a record, step by step. *)
Definition upload (creator : Principal) (kind : string) : script :=
  let rid := record_of (pr_id creator) kind in
  let bid w := attachment_in (rid w) w in
  let a w := attempt_on (bid w) w in
  [ (fun w => Initiate creator SID (rid w) (bid w));
    (fun w => Commit (a w) UPLOADING (Started (mkUploadHandle "up-1" (at_object_key (a w)))));
    (fun w => Settle (a w));
    (fun w => ReleaseLease (a w));
    (fun w => CompleteUpload creator SID (rid w) (bid w));
    (fun w => Commit (a w) VERIFYING (Completed (mkStoredObject (Some (at_object_key (a w))) (Some "v1"))));
    (fun w => Lease (at_id (a w)) (Some false));
    (fun w => Commit (a w) VERIFIED (Verified_as (mkVerification 20 digest))) ].

Definition drafted : script := founding ++ [
  (fun w => CreateRecord pub SID (record_body "model.global" [] [attachment_body "model.bin" 20] w) (key "r1"))
].
Definition uploaded : script := drafted ++ upload pub "model.global".
Definition base_id : World -> string := record_of "pub" "model.global".
Definition published : script := uploaded ++ [
  (fun w => PublishRecord pub SID (base_id w) (key "p1"));
  (fun w => PutReference pub SID "main" [("record_id", JStr (base_id w))] "*" (key "f1"))
].

(** The identifier of the published model of the script above. *)
Definition MODEL : string := Eval vm_compute in base_id (play published genesis).
Definition ATTACHMENT : string := Eval vm_compute in attachment_in MODEL (play published genesis).

(** Two sites publish updates of it, and the publisher acquires the round. *)
Definition update_of (p : Principal) (k : string) : script := [
  (fun w => CreateRecord p SID (record_body "training.update"
              [("base_record_id", JStr MODEL); ("sample_count", JInt 10)] [] w) (key k));
  (fun w => PublishRecord p SID (record_of (pr_id p) "training.update" w) (key (k +:+ "p")))
].
Definition round_open : script := published ++ update_of site1 "u1" ++ update_of site2 "u2" ++ [
  (fun _ => Acquire pub SID [("reference", JStr "main"); ("expected_token", JStr "1")] (key "a1"))
].
Definition ROUND : string := Eval vm_compute in first_key (fun _ => true) (coordinations (after round_open)).
Definition UPDATE1 : string := Eval vm_compute in record_of "site1" "training.update" (play round_open genesis).
Definition UPDATE2 : string := Eval vm_compute in record_of "site2" "training.update" (play round_open genesis).

(** The aggregate of the round, and the completion of the acquisition. *)
Definition second_model (w : World) : string :=
  first_key (fun r => String.eqb (rec_kind r) "model.global" && negb (String.eqb (rec_id r) MODEL)) (records (w_db w)).
Definition aggregated : script := round_open ++ [
  (fun w => CreateRecord pub SID (record_body "model.global"
              [("base_record_id", JStr MODEL); ("inputs", json_strings [UPDATE1; UPDATE2])] [] w) (key "g1"));
  (fun w => PublishRecord pub SID (second_model w) (key "gp"))
].
Definition RESULT : string := Eval vm_compute in second_model (play aggregated genesis).
Definition completion : dict := [("fence", JInt 1); ("result_record_id", JStr RESULT)].
Definition completed : script := aggregated ++ [
  (fun _ => Complete pub SID ROUND completion (key "c1"))
].

(** ** An upload that was given up before it started

    The storage call's outcome was uncertain, the operator scheduled the
    attempt for cleanup and the cleanup succeeded; then the draft is cancelled. *)
Definition given_up : script :=
  let rid := base_id in
  let bid w := attachment_in (rid w) w in
  let a w := attempt_on (bid w) w in
  drafted ++ [
    (fun w => Initiate pub SID (rid w) (bid w));
    (fun w => ReleaseLease (a w));
    (fun w => Lease (at_id (a w)) (Some false));
    (fun w => Repair [at_id (a w)]);
    (fun w => Lease (at_id (a w)) (Some true));
    (fun w => Commit (a w) CLEANED NoResult)
  ].
Definition stranded : script := given_up ++ [(fun w => WithdrawRecord pub SID (base_id w))].

(** ** A draft cancelled during its upload, and reclaimed *)
Definition cancelled : script := uploaded ++ [(fun w => WithdrawRecord pub SID (base_id w))].
Definition reclaimed : script :=
  let a w := attempt_on (attachment_in (base_id w) w) w in
  cancelled ++ [ (fun w => Lease (at_id (a w)) (Some true)); (fun w => Commit (a w) CLEANED NoResult) ].

(** ** A managed space and a workload *)
Definition WORKER : string := Eval vm_compute in bound_principal_id "issuer" "worker".
Definition thumb : string := "0123456789012345678901234567890123456789012".
Definition grant_body : dict :=
  [("subject", JStr "worker"); ("job_id", JStr "job"); ("attempt_id", JStr "try1"); ("component_id", JStr "owner");
   ("epoch", JInt 1); ("certificate_thumbprint", JStr thumb); roles ["publisher"]; ("bindings", JObj []);
   ("expires_at", JInt 1600001000)].
Definition managed : script := founding ++ [
  (fun _ => PutMember admin SID WORKER [roles ["publisher"; "contributor"]]);
  (fun _ => EnableManaged admin SID [("job_id", JStr "job")] (key "m"));
  (fun _ => CreateGrant admin SID grant_body (key "g"))
].
Definition GRANT : string := Eval vm_compute in first_key (fun _ => true) (workload_grants (after managed)).
Definition worker : Principal := mkPrincipal WORKER "worker" false
  (Some (mkWorkloadIdentity GRANT SID "job" "try1" "owner" 1 thumb (seconds 1600001000))).
Definition revoked : script := managed ++ [(fun _ => RevokeGrants admin SID [("attempt_id", JStr "try1")] (key "r"))].
Definition retired_space : script := revoked ++ [(fun _ => RetireManaged admin SID [("job_id", JStr "job")] (key "x"))].
