(* ===== verification/Guarantees.v ===== *)
(** * What the exchange server guarantees

    The main properties of every database the server can reach and of every
    transaction from it, each with a concrete run in which its hypotheses hold. *)

From stdpp Require Import base gmap strings list fin_maps relations sorting.
From Stdlib Require Import ZArith Lia.
From S2P Require Import Prelude Json Domain Schemas Profiles Models Storage Service Spaces Records Managed Coordination Transfers Uploads System Logic Accounting Lifecycle Consistency TransferConsistency Fencing Provenance AttemptHistory RecordHistory Monotone EventLog Refinement Scenario.

Section Guarantees.
Context {P : Platform}.

(** C1: the counters of a space are exact.  In every reachable database the
    record count, metadata bytes and allocated bytes of a space are the sums
    over its records, the bytes being reclaimed are the sizes of the
    attachments waiting for deletion, and the quotas are respected. *)
Theorem quotas_exact d sid s : reachable d -> spaces d !! sid = Some s ->
  record_count s = sum_map (one_in sid) (records d) /\
  metadata_bytes s = sum_map (metadata_in sid) (records d) /\
  allocated s = sum_map (live_in sid) (records d) /\
  reclaiming s = sum_map (pending_in sid) (blobs d) /\
  0 <= allocated s <= quota_bytes s /\ 0 <= reclaiming s /\
  record_count s <= quota_records s /\ metadata_bytes s <= quota_metadata_bytes s.
Proof.
  intros Hd Hs. pose proof (proj1 (consistent_reachable _ Hd)) as HA. destruct (acc_space _ _ _ HA _ _ Hs) as [_ ? ? ? ? ? ? ?].
  pose proof (allocated_nonneg HA _ _ Hs). pose proof (reclaiming_nonneg HA _ _ Hs). auto 10.
Qed.

(** C2: a published record is backed by storage.  Every attachment of a
    published record was verified with the declared size and digest, under a
    known version of the storage key of an attempt that reached [verified]. *)
Theorem published_backed d rid r bid b : reachable d -> records d !! rid = Some r -> rec_state r = PUBLISHED ->
  blobs d !! bid = Some b -> bl_record_id b = rid ->
  bl_state b = VERIFIED /\ bl_verified_size b = Some (bl_size b) /\ bl_verified_sha256 b = Some (bl_sha256 b) /\
  (exists v, bl_object_version b = Some v /\ v <> "") /\
  exists k a, attempts d !! k = Some a /\ at_blob_id a = bid /\ at_state a = VERIFIED /\ bl_object_key b = Some (at_object_key a).
Proof.
  intros Hd Hr Hp Hb <-. pose proof (proj2 (consistent_reachable _ Hd)) as HP.
  destruct (bo_record _ _ _ _ _ (ph_blob _ _ _ _ HP _ _ Hb)) as (r' & Hr' & Hph & Hback).
  replace r' with r in * by congruence. pose proof (bp_published _ _ _ Hph Hp) as Hv. unfold blob_unverified in Hv. bool_simpl.
  split_and!; [done..| |apply Hback; [done|by rewrite Hp]].
  destruct (bl_object_version b) as [v|]; [|done]. exists v. split; [done|]. intros ->. done.
Qed.

(** C3: bytes of a stopped record are accounted for until they are gone.  An
    attachment of a record that is cancelled, failed, expired or withdrawn is
    either waiting for deletion, and then charged to its space, or cleaned; it
    is cleaned only when none of its attempts is left uncleaned, and a cleaned
    attempt has no storage call outstanding. *)
Theorem reclamation_sound d bid b : reachable d -> blobs d !! bid = Some b ->
  exists r, records d !! bl_record_id b = Some r /\
  (is_terminal (rec_state r) = true -> bl_pending_deletion b = true \/ bl_state b = CLEANED) /\
  (bl_pending_deletion b = true -> is_terminal (rec_state r) = true) /\
  (bl_state b = CLEANED -> is_terminal (rec_state r) = true /\ bl_pending_deletion b = false /\
     forall k a, attempts d !! k = Some a -> at_blob_id a = bid -> at_state a = CLEANED /\ at_mutation_tokens a = []).
Proof.
  intros Hd Hb. pose proof (proj2 (consistent_reachable _ Hd)) as HP.
  destruct (bo_record _ _ _ _ _ (ph_blob _ _ _ _ HP _ _ Hb)) as (r & Hr & [H1 H2 H3 _] & _).
  exists r. split_and!; [done|apply H3; by intros []|done|]. intros Hc. destruct (H2 Hc) as [Ht Hp].
  split_and!; [done..|]. intros k a Hk Ha. destruct (ph_attempt _ _ _ _ HP _ _ Hk) as [_ Hclean _ (c & Hcb & Hst)].
  rewrite Ha, Hb in Hcb. injection Hcb as <-. pose proof (Hst Hc) as E. auto.
Qed.


(** C12: provenance resolves.  In every reachable database a reference names a
    record of its space, published and shared unless the space is retired; the
    base of a record is a record of the same space, published while the record
    is; every frozen input of an acquisition, and the result of a completed
    one, is a record of its space that was published. *)
Theorem provenance_resolves d : reachable d ->
  (forall k f, references d !! k = Some f -> exists r, records d !! ref_record_id f = Some r /\ rec_space_id r = ref_space_id f /\
     (~ retired (managed_spaces d) (ref_space_id f) -> rec_state r = PUBLISHED /\ rec_shared r = true)) /\
  (forall k r b, records d !! k = Some r -> rec_base_record_id r = Some b ->
     exists base, records d !! b = Some base /\ rec_space_id base = rec_space_id r /\
     (rec_state r = PUBLISHED -> ~ retired (managed_spaces d) (rec_space_id r) -> rec_state base = PUBLISHED)) /\
  (forall k i, coordination_inputs d !! k = Some i -> exists r, records d !! ci_record_id i = Some r /\
     rec_space_id r = ci_space_id i /\ is_Some (rec_published_at r)) /\
  (forall k c, coordinations d !! k = Some c -> co_state c = CO_COMPLETED -> exists rid r, co_result_record_id c = Some rid /\
     records d !! rid = Some r /\ rec_space_id r = co_space_id c /\ is_Some (rec_published_at r)).
Proof.
  intros Hd. destruct (linked_reachable _ Hd) as [Hrec Href Hco _ Hin]. split_and!.
  - intros k f Hf. exact (rf_record _ _ _ _ (Href _ _ Hf)).
  - intros k r b Hr Hb. exact (rl_base _ _ _ _ (Hrec _ _ Hr) _ Hb).
  - intros k i Hi. exact (in_record _ _ _ _ (Hin _ _ Hi)).
  - intros k c Hc Hst. destruct (co_result _ _ _ _ (Hco _ _ Hc)) as [Hiff Hres].
    destruct (proj1 Hiff Hst) as [rid Hrid]. destruct (Hres _ Hrid) as (r & ? & ? & ?). by exists rid, r.
Qed.

(** C13: at most one acquisition of a reference is active, and it holds the
    highest fence ever issued for it. *)
Theorem one_active_acquisition d j k c e : reachable d -> coordinations d !! j = Some c -> coordinations d !! k = Some e ->
  co_space_id c = co_space_id e -> co_reference_name c = co_reference_name e -> co_state c = CO_ACTIVE ->
  co_fence e <= co_fence c /\ (co_state e = CO_ACTIVE -> j = k).
Proof.
  intros Hd Hj Hk Es En Ha. destruct (linked_reachable _ Hd) as [_ _ Hco Hfence _].
  destruct (co_reference _ _ _ _ (Hco _ _ Hj)) as (f & Hf & _ & _ & Hcf & _).
  destruct (co_reference _ _ _ _ (Hco _ _ Hk)) as (f' & Hf' & Hle & _ & Hef & _).
  rewrite <- Es, <- En, Hf in Hf'. injection Hf' as <-. specialize (Hcf Ha). split; [lia|]. intros He.
  apply (Hfence _ _ _ _ Hj Hk Es En). specialize (Hef He). congruence.
Qed.

(** C14: workloads are fenced by attempt.  A grant is enabled exactly while its
    attempt is not revoked, its space is bound to its job, and is not retired
    while a grant is enabled; the enabled grants of one principal in a space
    are all of one attempt, whose epoch is above that of every disabled one. *)
Theorem workloads_fenced d j k g h : reachable d -> workload_grants d !! j = Some g -> workload_grants d !! k = Some h ->
  (gr_enabled g = true <-> workload_revocations d !! (gr_space_id g, gr_attempt_id g) = None) /\
  (exists m, managed_spaces d !! gr_space_id g = Some m /\ ms_job_id m = gr_job_id g /\ (gr_enabled g = true -> ms_retired_at m = None)) /\
  (gr_space_id g = gr_space_id h -> gr_principal_id g = gr_principal_id h -> gr_component_id g = gr_component_id h /\
    (gr_enabled g = true -> gr_enabled h = true -> gr_attempt_id g = gr_attempt_id h /\ gr_epoch g = gr_epoch h) /\
    (gr_enabled g = true -> gr_enabled h = false -> gr_epoch h < gr_epoch g)).
Proof.
  intros Hd Hj Hk. destruct (fenced_reachable _ Hd) as [Hg Ha _]. destruct (Hg _ _ Hj) as [Hb He]. split_and!; [done|done|].
  intros Es Ep. destruct (Ha _ _ _ _ Hj Hk Es Ep) as [H1 H2 H3 H4]. split_and!; [done| |done]. intros G1 G2. specialize (H4 G1 G2).
  split; [done|by apply H2].
Qed.

(** References only move forward.  From a reachable database, whatever
    the server does, a reference keeps its identity, its generation and its
    fence never decrease, it names another record only at a higher generation,
    and an acquisition that has ended never changes again. *)
Theorem references_move_forward d d' : reachable d -> rtc step d d' ->
  (forall k f, references d !! k = Some f -> exists f', references d' !! k = Some f' /\ ref_generation f <= ref_generation f' /\
     ref_fence f <= ref_fence f' /\ (ref_generation f' = ref_generation f -> ref_record_id f' = ref_record_id f)) /\
  (forall k c, coordinations d !! k = Some c -> co_state c <> CO_ACTIVE -> coordinations d' !! k = Some c).
Proof.
  intros Hd Hr. destruct (references_run _ _ Hd Hr) as [Hf Hc]. split.
  - intros k f Hk. destruct (Hf _ _ Hk) as (f' & Hk' & _ & _ & H1 & H2 & H3). by exists f'.
  - intros k c Hk Hn. destruct (Hc _ _ Hk) as (c' & Hk' & _ & H). by rewrite <- (H Hn).
Qed.

(** Revocation and retirement are permanent.  A revocation is never
    withdrawn or redated, a grant keeps its terms and is never enabled again, a
    space stays bound to its job and stays retired. *)
Theorem fences_are_permanent d d' : rtc step d d' ->
  (forall k t, workload_revocations d !! k = Some t -> workload_revocations d' !! k = Some t) /\
  (forall k g, workload_grants d !! k = Some g -> exists g', workload_grants d' !! k = Some g' /\ terms g' = terms g /\
     (gr_enabled g = false -> gr_enabled g' = false)) /\
  (forall k m, managed_spaces d !! k = Some m -> exists m', managed_spaces d' !! k = Some m' /\ ms_job_id m' = ms_job_id m /\
     (ms_retired_at m <> None -> ms_retired_at m' = ms_retired_at m)).
Proof.
  intros Hr. destruct (fences_run _ _ Hr) as (H1 & H2 & H3). split_and!.
  - intros k t Hk. by destruct (H1 _ _ Hk) as (t' & Hk' & <-).
  - intros k g Hk. destruct (H3 _ _ Hk) as (g' & Hk' & Ht & He). exists g'. split_and!; [done..|]. intros Hf.
    destruct (gr_enabled g'); [|done]. by rewrite He in Hf.
  - intros k m Hk. destruct (H2 _ _ Hk) as (m' & Hk' & ? & ?). by exists m'.
Qed.

(** C17: the life of a record.  One transaction either leaves a record in place
    -- same identity, kind, schema, creator and size; a draft may take any
    state, a published record may only be withdrawn, a stopped one never moves;
    once it is no draft its metadata, base and publication time are frozen; and
    any change of content comes with a new version -- or purges it, and only
    after it stopped. *)
Theorem record_life d d' k r : reachable d -> step d d' -> records d !! k = Some r ->
  (exists r', records d' !! k = Some r' /\ record_evolves r r') \/
  (records d' !! k = None /\ is_terminal (rec_state r) = true).
Proof. exact (record_history_step d d' k r). Qed.

(** C18: what was published stays published as it was.  As long as a record
    that is no draft is in the database, a transaction leaves it with exactly
    the attachments it has, each with its declaration and its stored object. *)
Theorem attachments_immutable d d' k r : reachable d -> step d d' -> records d !! k = Some r -> rec_state r <> DRAFT ->
  is_Some (records d' !! k) ->
  (forall j b, blobs d !! j = Some b -> bl_record_id b = k ->
     exists b', blobs d' !! j = Some b' /\ declaration b' = declaration b /\ object_of b' = object_of b) /\
  (forall j b', blobs d' !! j = Some b' -> bl_record_id b' = k -> is_Some (blobs d !! j)).
Proof. exact (attachments_step d d' k r). Qed.

(** The life of a transfer attempt.  One transaction moves an attempt only
    forward -- initiating, uploading or completing, verifying, verified; failed;
    cleanup or cleaned -- keeps its attachment, its storage key and, once the
    object exists, its upload handle, and never shortens its grant window; or
    it forgets an attempt that is cleaned and has no storage call outstanding. *)
Theorem attempt_life d d' k a : reachable d -> step d d' -> attempts d !! k = Some a ->
  (exists a', attempts d' !! k = Some a' /\ attempt_evolves a a') \/
  (attempts d' !! k = None /\ at_state a = CLEANED /\ at_mutation_tokens a = []).
Proof. exact (attempt_history_step d d' k a). Qed.

(** A space is never left without an administrator. *)
Theorem administrator_remains d sid : reachable d -> is_Some (spaces d !! sid) ->
  exists pid m, members d !! (sid, pid) = Some m /\ mb_space_id m = sid /\ mb_principal_id m = pid /\ mem_str "admin" (mb_roles m) = true.
Proof.
  intros Hd Hs. destruct (administered_reachable _ Hd) as [Hk Ha]. destruct (Ha _ Hs) as (pid & m & Hm & Hadm).
  exists pid, m. pose proof (Hk _ _ Hm) as E. injection E as <- <-. done.
Qed.

(** Events are lost only on purpose.  A transaction keeps every event,
    unless it purges the record the event is about -- whose final event stays --
    or the event falls to the retention floor of its space, which readers see. *)
Theorem events_retained d d' k e : reachable d -> step d d' -> events d !! k = Some e ->
  events d' !! k = Some e \/
  (exists rid, ev_record_id e = Some rid /\ records d' !! rid = None /\ mem_str (ev_type e) TERMINAL_EVENTS = false) \/
  (forall s, spaces d' !! ev_space_id e = Some s -> k <= event_floor s).
Proof. exact (event_step d d' k e). Qed.

(** Following the cursor misses nothing.  A page of events after a cursor
    holds, in order and at most [limit] of them, exactly the events of the
    space that the caller may see between that cursor and the one it returns. *)
Theorem event_page_exact member principal space_id d after limit page cursor : reachable d -> 1 <= limit ->
  events_page member principal space_id after limit d = (page, cursor) ->
  StronglySorted event_le page /\ Z.of_nat (List.length page) <= limit /\
  forall e, e ∈ page <-> events d !! ev_id e = Some e /\ ev_space_id e = space_id /\ after < ev_id e <= cursor /\
                       event_visible member principal d e = true.
Proof. intros Hd Hl. exact (events_page_spec member principal space_id d (log_reachable _ Hd) after limit page cursor Hl). Qed.
End Guarantees.

(** C23: the transfer service only takes atomic steps.  Whatever the storage
    provider answers and whatever other threads of the server commit between
    its transactions, an operation of the transfer service or of the worker
    takes the database from a reachable state through a run of the requests of
    the server, also when it raises. *)
Theorem operations_refine {P : Platform} {B : BlobStore} {F : Fair B} {A} (op : operation A) w r w' :
  reachable (w_db w) -> perform op w = (r, w') -> rtc step (w_db w) (w_db w') /\ reachable (w_db w').
Proof. intros Hd H. exact (perform_reachable op w r w' H Hd). Qed.

Lemma quotas_exact_witness : exists s, spaces (after published) !! SID = Some s /\ allocated s = 20 /\
  allocated s = sum_map (live_in SID) (records (after published)).
Proof.
  assert (H : exists s, spaces (after published) !! SID = Some s /\ allocated s = 20) by evaluated.
  destruct H as (s & E & Ha). exists s. split; [exact E|]. split; [exact Ha|].
  destruct (quotas_exact (after published) SID s (after_reachable _) E) as (_ & _ & H & _). exact H.
Defined.

Lemma published_backed_witness : exists b, blobs (after published) !! ATTACHMENT = Some b /\ bl_verified_size b = Some (bl_size b).
Proof.
  assert (H : exists r, records (after published) !! MODEL = Some r /\ rec_state r = PUBLISHED) by evaluated.
  assert (G : exists b, blobs (after published) !! ATTACHMENT = Some b /\ bl_record_id b = MODEL) by evaluated.
  destruct H as (r & E & Hp), G as (b & F & Hb). exists b. split; [exact F|].
  exact (proj1 (proj2 (published_backed (after published) MODEL r ATTACHMENT b (after_reachable _) E Hp F Hb))).
Defined.

Lemma reclamation_sound_witness : exists b, blobs (after reclaimed) !! ATTACHMENT = Some b /\ bl_pending_deletion b = false.
Proof.
  assert (H : exists b, blobs (after reclaimed) !! ATTACHMENT = Some b /\ bl_state b = CLEANED) by evaluated.
  destruct H as (b & F & Hc). exists b. split; [exact F|].
  destruct (reclamation_sound (after reclaimed) ATTACHMENT b (after_reachable _) F) as (r & _ & _ & _ & H). exact (proj1 (proj2 (H Hc))).
Defined.


Lemma provenance_resolves_witness : exists f r, references (after completed) !! (SID, "main") = Some f /\
  records (after completed) !! ref_record_id f = Some r.
Proof.
  assert (H : exists f, references (after completed) !! (SID, "main") = Some f) by evaluated. destruct H as (f & Hf).
  destruct (proj1 (provenance_resolves (after completed) (after_reachable completed)) _ _ Hf) as (r & Hr & _).
  exists f, r. split; [exact Hf|exact Hr].
Defined.

Lemma one_active_acquisition_witness : exists c, coordinations (after aggregated) !! ROUND = Some c /\ co_fence c <= co_fence c.
Proof.
  assert (H : exists c, coordinations (after aggregated) !! ROUND = Some c /\ co_state c = CO_ACTIVE) by evaluated.
  destruct H as (c & Hc & Ha). exists c. split; [exact Hc|].
  exact (proj1 (one_active_acquisition (after aggregated) ROUND ROUND c c (after_reachable aggregated) Hc Hc eq_refl eq_refl Ha)).
Defined.

Lemma workloads_fenced_witness : exists g, workload_grants (after revoked) !! GRANT = Some g /\ gr_enabled g = false /\
  (gr_enabled g = true <-> workload_revocations (after revoked) !! (gr_space_id g, gr_attempt_id g) = None).
Proof.
  assert (H : exists g, workload_grants (after revoked) !! GRANT = Some g /\ gr_enabled g = false) by evaluated.
  destruct H as (g & Hg & He). exists g. split; [exact Hg|]. split; [exact He|].
  exact (proj1 (workloads_fenced (after revoked) GRANT GRANT g g (after_reachable revoked) Hg Hg)).
Defined.

Lemma references_move_forward_witness : exists f f', references (after round_open) !! (SID, "main") = Some f /\
  references (after round_open) !! (SID, "main") = Some f' /\ ref_generation f <= ref_generation f'.
Proof.
  assert (H : exists f, references (after round_open) !! (SID, "main") = Some f) by evaluated. destruct H as (f & Hf).
  destruct (proj1 (references_move_forward _ _ (after_reachable round_open) (rtc_refl _ _)) _ _ Hf) as (f' & Hf' & Hle & _).
  exists f, f'. split; [exact Hf|]. split; [exact Hf'|exact Hle].
Defined.

Lemma fences_are_permanent_witness : exists t, workload_revocations (after (revoked ++ [fun _ => RetireManaged admin SID [("job_id", JStr "job")] (key "x")])) !! (SID, "try1") = Some t.
Proof.
  assert (H : exists t, workload_revocations (after revoked) !! (SID, "try1") = Some t) by evaluated. destruct H as (t & Ht).
  exists t. exact (proj1 (fences_are_permanent _ _ (rtc_once _ _ (after_step revoked _))) _ _ Ht).
Defined.

(** The withdrawal of the published model's record, before it was published as
    a reference. *)
Definition withdrawal : request := WithdrawRecord pub SID MODEL.
Definition shelved : script := uploaded ++ [(fun w => PublishRecord pub SID (base_id w) (key "p1"))].

Lemma record_life_witness : exists r, records (after shelved) !! MODEL = Some r /\
  ((exists r', records (after (shelved ++ [fun _ => withdrawal])) !! MODEL = Some r' /\ record_evolves r r') \/
   (records (after (shelved ++ [fun _ => withdrawal])) !! MODEL = None /\ is_terminal (rec_state r) = true)).
Proof.
  assert (H : exists r, records (after shelved) !! MODEL = Some r) by evaluated. destruct H as (r & Hr). exists r. split; [exact Hr|].
  exact (record_life _ _ MODEL r (after_reachable shelved) (after_step shelved withdrawal) Hr).
Defined.

Lemma attachments_immutable_witness : exists b b', blobs (after shelved) !! ATTACHMENT = Some b /\
  blobs (after (shelved ++ [fun _ => withdrawal])) !! ATTACHMENT = Some b' /\ object_of b' = object_of b.
Proof.
  assert (H : exists r b r', records (after shelved) !! MODEL = Some r /\ blobs (after shelved) !! ATTACHMENT = Some b /\
    records (after (shelved ++ [fun _ => withdrawal])) !! MODEL = Some r' /\ rec_state r = PUBLISHED /\ bl_record_id b = MODEL) by evaluated.
  destruct H as (r & b & r' & Hr & Hb & Hr' & Hp & Hm).
  assert (Hn : rec_state r <> DRAFT) by (rewrite Hp; discriminate).
  destruct (proj1 (attachments_immutable _ _ MODEL r (after_reachable shelved) (after_step shelved withdrawal) Hr Hn (ex_intro _ r' Hr')) _ _ Hb Hm)
    as (b' & Hb' & _ & Ho).
  exists b, b'. split; [exact Hb|]. split; [exact Hb'|exact Ho].
Defined.

Lemma attempt_life_witness : exists a, attempts (after shelved) !! at_id a = Some a /\ at_state a = VERIFIED /\
  ((exists a', attempts (after (shelved ++ [fun _ => withdrawal])) !! at_id a = Some a' /\ attempt_evolves a a') \/
   (attempts (after (shelved ++ [fun _ => withdrawal])) !! at_id a = None /\ at_state a = CLEANED /\ at_mutation_tokens a = [])).
Proof.
  assert (H : exists a, attempts (after shelved) !! "u4" = Some a /\ at_id a = "u4" /\ at_state a = VERIFIED) by evaluated.
  destruct H as (a & Ha & Ei & Est). exists a. rewrite Ei. split; [exact Ha|]. split; [exact Est|].
  exact (attempt_life _ _ "u4" a (after_reachable shelved) (after_step shelved withdrawal) Ha).
Defined.

Lemma administrator_remains_witness : exists pid m, members (after founding) !! (SID, pid) = Some m /\ mem_str "admin" (mb_roles m) = true.
Proof.
  assert (H : exists s, spaces (after founding) !! SID = Some s) by evaluated. destruct H as (s & Hs).
  destruct (administrator_remains _ SID (after_reachable founding) (ex_intro _ s Hs)) as (pid & m & Hm & _ & _ & Ha).
  exists pid, m. split; [exact Hm|exact Ha].
Defined.

Lemma events_retained_witness : exists e, events (after shelved) !! 1 = Some e /\
  (events (after (shelved ++ [fun _ => withdrawal])) !! 1 = Some e \/
   (exists rid, ev_record_id e = Some rid /\ records (after (shelved ++ [fun _ => withdrawal])) !! rid = None /\
      mem_str (ev_type e) TERMINAL_EVENTS = false) \/
   (forall s, spaces (after (shelved ++ [fun _ => withdrawal])) !! ev_space_id e = Some s -> 1 <= event_floor s)).
Proof.
  assert (H : exists e, events (after shelved) !! 1 = Some e) by evaluated. destruct H as (e & He). exists e. split; [exact He|].
  exact (events_retained _ _ 1 e (after_reachable shelved) (after_step shelved withdrawal) He).
Defined.

Definition publisher_view : Member := mkMember SID "pub" None ["contributor"; "publisher"] [].

Lemma event_page_exact_witness : exists page cursor,
  events_page publisher_view pub SID 0 3 (after shelved) = (page, cursor) /\ Z.of_nat (List.length page) <= 3.
Proof.
  destruct (events_page publisher_view pub SID 0 3 (after shelved)) as [page cursor] eqn:E. exists page, cursor. split; [reflexivity|].
  assert (H13 : 1 <= 3) by lia.
  exact (proj1 (proj2 (event_page_exact publisher_view pub SID (after shelved) 0 3 page cursor (after_reachable shelved) H13 E))).
Defined.

(** A provider whose every call times out, and no other thread. *)
Definition unavailable {A} : result A := Err (StorageFailure "storage_unavailable" true true).
#[export] Instance offline : BlobStore := {|
  store_start _ _ := unavailable; store_parts _ _ := unavailable; store_upload_grant _ _ _ _ _ _ := unavailable;
  store_complete _ _ _ _ := unavailable; store_verify _ _ _ _ := unavailable; store_download_grant _ _ _ _ := unavailable;
  store_cleanup _ _ := unavailable; others _ d := d |}.
#[export] Instance offline_fair : Fair offline.
Proof. split; [intros n d; apply rtc_refl|intros n d a H; exact H]. Qed.

Lemma operations_refine_witness : rtc step (w_db (play drafted genesis)) (w_db (perform (OpInitiate SID MODEL ATTACHMENT pub) (play drafted genesis)).2).
Proof.
  exact (proj1 (operations_refine (OpInitiate SID MODEL ATTACHMENT pub) (play drafted genesis) _ _ (play_reachable drafted)
    (surjective_pairing _))).
Defined.

(** ** A reclamation that nothing finishes

    One run of the server in which an attachment waits for deletion although no
    storage call is left to make: its only attempt was cleaned before the draft
    was cancelled, so [release] charges the attachment as being reclaimed and
    schedules nothing.  The worker never touches it again and the record cannot
    be purged until an operator repairs the attempt. *)




