(* ===== verification/Answers.v ===== *)
(** * What one command or transaction does

    Authority inside a session, fencing of revoked workloads and of stale
    transfer leases, idempotent replay, and the visibility of records. *)

From stdpp Require Import base gmap strings list fin_maps relations sorting.
From Stdlib Require Import ZArith Lia.
From S2P Require Import Prelude Json Domain Schemas Profiles Models Storage Service Spaces Records Managed Coordination.
From S2P Require Import Transfers Uploads System Logic Accounting Lifecycle Consistency TransferConsistency Fencing Monotone Scenario.

Section Authority.
Context {P : Platform}.

(** The grant a workload acts under is live, and is the one its identity names. *)
Record live_grant (d : DB) (now : Z) (space_id : string) (principal : Principal) (identity : WorkloadIdentity)
    (g : WorkloadGrant) : Prop := {
  lg_row : workload_grants d !! wi_grant_id identity = Some g;
  lg_enabled : gr_enabled g = true;
  lg_unexpired : now < gr_expires_at g /\ now < wi_expires_at identity;
  lg_space : gr_space_id g = space_id /\ wi_space_id identity = space_id;
  lg_principal : gr_principal_id g = pr_id principal /\ gr_subject g = pr_subject principal;
  lg_binding : gr_job_id g = wi_job_id identity /\ gr_attempt_id g = wi_attempt_id identity /\
               gr_component_id g = wi_component_id identity /\ gr_epoch g = wi_epoch identity /\
               gr_certificate_thumbprint g = wi_certificate_thumbprint identity;
}.

Lemma matching_grant_ok space member principal identity managed w g w' :
  matching_grant space member principal identity managed w = (Ok g, w') ->
  live_grant (w_db w) (clock (w_clock w)) (sp_id space) principal identity g /\
  exists m, managed = Some m /\ ms_retired_at m = None /\ ms_job_id m = gr_job_id g.
Proof.
  unfold matching_grant. intros H. destruct managed as [m|]; [|by inv_ok]. run_ok.
  match goal with H : match ?x with _ => _ end _ = _ |- _ => destruct x as [h|] eqn:Hg; [|by inv_ok] end.
  run_ok. tables. bool_simpl. repeat match goal with H : String.eqb _ _ = true |- _ => apply String.eqb_eq in H end.
  split; [split; try done; try lia; split_and!; congruence|].
  exists m. split_and!; [done| |done]. by destruct (ms_retired_at m).
Qed.

(** Whose authority the body of a transaction runs under. *)
Definition acts_under (d : DB) (now : Z) (space_id : string) (principal : Principal) (member : Member) : Prop :=
  match pr_workload principal with
  | Some identity => exists g, live_grant d now space_id principal identity g /\
      (forall role, mem_str role (mb_roles member) = true -> mem_str role (gr_roles g) = true)
  | None => forall m, managed_spaces d !! space_id = Some m ->
      let auth := auth_settings settings in
      mem_str (pr_id principal) (provisioning_principal_ids auth) = true \/
      (mem_str (pr_id principal) (download_broker_principal_ids auth) = true /\
       forall role, mem_str role (mb_roles member) = true -> role = "reader")
  end.

Lemma role_intersection_both a b role : mem_str role (role_intersection a b) = true -> mem_str role b = true.
Proof.
  unfold role_intersection, mem_str. rewrite bool_decide_eq_true, elem_of_sorted_set, list_elem_of_In.
  intros H. by apply List.filter_In in H as [_ H].
Qed.

Lemma effective_member_acts space row principal managed w m w' :
  effective_member space row principal managed w = (Ok m, w') -> managed = managed_spaces (w_db w) !! sp_id space ->
  acts_under (w_db w) (clock (w_clock w)) (sp_id space) principal m.
Proof.
  unfold effective_member, acts_under. intros H Em. destruct (pr_workload principal) as [identity|].
  - apply bind_ok in H as (g & w1 & Hg & H). apply matching_grant_ok in Hg as [Hg _]. inv_ok. exists g. split; [done|].
    intros role. cbn. apply role_intersection_both.
  - intros x Hx. rewrite <- Em in Hx. subst managed. rewrite Hx in H. cbn zeta in H. run_ok. bool_simpl.
    match goal with Hp : mem_str _ _ = true |- _ => rename Hp into Hin end.
    destruct (mem_str (pr_id principal) (provisioning_principal_ids _)) eqn:E; [by left|right]. run_ok.
    unfold mem_str in *. rewrite bool_decide_eq_true, elem_of_app in Hin. apply bool_decide_eq_false in E. split.
    + apply bool_decide_eq_true. by destruct Hin.
    + intros role Hr. cbn in Hr. apply role_intersection_both in Hr. unfold mem_str in Hr. apply bool_decide_eq_true in Hr. set_solver.
Qed.

(** The body of a transaction sees a member with at most the roles of the
    stored membership, and within its authority. *)
Lemma transaction_authority {A} space_id principal write allow_retired (body : Space -> Member -> M World A) w a w' :
  transaction space_id principal write allow_retired body w = (Ok a, w') ->
  (forall k s, spaces (w_db w) !! k = Some s -> sp_id s = k) ->
  exists space row member w1, opened space_id principal write allow_retired (w_db w) space row member /\
    acts_under (w_db w) (clock (w_clock w)) space_id principal member /\
    w_db w1 = w_db w /\ body space member w1 = (Ok a, w').
Proof.
  intros H Hkey. pose proof H as Hok. unfold transaction in H. run_ok.
  match goal with H : effective_member ?s ?r ?p ?m ?w0 = (Ok ?x, ?w1), Hb : _ _ _ ?w1 = _ |- _ =>
    pose proof (effective_member_ok _ _ _ _ _ _ _ H) as (Hr & Hb' & Hw & _); exists s, r, x, w1 end.
  match goal with Hs : spaces _ !! space_id = Some ?s |- _ => pose proof (Hkey _ _ Hs) as Ek end.
  split_and!; [|rewrite <- Ek at 1; eapply effective_member_acts; [eassumption|by rewrite Ek]|done|done].
  split; try eassumption.
  - intros E. by rewrite E in *.
  - intros m Hm Hret. rewrite Hm in *. by destruct (ms_retired_at m).
Qed.
End Authority.

(** ** Revocation *)
Section Revocation.
Context {P : Platform}.

Lemma space_keyed d k s : reachable d -> spaces d !! k = Some s -> sp_id s = k.
Proof. intros Hd Hs. exact (so_id _ _ _ _ (acc_space _ _ _ (proj1 (consistent_reachable _ Hd)) _ _ Hs)). Qed.

Lemma transaction_error {A} space_id principal write allow_retired (body : Space -> Member -> M World A) w e w' :
  transaction space_id principal write allow_retired body w = (Err e, w') -> w_db w' = w_db w.
Proof.
  unfold transaction, atomically. intros H. match type of H with (match ?r with _ => _ end) = _ => destruct r as [[x|y] w1] end; [done|].
  by injection H as _ <-.
Qed.

(** A grant of a revoked attempt is never live again. *)
Lemma revoked_not_live d d' now sid p identity gid g h : reachable d -> rtc step d d' -> workload_grants d !! gid = Some g ->
  is_Some (workload_revocations d !! (gr_space_id g, gr_attempt_id g)) -> wi_grant_id identity = gid ->
  ~ live_grant d' now sid p identity h.
Proof.
  intros Hd Hr Hg [t Ht] Hid [Hrow Hen _ _ _ _]. assert (Hd' : reachable d') by (unfold reachable in *; by etransitivity).
  destruct (fences_run _ _ Hr) as (Hrev & _ & Hgr). destruct (Hgr _ _ Hg) as (g' & Hg' & Hterms & _).
  rewrite Hid, Hg' in Hrow. injection Hrow as ->. unfold terms in Hterms. injection Hterms as _ Es _ _ _ Ea _ _ _ _ _ _.
  destruct (fe_grant _ _ _ (fenced_reachable _ Hd') _ _ Hg') as [_ [Hnone _]]. specialize (Hnone Hen).
  destruct (Hrev _ _ Ht) as (t' & Ht' & _). rewrite Es, Ea in Hnone. congruence.
Qed.

(** C5: a revoked workload never acts again.  Once an attempt of a job is
    revoked in a space, no principal presenting a grant of that attempt opens a
    transaction on any space, in any later state, and nothing is written. *)
Theorem revoked_never_acts d gid g w space_id principal identity write allow_retired {A} (body : Space -> Member -> M World A) :
  reachable d -> workload_grants d !! gid = Some g ->
  is_Some (workload_revocations d !! (gr_space_id g, gr_attempt_id g)) -> rtc step d (w_db w) ->
  pr_workload principal = Some identity -> wi_grant_id identity = gid ->
  exists e w', transaction space_id principal write allow_retired body w = (Err e, w') /\ w_db w' = w_db w.
Proof.
  intros Hd Hg Hrev Hrun Hp Hid. destruct (transaction _ _ _ _ _ w) as [[a|e] w'] eqn:E.
  - exfalso. assert (Hd' : reachable (w_db w)) by (unfold reachable in *; by etransitivity).
    apply transaction_authority in E as (space & row & member & w1 & _ & Hacts & _); [|intros k s; by apply space_keyed].
    unfold acts_under in Hacts. rewrite Hp in Hacts. destruct Hacts as (h & Hlive & _).
    exact (revoked_not_live d (w_db w) _ _ _ _ _ _ _ Hd Hrun Hg Hrev Hid Hlive).
  - exists e, w'. split; [done|]. exact (transaction_error _ _ _ _ _ _ _ _ E).
Qed.

(** C6: whoever acts, acts within their authority.  A transaction that
    succeeds was opened by a stored member of an existing space; its body sees
    no role the membership does not hold; a workload's roles are also within a
    grant that is enabled, unexpired and bound to exactly its identity; in a
    managed space a person is a provisioner, or a download broker reduced to
    [reader]; and a retired space is only read or wound down. *)
Theorem session_authority {A} space_id principal write allow_retired (body : Space -> Member -> M World A) w a w' :
  reachable (w_db w) -> transaction space_id principal write allow_retired body w = (Ok a, w') ->
  exists space row member, spaces (w_db w) !! space_id = Some space /\ members (w_db w) !! (space_id, pr_id principal) = Some row /\
    (forall role, mem_str role (mb_roles member) = true -> mem_str role (mb_roles row) = true) /\
    acts_under (w_db w) (clock (w_clock w)) space_id principal member /\
    (forall m, managed_spaces (w_db w) !! space_id = Some m -> ms_retired_at m <> None -> write = false \/ allow_retired = true) /\
    exists w1, w_db w1 = w_db w /\ body space member w1 = (Ok a, w').
Proof.
  intros Hd H. apply transaction_authority in H as (space & row & member & w1 & Ho & Hacts & Ew & Hb);
    [|intros k s; by apply space_keyed]. destruct Ho as [Hs Hrow _ Hroles _ Hret].
  exists space, row, member. split_and!; [done..| |by eauto]. intros m Hm Hr. specialize (Hret m Hm Hr).
  apply andb_false_iff in Hret as [->|Hx]; [by left|right]. by apply negb_false_iff in Hx.
Qed.
End Revocation.

(** ** Stale leases *)
Section Leases.
Context {P : Platform}.

(** C7: a stale lease commits nothing.  When the row of an attempt carries
    another token than the holder's, or its lease has run out, or its state has
    moved on, [commit] under that holder's snapshot answers [False] whatever
    the result it reports, [retry] is refused as well, and the database stays
    as it is. *)
Theorem stale_lease_powerless a c b r w : attempts (w_db w) !! at_id a = Some c -> blobs (w_db w) !! at_blob_id a = Some b ->
  records (w_db w) !! bl_record_id b = Some r ->
  at_token c <> at_token a \/ or_zero (at_lease_until c) <= clock (w_clock w) \/ at_state c <> at_state a ->
  (forall st res, exists w', commit_body a st res w = (Ok false, w') /\ w_db w' = w_db w) /\
  (forall code, exists u w', retry_body a code w = (Ok u, w') /\ w_db w' = w_db w).
Proof.
  intros Hc Hb Hr Hstale.
  assert (Hown : owned c a (clock (w_clock w)) && bool_decide (at_state c = at_state a) = false).
  { unfold owned. destruct Hstale as [Hn|[Hn|Hn]].
    - by rewrite (bool_decide_eq_false_2 _ Hn).
    - rewrite (proj2 (Z.ltb_ge _ _) Hn). by rewrite andb_false_r.
    - rewrite (bool_decide_eq_false_2 _ Hn). by rewrite andb_false_r. }
  split.
  - intros st res. eexists. unfold commit_body, bind, get_row, gets, the, database_time, ret. cbn. rewrite Hb. cbn. rewrite Hc, Hr. cbn.
    apply andb_false_iff in Hown as [->| ->]; rewrite ?orb_true_r; by split.
  - intros code. eexists _, _. unfold retry_body, bind, get_row, gets, database_time. cbn. rewrite Hb. cbn. rewrite Hc. cbn.
    rewrite Hown. by split.
Qed.
End Leases.

(** ** Idempotency *)
Section Idempotency.
Context {P : Platform}.

Lemma once_replay space principal scope k body bytes action op w : canonical_bytes body = Ok bytes ->
  String.eqb k "" || (128 <? py_len k) = false ->
  operations (w_db w) !! (sp_id space, pr_id principal, (scope, k)) = Some op -> op_request_hash op = sha256_hex bytes ->
  once space principal scope (JStr k) body action w = (Ok (op_response op), w).
Proof.
  intros Hb Hk Ho Eh. unfold once, operation_key, bind, raise_if. rewrite Hk. cbn. rewrite Hb. cbn. rewrite Ho, Eh, String.eqb_refl. done.
Qed.

Lemma once_key space principal scope key body action w v w' : once space principal scope key body action w = (Ok v, w') ->
  exists k, key = JStr k /\ String.eqb k "" || (128 <? py_len k) = false.
Proof.
  unfold once, operation_key. intros H. apply bind_ok in H as (k & w1 & Hk & _).
  destruct key; try by inv_ok. apply bind_ok in Hk as ([] & w2 & Hr & _). apply raise_if_ok in Hr as [Hr _]. eauto.
Qed.

(** C8: retrying a command is safe.  After a command succeeded under an
    idempotency key, the same principal's same request in the same scope with
    the same key returns the recorded answer and touches nothing, whatever the
    action would do now; and a different request under that key, one whose
    canonical bytes hash differently, is refused with 409 and touches nothing. *)
Theorem retry_is_safe space principal scope key body action w v w1 :
  once space principal scope key body action w = (Ok v, w1) ->
  (forall action', once space principal scope key body action' w1 = (Ok v, w1)) /\
  (forall action' body' bytes bytes', canonical_bytes body = Ok bytes -> canonical_bytes body' = Ok bytes' ->
     sha256_hex bytes' <> sha256_hex bytes ->
     once space principal scope key body' action' w1 = (Error 409 "idempotency_conflict", w1)).
Proof.
  intros H. destruct (once_key _ _ _ _ _ _ _ _ _ H) as (k & -> & Hk). apply once_ok in H as (k' & bytes & [= <-] & Hb & H).
  assert (Hop : exists op, operations (w_db w1) !! (sp_id space, pr_id principal, (scope, k)) = Some op /\
                  op_request_hash op = sha256_hex bytes /\ op_response op = v).
  { destruct H as [(op & Ho & Eh & -> & ->)|(_ & w2 & _ & ->)]; [by exists op|]. cbn. rewrite lookup_insert_eq. by eexists. }
  destruct Hop as (op & Ho & Eh & <-). split; [intros action'; by eapply once_replay|].
  intros action' body' b0 bytes' Hb0 Hb' Hne. unfold once, operation_key, bind, raise_if. rewrite Hk. cbn. rewrite Hb'. cbn. rewrite Ho, Eh.
  replace b0 with bytes in Hne by congruence. destruct (String.eqb_spec (sha256_hex bytes) (sha256_hex bytes')); [by destruct Hne|done].
Qed.
End Idempotency.

(** ** Visibility *)
Section Visibility.
Context {P : Platform}.

(** Who may read a record. *)
Definition may_read (roles : list string) (pid : string) (r : Record_) : Prop :=
  (rec_state r = PUBLISHED /\ mem_str "publisher" roles = true) \/
  (rec_state r = PUBLISHED /\ rec_shared r = true /\ has_any roles ["reader"; "contributor"; "publisher"] = true) \/
  (rec_creator r = pid /\ has_any roles ["contributor"; "publisher"] = true).

Lemma has_any_in roles wanted : has_any roles wanted = true <-> exists role, role ∈ wanted /\ mem_str role roles = true.
Proof.
  unfold has_any. rewrite existsb_exists. split; intros (x & Hx & Hm); exists x; split; try done; by apply list_elem_of_In.
Qed.

Lemma visible_reads member principal r : rec_id r <> "__none__" ->
  visible_clause member principal r = true <-> may_read (mb_roles member) (pr_id principal) r.
Proof.
  intros Hid. unfold visible_clause, may_read. set (roles := mb_roles member).
  assert (Hcp : has_any roles ["contributor"; "publisher"] = mem_str "contributor" roles || mem_str "publisher" roles)
    by (unfold has_any; cbn; by rewrite orb_false_r).
  assert (Hr : has_any roles ["reader"; "contributor"; "publisher"] = mem_str "reader" roles || (mem_str "contributor" roles || mem_str "publisher" roles))
    by (unfold has_any; cbn; by rewrite orb_false_r).
  rewrite Hcp, Hr. destruct (mem_str "reader" roles), (mem_str "contributor" roles), (mem_str "publisher" roles), (rec_shared r);
    cbn; rewrite ?orb_false_r, ?andb_false_r, ?andb_true_r, ?orb_true_iff, ?bool_decide_eq_true, ?String.eqb_eq; naive_solver.
Qed.

(** Nobody reads what they may not.  [get_record] answers only for a
    record of that space which the caller's effective roles let them read: a
    published record for publishers, a published and shared one for every
    reader, and drafts only for their creators. *)
Theorem only_visible_read principal space_id rid w v w' : reachable (w_db w) -> rid <> "__none__" ->
  get_record principal space_id rid w = (Ok v, w') ->
  w_db w' = w_db w /\
  exists r row, records (w_db w) !! rid = Some r /\ rec_space_id r = space_id /\
    members (w_db w) !! (space_id, pr_id principal) = Some row /\ may_read (mb_roles row) (pr_id principal) r /\
    v = record_dict_of r (by_path (rows (fun b => String.eqb (bl_record_id b) rid) (blobs (w_db w)))).
Proof.
  intros Hd Hrid H. apply transaction_ok in H as (space & row & member & w1 & Ho & (Ew & _) & H).
  destruct Ho as [_ Hrow _ Hroles _ _].
  apply bind_ok in H as (r & w2 & Hr & H). apply Logic.record_ok in Hr as (-> & k & [= <-] & Hk & Hs & Hv).
  rewrite <- Ew in Hd, Hrow |- *.
  assert (Eid : rec_id r = rid) by exact (ro_id _ _ _ _ (acc_record _ _ _ (proj1 (consistent_reachable _ Hd)) _ _ Hk)).
  apply visible_reads in Hv; [|congruence].
  unfold record_dict, record_blobs in H. rewrite Eid in H. apply bind_ok in H as (o & w3 & Hget & H). apply get_row_ok in Hget as [-> ->].
  tables. rewrite Hk in H. run_ok. split; [done|]. exists r, row. split_and!; try done.
  assert (Hany : forall ws, has_any (mb_roles member) ws = true -> has_any (mb_roles row) ws = true)
    by (intros ws; rewrite !has_any_in; intros (x & ? & ?); eauto).
  destruct Hv as [[? ?]|[(? & ? & ?)|[? ?]]]; [left|right; left|right; right]; auto.
Qed.
End Visibility.

Lemma revoked_never_acts_witness : exists e w', transaction SID worker false false (fun _ _ => ret tt) (play revoked genesis) = (Err e, w') /\
  w_db w' = w_db (play revoked genesis).
Proof.
  assert (H : exists g t, workload_grants (after revoked) !! GRANT = Some g /\
    workload_revocations (after revoked) !! (gr_space_id g, gr_attempt_id g) = Some t) by evaluated.
  destruct H as (g & t & Hg & Ht).
  refine (revoked_never_acts (after revoked) GRANT g (play revoked genesis) SID worker _ false false (fun _ _ => ret tt)
    (after_reachable revoked) Hg (ex_intro _ t Ht) (rtc_refl _ _) eq_refl eq_refl).
Defined.

Lemma session_authority_witness : exists row, members (w_db (play managed genesis)) !! (SID, pr_id worker) = Some row.
Proof.
  assert (H : exists u, (transaction SID worker false false (fun _ _ => ret tt) (play managed genesis)).1 = Ok u) by evaluated.
  destruct H as (u & H).
  destruct (session_authority _ _ _ _ _ _ _ _ (play_reachable managed) (pair_of _ _ H)) as (space & row & member & _ & Hrow & _).
  exists row. exact Hrow.
Defined.

(** The attempt of an upload under way, as a worker holds it, and as another
    holder would. *)
Definition in_flight : World := play (drafted ++ take 1 (upload pub "model.global")) genesis.
Definition thief : TransferAttempt := (attempt_on ATTACHMENT in_flight) <| at_token := Some "stolen" |>.

Lemma stale_lease_powerless_witness : exists w', commit_body thief UPLOADING (Started (mkUploadHandle "x" "y")) in_flight = (Ok false, w') /\
  w_db w' = w_db in_flight.
Proof.
  assert (H : exists c b r, attempts (w_db in_flight) !! at_id thief = Some c /\ blobs (w_db in_flight) !! at_blob_id thief = Some b /\
    records (w_db in_flight) !! bl_record_id b = Some r /\ at_token c = Some "u5") by evaluated.
  destruct H as (c & b & r & Hc & Hb & Hr & Ht).
  refine (proj1 (stale_lease_powerless thief c b r in_flight Hc Hb Hr (or_introl _)) UPLOADING (Started (mkUploadHandle "x" "y"))).
  rewrite Ht. discriminate.
Defined.

Definition demo_space : Space := mkSpace SID "trial" "fedavg.v1" 1 100 100 0 0 10 0 100 0 0.
Lemma retry_is_safe_witness : exists v w1, once demo_space admin "scope" (JStr "k") JNull (ret (JInt 1)) (play founding genesis) = (Ok v, w1) /\
  once demo_space admin "scope" (JStr "k") JNull (throw KeyError) w1 = (Ok v, w1).
Proof.
  assert (H : exists v, (once demo_space admin "scope" (JStr "k") JNull (ret (JInt 1)) (play founding genesis)).1 = Ok v) by evaluated.
  destruct H as (v & H). eexists v, _. split; [exact (pair_of _ _ H)|].
  exact (proj1 (retry_is_safe _ _ _ _ _ _ _ _ _ (pair_of _ _ H)) (throw KeyError)).
Defined.

Lemma only_visible_read_witness : exists r row, records (w_db (play published genesis)) !! MODEL = Some r /\
  may_read (mb_roles row) (pr_id site1) r.
Proof.
  assert (H : exists v, (get_record site1 SID MODEL (play published genesis)).1 = Ok v) by evaluated. destruct H as (v & H).
  assert (N : MODEL <> "__none__") by (vm_compute; discriminate).
  destruct (only_visible_read site1 SID MODEL _ v _ (play_reachable published) N (pair_of _ _ H)) as (_ & r & row & Hr & _ & _ & Hm & _).
  exists r, row. split; [exact Hr|exact Hm].
Defined.
