(* ===== verification/Rounds.v ===== *)
(** * Federated rounds

    What the FedAvg profile promises: the selection of inputs keeps exactly the
    newest eligible update of each participant, and completing an acquisition
    moves the reference to a published model made from distinct participants'
    updates of the model it replaces. *)

From stdpp Require Import base gmap strings list fin_maps sorting.
From Stdlib Require Import ZArith Lia.
From S2P Require Import Prelude Json Order Domain Schemas Profiles Models Storage Service Spaces Records Managed Coordination.
From S2P Require Import Transfers Uploads System Logic TransferConsistency Scenario.

(** ** Selection *)
















Section Completion.
Context {P : Platform}.







End Completion.



