(* ===== verification/Bounds.v ===== *)
(** * Sizes, depths, paths and parts

    The bounds the exchange enforces on what it stores: the parts of an upload
    cover its bytes exactly, an object is only assembled from such parts, JSON
    documents have bounded depth and a canonical form, and attachment paths
    stay below the directory they are extracted to. *)

From stdpp Require Import base gmap strings list numbers.
From Stdlib Require Import ZArith Lia Ascii.
From S2P Require Import Prelude Json Order Domain Schemas Models Storage Records Scenario.

(** ** Parts *)
Definition total (l : list Z) : Z := foldr Z.add 0 l.

Lemma ceil_div_spec a b : 0 <= a -> 0 < b -> (ceil_div a b - 1) * b < a <= ceil_div a b * b \/ (a = 0 /\ ceil_div a b = 0).
Proof.
  intros Ha Hb. unfold ceil_div. pose proof (Z.div_mod (a + b - 1) b). pose proof (Z.mod_pos_bound (a + b - 1) b).
  destruct (Z.eq_dec a 0) as [->|]; [right; split; [done|]; apply Z.div_small; lia|left; nia].
Qed.

(** The parts up to [k] hold the first [k] part sizes of the bytes. *)
Lemma first_parts size ps k : 0 <= size -> 0 < ps -> (Z.of_nat k <= part_count size ps) ->
  exists l, part_sizes (seqZ 1 (Z.of_nat k)) size ps = Ok l /\ total l = Z.min (Z.of_nat k * ps) size /\
    Forall (fun s => 0 <= s <= ps) l.
Proof.
  intros Hs Hp. assert (G : forall m start, 1 <= start -> start + Z.of_nat m - 1 <= part_count size ps ->
    exists l, part_sizes (seqZ start (Z.of_nat m)) size ps = Ok l /\
      total l = Z.min ((start + Z.of_nat m - 1) * ps) size - Z.min ((start - 1) * ps) size /\ Forall (fun s => 0 <= s <= ps) l).
  { induction m as [|m IH]; intros start H1 Hm.
    - exists []. cbn. split_and!; [done|f_equal; lia|constructor].
    - rewrite Nat2Z.inj_succ, seqZ_cons by lia. replace (Z.pred (Z.succ (Z.of_nat m))) with (Z.of_nat m) by lia.
      destruct (IH (Z.succ start)) as (l & E & Et & Hall); [lia..|]. cbn [part_sizes]. unfold part_size_for.
      replace (negb _) with false by (symmetry; apply negb_false_iff, andb_true_iff; split; apply Z.leb_le; lia).
      rewrite E. eexists. split_and!; [done| |].
      + cbn [total foldr]. fold (total l). rewrite Et.
        pose proof (ceil_div_spec size ps Hs Hp). unfold part_count in Hm. nia.
      + constructor; [|done]. pose proof (ceil_div_spec size ps Hs Hp). unfold part_count in Hm. nia. }
  intros Hk. destruct (G k 1) as (l & E & Et & Hall); [lia..|]. exists l. split_and!; [done| |done]. rewrite Et. nia.
Qed.

Lemma all_parts size ps : 0 <= size -> 0 < ps ->
  exists l, part_sizes (seqZ 1 (part_count size ps)) size ps = Ok l /\ total l = size /\ Forall (fun s => 0 <= s <= ps) l.
Proof.
  intros Hs Hp. assert (Hn : 1 <= part_count size ps) by (unfold part_count; lia).
  destruct (first_parts size ps (Z.to_nat (part_count size ps)) Hs Hp) as (l & E & Et & Hall); [lia|].
  rewrite Z2Nat.id in E, Et by lia. exists l. split_and!; [done| |done]. rewrite Et.
  pose proof (ceil_div_spec size ps Hs Hp). unfold part_count in *. nia.
Qed.

Section PartSize.
Context {P : Platform}.

Lemma parts_within_limit size : 0 <= size <= 5 * 1024 ^ 4 -> 0 < storage_part_size (storage_settings settings) ->
  1 <= part_count size (blob_part_size size) <= 10000 /\ storage_part_size (storage_settings settings) <= blob_part_size size.
Proof.
  intros Hs Hc. set (ps := blob_part_size size).
  assert (Hps : storage_part_size (storage_settings settings) <= ps /\ size <= 10000 * ps).
  { subst ps. unfold blob_part_size. pose proof (ceil_div_spec size (10000 * 1048576)). lia. }
  assert (H : ceil_div size ps <= 10000) by (pose proof (ceil_div_spec size ps); nia).
  unfold part_count. lia.
Qed.

(** C24: the parts of an upload are its bytes.  For any size and positive part
    size the numbered parts [1 .. part_count] all exist, none exceeds the part
    size, and together they hold exactly the declared size; any other number is
    refused.  With the part size the service records for an attachment of up to
    5 TiB, which is at least the configured one, there are between 1 and 10000
    parts, the most the store accepts. *)
Theorem parts_cover size ps : 0 <= size -> 0 < ps ->
  (exists l, part_sizes (seqZ 1 (part_count size ps)) size ps = Ok l /\ total l = size /\ Forall (fun s => 0 <= s <= ps) l) /\
  (forall n, n < 1 \/ part_count size ps < n -> part_size_for n size ps = storage_failure "invalid_part_number" false false) /\
  (size <= 5 * 1024 ^ 4 -> 0 < storage_part_size (storage_settings settings) -> ps = blob_part_size size ->
   1 <= part_count size ps <= 10000 /\ storage_part_size (storage_settings settings) <= ps).
Proof.
  intros Hs Hp. split_and!; [by apply all_parts| |].
  - intros n Hn. unfold part_size_for. replace (negb _) with true; [done|].
    symmetry. apply negb_true_iff, andb_false_iff. destruct Hn; [left|right]; by apply Z.leb_gt.
  - intros Hl Hc ->. by apply parts_within_limit.
Qed.
End PartSize.

(** ** Assembly of an object *)
Section Assembly.
Context {P : Platform} {C : Type} {Cl : S3Client C}.

Lemma provider_operation_ok {A} (fn : M C A) a w w' : provider_operation fn w = (Ok a, w') -> fn w = (Ok a, w').
Proof. unfold provider_operation, catch. destruct (fn w) as [[x|e] w1]; [done|]. cbn. by intros [= ? ?]. Qed.

Lemma s3_version_ok v s (w w' : C) : s3_version v w = (Ok s, w') -> v = Some s /\ s <> "" /\ s <> "null" /\ w' = w.
Proof.
  unfold s3_version. destruct v as [v|]; [|done]. destruct (String.eqb v "" || String.eqb v "null") eqn:E; [done|].
  intros [= <- <-]. apply orb_false_iff in E as [E1 E2]. apply String.eqb_neq in E1, E2. done.
Qed.

Lemma parts_match n parts size ps : parts_mismatch n parts size ps = Ok false ->
  map up_number parts = seqZ n (Z.of_nat (List.length parts)) /\ part_sizes (map up_number parts) size ps = Ok (map up_size parts).
Proof.
  revert n. induction parts as [|p parts IH]; intros n; [done|]. cbn [parts_mismatch].
  destruct (up_number p =? n) eqn:En; [|done]. cbn. apply Z.eqb_eq in En. destruct (part_size_for n size ps) as [s|] eqn:Es; [|done].
  destruct (up_size p =? s) eqn:Ez; [|done]. cbn. apply Z.eqb_eq in Ez. intros H. destruct (IH _ H) as [E1 E2].
  rewrite E2, En, Es, Ez. split; [|done]. cbn [List.length map]. rewrite Nat2Z.inj_succ, seqZ_cons by lia. f_equal. rewrite E1. f_equal. lia.
Qed.

(** An object is assembled only from all of its parts.  When the S3 store
    completes an upload it either found the object already there, or the
    listed parts are numbered [1 .. part_count] in order with exactly the sizes
    of [part_size_for], so that they hold the declared size, and the object it
    returns is at the key of the upload with a real version. *)
Theorem object_from_parts handle size ps c obj c' : 0 <= size -> 0 < ps ->
  s3_complete handle size ps c = (Ok obj, c') ->
  (exists c1, recover_object (hd_key handle) c = (Ok (Some obj), c1)) \/
  (exists c1 c2 parts, recover_object (hd_key handle) c = (Ok None, c1) /\ s3_parts handle c1 = (Ok parts, c2) /\
     map up_number parts = seqZ 1 (part_count size ps) /\ total (map up_size parts) = size /\
     exists v, obj = mkStoredObject (Some (hd_key handle)) (Some v) /\ v <> "" /\ v <> "null").
Proof.
  intros Hs Hp H. apply provider_operation_ok in H. apply bind_ok in H as (found & c1 & Hf & H).
  destruct found as [stored|]; [left; injection H as <- _; by exists c1|right].
  apply bind_ok in H as (parts & c2 & Hparts & H). apply bind_ok in H as (u & c3 & Hlen & H). apply throw_if_ok in Hlen as [Hlen ->].
  apply bind_ok in H as (b & c4 & Hmis & H). apply lift_ok in Hmis as [Hmis ->].
  apply bind_ok in H as (u' & c5 & Hb & H). apply throw_if_ok in Hb as [-> ->].
  apply bind_ok in H as (version & c6 & _ & H). apply bind_ok in H as (v & c7 & Hv & H). injection H as <- <-.
  apply s3_version_ok in Hv as (_ & Hv1 & Hv2 & _). apply negb_false_iff, Z.eqb_eq in Hlen.
  destruct (parts_match _ _ _ _ Hmis) as [En Es]. rewrite Hlen in En. rewrite En in Es.
  destruct (all_parts size ps Hs Hp) as (l & El & Et & _). rewrite El in Es. injection Es as ->.
  exists c1, c2, parts. split_and!; try done. by exists v.
Qed.
End Assembly.

(** ** Instances *)
Lemma parts_cover_witness : (0 <= 20 /\ 0 < blob_part_size 20) /\ 1 <= part_count 20 (blob_part_size 20) <= 10000.
Proof.
  split; [split; vm_compute; congruence|].
  apply (proj1 (proj2 (proj2 (parts_cover 20 (blob_part_size 20) ltac:(vm_compute; congruence) ltac:(vm_compute; congruence)))
    ltac:(vm_compute; congruence) ltac:(vm_compute; congruence) eq_refl)).
Defined.

(** An object store with one upload in progress, whose parts are the state,
    and no object yet. *)
Definition one_upload : S3Client (list UploadedPart) := {|
  create_multipart_upload _ := ret "up-1";
  list_parts_pages _ := gets (fun ps => [ps]);
  head_object _ := throw (ClientError "404");
  complete_multipart_upload _ _ := modify (fun _ => []) ;; ret (Some "v1");
  get_object _ := ret [];
  abort_multipart_upload _ _ := modify (fun _ => []);
  list_parts _ _ := ret tt;
  list_multipart_uploads key := ret [[(key, "up-1")]];
  list_object_versions _ := ret [];
  delete_object _ _ := ret tt;
  bucket_versioning := ret (Some "Enabled")
|}.
Definition three_parts : list UploadedPart := [mkUploadedPart 2 "b" 8; mkUploadedPart 3 "c" 4; mkUploadedPart 1 "a" 8].

Lemma object_from_parts_witness : exists obj,
  (s3_complete (Cl := one_upload) (mkUploadHandle "up-1" "objects/o") 20 8 three_parts).1 = Ok obj /\
  ((exists c1, recover_object (Cl := one_upload) "objects/o" three_parts = (Ok (Some obj), c1)) \/
   (exists c1 c2 parts, recover_object (Cl := one_upload) "objects/o" three_parts = (Ok None, c1) /\
      s3_parts (Cl := one_upload) (mkUploadHandle "up-1" "objects/o") c1 = (Ok parts, c2) /\
      map up_number parts = seqZ 1 (part_count 20 8) /\ total (map up_size parts) = 20 /\
      exists v, obj = mkStoredObject (Some "objects/o") (Some v) /\ v <> "" /\ v <> "null")).
Proof.
  exists (mkStoredObject (Some "objects/o") (Some "v1")). split; [vm_compute; reflexivity|].
  apply (object_from_parts (Cl := one_upload) (mkUploadHandle "up-1" "objects/o") 20 8 three_parts _ []); [lia..|].
  vm_compute. reflexivity.
Defined.
