(* ===== verification/Documents.v ===== *)
(** * Documents and paths

    Depth and canonical form of JSON documents, and the safety of attachment
    paths: one by one, and together in one record. *)

From stdpp Require Import base gmap strings list.
From Stdlib Require Import ZArith Lia Ascii.
From S2P Require Import Prelude Json Order Domain Schemas Models Storage Spaces Records Consistency Scenario.

(** ** Depth *)
Fixpoint json_depth (v : json) : nat :=
  match v with
  | JList l => foldr (fun x n => Nat.max (S (json_depth x)) n) 0%nat l
  | JObj kvs => foldr (fun kx n => Nat.max (S (json_depth kx.2)) n) 0%nat kvs
  | _ => 0%nat
  end.

Lemma max_depth_le {A} (f : A -> nat) l n : (foldr (fun x m => Nat.max (S (f x)) m) 0 l <= n)%nat <-> Forall (fun x => S (f x) <= n)%nat l.
Proof. induction l as [|x l IH]; cbn; [split; [constructor|lia]|]. rewrite Forall_cons, <- IH. lia. Qed.

Lemma bounded_json_depth room v : bounded_json (S room) v = Ok tt <-> (json_depth v <= room)%nat.
Proof.
  revert v. induction room as [|room IH]; intros v.
  - destruct v as [| | | | |l|kvs]; cbn; try (split; [lia|done]).
    + destruct l; cbn; [split; [lia|done]|split; [done|lia]].
    + destruct kvs; cbn; [split; [lia|done]|split; [done|lia]].
  - destruct v as [| | | | |l|kvs]; try (cbn; split; [lia|done]).
    + change (bounded_json (S (S room)) (JList l)) with (each (bounded_json (S room)) l).
      change (json_depth (JList l)) with (foldr (fun x m => Nat.max (S (json_depth x)) m) 0%nat l).
      rewrite each_ok, max_depth_le. apply Forall_iff. intros x. rewrite IH. lia.
    + change (bounded_json (S (S room)) (JObj kvs)) with (each (fun kv => bounded_json (S room) kv.2) kvs).
      change (json_depth (JObj kvs)) with (foldr (fun x m => Nat.max (S (json_depth x.2)) m) 0%nat kvs).
      rewrite each_ok, max_depth_le. apply Forall_iff. intros x. rewrite IH. lia.
Qed.

(** Metadata is bounded.  The depth check accepts exactly the documents
    nested at most 16 levels deep, and metadata that passes is an object of
    depth at most 16 whose canonical form has the returned number of bytes, at
    most 65536. *)
Theorem metadata_bounded {P : Platform} metadata : (bounded_json 17 metadata = Ok tt <-> (json_depth metadata <= 16)%nat) /\
  forall n, metadata_size metadata = Ok n -> is_dict metadata = true /\ (json_depth metadata <= 16)%nat /\ 0 <= n <= 65536 /\
    exists bytes, canonical_bytes metadata = Ok bytes /\ n = utf8_len bytes.
Proof.
  split; [apply bounded_json_depth|]. intros n H. pose proof (metadata_size_bounds _ _ H) as Hn. unfold metadata_size in H.
  destruct (is_dict metadata); [|done]. cbn [negb] in H. destruct (bounded_json 17 metadata) as [[]|] eqn:E; [|done].
  apply bounded_json_depth in E. destruct (canonical_bytes metadata) as [bytes|]; [|done].
  destruct (MAX_METADATA_BYTES <? utf8_len bytes); [done|]. injection H as <-. split_and!; try done; [apply Hn..|by exists bytes].
Qed.

(** ** Canonical form *)

(** The same document with the keys of its objects in another order. *)
Inductive json_same : json -> json -> Prop :=
  | same_refl v : json_same v v
  | same_list l l' : Forall2 json_same l l' -> json_same (JList l) (JList l')
  | same_obj kvs kvs' kvs'' : Forall2 (fun x y => x.1 = y.1 /\ json_same x.2 y.2) kvs kvs' -> NoDup kvs'.*1 -> kvs' ≡ₚ kvs'' ->
      json_same (JObj kvs) (JObj kvs'').

Section Same.
Variable Q : json -> json -> Prop.
Hypothesis Qrefl : forall v, Q v v.
Hypothesis Qlist : forall l l', Forall2 Q l l' -> Q (JList l) (JList l').
Hypothesis Qobj : forall kvs kvs' kvs'', Forall2 (fun x y => x.1 = y.1 /\ Q x.2 y.2) kvs kvs' -> NoDup kvs'.*1 -> kvs' ≡ₚ kvs'' ->
  Q (JObj kvs) (JObj kvs'').
Fixpoint json_same_ind' v w (H : json_same v w) : Q v w :=
  match H with
  | same_refl v => Qrefl v
  | same_list l l' HF => Qlist l l' ((fix go l l' (HF : Forall2 json_same l l') : Forall2 Q l l' :=
      match HF with
      | List.Forall2_nil _ => List.Forall2_nil _
      | List.Forall2_cons x y Hxy HF' => List.Forall2_cons x y (json_same_ind' _ _ Hxy) (go _ _ HF')
      end) l l' HF)
  | same_obj kvs kvs' kvs'' HF Hnd Hp => Qobj kvs kvs' kvs''
      ((fix go l l' (HF : Forall2 (fun x y => x.1 = y.1 /\ json_same x.2 y.2) l l') : Forall2 (fun x y => x.1 = y.1 /\ Q x.2 y.2) l l' :=
      match HF with
      | List.Forall2_nil _ => List.Forall2_nil _
      | List.Forall2_cons x y (conj E Hxy) HF' => List.Forall2_cons x y (conj E (json_same_ind' _ _ Hxy)) (go _ _ HF')
      end) kvs kvs' HF) Hnd Hp
  end.
End Same.

Section Canonical.
Context {P : Platform}.

Fixpoint dumps_list (l : list json) : option (list string) :=
  match l with [] => Some [] | x :: l' => d ← dumps float_repr x; ds ← dumps_list l'; Some (d :: ds) end.
Fixpoint dumps_items (l : list (string * json)) : option (list (string * string)) :=
  match l with [] => Some [] | (k, x) :: l' => d ← dumps float_repr x; ds ← dumps_items l'; Some ((k, d) :: ds) end.
Definition member_text (kd : string * string) : string := dump_string kd.1 +:+ ":" +:+ kd.2.

Lemma dumps_list_eq l : dumps float_repr (JList l) = (items ← dumps_list l; Some ("[" +:+ join "," items +:+ "]")).
Proof. done. Qed.
Lemma dumps_obj_eq kvs : dumps float_repr (JObj kvs) = (items ← dumps_items kvs; Some ("{" +:+ join "," (map member_text (sort_items items)) +:+ "}")).
Proof. done. Qed.

Lemma dumps_items_perm l l' : l ≡ₚ l' -> match dumps_items l, dumps_items l' with
  | Some a, Some b => a ≡ₚ b /\ a.*1 = l.*1 | None, None => True | _, _ => False end.
Proof.
  induction 1 as [|[k x] l l' _ IH|[k x] [k' y] l|l1 l2 l3 _ IH1 _ IH2]; cbn.
  - done.
  - destruct (dumps float_repr x) as [d|]; cbn; [|done]. destruct (dumps_items l), (dumps_items l'); cbn; try done.
    destruct IH as [Hp ->]. split; [by rewrite Hp|done].
  - destruct (dumps float_repr x) as [d|], (dumps float_repr y) as [d'|]; cbn; try done; destruct (dumps_items l) as [a|] eqn:E; cbn; try done.
    split; [apply Permutation_swap|]. f_equal. f_equal. revert a E. clear. induction l as [|[k x] l IH]; intros a; cbn; [by intros [= <-]|].
    destruct (dumps float_repr x); cbn; [|done]. destruct (dumps_items l); cbn; [|done]. intros [= <-]. cbn. f_equal. by apply IH.
  - destruct (dumps_items l1), (dumps_items l2), (dumps_items l3); try done. destruct IH1 as [H1 E1], IH2 as [H2 E2]. split; [by etransitivity|done].
Qed.

(** The identity of a request does not depend on how its keys are ordered.
    Two documents that differ only in the order of the keys of their objects,
    at any depth, have the same canonical bytes, and so the same digest. *)
Theorem canonical_ignores_order v w : json_same v w -> canonical_bytes v = canonical_bytes w.
Proof.
  intros H. enough (E : dumps float_repr v = dumps float_repr w) by (unfold canonical_bytes; by rewrite E).
  revert v w H. apply json_same_ind'; [done| |].
  - intros l l' H. rewrite !dumps_list_eq. enough (E : dumps_list l = dumps_list l') by (by rewrite E).
    induction H as [|x y l l' Hxy _ IH]; cbn; [done|]. by rewrite Hxy, IH.
  - intros kvs kvs' kvs'' H Hnd Hp. rewrite !dumps_obj_eq. assert (E : dumps_items kvs = dumps_items kvs').
    { clear Hnd Hp. induction H as [|[k x] [k' y] l l' [E Hxy] _ IH]; cbn in *; [done|]. by rewrite E, Hxy, IH. }
    rewrite E. pose proof (dumps_items_perm _ _ Hp) as Hd. destruct (dumps_items kvs') as [a|], (dumps_items kvs'') as [b|]; try done; cbn.
    destruct Hd as [Hab Ek]. rewrite (sort_items_unique a b Hab); [done|]. by rewrite Ek.
Qed.
End Canonical.

Definition object_ab : json := JObj [("a", JInt 1); ("b", JList [JNull])].
Definition object_ba : json := JObj [("b", JList [JNull]); ("a", JInt 1)].
Lemma canonical_ignores_order_witness : json_same object_ab object_ba /\
  canonical_bytes (P := demo) object_ab = canonical_bytes (P := demo) object_ba.
Proof.
  assert (H : json_same object_ab object_ba).
  { eapply (same_obj _ [("a", JInt 1); ("b", JList [JNull])]).
    - repeat constructor; reflexivity.
    - apply (bool_decide_unpack _). vm_compute. exact I.
    - apply Permutation_swap. }
  split; [exact H|]. exact (canonical_ignores_order (P := demo) _ _ H).
Defined.

(** ** Attachment paths *)

(** The directory a relative path names when it is followed component by
    component from a directory [d] below the extraction root (the innermost
    name first): [None] when it leaves the root. *)
Fixpoint follow (d : list string) (parts : list string) : option (list string) :=
  match parts with
  | [] => Some d
  | part :: rest =>
      if String.eqb part "" || String.eqb part "." then follow d rest
      else if String.eqb part ".." then match d with [] => None | _ :: d' => follow d' rest end
      else follow (part :: d) rest
  end.

Lemma follow_plain d parts : Forall (fun part => mem_str part [""; "."; ".."] = false) parts ->
  follow d parts = Some (rev parts ++ d).
Proof.
  revert d. induction parts as [|part parts IH]; intros d H; [done|]. apply Forall_cons in H as [Hp H]. cbn [follow].
  unfold mem_str in Hp. apply bool_decide_eq_false in Hp. rewrite !not_elem_of_cons in Hp. destruct Hp as (H1 & H2 & H3 & _).
  apply String.eqb_neq in H1, H2, H3. rewrite H1, H2, H3. cbn. rewrite IH by done. cbn. by rewrite <- app_assoc.
Qed.

Lemma existsb_Forall {A} (p : A -> bool) l : existsb p l = false <-> Forall (fun a => p a = false) l.
Proof. induction l as [|a l IH]; cbn; [by split|]. rewrite orb_false_iff, Forall_cons, IH. done. Qed.

Lemma join_split c s : join (String c "") (split_on c s) = s.
Proof.
  induction s as [|x s IH]; cbn [split_on]; [done|]. unfold char_eqb. destruct (Ascii.eqb x c) eqn:E.
  - apply Ascii.eqb_eq in E as ->. destruct (split_on c s) as [|p ps] eqn:Es; [by destruct s; cbn in Es; repeat case_match|].
    change (join (String c "") ("" :: p :: ps)) with (String c (join (String c "") (p :: ps))). by rewrite IH.
  - destruct (split_on c s) as [|p ps] eqn:Es; [by destruct s; cbn in Es; repeat case_match|].
    destruct ps as [|q ps]; [cbn in *; by rewrite <- IH|].
    change (join (String c "") (String x p :: q :: ps)) with (String x (join (String c "") (p :: q :: ps))). by rewrite IH.
Qed.

Section Paths.
Context {P : Platform}.

(** Two declared paths that cannot both be extracted: equal up to case, or one
    a directory of the other. *)
Definition clash (d e : Declaration) : Prop := path_conflict (casefold (dc_path e)) (casefold (dc_path d)) = true.

Lemma check_attachments_paths l paths amount ds total : check_attachments l paths amount = Ok (ds, total) ->
  Forall (fun d => path_ok (dc_path d) = true /\ 0 <= dc_size d <= 5 * 1024 ^ 4 /\ py_len (dc_sha256 d) = 64) ds /\
  Forall (fun d => Forall (fun p => path_conflict (casefold (dc_path d)) p = false) paths) ds /\
  ForallOrdPairs (fun d e => ~ clash d e) ds /\ List.length ds = List.length l /\ total = amount + foldr (fun d n => dc_size d + n) 0 ds.
Proof.
  revert paths amount ds total. induction l as [|a l IH]; intros paths amount ds total; cbn [check_attachments].
  - intros [= <- <-]. split_and!; [constructor|constructor|constructor|done|cbn; lia].
  - destruct (as_dict a) as [kvs|]; [|done]. unfold validate_path. destruct (get_or_none kvs "path") as [| | | |path| |]; try done.
    destruct (path_ok path) eqn:Hpath; [|done]. destruct (existsb _ paths) eqn:Hx; [done|].
    destruct (int_in _ _ _) as [n|] eqn:Hn; [|done]. destruct (get_or_none kvs "sha256") as [| | | |dg| |]; try done.
    destruct (negb (py_len dg =? 64) || _) eqn:Hd; [done|].
    destruct (check_attachments l _ _) as [[ds' total']|] eqn:E; [|done]. intros [= <- <-].
    destruct (IH _ _ _ _ E) as (H1 & H2 & H3 & H4 & H5). apply existsb_Forall in Hx. bool_simpl. cbn in *.
    split_and!.
    + constructor; [|done]. cbn. apply int_in_range in Hn. split_and!; [done|apply Hn|apply Hn|done].
    + constructor; [done|]. eapply Forall_impl; [exact H2|]. intros d Hall. cbn in Hall. by apply Forall_cons in Hall as [_ ?].
    + constructor; [|done]. eapply Forall_impl; [exact H2|]. intros d Hall. unfold clash. cbn in *.
      apply Forall_cons in Hall as [Hc _]. by rewrite Hc.
    + lia.
    + lia.
Qed.

(** C29: the attachments of a record can be extracted side by side, below any
    directory.  When the attachment list of a new record is accepted, following
    the components of each path never leaves the directory it starts from and
    ends at exactly the named components; no two of the paths are equal up to
    case or one a directory of the other; every size is between 0 and 5 TiB,
    and the amount charged is the sum of the sizes. *)
Theorem attachments_extract_safely l ds total : check_attachments l [] 0 = Ok (ds, total) ->
  (forall d, d ∈ ds -> follow [] (split_on "/"%char (dc_path d)) = Some (rev (split_on "/"%char (dc_path d))) /\
     join "/" (split_on "/"%char (dc_path d)) = dc_path d /\ startswith (dc_path d) "/" = false /\ 0 <= dc_size d <= 5 * 1024 ^ 4) /\
  ForallOrdPairs (fun d e => ~ clash d e) ds /\ total = foldr (fun d n => dc_size d + n) 0 ds.
Proof.
  intros H. destruct (check_attachments_paths _ _ _ _ _ H) as (H1 & _ & H3 & _ & H5). split_and!; [|done|lia].
  intros d Hd. rewrite Forall_forall in H1. destruct (H1 d Hd) as (Hp & Hs & _). unfold path_ok in Hp. bool_simpl.
  split_and!; [|apply join_split|done|apply Hs..]. rewrite follow_plain; [by rewrite app_nil_r|].
  match goal with Hx : existsb _ _ = false |- _ => by apply existsb_Forall in Hx end.
Qed.
End Paths.

Definition two_files : list json := [attachment_body "models/a.bin" 20; attachment_body "models/b.bin" 5].
Lemma attachments_extract_safely_witness : exists ds, check_attachments (P := demo) two_files [] 0 = Ok (ds, 25) /\
  ForallOrdPairs (fun d e => ~ clash (P := demo) d e) ds.
Proof.
  assert (H : exists ds, check_attachments (P := demo) two_files [] 0 = Ok (ds, 25)) by evaluated.
  destruct H as [ds H]. exists ds. split; [exact H|]. exact (proj1 (proj2 (attachments_extract_safely (P := demo) _ _ _ H))).
Defined.

Definition flat_metadata : json := JObj [("sample_count", JInt 10)].
Lemma metadata_bounded_witness : exists n, metadata_size (P := demo) flat_metadata = Ok n /\ 0 <= n <= 65536.
Proof.
  assert (H : exists n, metadata_size (P := demo) flat_metadata = Ok n) by evaluated. destruct H as [n H]. exists n. split; [exact H|].
  destruct (proj2 (metadata_bounded (P := demo) flat_metadata) n H) as (_ & _ & Hn & _). exact Hn.
Defined.
