(* ===== verification/Placement.v ===== *)
(** * Exclusive placement of GPUs

    [_assign_gpus] of [hf2l_jobs.scheduler]: every requested GPU is a slot of a
    pool, every slot may take the free devices its pool advertises, and a
    device goes to one slot even when two pools advertise it.  The source
    searches augmenting paths; here the search is proved to terminate, to
    return an exclusive placement of all slots, and to fail only when there is
    none. *)

From stdpp Require Import base gmap strings list fin_sets fin_maps sorting.
From Stdlib Require Import ZArith Lia.
From S2P Require Import Prelude Json Order.

(** ** Slots and the search *)
Definition Slot : Type := string * nat.
Abbreviation Owners := (gmap string Slot).

Section Search.
Context (candidates : Slot -> list string).

Section Attempt.
Context (place : Slot -> gset string -> Owners -> bool * gset string * Owners).

(** The loop of [place] over the candidates of a slot. *)
Fixpoint try_candidates (slot : Slot) (uuids : list string) (seen : gset string) (owners : Owners) : bool * gset string * Owners :=
  match uuids with
  | [] => (false, seen, owners)
  | uuid :: rest =>
      if bool_decide (uuid ∈ seen) then try_candidates slot rest seen owners
      else
        let seen := {[uuid]} ∪ seen in
        match owners !! uuid with
        | None => (true, seen, <[uuid := slot]> owners)
        | Some previous =>
            match place previous seen owners with
            | (true, seen, owners) => (true, seen, <[uuid := slot]> owners)
            | (false, seen, owners) => try_candidates slot rest seen owners
            end
        end
  end.
End Attempt.

(** [place]: each nested call has a larger [seen], so [fuel] above the number
    of candidates not yet seen is never used up. *)
Fixpoint place (fuel : nat) (slot : Slot) (seen : gset string) (owners : Owners) : bool * gset string * Owners :=
  match fuel with
  | O => (false, seen, owners)
  | S fuel => try_candidates (place fuel) slot (candidates slot) seen owners
  end.

Fixpoint place_all (fuel : nat) (slots : list Slot) (owners : Owners) : option Owners :=
  match slots with
  | [] => Some owners
  | slot :: rest =>
      match place fuel slot ∅ owners with
      | (true, _, owners) => place_all fuel rest owners
      | (false, _, _) => None
      end
  end.

(** Every device that some slot may take. *)
Definition universe (slots : list Slot) : gset string := list_to_set (concat (map candidates slots)).

(** The devices are owned by distinct slots, each by a slot that may take it. *)
Definition exclusive (owners : Owners) : Prop := forall u v s, owners !! u = Some s -> owners !! v = Some s -> u = v.
Definition allowed (owners : Owners) : Prop := forall u s, owners !! u = Some s -> u ∈ candidates s.
Definition owns (owners : Owners) (s : Slot) : Prop := exists u, owners !! u = Some s.

(** ** Failure: the devices seen are all taken, by slots with no other choice *)
Section Bounded.
Context (U : gset string).
Definition within (owners : Owners) : Prop := forall u s, owners !! u = Some s -> list_to_set (candidates s) ⊆ U.

(** What was seen between two points of a failed search. *)
Definition saturated (owners : Owners) (seen seen' : gset string) : Prop :=
  seen ⊆ seen' /\ forall u, u ∈ seen' -> u ∉ seen -> exists p, owners !! u = Some p /\ u ∈ U /\ list_to_set (candidates p) ⊆ seen'.

Lemma saturated_trans owners s1 s2 s3 : saturated owners s1 s2 -> saturated owners s2 s3 -> saturated owners s1 s3.
Proof.
  intros [H1 F1] [H2 F2]. split; [set_solver|]. intros u Hu Hn. destruct (decide (u ∈ s2)) as [Hs|Hs]; [|by apply F2].
  destruct (F1 u Hs Hn) as (p & Hp & HU & Hc). exists p. split_and!; [done..|set_solver].
Qed.

Lemma unseen_smaller (seen : gset string) u : u ∈ U -> u ∉ seen -> (size (U ∖ ({[u]} ∪ seen)) < size (U ∖ seen))%nat.
Proof. intros HU Hn. apply subset_size. set_solver. Qed.

Lemma place_fails fuel slot seen owners seen' owners' :
  place fuel slot seen owners = (false, seen', owners') -> (size (U ∖ seen) < fuel)%nat -> within owners -> list_to_set (candidates slot) ⊆ U ->
  owners' = owners /\ saturated owners seen seen' /\ list_to_set (candidates slot) ⊆ seen'.
Proof.
  revert slot seen owners seen' owners'. induction fuel as [|fuel IH]; intros slot seen owners seen' owners'; [cbn; lia|].
  cbn [place]. intros H Hf Hw HU. revert seen H Hf HU. induction (candidates slot) as [|u cs IHc]; intros seen H Hf HU; cbn [try_candidates] in H.
  { injection H as <- <-. split_and!; [done|split; [done|naive_solver]|set_solver]. }
  case_bool_decide as Hs.
  { destruct (IHc _ H Hf) as (E & Hsat & Hc); [set_solver|]. split_and!; [done|done|]. destruct Hsat as [Hsub _]. set_solver. }
  assert (HuU : u ∈ U) by set_solver. pose proof (unseen_smaller seen u HuU Hs) as Hlt.
  destruct (owners !! u) as [p|] eqn:Hp; [|done].
  destruct (place fuel p ({[u]} ∪ seen) owners) as [[[] s1] o1] eqn:E1; [done|].
  destruct (IH _ _ _ _ _ E1) as (-> & [Hsub1 Hsat1] & Hc1); [lia|done|by eapply Hw|].
  assert (Hstep : saturated owners seen s1).
  { split; [set_solver|]. intros v Hv Hn. destruct (decide (v = u)) as [->|]; [by exists p|]. apply Hsat1; set_solver. }
  destruct (IHc s1) as (E & Hsat & Hc); [done| |set_solver|].
  - assert (size (U ∖ s1) <= size (U ∖ seen))%nat; [|lia]. apply subseteq_size. destruct Hstep. set_solver.
  - split_and!; [done|by eapply saturated_trans|]. destruct Hsat. set_solver.
Qed.
End Bounded.

(** ** Success: one more slot is placed, the others keep a device *)
Lemma place_unchanged fuel slot seen owners seen' owners' :
  place fuel slot seen owners = (false, seen', owners') -> owners' = owners /\ seen ⊆ seen'.
Proof.
  revert slot seen owners seen' owners'. induction fuel as [|fuel IH]; intros slot seen owners seen' owners'; cbn [place]; [by intros [= <- <-]|].
  revert seen. induction (candidates slot) as [|u cs IHc]; intros seen; cbn [try_candidates]; [by intros [= <- <-]|].
  case_bool_decide; [apply IHc|]. destruct (owners !! u) as [p|]; [|done].
  destruct (place fuel p ({[u]} ∪ seen) owners) as [[[] s1] o1] eqn:E; [done|]. apply IH in E as [-> Hs].
  intros H'. destruct (IHc _ H') as [-> Hs']. split; [done|set_solver].
Qed.

(** What a successful search for [slot] changed. *)
Record placed (slot : Slot) (seen : gset string) (o o' : Owners) : Prop := {
  pl_seen : forall u, u ∈ seen -> o' !! u = o !! u;
  pl_slot : exists u, u ∉ seen /\ o' !! u = Some slot;
  pl_once : forall u v, u ∉ seen -> v ∉ seen -> o' !! u = Some slot -> o' !! v = Some slot -> u = v;
  pl_others : forall u v s, s <> slot -> o' !! u = Some s -> o' !! v = Some s -> u = v;
  pl_kept : forall s, s <> slot -> (owns o s <-> owns o' s);
  pl_allowed : allowed o';
}.

Lemma placed_free slot seen o u : exclusive o -> allowed o -> u ∉ seen -> o !! u = None -> u ∈ candidates slot ->
  (forall v, o !! v = Some slot -> v ∈ seen) -> placed slot seen o (<[u := slot]> o).
Proof.
  intros Hx Ha Hs Hu Hc Hown. split.
  - intros v Hv. rewrite lookup_insert_ne; [done|naive_solver].
  - exists u. by rewrite lookup_insert_eq.
  - intros v w Hv Hw. rewrite !lookup_insert_Some. naive_solver.
  - intros v w s Hne. rewrite !lookup_insert_Some. intros [[? <-]|[? Hv]] [[? E]|[? Hw]]; try done. by eapply Hx.
  - intros s Hne. split; intros [v Hv].
    + exists v. rewrite lookup_insert_ne; [done|]. naive_solver.
    + apply lookup_insert_Some in Hv as [[_ E]|[_ Hv]]; [done|by exists v].
  - intros v s. rewrite lookup_insert_Some. intros [[<- <-]|[_ Hv]]; [done|by apply Ha].
Qed.

Lemma placed_moved slot seen o o' u p : exclusive o -> o !! u = Some p -> u ∉ seen -> u ∈ candidates slot ->
  (forall v, o !! v = Some slot -> v ∈ seen) -> placed p ({[u]} ∪ seen) o o' -> placed slot seen o (<[u := slot]> o').
Proof.
  intros Hx Hu Hs Hc Hown [P1 (w & Hw & Hwp) P3 P4 P5 P6].
  assert (Hne : p <> slot) by (intros ->; apply Hs, Hown, Hu).
  assert (Hu' : o' !! u = Some p) by (rewrite P1 by set_solver; done).
  assert (Hslot : forall v, o' !! v = Some slot -> v ∈ seen).
  { intros v Hv. destruct (proj2 (P5 slot (not_eq_sym Hne)) (ex_intro _ v Hv)) as [v0 Hv0]. pose proof (Hown _ Hv0) as Hv0s.
    assert (o' !! v0 = Some slot) by (rewrite P1 by set_solver; done). by rewrite (P4 v v0 slot). }
  assert (Hp : forall v, o' !! v = Some p -> v <> u -> v ∉ {[u]} ∪ seen).
  { intros v Hv Hvu Hin. rewrite P1 in Hv by done. apply Hvu. by eapply Hx. }
  split.
  - intros v Hv. rewrite lookup_insert_ne by naive_solver. apply P1. set_solver.
  - exists u. by rewrite lookup_insert_eq.
  - intros v v' Hv Hv'. rewrite !lookup_insert_Some. intros [[-> _]|[_ H1]] [[-> _]|[_ H2]]; try done; exfalso; eauto.
  - intros v v' s Hsne. rewrite !lookup_insert_Some. intros [[_ E]|[Hv H1]] [[_ E']|[Hv' H2]]; try done.
    destruct (decide (s = p)) as [->|]; [|by eapply P4]. apply P3; [by apply Hp..|done|done].
  - intros s Hsne. destruct (decide (s = p)) as [->|Hsp].
    + split; [|by exists u]. intros _. exists w. rewrite lookup_insert_ne; [done|set_solver].
    + rewrite (P5 s Hsp). split; intros [v Hv].
      * exists v. rewrite lookup_insert_ne; [done|]. naive_solver.
      * apply lookup_insert_Some in Hv as [[_ E]|[_ Hv]]; [done|by exists v].
  - intros v s. rewrite lookup_insert_Some. intros [[<- <-]|[_ Hv]]; [done|by apply P6].
Qed.

Lemma place_succeeds fuel slot seen owners seen' owners' :
  place fuel slot seen owners = (true, seen', owners') -> exclusive owners -> allowed owners ->
  (forall u, owners !! u = Some slot -> u ∈ seen) -> placed slot seen owners owners'.
Proof.
  revert slot seen owners seen' owners'. induction fuel as [|fuel IH]; intros slot seen owners seen' owners'; cbn [place]; [done|].
  intros H Hx Ha Hown. assert (Hin : forall u, u ∈ candidates slot -> u ∈ candidates slot) by done. revert Hin seen H Hown.
  generalize (candidates slot) at 1 3 as cs.
  induction cs as [|u cs IHc]; intros Hin seen H Hown; cbn [try_candidates] in H; [done|].
  case_bool_decide as Hs; [apply IHc; [set_solver|done|done]|].
  destruct (owners !! u) as [p|] eqn:Hp.
  - destruct (place fuel p ({[u]} ∪ seen) owners) as [[[] s1] o1] eqn:E.
    + injection H as _ <-. apply (placed_moved _ _ _ _ _ p); try done; [set_solver|]. apply (IH _ _ _ _ _ E); try done.
      intros v Hv. rewrite (Hx v u p Hv Hp). set_solver.
    + apply place_unchanged in E as [-> Hsub]. assert (HP : placed slot s1 owners owners').
      { apply IHc; [set_solver|done|]. intros v Hv. apply Hsub, elem_of_union_r, Hown, Hv. }
      destruct HP as [P1 (w & Hw & Hws) P3 P4 P5 P6]. split; try done.
      * intros v Hv. apply P1. set_solver.
      * exists w. split; [set_solver|done].
      * intros v w' Hv Hw' Ev Ew. assert (Hnot : forall x, x ∉ seen -> owners' !! x = Some slot -> x ∉ s1).
        { intros x Hx1 Ex Hx2. rewrite P1 in Ex by done. by apply Hx1, Hown. }
        apply P3; try done; by apply Hnot.
  - injection H as _ <-. apply placed_free; try done. set_solver.
Qed.

(** ** All slots *)

(** A choice of distinct devices for the slots: what the search looks for. *)
Definition choice (slots : list Slot) (f : Slot -> string) : Prop :=
  (forall s, s ∈ slots -> f s ∈ candidates s) /\ forall s t, s ∈ slots -> t ∈ slots -> f s = f t -> s = t.

(** The slots placed so far own a device each. *)
Definition state_ok (done : list Slot) (o : Owners) : Prop := exclusive o /\ allowed o /\ forall s, owns o s <-> s ∈ done.

Lemma state_ok_empty : state_ok [] ∅.
Proof. split_and!; [intros u v s H; by rewrite lookup_empty in H|intros u s H; by rewrite lookup_empty in H|]. intros s. split; [intros [u H]; by rewrite lookup_empty in H|intros H; by apply elem_of_nil in H]. Qed.

Lemma state_ok_step fuel done slot o seen o' : state_ok done o -> slot ∉ done -> place fuel slot ∅ o = (true, seen, o') -> state_ok (done ++ [slot]) o'.
Proof.
  intros (Hx & Ha & Ho) Hn H. assert (HP : placed slot ∅ o o').
  { eapply place_succeeds; [done..|]. intros u Hu. exfalso. apply Hn, Ho. by exists u. }
  destruct HP as [_ (w & _ & Hw) P3 P4 P5 P6]. split_and!; [|done|].
  - intros u v s Hu Hv. destruct (decide (s = slot)) as [->|]; [apply P3; set_solver|by eapply P4].
  - intros s. rewrite elem_of_app, list_elem_of_singleton, <- Ho. destruct (decide (s = slot)) as [->|Hne].
    + split; [by right|by exists w].
    + rewrite <- (P5 s Hne). tauto.
Qed.

(** A failed search leaves more slots than devices they may take. *)
Lemma state_ok_stuck (U : gset string) fuel done slot rest o seen o' f : state_ok done o -> slot ∉ done -> (size U < fuel)%nat ->
  (forall s, s ∈ done ++ slot :: rest -> list_to_set (candidates s) ⊆ U) ->
  place fuel slot ∅ o = (false, seen, o') -> ~ choice (done ++ slot :: rest) f.
Proof.
  intros (Hx & Ha & Ho) Hn Hf HU H [Hc Hinj]. destruct (place_fails U _ _ _ _ _ _ H) as (-> & [_ Hsat] & Hslot).
  { by rewrite difference_empty_L. }
  { intros u s Hu. apply HU, elem_of_app. left. apply Ho. by exists u. }
  { apply HU. set_solver. }
  set (taken := omap (fun u => o !! u) (elements seen)).
  assert (Htaken : forall p, p ∈ taken -> p ∈ done /\ f p ∈ seen).
  { intros p Hp. apply list_elem_of_omap in Hp as (u & Hu & Eu). apply elem_of_elements in Hu.
    destruct (Hsat u Hu) as (p' & Hp' & _ & Hcp); [set_solver|]. simplify_eq. assert (p ∈ done) by (apply Ho; by exists u).
    split; [done|]. apply Hcp, elem_of_list_to_set, Hc. set_solver. }
  assert (Hlen : List.length taken = size seen /\ NoDup taken).
  { unfold taken. unfold size, set_size. cbn. clear Htaken. pose proof (NoDup_elements seen) as Hnd.
    assert (Hall : forall u, u ∈ elements seen -> exists p, o !! u = Some p) by (intros u Hu; apply elem_of_elements in Hu; destruct (Hsat u Hu) as (p & ? & _); [set_solver|by exists p]).
    revert Hnd Hall. induction (elements seen) as [|u us IH]; [split; [done|constructor]|]. intros Hnd Hall. apply NoDup_cons in Hnd as [Hu Hnd].
    destruct (Hall u) as [p Hp]; [left|]. destruct IH as [El Hl]; [done|intros v Hv; apply Hall; by right|].
    cbn. rewrite Hp. cbn. split; [by rewrite El|]. constructor; [|done]. intros Hin. apply list_elem_of_omap in Hin as (v & Hv & Ev).
    rewrite (Hx u v p Hp Ev) in Hu. done. }
  destruct Hlen as [El Hnd]. assert (Hs : slot ∉ taken) by (intros Hin; by apply Hn, Htaken).
  assert (Hinc : (list_to_set (map f (slot :: taken)) : gset string) ⊆ seen).
  { intros x Hx'. apply elem_of_list_to_set, list_elem_of_fmap in Hx' as (p & -> & Hp). apply elem_of_cons in Hp as [->|Hp]; [|by apply Htaken].
    apply Hslot, elem_of_list_to_set, Hc. set_solver. }
  apply subseteq_size in Hinc. rewrite size_list_to_set in Hinc.
  - rewrite length_map in Hinc. cbn in Hinc. lia.
  - apply (NoDup_fmap_2_strong f); [|by constructor]. intros p q Hp Hq. apply Hinj; rewrite elem_of_app, elem_of_cons.
    + apply elem_of_cons in Hp as [->|Hp]; [by right; left|left; by apply Htaken].
    + apply elem_of_cons in Hq as [->|Hq]; [by right; left|left; by apply Htaken].
Qed.

Lemma place_all_spec fuel slots : NoDup slots -> (size (universe slots) < fuel)%nat ->
  match place_all fuel slots ∅ with
  | Some o => state_ok slots o
  | None => forall f, ~ choice slots f
  end.
Proof.
  intros Hnd Hf. assert (HU : forall s, s ∈ slots -> list_to_set (candidates s) ⊆ universe slots).
  { intros s Hs u Hu. apply elem_of_list_to_set in Hu. apply elem_of_list_to_set, list_elem_of_In, in_concat.
    exists (candidates s). split; [apply in_map; by apply list_elem_of_In|by apply list_elem_of_In]. }
  revert Hf HU. generalize (universe slots) as U. intros U Hf HU.
  enough (G : forall todo done o, slots = done ++ todo -> state_ok done o ->
    match place_all fuel todo o with Some o' => state_ok slots o' | None => forall f, ~ choice slots f end)
    by (apply (G slots []); [done|apply state_ok_empty]).
  induction todo as [|slot todo IH]; intros dn o E Hok; cbn [place_all].
  - by rewrite E, app_nil_r.
  - assert (Hn : slot ∉ dn). { rewrite E in Hnd. apply NoDup_app in Hnd as (_ & Hd & _). intros Hin. apply (Hd _ Hin). left. }
    destruct (place fuel slot ∅ o) as [[[] seen] o'] eqn:Hp.
    + apply (IH (dn ++ [slot])); [by rewrite <- app_assoc|]. by eapply state_ok_step.
    + intros f. rewrite E. eapply state_ok_stuck; try done. intros s Hs. apply HU. by rewrite E.
Qed.
End Search.

(** ** [_assign_gpus] *)
Section Assign.
Context (gpu_uuids : string -> list string).

(** The slots of a request, [gpu_count] of each pool. *)
Definition slots_of (counts : gmap string Z) : list Slot :=
  concat (map (fun kv => map (pair kv.1) (seq 0 (Z.to_nat kv.2))) (map_to_list counts)).

(** [sorted(set(pools[slot[0]].gpu_uuids) - set(occupied))] *)
Definition free_gpus (occupied : gset string) (slot : Slot) : list string :=
  sorted_set (filter (fun u => u ∉ occupied) (gpu_uuids slot.1)).

(** [key=lambda s: (len(candidates[s]), s)] *)
Definition slot_le (occupied : gset string) (s t : Slot) : Prop :=
  let n := List.length (free_gpus occupied s) in let m := List.length (free_gpus occupied t) in
  (n < m)%nat \/ n = m /\ (str_lt s.1 t.1 \/ s.1 = t.1 /\ (s.2 <= t.2)%nat).
#[local] Instance slot_le_dec occupied : RelDecision (slot_le occupied).
Proof. intros s t. unfold slot_le, str_lt. apply _. Defined.

Definition gpus_of (owners : Owners) (pool_id : string) : list string :=
  sorted_set (omap (fun us => if String.eqb us.2.1 pool_id then Some us.1 else None) (map_to_list owners)).

Definition assign_gpus (counts : gmap string Z) (occupied : gset string) : option (gmap string (list string)) :=
  let slots := merge_sort (slot_le occupied) (slots_of counts) in
  owners ← place_all (free_gpus occupied) (S (size (universe (free_gpus occupied) slots))) slots ∅;
  Some (map_imap (fun pool_id _ => Some (gpus_of owners pool_id)) counts).

Lemma elem_of_slots counts s : s ∈ slots_of counts <-> exists n, counts !! s.1 = Some n /\ (s.2 < Z.to_nat n)%nat.
Proof.
  unfold slots_of. rewrite list_elem_of_In, in_concat. split.
  - intros (l & Hl & Hs). apply in_map_iff in Hl as ([k n] & <- & Hk). apply in_map_iff in Hs as (i & <- & Hi).
    apply in_seq in Hi. exists n. split; [|cbn in *; lia]. apply elem_of_map_to_list. by apply list_elem_of_In.
  - intros (n & Hn & Hi). exists (map (pair s.1) (seq 0 (Z.to_nat n))). split.
    + apply in_map_iff. exists (s.1, n). split; [done|]. by apply list_elem_of_In, elem_of_map_to_list.
    + apply in_map_iff. exists s.2. split; [by destruct s|]. apply in_seq. lia.
Qed.

Lemma slots_NoDup counts : NoDup (slots_of counts).
Proof.
  unfold slots_of. pose proof (NoDup_fst_map_to_list counts) as Hnd. induction (map_to_list counts) as [|[k n] l IH]; [constructor|].
  cbn in *. apply NoDup_cons in Hnd as [Hk Hnd]. apply NoDup_app. split_and!; [|intros s Hs Hin|by apply IH].
  - apply (NoDup_fmap_2 (pair k)), NoDup_ListNoDup, seq_NoDup.
  - apply Hk. apply list_elem_of_fmap in Hs as (i & -> & _). apply list_elem_of_In, in_concat in Hin as (l' & Hl' & Hi).
    apply in_map_iff in Hl' as ([k' n'] & <- & Hin). apply in_map_iff in Hi as (j & [= -> _] & _).
    apply list_elem_of_fmap. exists (k, n'). split; [done|]. by apply list_elem_of_In.
Qed.

Lemma set_insert_perm u l : u ∉ l -> set_insert u l ≡ₚ u :: l.
Proof.
  induction l as [|x l IH]; [done|]. intros Hu. apply not_elem_of_cons in Hu as [Hx Hu]. cbn.
  destruct (String.compare u x) eqn:E; [|done|].
  - by apply String.compare_eq_iff in E.
  - rewrite IH by done. apply Permutation_swap.
Qed.
Lemma sorted_set_perm l : NoDup l -> sorted_set l ≡ₚ l.
Proof.
  induction 1 as [|u l Hu Hnd IH]; [done|]. change (sorted_set (u :: l)) with (set_insert u (sorted_set l)).
  rewrite set_insert_perm by (by rewrite elem_of_sorted_set). by rewrite IH.
Qed.

Lemma elem_of_gpus owners p u : u ∈ gpus_of owners p <-> exists i, owners !! u = Some (p, i).
Proof.
  unfold gpus_of. rewrite elem_of_sorted_set, list_elem_of_omap. split.
  - intros ([v [q i]] & Hin & E). cbn in E. destruct (String.eqb q p) eqn:Eq; [|done]. injection E as ->.
    apply String.eqb_eq in Eq as ->. exists i. by apply elem_of_map_to_list.
  - intros [i Hi]. exists (u, (p, i)). rewrite elem_of_map_to_list. split; [done|]. cbn. by rewrite String.eqb_refl.
Qed.

(** The devices of a pool: as many as its slots. *)
Lemma gpus_count candidates owners counts p n : state_ok candidates (slots_of counts) owners -> counts !! p = Some n ->
  NoDup (gpus_of owners p) /\ List.length (gpus_of owners p) = Z.to_nat n.
Proof.
  intros (Hx & _ & Ho) Hn.
  set (sel := fun (us : string * Slot) => if String.eqb us.2.1 p then Some us.1 else None).
  set (idx := fun (us : string * Slot) => if String.eqb us.2.1 p then Some us.2.2 else None).
  assert (Hnd : NoDup (omap sel (map_to_list owners))).
  { pose proof (NoDup_fst_map_to_list owners) as H. induction (map_to_list owners) as [|[u [q i]] l IH]; [constructor|].
    cbn in *. apply NoDup_cons in H as [Hu H]. unfold sel at 1. cbn. destruct (String.eqb q p); [|by apply IH]. constructor; [|by apply IH].
    intros Hin. apply Hu. apply list_elem_of_omap in Hin as ([v [q' j]] & Hin & E). apply list_elem_of_fmap. exists (v, (q', j)).
    unfold sel in E. cbn in E. destruct (String.eqb q' p); [by injection E as ->|done]. }
  assert (Hperm : omap idx (map_to_list owners) ≡ₚ seq 0 (Z.to_nat n)).
  { apply NoDup_Permutation; [|apply NoDup_ListNoDup, seq_NoDup|].
    - clear Hnd. pose proof (NoDup_map_to_list owners) as H. assert (Hin : forall x, x ∈ map_to_list owners -> owners !! x.1 = Some x.2) by (intros [? ?]; apply elem_of_map_to_list).
      revert H Hin. induction (map_to_list owners) as [|[u [q i]] l IH]; [constructor|]. intros H Hin. apply NoDup_cons in H as [Hu H].
      cbn. unfold idx at 1. cbn. destruct (String.eqb q p) eqn:Eq; [|apply IH; [done|intros x Hx'; apply Hin; by right]].
      constructor; [|apply IH; [done|intros x Hx'; apply Hin; by right]]. intros Hi. apply list_elem_of_omap in Hi as ([v [q' j]] & Hv & E).
      unfold idx in E. cbn in E. destruct (String.eqb q' p) eqn:Eq'; [|done]. injection E as ->. apply String.eqb_eq in Eq, Eq'. subst q q'.
      assert (v = u) as ->; [|done]. apply (Hx _ _ (p, i)).
      + apply (Hin (v, (p, i))). by right.
      + apply (Hin (u, (p, i))). left.
    - intros i. rewrite list_elem_of_omap, list_elem_of_In, in_seq. split.
      + intros ([u [q j]] & Hin & E). unfold idx in E. cbn in E. destruct (String.eqb q p) eqn:Eq; [|done]. injection E as ->.
        apply String.eqb_eq in Eq as ->. apply elem_of_map_to_list in Hin.
        destruct (proj1 (elem_of_slots counts (p, i)) (proj1 (Ho (p, i)) (ex_intro _ u Hin))) as (m & Hm & Hi). cbn in *. simplify_eq. lia.
      + intros [_ Hi]. assert (Hs : (p, i) ∈ slots_of counts) by (apply elem_of_slots; exists n; split; [done|cbn; lia]).
        apply Ho in Hs as [u Hu]. exists (u, (p, i)). rewrite elem_of_map_to_list. split; [done|]. unfold idx. cbn. by rewrite String.eqb_refl. }
  assert (Hlen : List.length (omap sel (map_to_list owners)) = List.length (omap idx (map_to_list owners))).
  { clear. induction (map_to_list owners) as [|[u [q i]] l IH]; [done|]. cbn. unfold sel at 1, idx at 1. cbn. destruct (String.eqb q p); cbn; by rewrite ?IH. }
  pose proof (sorted_set_perm _ Hnd) as Hp. split.
  - change (NoDup (sorted_set (omap sel (map_to_list owners)))). by rewrite Hp.
  - change (List.length (sorted_set (omap sel (map_to_list owners))) = Z.to_nat n). rewrite Hp, Hlen, Hperm. apply length_seq.
Qed.

(** An exclusive placement of a request: distinct free devices of the pool of
    each slot. *)
Definition placement (counts : gmap string Z) (occupied : gset string) (f : Slot -> string) : Prop :=
  (forall p i n, counts !! p = Some n -> (i < Z.to_nat n)%nat -> f (p, i) ∈ gpu_uuids p /\ f (p, i) ∉ occupied) /\
  (forall s t, s ∈ slots_of counts -> t ∈ slots_of counts -> f s = f t -> s = t).

Lemma choice_placement occupied counts slots f : slots ≡ₚ slots_of counts ->
  choice (free_gpus occupied) slots f <-> placement counts occupied f.
Proof.
  intros Hp. unfold choice, placement. split.
  - intros [H1 H2]. split; [|intros s t Hs Ht; apply H2; by rewrite Hp]. intros p i n Hn Hi.
    assert (Hs : (p, i) ∈ slots) by (rewrite Hp; apply elem_of_slots; by exists n). specialize (H1 _ Hs).
    unfold free_gpus in H1. rewrite elem_of_sorted_set in H1. by apply list_elem_of_filter in H1 as [? ?].
  - intros [H1 H2]. split; [|intros s t Hs Ht; apply H2; by rewrite <- Hp]. intros [p i] Hs. rewrite Hp in Hs.
    apply elem_of_slots in Hs as (n & Hn & Hi). destruct (H1 p i n Hn Hi). unfold free_gpus. by rewrite elem_of_sorted_set, list_elem_of_filter.
Qed.

Lemma assign_gpus_spec counts occupied :
  match assign_gpus counts occupied with
  | Some r => exists owners, state_ok (free_gpus occupied) (slots_of counts) owners /\
                r = map_imap (fun pool_id _ => Some (gpus_of owners pool_id)) counts
  | None => forall f, ~ placement counts occupied f
  end.
Proof.
  unfold assign_gpus. set (slots := merge_sort (slot_le occupied) (slots_of counts)).
  assert (Hp : slots ≡ₚ slots_of counts) by apply merge_sort_Permutation.
  pose proof (place_all_spec (free_gpus occupied) (S (size (universe (free_gpus occupied) slots))) slots) as H.
  destruct (place_all _ _ slots ∅) as [owners|]; cbn.
  - exists owners. split; [|done]. destruct H as (H1 & H2 & H3); [rewrite Hp; apply slots_NoDup|lia|]. split_and!; [done..|].
    intros s. by rewrite H3, Hp.
  - intros f. rewrite <- (choice_placement occupied counts slots f Hp). apply H; [rewrite Hp; apply slots_NoDup|lia].
Qed.
End Assign.

(** What a pool is given. *)
Lemma assigned_at gpu_uuids counts occupied r p n : assign_gpus gpu_uuids counts occupied = Some r -> counts !! p = Some n ->
  exists l, r !! p = Some l /\ NoDup l /\ List.length l = Z.to_nat n /\ forall u, u ∈ l -> u ∈ gpu_uuids p /\ u ∉ occupied.
Proof.
  intros Hr Hn. pose proof (assign_gpus_spec gpu_uuids counts occupied) as H. rewrite Hr in H. destruct H as (owners & Hok & ->).
  exists (gpus_of owners p). rewrite map_lookup_imap, Hn. cbn. split; [done|].
  destruct (gpus_count _ _ _ _ _ Hok Hn) as [Hnd Hlen]. split_and!; [done..|]. intros u Hu. apply elem_of_gpus in Hu as [i Hi].
  destruct Hok as (_ & Ha & _). apply Ha in Hi. unfold free_gpus in Hi. rewrite elem_of_sorted_set in Hi. by apply list_elem_of_filter in Hi as [? ?].
Qed.
Lemma unassigned_at gpu_uuids counts occupied r p : assign_gpus gpu_uuids counts occupied = Some r -> counts !! p = None -> r !! p = None.
Proof.
  intros Hr Hn. pose proof (assign_gpus_spec gpu_uuids counts occupied) as H. rewrite Hr in H. destruct H as (owners & _ & ->).
  by rewrite map_lookup_imap, Hn.
Qed.

(** C31: GPUs are assigned exclusively, and whenever possible.  When
    [_assign_gpus] returns an assignment, each pool of the request has exactly
    the requested number of distinct devices, all advertised by the pool and
    not occupied, and no device is given to two pools; when it returns [None]
    there is no way to give every slot its own free device. *)
Theorem gpus_assigned gpu_uuids counts occupied :
  match assign_gpus gpu_uuids counts occupied with
  | Some r =>
      (forall p n, counts !! p = Some n -> exists l, r !! p = Some l /\ NoDup l /\ List.length l = Z.to_nat n /\
         forall u, u ∈ l -> u ∈ gpu_uuids p /\ u ∉ occupied) /\
      (forall p q l l' u, r !! p = Some l -> r !! q = Some l' -> u ∈ l -> u ∈ l' -> p = q)
  | None => forall f, ~ placement gpu_uuids counts occupied f
  end.
Proof.
  pose proof (assign_gpus_spec gpu_uuids counts occupied) as H. destruct (assign_gpus _ _ _) as [r|] eqn:Er; [|done]. split.
  - intros p n Hn. eapply assigned_at; [exact Er|done].
  - destruct H as (owners & Hok & ->). intros p q l l' u Hp Hq Hu Hu'. rewrite map_lookup_imap in Hp, Hq. destruct (counts !! p), (counts !! q); try done.
    cbn in *. simplify_eq. apply elem_of_gpus in Hu as [i Hi], Hu' as [j Hj]. congruence.
Qed.

(** Two pools that advertise the same device: a request of one GPU of each is
    placed by moving the first slot to its other device. *)
Definition shared_devices (pool_id : string) : list string :=
  if String.eqb pool_id "a" then ["g1"; "g2"] else if String.eqb pool_id "b" then ["g1"] else [].
Example shared_devices_placed : assign_gpus shared_devices {["a" := 1; "b" := 1]} ∅ = Some {["a" := ["g2"]; "b" := ["g1"]]}.
Proof. vm_compute. reflexivity. Qed.
Example shared_devices_refused : assign_gpus shared_devices {["a" := 1; "b" := 1]} {["g2"]} = None.
Proof. vm_compute. reflexivity. Qed.

Lemma gpus_assigned_witness : exists r, assign_gpus shared_devices {["a" := 1; "b" := 1]} ∅ = Some r /\ exists l, r !! "a" = Some l /\ List.length l = 1%nat.
Proof.
  exists {["a" := ["g2"]; "b" := ["g1"]]}. split; [vm_compute; reflexivity|].
  pose proof (gpus_assigned shared_devices {["a" := 1; "b" := 1]} ∅) as H. rewrite shared_devices_placed in H.
  destruct (proj1 H "a" 1 eq_refl) as (l & Hl & _ & Hn & _). exists l. split; [exact Hl|exact Hn].
Defined.
