(* ===== verification/JobSpec.v ===== *)
(** * Job specifications

    The values of [hf2l_jobs.domain]: resource requests, components,
    participants and the job itself with the validators of each model, the
    canonical form and digest of a specification, and artifact locations.  The
    types of the fields (pydantic's parsing of a document into them) are the
    types of the records; a value the validators refuse is [ValueError]. *)

From stdpp Require Import base gmap strings list.
From Stdlib Require Import ZArith Lia Ascii.
From S2P Require Import Prelude Json Order Domain Schemas.

(** ** What the manager calls and does not define: Unicode tables *)
Class Unicode := {
  str_lower : string -> string;        (* str.lower *)
  str_isalnum : string -> bool;        (* str.isalnum *)
  str_blank : string -> bool;          (* not s.strip() *)
}.

(** A dict, in insertion order. *)
Definition document : Type := list (string * json).

Definition invalid {A} (message : string) : result A := Err (ValueError message).
Definition value_when (c : bool) (message : string) : result unit := if c then Err (ValueError message) else Ok tt.

Lemma value_when_ok c msg u : value_when c msg = Ok u <-> c = false.
Proof. unfold value_when. destruct c, u; intuition congruence. Qed.

(** [[f(x) for x in l]] *)
Fixpoint collect {A B} (f : A -> result B) (l : list A) : result (list B) :=
  match l with
  | [] => Ok []
  | x :: l' => let? y := f x in let? ys := collect f l' in Ok (y :: ys)
  end.

Lemma collect_ok {A B} (f : A -> result B) l ys : collect f l = Ok ys <-> Forall2 (fun x y => f x = Ok y) l ys.
Proof.
  revert ys. induction l as [|x l IH]; intros ys; cbn.
  - split; [by intros [= <-]|by inversion 1].
  - destruct (f x) as [y|] eqn:E.
    + destruct (collect f l) as [zs|] eqn:El.
      * split; [intros [= <-]; constructor; [done|by apply IH]|]. inversion 1 as [|? y' ? ys' Ey Hl]; subst.
        apply IH in Hl. congruence.
      * split; [done|]. inversion 1 as [|? y' ? ys' Ey Hl]; subst. by apply IH in Hl.
    + split; [done|]. inversion 1; congruence.
Qed.

(** A pass that changes nothing. *)
Lemma collect_same {A} (f : A -> result A) l ys : (forall x y, f x = Ok y -> f y = Ok y) -> collect f l = Ok ys -> collect f ys = Ok ys.
Proof.
  intros Hf H. apply collect_ok in H. apply collect_ok. induction H as [|x y l ys Hxy H IH]; constructor; eauto.
Qed.

(** [math.isfinite(value)]: an integer is converted to a float first, which
    overflows from half an ulp past the largest one. *)
Definition isfinite (v : json) : result bool :=
  match v with
  | JFloat f => Ok (float_is_finite f)
  | JInt n => if Z.abs n <? 2 ^ 1024 - 2 ^ 970 then Ok true else Err OverflowError
  | _ => Err TypeError
  end.

(** ** Identifiers *)

(** [IDENTIFIER]: [[A-Za-z0-9][A-Za-z0-9_.-]{0,127}], the grammar of a kind. *)
Definition validate_identifier (value : string) : result string :=
  if kind_ok value then Ok value else invalid "Expected an approved identifier, not a path or URL".
Definition validate_optional (value : option string) : result (option string) :=
  match value with None => Ok None | Some v => let? v := validate_identifier v in Ok (Some v) end.

Lemma validate_identifier_ok v w : validate_identifier v = Ok w <-> kind_ok v = true /\ w = v.
Proof. unfold validate_identifier, invalid. destruct (kind_ok v); intuition congruence. Qed.
Lemma validate_optional_ok v w : validate_optional v = Ok w -> w = v /\ forall x, v = Some x -> kind_ok x = true.
Proof.
  unfold validate_optional. destruct v as [v|]; [|by intros [= <-]]. destruct (validate_identifier v) as [x|] eqn:E; [|done].
  apply validate_identifier_ok in E as [Hk ->]. intros [= <-]. split; [done|]. by intros ? [= <-].
Qed.

Definition name_start (c : ascii) : bool := is_lower c || is_upper c || char_eqb c "_"%char.
Definition python_name (s : string) : bool :=
  match s with
  | EmptyString => false
  | String c rest => name_start c && all_char (fun c => name_start c || is_digit c) rest
  end.
(** [PLUGIN]: dotted names, then possibly [:name]. *)
Definition plugin_ok (s : string) : bool :=
  match split_on ":"%char s with
  | [module] => forallb python_name (split_on "."%char module)
  | [module; entry] => forallb python_name (split_on "."%char module) && python_name entry
  | _ => false
  end.

(** ** Options *)
Definition FORBIDDEN_OPTIONS : list string :=
  ["command"; "commands"; "cmd"; "mount"; "mounts"; "host_path"; "docker_flags"; "executor_flags"; "runtime_flags";
   "privileged"; "network_mode"].
Definition SECRET_WORDS : list string :=
  ["password"; "passwd"; "secret"; "token"; "credentials"; "private_key"; "access_key"; "api_key"].
Definition JOINED_SECRETS : list string :=
  ["apikey"; "accesskey"; "privatekey"; "authorization"; "bearertoken"; "accesstoken"; "refreshtoken"].

(** [sub in s] *)
Definition contains (s sub : string) : bool := match String.index 0 sub s with Some _ => true | None => false end.

(** [re.sub(r"([a-z])([A-Z])", r"\1_\2", key)] *)
Fixpoint split_camel (s : string) : string :=
  match s with
  | String c ((String d _) as rest) =>
      if is_lower c && is_upper d then String c (String "_" (split_camel rest)) else String c (split_camel rest)
  | _ => s
  end.

(** [re.sub(r"[^a-z0-9]+", "_", s).strip("_")]: the runs of [[a-z0-9]] joined. *)
Definition plain_char (c : ascii) : bool := is_lower c || is_digit c.
Fixpoint plain_runs (s : string) (run : string) : list string :=
  match s with
  | EmptyString => if String.eqb run "" then [] else [run]
  | String c s' =>
      if plain_char c then plain_runs s' (run +:+ String c "")
      else if String.eqb run "" then plain_runs s' "" else run :: plain_runs s' ""
  end.

(** [SECRET_KEY.search(normal)]: a word between ends or underscores. *)
Definition secret_key (normal : string) : bool :=
  existsb (fun word => contains ("_" +:+ normal +:+ "_") ("_" +:+ word +:+ "_")) SECRET_WORDS.

Section Options.
Context {P : Platform} {U : Unicode}.

Definition normal_key (key : string) : string := join "_" (plain_runs (str_lower (split_camel key)) "").
Definition option_key_ok (key : string) : bool :=
  let normal := normal_key key in
  negb (mem_str normal FORBIDDEN_OPTIONS || secret_key normal
        || mem_str (join "" (split_on "_"%char normal)) JOINED_SECRETS).

(** [_freeze_json]: [room] is [9 - depth]. *)
Fixpoint freeze_json (room : nat) (value : json) : result json :=
  match room with
  | O => invalid "Options nesting exceeds eight levels"
  | S room =>
      match value with
      | JObj kvs =>
          let? kvs := collect (fun kv : string * json =>
            if String.eqb kv.1 "" || (128 <? py_len kv.1) then invalid "Option keys must be bounded strings"
            else if negb (option_key_ok kv.1) then invalid "Commands, mounts, executor flags and inline secrets are forbidden"
            else let? v := freeze_json room kv.2 in Ok (kv.1, v)) kvs in
          Ok (JObj kvs)
      | JList l => let? l := collect (freeze_json room) l in Ok (JList l)
      | JStr s => if 8192 <? py_len s then invalid "Option string exceeds size limit" else Ok value
      | JFloat f => if float_is_finite f then Ok value else invalid "Options must contain finite JSON values only"
      | JNull | JBool _ | JInt _ => Ok value
      end
  end.

(** [canonical_json] *)
Definition canonical_json (value : json) : result string :=
  match dumps float_repr value with
  | Some s => Ok s
  | None => invalid "Out of range float values are not JSON compliant"
  end.
(** [spec_hash] of a document *)
Definition spec_hash (value : json) : result string := let? s := canonical_json value in Ok (sha256_hex s).

(** [stable_key] of [hf2l_jobs.resources] *)
Definition stable_key (parts : list string) : string :=
  match canonical_json (json_strings parts) with Ok s => sha256_hex s | Err _ => "" end.

Definition immutable_options (options : document) : result document :=
  let? frozen := freeze_json 9 (JObj options) in
  let? bytes := canonical_json frozen in
  let? _ := value_when (65536 <? utf8_len bytes) "Options exceed 64 KiB" in
  as_dict frozen.
End Options.

(** ** The models *)
Record ResourceRequest := mkResourceRequest {
  rq_pool_id : string;
  rq_cpu_millicores : Z;
  rq_memory_bytes : Z;
  rq_disk_bytes : Z;
  rq_gpu_count : Z;
  rq_gpu_profile : option string;
  rq_sandbox_profile : string;
}.

Inductive ComponentRole := OWNER | PARTICIPANT | BUILD.
#[global] Instance component_role_eq_dec : EqDecision ComponentRole.
Proof. solve_decision. Defined.
Definition component_role_value (r : ComponentRole) : string :=
  match r with OWNER => "owner" | PARTICIPANT => "participant" | BUILD => "build" end.

Record ComponentSpec := mkComponentSpec {
  cs_component_id : string;
  cs_role : ComponentRole;
  cs_resources : ResourceRequest;
  cs_participant_id : option string;
}.

Inductive ParticipantMode := EXTERNAL | MANAGED_MODE.
#[global] Instance participant_mode_eq_dec : EqDecision ParticipantMode.
Proof. solve_decision. Defined.
Definition participant_mode_value (m : ParticipantMode) : string :=
  match m with EXTERNAL => "external" | MANAGED_MODE => "managed" end.

Record ParticipantSpec := mkParticipantSpec {
  ps_participant_id : string;
  ps_dataset_binding : string;
  ps_mode : ParticipantMode;
  ps_component_id : option string;
}.

Record JobSpec := mkJobSpec {
  js_project_id : string;
  js_name : string;
  js_source_id : string;
  js_source_commit : string;
  js_runtime_image : string;
  js_plugin : string;
  js_options : document;
  js_secret_refs : list (string * string);
  js_participants : list ParticipantSpec;
  js_components : list ComponentSpec;
  js_target_round : Z;
  js_max_duration_seconds : Z;
}.

Definition between (lo hi v : Z) : bool := (lo <=? v) && (v <=? hi).
Definition is_some {A} (o : option A) : bool := match o with Some _ => true | None => false end.

(** ** Validation of a model: its fields in order, then the model *)
Section Validators.
Context {P : Platform} {U : Unicode}.

Definition validate_resources (r : ResourceRequest) : result ResourceRequest :=
  let? pool_id := validate_identifier (rq_pool_id r) in
  let? _ := value_when (negb (between 1 1000000 (rq_cpu_millicores r))) "cpu_millicores" in
  let? _ := value_when (negb (between 1 (Z.shiftl 1 50) (rq_memory_bytes r))) "memory_bytes" in
  let? _ := value_when (negb (between 1 (Z.shiftl 1 50) (rq_disk_bytes r))) "disk_bytes" in
  let? _ := value_when (negb (between 0 1024 (rq_gpu_count r))) "gpu_count" in
  let? gpu_profile := validate_optional (rq_gpu_profile r) in
  let? sandbox_profile := validate_identifier (rq_sandbox_profile r) in
  let? _ := value_when (negb (Bool.eqb (negb (rq_gpu_count r =? 0)) (is_some gpu_profile)))
              "GPU requests require both count and approved profile" in
  Ok (mkResourceRequest pool_id (rq_cpu_millicores r) (rq_memory_bytes r) (rq_disk_bytes r) (rq_gpu_count r)
        gpu_profile sandbox_profile).

Definition validate_component (c : ComponentSpec) : result ComponentSpec :=
  let? component_id := validate_identifier (cs_component_id c) in
  let? resources := validate_resources (cs_resources c) in
  let? participant_id := validate_optional (cs_participant_id c) in
  let? _ := value_when (negb (Bool.eqb (bool_decide (cs_role c = PARTICIPANT)) (is_some participant_id)))
              "Only participant components require a participant identifier" in
  Ok (mkComponentSpec component_id (cs_role c) resources participant_id).

Definition validate_participant (p : ParticipantSpec) : result ParticipantSpec :=
  let? participant_id := validate_identifier (ps_participant_id p) in
  let? dataset_binding := validate_identifier (ps_dataset_binding p) in
  let? component_id := validate_optional (ps_component_id p) in
  let? _ := value_when (negb (Bool.eqb (bool_decide (ps_mode p = MANAGED_MODE)) (is_some component_id)))
              "Managed participants require a component binding; external participants cannot request one" in
  Ok (mkParticipantSpec participant_id dataset_binding (ps_mode p) component_id).

(** [display_name] *)
Definition display_name (value : string) : result string :=
  let? _ := value_when (str_blank value || any_char (fun c => (byte_of c <? 32) || (byte_of c =? 127)) value)
              "Job name cannot be empty or contain control characters" in
  Ok value.

(** [immutable_commit]: 40 or 64 hexadecimal digits, in lower case. *)
Definition ascii_lower_char (c : ascii) : ascii := if is_upper c then ascii_of_N (N_of_ascii c + 32) else c.
Definition ascii_lower (s : string) : string := String.string_of_list_ascii (map ascii_lower_char (chars s)).
Definition hex_any (c : ascii) : bool := is_digit c || in_range c 97 102 || in_range c 65 70.
Definition immutable_commit (value : string) : result string :=
  let? _ := value_when (negb (((utf8_len value =? 40) || (utf8_len value =? 64)) && all_char hex_any value))
              "Source commit must be an exact SHA-1 or SHA-256 object identifier" in
  Ok (ascii_lower value).

(** [approved_runtime] *)
Definition lower_hex (c : ascii) : bool := is_digit c || in_range c 97 102.
Definition image_digest (value : string) : bool :=
  startswith value "sha256:" && (utf8_len value =? 71) && all_char lower_hex (String.substring 7 64 value).
Definition approved_runtime (value : string) : result string :=
  if image_digest value then Ok value else validate_identifier value.

(** [plugin_identifier] *)
Definition plugin_identifier (value : string) : result string :=
  let? _ := value_when ((256 <? py_len value) || negb (plugin_ok value))
              "Plugin must be a Python module or module:entry identifier" in
  Ok value.

(** [approved_secret_refs] *)
Definition approved_secret_refs (refs : list (string * string)) : result (list (string * string)) :=
  let? _ := value_when (64 <? Z.of_nat (List.length refs)) "Too many secret references" in
  collect (fun kv : string * string => let? k := validate_identifier kv.1 in let? v := validate_identifier kv.2 in Ok (k, v)) refs.

(** The component identity reserved for an external participant. *)
Definition external_component (participant_id : string) : string :=
  "participant-" +:+ String.substring 0 40 (stable_key [participant_id]).

Definition find_component (spec : JobSpec) (id : option string) : option ComponentSpec :=
  List.find (fun c => bool_decide (Some (cs_component_id c) = id)) (js_components spec).
Definition find_participant (spec : JobSpec) (id : option string) : option ParticipantSpec :=
  List.find (fun p => bool_decide (Some (ps_participant_id p) = id)) (js_participants spec).

Definition managed_bound (spec : JobSpec) (p : ParticipantSpec) : bool :=
  match find_component spec (ps_component_id p) with
  | Some c => bool_decide (cs_role c = PARTICIPANT) && bool_decide (cs_participant_id c = Some (ps_participant_id p))
  | None => false
  end.
Definition component_bound (spec : JobSpec) (c : ComponentSpec) : bool :=
  match find_participant spec (cs_participant_id c) with
  | Some p => bool_decide (ps_mode p = MANAGED_MODE) && bool_decide (ps_component_id p = Some (cs_component_id c))
  | None => false
  end.

(** [validate_components] *)
Definition validate_components (spec : JobSpec) : result unit :=
  let? _ := value_when (negb (bool_decide (NoDup (map cs_component_id (js_components spec)))
                         && bool_decide (NoDup (map ps_participant_id (js_participants spec)))))
              "Component and participant identifiers must be unique" in
  let? _ := value_when (negb (Z.of_nat (List.length (List.filter (fun c => bool_decide (cs_role c = OWNER)) (js_components spec))) =? 1))
              "Exactly one owner component is required" in
  let? _ := value_when (existsb (fun p => bool_decide (ps_mode p = EXTERNAL)
                          && mem_str (external_component (ps_participant_id p)) (map cs_component_id (js_components spec)))
                          (js_participants spec))
              "Managed components cannot use a reserved external participant identity" in
  let? _ := value_when (existsb (fun p => bool_decide (ps_mode p = MANAGED_MODE) && negb (managed_bound spec p)) (js_participants spec))
              "Managed participant component must match its participant binding" in
  value_when (existsb (fun c => bool_decide (cs_role c = PARTICIPANT) && negb (component_bound spec c)) (js_components spec))
    "Participant component must have a matching managed participant".

(** [validate_managed_round_options] *)
Definition validate_managed_round_options (spec : JobSpec) : result unit :=
  match assoc "minimum_participants" (js_options spec) with
  | None => Ok tt
  | Some minimum =>
      match minimum with
      | JInt n =>
          let? _ := value_when (n <? 2) "minimum_participants must be an integer of at least two" in
          value_when (Z.of_nat (List.length (js_participants spec)) <? n) "minimum_participants exceeds the immutable participant set"
      | _ => invalid "minimum_participants must be an integer of at least two"
      end
  end.

(** [JobSpec.model_validate] *)
Definition validate_spec (s : JobSpec) : result JobSpec :=
  let? project_id := validate_identifier (js_project_id s) in
  let? _ := value_when (negb (between 1 200 (py_len (js_name s)))) "name" in
  let? name := display_name (js_name s) in
  let? source_id := validate_identifier (js_source_id s) in
  let? source_commit := immutable_commit (js_source_commit s) in
  let? runtime_image := approved_runtime (js_runtime_image s) in
  let? plugin := plugin_identifier (js_plugin s) in
  let? options := immutable_options (js_options s) in
  let? secret_refs := approved_secret_refs (js_secret_refs s) in
  let? _ := value_when (10000 <? Z.of_nat (List.length (js_participants s))) "participants" in
  let? participants := collect validate_participant (js_participants s) in
  let? _ := value_when (negb (between 1 1024 (Z.of_nat (List.length (js_components s))))) "components" in
  let? components := collect validate_component (js_components s) in
  let? _ := value_when (negb (between 1 1000000 (js_target_round s))) "target_round" in
  let? _ := value_when (negb (between 1 2592000 (js_max_duration_seconds s))) "max_duration_seconds" in
  let spec := mkJobSpec project_id name source_id source_commit runtime_image plugin options secret_refs
                participants components (js_target_round s) (js_max_duration_seconds s) in
  let? _ := validate_components spec in
  let? _ := validate_managed_round_options spec in
  Ok spec.

(** [to_dict], [digest] *)
Definition resources_dict (r : ResourceRequest) : json :=
  JObj [("pool_id", JStr (rq_pool_id r)); ("cpu_millicores", JInt (rq_cpu_millicores r)); ("memory_bytes", JInt (rq_memory_bytes r));
        ("disk_bytes", JInt (rq_disk_bytes r)); ("gpu_count", JInt (rq_gpu_count r)); ("gpu_profile", opt_str (rq_gpu_profile r));
        ("sandbox_profile", JStr (rq_sandbox_profile r))].
Definition component_dict (c : ComponentSpec) : json :=
  JObj [("component_id", JStr (cs_component_id c)); ("role", JStr (component_role_value (cs_role c)));
        ("resources", resources_dict (cs_resources c)); ("participant_id", opt_str (cs_participant_id c))].
Definition participant_dict (p : ParticipantSpec) : json :=
  JObj [("participant_id", JStr (ps_participant_id p)); ("dataset_binding", JStr (ps_dataset_binding p));
        ("mode", JStr (participant_mode_value (ps_mode p))); ("component_id", opt_str (ps_component_id p))].
Definition spec_dict (s : JobSpec) : json :=
  JObj [("project_id", JStr (js_project_id s)); ("name", JStr (js_name s)); ("source_id", JStr (js_source_id s));
        ("source_commit", JStr (js_source_commit s)); ("runtime_image", JStr (js_runtime_image s)); ("plugin", JStr (js_plugin s));
        ("options", JObj (js_options s)); ("secret_refs", JObj (map (fun kv => (kv.1, JStr kv.2)) (js_secret_refs s)));
        ("participants", JList (map participant_dict (js_participants s)));
        ("components", JList (map component_dict (js_components s)));
        ("target_round", JInt (js_target_round s)); ("max_duration_seconds", JInt (js_max_duration_seconds s))].
Definition digest (s : JobSpec) : result string := spec_hash (spec_dict s).
End Validators.

(** ** [JobState] *)
Inductive JobState :=
  | QUEUED | PROVISIONING | STARTING | RUNNING | RECONCILING | NEEDS_ATTENTION | CANCELLING
  | SUCCEEDED | JOB_FAILED | JOB_CANCELLED.
#[global] Instance job_state_eq_dec : EqDecision JobState.
Proof. solve_decision. Defined.
Definition job_state_value (s : JobState) : string :=
  match s with
  | QUEUED => "QUEUED" | PROVISIONING => "PROVISIONING" | STARTING => "STARTING" | RUNNING => "RUNNING"
  | RECONCILING => "RECONCILING" | NEEDS_ATTENTION => "NEEDS_ATTENTION" | CANCELLING => "CANCELLING"
  | SUCCEEDED => "SUCCEEDED" | JOB_FAILED => "FAILED" | JOB_CANCELLED => "CANCELLED"
  end.
(** [TERMINAL_STATES] *)
Definition job_terminal (s : JobState) : bool :=
  match s with SUCCEEDED | JOB_FAILED | JOB_CANCELLED => true | _ => false end.

(** ** [ArtifactLocator] *)
Inductive LocatorKind := EXCHANGE | LOCAL.
#[global] Instance locator_kind_eq_dec : EqDecision LocatorKind.
Proof. solve_decision. Defined.
Record ArtifactLocator := mkArtifactLocator {
  al_kind : LocatorKind;
  al_space_id : option string;
  al_record_id : option string;
  al_attachment_id : option string;
  al_resource_id : option string;
  al_relative_path : option string;
}.

(** [confined_relative_path] *)
Definition relative_path_ok (value : string) : bool :=
  negb ((1024 <? py_len value) || String.eqb value "" || startswith value "/"
        || any_char (fun c => char_eqb c "\"%char) value || any_char (fun c => byte_of c <? 32) value)
  && negb ((64 <? Z.of_nat (List.length (split_on "/"%char value)))
           || existsb (fun piece => mem_str piece [""; "."; ".."]) (split_on "/"%char value)).
Definition confined_relative_path (value : option string) : result (option string) :=
  match value with
  | None => Ok None
  | Some v => if relative_path_ok v then Ok value
              else invalid "Artifact location cannot traverse outside its owned resource"
  end.

Definition present (o : option string) : bool := match o with Some s => negb (String.eqb s "") | None => false end.
Definition validate_locator (l : ArtifactLocator) : result ArtifactLocator :=
  let? space_id := validate_optional (al_space_id l) in
  let? record_id := validate_optional (al_record_id l) in
  let? attachment_id := validate_optional (al_attachment_id l) in
  let? resource_id := validate_optional (al_resource_id l) in
  let? relative_path := confined_relative_path (al_relative_path l) in
  let exchange := [space_id; record_id; attachment_id] in
  let local := [resource_id; relative_path] in
  let? _ := value_when (bool_decide (al_kind l = EXCHANGE) && (negb (forallb present exchange) || existsb present local))
              "Exchange artifacts require only space, record and attachment identifiers" in
  let? _ := value_when (bool_decide (al_kind l = LOCAL) && (negb (forallb present local) || existsb present exchange))
              "Local artifacts require only an owned resource identifier and relative path" in
  Ok (mkArtifactLocator (al_kind l) space_id record_id attachment_id resource_id relative_path).

(** [to_dict]: [exclude_none=True] *)
Definition locator_dict (l : ArtifactLocator) : document :=
  [("kind", JStr (match al_kind l with EXCHANGE => "exchange" | LOCAL => "local" end))] ++
  concat (map (fun kv => match kv.2 with Some v => [(kv.1, JStr v)] | None => [] end)
    [("space_id", al_space_id l); ("record_id", al_record_id l); ("attachment_id", al_attachment_id l);
     ("resource_id", al_resource_id l); ("relative_path", al_relative_path l)]).
