(* ===== verification/NodeAgent.v ===== *)
(** * The node agent

    [hf2l_jobs.node_agent.NodeAgent] and the data it exchanges with an executor
    ([hf2l_jobs.executor]): the durable ledger of a node -- executions, fences
    and shared inputs --, the leases, and the operations that reserve, start,
    stop, collect, release and purge an execution.  The agent's threads share
    the ledger: a step of an operation under [self.lock] is atomic, and what
    the other threads do between two steps is a parameter, as is when the
    process dies.  The calls of the executor are recorded. *)

From stdpp Require Import base gmap strings list.
From Stdlib Require Import ZArith Lia QArith Ascii SpecFloat.
From S2P Require Import Prelude Json Domain Schemas JobSpec.
Open Scope Z_scope.
Open Scope py_scope.

(** ** Identities, limits and specifications *)
Record ExecutionIdentity := mkIdentity {
  job_id : string;
  attempt_id : string;
  component_id : string;
  epoch : Z;
}.
#[global] Instance identity_eq_dec : EqDecision ExecutionIdentity.
Proof. solve_decision. Defined.

Definition refused {A} (code : string) : result A := Err (ExecutorRefused code).
Definition refused_when (c : bool) (code : string) : result unit := if c then refused code else Ok tt.

(** [ExecutionIdentity.__post_init__] *)
Definition validate_identity (i : ExecutionIdentity) : result unit :=
  let? _ := refused_when (negb (forallb kind_ok [job_id i; attempt_id i; component_id i])) "invalid_identity" in
  refused_when (epoch i <? 1) "invalid_epoch".

Definition identity_dict (i : ExecutionIdentity) : json :=
  JObj [("job_id", JStr (job_id i)); ("attempt_id", JStr (attempt_id i)); ("component_id", JStr (component_id i)); ("epoch", JInt (epoch i))].

Record ResourceLimits := mkLimits {
  cpu_millis : Z;
  memory_bytes : Z;
  disk_bytes : Z;
  pids : Z;
  io_bps : Z;
  gpus : Z;
}.

(** [ResourceLimits.__post_init__] *)
Definition validate_limits (r : ResourceLimits) : result unit :=
  let? _ := refused_when (existsb (fun v => v <=? 0) [cpu_millis r; memory_bytes r; disk_bytes r; pids r; io_bps r]) "invalid_resources" in
  let? _ := refused_when ((128 <? pids r) || (16 * 1024 * 1024 <? io_bps r)) "unsupported_profile" in
  refused_when (negb (gpus r =? 0)) "unsupported_profile".

Definition limits_dict (r : ResourceLimits) : json :=
  JObj [("cpu_millis", JInt (cpu_millis r)); ("memory_bytes", JInt (memory_bytes r)); ("disk_bytes", JInt (disk_bytes r));
        ("pids", JInt (pids r)); ("io_bps", JInt (io_bps r)); ("gpus", JInt (gpus r))].

(** Numbers whose Python type is not fixed are documents: an [int] and the
    [float] of the same value are serialized differently. *)
Record ExecutionSpec := mkExecutionSpec {
  identity : ExecutionIdentity;
  spec_image_digest : string;
  source_path : string;
  state_path : string;
  argv : list string;
  proxy_endpoint : option string;
  spec_resources : ResourceLimits;
  lease_seconds : json;
  spec_pool_id : string;
  spec_node_id : string;
  spec_deadline : json;
  config_path : option string;
  profile : string;
  role : string;
  secret_path : option string;
  dataset_binding_id : option string;
  spec_participant_id : option string;
  build_input_path : option string;
}.

(** The value of a finite number. *)
Definition number_value (v : json) : option Q :=
  match exact_number v with Some (m, e) => Some (Qmult (inject_Z m) (Qpower (inject_Z 2) e)) | None => None end.

(** [isinstance(v, bool) or not isinstance(v, (int, float)) or not 0 < v <= 300] *)
Definition lease_invalid (v : json) : bool :=
  is_bool v || match number_value v with Some q => negb (negb (Qle_bool q 0) && Qle_bool q 300) | None => true end.

(** The check of a deadline that is not [None]. *)
Definition deadline_invalid (v : json) : result bool :=
  match v with
  | JInt _ | JFloat _ =>
      let? finite := isfinite v in
      Ok (negb finite || match number_value v with Some q => Qle_bool q 0 | None => true end)
  | _ => Ok true
  end.

(** [_DIGEST] and [_IMAGE_ID] *)
Definition reference_char (c : ascii) : bool :=
  is_alnum c || char_eqb c "."%char || char_eqb c "/"%char || char_eqb c ":"%char || char_eqb c "_"%char || char_eqb c "-"%char.
Definition pinned_image (s : string) : bool :=
  image_digest s
  || match split_on "@"%char s with
     | [name; digest] => negb (String.eqb name "") && all_char reference_char name && image_digest digest
     | _ => false
     end.

Definition WORKER_ARGV : list string := ["python"; "-m"; "hf2l_jobs.runtime"; "--config"; "/run/hf2l/runtime.json"].

(** [ExecutionSpec.__post_init__] *)
Definition validate_execution (s : ExecutionSpec) : result unit :=
  let? _ := refused_when (negb (pinned_image (spec_image_digest s))) "image_not_pinned" in
  let? _ := refused_when (negb (bool_decide (argv s = WORKER_ARGV))) "invalid_invocation" in
  let? _ := refused_when (lease_invalid (lease_seconds s)) "invalid_lease" in
  let? bad := (if is_none (spec_deadline s) then Ok false else deadline_invalid (spec_deadline s)) in
  let? _ := refused_when bad "invalid_deadline" in
  let? _ := refused_when (negb (mem_str (role s) ["owner"; "client"; "build"; "init"])) "invalid_invocation" in
  let? _ := refused_when (negb (present (proxy_endpoint s)) && negb (String.eqb (role s) "build")) "missing_proxy" in
  let? _ := refused_when (String.eqb (role s) "build" && (present (proxy_endpoint s) || present (secret_path s)
                          || present (dataset_binding_id s) || present (build_input_path s))) "unsafe_proxy" in
  let? _ := refused_when (present (dataset_binding_id s) && (negb (String.eqb (role s) "client") || negb (present (spec_participant_id s))))
              "unsafe_dataset" in
  refused_when (negb (String.eqb (profile s) "runsc-cpu-v1")) "unsupported_profile".

(** [asdict(spec)] *)
Definition execution_dict (s : ExecutionSpec) : json :=
  JObj [("identity", identity_dict (identity s)); ("image_digest", JStr (spec_image_digest s)); ("source_path", JStr (source_path s));
        ("state_path", JStr (state_path s)); ("argv", json_strings (argv s)); ("proxy_endpoint", opt_str (proxy_endpoint s));
        ("resources", limits_dict (spec_resources s)); ("lease_seconds", lease_seconds s); ("pool_id", JStr (spec_pool_id s));
        ("node_id", JStr (spec_node_id s)); ("deadline", spec_deadline s); ("config_path", opt_str (config_path s));
        ("profile", JStr (profile s)); ("role", JStr (role s)); ("secret_path", opt_str (secret_path s));
        ("dataset_binding_id", opt_str (dataset_binding_id s)); ("participant_id", opt_str (spec_participant_id s));
        ("build_input_path", opt_str (build_input_path s))].

Record Reservation := mkReservation {
  rv_identity : ExecutionIdentity;
  rv_acknowledged : bool;
  rv_node_id : string;
  rv_state : string;
}.

(** A [RuntimeObservation]; [ob_report] holds the fields the agent only
    passes on. *)
Record Observation := mkObserved {
  ob_identity : ExecutionIdentity;
  ob_state : string;
  ob_termination_confirmed : bool;
  ob_details : json;
  ob_report : json;
}.
Definition observation (i : ExecutionIdentity) (state : string) (termination_confirmed : bool) (details : list (string * json)) : Observation :=
  mkObserved i state termination_confirmed (JObj details) JNull.

(** ** The ledger *)

(** A row of [executions].  The lease and the deadline are [REAL]s. *)
Record Execution := mkExecution {
  x_job_id : string;
  x_attempt_id : string;
  x_component_id : string;
  x_epoch : Z;
  x_spec : string;
  x_state : string;
  x_cpu_millis : Z;
  x_memory_bytes : Z;
  x_disk_bytes : Z;
  x_lease_until : Q;
  x_deadline : option Q;
  x_boot_id : string;
  x_stopped : bool;
  x_disk_released : bool;
  x_retained_output_bytes : Z;
  x_auxiliary_bytes : Z;
  x_executor_absent : bool;
}.
#[global] Instance eta_Execution : Eta Execution := fun r =>
  mkExecution (x_job_id r) (x_attempt_id r) (x_component_id r) (x_epoch r) (x_spec r) (x_state r) (x_cpu_millis r) (x_memory_bytes r)
    (x_disk_bytes r) (x_lease_until r) (x_deadline r) (x_boot_id r) (x_stopped r) (x_disk_released r) (x_retained_output_bytes r)
    (x_auxiliary_bytes r) (x_executor_absent r).

(** The three tables: [executions] by key, [fences] and [shared_auxiliary] by
    job and component. *)
Record Ledger := mkLedger {
  executions : gmap string Execution;
  fences : gmap (string * string) Z;
  shared_auxiliary : gmap (string * string) Z;
}.
#[global] Instance eta_Ledger : Eta Ledger := fun r => mkLedger (executions r) (fences r) (shared_auxiliary r).
Definition empty_ledger : Ledger := mkLedger ∅ ∅ ∅.

Definition component_of (i : ExecutionIdentity) : string * string := (job_id i, component_id i).
Definition row_component (r : Execution) : string * string := (x_job_id r, x_component_id r).
(** [_identity] *)
Definition row_identity (r : Execution) : ExecutionIdentity := mkIdentity (x_job_id r) (x_attempt_id r) (x_component_id r) (x_epoch r).

(** [state != 'RELEASED'] *)
Definition unreleased (r : Execution) : bool := negb (String.eqb (x_state r) "RELEASED").
Definition state_in (r : Execution) (l : list string) : bool := mem_str (x_state r) l.
Definition of_component (c : string * string) (r : Execution) : bool := bool_decide (row_component r = c).
(** [SELECT 1 FROM executions WHERE ...] finds a row. *)
Definition some_row (p : Execution -> bool) (d : Ledger) : bool := existsb (fun kv => p kv.2) (map_to_list (executions d)).

Definition EXECUTION_STORAGE_HEADROOM_BYTES : Z := 4 * 1024 * 1024.
Definition execution_storage_budget_bytes (disk_bytes : Z) : result Z :=
  if disk_bytes <=? 0 then refused "invalid_resources" else Ok (2 * disk_bytes + EXECUTION_STORAGE_HEADROOM_BYTES).

(** The sums the agent selects: compute of what is not released, and storage. *)
Definition used_cpu (d : Ledger) : Z := sum_map (fun r => if unreleased r then x_cpu_millis r else 0) (executions d).
Definition used_memory (d : Ledger) : Z := sum_map (fun r => if unreleased r then x_memory_bytes r else 0) (executions d).
Definition row_storage (r : Execution) : Z :=
  (if x_disk_released r then 0 else x_disk_bytes r * 2 + EXECUTION_STORAGE_HEADROOM_BYTES) + x_auxiliary_bytes r.
Definition storage_usage (d : Ledger) : Z := sum_map row_storage (executions d) + sum_map id (shared_auxiliary d).

(** ** The agent and its site *)

(** What the constructor keeps. *)
Record Agent := mkAgent {
  node_id : string;
  pool_id : string;
  capacity : ResourceLimits;
  boot_id : string;
}.

Inductive Call := CallReserve | CallStart | CallInspect | CallStop | CallCollect | CallRelease | CallPurge | CallAbsent.
#[global] Instance call_eq_dec : EqDecision Call.
Proof. solve_decision. Defined.

(** What is recorded of the executor: that it is called, and the ledger then;
    that it answers, and whether the answer is the confirmation of what was
    asked. *)
Inductive Event :=
  | Called (c : Call) (i : ExecutionIdentity) (at_ledger : Ledger)
  | Answered (c : Call) (i : ExecutionIdentity) (confirmed : bool).

(** The guards are held by execution key or component key. *)
Inductive GuardKind := EXECUTION_GUARD | COMPONENT_GUARD.
#[global] Instance guard_kind_eq_dec : EqDecision GuardKind.
Proof. solve_decision. Defined.
Definition Guard : Type := GuardKind * string.

(** The world of one thread: the ledger and the record it shares with the
    others, the guards it holds, whether it holds [self.lock], and the number
    of its next call out. *)
Record Node := mkNode {
  nd_ledger : Ledger;
  nd_calls : list Event;
  nd_held : list Guard;
  nd_locked : bool;
  nd_tick : N;
}.
#[global] Instance eta_Node : Eta Node := fun r => mkNode (nd_ledger r) (nd_calls r) (nd_held r) (nd_locked r) (nd_tick r).

(** The executor, at the [n]-th call out.  [has_confirm_absent] and
    [has_qualify_health] say whether it has these methods. *)
Class Executor := {
  ex_reserve : N -> ExecutionSpec -> result bool;
  ex_start : N -> ExecutionIdentity -> result Observation;
  ex_inspect : N -> ExecutionIdentity -> result Observation;
  ex_stop : N -> ExecutionIdentity -> Z -> result Observation;
  ex_collect : N -> ExecutionIdentity -> result (list (string * Z));
  ex_release : N -> ExecutionIdentity -> result bool;
  ex_purge : N -> ExecutionIdentity -> result bool;
  ex_read_logs : N -> ExecutionIdentity -> Z -> Z -> result json;
  ex_read_artifact : N -> ExecutionIdentity -> string -> Z -> result string;
  ex_reconciliation_root : N -> ExecutionIdentity -> result string;
  has_confirm_absent : bool;
  ex_confirm_absent : N -> ExecutionIdentity -> result bool;
  has_qualify_health : bool;
  ex_qualify_health : N -> result unit;
}.

(** The host: the monotonic clock of each boot, the wall clock, the addition
    of floats, the files of the guards, when the process dies, and what the
    other threads do to the ledger and the executor between two steps. *)
Class Host := {
  monotonic : string -> N -> Q;
  wall_clock : N -> Q;
  float_add : Q -> Q -> Q;
  guard_file : N -> result unit;
  dies : N -> bool;
  others : list Guard -> N -> Ledger * list Event -> Ledger * list Event;
}.

(** [a < b] of floats *)
Definition Qlt_bool (a b : Q) : bool := negb (Qle_bool b a).

Section Agent.
Context {P : Platform} {X : Executor} {H : Host}.

(** [identity.key] *)
Definition key (i : ExecutionIdentity) : string :=
  match canonical_json (identity_dict i) with Ok raw => String.substring 0 32 (sha256_hex raw) | Err _ => "" end.
(** The name of the component's guard. *)
Definition component_key (c : string * string) : string :=
  match canonical_json (JList [JStr c.1; JStr c.2]) with Ok raw => String.substring 0 32 (sha256_hex raw) | Err _ => "" end.

(** ** Steps *)

(** One call out. *)
Definition ask {A} (answer : N -> A) : M Node A := fun w => (Ok (answer (nd_tick w)), w <| nd_tick := (nd_tick w + 1)%N |>).

(** Between two steps the process may die, and the other threads run unless
    this one holds [self.lock]. *)
Definition preempted : M Node unit := fun w =>
  let w' := w <| nd_tick := (nd_tick w + 1)%N |> in
  if dies (nd_tick w) then (Err Killed, w')
  else if nd_locked w then (Ok tt, w')
  else let '(d, calls) := others (nd_held w) (nd_tick w) (nd_ledger w, nd_calls w) in
       (Ok tt, w' <| nd_ledger := d |> <| nd_calls := calls |>).

(** [with self.lock: body] *)
Definition locked {A} (body : M Node A) : M Node A :=
  let* entered := gets nd_locked in
  if entered then body
  else
    preempted ;;
    modify (fun w => w <| nd_locked := true |>) ;;
    (fun w => let (r, w') := body w in (r, w' <| nd_locked := false |>)).

(** [BEGIN IMMEDIATE] ... [COMMIT], or [ROLLBACK] and the exception. *)
Definition immediate {A} (body : M Node A) : M Node A := fun w =>
  match body w with
  | (Ok a, w') => (Ok a, w')
  | (Err e, w') => (Err e, w' <| nd_ledger := nd_ledger w |>)
  end.

Definition refuse {A} (code : string) : M Node A := throw (ExecutorRefused code).
Definition refuse_if (c : bool) (code : string) : M Node unit := throw_if c (ExecutorRefused code).
Definition uncertain_if (c : bool) : M Node unit := throw_if c UncertainExecution.

(** [except BaseException: handler; raise] *)
Definition on_error {A} (m : M Node A) (handler : M Node unit) : M Node A :=
  catch m (fun e => if is_exception e then handler ;; throw e else throw e).

(** A call of the executor for an identity. *)
Definition record_event (e : Event) : M Node unit := modify (fun w => w <| nd_calls ::= cons e |>).
Definition executor {A} (c : Call) (i : ExecutionIdentity) (answer : N -> result A) (confirmed : A -> bool) : M Node A :=
  preempted ;;
  let* d := gets nd_ledger in
  record_event (Called c i d) ;;
  let* r := ask answer in
  match r with
  | Ok a => record_event (Answered c i (confirmed a)) ;; ret a
  | Err e => throw e
  end.

(** [_durable_guard]: a guard the thread holds already is entered again. *)
Definition durable_guard {A} (g : Guard) (body : M Node A) : M Node A :=
  let* held := gets nd_held in
  if decide (g ∈ held) then body
  else
    preempted ;;
    let* opened := ask guard_file in
    lift opened ;;
    modify (fun w => w <| nd_held ::= cons g |>) ;;
    (fun w => let (r, w') := body w in (r, w' <| nd_held := held |>)).
Definition operation_lock {A} (i : ExecutionIdentity) (body : M Node A) : M Node A := durable_guard (EXECUTION_GUARD, key i) body.
Definition component_lock {A} (i : ExecutionIdentity) (body : M Node A) : M Node A :=
  durable_guard (COMPONENT_GUARD, component_key (component_of i)) body.

(** ** Statements on the ledger *)

(** [UPDATE executions SET ... WHERE execution_key=?]: the index
    [active_component] admits one unreleased row of a component. *)
Definition update_row (k : string) (f : Execution -> Execution) : M Node unit :=
  let* d := gets nd_ledger in
  match executions d !! k with
  | None => ret tt
  | Some r =>
      let r' := f r in
      throw_if (unreleased r' && existsb (fun kv => negb (String.eqb kv.1 k) && of_component (row_component r') kv.2 && unreleased kv.2)
                                   (map_to_list (executions d))) IntegrityError ;;
      modify (fun w => w <| nd_ledger ::= (fun d => d <| executions ::= <[k := r']> |>) |>)
  end.
Definition set_state (i : ExecutionIdentity) (state : string) : M Node unit := update_row (key i) (fun r => r <| x_state := state |>).
(** The update of the handlers, under the lock. *)
Definition quarantine (i : ExecutionIdentity) : M Node unit := locked (set_state i "QUARANTINED").

(** [_row] *)
Definition row (i : ExecutionIdentity) (allow_stale : bool) : M Node Execution :=
  let* d := gets nd_ledger in
  match executions d !! key i with
  | None => refuse "missing_reservation"
  | Some r =>
      refuse_if (negb allow_stale && negb (match fences d !! component_of i with Some e => e =? epoch i | None => false end)) "stale_epoch" ;;
      ret r
  end.

(** [_lease_valid] *)
Definition lease_valid (self : Agent) (r : Execution) : M Node bool :=
  if negb (String.eqb (x_boot_id r) (boot_id self)) then ret false
  else
    let* now := ask (monotonic (boot_id self)) in
    if negb (Qlt_bool now (x_lease_until r)) then ret false
    else match x_deadline r with
         | None => ret true
         | Some deadline => let* wall := ask wall_clock in ret (Qlt_bool wall deadline)
         end.

(** [_allow_launch] *)
Definition allow_launch (self : Agent) (i : ExecutionIdentity) : M Node bool :=
  catch (locked (let* r := row i false in
                 let* valid := lease_valid self r in
                 ret (valid && negb (state_in r ["STOPPED"; "QUARANTINED"; "RELEASED"]))))
    (fun e => match e with ExecutorRefused _ => ret false | _ => throw e end).

(** ** Absence and purging of components *)

(** [confirm_absent] *)
Definition confirm_absent (i : ExecutionIdentity) : M Node bool :=
  component_lock i (operation_lock i (
    let* unknown := locked (
      let* d := gets nd_ledger in
      ret (negb (is_some (executions d !! key i))
           && negb (some_row (fun r => of_component (component_of i) r && unreleased r) d))) in
    if negb unknown || negb has_confirm_absent then ret false
    else catch (executor CallAbsent i (fun n => ex_confirm_absent n i) id)
           (fun e => match e with
                     | ExecutorRefused _ | UncertainExecution | OSError => ret false
                     | _ => if is_value_error e then ret false else throw e
                     end))).

(** [component_purge_allowed] *)
Definition component_purge_allowed (i : ExecutionIdentity) : M Node bool :=
  locked (
    let* _ := row i true in
    let* d := gets nd_ledger in
    ret (some_row (of_component (component_of i)) d
         && negb (some_row (fun r => of_component (component_of i) r && unreleased r) d))).

(** [component_purge_guard] around the deletions of its caller *)
Definition component_purge_guard {A} (i : ExecutionIdentity) (body : M Node A) : M Node A :=
  component_lock i (
    let* allowed := component_purge_allowed i in
    refuse_if (negb allowed) "runtime_active" ;;
    body).

(** ** Storage *)
Definition storage_usage_bytes : M Node Z := locked (gets (fun w => storage_usage (nd_ledger w))).

(** [charge_auxiliary_bytes] *)
Definition charge_auxiliary_bytes (self : Agent) (i : ExecutionIdentity) (total_bytes : Z) : M Node bool :=
  refuse_if (total_bytes <? 0) "invalid_resources" ;;
  locked (immediate (
    let* r := row i false in
    refuse_if (state_in r ["RELEASED"; "STOPPED"; "QUARANTINED"] || x_disk_released r) "invalid_execution_state" ;;
    if total_bytes <=? x_auxiliary_bytes r then ret true
    else
      let* d := gets nd_ledger in
      refuse_if (disk_bytes (capacity self) <? storage_usage d + total_bytes - x_auxiliary_bytes r) "capacity" ;;
      update_row (key i) (fun r => r <| x_auxiliary_bytes := total_bytes |>) ;;
      ret true)).

(** [charge_shared_auxiliary_bytes] *)
Definition charge_shared_auxiliary_bytes (self : Agent) (i : ExecutionIdentity) (total_bytes : Z) : M Node bool :=
  refuse_if (total_bytes <? 0) "invalid_resources" ;;
  locked (immediate (
    let* r := row i false in
    refuse_if (state_in r ["RELEASED"; "STOPPED"; "QUARANTINED"] || x_disk_released r) "invalid_execution_state" ;;
    let* d := gets nd_ledger in
    let previous := default 0 (shared_auxiliary d !! component_of i) in
    if total_bytes <=? previous then ret true
    else
      refuse_if (disk_bytes (capacity self) <? storage_usage d + total_bytes - previous) "capacity" ;;
      modify (fun w => w <| nd_ledger ::= (fun d => d <| shared_auxiliary ::= <[component_of i := total_bytes]> |>) |>) ;;
      ret true)).

(** [assignment_resources]: cpu, memory and disk *)
Definition assignment_resources (i : ExecutionIdentity) (allow_stale : bool) : M Node (Z * Z * Z) :=
  locked (let* r := row i allow_stale in ret (x_cpu_millis r, x_memory_bytes r, x_disk_bytes r)).

(** ** [reserve] *)
Definition SQLITE_MAX : Z := 2 ^ 63 - 1.
Definition lease_value (v : json) : Q := default 0%Q (number_value v).
(** A number in a [REAL] column: an [int] becomes the nearest float. *)
Definition real_value (v : json) : option Q :=
  match v with JInt n => number_value (JFloat (binary_normalize 53 1024 n 0 false)) | _ => number_value v end.
(** Binding an [int] beyond 64 bits raises. *)
Definition bindable (values : list json) : bool :=
  forallb (fun v => match v with JInt n => (- SQLITE_MAX - 1 <=? n) && (n <=? SQLITE_MAX) | _ => true end) values.

(** The row inserted for a specification. *)
Definition reserved_row (self : Agent) (s : ExecutionSpec) (serialized : string) (now : Q) : Execution :=
  let i := identity s in let r := spec_resources s in
  mkExecution (job_id i) (attempt_id i) (component_id i) (epoch i) serialized "RESERVING" (cpu_millis r) (memory_bytes r) (disk_bytes r)
    (float_add now (lease_value (lease_seconds s))) (real_value (spec_deadline s)) (boot_id self) false false 0 0 false.

(** The capacity, the fence and the row, before any effect. *)
Definition admit_reservation (self : Agent) (s : ExecutionSpec) (serialized : string) : M Node unit :=
  let i := identity s in
  let request := spec_resources s in
  let* d := gets nd_ledger in
  refuse_if (match fences d !! component_of i with Some e => epoch i <=? e | None => false end) "stale_epoch" ;;
  refuse_if (some_row (fun r => of_component (component_of i) r && unreleased r) d) "node_quarantined" ;;
  let* budget := lift (execution_storage_budget_bytes (disk_bytes request)) in
  refuse_if ((cpu_millis (capacity self) <? used_cpu d + cpu_millis request)
             || (memory_bytes (capacity self) <? used_memory d + memory_bytes request)
             || (disk_bytes (capacity self) <? storage_usage d + budget)) "capacity" ;;
  throw_if (negb (bindable [JInt (epoch i); JInt (cpu_millis request); JInt (memory_bytes request); JInt (disk_bytes request);
                            spec_deadline s])) OverflowError ;;
  modify (fun w => w <| nd_ledger ::= (fun d => d <| fences ::= <[component_of i := epoch i]> |>) |>) ;;
  let* now := ask (monotonic (boot_id self)) in
  modify (fun w => w <| nd_ledger ::= (fun d => d <| executions ::= <[key i := reserved_row self s serialized now]> |>) |>).

(** The transaction of [_reserve]: [Some] of a reservation made before, or
    [None] when the executor is to be asked. *)
Definition reserve_transaction (self : Agent) (s : ExecutionSpec) (serialized : string) : M Node (option Reservation) :=
  let i := identity s in
  let* d := gets nd_ledger in
  match executions d !! key i with
  | Some prior =>
      refuse_if (negb (String.eqb (x_spec prior) serialized)) "reservation_conflict" ;;
      let* _ := row i false in
      refuse_if (state_in prior ["QUARANTINED"]) "node_quarantined" ;;
      if negb (state_in prior ["RESERVING"]) then ret (Some (mkReservation i true (node_id self) (x_state prior)))
      else
        let* valid := lease_valid self prior in
        refuse_if (negb valid) "lease_expired" ;;
        ret None
  | None => admit_reservation self s serialized ;; ret None
  end.

(** [_reserve] *)
Definition _reserve (self : Agent) (s : ExecutionSpec) : M Node Reservation :=
  let i := identity s in
  refuse_if (negb (String.eqb (spec_node_id s) "") && negb (String.eqb (spec_node_id s) (node_id self))) "node_mismatch" ;;
  refuse_if (negb (String.eqb (spec_pool_id s) "") && negb (String.eqb (spec_pool_id s) (pool_id self))) "pool_mismatch" ;;
  let* wall := ask wall_clock in
  refuse_if (match number_value (spec_deadline s) with Some deadline => Qle_bool deadline wall | None => false end) "job_deadline_expired" ;;
  when has_qualify_health (let* healthy := ask ex_qualify_health in lift healthy) ;;
  let* serialized := lift (canonical_json (execution_dict s)) in
  let* prior := locked (immediate (reserve_transaction self s serialized)) in
  match prior with
  | Some reservation => ret reservation
  | None =>
      on_error
        (let* acknowledged := executor CallReserve i (fun n => ex_reserve n s) id in
         uncertain_if (negb acknowledged) ;;
         locked (
           let* r := row i false in
           let* valid := (if state_in r ["RESERVING"] then lease_valid self r else ret false) in
           refuse_if (negb valid) "lease_expired" ;;
           set_state i "RESERVED"))
        (quarantine i) ;;
      ret (mkReservation i true (node_id self) "RESERVED")
  end.
Definition reserve (self : Agent) (s : ExecutionSpec) : M Node Reservation :=
  component_lock (identity s) (operation_lock (identity s) (_reserve self s)).

(** [renew] *)
Definition renew (self : Agent) (i : ExecutionIdentity) (lease_seconds : json) : M Node bool :=
  refuse_if (lease_invalid lease_seconds) "invalid_lease" ;;
  locked (
    let* r := row i false in
    let* valid := (if state_in r ["QUARANTINED"; "STOPPED"; "RELEASED"] then ret false else lease_valid self r) in
    refuse_if (negb valid) "lease_expired" ;;
    let* now := ask (monotonic (boot_id self)) in
    update_row (key i) (fun r => r <| x_lease_until := float_add now (lease_value lease_seconds) |>)) ;;
  ret true.

(** ** Observation and stop *)

(** [inspect] *)
Definition never_reserved : list (string * json) := [("never_reserved", JBool true)].
Definition inspect (i : ExecutionIdentity) : M Node Observation :=
  let* r := locked (row i false) in
  if x_executor_absent r then ret (observation i (x_state r) true never_reserved)
  else catch (executor CallInspect i (fun n => ex_inspect n i) ob_termination_confirmed)
    (fun e => match e with
              | ExecutorRefused code =>
                  if String.eqb code "missing_reservation" && state_in r ["RESERVING"] then ret (observation i "RESERVING" false [])
                  else throw e
              | UncertainExecution => quarantine i ;; throw e
              | _ => throw e
              end).

(** The call of [stop], and whether the executor never had the execution. *)
Definition stop_executor (i : ExecutionIdentity) (grace_seconds : Z) : M Node (Observation * bool) :=
  let* answer := catch
    (let* o := executor CallStop i (fun n => ex_stop n i grace_seconds) ob_termination_confirmed in ret (o, false))
    (fun e => match e with
              | ExecutorRefused code =>
                  if negb (String.eqb code "missing_reservation") || negb has_confirm_absent then throw e
                  else let* absent := executor CallAbsent i (fun n => ex_confirm_absent n i) id in
                       if negb absent then throw e
                       else ret (observation i "STOPPED" true never_reserved, true)
              | _ => throw e
              end) in
  uncertain_if (negb (ob_termination_confirmed answer.1)) ;;
  ret answer.

(** The first step of [stop]: an execution that is released or that the
    executor never had is only inspected. *)
Definition begin_stop (i : ExecutionIdentity) : M Node (option Observation) :=
  locked (
    let* r := row i false in
    if negb (unreleased r) || x_executor_absent r then let* o := inspect i in ret (Some o)
    else set_state i "STOPPING" ;; ret None).

(** [stop] *)
Definition stop (i : ExecutionIdentity) (grace_seconds : Z) : M Node Observation :=
  operation_lock i (
    let* settled := begin_stop i in
    match settled with
    | Some observed => ret observed
    | None =>
        let* answer := on_error (stop_executor i grace_seconds) (quarantine i) in
        locked (update_row (key i) (fun r => r <| x_state := "STOPPED" |> <| x_stopped := true |> <| x_executor_absent := answer.2 |>)) ;;
        ret answer.1
    end).

(** [start] *)
Definition start (self : Agent) (i : ExecutionIdentity) : M Node Observation :=
  operation_lock i (
    locked (
      let* r := row i false in
      let* valid := lease_valid self r in
      refuse_if (negb valid) "lease_expired" ;;
      refuse_if (negb (state_in r ["RESERVED"; "RUNNING"; "STARTING"])) "invalid_execution_state" ;;
      set_state i "STARTING") ;;
    let* observed := on_error (executor CallStart i (fun n => ex_start n i) ob_termination_confirmed) (quarantine i) in
    let* valid := locked (
      set_state i (ob_state observed) ;;
      let* r := row i false in
      lease_valid self r) in
    if valid then ret observed
    else
      let* _ := stop i 0 in
      refuse "lease_expired").

(** ** Results *)

(** [row = self._row(identity, allow_stale=True)] and the second [_row] of an
    execution that is not released. *)
Definition retained_row (i : ExecutionIdentity) : M Node Execution :=
  let* r := row i true in
  when (unreleased r) (let* _ := row i false in ret tt) ;;
  ret r.

(** [reconciliation_root] *)
Definition reconciliation_root (i : ExecutionIdentity) : M Node string :=
  let* _ := locked (row i false) in
  let* root := ask (fun n => ex_reconciliation_root n i) in
  lift root.

Definition collect_call (i : ExecutionIdentity) : M Node (list (string * Z)) :=
  executor CallCollect i (fun n => ex_collect n i) (fun _ => true).

(** [retained_manifest] *)
Definition retained_manifest (i : ExecutionIdentity) : M Node (list (string * Z)) :=
  let* purged := locked (let* r := retained_row i in ret (x_disk_released r)) in
  if purged then ret [] else collect_call i.

(** [collect] *)
Definition collect_files (i : ExecutionIdentity) : M Node (list (string * Z)) :=
  operation_lock i (
    let* r := locked (retained_row i) in
    if x_disk_released r || x_executor_absent r then ret []
    else
      when (negb (x_stopped r)) (
        let* observed := inspect i in
        refuse_if (negb (ob_termination_confirmed observed)) "runtime_active") ;;
      let* files := collect_call i in
      let actual := foldr (fun file sum => file.2 + sum) 0 files in
      refuse_if (x_disk_bytes r + EXECUTION_STORAGE_HEADROOM_BYTES <? actual) "retention_capacity" ;;
      locked (update_row (key i) (fun r => r <| x_retained_output_bytes := actual |>)) ;;
      ret files).

(** [read_logs]: an execution the executor never had has an empty log. *)
Definition empty_log (i : ExecutionIdentity) : json :=
  JObj [("identity", identity_dict i); ("source_id", JStr (key i)); ("offset", JInt 0); ("next_offset", JInt 0);
        ("content", JStr ""); ("complete", JBool true); ("truncated", JBool false)].
Definition read_logs (i : ExecutionIdentity) (offset max_bytes : Z) : M Node json :=
  operation_lock i (
    let* absent := locked (
      let* r := retained_row i in
      refuse_if (x_disk_released r) "artifact_unavailable" ;;
      when (x_executor_absent r) (refuse_if (negb (offset =? 0)) "log_cursor_conflict") ;;
      ret (x_executor_absent r)) in
    if absent then ret (empty_log i)
    else let* page := ask (fun n => ex_read_logs n i offset max_bytes) in lift page).

(** [read_artifact] *)
Definition read_artifact (i : ExecutionIdentity) (path : string) (max_bytes : Z) : M Node string :=
  operation_lock i (
    locked (let* r := retained_row i in refuse_if (x_disk_released r) "artifact_unavailable") ;;
    let* _ := collect_files i in
    let* data := ask (fun n => ex_read_artifact n i path max_bytes) in
    lift data).

(** ** Release and purge *)

(** [release] *)
Definition release (i : ExecutionIdentity) : M Node bool :=
  operation_lock i (
    let* r := locked (row i false) in
    if negb (unreleased r) then ret true
    else
      let* observed := inspect i in
      uncertain_if (negb (ob_termination_confirmed observed)) ;;
      when (negb (mem_str (ob_state observed) ["RESERVED"; "PREPARING"])) (let* _ := collect_files i in ret tt) ;;
      when (negb (x_executor_absent r)) (
        let* cleaned := executor CallRelease i (fun n => ex_release n i) id in
        uncertain_if (negb cleaned)) ;;
      locked (update_row (key i) (fun r => r <| x_state := "RELEASED" |> <| x_stopped := true |>)) ;;
      ret true).

(** The checks of [_purge]: nothing left to do, or the row. *)
Definition purge_checks (i : ExecutionIdentity) (auxiliary_deleted : bool) : M Node (option Execution) :=
  let* r := row i true in
  refuse_if (unreleased r) "runtime_active" ;;
  let* d := gets nd_ledger in
  let shared_bytes := default 0 (shared_auxiliary d !! component_of i) in
  if x_disk_released r && (shared_bytes =? 0) then ret None
  else
    refuse_if ((negb (x_auxiliary_bytes r =? 0) || negb (shared_bytes =? 0)) && negb auxiliary_deleted) "auxiliary_storage_retained" ;;
    when auxiliary_deleted (
      let* allowed := component_purge_allowed i in
      refuse_if (negb allowed) "runtime_active") ;;
    ret (Some r).

(** [_purge] *)
Definition _purge (i : ExecutionIdentity) (auxiliary_deleted : bool) : M Node bool :=
  operation_lock i (
    let* due := locked (purge_checks i auxiliary_deleted) in
    match due with
    | None => ret true
    | Some r =>
        when (negb (x_executor_absent r)) (
          let* deleted := executor CallPurge i (fun n => ex_purge n i) id in
          uncertain_if (negb deleted)) ;;
        locked (immediate (
          update_row (key i) (fun r => r <| x_disk_released := true |> <| x_auxiliary_bytes := 0 |>) ;;
          when auxiliary_deleted
            (modify (fun w => w <| nd_ledger ::= (fun d => d <| shared_auxiliary ::= alter (fun _ => 0) (component_of i) |>) |>)))) ;;
        ret true
    end).
Definition purge (i : ExecutionIdentity) (auxiliary_deleted : bool) : M Node bool := component_lock i (_purge i auxiliary_deleted).

(** ** The watchdog *)

(** One row of [watchdog_once]: an expired execution is stopped, or
    quarantined where it cannot be. *)
Definition watch_row (self : Agent) (r : Execution) : M Node (list ExecutionIdentity) :=
  let* valid := lease_valid self r in
  if valid then ret []
  else
    let i := row_identity r in
    catch (let* _ := stop i 0 in ret tt)
      (fun e => match e with
                | ExecutorRefused _ | UncertainExecution => quarantine i
                | _ => throw e
                end) ;;
    ret [i].

(** [watchdog_once] *)
Definition watchdog_once (self : Agent) : M Node (list ExecutionIdentity) :=
  let* rows := locked (gets (fun w => List.filter (fun r => negb (state_in r ["RELEASED"; "STOPPED"]))
                                        (map snd (map_to_list (executions (nd_ledger w)))))) in
  let* expired := mapM (watch_row self) rows in
  ret (concat expired).
End Agent.

(** Keys are compared, not computed, in proofs. *)
#[global] Arguments key {P} i : simpl never.
#[global] Arguments component_key {P} c : simpl never.
