(* ===== verification/JobSpecTheory.v ===== *)
(** * What a validated job specification is

    The validators of [JobSpec] only normalise: a validated specification is
    the submitted one with its commit in lower case, validating it again
    changes nothing, and it binds its components and participants one to one. *)

From stdpp Require Import base gmap strings list.
From Stdlib Require Import ZArith Lia Ascii.
From S2P Require Import Prelude Json Order Domain Schemas JobSpec.

(** Decompose a successful validation, check by check. *)
Ltac checks_step :=
  match goal with
  | H : match ?r with Ok _ => _ | Err _ => _ end = Ok _ |- _ =>
      let E := fresh "E" in destruct r eqn:E; [|discriminate H]
  | H : value_when _ _ = Ok _ |- _ => apply value_when_ok in H
  | H : validate_identifier _ = Ok _ |- _ => apply validate_identifier_ok in H as [? ->]
  | H : Ok _ = Ok _ |- _ => injection H as H
  | H : (if ?c then Err _ else _) = Ok _ |- _ => let E := fresh "E" in destruct c eqn:E; [discriminate H|]
  | H : (if ?c then invalid _ else _) = Ok _ |- _ => let E := fresh "E" in destruct c eqn:E; [discriminate H|]
  | H : invalid _ = Ok _ |- _ => discriminate H
  | u : unit |- _ => destruct u
  end.
Ltac checks := repeat checks_step.

Lemma Forall2_eq {A} (l l' : list A) : Forall2 eq l l' -> l' = l.
Proof. induction 1; congruence. Qed.

Lemma collect_id {A} (f : A -> result A) l l' : (forall x y, x ∈ l -> f x = Ok y -> y = x) -> collect f l = Ok l' -> l' = l.
Proof.
  intros Hf H. apply collect_ok in H. apply Forall2_eq. induction H as [|x y l l' Hxy H IH]; constructor.
  - symmetry. apply (Hf x y); [left|done].
  - apply IH. intros z w Hz. apply Hf. by right.
Qed.

Section Theory.
Context {P : Platform} {U : Unicode}.

Lemma freeze_same room v w : freeze_json room v = Ok w -> w = v.
Proof.
  revert v w. induction room as [|room IH]; intros v w; [done|]. destruct v as [| | |f|s|l|kvs]; cbn; try (by intros [= <-]).
  - destruct (float_is_finite f); [by intros [= <-]|done].
  - destruct (8192 <? py_len s); [done|by intros [= <-]].
  - intros H. checks. subst. f_equal. eapply collect_id; [|done]. intros x y _. apply IH.
  - intros H. checks. subst. f_equal. eapply collect_id; [|done]. intros [k x] [k' y] _ H. cbn in H. checks.
    match goal with E : freeze_json _ _ = Ok _ |- _ => apply IH in E end. congruence.
Qed.

Lemma immutable_options_same o o' : immutable_options o = Ok o' -> o' = o.
Proof.
  unfold immutable_options. intros H. checks. match goal with E : freeze_json 9 _ = Ok _ |- _ => apply freeze_same in E as -> end.
  by injection H as <-.
Qed.

Lemma validate_resources_same r r' : validate_resources r = Ok r' -> r' = r.
Proof.
  unfold validate_resources. intros H. checks. match goal with E : validate_optional _ = Ok _ |- _ => apply validate_optional_ok in E as [-> _] end.
  subst. by destruct r.
Qed.
Lemma validate_component_same c c' : validate_component c = Ok c' -> c' = c.
Proof.
  unfold validate_component. intros H. checks. match goal with E : validate_optional _ = Ok _ |- _ => apply validate_optional_ok in E as [-> _] end.
  match goal with E : validate_resources _ = Ok _ |- _ => apply validate_resources_same in E as -> end. subst. by destruct c.
Qed.
Lemma validate_participant_same p p' : validate_participant p = Ok p' -> p' = p.
Proof.
  unfold validate_participant. intros H. checks. match goal with E : validate_optional _ = Ok _ |- _ => apply validate_optional_ok in E as [-> _] end.
  subst. by destruct p.
Qed.
Lemma secret_refs_same l l' : approved_secret_refs l = Ok l' -> l' = l.
Proof.
  unfold approved_secret_refs. intros H. checks. eapply collect_id; [|done]. intros [k v] y _ H'. cbn in H'. checks. by subst.
Qed.

(** Lower case of hexadecimal digits. *)
Lemma hex_lower_char c : hex_any c = true -> hex_any (ascii_lower_char c) = true /\ ascii_lower_char (ascii_lower_char c) = ascii_lower_char c.
Proof. destruct c as [[] [] [] [] [] [] [] []]; vm_compute; intuition congruence. Qed.

Lemma ascii_lower_cons c s : ascii_lower (String c s) = String (ascii_lower_char c) (ascii_lower s).
Proof. done. Qed.

Lemma hex_lower s : all_char hex_any s = true -> all_char hex_any (ascii_lower s) = true /\ utf8_len (ascii_lower s) = utf8_len s /\
  ascii_lower (ascii_lower s) = ascii_lower s.
Proof.
  unfold all_char. induction s as [|c s IH]; [done|]. cbn [chars forallb]. intros H. apply andb_true_iff in H as [Hc Hs].
  destruct (IH Hs) as (H1 & H2 & H3), (hex_lower_char c Hc) as [H4 H5]. rewrite !ascii_lower_cons. cbn [chars forallb].
  rewrite H4, H1, H3, H5. split_and!; [done| |done]. unfold utf8_len in *. cbn [String.length]. lia.
Qed.

Lemma commit_lower v w : immutable_commit v = Ok w -> w = ascii_lower v /\ immutable_commit w = Ok w.
Proof.
  unfold immutable_commit. intros H. checks. subst w. bool_simpl.
  match goal with Hh : all_char hex_any v = true |- _ => destruct (hex_lower v Hh) as (H1 & H2 & H3) end.
  split; [done|]. rewrite H1, H2, H3. match goal with Hl : (_ || _) = true |- _ => by rewrite Hl end.
Qed.

Lemma runtime_same v w : approved_runtime v = Ok w -> w = v.
Proof. unfold approved_runtime. destruct (image_digest v); [by intros [= <-]|]. intros H. by apply validate_identifier_ok in H as [_ ->]. Qed.

Lemma display_name_same v w : display_name v = Ok w -> w = v.
Proof. unfold display_name. intros H. checks. done. Qed.
Lemma plugin_same v w : plugin_identifier v = Ok w -> w = v.
Proof. unfold plugin_identifier. intros H. checks. done. Qed.

Lemma validate_spec_same s s' : validate_spec s = Ok s' ->
  s' = mkJobSpec (js_project_id s) (js_name s) (js_source_id s) (ascii_lower (js_source_commit s)) (js_runtime_image s) (js_plugin s)
         (js_options s) (js_secret_refs s) (js_participants s) (js_components s) (js_target_round s) (js_max_duration_seconds s).
Proof.
  unfold validate_spec. intros H. checks.
  repeat match goal with
  | E : immutable_commit _ = Ok _ |- _ => apply commit_lower in E as [-> _]
  | E : approved_runtime _ = Ok _ |- _ => apply runtime_same in E as ->
  | E : display_name _ = Ok _ |- _ => apply display_name_same in E as ->
  | E : plugin_identifier _ = Ok _ |- _ => apply plugin_same in E as ->
  | E : immutable_options _ = Ok _ |- _ => apply immutable_options_same in E as ->
  | E : approved_secret_refs _ = Ok _ |- _ => apply secret_refs_same in E as ->
  | E : collect validate_participant _ = Ok _ |- _ => apply collect_id in E as ->; [|intros ???; apply validate_participant_same]
  | E : collect validate_component _ = Ok _ |- _ => apply collect_id in E as ->; [|intros ???; apply validate_component_same]
  end. by subst.
Qed.

(** Validating the result again succeeds with the same specification. *)
Lemma validate_spec_again s s' : validate_spec s = Ok s' -> validate_spec s' = Ok s'.
Proof.
  intros H. pose proof (validate_spec_same _ _ H) as Es. unfold validate_spec in H. checks.
  repeat match goal with
  | E : immutable_commit _ = Ok ?a |- _ => lazymatch goal with _ : immutable_commit a = _ |- _ => fail | _ => pose proof (proj2 (commit_lower _ _ E)) end
  | E : approved_runtime _ = Ok ?a |- _ => is_var a; pose proof (runtime_same _ _ E); subst a
  | E : display_name _ = Ok ?a |- _ => is_var a; pose proof (display_name_same _ _ E); subst a
  | E : plugin_identifier _ = Ok ?a |- _ => is_var a; pose proof (plugin_same _ _ E); subst a
  | E : immutable_options _ = Ok ?a |- _ => is_var a; pose proof (immutable_options_same _ _ E); subst a
  | E : approved_secret_refs _ = Ok ?a |- _ => is_var a; pose proof (secret_refs_same _ _ E); subst a
  | E : collect validate_participant _ = Ok ?a |- _ => is_var a;
      pose proof (collect_id _ _ _ (fun x y _ => validate_participant_same x y) E); subst a
  | E : collect validate_component _ = Ok ?a |- _ => is_var a;
      pose proof (collect_id _ _ _ (fun x y _ => validate_component_same x y) E); subst a
  end.
  rewrite <- H. unfold validate_spec, value_when, validate_identifier.
  cbn [js_project_id js_name js_source_id js_source_commit js_runtime_image js_plugin js_options js_secret_refs js_participants
    js_components js_target_round js_max_duration_seconds].
  repeat match goal with E : ?x = _ |- context [?x] => rewrite E end. done.
Qed.

(** ** Well-formed specifications *)

(** The components and participants of a job, and their binding. *)
Record well_bound (s : JobSpec) : Prop := {
  wb_components : NoDup (map cs_component_id (js_components s));
  wb_participants : NoDup (map ps_participant_id (js_participants s));
  wb_owner : exists c, List.filter (fun c => bool_decide (cs_role c = OWNER)) (js_components s) = [c];
  wb_managed : forall p, p ∈ js_participants s -> ps_mode p = MANAGED_MODE ->
    exists c, c ∈ js_components s /\ cs_role c = PARTICIPANT /\ ps_component_id p = Some (cs_component_id c) /\
      cs_participant_id c = Some (ps_participant_id p);
  wb_component : forall c, c ∈ js_components s -> cs_role c = PARTICIPANT ->
    exists p, p ∈ js_participants s /\ ps_mode p = MANAGED_MODE /\ ps_component_id p = Some (cs_component_id c) /\
      cs_participant_id c = Some (ps_participant_id p);
  wb_external : forall p c, p ∈ js_participants s -> ps_mode p = EXTERNAL -> c ∈ js_components s ->
    cs_component_id c <> external_component (ps_participant_id p);
}.

(** The ranges of a resource request. *)
Record request_ok (r : ResourceRequest) : Prop := {
  ro_pool : kind_ok (rq_pool_id r) = true;
  ro_cpu : 1 <= rq_cpu_millicores r <= 1000000;
  ro_memory : 1 <= rq_memory_bytes r <= 2 ^ 50;
  ro_disk : 1 <= rq_disk_bytes r <= 2 ^ 50;
  ro_gpus : 0 <= rq_gpu_count r <= 1024;
  ro_profile : rq_gpu_count r = 0 <-> rq_gpu_profile r = None;
}.

Lemma find_in {A} (p : A -> bool) l x : List.find p l = Some x -> x ∈ l /\ p x = true.
Proof. intros H. apply List.find_some in H as [H1 H2]. split; [by apply list_elem_of_In|done]. Qed.

Lemma validate_components_bound s : validate_components s = Ok tt -> well_bound s.
Proof.
  unfold validate_components. intros H. checks. bool_simpl.
  match goal with Hl : Z.of_nat (List.length _) = 1 |- _ => rename Hl into Hone end.
  match goal with H1 : existsb (fun p => bool_decide (ps_mode p = EXTERNAL) && _) _ = false |- _ => rename H1 into Hext end.
  match goal with H1 : existsb (fun p => bool_decide (ps_mode p = MANAGED_MODE) && _) _ = false |- _ => rename H1 into Hman end.
  match goal with H1 : existsb (fun c => bool_decide (cs_role c = PARTICIPANT) && _) _ = false |- _ => rename H1 into Hcomp end.
  split; [done|done| | | |].
  - destruct (List.filter _ _) as [|c [|? ?]]; [done|by exists c|cbn in Hone; lia].
  - intros p Hp Hm. pose proof (existsb_none _ _ _ Hman Hp) as E. cbv beta in E. rewrite bool_decide_true in E by done. cbn in E. apply negb_false_iff in E.
    unfold managed_bound, find_component in E. destruct (List.find _ _) as [c|] eqn:Ef; [|done]. apply find_in in Ef as [Hc Ec]. bool_simpl.
    exists c. by split_and!.
  - intros c Hc Hr. pose proof (existsb_none _ _ _ Hcomp Hc) as E. cbv beta in E. rewrite bool_decide_true in E by done. cbn in E. apply negb_false_iff in E.
    unfold component_bound, find_participant in E. destruct (List.find _ _) as [p|] eqn:Ef; [|done]. apply find_in in Ef as [Hp Ep]. bool_simpl.
    exists p. by split_and!.
  - intros p c Hp Hm Hc E. pose proof (existsb_none _ _ _ Hext Hp) as Ee. cbv beta in Ee. rewrite bool_decide_true in Ee by done. cbn in Ee.
    unfold mem_str in Ee. apply bool_decide_eq_false in Ee. apply Ee. rewrite <- E. apply list_elem_of_fmap. by exists c.
Qed.

Lemma validate_resources_ok r r' : validate_resources r = Ok r' -> request_ok r.
Proof.
  unfold validate_resources, between. intros H. checks. bool_simpl.
  match goal with E : validate_optional _ = Ok _ |- _ => apply validate_optional_ok in E as [-> _] end.
  match goal with E : Bool.eqb _ _ = true |- _ => apply Bool.eqb_prop in E; rename E into Hg end.
  change (Z.shiftl 1 50) with (2 ^ 50) in *. split; [done..|]. rewrite <- Z.eqb_eq. destruct (rq_gpu_count r =? 0), (rq_gpu_profile r); cbn in Hg; intuition congruence.
Qed.
End Theory.

(** What validation of a whole specification establishes. *)
Lemma collect_all {A B} (f : A -> result B) l l' y : collect f l = Ok l' -> y ∈ l' -> exists x, x ∈ l /\ f x = Ok y.
Proof.
  revert l'. induction l as [|x l IH]; intros l' H; cbn in H; [injection H as <-; intros Hy; by apply elem_of_nil in Hy|].
  destruct (f x) as [b|] eqn:E; [|done]. destruct (collect f l) as [bs|]; [|done]. injection H as <-. intros Hy. apply elem_of_cons in Hy as [->|Hy].
  - exists x. split; [by left|done].
  - destruct (IH bs eq_refl Hy) as (x' & Hx' & Ex'). exists x'. split; [by right|done].
Qed.
Section Whole.
Context {P : Platform} {U : Unicode}.
Lemma validated_spec s s' : validate_spec s = Ok s' -> well_bound s' /\ forall c, c ∈ js_components s' -> request_ok (cs_resources c).
Proof.
  intros H. pose proof (validate_spec_again _ _ H) as H'. clear H. pose proof (validate_spec_same _ _ H') as Es. unfold validate_spec in H'. checks.
  match goal with E : validate_components ?a = Ok ?u |- _ => destruct u; apply validate_components_bound in E end.
  split; [congruence|]. intros c Hc. apply (f_equal js_components) in H'. cbn in H'. rewrite <- H' in Hc.
  match goal with E : collect validate_component _ = Ok _ |- _ => eapply collect_all in E as (c0 & Hc0 & Ec) end; [|exact Hc].
  unfold validate_component in Ec. checks.
  match goal with E : validate_resources _ = Ok _ |- _ => pose proof (validate_resources_ok _ _ E); apply validate_resources_same in E as -> end.
  by subst.
Qed.
End Whole.
