(* ===== verification/Recovery.v ===== *)
(** * Evidence and fencing decisions

    [hf2l_jobs.reconciliation]: what a publication observation may say, when an
    attempt's identity may be reused, how many rounds remain and when the next
    automatic retry is due; and the page size of [hf2l_jobs.pagination]. *)

From stdpp Require Import base strings list.
From Stdlib Require Import ZArith Lia.
From S2P Require Import Prelude Json JobSpec.

Definition KNOWN_PUBLICATIONS : list string := ["none"; "absent"; "confirmed"; "published"].
Definition UNKNOWN_PUBLICATIONS : list string := ["unknown"; "publishing"; "ambiguous"].

Record PublicationObservation := mkObservation {
  pu_known : bool;
  pu_status : string;
  pu_current_round : option Z;
}.

(** [__post_init__] *)
Definition observe (known : bool) (status : string) (current_round : option Z) : result PublicationObservation :=
  if negb (mem_str status (KNOWN_PUBLICATIONS ++ UNKNOWN_PUBLICATIONS)) then invalid "Unsupported publication observation"
  else if negb (Bool.eqb known (mem_str status KNOWN_PUBLICATIONS)) then invalid "Publication certainty and status disagree"
  else if match current_round with Some n => n <? 0 | None => false end then invalid "Current round must be a non-negative integer"
  else Ok (mkObservation known status current_round).

Definition remaining_rounds (target_round current_round : Z) : result Z :=
  if (target_round <? 1) || (current_round <? 0) then invalid "Invalid absolute round boundary"
  else Ok (Z.max 0 (target_round - current_round)).

Definition retry_delay (retry_number : Z) : result Z :=
  if negb ((retry_number =? 1) || (retry_number =? 2) || (retry_number =? 3)) then invalid "At most three automatic retries are permitted"
  else Ok (60 * 2 ^ (retry_number - 1)).

Definition safe_to_reuse (revocation_confirmed termination_confirmed : bool) (publication : PublicationObservation) : bool :=
  revocation_confirmed && termination_confirmed && pu_known publication.

(** [page_limit] *)
Definition page_limit (value : json) (maximum : Z) : result Z :=
  match value with
  | JInt n => if (1 <=? n) && (n <=? maximum) then Ok n else Error 422 "invalid_page_limit"
  | _ => Error 422 "invalid_page_limit"
  end.
