(* ===== verification/JobModels.v ===== *)
(** * The manager's database

    One record per mapped table of [hf2l_jobs.models] that the scheduler, the
    controller, the manager's commands and the retention service read or write,
    with the columns they use; the database as one finite map per table; and
    the session operations.  A point in time is the number of microseconds
    since the epoch of an aware datetime. *)

From stdpp Require Import base gmap strings list.
From Stdlib Require Import ZArith Lia Ascii.
From S2P Require Import Prelude Json Domain JobSpec.

(** ** Time: [timedelta], [iso] *)
Definition MICROS : Z := 1000000.
Definition timedelta_seconds (n : Z) : Z := n * MICROS.
Definition timedelta_days (n : Z) : Z := n * 86400 * MICROS.

(** Year, month and day of a number of days since 1970-01-01 in the proleptic
    Gregorian calendar (400-year eras from March 1st of year 0). *)
Definition civil_date (days : Z) : Z * Z * Z :=
  let z := days + 719468 in
  let era := z / 146097 in
  let doe := z mod 146097 in
  let yoe := (doe - doe / 1460 + doe / 36524 - doe / 146096) / 365 in
  let doy := doe - (365 * yoe + yoe / 4 - yoe / 100) in
  let mp := (5 * doy + 2) / 153 in
  let d := doy - (153 * mp + 2) / 5 + 1 in
  let m := if mp <? 10 then mp + 3 else mp - 9 in
  (yoe + era * 400 + (if m <=? 2 then 1 else 0), m, d).

(** Decimal digits, padded with zeros to [width]. *)
Fixpoint zeros (n : nat) : string := match n with O => "" | S n => String "0"%char (zeros n) end.
Definition padded (width : nat) (n : Z) : string :=
  let s := str_of_int n in zeros (width - String.length s) +:+ s.

(** [value.isoformat()] of an aware UTC datetime. *)
Definition isoformat (t : Z) : string :=
  let '(y, m, d) := civil_date (t / (86400 * MICROS)) in
  let us := t mod (86400 * MICROS) in
  let s := us / MICROS in
  padded 4 y +:+ "-" +:+ padded 2 m +:+ "-" +:+ padded 2 d +:+ "T" +:+ padded 2 (s / 3600) +:+ ":"
  +:+ padded 2 (s / 60 mod 60) +:+ ":" +:+ padded 2 (s mod 60)
  +:+ (if us mod MICROS =? 0 then "" else "." +:+ padded 6 (us mod MICROS)) +:+ "+00:00".

(** [iso(value)]: [isoformat] with a [Z] for the offset. *)
Definition iso (t : Z) : string :=
  let s := isoformat t in String.substring 0 (String.length s - 6) s +:+ "Z".
Definition opt_iso (t : option Z) : json := match t with Some t => JStr (iso t) | None => JNull end.

(** ** Tables *)
Record Project := mkProject {
  pj_id : string;
  pj_retention_days : Z;
  pj_quota_cpu_millicores : option Z;
  pj_quota_memory_bytes : option Z;
  pj_quota_disk_bytes : option Z;
  pj_quota_gpus : option Z;
  pj_max_active_jobs : option Z;
  pj_quotas_json : gmap string Z;
  pj_retained_bytes : Z;
  pj_version : Z;
}.
#[global] Instance eta_Project : Eta Project := fun r => mkProject (pj_id r) (pj_retention_days r) (pj_quota_cpu_millicores r)
  (pj_quota_memory_bytes r) (pj_quota_disk_bytes r) (pj_quota_gpus r) (pj_max_active_jobs r) (pj_quotas_json r)
  (pj_retained_bytes r) (pj_version r).

Record Job := mkJob {
  jb_id : string;
  jb_project_id : string;
  jb_spec : JobSpec;
  jb_spec_hash : string;
  jb_state : JobState;
  jb_phase : option string;
  jb_queue_reason : option document;
  jb_version : Z;
  jb_current_attempt : Z;
  jb_attempt_count : Z;
  jb_epoch : Z;
  jb_backfill_count : Z;
  jb_current_round : Z;
  jb_target_round : Z;
  jb_cleanup_status : string;
  jb_error_code : option string;
  jb_outcome_reason : option string;
  jb_deadline_at : option Z;
  jb_next_attempt_at : option Z;
  jb_created_at : Z;
  jb_updated_at : Z;
  jb_terminated_at : option Z;
  jb_artifacts_expire_at : option Z;
  jb_purged_at : option Z;
}.
#[global] Instance eta_Job : Eta Job := fun r => mkJob (jb_id r) (jb_project_id r) (jb_spec r) (jb_spec_hash r) (jb_state r)
  (jb_phase r) (jb_queue_reason r) (jb_version r) (jb_current_attempt r) (jb_attempt_count r) (jb_epoch r)
  (jb_backfill_count r) (jb_current_round r) (jb_target_round r) (jb_cleanup_status r) (jb_error_code r)
  (jb_outcome_reason r) (jb_deadline_at r) (jb_next_attempt_at r) (jb_created_at r) (jb_updated_at r) (jb_terminated_at r)
  (jb_artifacts_expire_at r) (jb_purged_at r).

Record Attempt := mkJobAttempt {
  ja_id : string;
  ja_job_id : string;
  ja_number : Z;
  ja_epoch : Z;
  ja_state : string;
  ja_node_id : option string;
  ja_started_at : option Z;
  ja_ended_at : option Z;
  ja_heartbeat_at : option Z;
  ja_revocation_confirmed : bool;
  ja_termination_confirmed : bool;
  ja_publication_status : string;
  ja_error_code : option string;
  ja_details_json : document;
  ja_resources_json : document;
}.
#[global] Instance eta_JobAttempt : Eta Attempt := fun r => mkJobAttempt (ja_id r) (ja_job_id r) (ja_number r) (ja_epoch r)
  (ja_state r) (ja_node_id r) (ja_started_at r) (ja_ended_at r) (ja_heartbeat_at r) (ja_revocation_confirmed r)
  (ja_termination_confirmed r) (ja_publication_status r) (ja_error_code r) (ja_details_json r) (ja_resources_json r).

Record Pool := mkPool {
  po_id : string;
  po_node_id : string;
  po_cpu_millicores : Z;
  po_memory_bytes : Z;
  po_disk_bytes : Z;
  po_gpu_uuids : list string;
  po_gpu_profiles : list string;
  po_sandbox_profiles : list string;
  po_healthy : bool;
  po_quarantined : bool;
  po_details_json : document;
}.

(** [LIVE_ALLOCATION_STATES], and the state a released allocation has. *)
Inductive AllocationState := RESERVED | ACKNOWLEDGED | AL_STARTING | AL_RUNNING | QUARANTINED | RELEASING | RELEASED.
#[global] Instance allocation_state_eq_dec : EqDecision AllocationState.
Proof. solve_decision. Defined.
Definition allocation_live (s : AllocationState) : bool := match s with RELEASED => false | _ => true end.

Record Allocation := mkAllocation {
  al_id : string;
  al_job_id : string;
  al_attempt_id : string;
  al_component_id : string;
  al_pool_id : string;
  al_cpu_millicores : Z;
  al_memory_bytes : Z;
  al_disk_bytes : Z;
  al_gpu_count : Z;
  al_epoch : Z;
  al_state : AllocationState;
  al_acknowledged : bool;
  al_termination_confirmed : bool;
  al_details_json : document;
  al_created_at : Z;
  al_released_at : option Z;
}.
#[global] Instance eta_Allocation : Eta Allocation := fun r => mkAllocation (al_id r) (al_job_id r) (al_attempt_id r)
  (al_component_id r) (al_pool_id r) (al_cpu_millicores r) (al_memory_bytes r) (al_disk_bytes r) (al_gpu_count r) (al_epoch r)
  (al_state r) (al_acknowledged r) (al_termination_confirmed r) (al_details_json r) (al_created_at r) (al_released_at r).

Record GpuAllocation := mkGpuAllocation {
  ga_id : string;
  ga_allocation_id : string;
  ga_pool_id : string;
  ga_gpu_uuid : string;
  ga_released_at : option Z;
}.
#[global] Instance eta_GpuAllocation : Eta GpuAllocation := fun r => mkGpuAllocation (ga_id r) (ga_allocation_id r)
  (ga_pool_id r) (ga_gpu_uuid r) (ga_released_at r).

Record ProvisioningResource := mkResource {
  rs_id : string;
  rs_job_id : string;
  rs_attempt_id : option string;
  rs_component_id : string;
  rs_kind : string;
  rs_external_id : string;
  rs_ownership_json : document;
  rs_details_json : document;
  rs_state : string;
  rs_retained : bool;
  rs_size_bytes : Z;
  rs_deleted_at : option Z;
}.
#[global] Instance eta_Resource : Eta ProvisioningResource := fun r => mkResource (rs_id r) (rs_job_id r) (rs_attempt_id r)
  (rs_component_id r) (rs_kind r) (rs_external_id r) (rs_ownership_json r) (rs_details_json r) (rs_state r) (rs_retained r)
  (rs_size_bytes r) (rs_deleted_at r).

Record Outbox := mkOutbox {
  ob_id : string;
  ob_job_id : string;
  ob_attempt_id : option string;
  ob_attempt_number : option Z;
  ob_topic : string;
  ob_payload_json : document;
  ob_idempotency_key : string;
  ob_state : string;
  ob_lease_owner : option string;
  ob_lease_until : option Z;
  ob_attempts : Z;
  ob_next_attempt_at : option Z;
  ob_last_error : option string;
  ob_created_at : Z;
}.
#[global] Instance eta_Outbox : Eta Outbox := fun r => mkOutbox (ob_id r) (ob_job_id r) (ob_attempt_id r)
  (ob_attempt_number r) (ob_topic r) (ob_payload_json r) (ob_idempotency_key r) (ob_state r) (ob_lease_owner r)
  (ob_lease_until r) (ob_attempts r) (ob_next_attempt_at r) (ob_last_error r) (ob_created_at r).

(** A row with the columns' defaults. *)
Definition fresh_outbox (id job_id : string) (attempt_id : option string) (attempt_number : Z) (topic : string)
    (payload : document) (key : string) (created_at : Z) : Outbox :=
  mkOutbox id job_id attempt_id (Some attempt_number) topic payload key "pending" None None 0 None None created_at.

Record ProvisioningOperation := mkOperation {
  op_id : string;
  op_job_id : string;
  op_attempt_id : option string;
  op_component_id : string;
  op_operation : string;
  op_idempotency_key : string;
  op_state : string;
  op_desired_json : document;
  op_observed_json : document;
  op_last_error : option string;
}.
#[global] Instance eta_Operation : Eta ProvisioningOperation := fun r => mkOperation (op_id r) (op_job_id r) (op_attempt_id r)
  (op_component_id r) (op_operation r) (op_idempotency_key r) (op_state r) (op_desired_json r) (op_observed_json r) (op_last_error r).

Record JobMember := mkJobMember {
  jm_job_id : string;
  jm_principal_id : string;
  jm_role : string;
}.

Record ApprovedSource := mkSource {
  sc_id : string;
  sc_project_id : option string;
  sc_status : string;
  sc_allowed_commits : list string;
  sc_enabled : bool;
}.

Record RuntimeImage := mkImage {
  im_id : string;
  im_project_id : option string;
  im_approved : bool;
  im_status : string;
  im_digest : string;
  im_enabled : bool;
}.

Record ParticipantBinding := mkBinding {
  bd_id : string;
  bd_project_id : string;
  bd_participant_id : string;
  bd_node_id : option string;
  bd_enabled : bool;
}.

Record SecretReference := mkSecret {
  se_id : string;
  se_project_id : string;
  se_enabled : bool;
}.

Record IdempotencyRecord := mkIdempotencyRecord {
  ir_request_hash : string;
  ir_response_json : json;
}.

Record LifecycleEvent := mkLifecycleEvent {
  le_id : string;
  le_job_id : string;
  le_sequence : Z;
  le_kind : string;
  le_actor_id : option string;
  le_version : option Z;
  le_epoch : option Z;
  le_data_json : document;
  le_created_at : Z;
}.
#[global] Instance eta_LifecycleEvent : Eta LifecycleEvent := fun r => mkLifecycleEvent (le_id r) (le_job_id r)
  (le_sequence r) (le_kind r) (le_actor_id r) (le_version r) (le_epoch r) (le_data_json r) (le_created_at r).

Record LogChunk := mkLogChunk {
  lc_id : string;
  lc_job_id : string;
  lc_attempt_number : Z;
  lc_component : string;
  lc_sequence : Z;
  lc_data : string;
  lc_charged_bytes : Z;
  lc_created_at : Z;
  lc_expires_at : option Z;
  lc_deleted_at : option Z;
}.
#[global] Instance eta_LogChunk : Eta LogChunk := fun r => mkLogChunk (lc_id r) (lc_job_id r) (lc_attempt_number r)
  (lc_component r) (lc_sequence r) (lc_data r) (lc_charged_bytes r) (lc_created_at r) (lc_expires_at r) (lc_deleted_at r).

Record Artifact := mkArtifact {
  ar_id : string;
  ar_job_id : string;
  ar_attempt_number : option Z;
  ar_kind : string;
  ar_name : string;
  ar_size_bytes : Z;
  ar_sha256 : string;
  ar_storage_key : string;
  ar_locator_json : document;
  ar_state : string;
  ar_created_at : Z;
  ar_expires_at : option Z;
  ar_deleted_at : option Z;
}.
#[global] Instance eta_Artifact : Eta Artifact := fun r => mkArtifact (ar_id r) (ar_job_id r) (ar_attempt_number r) (ar_kind r) (ar_name r)
  (ar_size_bytes r) (ar_sha256 r) (ar_storage_key r) (ar_locator_json r) (ar_state r) (ar_created_at r) (ar_expires_at r) (ar_deleted_at r).

(** ** The database *)
Record JobDB := mkJobDB {
  projects : gmap string Project;
  jobs : gmap string Job;
  job_attempts : gmap string Attempt;
  pools : gmap string Pool;
  allocations : gmap string Allocation;
  gpu_allocations : gmap string GpuAllocation;
  resources : gmap string ProvisioningResource;
  outbox : gmap string Outbox;
  job_events : gmap string LifecycleEvent;
  log_chunks : gmap string LogChunk;
  artifacts : gmap string Artifact;
  operations : gmap string ProvisioningOperation;
  job_members : gmap (string * string) JobMember;                  (* job, principal *)
  job_idempotency : gmap (string * string * string) IdempotencyRecord;  (* scope, principal, key *)
  project_members : gmap (string * string) string;                 (* project, principal: role *)
  sources : gmap string ApprovedSource;
  images : gmap string RuntimeImage;
  bindings : gmap string ParticipantBinding;
  secrets : gmap string SecretReference;
}.
#[global] Instance eta_JobDB : Eta JobDB := fun d => mkJobDB (projects d) (jobs d) (job_attempts d) (pools d) (allocations d)
  (gpu_allocations d) (resources d) (outbox d) (job_events d) (log_chunks d) (artifacts d)
  (operations d) (job_members d) (job_idempotency d) (project_members d) (sources d) (images d) (bindings d) (secrets d).

Definition PROJECTS : Tab JobDB string Project := mkTab projects (fun f d => d <| projects ::= f |>).
Definition JOBS : Tab JobDB string Job := mkTab jobs (fun f d => d <| jobs ::= f |>).
Definition JOB_ATTEMPTS : Tab JobDB string Attempt := mkTab job_attempts (fun f d => d <| job_attempts ::= f |>).
Definition POOLS : Tab JobDB string Pool := mkTab pools (fun f d => d <| pools ::= f |>).
Definition ALLOCATIONS : Tab JobDB string Allocation := mkTab allocations (fun f d => d <| allocations ::= f |>).
Definition GPU_ALLOCATIONS : Tab JobDB string GpuAllocation := mkTab gpu_allocations (fun f d => d <| gpu_allocations ::= f |>).
Definition RESOURCES : Tab JobDB string ProvisioningResource := mkTab resources (fun f d => d <| resources ::= f |>).
Definition OUTBOX : Tab JobDB string Outbox := mkTab outbox (fun f d => d <| outbox ::= f |>).
Definition JOB_EVENTS : Tab JobDB string LifecycleEvent := mkTab job_events (fun f d => d <| job_events ::= f |>).
Definition LOG_CHUNKS : Tab JobDB string LogChunk := mkTab log_chunks (fun f d => d <| log_chunks ::= f |>).
Definition OPERATIONS : Tab JobDB string ProvisioningOperation := mkTab operations (fun f d => d <| operations ::= f |>).
Definition SOURCES : Tab JobDB string ApprovedSource := mkTab sources (fun f d => d <| sources ::= f |>).
Definition IMAGES : Tab JobDB string RuntimeImage := mkTab images (fun f d => d <| images ::= f |>).
Definition BINDINGS : Tab JobDB string ParticipantBinding := mkTab bindings (fun f d => d <| bindings ::= f |>).
Definition SECRETS : Tab JobDB string SecretReference := mkTab secrets (fun f d => d <| secrets ::= f |>).
Definition ARTIFACTS : Tab JobDB string Artifact := mkTab artifacts (fun f d => d <| artifacts ::= f |>).

(** ** Sessions: the database, the identifiers drawn so far, the reading of
    the clock, and the calls out of the process made so far *)
Record JobWorld := mkJobWorld { jw_db : JobDB; jw_ids : nat; jw_utc : Z; jw_calls : nat }.
#[global] Instance eta_JobWorld : Eta JobWorld := fun w => mkJobWorld (jw_db w) (jw_ids w) (jw_utc w) (jw_calls w).

Section JobSessions.
Context {P : Platform}.

Definition job_get {V} (T : Tab JobDB string V) (k : string) : M JobWorld (option V) := gets (fun w => t_get T (jw_db w) !! k).
Definition job_select {V} (T : Tab JobDB string V) (p : V -> bool) : M JobWorld (list V) := gets (fun w => rows p (t_get T (jw_db w))).
Definition job_update {V} (T : Tab JobDB string V) (f : gmap string V -> gmap string V) : M JobWorld unit :=
  modify (fun w => w <| jw_db ::= t_upd T f |>).
Definition job_set {V} (T : Tab JobDB string V) (k : string) (f : V -> V) : M JobWorld unit := job_update T (alter f k).

(** [session.add(row); session.flush()]: the key and the unique columns,
    [clash], must be free. *)
Definition job_add {V} (T : Tab JobDB string V) (clash : V -> bool) (k : string) (row : V) : M JobWorld unit :=
  let* old := job_get T k in
  let* clashes := job_select T clash in
  throw_if (match old, clashes with None, [] => false | _, _ => true end) IntegrityError ;;
  job_update T (insert k row).

(** [new_id()] *)
Definition new_id : M JobWorld string := fun w => (Ok (uuid4_hex (jw_ids w)), w <| jw_ids ::= S |>).

(** [utcnow()]; the clock stands still within a transaction. *)
Definition utcnow : M JobWorld Z := gets jw_utc.

(** [with self.database.transaction(...) as session: body] *)
Definition job_transaction {A} (body : M JobWorld A) : M JobWorld A :=
  fun w => match body w with
           | (Ok a, w') => (Ok a, w')
           | (Err e, w') => (Err e, w' <| jw_db := jw_db w |>)
           end.
End JobSessions.

(** [Error(status, code)] of a row that the code dereferences. *)
Definition row_or {S A} (o : option A) (e : exn) : M S A := match o with Some a => ret a | None => throw e end.

(** An [int] found in a JSON column, where the code computes with it. *)
Definition json_int (v : json) : result Z := match v with JInt n => Ok n | _ => Err TypeError end.
