(* ===== verification/Retention.v ===== *)
(** * Retained storage

    [hf2l_jobs.retention]: what a project is charged for the bytes its jobs
    own -- resources with an immutable size, reservations that are settled
    later, and log chunks -- and when a charge is released.  [now] is the
    reading of the service's clock. *)

From stdpp Require Import base gmap strings list sorting.
From Stdlib Require Import ZArith Lia Ascii.
From S2P Require Import Prelude Json Domain JobSpec JobModels.

Definition MAX_BYTES : Z := Z.shiftl 1 63 - 1.
Definition in_bytes (n : Z) : bool := (0 <=? n) && (n <=? MAX_BYTES).

(** ** Views *)
Definition retention_expiry (job : Job) (project : Project) : option Z :=
  match jb_terminated_at job with None => None | Some t => Some (t + timedelta_days (pj_retention_days project)) end.

Definition retention_summary (job : Job) (now : Z) : document :=
  [("expires_at", opt_iso (jb_artifacts_expire_at job));
   ("expired", JBool (match jb_artifacts_expire_at job with Some t => t <=? now | None => false end));
   ("cleanup_status", JStr (jb_cleanup_status job)); ("purged_at", opt_iso (jb_purged_at job))].

(** The lifecycle columns of [artifact_view]. *)
Definition artifact_expired (a : Artifact) (now : Z) : bool :=
  match ar_expires_at a with Some t => t <=? now | None => false end || mem_str (ar_state a) ["expired"; "deleting"; "deleted"].
Definition artifact_view (a : Artifact) (now : Z) : document :=
  let expired := artifact_expired a now in
  [("id", JStr (ar_id a));
   ("state", JStr (if expired && negb (String.eqb (ar_state a) "deleted") then "expired" else ar_state a));
   ("expires_at", opt_iso (ar_expires_at a)); ("deleted_at", opt_iso (ar_deleted_at a));
   ("download_available", JBool (negb expired && mem_str (ar_state a) ["available"; "retained"]))].

(** ** Pool accounting *)
Definition whole_bytes (amount : Z) : result Z :=
  if 0 <=? amount then Ok amount else Err (ValueError "Retained storage accounting returned non-integral bytes").

Definition allocated_on (pool_id : string) (a : Allocation) : Z :=
  if String.eqb (al_pool_id a) pool_id && negb (is_some (al_released_at a)) then al_disk_bytes a else 0.
Definition retained_allocation_on (pool_id : string) (a : Allocation) : Z :=
  if String.eqb (al_pool_id a) pool_id && bool_decide (al_state a = RELEASED) && is_some (al_released_at a)
     && truthy (get_or_none (al_details_json a) "retained_disk_charged") && negb (truthy (get_or_none (al_details_json a) "storage_deleted"))
  then al_disk_bytes a else 0.
Definition retained_on (pool_id : string) (exclude : option string) (r : ProvisioningResource) : Z :=
  if rs_retained r && negb (String.eqb (rs_state r) "deleted") && negb (String.eqb (rs_kind r) "execution_state")
     && negb (bool_decide (exclude = Some (rs_id r))) && py_eqb (get_or_none (rs_details_json r) "pool_id") (JStr pool_id)
  then rs_size_bytes r else 0.

(** [pool_used_bytes] *)
Definition pool_used_bytes (d : JobDB) (pool_id : string) (exclude : option string) : result Z :=
  let? total := whole_bytes (sum_map (allocated_on pool_id) (allocations d)) in
  Ok (total + sum_map (retained_allocation_on pool_id) (allocations d) + sum_map (retained_on pool_id exclude) (resources d)).

(** ** Charges *)
Definition CHARGED : string := "retention_charged_bytes".
Definition RELEASED_KEY : string := "retention_charge_released".
Definition SETTLED : string := "retention_charge_settled".
Definition RESERVATION : string := "retention_reservation_bytes".
Definition ACTUAL : string := "retention_actual_bytes".

(** [details.update(...)] *)
Definition update_details (details items : document) : document := merge_dicts details items.

Section Retention.
Context {P : Platform}.

(** [_reserve_project_bytes] *)
Definition reserve_project_bytes (project_id : string) (amount : Z) : M JobWorld unit :=
  raise_if (negb (in_bytes amount)) 422 "invalid_retained_size" ;;
  let* project := job_get PROJECTS project_id in
  let* project := row_or project AttributeError in
  let quota := pj_quotas_json project in
  let limit := match quota !! "retained_bytes" with
               | Some l => Some l
               | None => match quota !! "disk_bytes" with Some l => Some l | None => pj_quota_disk_bytes project end
               end in
  raise_if (match limit with Some l => l <? pj_retained_bytes project + amount | None => false end) 409 "retained_storage_quota_exceeded" ;;
  job_set PROJECTS project_id (fun p => p <| pj_retained_bytes ::= Z.add amount |> <| pj_version ::= Z.succ |>).

Definition release_project_bytes (project_id : string) (amount : Z) (bump : Z) : M JobWorld unit :=
  job_set PROJECTS project_id (fun p => p <| pj_retained_bytes ::= fun b => b - amount |> <| pj_version ::= Z.add bump |>).

(** [charge_in_transaction] *)
Definition charge_in_transaction (resource_id project_id : string) (size_bytes : Z) : M JobWorld bool :=
  raise_if (negb (in_bytes size_bytes)) 422 "invalid_retained_size" ;;
  let* r := job_get RESOURCES resource_id in
  let* r := row_or r AttributeError in
  let details := rs_details_json r in
  if has_key CHARGED details then
    raise_if (negb (py_eqb (get_or_none details CHARGED) (JInt size_bytes)) || truthy (get_or_none details RELEASED_KEY))
      409 "retained_resource_charge_conflict" ;;
    ret false
  else
    raise_if (String.eqb (rs_state r) "deleted" || is_some (rs_deleted_at r)) 409 "retained_resource_already_deleted" ;;
    reserve_project_bytes project_id size_bytes ;;
    job_set RESOURCES resource_id (fun r => r <| rs_retained := true |> <| rs_size_bytes := size_bytes |>
      <| rs_details_json := update_details details [(CHARGED, JInt size_bytes); (RELEASED_KEY, JBool false); (SETTLED, JBool true);
                                                   (ACTUAL, JInt size_bytes)] |>) ;;
    ret true.

(** [_reserve_pool_bytes] *)
Definition reserve_pool_bytes (r : ProvisioningResource) (pool : option Pool) (size_bytes : Z) : M JobWorld unit :=
  match pool with
  | Some pool =>
      if String.eqb (rs_kind r) "execution_state" then ret tt
      else
        let* used := (fun w => (pool_used_bytes (jw_db w) (po_id pool) (Some (rs_id r)), w)) in
        raise_if (po_disk_bytes pool <? used + size_bytes) 409 "retained_pool_storage_unavailable"
  | None => ret tt
  end.

(** [details.get(SETTLED, RESERVATION not in details)] *)
Definition settled_flag (details : document) : bool :=
  truthy (get_or details SETTLED (JBool (negb (has_key RESERVATION details)))).

(** [reserve_in_transaction] *)
Definition reserve_in_transaction (resource_id project_id : string) (max_bytes : Z) (pool : option Pool) : M JobWorld bool :=
  raise_if (negb (in_bytes max_bytes)) 422 "invalid_retained_size" ;;
  let* r := job_get RESOURCES resource_id in
  let* r := row_or r AttributeError in
  raise_if (String.eqb (rs_state r) "deleted" || is_some (rs_deleted_at r)) 409 "retained_resource_already_deleted" ;;
  let details := rs_details_json r in
  raise_if (negb (is_none (get_or_none details "pool_id"))
            && match pool with Some p => negb (py_eqb (JStr (po_id p)) (get_or_none details "pool_id")) | None => true end)
    409 "retained_resource_pool_context_required" ;;
  raise_if (truthy (get_or_none details RELEASED_KEY)) 409 "retained_resource_charge_conflict" ;;
  if has_key CHARGED details then
    (if settled_flag details then
       let* charged := lift (json_int (get_or_none details CHARGED)) in
       raise_if (max_bytes <? charged) 409 "retained_resource_exceeds_reservation" ;; ret false
     else
       raise_if (negb (py_eqb (get_or_none details RESERVATION) (JInt max_bytes))) 409 "retained_resource_reservation_conflict" ;;
       ret false)
  else
    reserve_pool_bytes r pool max_bytes ;;
    reserve_project_bytes project_id max_bytes ;;
    job_set RESOURCES resource_id (fun r => r <| rs_retained := true |> <| rs_size_bytes := max_bytes |>
      <| rs_details_json := update_details details [(CHARGED, JInt max_bytes); (RESERVATION, JInt max_bytes); (SETTLED, JBool false);
                                                   (RELEASED_KEY, JBool false)] |>) ;;
    ret true.

(** [_locked_resource]: the owning project and the pool of the resource. *)
Definition owned_by (r : ProvisioningResource) (job_id : string) : bool :=
  String.eqb (rs_job_id r) job_id && py_eqb (get_or_none (rs_ownership_json r) "job_id") (JStr job_id).
Definition locked_resource (resource_id job_id : string) : M JobWorld (string * ProvisioningResource * option Pool) :=
  let* r := job_get RESOURCES resource_id in
  let* r := row_or r (ExchangeError 409 "retained_resource_ownership_mismatch" "retained_resource_ownership_mismatch") in
  raise_if (negb (owned_by r job_id)) 409 "retained_resource_ownership_mismatch" ;;
  let* pool := (match get_or_none (rs_details_json r) "pool_id" with
                | JNull => ret None
                | JStr pool_id =>
                    let* pool := job_get POOLS pool_id in
                    let* pool := row_or pool (ExchangeError 409 "retained_resource_pool_not_found" "retained_resource_pool_not_found") in
                    ret (Some pool)
                | _ => raise 409 "retained_resource_pool_not_found"
                end) in
  let* job := job_get JOBS job_id in
  let* job := row_or job (ExchangeError 404 "job_not_found" "job_not_found") in
  ret (jb_project_id job, r, pool).

(** [charge_resource] *)
Definition charge_resource (resource_id job_id : string) (size_bytes : Z) : M JobWorld bool :=
  job_transaction (
    let* '(project_id, r, pool) := locked_resource resource_id job_id in
    reserve_pool_bytes r pool size_bytes ;;
    charge_in_transaction resource_id project_id size_bytes).

(** [reserve_resource] *)
Definition reserve_resource (resource_id job_id : string) (max_bytes : Z) : M JobWorld bool :=
  job_transaction (
    let* '(project_id, r, pool) := locked_resource resource_id job_id in
    reserve_in_transaction resource_id project_id max_bytes pool).

(** [settle_resource] *)
Definition settle_resource (resource_id job_id : string) (actual_bytes : Z) : M JobWorld bool :=
  raise_if (negb (in_bytes actual_bytes)) 422 "invalid_retained_size" ;;
  job_transaction (
    let* '(project_id, r, pool) := locked_resource resource_id job_id in
    let details := rs_details_json r in
    raise_if (String.eqb (rs_state r) "deleted" || is_some (rs_deleted_at r) || truthy (get_or_none details RELEASED_KEY))
      409 "retained_resource_already_deleted" ;;
    raise_if (negb (has_key CHARGED details)) 409 "retained_resource_reservation_required" ;;
    if settled_flag details then
      raise_if (negb (py_eqb (get_or_none details CHARGED) (JInt actual_bytes))) 409 "retained_resource_charge_conflict" ;;
      ret false
    else
      raise_if (match get_or_none details RESERVATION with JInt reserved => reserved <? actual_bytes | _ => true end)
        409 "retained_resource_exceeds_reservation" ;;
      let* charged := lift (json_int (get_or_none details CHARGED)) in
      let release := charged - actual_bytes in
      let* project := job_get PROJECTS project_id in
      let* project := row_or project AttributeError in
      raise_if ((release <? 0) || (pj_retained_bytes project <? release)) 409 "retained_storage_ledger_inconsistent" ;;
      release_project_bytes project_id release (Z.b2z (0 <? release)) ;;
      job_set RESOURCES resource_id (fun r => r <| rs_size_bytes := actual_bytes |>
        <| rs_details_json := update_details details [(CHARGED, JInt actual_bytes); (ACTUAL, JInt actual_bytes); (SETTLED, JBool true)] |>) ;;
      ret true).

(** [confirm_resource_deleted] *)
Definition confirm_resource_deleted (now : Z) (resource_id job_id : string) : M JobWorld bool :=
  job_transaction (
    let* '(project_id, r, pool) := locked_resource resource_id job_id in
    raise_if (negb (String.eqb (rs_state r) "deleted") || negb (is_some (rs_deleted_at r))) 409 "resource_deletion_unconfirmed" ;;
    let details := rs_details_json r in
    if truthy (get_or_none details RELEASED_KEY) then ret false
    else
      let* amount := lift (json_int (get_or details CHARGED (JInt 0))) in
      let* project := job_get PROJECTS project_id in
      let* project := row_or project AttributeError in
      raise_if (pj_retained_bytes project <? amount) 409 "retained_storage_ledger_inconsistent" ;;
      release_project_bytes project_id amount 1 ;;
      job_set RESOURCES resource_id (fun r => r <| rs_details_json :=
        update_details details [(RELEASED_KEY, JBool true); ("retention_released_at", JStr (iso now))] |>) ;;
      ret true).

(** ** Logs *)

(** [raw[:n].decode("utf-8", errors="ignore")] of a valid encoding: the bytes
    of an incomplete last character are dropped. *)
Fixpoint drop_continuation (l : list ascii) : list ascii :=
  match l with
  | [] => []
  | c :: l' => if is_continuation c then drop_continuation l' else l'
  end.
Definition utf8_prefix (n : nat) (raw : string) : string :=
  let prefix := String.substring 0 n raw in
  match String.get n raw with
  | Some c => if is_continuation c then String.string_of_list_ascii (rev (drop_continuation (rev (chars prefix)))) else prefix
  | None => prefix
  end.

Definition LOG_MARKER : string := "[manager log budget exhausted; further output omitted]" +:+ String "010"%char "".
Definition log_external_id (c : LogChunk) : string :=
  "hf2l-log://" +:+ lc_job_id c +:+ "/" +:+ str_of_int (lc_attempt_number c) +:+ "/" +:+ lc_component c.

(** The text a chunk keeps under [remaining] bytes of its budget. *)
Definition bounded_log (raw : string) (remaining : Z) : string :=
  if utf8_len LOG_MARKER <=? remaining
  then utf8_prefix (Z.to_nat (remaining - utf8_len LOG_MARKER)) raw +:+ LOG_MARKER
  else utf8_prefix (Z.to_nat remaining) raw.

(** The checks of a prepaid budget: its ownership, and its ledger. *)
Definition log_budget_owned (project_id : string) (job : option Job) (budget : ProvisioningResource) (chunk : LogChunk) : bool :=
  let details := rs_details_json budget in
  match job with
  | None => false
  | Some job =>
      String.eqb (jb_project_id job) project_id && String.eqb (rs_job_id budget) (lc_job_id chunk)
      && String.eqb (rs_component_id budget) (lc_component chunk) && String.eqb (rs_kind budget) "log_budget"
      && py_eqb (JObj (rs_ownership_json budget))
           (JObj [("job_id", JStr (lc_job_id chunk)); ("component_id", JStr (lc_component chunk)); ("kind", JStr "log_budget")])
      && py_eqb (get_or_none details "attempt_number") (JInt (lc_attempt_number chunk))
      && String.eqb (rs_external_id budget) (log_external_id chunk)
      && negb (String.eqb (rs_state budget) "deleted") && negb (is_some (rs_deleted_at budget))
      && negb (truthy (get_or_none details RELEASED_KEY)) && rs_retained budget
  end.

(** The prepaid maximum, the bytes consumed and the last sequence. *)
Definition log_ledger (project : Project) (budget : ProvisioningResource) : option (Z * Z * Z) :=
  let details := rs_details_json budget in
  match get_or_none details RESERVATION, get_or details "log_consumed_bytes" (JInt 0), get_or details "log_last_sequence" (JInt 0) with
  | JInt maximum, JInt consumed, JInt last_sequence =>
      if (0 <=? consumed) && (consumed <=? maximum) && py_eqb (get_or_none details CHARGED) (JInt maximum)
         && (rs_size_bytes budget =? maximum) && (maximum <=? pj_retained_bytes project) && (maximum <=? 1024 * 1024)
      then Some (maximum, consumed, last_sequence) else None
  | _, _, _ => None
  end.

(** A chunk whose sequence was already accepted. *)
Definition log_replayed (previous : option LogChunk) (chunk : LogChunk) : bool :=
  match previous with
  | Some p => String.eqb (lc_job_id p) (lc_job_id chunk) && String.eqb (lc_component p) (lc_component chunk)
              && (lc_attempt_number p =? lc_attempt_number chunk) && (lc_charged_bytes p =? 0)
  | None => false
  end.

(** [charge_log_in_transaction]; a chunk that is kept becomes a row. *)
Definition charge_log_in_transaction (project_id : string) (chunk : LogChunk) (budget : option string) : M JobWorld bool :=
  let raw := lc_data chunk in
  let amount := utf8_len raw in
  raise_if (65536 <? amount) 422 "log_chunk_exceeds_bound" ;;
  match budget with
  | Some budget_id =>
      let* budget := job_get RESOURCES budget_id in
      let* budget := row_or budget AttributeError in
      let* job := job_get JOBS (lc_job_id chunk) in
      raise_if (negb (log_budget_owned project_id job budget chunk)) 409 "retained_resource_ownership_mismatch" ;;
      let details := rs_details_json budget in
      let* project := job_get PROJECTS project_id in
      let* project := row_or project AttributeError in
      match log_ledger project budget with
      | None => raise 409 "retained_storage_ledger_inconsistent"
      | Some (maximum, consumed, last_sequence) =>
          if lc_sequence chunk <=? last_sequence then
            let* previous := job_get LOG_CHUNKS (lc_id chunk) in
            raise_if (negb (log_replayed previous chunk)) 409 "retained_log_charge_conflict" ;;
            ret false
          else
            raise_if (negb (lc_charged_bytes chunk =? 0)) 409 "retained_log_charge_conflict" ;;
            let remaining := maximum - consumed in
            let exhausted := truthy (get_or_none details "log_budget_exhausted") in
            let truncated := (remaining <? amount) || exhausted in
            let data := if exhausted then "" else if truncated then bounded_log raw remaining else raw in
            let consumed := consumed + utf8_len data in
            job_update LOG_CHUNKS (insert (lc_id chunk) (chunk <| lc_data := data |> <| lc_charged_bytes := 0 |>)) ;;
            job_set RESOURCES budget_id (fun r => r <| rs_details_json := update_details details
              [("log_consumed_bytes", JInt consumed); ("log_last_sequence", JInt (lc_sequence chunk)); ("log_last_chunk_id", JStr (lc_id chunk));
               ("log_truncated", JBool (truthy (get_or_none details "log_truncated") || truncated));
               ("log_budget_exhausted", JBool (exhausted || truncated || (consumed =? maximum)))] |>) ;;
            ret true
      end
  | None =>
      let previous := lc_charged_bytes chunk in
      if negb (previous =? 0) then
        raise_if (negb (previous =? amount)) 409 "retained_log_charge_conflict" ;; ret false
      else
        reserve_project_bytes project_id amount ;;
        job_update LOG_CHUNKS (insert (lc_id chunk) (chunk <| lc_charged_bytes := amount |>)) ;;
        ret true
  end.

(** ** Collections *)

(** The checks of one child of a collection, and its entry of the manifest. *)
Definition collected (reservation : ProvisioningResource) (job_id : string) (child : ProvisioningResource) : result (string * json) :=
  let details := rs_details_json reservation in
  let pool_id := get_or_none (rs_details_json child) "pool_id" in
  if String.eqb (rs_id child) (rs_id reservation) || negb (owned_by child job_id) || String.eqb (rs_state child) "deleted"
     || is_some (rs_deleted_at child) || String.eqb (rs_kind child) "execution_state" || negb (in_bytes (rs_size_bytes child))
  then Error 409 "retained_resource_ownership_mismatch"
  else if negb (is_none pool_id) && negb (py_eqb pool_id (get_or_none details "pool_id")) then Error 409 "retained_resource_ownership_mismatch"
  else Ok (rs_id child, JInt (rs_size_bytes child)).

Definition SOURCE : string := "retention_reservation_source".

(** One child: the bytes left of the reservation and the bytes transferred. *)
Definition transfer_child (reservation : ProvisioningResource) (settled : bool) (left : Z * Z) (child_id : string) : M JobWorld (Z * Z) :=
  let* child := job_get RESOURCES child_id in
  let* child := row_or child AttributeError in
  let amount := rs_size_bytes child in
  let data := rs_details_json child in
  if has_key CHARGED data then
    raise_if (negb (py_eqb (get_or_none data CHARGED) (JInt amount)) || truthy (get_or_none data RELEASED_KEY)
              || negb (py_eqb (get_or_none data SOURCE) (JStr (rs_id reservation)))) 409 "retained_resource_charge_conflict" ;;
    ret left
  else
    raise_if (settled || (left.1 <? amount)) 409 "retained_resource_exceeds_reservation" ;;
    let pool_id := get_or_none (rs_details_json reservation) "pool_id" in
    job_set RESOURCES child_id (fun r => r <| rs_retained := true |> <| rs_details_json := update_details data
      ([(CHARGED, JInt amount); (RELEASED_KEY, JBool false); (SETTLED, JBool true); (ACTUAL, JInt amount); (SOURCE, JStr (rs_id reservation))]
       ++ (if is_none pool_id then [] else [("pool_id", pool_id)])) |>) ;;
    ret (left.1 - amount, left.2 + amount).

(** [transfer_reserved_in_transaction] *)
Definition transfer_reserved_in_transaction (reservation_id project_id : string) (children : list string) (retain_unused : bool) : M JobWorld (Z * Z) :=
  raise_if ((10000 <? Z.of_nat (List.length children)) || negb (bool_decide (NoDup children))) 422 "invalid_retained_collection" ;;
  let* reservation := job_get RESOURCES reservation_id in
  let* reservation := row_or reservation AttributeError in
  let* job := job_get JOBS (rs_job_id reservation) in
  raise_if (match job with
            | None => true
            | Some job => negb (String.eqb project_id (jb_project_id job)) || negb (owned_by reservation (jb_id job))
                          || String.eqb (rs_state reservation) "deleted" || is_some (rs_deleted_at reservation)
            end) 409 "retained_resource_ownership_mismatch" ;;
  let details := rs_details_json reservation in
  raise_if (negb (has_key RESERVATION details) || truthy (get_or_none details RELEASED_KEY)) 409 "retained_resource_reservation_required" ;;
  let* available := lift (json_int (get_or details CHARGED (JInt 0))) in
  let settled := truthy (get_or details SETTLED (JBool false)) in
  let* manifest := mapM (fun id => let* child := job_get RESOURCES id in
                                   let* child := row_or child AttributeError in
                                   lift (collected reservation (rs_job_id reservation) child)) children in
  raise_if (settled && (negb (py_eqb (get_or details "retention_retain_unused" (JBool false)) (JBool retain_unused))
                        || negb (py_eqb (get_or details "retention_collection_manifest" (JObj manifest)) (JObj manifest))))
    409 "retained_resource_charge_conflict" ;;
  let* '(available, transferred) := foldM (transfer_child reservation settled) (available, 0) children in
  let* project := job_get PROJECTS project_id in
  let* project := row_or project AttributeError in
  raise_if (pj_retained_bytes project <? available) 409 "retained_storage_ledger_inconsistent" ;;
  let released := if negb settled && negb retain_unused then available else 0 in
  release_project_bytes project_id released (Z.b2z (0 <? released)) ;;
  let remaining := if retain_unused then available else 0 in
  let* before := lift (json_int (get_or details "retention_transferred_bytes" (JInt 0))) in
  job_set RESOURCES reservation_id (fun r => r <| rs_size_bytes := remaining |> <| rs_details_json := update_details details
    [(CHARGED, JInt remaining); (ACTUAL, JInt 0); (SETTLED, JBool true); ("retention_retain_unused", JBool retain_unused);
     ("retention_conservative_footprint", JBool retain_unused); ("retention_collection_manifest", JObj manifest);
     ("retention_transferred_bytes", JInt (before + transferred))] |>) ;;
  ret (transferred, released).

(** ** The end of a job's data *)

(** [deleted_or_audit_only] *)
Definition deleted_or_audit_only (r : ProvisioningResource) : bool :=
  (String.eqb (rs_state r) "deleted" && is_some (rs_deleted_at r))
  || (String.eqb (rs_state r) "retired" && mem_str (rs_kind r) ["exchange_space"; "exchange_member"] && (rs_size_bytes r =? 0)
      && negb (truthy (get_or (rs_details_json r) CHARGED (JInt 0)))).
(** [owned_database_logs] *)
Definition owned_database_logs (job_id : string) (r : ProvisioningResource) : bool :=
  let details := rs_details_json r in
  match get_or_none details "attempt_number", get_or_none details RESERVATION with
  | JInt number, JInt reserved =>
      String.eqb (rs_kind r) "log_budget" && (1 <=? number)
      && py_eqb (JObj (rs_ownership_json r)) (JObj [("job_id", JStr job_id); ("component_id", JStr (rs_component_id r)); ("kind", JStr "log_budget")])
      && String.eqb (rs_external_id r) ("hf2l-log://" +:+ job_id +:+ "/" +:+ str_of_int number +:+ "/" +:+ rs_component_id r)
      && py_eqb (get_or_none details CHARGED) (JInt reserved) && (rs_size_bytes r =? reserved)
  | _, _ => false
  end.

(** [details.get(CHARGED, 0)] of the charges that are not released. *)
Definition release_row (now : Z) (released : Z) (r : ProvisioningResource) : M JobWorld Z :=
  let details := rs_details_json r in
  if truthy (get_or_none details RELEASED_KEY) then ret released
  else
    let* amount := lift (json_int (get_or details CHARGED (JInt 0))) in
    job_set RESOURCES (rs_id r) (fun r => r <| rs_details_json := update_details details
      [(RELEASED_KEY, JBool true); ("retention_released_at", JStr (iso now))] |>) ;;
    ret (released + amount).

Definition next_sequence (job_id : string) : M JobWorld Z :=
  let* events := job_select JOB_EVENTS (fun e => String.eqb (le_job_id e) job_id) in
  ret (foldr Z.max 0 (map le_sequence events) + 1).
Definition add_event (job_id : string) (kind : string) (version epoch : option Z) (data : document) (now : Z) : M JobWorld unit :=
  let* sequence := next_sequence job_id in
  let* id := new_id in
  job_add JOB_EVENTS (fun e => String.eqb (le_job_id e) job_id && (le_sequence e =? sequence)) id
    (mkLifecycleEvent id job_id sequence kind None version epoch data now).

(** [confirm_job_data_deleted] *)
Definition confirm_job_data_deleted (now : Z) (job_id : string) : M JobWorld Z :=
  job_transaction (
    let* job := job_get JOBS job_id in
    let* job := row_or job (ExchangeError 404 "job_not_found" "job_not_found") in
    let project_id := jb_project_id job in
    raise_if (negb (job_terminal (jb_state job))) 409 "retention_requires_terminal" ;;
    let* owned := job_select RESOURCES (fun r => String.eqb (rs_job_id r) job_id && rs_retained r) in
    raise_if (existsb (fun r => negb (deleted_or_audit_only r) && negb (owned_database_logs job_id r)) owned) 409 "resource_deletion_unconfirmed" ;;
    let* released := foldM (release_row now) 0 owned in
    let* logs := job_select LOG_CHUNKS (fun c => String.eqb (lc_job_id c) job_id) in
    let released := released + foldr Z.add 0 (map lc_charged_bytes logs) in
    job_update LOG_CHUNKS (fmap (fun c => if String.eqb (lc_job_id c) job_id
      then c <| lc_charged_bytes := 0 |> <| lc_data := "" |> <| lc_deleted_at ::= fun t => Some (default now t) |> else c)) ;;
    for_each owned (fun r => when (owned_database_logs job_id r)
      (job_set RESOURCES (rs_id r) (fun r => r <| rs_state := "deleted" |> <| rs_deleted_at ::= fun t => Some (default now t) |>))) ;;
    let* project := job_get PROJECTS project_id in
    let* project := row_or project AttributeError in
    raise_if (pj_retained_bytes project <? released) 409 "retained_storage_ledger_inconsistent" ;;
    release_project_bytes project_id released (Z.b2z (0 <? released)) ;;
    job_update ARTIFACTS (fmap (fun a => if String.eqb (ar_job_id a) job_id
      then a <| ar_state := "deleted" |> <| ar_deleted_at ::= fun t => Some (default now t) |> else a)) ;;
    when (negb (String.eqb (jb_cleanup_status job) "expired")) (
      job_set JOBS job_id (fun j => j <| jb_cleanup_status := "expired" |> <| jb_version ::= Z.succ |> <| jb_updated_at := now |>) ;;
      add_event job_id "retention.deletion_confirmed" None None
        [("released_bytes", JInt released); ("metadata_retained", JBool true)] now) ;;
    ret released).

(** ** [request_expiry] *)
Definition expiry_due (now : Z) (j : Job) : bool :=
  job_terminal (jb_state j) && negb (is_some (jb_purged_at j))
  && match jb_artifacts_expire_at j with Some t => t <=? now | None => false end
  && negb (mem_str (jb_cleanup_status j) ["purge_pending"; "expiry_pending"; "expired"]).
Definition expiry_order (a b : Job) : Prop :=
  let t j := default 0 (jb_artifacts_expire_at j) in t a < t b \/ t a = t b /\ String.compare (jb_id a) (jb_id b) <> Gt.
#[local] Instance expiry_order_dec : RelDecision expiry_order.
Proof. intros a b. unfold expiry_order. apply _. Defined.

Definition request_expiry_of (now : Z) (job : Job) : M JobWorld bool :=
  let* active := job_select ALLOCATIONS (fun a => String.eqb (al_job_id a) (jb_id job) && negb (is_some (al_released_at a))) in
  match active with
  | _ :: _ => ret false
  | [] =>
      let expires := match jb_artifacts_expire_at job with Some t => iso t | None => "None" end in
      let key := "retention:" +:+ jb_id job +:+ ":" +:+ expires in
      let* existing := job_select OUTBOX (fun o => String.eqb (ob_idempotency_key o) key) in
      let* go := (match existing with
                  | [] =>
                      let id := String.substring 0 32 (sha256_hex key) in
                      job_add OUTBOX (fun o => String.eqb (ob_idempotency_key o) key) id
                        (fresh_outbox id (jb_id job) None (jb_current_attempt job) "expire_artifacts"
                           [("expires_at", JStr expires); ("preserve_metadata", JBool true); ("confirm_before_release", JBool true)]
                           key now) ;;
                      add_event (jb_id job) "retention.expiry_requested" None None [("expires_at", JStr expires)] now ;;
                      ret true
                  | o :: _ => ret (negb (String.eqb (ob_state o) "done"))
                  end) in
      if go then
        job_set JOBS (jb_id job) (fun j => j <| jb_cleanup_status := "expiry_pending" |> <| jb_version ::= Z.succ |> <| jb_updated_at := now |>) ;;
        ret true
      else ret false
  end.

Definition request_expiry (now : Z) (limit : Z) : M JobWorld (list string) :=
  throw_if (negb ((1 <=? limit) && (limit <=? 1000))) (ValueError "Retention scan limit must be between 1 and 1000") ;;
  job_transaction (
    let* due := job_select JOBS (expiry_due now) in
    foldM (fun requested job => let* asked := request_expiry_of now job in ret (if asked then requested ++ [jb_id job] else requested))
      [] (take (Z.to_nat limit) (merge_sort expiry_order due))).
End Retention.
