(* ===== verification/BlobBudget.v ===== *)
(** * Prepaid object storage of a job

    [hf2l_jobs.blob_budget]: the bound on everything a job may upload to its
    exchange space, the plan the scheduler reserves it with, and the checks that
    the reservation belongs to the job's immutable specification. *)

From stdpp Require Import base gmap strings list.
From Stdlib Require Import ZArith Lia.
From S2P Require Import Prelude Json Domain JobSpec JobModels Retention.

Definition BLOB_KIND : string := "exchange_blob_budget".
(** [raise ResourceError(...)], a [RuntimeError]. *)
Definition resource_error {A} (message : string) : result A := Err (RuntimeError message).

Record Budget := mkBudget { bb_quota_bytes : Z; bb_principal_quota_bytes : Z; bb_component_id : string }.

(** [checkpoint_budget] *)
Definition owner_of (spec : JobSpec) : result ComponentSpec :=
  match List.find (fun c => bool_decide (cs_role c = OWNER)) (js_components spec) with
  | Some c => Ok c
  | None => Err (RuntimeError "StopIteration")
  end.
Definition checkpoint_budget (spec : JobSpec) : result Budget :=
  let? owner := owner_of spec in
  let disk := rq_disk_bytes (cs_resources owner) in
  let quota := disk * (1 + js_target_round spec * (1 + Z.of_nat (List.length (js_participants spec)))) in
  let principal := disk * (js_target_round spec + 1) in
  if negb ((1 <=? principal) && (principal <=? quota) && (quota <=? MAX_BYTES))
  then resource_error "Exchange checkpoint budget exceeds the supported byte range"
  else Ok (mkBudget quota principal (cs_component_id owner)).

(** [external_id] *)
Definition blob_external_id (job_id : string) : result string :=
  let? id := validate_identifier job_id in Ok ("hf2l-exchange-blobs://" +:+ id).

Section BlobBudget.
Context {P : Platform} {U : Unicode}.

(** [_spec] *)
Definition immutable_spec (job : Job) : result JobSpec :=
  let? spec := validate_spec (jb_spec job) in
  let? hash := digest spec in
  if String.eqb (jb_spec_hash job) hash then Ok spec else resource_error "Exchange budget immutable specification changed".

(** [_details] *)
Definition budget_details (job : Job) (pool_id : string) : result (Budget * document) :=
  let? spec := immutable_spec job in
  let? budget := checkpoint_budget spec in
  let? hash := digest spec in
  Ok (budget, [("spec_digest", JStr hash); ("pool_id", JStr pool_id); ("quota_bytes", JInt (bb_quota_bytes budget));
               ("principal_quota_bytes", JInt (bb_principal_quota_bytes budget)); ("reservation_max_bytes", JInt (bb_quota_bytes budget));
               ("absolute_target_round", JInt (js_target_round spec));
               ("participant_count", JInt (Z.of_nat (List.length (js_participants spec))))]).

(** [_verify_row] *)
Definition verify_row (job : Job) (r : ProvisioningResource) : result (Budget * document) :=
  let? spec := immutable_spec job in
  let? budget := checkpoint_budget spec in
  let? hash := digest spec in
  let? external := blob_external_id (jb_id job) in
  let details := rs_details_json r in
  if negb (String.eqb (rs_kind r) BLOB_KIND) || negb (String.eqb (rs_external_id r) external)
     || negb (py_eqb (JObj (rs_ownership_json r))
                (JObj [("job_id", JStr (jb_id job)); ("component_id", JStr (bb_component_id budget)); ("kind", JStr BLOB_KIND)]))
     || negb (String.eqb (rs_component_id r) (bb_component_id budget))
     || negb (py_eqb (get_or_none details "spec_digest") (JStr hash))
     || negb (py_eqb (get_or_none details "quota_bytes") (JInt (bb_quota_bytes budget)))
     || negb (py_eqb (get_or_none details "principal_quota_bytes") (JInt (bb_principal_quota_bytes budget)))
     || negb (py_eqb (get_or_none details "reservation_max_bytes") (JInt (bb_quota_bytes budget)))
  then resource_error "Exchange model budget belongs to another immutable job"
  else match get_or_none details "pool_id" with
       | JStr pool_id => let? _ := validate_identifier pool_id in Ok (budget, details)
       | _ => resource_error "Exchange model budget belongs to another immutable job"
       end.

(** [plan_blob_budget] *)
Definition plan_blob_budget (job : Job) (pool_id : option string) (ledger_rows : list ProvisioningResource) : result document :=
  let? found :=
    match List.filter (fun r => String.eqb (rs_kind r) BLOB_KIND) ledger_rows with
    | [] =>
        match pool_id with
        | None => resource_error "An approved Exchange object-storage budget pool is required"
        | Some pool_id =>
            let? pool_id := validate_identifier pool_id in
            let? bd := budget_details job pool_id in
            Ok (JStr pool_id, bd.1, bd.2)
        end
    | [r] =>
        let? bd := verify_row job r in
        if String.eqb (rs_state r) "deleted" || truthy (get_or_none bd.2 RELEASED_KEY)
        then resource_error "Deleted Exchange model budget cannot be reused"
        else Ok (get_or_none bd.2 "pool_id", bd.1, bd.2)
    | _ => resource_error "Job owns multiple unexpected Exchange model budgets"
    end in
  let '(pool_id, budget, details) := found in
  let? external := blob_external_id (jb_id job) in
  Ok [("kind", JStr BLOB_KIND); ("external_id", JStr external); ("component_id", JStr (bb_component_id budget));
      ("pool_id", pool_id); ("max_bytes", JInt (bb_quota_bytes budget)); ("details", JObj details)].

(** The identity of the reservation of a job. *)
Definition blob_identity (job_id : string) : result string :=
  let? external := blob_external_id job_id in
  Ok (String.substring 0 32 (stable_key ["resource"; job_id; BLOB_KIND; external])).

(** A pool for object storage only, apart from the pools of the components. *)
Definition object_pool_ok (spec : JobSpec) (pool : Pool) (for_cleanup : bool) : bool :=
  (match get_or_none (po_details_json pool) "object_store" with JBool true => true | _ => false end)
  && (po_cpu_millicores pool =? 0) && (po_memory_bytes pool =? 0)
  && (match po_gpu_uuids pool with [] => true | _ => false end)
  && negb (mem_str (po_id pool) (map (fun c => rq_pool_id (cs_resources c)) (js_components spec)))
  && (for_cleanup || (po_healthy pool && negb (po_quarantined pool))).

(** The reservation is charged in full and not released. *)
Definition fully_prepaid (job_id : string) (budget : Budget) (details : document) (r : ProvisioningResource) : bool :=
  String.eqb (rs_job_id r) job_id && negb (String.eqb (rs_state r) "deleted") && negb (is_some (rs_deleted_at r))
  && rs_retained r && (rs_size_bytes r =? bb_quota_bytes budget)
  && py_eqb (get_or_none details CHARGED) (JInt (bb_quota_bytes budget))
  && negb (truthy (get_or_none details RELEASED_KEY))
  && py_eqb (get_or details RESERVATION (JInt (bb_quota_bytes budget))) (JInt (bb_quota_bytes budget)).

Definition no_active_allocation (job_id : string) : M JobWorld bool :=
  let* active := job_select ALLOCATIONS (fun a => String.eqb (al_job_id a) job_id && negb (is_some (al_released_at a))) in
  ret (match active with [] => true | _ => false end).

(** [require_blob_budget] *)
Definition require_blob_budget (job : Job) (for_cleanup : bool) : M JobWorld document :=
  let* identity := lift (blob_identity (jb_id job)) in
  job_transaction (
    let* owned := job_get JOBS (jb_id job) in
    let* spec := lift (immutable_spec job) in
    let* hash := lift (digest spec) in
    match owned with
    | None => lift (resource_error "Exchange budget has no durable immutable job")
    | Some owned =>
        throw_if (negb (String.eqb (jb_spec_hash owned) hash)) (RuntimeError "Exchange budget has no durable immutable job") ;;
        let terminal := job_terminal (jb_state owned) in
        let* idle := no_active_allocation (jb_id job) in
        throw_if ((negb for_cleanup && terminal) || (for_cleanup && (negb terminal || negb idle)))
          (RuntimeError "Exchange budget execution or cleanup lifecycle is not authorized") ;;
        let* r := job_get RESOURCES identity in
        let* r := row_or r (RuntimeError "Exchange model object budget has not been reserved") in
        let* bd := lift (verify_row job r) in
        let* pool := (match get_or_none bd.2 "pool_id" with JStr id => job_get POOLS id | _ => ret None end) in
        throw_if (match pool with Some p => negb (object_pool_ok spec p for_cleanup) | None => true end)
          (RuntimeError "Exchange budget requires a distinct approved object-storage pool") ;;
        throw_if (negb (fully_prepaid (jb_id job) bd.1 bd.2 r)) (RuntimeError "Exchange model object budget has not been fully prepaid") ;;
        ret [("resource_id", JStr (rs_id r)); ("quota_bytes", JInt (bb_quota_bytes bd.1));
             ("principal_quota_bytes", JInt (bb_principal_quota_bytes bd.1)); ("pool_id", get_or_none bd.2 "pool_id");
             ("space_id", get_or_none bd.2 "space_id")]
    end).

(** [ResourceLedger.deleted] *)
Definition ledger_deleted (now : Z) (resource_id job_id : string) : M JobWorld unit :=
  job_transaction (
    let* r := job_get RESOURCES resource_id in
    throw_if (match r with Some r => negb (owned_by r job_id) | None => true end) (RuntimeError "Cannot remove foreign resource") ;;
    job_set RESOURCES resource_id (fun r => r <| rs_state := "deleted" |> <| rs_deleted_at := Some now |>)).

(** [confirm_blob_cleanup] *)
Definition retirement_observed (job_id space_id : string) (observation : document) : bool :=
  py_eqb (get_or_none observation "job_id") (JStr job_id) && py_eqb (get_or_none observation "space_id") (JStr space_id)
  && py_eqb (get_or_none observation "status") (JStr "retired")
  && (match get_or_none observation "cleanup_pending" with JBool false => true | _ => false end).
Definition confirm_blob_cleanup (now : Z) (job : Job) (space_id : string) (observation : document) : M JobWorld bool :=
  if negb (retirement_observed (jb_id job) space_id observation) then ret false
  else
    let* identity := lift (blob_identity (jb_id job)) in
    job_transaction (
      let* r := job_get RESOURCES identity in
      let* owned := job_get JOBS (jb_id job) in
      let* spec := lift (immutable_spec job) in
      let* hash := lift (digest spec) in
      throw_if (match owned with
                | Some owned => negb (String.eqb (jb_spec_hash owned) hash) || negb (job_terminal (jb_state owned))
                | None => true
                end) (RuntimeError "Exchange cleanup requires an owned terminal job") ;;
      let* idle := no_active_allocation (jb_id job) in
      throw_if (negb idle) (RuntimeError "Exchange cleanup requires confirmed allocation release") ;;
      let* r := row_or r (RuntimeError "Exchange cleanup has no owned object budget") in
      let* bd := lift (verify_row job r) in
      throw_if (negb (String.eqb (rs_job_id r) (jb_id job)) || negb (py_eqb (get_or_none bd.2 "space_id") (JStr space_id)))
        (RuntimeError "Exchange cleanup belongs to another namespace") ;;
      job_set RESOURCES identity (fun r => r <| rs_details_json :=
        update_details bd.2 [("blob_cleanup_confirmed", JBool true); ("blob_cleanup_space_id", JStr space_id)] |>)) ;;
    ledger_deleted now identity (jb_id job) ;;
    confirm_resource_deleted now identity (jb_id job) ;;
    ret true.
End BlobBudget.
