(* ===== verification/Scheduler.v ===== *)
(** * The gang scheduler

    [hf2l_jobs.scheduler]: requests of a job per pool, permanent admission
    checks, and one pass over the queue in one transaction -- usage ledgers,
    eligibility, the storage a job prepays, quotas, capacity, protection of
    older requests, and the admission of a whole gang.  The planner of a job's
    storage ([admission_storage]) is a parameter; [default_admission_storage]
    is the one the controller supplies. *)

From stdpp Require Import base gmap strings list sorting.
From Stdlib Require Import ZArith Lia.
From S2P Require Import Prelude Json Order Domain Placement JobSpec JobModels Retention BlobBudget.

(** ** Amounts of the four resource dimensions *)
Inductive Dim := CPU | MEMORY | DISK | GPU.
#[global] Instance dim_eq_dec : EqDecision Dim.
Proof. solve_decision. Defined.
Definition RESOURCE_DIMENSIONS : list Dim := [CPU; MEMORY; DISK; GPU].
Definition dim_name (k : Dim) : string :=
  match k with CPU => "cpu_millicores" | MEMORY => "memory_bytes" | DISK => "disk_bytes" | GPU => "gpu_count" end.

Record Amounts := mkAmounts { am_cpu : Z; am_memory : Z; am_disk : Z; am_gpu : Z }.
Definition amount (k : Dim) (a : Amounts) : Z :=
  match k with CPU => am_cpu a | MEMORY => am_memory a | DISK => am_disk a | GPU => am_gpu a end.
Definition of_dims (f : Dim -> Z) : Amounts := mkAmounts (f CPU) (f MEMORY) (f DISK) (f GPU).
Definition no_amounts : Amounts := of_dims (fun _ => 0).
Definition plus (a b : Amounts) : Amounts := of_dims (fun k => amount k a + amount k b).
Definition disk_only (n : Z) : Amounts := of_dims (fun k => match k with DISK => n | _ => 0 end).

Lemma amount_of_dims k f : amount k (of_dims f) = f k.
Proof. by destruct k. Qed.
Lemma amount_plus k a b : amount k (plus a b) = amount k a + amount k b.
Proof. apply amount_of_dims. Qed.

Definition request_amounts (r : ResourceRequest) : Amounts :=
  mkAmounts (rq_cpu_millicores r) (rq_memory_bytes r) (rq_disk_bytes r) (rq_gpu_count r).
Definition allocation_amounts (a : Allocation) : Amounts :=
  mkAmounts (al_cpu_millicores a) (al_memory_bytes a) (al_disk_bytes a) (al_gpu_count a).

(** A [defaultdict] of amounts. *)
Definition amounts_at (m : gmap string Amounts) (key : string) : Amounts := default no_amounts (m !! key).
Definition charge (m : gmap string Amounts) (key : string) (a : Amounts) : gmap string Amounts := <[key := plus (amounts_at m key) a]> m.

(** [requested_by_pool] *)
Definition requested_by_pool (spec : JobSpec) : gmap string Amounts :=
  fold_left (fun m c => charge m (rq_pool_id (cs_resources c)) (request_amounts (cs_resources c))) (js_components spec) ∅.

(** [_whole_units] of an integral sum. *)
Definition whole_units (value : Z) : result Z :=
  if 0 <=? value then Ok value else Err (ValueError "Resource accounting returned a non-integral quantity").

(** [pool_capacity] *)
Definition pool_capacity (pool : Pool) : Amounts :=
  mkAmounts (po_cpu_millicores pool) (po_memory_bytes pool) (po_disk_bytes pool) (Z.of_nat (List.length (po_gpu_uuids pool))).

(** [sum(item[key] for item in request.values())] *)
Definition totals_of (request : gmap string Amounts) : Amounts := of_dims (fun k => sum_map (amount k) request).

(** [_quota] *)
Definition quota_column (project : Project) (k : string) : option Z :=
  if String.eqb k "cpu_millicores" then pj_quota_cpu_millicores project
  else if String.eqb k "memory_bytes" then pj_quota_memory_bytes project
  else if String.eqb k "disk_bytes" then pj_quota_disk_bytes project
  else if String.eqb k "gpu_count" then pj_quota_gpus project
  else if String.eqb k "max_running_jobs" then pj_max_active_jobs project
  else None.
Definition quota (project : Project) : gmap string Z :=
  fold_left (fun q k => match quota_column project k with
                        | Some v => <[k := Z.min (default v (q !! k)) v]> q
                        | None => q
                        end)
    ["cpu_millicores"; "memory_bytes"; "disk_bytes"; "gpu_count"; "max_running_jobs"] (pj_quotas_json project).

(** [any(key in quota and amounts[key] > quota[key] for key in RESOURCE_DIMENSIONS)] *)
Definition exceeds_quota (q : gmap string Z) (amounts : Amounts) : bool :=
  existsb (fun k => match q !! dim_name k with Some l => l <? amount k amounts | None => false end) RESOURCE_DIMENSIONS.

(** The devices a pool advertises, and [_assign_gpus] on a request. *)
Definition pool_gpus (ps : gmap string Pool) (pool_id : string) : list string :=
  match ps !! pool_id with Some p => po_gpu_uuids p | None => [] end.
Definition gpu_counts (request : gmap string Amounts) : gmap string Z := am_gpu <$> request.

(** ** [validate_admission] *)
Definition check_pool_request (ps : gmap string Pool) (entry : string * Amounts) : result unit :=
  match ps !! entry.1 with
  | None => Error 422 "resource_pool_not_found"
  | Some pool =>
      raise_when (existsb (fun k => amount k (pool_capacity pool) <? amount k entry.2) RESOURCE_DIMENSIONS) 422 "resource_request_exceeds_pool"
  end.
Definition check_profiles (ps : gmap string Pool) (c : ComponentSpec) : result unit :=
  let r := cs_resources c in
  match ps !! rq_pool_id r with
  | None => Err AttributeError
  | Some pool =>
      let? _ := raise_when (negb (mem_str (rq_sandbox_profile r) (po_sandbox_profiles pool))) 422 "sandbox_profile_unavailable" in
      raise_when (negb (rq_gpu_count r =? 0) && negb (match rq_gpu_profile r with Some p => mem_str p (po_gpu_profiles pool) | None => false end))
        422 "gpu_profile_unavailable"
  end.
Definition validate_admission (d : JobDB) (spec : JobSpec) : result unit :=
  let requested := requested_by_pool spec in
  match projects d !! js_project_id spec with
  | None => Error 404 "project_not_found"
  | Some project =>
      let? _ := raise_when (exceeds_quota (quota project) (totals_of requested)) 422 "resource_request_exceeds_project_quota" in
      let? _ := each (check_pool_request (pools d)) (map_to_list requested) in
      match assign_gpus (pool_gpus (pools d)) (gpu_counts requested) ∅ with
      | None => Error 422 "resource_request_exceeds_pool"
      | Some _ => each (check_profiles (pools d)) (js_components spec)
      end
  end.

(** ** The ledgers of a pass *)
Record Admission := mkAdmission { ad_job_id : string; ad_attempt_id : string; ad_epoch : Z; ad_allocation_ids : list string }.

(** What is short of a request, per pool and dimension. *)
Abbreviation Shortages := (gmap string (list (Dim * Z))).

Record Pass := mkPass {
  pa_used : gmap string Amounts;
  pa_project_used : gmap string Amounts;
  pa_gpu_used : gset string;
  pa_allocation_projects : gmap string string;
  pa_blocked : list (string * Shortages);
  pa_admissions : list Admission;
}.
#[global] Instance eta_Pass : Eta Pass := fun r => mkPass (pa_used r) (pa_project_used r) (pa_gpu_used r)
  (pa_allocation_projects r) (pa_blocked r) (pa_admissions r).

Definition live_allocations (d : JobDB) : list Allocation := rows (fun a => allocation_live (al_state a)) (allocations d).
Definition active_gpus (d : JobDB) : list GpuAllocation := rows (fun g => negb (is_some (ga_released_at g))) (gpu_allocations d).

(** [covered_state]: the disk of the allocation is already charged to the
    project as a retained execution state. *)
Definition covered_state (d : JobDB) (a : Allocation) : bool :=
  match get_or_none (al_details_json a) "retained_resource_id" with
  | JStr id =>
      match resources d !! id with
      | Some s =>
          let details := rs_details_json s in
          negb (String.eqb id "") && String.eqb (rs_job_id s) (al_job_id a) && bool_decide (rs_attempt_id s = Some (al_attempt_id a))
          && String.eqb (rs_component_id s) (al_component_id a) && String.eqb (rs_kind s) "execution_state"
          && (rs_size_bytes s =? al_disk_bytes a) && py_eqb (get_or_none details "pool_id") (JStr (al_pool_id a))
          && (match get_or_none details "covered_by_allocation" with JBool true => true | _ => false end)
          && py_eqb (get_or_none details CHARGED) (JInt (al_disk_bytes a)) && negb (truthy (get_or_none details RELEASED_KEY))
      | None => false
      end
  | _ => false
  end.
Definition project_amounts (d : JobDB) (a : Allocation) : Amounts :=
  of_dims (fun k => if bool_decide (k = DISK) && covered_state d a then 0 else amount k (allocation_amounts a)).

(** [used[pool_id]["disk_bytes"] = pool_used_bytes(...)] *)
Definition with_disk (a : Amounts) (disk : Z) : Amounts := mkAmounts (am_cpu a) (am_memory a) disk (am_gpu a).
Fixpoint measure_disks (d : JobDB) (pool_ids : list string) (used : gmap string Amounts) : result (gmap string Amounts) :=
  match pool_ids with
  | [] => Ok used
  | id :: rest =>
      let? bytes := pool_used_bytes d id None in
      let? bytes := whole_units bytes in
      measure_disks d rest (<[id := with_disk (amounts_at used id) bytes]> used)
  end.

Definition project_of (d : JobDB) (job_id : string) : result string :=
  match jobs d !! job_id with Some j => Ok (jb_project_id j) | None => Err KeyError end.
Fixpoint charge_projects (d : JobDB) (l : list Allocation) (used : gmap string Amounts) (owners : gmap string string) :
    result (gmap string Amounts * gmap string string) :=
  match l with
  | [] => Ok (used, owners)
  | a :: rest =>
      let? project_id := project_of d (al_job_id a) in
      charge_projects d rest (charge used project_id (project_amounts d a)) (<[al_job_id a := project_id]> owners)
  end.

(** The ledgers before the first job of the queue. *)
Definition first_pass (d : JobDB) : result Pass :=
  let live := live_allocations d in
  let used := fold_left (fun m a => charge m (al_pool_id a) (allocation_amounts a)) live ∅ in
  let? charged := charge_projects d live ∅ ∅ in
  let? used := measure_disks d (map_to_list (pools d)).*1 used in
  Ok (mkPass used charged.1 (list_to_set (map ga_gpu_uuid (active_gpus d))) charged.2 [] []).

(** ** [_eligibility], [_reason], [_outbox], [_event] *)
Fixpoint eligibility (ps : gmap string Pool) (components : list ComponentSpec) : option string :=
  match components with
  | [] => None
  | c :: rest =>
      let r := cs_resources c in
      match ps !! rq_pool_id r with
      | None => Some "dependencies"
      | Some pool =>
          if po_quarantined pool then Some "node_quarantine"
          else if negb (po_healthy pool) then Some "dependencies"
          else if negb (mem_str (rq_sandbox_profile r) (po_sandbox_profiles pool)) then Some "unavailable_profile"
          else if negb (rq_gpu_count r =? 0) && negb (match rq_gpu_profile r with Some p => mem_str p (po_gpu_profiles pool) | None => false end)
          then Some "unavailable_profile"
          else eligibility ps rest
      end
  end.

Section Scheduler.
Context {P : Platform} {U : Unicode}.

Definition set_reason (job_id : string) (code : string) (now : Z) (details : document) : M JobWorld unit :=
  let reason := ("code", JStr code) :: details in
  job_set JOBS job_id (fun j =>
    if match jb_queue_reason j with Some r => py_eqb (JObj r) (JObj reason) | None => false end then j
    else j <| jb_queue_reason := Some reason |> <| jb_updated_at := now |> <| jb_version ::= Z.succ |>).

Definition add_outbox (job : Job) (topic : string) (payload : document) (attempt_id : option string) : M JobWorld unit :=
  let subject := match attempt_id with Some a => if String.eqb a "" then str_of_int (jb_current_attempt job) else a
                 | None => str_of_int (jb_current_attempt job) end in
  let key := topic +:+ ":" +:+ jb_id job +:+ ":" +:+ subject +:+ ":" +:+ str_of_int (jb_epoch job) +:+ ":" +:+ str_of_int (jb_version job) in
  let* id := new_id in
  let* created_at := utcnow in
  job_add OUTBOX (fun o => String.eqb (ob_idempotency_key o) key) id
    (fresh_outbox id (jb_id job) attempt_id (jb_current_attempt job) topic payload key created_at).

Definition job_event (job : Job) (kind : string) (payload : document) (now : Z) : M JobWorld unit :=
  add_event (jb_id job) kind (Some (jb_version job)) (Some (jb_epoch job)) payload now.

(** The row of a job of the queue. *)
Definition the_job (job_id : string) : M JobWorld Job := let* j := job_get JOBS job_id in row_or j AttributeError.
End Scheduler.
