(* ===== verification/Gang.v ===== *)
(** * One pass of the scheduler over the queue

    The rest of [Scheduler.schedule]: the storage a job prepays, the quota,
    capacity and protection checks, the admission of a gang, and the pass. *)

From stdpp Require Import base gmap strings list sorting.
From Stdlib Require Import ZArith Lia Ascii.
From S2P Require Import Prelude Json Order Domain Placement JobSpec JobModels Retention BlobBudget Scheduler.

(** ** The storage a job prepays *)
Record Plan := mkPlan {
  pn_kind : string;
  pn_external_id : string;
  pn_component_id : string;
  pn_pool_id : string;
  pn_max_bytes : Z;
  pn_covered : bool;         (* planned.get("covered_by_allocation") is True *)
  pn_counted : bool;         (* its truth value *)
  pn_details : json;
}.
Definition plan_differs {A} : result A := Err (ValueError "Trusted admission storage plan differs from its job").

(** [v in keys] *)
Definition member_of (v : json) (keys : list string) : result bool :=
  match v with
  | JStr s => Ok (mem_str s keys)
  | JList _ | JObj _ => Err TypeError
  | _ => Ok false
  end.

(** The reservations an execution finds by a pointer of its allocation. *)
Definition pointer_of (kind : string) : option string :=
  if String.eqb kind "collection_budget" then Some "collection_resource_id"
  else if String.eqb kind "log_budget" then Some "log_resource_id"
  else if String.eqb kind "execution_state" then Some "retained_resource_id"
  else None.

Abbreviation Links := (gmap string (gmap string string)).
Definition add_link (links : Links) (component_id kind resource_id : string) : Links :=
  match pointer_of kind with
  | Some pointer => <[component_id := <[pointer := resource_id]> (default ∅ (links !! component_id))]> links
  | None => links
  end.

(** What the loop over the planned entries has gathered. *)
Record StoragePlan := mkStoragePlan {
  sp_storage : list (Plan * option ProvisioningResource * document);
  sp_request : gmap string Amounts;
  sp_links : Links;
  sp_covered_bytes : Z;
}.

Section Gang.
Context {P : Platform} {U : Unicode}.

Definition resource_identity (job_id kind external_id : string) : string :=
  String.substring 0 32 (stable_key ["resource"; job_id; kind; external_id]).

(** The shape of a planned entry. *)
Definition check_plan (ps : gmap string Pool) (spec : JobSpec) (planned : json) : result Plan :=
  let components := map cs_component_id (js_components spec) in
  let external := map (fun p => external_component (ps_participant_id p))
                    (List.filter (fun p => bool_decide (ps_mode p = EXTERNAL)) (js_participants spec)) in
  match planned with
  | JObj kvs =>
      match get_or_none kvs "kind" with
      | JStr kind =>
          if negb ((1 <=? py_len kind) && (py_len kind <=? 64)) || negb (str_isalnum (join "" (split_on "_"%char kind))) then plan_differs
          else
            let? known_pool := member_of (get_or_none kvs "pool_id") (map_to_list ps).*1 in
            if negb known_pool then plan_differs
            else
              let? known := member_of (get_or_none kvs "component_id") components in
              let? allowed := (if known then Ok true
                               else if String.eqb kind "log_budget" then
                                 let? reserved := member_of (get_or_none kvs "component_id") external in
                                 Ok (reserved && py_eqb (get_or_none kvs "max_bytes") (JInt (1024 * 1024)))
                               else Ok false) in
              if negb allowed then plan_differs
              else match get_or_none kvs "external_id", get_or_none kvs "max_bytes", get_or_none kvs "pool_id", get_or_none kvs "component_id" with
                   | JStr external_id, JInt max_bytes, JStr pool_id, JStr component_id =>
                       if max_bytes <? 0 then plan_differs
                       else Ok (mkPlan kind external_id component_id pool_id max_bytes
                                  (match get_or_none kvs "covered_by_allocation" with JBool true => true | _ => false end)
                                  (truthy (get_or_none kvs "covered_by_allocation")) (get_or kvs "details" (JObj [])))
                   | _, _, _, _ => plan_differs
                   end
      | _ => plan_differs
      end
  | _ => plan_differs
  end.

(** An execution state is covered by its component's allocation. *)
Definition check_covered (spec : JobSpec) (p : Plan) : result unit :=
  let? _ := value_when (String.eqb (pn_kind p) "execution_state" && negb (pn_covered p))
              "Execution state must be backed by its immutable allocation" in
  if negb (pn_covered p) then Ok tt
  else match find_component spec (Some (pn_component_id p)) with
       | None => Err KeyError
       | Some c =>
           let? details := as_dict (pn_details p) in
           value_when (negb (String.eqb (pn_kind p) "execution_state") || negb (String.eqb (pn_pool_id p) (rq_pool_id (cs_resources c)))
                       || negb (pn_max_bytes p =? rq_disk_bytes (cs_resources c))
                       || negb (match get_or_none details "covered_by_allocation" with JBool true => true | _ => false end))
             "Covered state budget differs from its immutable allocation"
       end.

(** The lifetime allowance of the exchange space is the one first reserved. *)
Definition check_lifetime (job : Job) (p : Plan) (r : ProvisioningResource) : result unit :=
  let details := rs_details_json r in
  let? verified := plan_blob_budget job (Some (pn_pool_id p)) [r] in
  value_when (negb (py_eqb (get_or_none verified "kind") (JStr (pn_kind p)))
              || negb (py_eqb (get_or_none verified "external_id") (JStr (pn_external_id p)))
              || negb (py_eqb (get_or_none verified "component_id") (JStr (pn_component_id p)))
              || negb (py_eqb (get_or_none verified "pool_id") (JStr (pn_pool_id p)))
              || negb (py_eqb (get_or_none verified "max_bytes") (JInt (pn_max_bytes p)))
              || negb (String.eqb (rs_id r) (resource_identity (jb_id job) (pn_kind p) (pn_external_id p)))
              || negb (rs_size_bytes r =? pn_max_bytes p)
              || negb (py_eqb (get_or_none details CHARGED) (JInt (pn_max_bytes p)))
              || negb (py_eqb (get_or_none details RESERVATION) (JInt (pn_max_bytes p))))
    "Lifetime Exchange allowance changed its immutable binding".

Definition plan_ownership (job_id : string) (p : Plan) : document :=
  [("job_id", JStr job_id); ("component_id", JStr (pn_component_id p)); ("kind", JStr (pn_kind p))].

(** The binding of a reservation that is already charged. *)
Definition check_prepaid (job : Job) (p : Plan) (r : ProvisioningResource) : result unit :=
  let details := rs_details_json r in
  let lifetime := String.eqb (pn_kind p) BLOB_KIND in
  let? _ := (if lifetime then check_lifetime job p r else Ok tt) in
  value_when (negb (py_eqb (get_or_none details "pool_id") (JStr (pn_pool_id p)))
              || (negb lifetime && negb (py_eqb (get_or details "attempt_number" (JInt (jb_current_attempt job))) (JInt (jb_current_attempt job)))))
    "Storage admission resource changed its binding".

(** One planned entry; [None] when its pool cannot be used now. *)
Definition plan_entry (job : Job) (spec : JobSpec) (now : Z) (acc : StoragePlan) (planned : json) : M JobWorld (option StoragePlan) :=
  let* ps := gets (fun w => pools (jw_db w)) in
  let* p := lift (check_plan ps spec planned) in
  let* _ := lift (check_covered spec p) in
  match ps !! pn_pool_id p with
  | None => throw KeyError
  | Some pool =>
      if negb (po_healthy pool) || po_quarantined pool then
        set_reason (jb_id job) "node_quarantine" now [("pool_id", JStr (po_id pool))] ;; ret None
      else
        let* found := job_select RESOURCES (fun r => String.eqb (rs_kind r) (pn_kind p) && String.eqb (rs_external_id r) (pn_external_id p)) in
        let resource := head found in
        let ownership := plan_ownership (jb_id job) p in
        let* _ := lift (match resource with
                        | Some r => value_when (negb (String.eqb (rs_job_id r) (jb_id job)) || negb (py_eqb (JObj (rs_ownership_json r)) (JObj ownership)))
                                      "Storage admission cannot adopt foreign resources"
                        | None => Ok tt
                        end) in
        let prepaid := match resource with
                       | Some r => has_key CHARGED (rs_details_json r) && negb (truthy (get_or_none (rs_details_json r) RELEASED_KEY))
                       | None => false
                       end in
        match resource, prepaid with
        | Some r, true =>
            let* _ := lift (check_prepaid job p r) in
            ret (Some (mkStoragePlan (sp_storage acc) (sp_request acc) (add_link (sp_links acc) (pn_component_id p) (pn_kind p) (rs_id r))
                        (sp_covered_bytes acc + if pn_covered p then pn_max_bytes p else 0)))
        | _, _ =>
            ret (Some (mkStoragePlan (sp_storage acc ++ [(p, resource, ownership)])
                        (if pn_covered p then sp_request acc else charge (sp_request acc) (pn_pool_id p) (disk_only (pn_max_bytes p)))
                        (sp_links acc) (sp_covered_bytes acc)))
        end
  end.

Fixpoint plan_storage (job : Job) (spec : JobSpec) (now : Z) (acc : StoragePlan) (plans : list json) : M JobWorld (option StoragePlan) :=
  match plans with
  | [] => ret (Some acc)
  | planned :: rest =>
      let* next := plan_entry job spec now acc planned in
      match next with
      | None => ret None
      | Some acc => plan_storage job spec now acc rest
      end
  end.

(** ** Quota, capacity, protection *)
Definition short_dims (ps : gmap string Pool) (used : gmap string Amounts) (pool_id : string) (a : Amounts) : list (Dim * Z) :=
  let capacity := match ps !! pool_id with Some p => pool_capacity p | None => no_amounts end in
  omap (fun k => let available := amount k capacity - amount k (amounts_at used pool_id) in
                 if available <? amount k a then Some (k, amount k a - available) else None) RESOURCE_DIMENSIONS.
Definition some_short (l : list (Dim * Z)) : option (list (Dim * Z)) := match l with [] => None | _ => Some l end.
Definition shortages (ps : gmap string Pool) (used : gmap string Amounts) (request : gmap string Amounts) : Shortages :=
  map_imap (fun pool_id a => some_short (short_dims ps used pool_id a)) request.

(** [shortages.setdefault(pool_id, {})["gpu_count"] = ...] when the devices
    cannot be placed. *)
Definition set_short (l : list (Dim * Z)) (n : Z) : list (Dim * Z) := List.filter (fun kv => negb (bool_decide (kv.1 = GPU))) l ++ [(GPU, n)].
Definition gpu_shortages (ps : gmap string Pool) (gpu_used : gset string) (request : gmap string Amounts) (short : Shortages) : Shortages :=
  map_imap (fun pool_id a =>
    let l := default [] (short !! pool_id) in
    if am_gpu a =? 0 then some_short l
    else Some (set_short l (Z.max 1 (am_gpu a - Z.of_nat (List.length (sorted_set (filter (fun u => u ∉ gpu_used) (pool_gpus ps pool_id)))))))) request.

Definition shortages_json (s : Shortages) : json :=
  JObj (map (fun kv => (kv.1, JObj (map (fun kn => (dim_name kn.1, JInt kn.2)) kv.2))) (map_to_list s)).

(** The request needs some of a dimension that is short for an older one. *)
Definition overlaps (request : gmap string Amounts) (short : Shortages) : bool :=
  existsb (fun kv => existsb (fun kn => 0 <? amount kn.1 (amounts_at request kv.1)) kv.2) (map_to_list short).
Definition MAX_BACKFILLS : Z := 3.
Definition protected (request : gmap string Amounts) (blocked : string * Shortages) : M JobWorld bool :=
  let* older := the_job blocked.1 in
  ret ((MAX_BACKFILLS <=? jb_backfill_count older) && overlaps request blocked.2).
Fixpoint any_protected (request : gmap string Amounts) (blocked : list (string * Shortages)) : M JobWorld bool :=
  match blocked with
  | [] => ret false
  | b :: rest => let* hit := protected request b in let* others := any_protected request rest in ret (hit || others)
  end.

(** The jobs of a project that hold allocations. *)
Definition running_jobs (owners : gmap string string) (project_id : string) : Z :=
  Z.of_nat (List.length (List.filter (fun kv => String.eqb kv.2 project_id) (map_to_list owners))).

(** The project's checks: retained bytes, quota, running jobs. *)
Definition quota_refused (project_id : string) (project : Project) (pass : Pass) (plan : StoragePlan) : bool :=
  let q := quota project in
  let retained := pj_retained_bytes project in
  let totals := plus (totals_of (sp_request plan)) (disk_only (retained - sp_covered_bytes plan)) in
  let extra := foldr Z.add 0 (map (fun s => pn_max_bytes s.1.1) (sp_storage plan)) in
  (match pj_quotas_json project !! "retained_bytes" with Some l => l <? retained + extra | None => false end)
  || exceeds_quota q (plus (amounts_at (pa_project_used pass) project_id) totals)
  || (match q !! "max_running_jobs" with Some l => l <=? running_jobs (pa_allocation_projects pass) project_id | None => false end).

(** ** Admission *)

(** The devices of one component: the first of its pool that are left. *)
Definition take_gpus (assignment : gmap string (list string)) (r : ResourceRequest) : list string * gmap string (list string) :=
  let l := default [] (assignment !! rq_pool_id r) in
  let n := Z.to_nat (rq_gpu_count r) in
  (take n l, <[rq_pool_id r := drop n l]> assignment).

Definition new_allocation (job : Job) (attempt_id : string) (pool : Pool) (now : Z) (c : ComponentSpec) (id : string) : Allocation :=
  let r := cs_resources c in
  mkAllocation id (jb_id job) attempt_id (cs_component_id c) (rq_pool_id r) (rq_cpu_millicores r) (rq_memory_bytes r) (rq_disk_bytes r)
    (rq_gpu_count r) (jb_epoch job) RESERVED false false [("node_id", JStr (po_node_id pool))] now None.

(** The reservation of one component: its allocation and its devices. *)
Definition allocate (job : Job) (attempt_id : string) (now : Z) (acc : Pass * gmap string (list string) * list Allocation) (c : ComponentSpec) :
    M JobWorld (Pass * gmap string (list string) * list Allocation) :=
  let '(pass, assignment, created) := acc in
  let r := cs_resources c in
  let* pool := job_get POOLS (rq_pool_id r) in
  let* pool := row_or pool KeyError in
  let* id := new_id in
  let a := new_allocation job attempt_id pool now c id in
  job_add ALLOCATIONS (fun x => String.eqb (al_job_id x) (jb_id job) && String.eqb (al_component_id x) (cs_component_id c)
                        && negb (is_some (al_released_at x))) id a ;;
  let '(gpus, assignment) := take_gpus assignment r in
  for_each gpus (fun gpu =>
    let* gid := new_id in
    job_add GPU_ALLOCATIONS (fun x => String.eqb (ga_gpu_uuid x) gpu && negb (is_some (ga_released_at x))) gid
      (mkGpuAllocation gid id (rq_pool_id r) gpu None)) ;;
  ret (pass <| pa_used := charge (pa_used pass) (rq_pool_id r) (request_amounts r) |>
            <| pa_project_used := charge (pa_project_used pass) (jb_project_id job) (request_amounts r) |>
            <| pa_gpu_used := list_to_set gpus ∪ pa_gpu_used pass |>
            <| pa_allocation_projects := <[jb_id job := jb_project_id job]> (pa_allocation_projects pass) |>,
       assignment, created ++ [a]).

Definition new_resource (job : Job) (attempt : Attempt) (p : Plan) (ownership details : document) : ProvisioningResource :=
  mkResource (resource_identity (jb_id job) (pn_kind p) (pn_external_id p)) (jb_id job) (Some (ja_id attempt)) (pn_component_id p)
    (pn_kind p) (pn_external_id p) ownership
    (merge_dicts details [("pool_id", JStr (pn_pool_id p)); ("component_id", JStr (pn_component_id p));
                          ("attempt_number", JInt (ja_number attempt)); ("reservation_max_bytes", JInt (pn_max_bytes p))])
    "planned" true 0 None.

(** The reservation of one planned storage entry. *)
Definition reserve_storage (job : Job) (attempt : Attempt) (acc : Pass * Links) (entry : Plan * option ProvisioningResource * document) :
    M JobWorld (Pass * Links) :=
  let '(p, resource, ownership) := entry in
  let* id := (match resource with
              | Some r => ret (rs_id r)
              | None =>
                  let* details := lift (as_dict (pn_details p)) in
                  let r := new_resource job attempt p ownership details in
                  job_add RESOURCES (fun x => String.eqb (rs_kind x) (rs_kind r) && String.eqb (rs_external_id x) (rs_external_id r)) (rs_id r) r ;;
                  ret (rs_id r)
              end) in
  job_set RESOURCES id (fun r => r <| rs_attempt_id := Some (ja_id attempt) |>) ;;
  let* pool := job_get POOLS (pn_pool_id p) in
  let* pool := row_or pool KeyError in
  let* _ := reserve_in_transaction id (jb_project_id job) (pn_max_bytes p) (Some pool) in
  let '(pass, links) := acc in
  ret (if pn_counted p then pass else pass <| pa_used := charge (pa_used pass) (pn_pool_id p) (disk_only (pn_max_bytes p)) |>,
       add_link links (pn_component_id p) (pn_kind p) id).

(** The linked reservations belong to the admitted attempt. *)
Definition bind_link (attempt_id : string) (resource_id : string) : M JobWorld unit :=
  let* r := job_get RESOURCES resource_id in
  let* r := row_or r AttributeError in
  throw_if (match rs_attempt_id r with Some a => negb (String.eqb a attempt_id) | None => false end)
    (ValueError "Prepaid budget belongs to another attempt") ;;
  job_set RESOURCES resource_id (fun r => r <| rs_attempt_id := Some attempt_id |>).
Definition link_ids (links : Links) : list string := concat (map (fun kv => (map_to_list kv.2).*2) (map_to_list links)).

(** The allocation points at its reservations; a covered state is not charged
    to the project twice. *)
Definition link_allocation (job : Job) (links : Links) (pass : Pass) (a : Allocation) : M JobWorld Pass :=
  let mine := default ∅ (links !! al_component_id a) in
  job_set ALLOCATIONS (al_id a) (fun x => x <| al_details_json ::= fun d => merge_dicts d (map (fun kv => (kv.1, JStr kv.2)) (map_to_list mine)) |>) ;;
  ret (match mine !! "retained_resource_id" with
       | Some id => if String.eqb id "" then pass
                    else pass <| pa_project_used := charge (pa_project_used pass) (jb_project_id job) (disk_only (- al_disk_bytes a)) |>
       | None => pass
       end).

(** An older blocked job is passed by. *)
Definition count_backfill (request : gmap string Amounts) (now : Z) (blocked : string * Shortages) : M JobWorld unit :=
  when (overlaps request blocked.2)
    (job_set JOBS blocked.1 (fun j => j <| jb_backfill_count ::= Z.succ |> <| jb_version ::= Z.succ |> <| jb_updated_at := now |>)).

(** The rows of the job and its attempt when a gang is admitted. *)
Definition admitted_job (now : Z) (duration : Z) (j : Job) : Job :=
  j <| jb_epoch ::= Z.succ |> <| jb_state := PROVISIONING |> <| jb_phase := Some "reserving" |> <| jb_queue_reason := None |>
    <| jb_backfill_count := 0 |> <| jb_updated_at := now |> <| jb_version ::= Z.succ |>
    <| jb_deadline_at ::= fun t => Some (default (now + timedelta_seconds duration) t) |>.
Definition take_attempt (job : Job) : M JobWorld Attempt :=
  let* found := job_select JOB_ATTEMPTS (fun a => String.eqb (ja_job_id a) (jb_id job) && (ja_number a =? jb_current_attempt job)) in
  let* attempt := row_or (head found) (RuntimeError "Queued job is missing its durable attempt") in
  let epoch := Z.succ (jb_epoch job) in
  let* clash := job_select JOB_ATTEMPTS (fun a => String.eqb (ja_job_id a) (jb_id job) && (ja_epoch a =? epoch) && negb (String.eqb (ja_id a) (ja_id attempt))) in
  throw_if (match clash with [] => false | _ => true end) IntegrityError ;;
  job_set JOB_ATTEMPTS (ja_id attempt) (fun a => a <| ja_epoch := epoch |> <| ja_state := "PROVISIONING" |> <| ja_termination_confirmed := false |>) ;;
  ret attempt.

Definition admit_gang (job0 : Job) (spec : JobSpec) (now : Z) (plan : StoragePlan) (assignment : gmap string (list string)) (pass : Pass) : M JobWorld Pass :=
  let* attempt := take_attempt job0 in
  job_set JOBS (jb_id job0) (admitted_job now (js_max_duration_seconds spec)) ;;
  let* job := the_job (jb_id job0) in
  let* '(pass, _, created) := foldM (allocate job (ja_id attempt) now) (pass, assignment, []) (js_components spec) in
  let* '(pass, links) := foldM (reserve_storage job attempt) (pass, sp_links plan) (sp_storage plan) in
  for_each (link_ids links) (bind_link (ja_id attempt)) ;;
  let* pass := foldM (link_allocation job links) pass created in
  add_outbox job "dispatch" [("epoch", JInt (jb_epoch job))] (Some (ja_id attempt)) ;;
  job_event job "admitted" [("epoch", JInt (jb_epoch job)); ("allocations", JInt (Z.of_nat (List.length created)))] now ;;
  for_each (pa_blocked pass) (count_backfill (sp_request plan) now) ;;
  ret (pass <| pa_admissions ::= fun l => l ++ [mkAdmission (jb_id job) (ja_id attempt) (jb_epoch job) (map al_id created)] |>).

(** ** One job of the queue *)
Section Queue.
Context (admission_storage : Job -> list json).

(** From the quota check on. *)
Definition place_job (job : Job) (spec : JobSpec) (now : Z) (plan : StoragePlan) (pass : Pass) : M JobWorld Pass :=
  let* ps := gets (fun w => pools (jw_db w)) in
  let* project := job_get PROJECTS (jb_project_id job) in
  let* project := row_or project KeyError in
  if quota_refused (jb_project_id job) project pass plan then set_reason (jb_id job) "quota" now [] ;; ret pass
  else
    let request := sp_request plan in
    let short := shortages ps (pa_used pass) request in
    let placed := assign_gpus (pool_gpus ps) (gpu_counts request) (pa_gpu_used pass) in
    let short := match placed with Some _ => short | None => gpu_shortages ps (pa_gpu_used pass) request short end in
    if negb (bool_decide (short = ∅)) then
      set_reason (jb_id job) "capacity" now [("shortages", shortages_json short)] ;;
      ret (pass <| pa_blocked ::= fun l => l ++ [(jb_id job, short)] |>)
    else
      let* hit := any_protected request (pa_blocked pass) in
      if hit then set_reason (jb_id job) "capacity" now [("protection", JStr "older_request")] ;; ret pass
      else match placed with
           | Some assignment => admit_gang job spec now plan assignment pass
           | None => throw TypeError
           end.

Definition schedule_ready (job : Job) (now : Z) (pass : Pass) : M JobWorld Pass :=
  let* spec := lift (validate_spec (jb_spec job)) in
  let* ps := gets (fun w => pools (jw_db w)) in
  match eligibility ps (js_components spec) with
  | Some missing => set_reason (jb_id job) missing now [] ;; ret pass
  | None =>
      throw_if (existsb (fun p => bool_decide (ps_mode p = EXTERNAL)
                  && mem_str (external_component (ps_participant_id p)) (map cs_component_id (js_components spec))) (js_participants spec))
        (ValueError "External execution identity collides with a declared component") ;;
      let* plan := plan_storage job spec now (mkStoragePlan [] (requested_by_pool spec) ∅ 0) (admission_storage job) in
      match plan with
      | None => ret pass
      | Some plan => place_job job spec now plan pass
      end
  end.

Definition schedule_job (now : Z) (limit : Z) (active : gset string) (pass : Pass) (job_id : string) : M JobWorld Pass :=
  if limit <=? Z.of_nat (List.length (pa_admissions pass)) then ret pass
  else
    let* job := the_job job_id in
    if bool_decide (job_id ∈ active) then set_reason job_id "node_quarantine" now [] ;; ret pass
    else if match jb_deadline_at job with Some t => t <=? now | None => false end then
      job_set JOBS job_id (fun j => j <| jb_state := CANCELLING |> <| jb_phase := Some "deadline_exceeded" |> <| jb_updated_at := now |> <| jb_version ::= Z.succ |>) ;;
      let* job := the_job job_id in
      add_outbox job "fence_stop" [("reason", JStr "deadline_exceeded")] None ;;
      ret pass
    else if match jb_next_attempt_at job with Some t => now <? t | None => false end then
      set_reason job_id "dependencies" now [("available_at", JStr (isoformat (default 0 (jb_next_attempt_at job))))] ;; ret pass
    else schedule_ready job now pass.

(** The queue: oldest first. *)
Definition queue_order (a b : Job) : Prop := jb_created_at a < jb_created_at b \/ jb_created_at a = jb_created_at b /\ String.compare (jb_id a) (jb_id b) <> Gt.
#[local] Instance queue_order_dec : RelDecision queue_order.
Proof. intros a b. unfold queue_order. apply _. Defined.
Definition queued (d : JobDB) : list string :=
  map jb_id (merge_sort queue_order (rows (fun j => bool_decide (jb_state j = QUEUED)) (jobs d))).

(** [Scheduler.schedule] *)
Definition schedule_body (now : Z) (limit : Z) : M JobWorld (list Admission) :=
  let* d := gets jw_db in
  let* pass := lift (first_pass d) in
  let active := list_to_set (map al_job_id (live_allocations d)) in
  let* pass := foldM (schedule_job now limit active) pass (queued d) in
  ret (pa_admissions pass).
Definition schedule (now : Z) (limit : Z) : M JobWorld (list Admission) := job_transaction (schedule_body now limit).
End Queue.

(** [Scheduler.queue_reason]: a copy of the reason, when there is one. *)
Definition queue_reason (job_id : string) : M JobWorld (option document) :=
  job_transaction (
    let* job := job_get JOBS job_id in
    ret (match job with
         | Some j => match jb_queue_reason j with Some [] => None | reason => reason end
         | None => None
         end)).

(** ** [Controller._admission_storage] without a planner of the provisioner *)
Definition storage_entry (job : Job) (number : Z) (component_id kind prefix : string) (cap : Z) (pool_id : string) (covered : bool) : json :=
  JObj [("kind", JStr kind); ("external_id", JStr (prefix +:+ "://" +:+ jb_id job +:+ "/" +:+ str_of_int number +:+ "/" +:+ component_id));
        ("component_id", JStr component_id); ("pool_id", JStr pool_id); ("max_bytes", JInt cap); ("covered_by_allocation", JBool covered);
        ("details", JObj [("attempt_number", JInt number); ("covered_by_allocation", JBool covered)])].
Definition default_admission_storage (job : Job) : list json :=
  let spec := jb_spec job in
  let number := Z.max 1 (jb_current_attempt job) in
  let manager_pool := match owner_of spec with Ok c => rq_pool_id (cs_resources c) | Err _ => "" end in
  concat (map (fun c =>
    let disk := rq_disk_bytes (cs_resources c) in
    let pool := rq_pool_id (cs_resources c) in
    [storage_entry job number (cs_component_id c) "collection_budget" "hf2l-collection" (disk + 4 * 1024 * 1024) pool false;
     storage_entry job number (cs_component_id c) "log_budget" "hf2l-log" (1024 * 1024) manager_pool false;
     storage_entry job number (cs_component_id c) "execution_state" "hf2l-state" disk pool true]) (js_components spec)).
End Gang.
