(* ===== verification/Controller.v ===== *)
(** * The transactions of the lifecycle controller

    [hf2l_jobs.controller.Controller]: what the controller commits to the
    manager's database.  Outbox items are claimed under a lease and finished by
    whoever still holds it; a job moves between its states; reports of the
    components of an attempt are accepted under the epoch they were started
    with; reservations are quarantined, stopped and released; and a finished
    attempt is retried or ends the job.  The calls of the executor and of the
    provisioner come between these transactions. *)

From stdpp Require Import base gmap strings list sorting.
From Stdlib Require Import ZArith Lia Ascii.
From S2P Require Import Prelude Json Domain JobSpec JobModels Retention Recovery BlobBudget Scheduler Gang.

(** [for row in rows where p: ...] *)
Definition job_update_where {V} (T : Tab JobDB string V) (p : V -> bool) (f : V -> V) : M JobWorld unit :=
  job_update T (fmap (fun r => if p r then f r else r)).

Definition minutes (n : Z) : Z := timedelta_seconds (60 * n).
Definition job_in (l : list JobState) (j : Job) : bool := bool_decide (jb_state j ∈ l).

(** The states in which a running job is. *)
Inductive Stage := ProvisioningStage | StartingStage | RunningStage.
Definition stage_state (s : Stage) : JobState :=
  match s with ProvisioningStage => PROVISIONING | StartingStage => STARTING | RunningStage => RUNNING end.
Definition stage_allocation (s : Stage) (x : AllocationState) : AllocationState :=
  match s with ProvisioningStage => x | StartingStage => AL_STARTING | RunningStage => AL_RUNNING end.
Definition stage_name (s : Stage) : string :=
  match s with ProvisioningStage => "provisioning" | StartingStage => "starting" | RunningStage => "running" end.

(** How a job ends. *)
Inductive Outcome := Succeeded | Failed | Cancelled.
Definition outcome_state (o : Outcome) : JobState :=
  match o with Succeeded => SUCCEEDED | Failed => JOB_FAILED | Cancelled => JOB_CANCELLED end.
Definition outcome_name (o : Outcome) : string :=
  match o with Succeeded => "succeeded" | Failed => "failed" | Cancelled => "cancelled" end.

(** [Attempt.job_id == job.id, Attempt.number == job.current_attempt] *)
Definition attempt_of (j : Job) (a : Attempt) : bool := String.eqb (ja_job_id a) (jb_id j) && (ja_number a =? jb_current_attempt j).
Definition current_attempt (j : Job) : M JobWorld (option Attempt) :=
  let* found := job_select JOB_ATTEMPTS (attempt_of j) in ret (head found).

Definition live_of_job (job_id : string) (a : Allocation) : bool := String.eqb (al_job_id a) job_id && allocation_live (al_state a).
Definition live_of_attempt (attempt_id : string) (a : Allocation) : bool := String.eqb (al_attempt_id a) attempt_id && allocation_live (al_state a).

Section Controller.
Context {P : Platform} {U : Unicode}.

(** ** The outbox *)
Definition due (now : Z) (topics : option (list string)) (o : Outbox) : bool :=
  (String.eqb (ob_state o) "pending"
   || String.eqb (ob_state o) "processing" && match ob_lease_until o with Some t => t <=? now | None => false end)
  && match ob_next_attempt_at o with Some t => t <=? now | None => true end
  && match topics with Some l => mem_str (ob_topic o) l | None => true end.

Definition outbox_order (a b : Outbox) : Prop :=
  ob_created_at a < ob_created_at b \/ ob_created_at a = ob_created_at b /\ String.compare (ob_id a) (ob_id b) <> Gt.
#[global] Instance outbox_order_dec : RelDecision outbox_order.
Proof. intros a b. unfold outbox_order. apply _. Defined.

(** [_claim]: the oldest item that is due, under a new lease. *)
Definition leased (owner : string) (now : Z) (o : Outbox) : Outbox :=
  o <| ob_state := "processing" |> <| ob_lease_owner := Some owner |> <| ob_lease_until := Some (now + minutes 5) |> <| ob_attempts ::= Z.succ |>.
Definition _claim (controller_id : string) (topics : option (list string)) : M JobWorld (option Outbox) :=
  job_transaction (
    let* now := utcnow in
    let* found := job_select OUTBOX (due now topics) in
    match head (merge_sort outbox_order found) with
    | None => ret None
    | Some item =>
        let* token := new_id in
        job_set OUTBOX (ob_id item) (leased (controller_id +:+ ":" +:+ token) now) ;;
        ret (Some (leased (controller_id +:+ ":" +:+ token) now item))
    end).

(** [_finish_claim]: only under the lease of the claim. *)
Definition finished (done_ : bool) (error : option string) (now : Z) (o : Outbox) : Outbox :=
  o <| ob_state := if done_ then "done" else "pending" |> <| ob_last_error := error |> <| ob_lease_until := None |>
    <| ob_lease_owner := None |> <| ob_next_attempt_at := if done_ then None else Some (now + timedelta_seconds 5) |>.
Definition _finish_claim (claim : Outbox) (done_ : bool) (error : option string) : M JobWorld unit :=
  job_transaction (
    let* item := job_get OUTBOX (ob_id claim) in
    match item with
    | None => ret tt
    | Some item =>
        if negb (bool_decide (ob_lease_owner item = ob_lease_owner claim)) then ret tt
        else let* now := utcnow in job_set OUTBOX (ob_id claim) (finished done_ error now)
    end).

(** [_claim_current], [_require_claim] *)
Definition claim_holds (now : Z) (claim item : Outbox) : bool :=
  String.eqb (ob_state item) "processing" && bool_decide (ob_lease_owner item = ob_lease_owner claim)
  && match ob_lease_until item with Some t => now <? t | None => false end.
Definition _claim_current (claim : Outbox) : M JobWorld bool :=
  let* item := job_get OUTBOX (ob_id claim) in
  let* now := utcnow in
  ret (match item with Some item => claim_holds now claim item | None => false end).
Definition _require_claim (claim : option Outbox) : M JobWorld unit :=
  match claim with
  | None => ret tt
  | Some claim => let* current := _claim_current claim in throw_if (negb current) (ExecutorRefused "stale_claim")
  end.

(** [_queue_proxy_restoration] *)
Definition restore_key (job_id : string) (epoch : Z) : string := "restore-proxies:" +:+ job_id +:+ ":" +:+ str_of_int epoch.
Definition queue_restoration (now : Z) (job : Job) : M JobWorld unit :=
  let* attempt := current_attempt job in
  match attempt with
  | None => ret tt
  | Some attempt =>
      if negb (ja_epoch attempt =? jb_epoch job) then ret tt
      else
        let key := restore_key (jb_id job) (jb_epoch job) in
        let* existing := job_select OUTBOX (fun o => String.eqb (ob_idempotency_key o) key) in
        match existing with
        | [] =>
            let* id := new_id in
            job_add OUTBOX (fun o => String.eqb (ob_idempotency_key o) key) id
              (fresh_outbox id (jb_id job) (Some (ja_id attempt)) (ja_number attempt) "restore_proxies"
                 [("epoch", JInt (jb_epoch job))] key now)
        | o :: _ => when (String.eqb (ob_state o) "done")
                      (job_set OUTBOX (ob_id o) (fun o => o <| ob_state := "pending" |> <| ob_next_attempt_at := Some now |>))
        end
  end.
Definition job_id_order (a b : Job) : Prop := String.compare (jb_id a) (jb_id b) <> Gt.
#[global] Instance job_id_order_dec : RelDecision job_id_order.
Proof. intros a b. unfold job_id_order. apply _. Defined.
Definition _queue_proxy_restoration : M JobWorld unit :=
  job_transaction (
    let* now := utcnow in
    let* running := job_select JOBS (job_in [RUNNING]) in
    for_each (merge_sort job_id_order running) (queue_restoration now)).

Definition _proxy_restore_pending (job : Job) : M JobWorld bool :=
  let* row := job_select OUTBOX (fun o => String.eqb (ob_idempotency_key o) (restore_key (jb_id job) (jb_epoch job))) in
  ret (match row with o :: _ => negb (String.eqb (ob_state o) "done") | [] => false end).

Definition _other_dispatch_active (job_id : string) : M JobWorld bool :=
  let* now := utcnow in
  let* found := job_select OUTBOX (fun o => String.eqb (ob_job_id o) job_id && String.eqb (ob_topic o) "dispatch"
    && String.eqb (ob_state o) "processing" && match ob_lease_until o with Some t => now <? t | None => false end) in
  ret (match found with [] => false | _ => true end).

(** ** Movements of a job *)

(** [_set_phase] *)
Definition phased (s : Stage) (phase : string) (now : Z) (j : Job) : Job :=
  j <| jb_state := stage_state s |> <| jb_phase := Some phase |> <| jb_version ::= Z.succ |> <| jb_updated_at := now |>.
Definition _set_phase (job_id attempt_id : string) (epoch : Z) (s : Stage) (phase : string) : M JobWorld bool :=
  job_transaction (
    let* job := job_get JOBS job_id in
    let* attempt := job_get JOB_ATTEMPTS attempt_id in
    match job, attempt with
    | Some job, Some attempt =>
        if negb (jb_epoch job =? epoch) || negb (jb_current_attempt job =? ja_number attempt)
           || job_terminal (jb_state job) || job_in [CANCELLING; RECONCILING; NEEDS_ATTENTION] job
        then ret false
        else
          let* now := utcnow in
          job_set JOBS job_id (phased s phase now) ;;
          job_set JOB_ATTEMPTS attempt_id (fun a => a <| ja_state := job_state_value (stage_state s) |> <| ja_heartbeat_at := Some now |>
            <| ja_started_at ::= fun t => match s, t with RunningStage, None => Some now | _, _ => t end |>) ;;
          job_update_where ALLOCATIONS (live_of_attempt attempt_id) (fun a => a <| al_state ::= stage_allocation s |>) ;;
          let* job := the_job job_id in
          job_event job (stage_name s) [] now ;;
          ret true
    | _, _ => ret false
    end).

(** [{**details, ...}] on the details of an attempt. *)
Definition detail (attempt_id : string) (items : document) : M JobWorld unit :=
  job_set JOB_ATTEMPTS attempt_id (fun a => a <| ja_details_json ::= fun d => merge_dicts d items |>).

(** [_request_failure] *)
Definition want_failed (code : string) (attempt : option Attempt) : M JobWorld unit :=
  match attempt with
  | Some a => when (String.eqb code "deadline_exceeded" && negb (has_key "desired_terminal" (ja_details_json a)))
                (detail (ja_id a) [("desired_terminal", JStr "FAILED"); ("desired_terminal_reason", JStr "deadline_exceeded")])
  | None => ret tt
  end.
Definition blame (code : string) (transient : bool) (attempt : option Attempt) : M JobWorld unit :=
  match attempt with
  | Some a => job_set JOB_ATTEMPTS (ja_id a) (fun a => a <| ja_error_code := Some code |>) ;;
              detail (ja_id a) [("transient", JBool transient)]
  | None => ret tt
  end.
Definition failing (code : string) (now : Z) (j : Job) : Job :=
  j <| jb_state := RECONCILING |> <| jb_phase := Some "fencing" |> <| jb_error_code := Some code |>
    <| jb_version ::= Z.succ |> <| jb_updated_at := now |>.
Definition quarantine_live (job_id : string) : M JobWorld unit :=
  job_update_where ALLOCATIONS (live_of_job job_id) (fun a => a <| al_state := QUARANTINED |>).
Definition _request_failure (job_id code : string) (transient : bool) : M JobWorld unit :=
  job_transaction (
    let* job := job_get JOBS job_id in
    match job with
    | None => ret tt
    | Some job =>
        if job_terminal (jb_state job) || job_in [CANCELLING; NEEDS_ATTENTION] job then ret tt
        else
          let* attempt := current_attempt job in
          want_failed code attempt ;;
          if job_in [RECONCILING] job then ret tt
          else
            let* now := utcnow in
            job_set JOBS job_id (failing code now) ;;
            blame code transient attempt ;;
            quarantine_live job_id ;;
            let* job := the_job job_id in
            add_outbox job "fence_stop" [("reason", JStr code); ("transient", JBool transient)] (ja_id <$> attempt) ;;
            job_event job "reconciling" [("reason", JStr code)] now
    end).

(** [_request_completion] *)
Definition completing (round : Z) (now : Z) (j : Job) : Job :=
  j <| jb_current_round ::= Z.max round |> <| jb_state := RECONCILING |> <| jb_phase := Some "collecting_results" |>
    <| jb_version ::= Z.succ |> <| jb_updated_at := now |>.
Definition _request_completion (job_id : string) (round : Z) : M JobWorld unit :=
  job_transaction (
    let* job := job_get JOBS job_id in
    match job with
    | None => ret tt
    | Some job =>
        if job_terminal (jb_state job) || job_in [CANCELLING; NEEDS_ATTENTION; RECONCILING] job then ret tt
        else
          let* attempt := current_attempt job in
          let* now := utcnow in
          job_set JOBS job_id (completing round now) ;;
          let* job := the_job job_id in
          add_outbox job "fence_stop" [("success", JBool true)] (ja_id <$> attempt)
    end).

(** [_attention], [_quarantine] *)
Definition troubled (reason : string) (now : Z) (j : Job) : Job :=
  j <| jb_state := NEEDS_ATTENTION |> <| jb_phase := Some "reconciliation_required" |> <| jb_error_code := Some reason |>
    <| jb_version ::= Z.succ |> <| jb_updated_at := now |>.
Definition _attention (job_id reason : string) : M JobWorld unit :=
  job_transaction (
    let* job := job_get JOBS job_id in
    match job with
    | None => ret tt
    | Some job =>
        if job_terminal (jb_state job) then ret tt
        else
          let* now := utcnow in
          job_set JOBS job_id (troubled reason now) ;;
          let* job := the_job job_id in
          job_event job "needs_attention" [("reason", JStr reason)] now
    end).
Definition _quarantine (job_id : string) : M JobWorld unit := job_transaction (quarantine_live job_id).

(** The retention of what a job leaves. *)
Definition expire_data (job_id : string) (at_ : option Z) : M JobWorld unit :=
  job_update_where ARTIFACTS (fun r => String.eqb (ar_job_id r) job_id && negb (is_some (ar_deleted_at r))) (fun r => r <| ar_expires_at := at_ |>) ;;
  job_update_where LOG_CHUNKS (fun c => String.eqb (lc_job_id c) job_id && negb (is_some (lc_deleted_at c))) (fun c => c <| lc_expires_at := at_ |>).

(** [_terminal_in_transaction], [_terminal] *)
Definition ended (o : Outcome) (reason : string) (expires now : Z) (j : Job) : Job :=
  j <| jb_state := outcome_state o |> <| jb_phase := Some "finished" |> <| jb_outcome_reason := Some reason |>
    <| jb_error_code := match o with Failed => Some reason | _ => None end |> <| jb_backfill_count := 0 |>
    <| jb_terminated_at := Some now |> <| jb_updated_at := now |> <| jb_artifacts_expire_at := Some expires |>
    <| jb_cleanup_status := "pending" |> <| jb_version ::= Z.succ |>.
Definition _terminal_in_transaction (job : Job) (o : Outcome) (reason : string) : M JobWorld bool :=
  if job_terminal (jb_state job) then ret false
  else if job_in [CANCELLING] job && bool_decide (outcome_state o = SUCCEEDED) then ret false
  else
    let* now := utcnow in
    let* attempt := current_attempt job in
    (match attempt with
     | Some a => job_set JOB_ATTEMPTS (ja_id a) (fun a => a <| ja_state := job_state_value (outcome_state o) |> <| ja_ended_at := Some now |>)
     | None => ret tt
     end) ;;
    let* project := job_get PROJECTS (jb_project_id job) in
    let* project := row_or project AttributeError in
    let expires := now + timedelta_days (pj_retention_days project) in
    job_set JOBS (jb_id job) (ended o reason expires now) ;;
    expire_data (jb_id job) (Some expires) ;;
    let* job := the_job (jb_id job) in
    job_event job (outcome_name o) [("reason", JStr reason)] now ;;
    add_outbox job "cleanup" [] None ;;
    ret true.
Definition _terminal (job_id : string) (o : Outcome) (reason : string) : M JobWorld unit :=
  job_transaction (
    let* job := job_get JOBS job_id in
    match job with
    | Some job => let* _ := _terminal_in_transaction job o reason in ret tt
    | None => ret tt
    end).

(** [_retry]: the next attempt, once the last one is known to be over.  The
    count in the details is an integer this method wrote; [int_of] is [int]
    without the parsing of texts and the rounding of floats. *)
Definition int_of (v : json) : result Z :=
  match v with JInt n => Ok n | JBool b => Ok (Z.b2z b) | JNull | JList _ | JObj _ => Err TypeError | _ => Err (ValueError "int") end.
Definition retried (next : Z) (now : Z) (j : Job) : Job :=
  j <| jb_current_attempt ::= Z.succ |> <| jb_attempt_count ::= Z.max (jb_current_attempt j + 1) |>
    <| jb_state := QUEUED |> <| jb_phase := Some "waiting_resources" |> <| jb_terminated_at := None |>
    <| jb_artifacts_expire_at := None |> <| jb_cleanup_status := "none" |> <| jb_next_attempt_at := Some next |>
    <| jb_queue_reason := Some [("code", JStr "dependencies"); ("available_at", JStr (isoformat next))] |>
    <| jb_error_code := None |> <| jb_version ::= Z.succ |> <| jb_updated_at := now |>.
Definition new_attempt (id : string) (job : Job) (retries : Z) : Attempt :=
  mkJobAttempt id (jb_id job) (jb_current_attempt job + 1) (jb_epoch job + 1) "QUEUED" None None None None false false "none" None
    [("automatic_retries", JInt retries)] [].
Definition over (a : Attempt) : bool :=
  ja_revocation_confirmed a && ja_termination_confirmed a && mem_str (ja_publication_status a) KNOWN_PUBLICATIONS.
Definition _retry (job_id : string) (manual : bool) : M JobWorld bool :=
  job_transaction (
    let* job := job_get JOBS job_id in
    let* job := row_or job AttributeError in
    let* attempt := current_attempt job in
    if negb (job_in [RECONCILING] job) then ret false
    else
      let* attempt := row_or attempt AttributeError in
      if negb (over attempt) then ret false
      else
        let* now := utcnow in
        if match jb_deadline_at job with Some t => t <=? now | None => false end then
          let* _ := _terminal_in_transaction job Failed "deadline_exceeded" in ret true
        else
          let* retries := lift (int_of (get_or (ja_details_json attempt) "automatic_retries" (JInt 0))) in
          if negb manual && (3 <=? retries) then
            let* _ := _terminal_in_transaction job Failed "retry_exhausted" in ret true
          else
            let retries := if manual then 0 else retries + 1 in
            let* id := new_id in
            job_add JOB_ATTEMPTS (fun a => String.eqb (ja_job_id a) job_id
                && ((ja_number a =? jb_current_attempt job + 1) || (ja_epoch a =? jb_epoch job + 1))) id
              (new_attempt id job retries) ;;
            let* delay := (if manual then ret 0 else lift (retry_delay retries)) in
            job_set JOBS job_id (retried (now + timedelta_seconds delay) now) ;;
            expire_data job_id None ;;
            let* job := the_job job_id in
            job_event job "retry_queued" [("manual", JBool manual); ("automatic_retries", JInt retries)] now ;;
            ret true).

(** [_authoritative_round] *)
Definition _authoritative_round (job_id : string) (round : Z) : M JobWorld unit :=
  job_transaction (
    let* job := job_get JOBS job_id in
    match job with
    | Some job =>
        when (job_in [RUNNING; STARTING] job && (jb_current_round job <? round))
          (let* now := utcnow in
           job_set JOBS job_id (fun j => j <| jb_current_round := round |> <| jb_version ::= Z.succ |> <| jb_updated_at := now |>) ;;
           let* job := the_job job_id in
           job_event job "round_confirmed" [("current_round", JInt round)] now)
    | None => ret tt
    end).

(** ** Reports of the components *)

(** [_callback]: [apply] runs only for a live reservation of the current
    attempt, under the epoch it was admitted with. *)
Definition reservation_of (job_id attempt_id component_id : string) (epoch : Z) (a : Allocation) : bool :=
  String.eqb (al_job_id a) job_id && String.eqb (al_attempt_id a) attempt_id && String.eqb (al_component_id a) component_id
  && (al_epoch a =? epoch) && allocation_live (al_state a).
Definition current_report (job : Job) (attempt : Attempt) (epoch : Z) : bool :=
  (jb_epoch job =? epoch) && (ja_epoch attempt =? epoch) && (jb_current_attempt job =? ja_number attempt)
  && negb (job_terminal (jb_state job)).
Definition callback_body (job_id attempt_id component_id : string) (epoch : Z)
    (apply : Job -> Attempt -> Allocation -> M JobWorld unit) : M JobWorld bool :=
  let* job := job_get JOBS job_id in
  let* attempt := job_get JOB_ATTEMPTS attempt_id in
  match job, attempt with
  | Some job, Some attempt =>
      if negb (current_report job attempt epoch) then ret false
      else
        let* found := job_select ALLOCATIONS (reservation_of job_id attempt_id component_id epoch) in
        match found with
        | [] => ret false
        | a :: _ => apply job attempt a ;; ret true
        end
  | _, _ => ret false
  end.
Definition _callback (job_id attempt_id component_id : string) (epoch : Z)
    (apply : Job -> Attempt -> Allocation -> M JobWorld unit) : M JobWorld bool :=
  job_transaction (callback_body job_id attempt_id component_id epoch apply).

Definition beat (now : Z) (a : Attempt) : Attempt := a <| ja_heartbeat_at := Some now |>.
Definition ack_assignment (job_id attempt_id component_id : string) (epoch : Z) : M JobWorld bool :=
  _callback job_id attempt_id component_id epoch (fun _ attempt a =>
    let* now := utcnow in
    job_set ALLOCATIONS (al_id a) (fun a => a <| al_acknowledged := true |> <| al_state := ACKNOWLEDGED |>) ;;
    job_set JOB_ATTEMPTS (ja_id attempt) (beat now)).

Definition heartbeat (job_id attempt_id component_id : string) (epoch : Z) : M JobWorld bool :=
  _callback job_id attempt_id component_id epoch (fun _ attempt _ =>
    let* now := utcnow in job_set JOB_ATTEMPTS (ja_id attempt) (beat now)).

Definition stop_confirmation (job_id attempt_id component_id : string) (epoch : Z) : M JobWorld bool :=
  _callback job_id attempt_id component_id epoch (fun _ _ a =>
    job_set ALLOCATIONS (al_id a) (fun a => a <| al_termination_confirmed := true |> <| al_state := RELEASING |>)).

(** [progress]: the validation of a report, and what it changes. *)
Definition manager_phase (phase : string) : string :=
  match find (fun kv => String.eqb kv.1 phase)
    [("not_ready", "waiting_participants"); ("ready", "waiting_participants"); ("idle", "waiting_participants");
     ("waiting_initialization", "initializing"); ("initialized", "waiting_participants"); ("submitted", "waiting_participants");
     ("published", "publishing"); ("completed", "collecting_results"); ("skipped", "waiting_participants");
     ("retry", "waiting_participants"); ("retry_authorized", "initializing"); ("running", "training");
     ("uncertain", "publishing"); ("needs_attention", "publishing"); ("stopped", "collecting_results");
     ("failed", "collecting_results"); ("duration_exceeded", "collecting_results")] with
  | Some kv => kv.2
  | None => phase
  end.
Definition PROGRESS_PHASES : list string :=
  ["fetching"; "building"; "initializing"; "aggregating"; "waiting_participants"; "training"; "publishing"; "collecting_results"].
Definition READINESS : list string := ["initializing"; "waiting"; "ready"; "training"; "finished"; "failed"].
Definition OBSERVED_PUBLICATIONS : list string := KNOWN_PUBLICATIONS ++ UNKNOWN_PUBLICATIONS ++ ["not_observed"].

(** [any(not isinstance(key, str) or ... for key, value in metrics.items())] *)
Fixpoint bad_metric (metrics : document) : result bool :=
  match metrics with
  | [] => Ok false
  | (key, value) :: rest =>
      if String.eqb key "" || (64 <? py_len key) then Ok true
      else match value with
           | JInt _ | JFloat _ => let? finite := isfinite value in if finite then bad_metric rest else Ok true
           | _ => Ok true
           end
  end.
Definition check_metrics (metrics : json) : result unit :=
  match metrics with
  | JObj d =>
      if 32 <? Z.of_nat (List.length d) then invalid "Metrics must be a bounded finite numeric mapping"
      else let? bad := bad_metric d in value_when bad "Metrics must be a bounded finite numeric mapping"
  | _ => invalid "Metrics must be a bounded finite numeric mapping"
  end.

Record Progress := mkProgress {
  pg_current_round : option Z;
  pg_phase : option string;
  pg_publication_status : option string;
  pg_metrics : option json;
  pg_readiness : option string;
}.
Definition some_in (o : option string) (l : list string) : bool := match o with Some s => mem_str s l | None => true end.
Definition check_progress (p : Progress) : result unit :=
  let? _ := value_when (match pg_current_round p with Some n => n <? 0 | None => false end) "Round progress must be a non-negative integer" in
  let? _ := value_when (negb (some_in (pg_publication_status p) OBSERVED_PUBLICATIONS)) "Invalid publication status" in
  let? _ := value_when (negb (some_in (manager_phase <$> pg_phase p) PROGRESS_PHASES)) "Invalid progress phase" in
  let? _ := value_when (negb (some_in (pg_readiness p) READINESS)) "Invalid component readiness" in
  match pg_metrics p with Some m => check_metrics m | None => Ok tt end.

Definition set_some {A} (key : string) (f : A -> json) (v : option A) (d : document) : document :=
  match v with Some x => assoc_set key (f x) d | None => d end.
Definition reported (p : Progress) (report : document) : document :=
  set_some "reported_phase" JStr (pg_phase p) (set_some "publication_status" JStr (pg_publication_status p)
    (set_some "readiness" JStr (pg_readiness p) (set_some "metrics" id (pg_metrics p)
      (set_some "phase" JStr (manager_phase <$> pg_phase p) (set_some "current_round" JInt (pg_current_round p) report))))).

(** A phase of the job is the one of its owner, or of a build before that. *)
Definition role_of (spec : JobSpec) (component_id : string) : option ComponentRole :=
  cs_role <$> find (fun c => String.eqb (cs_component_id c) component_id) (js_components spec).
Definition sets_phase (job : Job) (component_id : string) : bool :=
  match role_of (jb_spec job) component_id with
  | Some OWNER => job_in [RUNNING; STARTING; PROVISIONING] job
  | Some BUILD => job_in [PROVISIONING] job
  | _ => false
  end.
Definition progress_apply (component_id : string) (p : Progress) (job : Job) (attempt : Attempt) : M JobWorld unit :=
  let* now := utcnow in
  let* components := lift (as_dict (get_or (ja_details_json attempt) "components" (JObj []))) in
  let* before := lift (as_dict (get_or components component_id (JObj []))) in
  let report := reported p before in
  detail (ja_id attempt) [("components", JObj (assoc_set component_id (JObj (assoc_set "observed_at" (JStr (iso now)) report)) components))] ;;
  when (negb (py_eqb (JObj before) (JObj report)))
    (job_set JOBS (jb_id job) (fun j =>
       (match pg_phase p with
        | Some phase => if sets_phase j component_id then j <| jb_phase := Some (manager_phase phase) |> else j
        | None => j
        end) <| jb_version ::= Z.succ |> <| jb_updated_at := now |>) ;;
     let* job := the_job (jb_id job) in
     job_event job "progress" [("component_id", JStr component_id); ("current_round", get_or_none report "current_round");
                               ("phase", get_or_none report "phase")] now).
Definition progress (job_id attempt_id component_id : string) (epoch : Z) (p : Progress) : M JobWorld bool :=
  let* _ := lift (check_progress p) in
  _callback job_id attempt_id component_id epoch (fun job attempt _ => progress_apply component_id p job attempt).

(** [append_logs] *)
Definition next_chunk (job_id component_id : string) : M JobWorld Z :=
  let* chunks := job_select LOG_CHUNKS (fun c => String.eqb (lc_job_id c) job_id && String.eqb (lc_component c) component_id) in
  ret (foldr Z.max 0 (map lc_sequence chunks) + 1).
Definition append_apply (component_id data : string) (job : Job) (attempt : Attempt) (a : Allocation) : M JobWorld unit :=
  let* now := utcnow in
  let* sequence := next_chunk (jb_id job) component_id in
  let* id := new_id in
  let chunk := mkLogChunk id (jb_id job) (ja_number attempt) component_id sequence data 0 now (jb_artifacts_expire_at job) None in
  job_add LOG_CHUNKS (fun c => String.eqb (lc_job_id c) (jb_id job) && String.eqb (lc_component c) component_id && (lc_sequence c =? sequence)) id chunk ;;
  let* budget := (match get_or_none (al_details_json a) "log_resource_id" with
                  | JStr budget_id =>
                      if String.eqb budget_id "" then ret None else
                      let* budget := job_get RESOURCES budget_id in
                      match budget with
                      | Some r => raise_if (negb (bool_decide (rs_attempt_id r = Some (ja_id attempt)))) 409 "retained_resource_ownership_mismatch" ;;
                                  ret (Some budget_id)
                      | None => raise 409 "retained_resource_ownership_mismatch"
                      end
                  | v => raise_if (truthy v) 409 "retained_resource_ownership_mismatch" ;; ret None
                  end) in
  let* _ := charge_log_in_transaction (jb_project_id job) chunk budget in
  ret tt.
Definition append_logs (job_id attempt_id component_id : string) (epoch : Z) (data : string) : M JobWorld bool :=
  throw_if (65536 <? utf8_len data) (ValueError "Log chunk exceeds the bounded input size") ;;
  _callback job_id attempt_id component_id epoch (append_apply component_id data).

(** [check_assignment]: a node asks whether it still holds a reservation. *)
Definition check_assignment (node_id pool_id job_id attempt_id component_id : string) (epoch : Z) : M JobWorld bool :=
  let* job := job_get JOBS job_id in
  let* attempt := job_get JOB_ATTEMPTS attempt_id in
  let* pool := job_get POOLS pool_id in
  match job, attempt, pool with
  | Some job, Some attempt, Some pool =>
      if negb (String.eqb (ja_job_id attempt) (jb_id job)) || negb (jb_epoch job =? epoch) || negb (ja_epoch attempt =? epoch)
         || negb (ja_number attempt =? jb_current_attempt job) then ret false
      else
        let* found := job_select ALLOCATIONS (fun a => reservation_of job_id attempt_id component_id epoch a && String.eqb (al_pool_id a) pool_id) in
        match found with
        | [] => ret false
        | a :: _ =>
            let assigned := get_or_none (al_details_json a) "node_id" in
            ret (py_eqb (if truthy assigned then assigned else JStr (po_node_id pool)) (JStr node_id))
        end
  | _, _, _ => ret false
  end.
End Controller.
