(* ===== verification/Fence.v ===== *)
(** * Fencing, evidence and release

    The rest of the transactions of [hf2l_jobs.controller.Controller]: the
    ledger of operations around every external effect, the steps of a fence
    that record what was revoked, stopped and observed, the proof that a queued
    attempt never started, the release of a stopped reservation with the
    budgets for what it leaves, and the status of a cleanup. *)

From stdpp Require Import base gmap strings list sorting.
From Stdlib Require Import ZArith Lia Ascii.
From S2P Require Import Prelude Json Domain Placement JobSpec JobModels Retention Recovery BlobBudget Scheduler Gang Controller.

Section Fence.
Context {P : Platform} {U : Unicode}.

(** ** The ledger of operations *)
Definition operation_prefix (job_id attempt_id : string) (epoch : Z) (component_id : string) : string :=
  job_id +:+ ":" +:+ attempt_id +:+ ":" +:+ str_of_int epoch +:+ ":" +:+ component_id +:+ ":".
Definition operation_key (job : Job) (attempt : Attempt) (component_id action : string) : string :=
  operation_prefix (jb_id job) (ja_id attempt) (ja_epoch attempt) component_id +:+ action.

(** The intent, before the effect. *)
Definition begin_operation (job : Job) (attempt : Attempt) (component_id action : string) (desired : document) : M JobWorld string :=
  job_transaction (
    let* locked := job_get JOBS (jb_id job) in
    throw_if (match locked with
              | Some l => negb (jb_epoch l =? ja_epoch attempt) || negb (jb_current_attempt l =? ja_number attempt)
              | None => true
              end) (ExecutorRefused "stale_epoch") ;;
    let key := operation_key job attempt component_id action in
    let* found := job_select OPERATIONS (fun o => String.eqb (op_idempotency_key o) key) in
    match found with
    | o :: _ => ret (op_id o)
    | [] =>
        let* id := new_id in
        job_add OPERATIONS (fun o => String.eqb (op_idempotency_key o) key) id
          (mkOperation id (jb_id job) (Some (ja_id attempt)) component_id action key "pending"
             (merge_dicts [("epoch", JInt (ja_epoch attempt))] desired) [] None) ;;
        ret id
    end).

(** What became of it. *)
Definition fail_operation (operation_id : string) (refused : bool) (error : string) : M JobWorld unit :=
  job_transaction (
    let* op := job_get OPERATIONS operation_id in
    let* _ := row_or op AttributeError in
    job_set OPERATIONS operation_id (fun o =>
      (if String.eqb (op_state o) "confirmed" then o else o <| op_state := if refused then "refused" else "unknown" |>)
        <| op_last_error := Some error |>)).
Definition confirm_operation (job : Job) (attempt : Attempt) (operation_id : string) (observed : document) : M JobWorld unit :=
  job_transaction (
    let* locked := job_get JOBS (jb_id job) in
    let* op := job_get OPERATIONS operation_id in
    match locked with
    | Some l =>
        when ((jb_epoch l =? ja_epoch attempt) && (jb_current_attempt l =? ja_number attempt))
          (let* _ := row_or op AttributeError in
           job_set OPERATIONS operation_id (fun o => o <| op_state := "confirmed" |> <| op_observed_json := observed |> <| op_last_error := None |>))
    | None => ret tt
    end).

Definition SAFE_REFUSALS : list string :=
  ["capacity"; "invalid_resources"; "job_deadline_expired"; "unsupported_profile"; "node_mismatch"; "pool_mismatch"; "invalid_identity"].
Definition error_in (o : ProvisioningOperation) (l : list string) : bool :=
  match op_last_error o with Some e => mem_str e l | None => false end.

(** [_never_reserved] *)
Definition _never_reserved (job : Job) (attempt : Attempt) (component_id : string) : M JobWorld bool :=
  let* found := job_select OPERATIONS (fun o => String.eqb (op_idempotency_key o) (operation_key job attempt component_id "reserve")) in
  ret (match found with
       | o :: _ => String.eqb (op_state o) "refused" && error_in o SAFE_REFUSALS
       | [] => true
       end).

(** ** [_confirm_never_started] *)

(** The rows of an attempt that had no effect. *)
Definition NEVER_STARTED_DETAILS : list string := ["desired_terminal"; "desired_terminal_reason"; "automatic_retries"; "never_started_cleanup"].
Definition untouched (job : Job) (attempt : Attempt) : bool :=
  String.eqb (ja_job_id attempt) (jb_id job) && (ja_number attempt =? jb_current_attempt job)
  && ((ja_epoch attempt =? jb_epoch job) || (ja_epoch attempt =? jb_epoch job + 1))
  && job_in [CANCELLING; JOB_CANCELLED; JOB_FAILED] job && mem_str (ja_state attempt) ["QUEUED"; "CANCELLED"; "FAILED"]
  && negb (is_some (ja_started_at attempt)) && negb (is_some (ja_heartbeat_at attempt)) && negb (is_some (ja_node_id attempt))
  && negb (truthy (JObj (ja_resources_json attempt))) && mem_str (ja_publication_status attempt) ["none"; "absent"]
  && forallb (fun k => mem_str k NEVER_STARTED_DETAILS) (keys (ja_details_json attempt)).
Definition no_effects (d : JobDB) (job : Job) (attempt : Attempt) : bool :=
  match rows (fun a => String.eqb (al_job_id a) (jb_id job) && String.eqb (al_attempt_id a) (ja_id attempt)) (allocations d),
        rows (fun o => String.eqb (op_job_id o) (jb_id job) && bool_decide (op_attempt_id o = Some (ja_id attempt))) (operations d),
        rows (fun r => String.eqb (rs_job_id r) (jb_id job) && bool_decide (rs_attempt_id r = Some (ja_id attempt))) (resources d) with
  | [], [], [] => true
  | _, _, _ => false
  end.

(** The earlier attempts of the job are over, and so is what they held. *)
Definition earlier (d : JobDB) (job : Job) (attempt : Attempt) : list Attempt :=
  rows (fun a => String.eqb (ja_job_id a) (jb_id job) && negb (String.eqb (ja_id a) (ja_id attempt))) (job_attempts d).
Definition find_attempt (previous : list Attempt) (id : option string) : option Attempt :=
  find (fun a => bool_decide (id = Some (ja_id a))) previous.
Definition allocation_closed (previous : list Attempt) (a : Allocation) : bool :=
  is_some (find_attempt previous (Some (al_attempt_id a))) && bool_decide (al_state a = RELEASED)
  && is_some (al_released_at a) && al_termination_confirmed a.

Definition confirmed_effect (prefix : string) (old : Attempt) (component_id effect : string) (o : ProvisioningOperation) : bool :=
  bool_decide (op_attempt_id o = Some (ja_id old)) && String.eqb (op_component_id o) component_id && String.eqb (op_operation o) effect
  && String.eqb (op_idempotency_key o) (prefix +:+ effect) && py_eqb (get_or_none (op_desired_json o) "epoch") (JInt (ja_epoch old))
  && String.eqb (op_state o) "confirmed" && negb (is_some (op_last_error o)).
Definition is_true (v : json) : bool := match v with JBool true => true | _ => false end.

(** A reservation whose reply was lost is settled by a confirmed stop,
    collection and release. *)
Definition settled_by_effects (effects : list ProvisioningOperation) (held : list Allocation) (old : Attempt) (o : ProvisioningOperation) (prefix : string) : bool :=
  let closed effect := List.filter (confirmed_effect prefix old (op_component_id o) effect) effects in
  existsb (fun a => String.eqb (al_attempt_id a) (ja_id old) && String.eqb (al_component_id a) (op_component_id o) && (al_epoch a =? ja_epoch old)) held
  && match last (closed "stop"), last (closed "collect"), last (closed "release") with
     | Some stop, Some _, Some release =>
         is_true (get_or_none (op_observed_json stop) "termination_confirmed") && is_true (get_or_none (op_observed_json release) "confirmed")
     | _, _, _ => false
     end.
Definition operation_closed (job : Job) (previous : list Attempt) (effects : list ProvisioningOperation) (held : list Allocation)
    (o : ProvisioningOperation) : bool :=
  match find_attempt previous (op_attempt_id o) with
  | None => false
  | Some old =>
      if negb (mem_str (op_component_id o) (map cs_component_id (js_components (jb_spec job)))) then false
      else
        let prefix := operation_prefix (jb_id job) (ja_id old) (ja_epoch old) (op_component_id o) in
        if String.eqb (op_state o) "ready" && negb (is_some (op_last_error o)) then
          mem_str (op_idempotency_key o) [stable_key ["hf2l"; jb_id job; ja_id old; op_component_id o; op_operation o];
                                          stable_key ["hf2l"; jb_id job; ""; op_component_id o; op_operation o]]
          && py_eqb (get_or (op_desired_json o) "epoch" (JInt (ja_epoch old))) (JInt (ja_epoch old))
        else if String.eqb (op_state o) "confirmed" && negb (is_some (op_last_error o)) then
          String.eqb (op_idempotency_key o) (prefix +:+ op_operation o) && py_eqb (get_or_none (op_desired_json o) "epoch") (JInt (ja_epoch old))
        else if negb (String.eqb (op_operation o) "reserve") || negb (String.eqb (op_idempotency_key o) (prefix +:+ "reserve"))
                || negb (py_eqb (get_or_none (op_desired_json o) "epoch") (JInt (ja_epoch old))) then false
        else if String.eqb (op_state o) "refused" && error_in o SAFE_REFUSALS then true
        else String.eqb (op_state o) "unknown" && settled_by_effects effects held old o prefix
  end.

Definition DATA_KINDS : list string :=
  ["source"; "build_products"; "component_state"; "execution_state"; "retained_output"; "retained_artifact_root"; "collection_budget"; "log_budget"].
Definition owned_as (ownership : document) (key value : string) : bool := py_eqb (get_or ownership key (JStr value)) (JStr value).
Definition resource_closed (job : Job) (previous : list Attempt) (held : list Allocation) (r : ProvisioningResource) : bool :=
  match find_attempt previous (rs_attempt_id r) with
  | None => false
  | Some old =>
      let ownership := rs_ownership_json r in
      mem_str (rs_component_id r) (map cs_component_id (js_components (jb_spec job)))
      && py_eqb (get_or_none ownership "job_id") (JStr (jb_id job)) && py_eqb (get_or_none ownership "component_id") (JStr (rs_component_id r))
      && owned_as ownership "attempt_id" (ja_id old) && py_eqb (get_or ownership "epoch" (JInt (ja_epoch old))) (JInt (ja_epoch old))
      && owned_as ownership "kind" (rs_kind r)
      && (is_some (rs_deleted_at r) || String.eqb (rs_state r) "deleted"
          || rs_retained r && mem_str (rs_kind r) DATA_KINDS
             && (if String.eqb (rs_state r) "planned" && mem_str (rs_kind r) ["collection_budget"; "log_budget"] then
                   let pointer := if String.eqb (rs_kind r) "collection_budget" then "collection_resource_id" else "log_resource_id" in
                   existsb (fun a => String.eqb (al_attempt_id a) (ja_id old) && String.eqb (al_component_id a) (rs_component_id r)
                     && (al_epoch a =? ja_epoch old) && py_eqb (get_or_none (al_details_json a) pointer) (JStr (rs_id r))) held
                 else mem_str (rs_state r) ["ready"; "retained"]))
  end.

Definition history_closed (d : JobDB) (job : Job) (attempt : Attempt) : bool :=
  let previous := earlier d job attempt in
  let held := rows (fun a => String.eqb (al_job_id a) (jb_id job)) (allocations d) in
  let effects := rows (fun o => String.eqb (op_job_id o) (jb_id job)) (operations d) in
  forallb over previous && forallb (allocation_closed previous) held
  && forallb (operation_closed job previous effects held) effects
  && forallb (resource_closed job previous held) (rows (fun r => String.eqb (rs_job_id r) (jb_id job)) (resources d)).
Definition retries_bounded (attempt : Attempt) : bool :=
  match get_or (ja_details_json attempt) "automatic_retries" (JInt 0) with JInt n => (0 <=? n) && (n <=? 3) | _ => false end.
Definition dispatch_pending (d : JobDB) (job_id : string) : bool :=
  match rows (fun o => String.eqb (ob_job_id o) job_id && mem_str (ob_topic o) ["dispatch"; "restore_proxies"] && negb (String.eqb (ob_state o) "done")) (outbox d) with
  | [] => false
  | _ => true
  end.

Definition never_started_detail (previous : list Attempt) : document :=
  [("never_started_cleanup", JObj [("reason", JStr "never_dispatched"); ("authority", JStr "manager_operation_ledger");
    ("no_current_attempt_effects", JBool true); ("fenced_prior_attempts", json_strings (sorted_set (map ja_id previous)))])].
Definition _confirm_never_started (claim : option Outbox) (job_id attempt_id : string) : M JobWorld bool :=
  _require_claim claim ;;
  job_transaction (
    let* job := job_get JOBS job_id in
    let* attempt := job_get JOB_ATTEMPTS attempt_id in
    match job, attempt with
    | Some job, Some attempt =>
        let* d := gets jw_db in
        if negb (untouched job attempt && no_effects d job attempt && history_closed d job attempt && retries_bounded attempt
                 && negb (dispatch_pending d job_id)) then ret false
        else if ja_revocation_confirmed attempt && ja_termination_confirmed attempt then ret true
        else
          let* now := utcnow in
          job_set JOB_ATTEMPTS attempt_id (fun a => a <| ja_revocation_confirmed := true |> <| ja_termination_confirmed := true |>
            <| ja_publication_status := "absent" |>) ;;
          detail attempt_id (never_started_detail (earlier d job attempt)) ;;
          job_set JOBS job_id (fun j => j <| jb_version ::= Z.succ |> <| jb_updated_at := now |>) ;;
          let* job := the_job job_id in
          job_event job "attempt.never_started_cleanup_confirmed" [("attempt_id", JStr attempt_id); ("reason", JStr "never_dispatched")] now ;;
          ret true
    | _, _ => ret false
    end).

(** ** The steps of [_fence] that are recorded *)

(** The outcome a fence is for, once. *)
Definition record_desired (attempt_id : string) (o : Outcome) (reason : string) : M JobWorld unit :=
  job_transaction (
    let* stored := job_get JOB_ATTEMPTS attempt_id in
    let* stored := row_or stored AttributeError in
    when (negb (has_key "desired_terminal" (ja_details_json stored)))
      (detail attempt_id [("desired_terminal", JStr (job_state_value (outcome_state o))); ("desired_terminal_reason", JStr reason)])).

(** The provisioner confirmed that the grants are revoked. *)
Definition record_revoked (attempt_id : string) : M JobWorld unit :=
  job_transaction (
    let* stored := job_get JOB_ATTEMPTS attempt_id in
    let* _ := row_or stored AttributeError in
    job_set JOB_ATTEMPTS attempt_id (fun a => a <| ja_revocation_confirmed := true |>)).

(** The evidence an operator submitted. *)
Definition record_evidence (attempt_id : string) (details : document) : M JobWorld unit :=
  job_transaction (
    let* stored := job_get JOB_ATTEMPTS attempt_id in
    let* _ := row_or stored AttributeError in
    job_set JOB_ATTEMPTS attempt_id (fun a => a <| ja_details_json := details |>)).

(** Everything is stopped, and the publication was observed. *)
Definition record_stopped (job_id attempt_id : string) (publication : PublicationObservation) (evidence : document) : M JobWorld unit :=
  job_transaction (
    let* now := utcnow in
    let* stored := job_get JOB_ATTEMPTS attempt_id in
    let* _ := row_or stored AttributeError in
    job_set JOB_ATTEMPTS attempt_id (fun a => a <| ja_publication_status := pu_status publication |> <| ja_termination_confirmed := true |>
      <| ja_ended_at := Some now |> <| ja_state := "STOPPED" |>) ;;
    detail attempt_id [("publication_evidence", JObj evidence)] ;;
    let* locked := job_get JOBS job_id in
    match pu_current_round publication with
    | Some round =>
        let* _ := row_or locked AttributeError in
        job_set JOBS job_id (fun j => j <| jb_current_round ::= Z.max round |>)
    | None => ret tt
    end).

(** ** Release *)

(** The last transaction of [_release] for one reservation: nothing is free
    before its termination is confirmed. *)
Definition freed (now : Z) (a : Allocation) : Allocation := a <| al_state := RELEASED |> <| al_released_at := Some now |>.
Definition release_reserved (allocation_id : string) : M JobWorld bool :=
  job_transaction (
    let* stored := job_get ALLOCATIONS allocation_id in
    let* stored := row_or stored AttributeError in
    if negb (al_termination_confirmed stored) then ret false
    else
      let* now := utcnow in
      job_set ALLOCATIONS allocation_id (freed now) ;;
      job_update_where GPU_ALLOCATIONS (fun g => String.eqb (ga_allocation_id g) allocation_id && negb (is_some (ga_released_at g)))
        (fun g => g <| ga_released_at := Some now |>) ;;
      ret true).

(** The resource an allocation points at, or the one of its kind and name. *)
Definition linked_resource (a : Allocation) (pointer kind : string) : M JobWorld (option ProvisioningResource) :=
  let link := get_or_none (al_details_json a) pointer in
  if truthy link then
    match link with JStr id => job_get RESOURCES id | _ => ret None end
  else
    let* found := job_select RESOURCES (fun r => String.eqb (rs_kind r) kind && String.eqb (rs_external_id r) (al_id a)) in
    ret (head found).
Definition allocation_ownership (job : Job) (attempt : Attempt) (a : Allocation) : document :=
  [("job_id", JStr (jb_id job)); ("attempt_id", JStr (ja_id attempt)); ("component_id", JStr (al_component_id a)); ("epoch", JInt (al_epoch a))].

(** [_reserve_collection] *)
Definition _reserve_collection (job : Job) (attempt : Attempt) (a : Allocation) : M JobWorld string :=
  job_transaction (
    let* pool := job_get POOLS (al_pool_id a) in
    let* stored_job := job_get JOBS (jb_id job) in
    let* stored := job_get ALLOCATIONS (al_id a) in
    match stored_job, stored with
    | Some stored_job, Some stored =>
        throw_if (negb (jb_epoch stored_job =? ja_epoch attempt) || negb (jb_current_attempt stored_job =? ja_number attempt)
                  || negb (al_epoch stored =? ja_epoch attempt)) (ExecutorRefused "stale_epoch") ;;
        let* resource := linked_resource stored "collection_resource_id" "collection_budget" in
        let* id := (match resource with
          | Some r =>
              throw_if (negb (String.eqb (rs_job_id r) (jb_id job)) || negb (String.eqb (rs_kind r) "collection_budget")
                        || negb (String.eqb (rs_component_id r) (al_component_id a))
                        || negb (py_eqb (get_or_none (rs_details_json r) "pool_id") (JStr (al_pool_id a)))) (ExecutorRefused "unsafe_output") ;;
              ret (rs_id r)
          | None =>
              let id := String.substring 0 32 (stable_key ["collection-budget"; al_id a]) in
              job_add RESOURCES (fun r => String.eqb (rs_kind r) "collection_budget" && String.eqb (rs_external_id r) (al_id a)) id
                (mkResource id (jb_id job) (Some (ja_id attempt)) (al_component_id a) "collection_budget" (al_id a)
                   (allocation_ownership job attempt a)
                   [("pool_id", JStr (al_pool_id a)); ("node_id", get_or_none (al_details_json a) "node_id")] "planned" true 0 None) ;;
              ret id
          end) in
        let* _ := reserve_in_transaction id (jb_project_id job) (al_disk_bytes a + 4 * 1024 * 1024) pool in
        ret id
    | _, _ => throw (ExecutorRefused "stale_epoch")
    end).

(** [_retain_execution_state] *)
Definition _retain_execution_state (job : Job) (attempt : Attempt) (a : Allocation) : M JobWorld unit :=
  job_transaction (
    let* stored := job_get ALLOCATIONS (al_id a) in
    let* stored := row_or stored AttributeError in
    let* resource := linked_resource stored "retained_resource_id" "execution_state" in
    let* id := (match resource with
      | Some r =>
          throw_if (negb (String.eqb (rs_job_id r) (jb_id job)) || negb (bool_decide (rs_attempt_id r = Some (ja_id attempt)))
                    || negb (String.eqb (rs_kind r) "execution_state") || negb (String.eqb (rs_component_id r) (al_component_id a))
                    || negb (py_eqb (get_or (rs_details_json r) "pool_id" (JStr (al_pool_id a))) (JStr (al_pool_id a)))) (ExecutorRefused "unsafe_output") ;;
          ret (rs_id r)
      | None =>
          let* id := new_id in
          job_add RESOURCES (fun r => String.eqb (rs_kind r) "execution_state" && String.eqb (rs_external_id r) (al_id a)) id
            (mkResource id (jb_id job) (Some (ja_id attempt)) (al_component_id a) "execution_state" (al_id a)
               (allocation_ownership job attempt a) [] "retained" true 0 None) ;;
          ret id
      end) in
    let* _ := charge_in_transaction id (jb_project_id job) (al_disk_bytes a) in
    job_set RESOURCES id (fun r => r <| rs_state := "retained" |>) ;;
    job_set ALLOCATIONS (al_id a) (fun x => x <| al_details_json ::= fun d => merge_dicts d
      [("retained_disk_charged", JBool true); ("retained_resource_id", JStr id); ("storage_deleted", JBool false)] |>)).

(** ** Cleanup *)
Inductive CleanupTopic := CleanupJob | PurgeJob | ExpireArtifacts.
Definition deletes_storage (t : CleanupTopic) : bool := match t with CleanupJob => false | _ => true end.
Definition DELETED_KINDS : list string := ["execution_state"; "retained_output"; "retained_artifact_root"; "collection_budget"].

(** The storage of the job is confirmed deleted. *)
Definition record_storage_deleted (job_id : string) : M JobWorld unit :=
  job_transaction (
    let* now := utcnow in
    job_update_where ALLOCATIONS (fun a => String.eqb (al_job_id a) job_id && bool_decide (al_state a = RELEASED))
      (fun a => a <| al_details_json ::= fun d => merge_dicts d [("storage_deleted", JBool true)] |>) ;;
    let* found := job_select RESOURCES (fun r => String.eqb (rs_job_id r) job_id && mem_str (rs_kind r) DELETED_KINDS) in
    throw_if (existsb (fun r => negb (py_eqb (get_or_none (rs_ownership_json r) "job_id") (JStr job_id))) found) (ExecutorRefused "unsafe_output") ;;
    job_update_where RESOURCES (fun r => String.eqb (rs_job_id r) job_id && mem_str (rs_kind r) DELETED_KINDS)
      (fun r => r <| rs_state := "deleted" |> <| rs_deleted_at := Some now |>)).

(** The status of the cleanup; a purge that was requested since is kept. *)
Definition cleanup_result (t : CleanupTopic) (confirmed : bool) : string :=
  match t, confirmed with
  | CleanupJob, true | PurgeJob, true => "complete"
  | ExpireArtifacts, true => "expired"
  | CleanupJob, false => "failed"
  | PurgeJob, false => "purge_pending"
  | ExpireArtifacts, false => "expiry_pending"
  end.
Definition cleaned (t : CleanupTopic) (confirmed : bool) (now : Z) (j : Job) : Job :=
  (match t, confirmed with PurgeJob, true => j <| jb_purged_at := Some now |> | _, _ => j end)
    <| jb_cleanup_status := cleanup_result t confirmed |> <| jb_version ::= Z.succ |> <| jb_updated_at := now |>.
Definition cleanup_event (t : CleanupTopic) (confirmed : bool) : string :=
  match t, confirmed with PurgeJob, true => "purged" | ExpireArtifacts, true => "artifacts_expired" | _, _ => "cleanup" end.
Definition record_cleanup (t : CleanupTopic) (job_id : string) (confirmed : bool) : M JobWorld bool :=
  job_transaction (
    let* stored := job_get JOBS job_id in
    let* stored := row_or stored AttributeError in
    if negb (deletes_storage t) && (is_some (jb_purged_at stored) || mem_str (jb_cleanup_status stored) ["purge_pending"; "expiry_pending"; "expired"])
    then ret true
    else
      let* now := utcnow in
      job_set JOBS job_id (cleaned t confirmed now) ;;
      let* job := the_job job_id in
      job_event job (cleanup_event t confirmed) [("confirmed", JBool confirmed)] now ;;
      ret confirmed).
End Fence.
