(* ===== verification/Views.v ===== *)
(** * What the manager shows of a job

    The views of [hf2l_jobs.application.Manager]: the actions a member may
    take, the report of a component with everything unbounded or malformed left
    out, and the description of a job with its participants, its allocations
    and the space it owns. *)

From stdpp Require Import base gmap strings list sorting.
From Stdlib Require Import ZArith Lia Ascii.
From S2P Require Import Prelude Json Domain JobSpec JobModels Retention Recovery BlobBudget Scheduler Gang Controller.

(** [datetime.fromisoformat]: [None] is the [ValueError] of a text that is no
    date, [Some None] a date without an offset. *)
Class Calendar := { fromisoformat : string -> option (option Z) }.

(** [value.replace(a, b)] for a one-character [a]. *)
Fixpoint replace_char (a : ascii) (b s : string) : string :=
  match s with
  | EmptyString => ""
  | String c s' => (if Ascii.eqb c a then b else String c "") +:+ replace_char a b s'
  end.

Definition in_json (v : json) (l : list string) : bool := match v with JStr s => mem_str s l | _ => false end.
Definition printable (s : string) : bool := all_char (fun c => negb (byte_of c <? 32)) s.

(** [reports.get(...)] where anything but a dict counts as an empty one. *)
Definition dict_or_empty (v : json) : document := match v with JObj d => d | _ => [] end.

Section Views.
Context {P : Platform} {U : Unicode} {C : Calendar}.

(** ** [_allowed] *)
Definition before_now (now : Z) (t : option Z) : bool := match t with Some t => t <=? now | None => false end.
Definition may_retry (now : Z) (job : Job) : bool :=
  job_in [JOB_FAILED] job && negb (before_now now (jb_deadline_at job))
  && negb (mem_str (jb_cleanup_status job) ["purge_pending"; "expiry_pending"; "expired"])
  && negb (before_now now (jb_artifacts_expire_at job)).
Definition _allowed (now : Z) (job : Job) (role : string) : list string :=
  (if mem_str role ["operator"; "admin"] && negb (is_some (jb_purged_at job)) then
     (if negb (job_terminal (jb_state job)) && negb (job_in [CANCELLING] job) then ["cancel"] else [])
     ++ (if may_retry now job then ["retry"] else [])
     ++ (if job_in [NEEDS_ATTENTION] job then ["reconcile"] else [])
   else [])
  ++ (if String.eqb role "admin" then
        ["manage_members"] ++ (if job_terminal (jb_state job) && negb (is_some (jb_purged_at job)) then ["purge"] else [])
      else []).

(** ** [_safe_component_report] *)

(** [abs(number) <= 1.7976931348623157e308 and math.isfinite(number)] *)
Definition safe_number (v : json) : bool :=
  match v with
  | JFloat f => float_is_finite f
  | JInt n => Z.abs n <=? 2 ^ 1024 - 2 ^ 971
  | _ => false
  end.
Definition safe_metric (kv : string * json) : bool :=
  negb (String.eqb kv.1 "") && (py_len kv.1 <=? 64) && printable kv.1 && safe_number kv.2.
Definition SAFE_READINESS : list string := READINESS.
Definition observed_time (raw : json) : option Z :=
  match raw with
  | JStr s => if py_len s <=? 128 then match fromisoformat (replace_char "Z"%char "+00:00" s) with Some t => t | None => None end else None
  | _ => None
  end.
Definition freshness (now : Z) (observed_at : option Z) : string :=
  match observed_at with
  | None => "not_observed"
  | Some t => if timedelta_seconds 300 <? now - t then "stale" else if now - t <? timedelta_seconds (-30) then "clock_skew" else "current"
  end.
Definition optional (key : string) (v : option json) : document := match v with Some v => [(key, v)] | None => [] end.
Definition if_in (v : json) (l : list string) : option json := if in_json v l then Some v else None.
Definition MAX_ROUND : Z := Z.shiftl 1 63 - 1.

Definition _safe_component_report (now : Z) (report : json) : document :=
  let report := dict_or_empty report in
  let metrics := List.filter safe_metric (take 32 (dict_or_empty (get_or report "metrics" (JObj [])))) in
  let readiness := get_or_none report "readiness" in
  let observed_at := observed_time (get_or_none report "observed_at") in
  [("metrics", JObj metrics); ("metrics_status", JStr (match metrics with [] => "not_observed" | _ => "observed" end));
   ("readiness", if in_json readiness SAFE_READINESS then readiness else JStr "not_observed");
   ("observed_at", opt_iso observed_at); ("freshness", JStr (freshness now observed_at))]
  ++ optional "reported_round" (match get_or_none report "current_round" with
                                | JInt n => if (0 <=? n) && (n <=? MAX_ROUND) then Some (JInt n) else None
                                | _ => None
                                end)
  ++ optional "phase" (if_in (get_or_none report "phase") PROGRESS_PHASES)
  ++ optional "publication_status" (if_in (get_or_none report "publication_status") OBSERVED_PUBLICATIONS).

(** ** [_attempt_components] *)
Definition component_view (now : Z) (reports : document) (c : ComponentSpec) : document :=
  [("component_id", JStr (cs_component_id c)); ("role", JStr (component_role_value (cs_role c))); ("participant_id", opt_str (cs_participant_id c))]
  ++ _safe_component_report now (get_or_none reports (cs_component_id c)).
Definition _attempt_components (now : Z) (job : Job) (attempt : option Attempt) (include_observations : bool) : list document :=
  let details := match attempt with Some a => ja_details_json a | None => [] end in
  let reports := if include_observations then dict_or_empty (get_or details "components" (JObj [])) else [] in
  map (component_view now reports) (take 1024 (js_components (jb_spec job))).

(** ** [_observations] *)
Definition allocation_view (a : Allocation) : json :=
  JObj [("component_id", JStr (al_component_id a)); ("pool_id", JStr (al_pool_id a));
        ("state", JStr (match al_state a with
                        | RESERVED => "RESERVED" | ACKNOWLEDGED => "ACKNOWLEDGED" | AL_STARTING => "STARTING" | AL_RUNNING => "RUNNING"
                        | QUARANTINED => "QUARANTINED" | RELEASING => "RELEASING" | RELEASED => "RELEASED"
                        end));
        ("acknowledged", JBool (al_acknowledged a)); ("termination_confirmed", JBool (al_termination_confirmed a));
        ("cpu_millicores", JInt (al_cpu_millicores a)); ("memory_bytes", JInt (al_memory_bytes a));
        ("disk_bytes", JInt (al_disk_bytes a)); ("gpu_count", JInt (al_gpu_count a))].
Definition component_order (a b : Allocation) : Prop := String.compare (al_component_id a) (al_component_id b) <> Gt.
#[global] Instance component_order_dec : RelDecision component_order.
Proof. intros a b. unfold component_order. apply _. Defined.

(** The enrollment of an external participant in the current attempt. *)
Definition ENROLLMENT_STATUS : list string :=
  ["enrolled"; "dispatching"; "preparing"; "assigned"; "stopped"; "purging"; "purged"; "failed"; "needs_attention"].
Definition ENROLLMENT_PHASES : list string :=
  ["running"; "waiting_initialization"; "waiting_for_model"; "training"; "publishing"; "completed"; "retry"; "needs_attention"; "stopped"].
Definition enrolled_as (job : Job) (attempt : option Attempt) (participant_id : string) (r : ProvisioningResource) : bool :=
  match attempt with
  | Some a =>
      py_eqb (get_or_none (rs_details_json r) "participant_id") (JStr participant_id)
      && py_eqb (get_or_none (rs_ownership_json r) "job_id") (JStr (jb_id job))
      && py_eqb (get_or_none (rs_ownership_json r) "participant_id") (JStr participant_id)
      && bool_decide (rs_attempt_id r = Some (ja_id a)) && py_eqb (get_or_none (rs_details_json r) "epoch") (JInt (ja_epoch a))
  | None => false
  end.

Definition not_observed : document :=
  [("readiness", JStr "not_observed"); ("metrics", JObj []); ("observed_at", JNull); ("freshness", JStr "not_observed")].
Definition picked (report : document) (names : list string) : document := map (fun k => (k, get_or_none report k)) names.

Definition with_enrollment (now : Z) (r : ProvisioningResource) (participant : document) : document :=
  let data := rs_details_json r in
  let node_id := get_or_none participant "node_id" in
  if negb (py_eqb (get_or_none data "dataset_binding") (get_or_none participant "dataset_binding"))
     || negb (py_eqb (get_or_none data "node_id") node_id) then participant
  else
    let status := get_or_none data "status" in
    let participant :=
      if in_json status ENROLLMENT_STATUS then
        merge_dicts participant [("status", status);
          ("enrollment", JObj [("status", status); ("node_id", node_id); ("attempt_id", opt_str (rs_attempt_id r)); ("epoch", get_or_none data "epoch")])]
      else participant in
    let phase := get_or_none data "phase" in
    if in_json phase ENROLLMENT_PHASES then
      let report := _safe_component_report now (JObj [("observed_at", get_or_none data "last_heartbeat")]) in
      merge_dicts participant [("readiness", phase); ("observed_at", get_or_none report "observed_at"); ("freshness", get_or_none report "freshness")]
    else participant.

(** [by_component.get(...)] of a dict built from a list: the last one. *)
Definition by_component (components : list document) (component_id : json) : option document :=
  last (List.filter (fun c => py_eqb (get_or_none c "component_id") component_id) components).
Definition observed_participant (now : Z) (job : Job) (attempt : option Attempt) (components : list document)
    (enrollments : list ProvisioningResource) (participant : document) : document :=
  let managed := py_eqb (get_or_none participant "mode") (JStr "managed") in
  match (if managed then by_component components (get_or_none participant "component_id") else None) with
  | Some report => merge_dicts participant (picked report ["readiness"; "metrics"; "observed_at"; "freshness"])
  | None =>
      let participant := merge_dicts participant not_observed in
      match get_or_none participant "participant_id" with
      | JStr pid =>
          if negb (py_eqb (get_or_none participant "mode") (JStr "external")) then participant
          else match last (List.filter (enrolled_as job attempt pid) enrollments) with
               | Some r => with_enrollment now r participant
               | None => participant
               end
      | _ => participant
      end
  end.

Definition owned_space (job : Job) (r : ProvisioningResource) : bool :=
  String.eqb (rs_job_id r) (jb_id job) && String.eqb (rs_kind r) "exchange_space"
  && py_eqb (get_or_none (rs_ownership_json r) "job_id") (JStr (jb_id job))
  && negb (String.eqb (rs_state r) "deleted") && (py_len (rs_external_id r) <=? 256).

Definition _observations (now : Z) (d : JobDB) (job : Job) (participants : list document) : document :=
  let attempt := head (rows (attempt_of job) (job_attempts d)) in
  let current_epoch := match attempt with Some a => ja_epoch a =? jb_epoch job | None => false end in
  let components := _attempt_components now job attempt current_epoch in
  let owner := match find (fun c => py_eqb (get_or_none c "role") (JStr "owner")) components with
               | Some c => c
               | None => _safe_component_report now JNull
               end in
  let held := match attempt with
              | Some a => rows (fun x => String.eqb (al_job_id x) (jb_id job) && String.eqb (al_attempt_id x) (ja_id a) && (al_epoch x =? ja_epoch a)) (allocations d)
              | None => []
              end in
  let enrollments := rows (fun r => String.eqb (rs_job_id r) (jb_id job) && String.eqb (rs_kind r) "external_enrollment") (resources d) in
  [("metrics", get_or_none owner "metrics");
   ("progress", JObj [("attempt_id", opt_str (ja_id <$> attempt)); ("epoch", match attempt with Some a => JInt (ja_epoch a) | None => JNull end);
     ("metrics", get_or_none owner "metrics"); ("metrics_status", get_or_none owner "metrics_status");
     ("observed_at", get_or_none owner "observed_at"); ("freshness", get_or_none owner "freshness"); ("components", JList (map JObj components))]);
   ("allocations", JList (map allocation_view (List.filter (fun a => is_some (by_component components (JStr (al_component_id a))))
                                                  (merge_sort component_order held))));
   ("participants", JList (map (fun p => JObj (observed_participant now job attempt components enrollments p)) participants));
   ("space_id", match rows (owned_space job) (resources d) with [r] => JStr (rs_external_id r) | _ => JNull end)].

(** ** [_job_view] *)
Definition base_view (now : Z) (job : Job) (role : string) : document :=
  [("id", JStr (jb_id job)); ("project_id", JStr (jb_project_id job)); ("name", JStr (js_name (jb_spec job)));
   ("state", JStr (job_state_value (jb_state job))); ("phase", opt_str (jb_phase job));
   ("queue_reason", match jb_queue_reason job with Some r => JObj r | None => JNull end);
   ("version", JInt (jb_version job)); ("current_attempt", JInt (jb_current_attempt job));
   ("target_round", JInt (jb_target_round job)); ("current_round", JInt (jb_current_round job));
   ("created_at", JStr (iso (jb_created_at job))); ("updated_at", JStr (iso (jb_updated_at job)));
   ("deadline_at", opt_iso (jb_deadline_at job)); ("terminated_at", opt_iso (jb_terminated_at job));
   ("error_code", opt_str (jb_error_code job)); ("outcome_reason", opt_str (jb_outcome_reason job));
   ("retention", JObj (retention_summary job now)); ("role", JStr role);
   ("allowed_actions", json_strings (_allowed now job role)); ("spec_hash", JStr (jb_spec_hash job))].
Definition resource_summary (spec : JobSpec) : document :=
  map (fun k => (dim_name k, JInt (foldr Z.add 0 (map (fun c => amount k (request_amounts (cs_resources c))) (js_components spec))))) RESOURCE_DIMENSIONS.

(** A participant with its binding, and whether it may enroll. *)
Definition approved_node (d : JobDB) (job : Job) (p : ParticipantSpec) : option string :=
  match bindings d !! ps_dataset_binding p with
  | Some b => if String.eqb (bd_project_id b) (jb_project_id job) && bd_enabled b && String.eqb (bd_participant_id b) (ps_participant_id p)
              then bd_node_id b else None
  | None => None
  end.
Definition can_enroll (now : Z) (job : Job) (role : string) (p : ParticipantSpec) (node_id : option string) : bool :=
  bool_decide (ps_mode p = EXTERNAL) && match node_id with Some n => negb (String.eqb n "") | None => false end
  && mem_str role ["operator"; "admin"] && job_in [QUEUED; PROVISIONING; STARTING; RUNNING] job && negb (before_now now (jb_deadline_at job)).
Definition enriched (now : Z) (d : JobDB) (job : Job) (role : string) (p : ParticipantSpec) : document :=
  let node_id := approved_node d job p in
  merge_dicts (dict_or_empty (participant_dict p))
    [("node_id", opt_str node_id); ("allowed_actions", json_strings (if can_enroll now job role p node_id then ["enroll_participant"] else []))].
Definition component_resources (c : ComponentSpec) : json :=
  JObj (merge_dicts [("component_id", JStr (cs_component_id c)); ("role", JStr (component_role_value (cs_role c)))]
          (dict_or_empty (resources_dict (cs_resources c)))).

Definition summary_view (job : Job) : document :=
  let spec := jb_spec job in
  [("resource_summary", JObj (resource_summary spec)); ("participants_count", JInt (Z.of_nat (List.length (js_participants spec))));
   ("first_reserved_at", match jb_deadline_at job with Some t => JStr (iso (t - timedelta_seconds (js_max_duration_seconds spec))) | None => JNull end)].
Definition detail_view (now : Z) (d : JobDB) (job : Job) (role : string) : document :=
  let spec := jb_spec job in
  let participants := map (enriched now d job role) (js_participants spec) in
  let enrolling := existsb (fun p => can_enroll now job role p (approved_node d job p)) (js_participants spec) in
  [("spec", JObj (List.filter (fun kv => negb (String.eqb kv.1 "secret_refs")) (dict_or_empty (spec_dict spec))));
   ("allowed_actions", json_strings (_allowed now job role ++ if enrolling then ["enroll_participant"] else []));
   ("resources", JList (map component_resources (js_components spec)))]
  ++ _observations now d job participants.
Definition _job_view (now : Z) (d : JobDB) (job : Job) (role : string) (detail : bool) : document :=
  let base := base_view now job role in
  if is_some (jb_purged_at job) then merge_dicts base [("name", JStr "Purged job"); ("purged", JBool true)]
  else merge_dicts base (summary_view job ++ if detail then detail_view now d job role else []).
End Views.
