(* ===== verification/Commands.v ===== *)
(** * The commands of the job manager

    [hf2l_jobs.application.Manager] with [hf2l_jobs.authorization]: the
    creation of a job from an approved specification, and the commands of its
    members -- cancel, retry, reconcile, purge and memberships -- each one
    transaction under the member's role, an idempotency key and the expected
    version of the job.  A command never calls the runtime: it records an
    intent in the outbox. *)

From stdpp Require Import base gmap strings list sorting.
From Stdlib Require Import ZArith Lia Ascii.
From S2P Require Import Prelude Json Domain JobSpec JobModels Retention Recovery BlobBudget Scheduler Gang Controller Views.

(** ** [hf2l_jobs.authorization] *)
Definition JOB_ROLES : list string := ["reader"; "operator"; "admin"].
Definition role_level (role : string) : Z :=
  if String.eqb role "reader" then 1 else if String.eqb role "operator" then 2 else if String.eqb role "admin" then 3 else 0.
Definition job_principal (principal : string) : result string :=
  if String.eqb principal "" || (256 <? py_len principal) then Error 401 "invalid_principal" else Ok principal.
Definition require_job_role (member : option JobMember) (role : string) : result unit :=
  match member with
  | None => Error 404 "job_not_found"
  | Some m => if negb (mem_str (jm_role m) JOB_ROLES) then Error 404 "job_not_found"
              else raise_when (role_level (jm_role m) <? role_level role) 403 "job_role_required"
  end.
Definition require_submitter (role : option string) : result unit :=
  raise_when (match role with Some r => negb (mem_str r ["submitter"; "admin"]) | None => true end) 403 "project_submitter_required".
Definition validate_member_id (value : json) : result string :=
  match value with
  | JStr s => if String.eqb s "" || (256 <? py_len s) || negb (printable s) then Error 422 "invalid_member_principal" else Ok s
  | _ => Error 422 "invalid_member_principal"
  end.

Section Commands.
Context {P : Platform} {U : Unicode} {C : Calendar}.

(** ** Idempotency, versions, events and intents *)
Definition _key (value : json) : result string :=
  match value with
  | JStr s => if String.eqb s "" || (128 <? py_len s) || negb (printable s) then Error 422 "idempotency_key_required" else Ok s
  | _ => Error 422 "idempotency_key_required"
  end.
Definition _version (job : Job) (expected : json) : result unit :=
  match expected with
  | JInt n => if n <? 1 then Error 428 "expected_version_required" else raise_when (negb (n =? jb_version job)) 409 "job_version_conflict"
  | _ => Error 428 "expected_version_required"
  end.

Definition idempotency_row (scope actor key : string) : M JobWorld (option IdempotencyRecord) :=
  gets (fun w => job_idempotency (jw_db w) !! (scope, actor, key)).
Definition remember (scope actor key : string) (row : IdempotencyRecord) : M JobWorld unit :=
  modify (fun w => w <| jw_db ::= fun d => d <| job_idempotency ::= insert (scope, actor, key) row |> |>).
Definition _once (actor scope : string) (key body : json) (action : M JobWorld json) (replay : json -> M JobWorld json) : M JobWorld json :=
  let* key := lift (_key key) in
  let* text := lift (canonical_json body) in
  let* existing := idempotency_row scope actor key in
  match existing with
  | Some row =>
      raise_if (negb (String.eqb (ir_request_hash row) (sha256_hex text))) 409 "idempotency_conflict" ;;
      replay (ir_response_json row)
  | None =>
      let* response := action in
      let* taken := idempotency_row scope actor key in
      throw_if (match taken with Some _ => true | None => false end) IntegrityError ;;
      remember scope actor key (mkIdempotencyRecord (sha256_hex text) response) ;;
      ret response
  end.

Definition _emit (job_id kind actor : string) (data : document) : M JobWorld unit :=
  let* sequence := next_sequence job_id in
  let* id := new_id in
  let* now := utcnow in
  job_add JOB_EVENTS (fun e => String.eqb (le_job_id e) job_id && (le_sequence e =? sequence)) id
    (mkLifecycleEvent id job_id sequence kind (Some actor) None None data now).
Definition _outbox (job : Job) (kind actor : string) (payload : document) : M JobWorld unit :=
  let* operation_id := new_id in
  let* now := utcnow in
  job_add OUTBOX (fun o => String.eqb (ob_idempotency_key o) operation_id) operation_id
    (fresh_outbox operation_id (jb_id job) None (jb_current_attempt job) kind payload operation_id now) ;;
  _emit (jb_id job) "operation.requested" actor [("operation_id", JStr operation_id); ("operation", JStr kind)].
Definition _touch (job_id : string) : M JobWorld unit :=
  let* now := utcnow in job_set JOBS job_id (fun j => j <| jb_version ::= Z.succ |> <| jb_updated_at := now |>).

(** ** Members *)
Definition job_member (job_id actor : string) : M JobWorld (option JobMember) := gets (fun w => job_members (jw_db w) !! (job_id, actor)).
Definition set_member (job_id actor role : string) : M JobWorld unit :=
  modify (fun w => w <| jw_db ::= fun d => d <| job_members ::= insert (job_id, actor) (mkJobMember job_id actor role) |> |>).
Definition drop_member (job_id actor : string) : M JobWorld unit :=
  modify (fun w => w <| jw_db ::= fun d => d <| job_members ::= delete (job_id, actor) |> |>).
Definition _preserve_admin (job_id : string) : M JobWorld unit :=
  let* admins := gets (fun w => rows (fun m => String.eqb (jm_job_id m) job_id && String.eqb (jm_role m) "admin") (job_members (jw_db w))) in
  raise_if (Z.of_nat (List.length admins) <=? 1) 409 "last_job_admin_required".

(** [transaction]: the job and the membership the command acts under. *)
Definition authorized (principal job_id role : string) (body : Job -> JobMember -> M JobWorld json) : M JobWorld json :=
  let* actor := lift (job_principal principal) in
  job_transaction (
    let* job := job_get JOBS job_id in
    let* member := (match job with Some _ => job_member job_id actor | None => ret None end) in
    let* _ := lift (require_job_role member role) in
    match job, member with
    | Some job, Some member => body job member
    | _, _ => raise 404 "job_not_found"
    end).

(** The view a command answers with: the membership may have changed. *)
Definition answer (job_id : string) (member : JobMember) : M JobWorld json :=
  let* job := the_job job_id in
  let* current := job_member job_id (jm_principal_id member) in
  let* now := utcnow in
  let* d := gets jw_db in
  ret (JObj (_job_view now d job (match current with Some m => jm_role m | None => jm_role member end) true)).

(** [_command] *)
Definition execute_command (job_id : string) (member : JobMember) (expected : json) (kind : string)
    (action : Job -> string -> M JobWorld unit) (allow_purged : bool) : M JobWorld json :=
  let actor := jm_principal_id member in
  let* job := the_job job_id in
  let* _ := lift (_version job expected) in
  raise_if (is_some (jb_purged_at job) && negb allow_purged) 409 "job_purged" ;;
  action job actor ;;
  _touch job_id ;;
  _emit job_id kind actor [] ;;
  answer job_id member.
Definition _command (principal job_id role : string) (key expected : json) (kind : string) (data : document)
    (action : Job -> string -> M JobWorld unit) (allow_purged : bool) : M JobWorld json :=
  authorized principal job_id role (fun job member =>
    _once (jm_principal_id member) (kind +:+ ":" +:+ job_id) key (JObj (("expected_version", expected) :: data))
      (execute_command job_id member expected kind action allow_purged) ret).

(** ** Commands on a job *)
Definition cancel_action (job : Job) (actor : string) : M JobWorld unit :=
  raise_if (job_terminal (jb_state job)) 409 "job_already_terminal" ;;
  when (negb (job_in [CANCELLING] job))
    (job_set JOBS (jb_id job) (fun j => j <| jb_state := CANCELLING |> <| jb_phase := Some "fencing" |> <| jb_queue_reason := None |>) ;;
     _outbox job "fence_stop" actor [("desired_outcome", JStr "CANCELLED"); ("grace_seconds", JInt 60)]).
Definition cancel (principal job_id : string) (expected key : json) : M JobWorld json :=
  _command principal job_id "operator" key expected "job.cancel_requested" [] cancel_action false.

Definition retry_action (job : Job) (actor : string) : M JobWorld unit :=
  let* now := utcnow in
  raise_if (negb (job_in [JOB_FAILED] job)) 409 "job_retry_requires_failed" ;;
  raise_if (before_now now (jb_deadline_at job)) 409 "job_deadline_expired" ;;
  raise_if (String.eqb (jb_cleanup_status job) "purge_pending") 409 "job_purge_pending" ;;
  raise_if (mem_str (jb_cleanup_status job) ["expiry_pending"; "expired"] || before_now now (jb_artifacts_expire_at job)) 409 "job_artifacts_expired" ;;
  job_set JOBS (jb_id job) (fun j => j <| jb_state := RECONCILING |> <| jb_phase := Some "retry_pending" |> <| jb_queue_reason := None |>) ;;
  _outbox job "prepare_retry" actor [("next_attempt", JInt (jb_current_attempt job + 1))].
Definition retry (principal job_id : string) (expected key : json) : M JobWorld json :=
  _command principal job_id "operator" key expected "job.retry_requested" [] retry_action false.

Definition short_text (v : json) : bool := match v with JStr s => negb (String.eqb s "") && (py_len s <=? 256) | _ => false end.
Definition check_evidence (evidence : json) : result document :=
  match evidence with
  | JObj d =>
      if negb (forallb (fun k => mem_str k ["publication_id"; "outcome"; "evidence_ref"]) (keys d)
               && has_key "publication_id" d && has_key "outcome" d && has_key "evidence_ref" d) then Error 422 "reconciliation_evidence_required"
      else
        let? known := member_of (get_or_none d "outcome") ["published"; "not_published"] in
        if negb known || negb (short_text (get_or_none d "publication_id")) || negb (short_text (get_or_none d "evidence_ref"))
        then Error 422 "reconciliation_evidence_required" else Ok d
  | _ => Error 422 "reconciliation_evidence_required"
  end.
Definition reconcile_action (evidence : document) (job : Job) (actor : string) : M JobWorld unit :=
  raise_if (negb (job_in [NEEDS_ATTENTION] job)) 409 "job_reconcile_requires_attention" ;;
  job_set JOBS (jb_id job) (fun j => j <| jb_state := RECONCILING |> <| jb_phase := Some "verifying_evidence" |>) ;;
  _outbox job "reconcile" actor [("evidence", JObj evidence)] ;;
  _emit (jb_id job) "reconciliation.evidence_submitted" actor evidence.
Definition reconcile (principal job_id : string) (expected key evidence : json) : M JobWorld json :=
  let* evidence := lift (check_evidence evidence) in
  _command principal job_id "operator" key expected "job.reconcile_requested" [("evidence", JObj evidence)] (reconcile_action evidence) false.

Definition ACTIVE_ATTEMPT_STATES : list string := ["PROVISIONING"; "STARTING"; "RUNNING"; "RECONCILING"; "CANCELLING"].
Definition purge_action (job : Job) (actor : string) : M JobWorld unit :=
  raise_if (negb (job_terminal (jb_state job))) 409 "job_purge_requires_terminal" ;;
  let* active := job_select ALLOCATIONS (fun a => String.eqb (al_job_id a) (jb_id job) && negb (is_some (al_released_at a))) in
  let* running := job_select JOB_ATTEMPTS (fun a => String.eqb (ja_job_id a) (jb_id job) && mem_str (ja_state a) ACTIVE_ATTEMPT_STATES) in
  raise_if (match active, running with [], [] => false | _, _ => true end) 409 "job_runtime_not_confirmed_stopped" ;;
  when (negb (String.eqb (jb_cleanup_status job) "purge_pending"))
    (job_set JOBS (jb_id job) (fun j => j <| jb_cleanup_status := "purge_pending" |>) ;;
     _outbox job "purge" actor [("preserve_audit", JBool true); ("confirm_before_release", JBool true)]).
Definition purge (principal job_id : string) (expected key : json) : M JobWorld json :=
  _command principal job_id "admin" key expected "job.purge_requested" [] purge_action false.

Definition put_member_action (member_id role : string) (job : Job) (actor : string) : M JobWorld unit :=
  let* member := job_member (jb_id job) member_id in
  when (match member with Some m => String.eqb (jm_role m) "admin" && negb (String.eqb role "admin") | None => false end) (_preserve_admin (jb_id job)) ;;
  set_member (jb_id job) member_id role ;;
  _emit (jb_id job) "membership.granted" actor [("principal_id", JStr member_id); ("role", JStr role)].
Definition put_member (principal job_id : string) (member_id role expected key : json) : M JobWorld json :=
  let* member_id := lift (validate_member_id member_id) in
  let* known := lift (member_of role JOB_ROLES) in
  match role, known with
  | JStr role, true =>
      _command principal job_id "admin" key expected "job.membership_updated" [("principal_id", JStr member_id); ("role", JStr role)]
        (put_member_action member_id role) true
  | _, _ => raise 422 "invalid_job_role"
  end.

Definition delete_member_action (member_id : string) (job : Job) (actor : string) : M JobWorld unit :=
  let* member := job_member (jb_id job) member_id in
  match member with
  | Some m =>
      when (String.eqb (jm_role m) "admin") (_preserve_admin (jb_id job)) ;;
      drop_member (jb_id job) member_id ;;
      _emit (jb_id job) "membership.revoked" actor [("principal_id", JStr member_id)]
  | None => ret tt
  end.
Definition delete_member (principal job_id : string) (member_id expected key : json) : M JobWorld json :=
  let* member_id := lift (validate_member_id member_id) in
  _command principal job_id "admin" key expected "job.membership_deleted" [("principal_id", JStr member_id)] (delete_member_action member_id) true.
End Commands.
