(* ===== verification/Submission.v ===== *)
(** * Submission of a job

    [Manager.create_job] of [hf2l_jobs.application]: the approvals a
    specification needs, the rejection of storage that could never be reserved,
    and the rows of the queued job.  The planner of a job's storage is a
    parameter: [None] stands for its [ResourceError]. *)

From stdpp Require Import base gmap strings list sorting.
From Stdlib Require Import ZArith Lia Ascii.
From S2P Require Import Prelude Json Domain JobSpec JobModels Retention Recovery BlobBudget Scheduler Gang Controller Views Commands.

(** ** [_approve_spec] *)
Definition in_project (owner : option string) (project_id : string) : bool :=
  match owner with None => true | Some p => String.eqb p project_id end.
Definition source_approved (d : JobDB) (spec : JobSpec) : result unit :=
  match sources d !! js_source_id spec with
  | Some s =>
      let? _ := raise_when (negb (sc_enabled s) || negb (String.eqb (sc_status s) "approved") || negb (in_project (sc_project_id s) (js_project_id spec)))
                  422 "source_not_approved" in
      raise_when (match sc_allowed_commits s with [] => false | l => negb (mem_str (js_source_commit spec) l) end) 422 "source_commit_not_approved"
  | None => Error 422 "source_not_approved"
  end.
Definition image_of (d : JobDB) (spec : JobSpec) : option RuntimeImage :=
  match images d !! js_runtime_image spec with
  | Some i => Some i
  | None => head (rows (fun i => String.eqb (im_digest i) (js_runtime_image spec) && im_enabled i && in_project (im_project_id i) (js_project_id spec)) (images d))
  end.
Definition image_approved (d : JobDB) (spec : JobSpec) : result string :=
  match image_of d spec with
  | Some i =>
      let? _ := raise_when (negb (im_enabled i) || negb (im_approved i) || negb (String.eqb (im_status i) "approved")
                            || negb (in_project (im_project_id i) (js_project_id spec))) 422 "runtime_image_not_approved" in
      let? _ := raise_when (negb (image_digest (im_digest i))) 422 "invalid_runtime_image_digest" in
      Ok (im_digest i)
  | None => Error 422 "runtime_image_not_approved"
  end.
Definition nonempty_text (o : option string) : bool := match o with Some s => negb (String.eqb s "") | None => false end.
Definition binding_approved (d : JobDB) (spec : JobSpec) (p : ParticipantSpec) : result unit :=
  raise_when (match bindings d !! ps_dataset_binding p with
              | Some b => negb (bd_enabled b) || negb (String.eqb (bd_project_id b) (js_project_id spec))
                          || negb (String.eqb (bd_participant_id b) (ps_participant_id p))
                          || bool_decide (ps_mode p = EXTERNAL) && negb (nonempty_text (bd_node_id b))
              | None => true
              end) 422 "participant_binding_not_approved".
Definition secret_approved (d : JobDB) (spec : JobSpec) (reference : string * string) : result unit :=
  raise_when (match secrets d !! reference.2 with
              | Some s => negb (se_enabled s) || negb (String.eqb (se_project_id s) (js_project_id spec))
              | None => true
              end) 422 "secret_reference_not_approved".
Definition _approve_spec (d : JobDB) (spec : JobSpec) : result string :=
  let? _ := source_approved d spec in
  let? digest := image_approved d spec in
  let? _ := each (binding_approved d spec) (js_participants spec) in
  let? _ := each (secret_approved d spec) (js_secret_refs spec) in
  let? _ := validate_admission d spec in
  Ok digest.

(** ** [_validate_storage_admission] *)
Section Submission.
Context {P : Platform} {U : Unicode} {C : Calendar}.
Context (storage_planner : option (Job -> option (list json))).

Definition storage_differs {A} : result A := Err (ValueError "Trusted storage plan differs from its immutable job").
Definition coverage_differs {A} : result A := Err (ValueError "Trusted storage coverage differs from its execution allocation").
Definition external_ids (spec : JobSpec) : list string :=
  map (fun p => external_component (ps_participant_id p)) (List.filter (fun p => bool_decide (ps_mode p = EXTERNAL)) (js_participants spec)).

Record Entry := mkEntry { en_kind : string; en_external_id : string; en_component_id : json; en_pool_id : string; en_max_bytes : Z; en_covered : json }.

(** The log budget of a participant that runs elsewhere. *)
Definition external_log (job : Job) (kvs : document) : result bool :=
  if negb (py_eqb (get_or_none kvs "kind") (JStr "log_budget")) then Ok false
  else
    let? known := member_of (get_or_none kvs "component_id") (external_ids (jb_spec job)) in
    Ok (known && py_eqb (get_or_none kvs "max_bytes") (JInt (1024 * 1024))
        && match get_or_none kvs "component_id" with
           | JStr c => py_eqb (get_or_none kvs "external_id") (JStr ("hf2l-log://" +:+ jb_id job +:+ "/" +:+ str_of_int (jb_current_attempt job) +:+ "/" +:+ c))
           | _ => false
           end).
Definition check_entry (job : Job) (planned : json) : result Entry :=
  match planned with
  | JObj kvs =>
      match get_or_none kvs "kind" with
      | JStr kind =>
          if negb ((1 <=? py_len kind) && (py_len kind <=? 64)) || negb (str_isalnum (join "" (split_on "_"%char kind))) then storage_differs
          else
            let? known := member_of (get_or_none kvs "component_id") (map cs_component_id (js_components (jb_spec job))) in
            let? allowed := (if known then Ok true else external_log job kvs) in
            if negb allowed then storage_differs
            else match get_or_none kvs "pool_id", get_or_none kvs "external_id", get_or_none kvs "max_bytes" with
                 | JStr pool_id, JStr external_id, JInt max_bytes =>
                     if negb (in_bytes max_bytes) then storage_differs
                     else Ok (mkEntry kind external_id (get_or_none kvs "component_id") pool_id max_bytes (get_or kvs "covered_by_allocation" (JBool false)))
                 | _, _, _ => storage_differs
                 end
      | _ => storage_differs
      end
  | _ => storage_differs
  end.
(** An execution state is covered by the disk of its own component. *)
Definition check_coverage (spec : JobSpec) (e : Entry) : result unit :=
  if negb (py_eqb (en_covered e) (JBool true) && is_bool (en_covered e)) || negb (String.eqb (en_kind e) "execution_state") then coverage_differs
  else match en_component_id e with
       | JStr c =>
           match find_component spec (Some c) with
           | Some c => if negb (String.eqb (en_pool_id e) (rq_pool_id (cs_resources c))) || negb (en_max_bytes e =? rq_disk_bytes (cs_resources c))
                       then coverage_differs else Ok tt
           | None => coverage_differs
           end
       | _ => coverage_differs
       end.

(** The loop over the entries: identities seen, request per pool, bytes. *)
Fixpoint admit_entries (job : Job) (seen : list (string * string)) (request : gmap string Amounts) (extra : Z) (plans : list json)
    : result (gmap string Amounts * Z) :=
  match plans with
  | [] => Ok (request, extra)
  | planned :: rest =>
      let? e := check_entry job planned in
      let identity := (en_kind e, en_external_id e) in
      if bool_decide (identity ∈ seen) then Err (ValueError "Trusted storage planner counted an owned copy twice")
      else if truthy (en_covered e) then
        let? _ := check_coverage (jb_spec job) e in
        admit_entries job (identity :: seen) (charge request (en_pool_id e) no_amounts) (extra + en_max_bytes e) rest
      else admit_entries job (identity :: seen) (charge request (en_pool_id e) (disk_only (en_max_bytes e))) (extra + en_max_bytes e) rest
  end.

Definition pool_disk (d : JobDB) (entry : string * Amounts) : result unit :=
  match pools d !! entry.1 with
  | None => Error 422 "resource_pool_not_found"
  | Some pool => raise_when (po_disk_bytes pool <? am_disk entry.2) 422 "resource_request_exceeds_pool"
  end.
Definition _validate_storage_admission (d : JobDB) (job : Job) : result unit :=
  match storage_planner with
  | None => Ok tt
  | Some plan =>
      match plan job with
      | None => Error 422 "storage_plan_unavailable"
      | Some planned =>
          if 10000 <? Z.of_nat (List.length planned) then Err (ValueError "Trusted storage planner returned an invalid bounded plan")
          else if existsb (fun c => mem_str c (map cs_component_id (js_components (jb_spec job)))) (external_ids (jb_spec job))
          then Err (ValueError "Trusted external component identity collides with its job")
          else
            let? admitted := admit_entries job [] (requested_by_pool (jb_spec job)) 0 planned in
            let? _ := each (pool_disk d) (map_to_list admitted.1) in
            match projects d !! js_project_id (jb_spec job) with
            | None => Err AttributeError
            | Some project =>
                let q := quota project in
                raise_when (match q !! "disk_bytes" with Some l => l <? am_disk (totals_of admitted.1) | None => false end
                            || match q !! "retained_bytes" with Some l => l <? admitted.2 | None => false end)
                  422 "resource_request_exceeds_project_quota"
            end
      end
  end.

(** ** [create_job] *)
Definition minimum_participants (spec : JobSpec) : result unit :=
  match get_or (js_options spec) "minimum_participants" (JInt 2) with
  | JInt n => raise_when (negb ((2 <=? n) && (n <=? Z.of_nat (List.length (js_participants spec))))) 422 "invalid_job_spec"
  | _ => Error 422 "invalid_job_spec"
  end.
Definition queued_job (id : string) (spec : JobSpec) (hash : string) (now : Z) : Job :=
  mkJob id (js_project_id spec) spec hash QUEUED (Some "waiting_resources") (Some [("code", JStr "awaiting_scheduler")]) 1 1 1 0 0 0
    (js_target_round spec) "none" None None None None now now None None None.
Definition first_attempt (id job_id : string) : Attempt :=
  mkJobAttempt id job_id 1 1 "QUEUED" None None None None false false "none" None [] [].
Definition create_action (actor : string) (spec : JobSpec) : M JobWorld json :=
  let* _ := lift (minimum_participants spec) in
  let* d := gets jw_db in
  let* image := lift (_approve_spec d spec) in
  let* pinned := lift (validate_spec (mkJobSpec (js_project_id spec) (js_name spec) (js_source_id spec) (js_source_commit spec) image (js_plugin spec)
    (js_options spec) (js_secret_refs spec) (js_participants spec) (js_components spec) (js_target_round spec) (js_max_duration_seconds spec))) in
  let* hash := lift (digest pinned) in
  let* now := utcnow in
  let* id := new_id in
  let job := queued_job id pinned hash now in
  let* _ := lift (_validate_storage_admission d job) in
  job_add JOBS (fun _ => false) id job ;;
  set_member id actor "admin" ;;
  let* attempt_id := new_id in
  job_add JOB_ATTEMPTS (fun a => String.eqb (ja_job_id a) id && ((ja_number a =? 1) || (ja_epoch a =? 1))) attempt_id (first_attempt attempt_id id) ;;
  _emit id "job.created" actor [("spec_hash", JStr hash)] ;;
  answer id (mkJobMember id actor "admin").
Definition create_replay (actor : string) (response : json) : M JobWorld json :=
  match response with
  | JObj kvs =>
      match get_or_none kvs "id" with
      | JStr id =>
          let* job := job_get JOBS id in
          let* member := (match job with Some _ => job_member id actor | None => ret None end) in
          let* _ := lift (require_job_role member "reader") in
          answer id (default (mkJobMember id actor "") member)
      | _ => throw KeyError
      end
  | _ => throw TypeError
  end.
Definition create_job (principal : string) (spec : JobSpec) (idempotency_key : json) : M JobWorld json :=
  let* actor := lift (job_principal principal) in
  let* _ := lift (_key idempotency_key) in
  let* spec := lift (match validate_spec spec with
                     | Err (ValueError _) => Error 422 "invalid_job_spec"
                     | r => r
                     end) in
  job_transaction (
    let* project := job_get PROJECTS (js_project_id spec) in
    let* role := (match project with Some _ => gets (fun w => project_members (jw_db w) !! (js_project_id spec, actor)) | None => ret None end) in
    let* _ := lift (require_submitter role) in
    _once actor "job.create" idempotency_key (spec_dict spec) (create_action actor spec) (create_replay actor)).
End Submission.
