(* ===== verification/JobMachine.v ===== *)
(** * The abstract lifecycle of managed jobs

    What the manager promises about its jobs, without its tables: a job has a
    state, an epoch and a current attempt; an attempt is over once it is known
    to be revoked, terminated and settled; a reservation is held until its
    termination is confirmed, and so are the devices given to it.  [move] is
    one step; the theorems are invariants of its runs. *)

From stdpp Require Import base gmap strings list fin_maps relations.
From Stdlib Require Import ZArith Lia.
From S2P Require Import Prelude JobSpec.

Record JobFace := mkJobFace { jf_state : JobState; jf_epoch : Z; jf_attempt : Z }.
Record AttemptFace := mkAttemptFace { af_job : string; af_number : Z; af_epoch : Z; af_over : bool }.
Record HoldFace := mkHoldFace { hf_job : string; hf_attempt : string; hf_epoch : Z; hf_stopped : bool; hf_held : bool }.
Record DeviceFace := mkDeviceFace { df_hold : string; df_uuid : string; df_held : bool }.
Record Machine := mkMachine {
  m_jobs : gmap string JobFace;
  m_attempts : gmap string AttemptFace;
  m_holds : gmap string HoldFace;
  m_devices : gmap string DeviceFace;
}.

(** ** The graph of job states, without admission and retry *)
Definition active (s : JobState) : bool := match s with QUEUED | PROVISIONING | STARTING | RUNNING => true | _ => false end.
Definition edge (s s' : JobState) : bool :=
  match s with
  | QUEUED | PROVISIONING | STARTING | RUNNING => negb (bool_decide (s' = QUEUED))
  | RECONCILING => bool_decide (s' ∈ [NEEDS_ATTENTION; CANCELLING]) || job_terminal s'
  | NEEDS_ATTENTION => bool_decide (s' ∈ [RECONCILING; CANCELLING]) || job_terminal s'
  | CANCELLING => bool_decide (s' ∈ [NEEDS_ATTENTION; JOB_FAILED; JOB_CANCELLED])
  | JOB_FAILED => bool_decide (s' = RECONCILING)
  | SUCCEEDED | JOB_CANCELLED => false
  end.

(** ** Moves *)
Definition set_state (s : JobState) (j : JobFace) : JobFace := mkJobFace s (jf_epoch j) (jf_attempt j).
Definition admitted (j : JobFace) : JobFace := mkJobFace PROVISIONING (jf_epoch j + 1) (jf_attempt j).
Definition requeued (j : JobFace) : JobFace := mkJobFace QUEUED (jf_epoch j) (jf_attempt j + 1).
Definition closed (b : AttemptFace) : AttemptFace := mkAttemptFace (af_job b) (af_number b) (af_epoch b) true.
Definition restarted (epoch : Z) (b : AttemptFace) : AttemptFace := mkAttemptFace (af_job b) (af_number b) epoch false.
Definition stopped (h : HoldFace) : HoldFace := mkHoldFace (hf_job h) (hf_attempt h) (hf_epoch h) true (hf_held h).
Definition given_up (h : HoldFace) : HoldFace := mkHoldFace (hf_job h) (hf_attempt h) (hf_epoch h) (hf_stopped h) false.
Definition returned (r : string) (v : DeviceFace) : DeviceFace :=
  if String.eqb (df_hold v) r then mkDeviceFace (df_hold v) (df_uuid v) false else v.

(** No attempt of the job has this number or this epoch. *)
Definition unused (M : Machine) (k : string) (number epoch : Z) : Prop :=
  forall x b, m_attempts M !! x = Some b -> af_job b = k -> af_number b <> number /\ af_epoch b <> epoch.

Inductive move (M : Machine) : Machine -> Prop :=
  | submit k x : m_jobs M !! k = None -> m_attempts M !! x = None -> unused M k 1 1 ->
      move M (mkMachine (<[k := mkJobFace QUEUED 0 1]> (m_jobs M)) (<[x := mkAttemptFace k 1 1 false]> (m_attempts M)) (m_holds M) (m_devices M))
  | advance k j s : m_jobs M !! k = Some j -> edge (jf_state j) s = true ->
      move M (mkMachine (<[k := set_state s j]> (m_jobs M)) (m_attempts M) (m_holds M) (m_devices M))
  | admit_job k j x b : m_jobs M !! k = Some j -> jf_state j = QUEUED ->
      m_attempts M !! x = Some b -> af_job b = k -> af_number b = jf_attempt j ->
      (forall y c, m_attempts M !! y = Some c -> af_job c = k -> af_epoch c = jf_epoch j + 1 -> y = x) ->
      (forall r h, m_holds M !! r = Some h -> hf_held h = true -> hf_job h <> k) ->
      move M (mkMachine (<[k := admitted j]> (m_jobs M)) (<[x := restarted (jf_epoch j + 1) b]> (m_attempts M)) (m_holds M) (m_devices M))
  | close x b : m_attempts M !! x = Some b ->
      move M (mkMachine (m_jobs M) (<[x := closed b]> (m_attempts M)) (m_holds M) (m_devices M))
  | retry_job k j x b y : m_jobs M !! k = Some j -> jf_state j = RECONCILING ->
      m_attempts M !! x = Some b -> af_job b = k -> af_number b = jf_attempt j -> af_over b = true ->
      m_attempts M !! y = None -> unused M k (jf_attempt j + 1) (jf_epoch j + 1) ->
      move M (mkMachine (<[k := requeued j]> (m_jobs M))
        (<[y := mkAttemptFace k (jf_attempt j + 1) (jf_epoch j + 1) false]> (m_attempts M)) (m_holds M) (m_devices M))
  | reserve_hold r j h : m_holds M !! r = None -> hf_held h = true -> hf_stopped h = false ->
      m_jobs M !! hf_job h = Some j -> hf_epoch h = jf_epoch j ->
      move M (mkMachine (m_jobs M) (m_attempts M) (<[r := h]> (m_holds M)) (m_devices M))
  | assign_device g v h : m_devices M !! g = None -> df_held v = true -> m_holds M !! df_hold v = Some h -> hf_held h = true ->
      (forall i u, m_devices M !! i = Some u -> df_held u = true -> df_uuid u <> df_uuid v) ->
      move M (mkMachine (m_jobs M) (m_attempts M) (m_holds M) (<[g := v]> (m_devices M)))
  | stop_hold r h : m_holds M !! r = Some h ->
      move M (mkMachine (m_jobs M) (m_attempts M) (<[r := stopped h]> (m_holds M)) (m_devices M))
  | free_hold r h : m_holds M !! r = Some h -> hf_stopped h = true ->
      move M (mkMachine (m_jobs M) (m_attempts M) (<[r := given_up h]> (m_holds M)) (returned r <$> m_devices M)).

Definition run : Machine -> Machine -> Prop := rtc move.
#[export] Instance run_preorder : PreOrder run.
Proof. apply rtc_po. Qed.

(** ** Invariants *)

(** Attempts are numbered up to the current one of their job, each number once,
    and all but the current one are over. *)
Definition attempts_lawful (jobs : gmap string JobFace) (attempts : gmap string AttemptFace) : Prop :=
  (forall x b, attempts !! x = Some b -> exists j, jobs !! af_job b = Some j /\ 1 <= af_number b <= jf_attempt j) /\
  (forall x y b c, attempts !! x = Some b -> attempts !! y = Some c -> af_job b = af_job c -> af_number b = af_number c -> x = y) /\
  (forall x b j, attempts !! x = Some b -> jobs !! af_job b = Some j -> af_number b < jf_attempt j -> af_over b = true).

(** What is reserved is reserved for the current epoch of its job; what is given
    up was stopped. *)
Definition holds_lawful (jobs : gmap string JobFace) (holds : gmap string HoldFace) : Prop :=
  (forall r h, holds !! r = Some h -> exists j, jobs !! hf_job h = Some j /\ hf_epoch h <= jf_epoch j /\ (hf_held h = true -> hf_epoch h = jf_epoch j)) /\
  (forall r h, holds !! r = Some h -> hf_held h = false -> hf_stopped h = true).

(** A device in use belongs to a reservation that is held, and to one only. *)
Definition devices_lawful (holds : gmap string HoldFace) (devices : gmap string DeviceFace) : Prop :=
  (forall g v, devices !! g = Some v -> df_held v = true -> exists h, holds !! df_hold v = Some h /\ hf_held h = true) /\
  (forall g i u v, devices !! g = Some u -> devices !! i = Some v -> df_held u = true -> df_held v = true -> df_uuid u = df_uuid v -> g = i).

Record lawful (M : Machine) : Prop := {
  lw_attempts : attempts_lawful (m_jobs M) (m_attempts M);
  lw_holds : holds_lawful (m_jobs M) (m_holds M);
  lw_devices : devices_lawful (m_holds M) (m_devices M);
}.

(** A job that keeps its current attempt. *)
Lemma attempts_job jobs attempts k j j' : attempts_lawful jobs attempts -> jobs !! k = Some j -> jf_attempt j' = jf_attempt j ->
  attempts_lawful (<[k := j']> jobs) attempts.
Proof.
  intros (H1 & H2 & H3) Hk E. split_and!; [|done|].
  - intros x b Hx. destruct (H1 x b Hx) as (i & Hi & Hn). destruct (decide (k = af_job b)) as [->|Hne].
    + exists j'. rewrite lookup_insert_eq. split; [done|]. rewrite E. by simplify_eq.
    + exists i. by rewrite lookup_insert_ne.
  - intros x b i Hx Hi Hn. destruct (decide (k = af_job b)) as [->|Hne]; [|rewrite lookup_insert_ne in Hi by done; by eapply H3].
    rewrite lookup_insert_eq in Hi. injection Hi as <-. eapply H3; [done..|lia].
Qed.

(** An attempt that keeps its job and number. *)
Lemma attempts_row jobs attempts x b b' : attempts_lawful jobs attempts -> attempts !! x = Some b -> af_job b' = af_job b -> af_number b' = af_number b ->
  (forall j, jobs !! af_job b = Some j -> af_number b < jf_attempt j -> af_over b' = true) -> attempts_lawful jobs (<[x := b']> attempts).
Proof.
  intros (H1 & H2 & H3) Hx Ej En Ho.
  assert (Hold : forall y c, <[x := b']> attempts !! y = Some c -> exists c0, attempts !! y = Some c0 /\ af_job c = af_job c0 /\ af_number c = af_number c0).
  { intros y c Hy. apply lookup_insert_Some in Hy as [[<- <-]|[_ Hy]]; [by exists b|by exists c]. }
  split_and!.
  - intros y c Hy. destruct (Hold y c Hy) as (c0 & Hc & -> & ->). by eapply H1.
  - intros y z c e Hy Hz E1 E2. destruct (Hold y c Hy) as (c0 & Hc & F1 & F2), (Hold z e Hz) as (e0 & He & G1 & G2). eapply H2; [done..|congruence|congruence].
  - intros y c j Hy Hj Hn. apply lookup_insert_Some in Hy as [[<- <-]|[_ Hy]]; [|by eapply H3]. rewrite Ej in Hj. rewrite En in Hn. by eapply Ho.
Qed.

(** A new attempt of a job, numbered after all others. *)
Lemma attempts_new jobs attempts k j j' x b : attempts_lawful jobs attempts -> jobs !! k = Some j -> attempts !! x = None ->
  af_job b = k -> af_number b = jf_attempt j + 1 -> jf_attempt j' = jf_attempt j + 1 -> 0 <= jf_attempt j ->
  (forall y c, attempts !! y = Some c -> af_job c = k -> af_over c = true \/ af_number c < jf_attempt j) ->
  attempts_lawful (<[k := j']> jobs) (<[x := b]> attempts).
Proof.
  intros (H1 & H2 & H3) Hk Hx Ej En Ej' Hz Ho. split_and!.
  - intros y c Hy. apply lookup_insert_Some in Hy as [[<- <-]|[_ Hy]]; [exists j'; rewrite Ej, lookup_insert_eq; split; [done|lia]|].
    destruct (H1 y c Hy) as (i & Hi & Hn). destruct (decide (k = af_job c)) as [->|Hne]; [|exists i; by rewrite lookup_insert_ne].
    exists j'. rewrite lookup_insert_eq. simplify_eq. split; [done|lia].
  - assert (Hlt : forall y c, attempts !! y = Some c -> af_job c = k -> af_number c <= jf_attempt j).
    { intros y c Hy E. destruct (H1 y c Hy) as (i & Hi & Hn). rewrite E, Hk in Hi. injection Hi as <-. lia. }
    intros y z c e Hy Hz' E1 E2. apply lookup_insert_Some in Hy as [[<- <-]|[Ny Hy]], Hz' as [[<- <-]|[Nz Hz']]; [done| | |by eapply H2].
    + assert (af_number e <= jf_attempt j) by (eapply Hlt; [done|congruence]). lia.
    + assert (af_number c <= jf_attempt j) by (eapply Hlt; [done|congruence]). lia.
  - intros y c i Hy Hi Hn. apply lookup_insert_Some in Hy as [[<- <-]|[_ Hy]].
    + rewrite Ej, lookup_insert_eq in Hi. injection Hi as <-. lia.
    + destruct (decide (k = af_job c)) as [->|Hne]; [|rewrite lookup_insert_ne in Hi by done; by eapply H3].
      destruct (Ho y c Hy eq_refl) as [?|?]; [done|by eapply H3].
Qed.

(** The epoch of a job that holds nothing may change; any other keeps it. *)
Lemma holds_job jobs holds k j' : holds_lawful jobs holds ->
  (forall j, jobs !! k = Some j -> jf_epoch j <= jf_epoch j' /\ (jf_epoch j' = jf_epoch j \/ forall r h, holds !! r = Some h -> hf_held h = true -> hf_job h <> k)) ->
  holds_lawful (<[k := j']> jobs) holds.
Proof.
  intros [H1 H2] Hk. split; [|done]. intros r h Hr. destruct (H1 r h Hr) as (j & Hj & Hle & Hh).
  destruct (decide (k = hf_job h)) as [->|Hne]; [|exists j; by rewrite lookup_insert_ne]. destruct (Hk j Hj) as [Hm He].
  exists j'. rewrite lookup_insert_eq. split_and!; [done|lia|]. intros Hd. destruct He as [->|He]; [by apply Hh|by destruct (He r h Hr Hd)].
Qed.

(** A reservation that keeps its job and epoch. *)
Lemma holds_row jobs holds r h h' : holds_lawful jobs holds -> holds !! r = Some h -> hf_job h' = hf_job h -> hf_epoch h' = hf_epoch h ->
  (hf_held h' = true -> hf_held h = true) -> (hf_held h' = false -> hf_stopped h' = true) -> holds_lawful jobs (<[r := h']> holds).
Proof.
  intros [H1 H2] Hr Ej Ee Hd Hs. split.
  - intros i x Hi. apply lookup_insert_Some in Hi as [[<- <-]|[_ Hi]]; [|by apply H1 in Hi]. rewrite Ej, Ee. destruct (H1 r h Hr) as (j & ? & ? & Hh).
    exists j. split_and!; [done..|]. auto.
  - intros i x Hi. apply lookup_insert_Some in Hi as [[<- <-]|[_ Hi]]; [done|by eapply H2].
Qed.

(** Devices of a reservation that stays held. *)
Lemma devices_row holds devices r h h' : devices_lawful holds devices -> holds !! r = Some h -> hf_held h' = hf_held h -> devices_lawful (<[r := h']> holds) devices.
Proof.
  intros [H1 H2] Hr E. split; [|done]. intros g v Hg Hv. destruct (H1 g v Hg Hv) as (x & Hx & Hh). destruct (decide (r = df_hold v)) as [->|Hne].
  - exists h'. rewrite lookup_insert_eq. simplify_eq. by rewrite E.
  - exists x. by rewrite lookup_insert_ne.
Qed.
Lemma devices_new holds devices r h' : devices_lawful holds devices -> holds !! r = None -> devices_lawful (<[r := h']> holds) devices.
Proof.
  intros [H1 H2] Hr. split; [|done]. intros g v Hg Hv. destruct (H1 g v Hg Hv) as (x & Hx & Hh). exists x.
  by rewrite lookup_insert_ne by (intros ->; congruence).
Qed.
Lemma returned_held r v : df_held (returned r v) = true -> returned r v = v /\ df_hold v <> r.
Proof. unfold returned. destruct (String.eqb_spec (df_hold v) r); [done|]. by intros _. Qed.
Lemma devices_returned holds devices r h' : devices_lawful holds devices -> devices_lawful (<[r := h']> holds) (returned r <$> devices).
Proof.
  intros [H1 H2]. split.
  - intros g v Hg Hv. apply lookup_fmap_Some in Hg as (u & <- & Hg). apply returned_held in Hv as Hu. destruct Hu as [E Hne]. rewrite E in *.
    destruct (H1 g u Hg Hv) as (x & Hx & Hh). exists x. by rewrite lookup_insert_ne.
  - intros g i u v Hg Hi Hu Hv E. apply lookup_fmap_Some in Hg as (a & <- & Hg), Hi as (b & <- & Hi).
    apply returned_held in Hu as Ha, Hv as Hb. destruct Ha as [Ea _], Hb as [Eb _]. rewrite Ea, Eb in *. by eapply H2.
Qed.

Lemma move_lawful M M' : move M M' -> lawful M -> lawful M'.
Proof.
  intros Hm [HA HH HD]. destruct Hm as [k x Hk Hx Hu|k j s Hk He|k j x b Hk Hs Hx Ej En Hun Hno|x b Hx|k j x b y Hk Hs Hx Ej En Ho Hy Hu|r j h Hr Hh Hs Hj Ee|g v h Hg Hv Hh Hd Hun|r h Hr|r h Hr Hs];
    split; cbn; try done.
  - (* submit *) destruct HA as (H1 & H2 & H3).
    assert (Hno : forall y c, m_attempts M !! y = Some c -> af_job c <> k) by (intros y c Hy E; destruct (H1 y c Hy) as (? & ? & _); congruence).
    split_and!.
    + intros y c Hy. apply lookup_insert_Some in Hy as [[<- <-]|[_ Hy]]; [eexists; cbn; rewrite lookup_insert_eq; cbn; split; [done|cbn; lia]|].
      destruct (H1 y c Hy) as (j & Hj & Hn). exists j. rewrite lookup_insert_ne; [done|]. by eapply not_eq_sym, Hno.
    + intros y z b c Hy Hz. apply lookup_insert_Some in Hy as [[<- <-]|[_ Hy]], Hz as [[<- <-]|[_ Hz]]; cbn; [done| | |by apply H2];
        intros E _; [symmetry in E|]; by destruct (Hno _ _ ltac:(done) E).
    + intros y c j Hy Hj. apply lookup_insert_Some in Hy as [[<- <-]|[_ Hy]]; cbn in *; [rewrite lookup_insert_eq in Hj; injection Hj as <-; cbn; lia|].
      rewrite lookup_insert_ne in Hj by (by eapply not_eq_sym, Hno). by eapply H3.
  - apply holds_job; [done|]. congruence.
  - by eapply attempts_job.
  - apply holds_job; [done|]. intros i Hi. simplify_eq. cbn. split; [lia|by left].
  - eapply (attempts_row _ _ x b); [by eapply attempts_job|done..|]. cbn. intros i Hi Hn. exfalso. subst k. rewrite lookup_insert_eq in Hi. injection Hi as <-. cbn in Hn. lia.
  - apply holds_job; [done|]. intros i Hi. simplify_eq. cbn. split; [lia|by right].
  - by eapply attempts_row.
  - pose proof HA as (A1 & A2 & A3). destruct (A1 x b Hx) as (i & Hi & Hn). rewrite Ej, Hk in Hi. injection Hi as <-.
    eapply attempts_new; [done|done|done|done|done|done|lia|]. intros z c Hz E. destruct (decide (af_number c = jf_attempt j)) as [Ec|].
    + left. assert (z = x) as -> by (eapply A2; [done|done|congruence|congruence]). congruence.
    + right. destruct (A1 z c Hz) as (i' & Hi' & ?). rewrite E in Hi'. simplify_eq. lia.
  - apply holds_job; [done|]. intros i Hi. simplify_eq. cbn. split; [lia|by left].
  - destruct HH as [H1 H2]. split; intros i x Hi; apply lookup_insert_Some in Hi as [[<- <-]|[_ Hi]]; [|by apply H1 in Hi|congruence|by eapply H2].
    exists j. split_and!; [done|lia|done].
  - by apply devices_new.
  - destruct HD as [H1 H2]. split.
    + intros i u Hi Hu. apply lookup_insert_Some in Hi as [[<- <-]|[_ Hi]]; [by exists h|by eapply H1].
    + intros i z u w Hi Hz Hu Hw E. apply lookup_insert_Some in Hi as [[<- <-]|[_ Hi]], Hz as [[<- <-]|[_ Hz]]; [done| | |by eapply H2];
        [by destruct (Hun z w Hz Hw)|by destruct (Hun i u Hi Hu)].
  - by eapply holds_row.
  - by eapply devices_row.
  - by eapply holds_row.
  - by apply devices_returned.
Qed.

Lemma run_lawful M M' : run M M' -> lawful M -> lawful M'.
Proof. induction 1 as [|M M1 M' Hm _ IH]; [done|]. intros H. by eapply IH, move_lawful. Qed.

(** ** What a run keeps *)
Definition final (s : JobState) : bool := match s with SUCCEEDED | JOB_CANCELLED => true | _ => false end.
Definition kept {V} (R : V -> V -> Prop) (m m' : gmap string V) : Prop := forall k v, m !! k = Some v -> exists v', m' !! k = Some v' /\ R v v'.
Definition job_later (j j' : JobFace) : Prop := jf_epoch j <= jf_epoch j' /\ jf_attempt j <= jf_attempt j' /\ (final (jf_state j) = true -> j' = j).
Definition hold_later (h h' : HoldFace) : Prop := hf_job h' = hf_job h /\ hf_attempt h' = hf_attempt h /\ hf_epoch h' = hf_epoch h /\
  (hf_held h = false -> hf_held h' = false) /\ (hf_stopped h = true -> hf_stopped h' = true).
Definition device_later (v v' : DeviceFace) : Prop := df_hold v' = df_hold v /\ df_uuid v' = df_uuid v /\ (df_held v = false -> df_held v' = false).
Record later (M M' : Machine) : Prop := {
  lt_jobs : kept job_later (m_jobs M) (m_jobs M');
  lt_holds : kept hold_later (m_holds M) (m_holds M');
  lt_devices : kept device_later (m_devices M) (m_devices M');
}.

Lemma kept_refl {V} (R : V -> V -> Prop) m : Reflexive R -> kept R m m.
Proof. intros HR k v Hk. by exists v. Qed.
Lemma kept_trans {V} (R : V -> V -> Prop) m1 m2 m3 : Transitive R -> kept R m1 m2 -> kept R m2 m3 -> kept R m1 m3.
Proof. intros HR H1 H2 k v Hk. destruct (H1 k v Hk) as (u & Hu & ?), (H2 k u Hu) as (x & Hx & ?). exists x. split; [done|]. by etransitivity. Qed.
Lemma kept_insert {V} (R : V -> V -> Prop) m k v' : Reflexive R -> (forall v, m !! k = Some v -> R v v') -> kept R m (<[k := v']> m).
Proof.
  intros HR H j v Hj. destruct (decide (k = j)) as [->|Hne]; [exists v'; rewrite lookup_insert_eq; auto|]. exists v. by rewrite lookup_insert_ne.
Qed.
Lemma kept_fmap {V} (R : V -> V -> Prop) m f : (forall v, R v (f v)) -> kept R m (f <$> m).
Proof. intros HR j v Hj. exists (f v). by rewrite lookup_fmap, Hj. Qed.
#[export] Instance job_later_po : PreOrder job_later.
Proof.
  split; [intros j; split_and!; [lia|lia|done]|]. intros x y z (A1 & A2 & A3) (B1 & B2 & B3). split_and!; [lia|lia|].
  intros Hf. pose proof (A3 Hf) as ->. by apply B3.
Qed.
#[export] Instance hold_later_po : PreOrder hold_later.
Proof. split; [done|]. intros x y z (A1 & A2 & A3 & A4 & A5) (B1 & B2 & B3 & B4 & B5). split_and!; [congruence..|auto|auto]. Qed.
#[export] Instance device_later_po : PreOrder device_later.
Proof. split; [done|]. intros x y z (A1 & A2 & A3) (B1 & B2 & B3). split_and!; [congruence..|auto]. Qed.
#[export] Instance later_po : PreOrder later.
Proof.
  split; [intros M; split; apply kept_refl; apply _|]. intros M1 M2 M3 [A1 A2 A3] [B1 B2 B3].
  split; (eapply kept_trans; [apply _|done|done]).
Qed.

Lemma edge_final s s' : edge s s' = true -> final s = false.
Proof. by destruct s. Qed.
Lemma move_later M M' : move M M' -> later M M'.
Proof.
  intros Hm. destruct Hm as [k x Hk Hx Hu|k j s Hk He|k j x b Hk Hs Hx Ej En Hun Hno|x b Hx|k j x b y Hk Hs Hx Ej En Ho Hy Hu|r j h Hr Hh Hs Hj Ee|g v h Hg Hv Hh Hd Hun|r h Hr|r h Hr Hs];
    split; cbn; try (apply kept_refl; apply _); try (apply kept_insert; [apply _|]; congruence).
  - apply kept_insert; [apply _|]. intros i Hi. simplify_eq. apply edge_final in He. split_and!; cbn; [lia|lia|congruence].
  - apply kept_insert; [apply _|]. intros i Hi. simplify_eq. split_and!; cbn; [lia|lia|by rewrite Hs].
  - apply kept_insert; [apply _|]. intros i Hi. simplify_eq. split_and!; cbn; [lia|lia|by rewrite Hs].
  - apply kept_insert; [apply _|]. intros i Hi. simplify_eq. by split_and!.
  - apply kept_insert; [apply _|]. intros i Hi. simplify_eq. by split_and!.
  - apply kept_fmap. intros v. unfold returned. destruct (String.eqb _ _); by split_and!.
Qed.
Lemma run_later M M' : run M M' -> later M M'.
Proof. induction 1 as [|M M1 M' Hm _ IH]; [done|]. etransitivity; [by apply move_later|done]. Qed.
