(* ===== verification/SchedulerLogic.v ===== *)
(** * Reasoning about manager transactions

    [leaves R m]: a successful run of [m] relates the databases before and after
    by the preorder [R]; a projection that a command does not touch is kept by
    [same].  Sums over tables, as the ledgers of a pass compute them. *)

From stdpp Require Import base gmap strings list fin_maps.
From Stdlib Require Import ZArith Lia.
From S2P Require Import Prelude Json Order Domain Placement JobSpec JobModels Retention BlobBudget Scheduler Gang.

(** ** What a command leaves *)
Definition leaves (R : JobDB -> JobDB -> Prop) {A} (m : M JobWorld A) : Prop :=
  forall w a w', m w = (Ok a, w') -> R (jw_db w) (jw_db w').
Definition same {T} (f : JobDB -> T) (d d' : JobDB) : Prop := f d' = f d.
#[export] Instance same_preorder {T} (f : JobDB -> T) : PreOrder (same f).
Proof. split; [done|]. unfold same. intros x y z H1 H2. congruence. Qed.

Section Keeps.
Context (R : JobDB -> JobDB -> Prop) `{!PreOrder R}.

Lemma leaves_pure {A} (m : M JobWorld A) : (forall w, (m w).2 = w) -> leaves R m.
Proof. intros H w a w' E. specialize (H w). rewrite E in H. cbn in H. by subst. Qed.
Lemma leaves_bind {A B} (m : M JobWorld A) (f : A -> M JobWorld B) : leaves R m -> (forall a, leaves R (f a)) -> leaves R (bind m f).
Proof. intros Hm Hf w b w' H. apply bind_ok in H as (a & w1 & H1 & H2). etransitivity; [by eapply Hm|by eapply Hf]. Qed.
Lemma leaves_if {A} (c : bool) (m1 m2 : M JobWorld A) : leaves R m1 -> leaves R m2 -> leaves R (if c then m1 else m2).
Proof. by destruct c. Qed.
Lemma leaves_when c (m : M JobWorld unit) : leaves R m -> leaves R (when c m).
Proof. destruct c; [done|]. intros _. by apply leaves_pure. Qed.
Lemma leaves_for_each {A} (l : list A) f : (forall a, leaves R (f a)) -> leaves R (for_each l f).
Proof. intros Hf. induction l as [|a l IH]; cbn; [by apply leaves_pure|]. by apply leaves_bind. Qed.
Lemma leaves_foldM {A B} (f : B -> A -> M JobWorld B) l b : (forall b a, leaves R (f b a)) -> leaves R (foldM f b l).
Proof. intros Hf. revert b. induction l as [|a l IH]; intros b; cbn; [by apply leaves_pure|]. apply leaves_bind; [done|]. intros b'. apply IH. Qed.
Lemma leaves_mapM {A B} (f : A -> M JobWorld B) l : (forall a, leaves R (f a)) -> leaves R (mapM f l).
Proof. intros Hf. induction l as [|a l IH]; cbn; [by apply leaves_pure|]. apply leaves_bind; [done|]. intros b. apply leaves_bind; [done|]. intros bs. by apply leaves_pure. Qed.
Lemma leaves_update {V} (T : Tab JobDB string V) f : (forall d, R d (t_upd T f d)) -> leaves R (job_update T f).
Proof. intros H w a w' [= <- <-]. apply H. Qed.
Lemma leaves_ret {A} (a : A) : leaves R (ret a).
Proof. by apply leaves_pure. Qed.
Lemma leaves_lift {A} (r : result A) : leaves R (lift r).
Proof. by apply leaves_pure. Qed.
Lemma leaves_throw {A} e : leaves R (@throw JobWorld A e).
Proof. by apply leaves_pure. Qed.
Lemma leaves_gets {A} (f : JobWorld -> A) : leaves R (gets f).
Proof. by apply leaves_pure. Qed.
Lemma leaves_raise_if c st code : leaves R (raise_if c st code).
Proof. apply leaves_pure. by destruct c. Qed.
Lemma leaves_throw_if c e : leaves R (throw_if c e).
Proof. apply leaves_pure. by destruct c. Qed.
Lemma leaves_row_or {A} (o : option A) e : leaves R (row_or o e).
Proof. apply leaves_pure. by destruct o. Qed.
Lemma leaves_transaction {A} (m : M JobWorld A) : leaves R m -> leaves R (job_transaction m).
Proof. intros Hm w a w' H. unfold job_transaction in H. destruct (m w) as [[x|e] w1] eqn:E; [|done]. injection H as <- <-. by eapply Hm. Qed.
End Keeps.

Lemma leaves_new_id {P : Platform} R `{!PreOrder R} : leaves R new_id.
Proof. intros w a w' [= <- <-]. by cbn. Qed.
Lemma leaves_utcnow R `{!PreOrder R} : leaves R utcnow.
Proof. by apply leaves_gets. Qed.
Lemma leaves_job_get {V} R `{!PreOrder R} (T : Tab JobDB string V) k : leaves R (job_get T k).
Proof. by apply leaves_gets. Qed.
Lemma leaves_job_select {V} R `{!PreOrder R} (T : Tab JobDB string V) p : leaves R (job_select T p).
Proof. by apply leaves_gets. Qed.
Lemma leaves_job_add {V} R `{!PreOrder R} (T : Tab JobDB string V) clash k row :
  (forall d, R d (t_upd T (insert k row) d)) -> leaves R (job_add T clash k row).
Proof.
  intros H. unfold job_add. apply leaves_bind; [apply _|by apply leaves_job_get|]. intros ?. apply leaves_bind; [apply _|by apply leaves_job_select|].
  intros ?. apply leaves_bind; [apply _|by apply leaves_throw_if|]. intros ?. by apply leaves_update.
Qed.

(** Go through a command, statement by statement. *)
Ltac leave_step :=
  lazymatch goal with
  | |- leaves _ (bind _ _) => apply leaves_bind; [apply _| |intros ?]
  | |- leaves _ (ret _) => apply leaves_ret; apply _
  | |- leaves _ (lift _) => apply leaves_lift; apply _
  | |- leaves _ (throw _) => apply leaves_throw; apply _
  | |- leaves _ (raise _ _) => apply leaves_lift; apply _
  | |- leaves _ (gets _) => apply leaves_gets; apply _
  | |- leaves _ (raise_if _ _ _) => apply leaves_raise_if; apply _
  | |- leaves _ (throw_if _ _) => apply leaves_throw_if; apply _
  | |- leaves _ (row_or _ _) => apply leaves_row_or; apply _
  | |- leaves _ (when _ _) => apply leaves_when; [apply _|]
  | |- leaves _ (for_each _ _) => apply leaves_for_each; [apply _|intros ?]
  | |- leaves _ (foldM _ _ _) => apply leaves_foldM; [apply _|intros ? ?]
  | |- leaves _ (mapM _ _) => apply leaves_mapM; [apply _|intros ?]
  | |- leaves _ new_id => apply leaves_new_id; apply _
  | |- leaves _ utcnow => apply leaves_utcnow; apply _
  | |- leaves _ (job_get _ _) => apply leaves_job_get; apply _
  | |- leaves _ (job_select _ _) => apply leaves_job_select; apply _
  | |- leaves _ (job_update _ _) => apply leaves_update; intros ?
  | |- leaves _ (job_set _ _ _) => apply leaves_update; intros ?
  | |- leaves _ (job_add _ _ _ _) => apply leaves_job_add; [apply _|intros ?]
  | |- leaves _ (if ?c then _ else _) => first [apply leaves_if|destruct c]
  | |- leaves _ (match ?x with _ => _ end) => destruct x
  | |- leaves _ (let '_ := ?x in _) => destruct x
  | |- same _ _ _ => done
  | |- leaves _ (fun w => (_, w)) => apply leaves_pure; [apply _|done]
  end.
Ltac leave := repeat (leave_step; cbv beta); try eauto with leaves.
Create HintDb leaves.

(** ** Sums *)
Lemma foldr_sum_map {K V} `{Countable K} (f : V -> Z) (m : gmap K V) : sum_map f m = foldr (fun v n => f v + n) 0 (map_to_list m).*2.
Proof.
  unfold sum_map. rewrite map_fold_foldr. induction (map_to_list m) as [|[k v] l IH]; [done|]. cbn. by rewrite IH.
Qed.

Lemma sum_rows {K V} `{Countable K} (p : V -> bool) (f : V -> Z) (m : gmap K V) :
  foldr (fun v n => f v + n) 0 (rows p m) = sum_map (fun v => if p v then f v else 0) m.
Proof.
  rewrite foldr_sum_map. unfold rows. induction (map_to_list m).*2 as [|v l IH]; [done|]. rewrite filter_cons. cbn [foldr].
  destruct (p v) eqn:E; case_decide; try congruence; cbn [foldr]; by rewrite IH.
Qed.

(** What a key of a ledger gains when the items of a list are charged. *)
Lemma amounts_at_charge m p a q : amounts_at (charge m p a) q = if String.eqb p q then plus (amounts_at m p) a else amounts_at m q.
Proof.
  unfold charge. destruct (String.eqb p q) eqn:E.
  - apply String.eqb_eq in E as ->. unfold amounts_at at 1. by rewrite lookup_insert_eq.
  - apply String.eqb_neq in E. unfold amounts_at. by rewrite lookup_insert_ne.
Qed.
Lemma amount_charge k m p a q : amount k (amounts_at (charge m p a) q) = amount k (amounts_at m q) + if String.eqb p q then amount k a else 0.
Proof. rewrite amounts_at_charge. destruct (String.eqb p q) eqn:E; [|lia]. apply String.eqb_eq in E as ->. apply amount_plus. Qed.

Lemma amount_fold_charge {A} k (key : A -> string) (f : A -> Amounts) l m q :
  amount k (amounts_at (fold_left (fun m x => charge m (key x) (f x)) l m) q) =
  amount k (amounts_at m q) + foldr (fun x n => (if String.eqb (key x) q then amount k (f x) else 0) + n) 0 l.
Proof. revert m. induction l as [|x l IH]; intros m; cbn; [lia|]. rewrite IH, amount_charge. lia. Qed.

(** Rows stored under a column have distinct values of it. *)
Lemma rows_keys_NoDup {V} (key : V -> string) p (m : gmap string V) : (forall k v, m !! k = Some v -> key v = k) -> NoDup (map key (rows p m)).
Proof.
  intros Hm. unfold rows. assert (G : forall l : list (string * V), NoDup l.*1 -> (forall kv, kv ∈ l -> key kv.2 = kv.1) ->
    NoDup (map key (filter (fun v => p v = true) l.*2))).
  { induction l as [|[k x] l IH]; [constructor|]. rewrite !fmap_cons, NoDup_cons. cbn [fst snd]. intros [Hn Hd] Hl.
    rewrite filter_cons. case_decide; [|by apply IH; [|intros kv ?; apply Hl; right]].
    cbn. rewrite NoDup_cons. split; [|apply IH; [done|]; intros kv ?; apply Hl; by right].
    assert (Ek : key x = k) by (apply (Hl (k, x)); left). rewrite Ek. contradict Hn.
    apply list_elem_of_fmap in Hn as (y & -> & Hy). apply list_elem_of_filter in Hy as [_ Hy]. apply list_elem_of_fmap in Hy as ([k' y'] & -> & Hy).
    apply list_elem_of_fmap. exists (k', y'). split; [|done]. cbn. apply (Hl (k', y')). by right. }
  apply G; [apply NoDup_fst_map_to_list|]. intros [k x] Hx. apply elem_of_map_to_list in Hx. by apply Hm.
Qed.

(** An update that keeps a column. *)
Lemma fmap_alter_same {A B} (c : A -> B) f k (m : gmap string A) : (forall x, c (f x) = c x) -> c <$> alter f k m = c <$> m.
Proof.
  intros Hf. apply map_eq. intros j. rewrite !lookup_fmap. destruct (decide (k = j)) as [->|]; [rewrite lookup_alter_eq|by rewrite lookup_alter_ne].
  destruct (m !! j); cbn; [by rewrite Hf|done].
Qed.
