(* ===== verification/SchedulerTheory.v ===== *)
(** * The ledgers of a pass, and what an admission may take

    The scheduler decides on ledgers it keeps in memory while it writes rows.
    Here the ledgers are related to sums over the rows after every statement,
    and with them the capacity of pools, the quotas of projects and the number
    of running jobs are carried through a pass. *)

From stdpp Require Import base gmap strings list fin_maps fin_sets.
From Stdlib Require Import ZArith Lia.
From S2P Require Import Prelude Json Order Domain Placement JobSpec JobModels Retention BlobBudget Scheduler Gang SchedulerLogic.

(** ** Usage, as sums over the rows *)
Definition live_on (p : string) (k : Dim) (a : Allocation) : Z :=
  if allocation_live (al_state a) && String.eqb (al_pool_id a) p then amount k (allocation_amounts a) else 0.
Definition usage (d : JobDB) (p : string) (k : Dim) : Z := sum_map (live_on p k) (allocations d).

Definition job_project (d : JobDB) (job_id : string) : option string := jb_project_id <$> jobs d !! job_id.
Definition live_of_project (d : JobDB) (project_id : string) (a : Allocation) : bool :=
  allocation_live (al_state a) && bool_decide (job_project d (al_job_id a) = Some project_id).
Definition project_usage (d : JobDB) (project_id : string) (k : Dim) : Z :=
  sum_map (fun a => if live_of_project d project_id a then amount k (allocation_amounts a) else 0) (allocations d).
(** The jobs of a project with a live allocation. *)
Definition running_set (d : JobDB) (project_id : string) : gset string :=
  list_to_set (map al_job_id (rows (live_of_project d project_id) (allocations d))).
Definition running (d : JobDB) (project_id : string) : Z := Z.of_nat (size (running_set d project_id)).

Definition capacity (d : JobDB) (p : string) (k : Dim) : Z :=
  match pools d !! p with Some pool => amount k (pool_capacity pool) | None => 0 end.
Definition quota_of (d : JobDB) (project_id : string) : gmap string Z :=
  match projects d !! project_id with Some p => quota p | None => ∅ end.

(** ** What no statement of a pass changes *)
Definition identity (x : Job) := (jb_id x, jb_spec x).
Record stable (d d' : JobDB) : Prop := {
  st_pools : pools d' = pools d;
  st_jobs : forall j, job_project d' j = job_project d j;
  st_ids : forall j, identity <$> jobs d' !! j = identity <$> jobs d !! j;
  st_quota : forall p, quota_of d' p = quota_of d p;
}.
#[export] Instance stable_preorder : PreOrder stable.
Proof. split; [by split|]. intros x y z [H1 H2 H3 H4] [G1 G2 G3 G4]. split; [congruence|..]; intros ?; [by rewrite G2|by rewrite G3|by rewrite G4]. Qed.

Lemma job_project_alter d (f : Job -> Job) k j : (forall x, jb_project_id (f x) = jb_project_id x) ->
  job_project (d <| jobs ::= alter f k |>) j = job_project d j.
Proof.
  intros Hf. unfold job_project. cbn. destruct (decide (k = j)) as [->|Hne].
  - rewrite lookup_alter_eq. destruct (jobs d !! j); cbn; [by rewrite Hf|done].
  - by rewrite lookup_alter_ne.
Qed.
Lemma stable_jobs d f k : (forall x, jb_project_id (f x) = jb_project_id x /\ identity (f x) = identity x) -> stable d (t_upd JOBS (alter f k) d).
Proof.
  intros Hf. split; [done| | |done]; intros j; [by apply job_project_alter; apply Hf|]. cbn. destruct (decide (k = j)) as [->|Hne].
  - rewrite lookup_alter_eq. destruct (jobs d !! j) as [x|]; [cbn; f_equal; apply (Hf x)|done].
  - by rewrite lookup_alter_ne.
Qed.
Lemma stable_projects d f k : (forall x, quota (f x) = quota x) -> stable d (t_upd PROJECTS (alter f k) d).
Proof.
  intros Hf. split; [done..|]. intros p. unfold quota_of. cbn. destruct (decide (k = p)) as [->|Hne].
  - rewrite lookup_alter_eq. destruct (projects d !! p) as [x|]; [exact (Hf x)|done].
  - by rewrite lookup_alter_ne.
Qed.

Ltac stable_tables := first [by apply stable_jobs; intros []|by apply stable_projects; intros []|by split|by apply stable_jobs; intros []; repeat case_match].

Section Leaves.
Context {P : Platform} {U : Unicode}.

Lemma leaves_set_reason id code now details : leaves stable (set_reason id code now details).
Proof. unfold set_reason. leave. apply stable_jobs. intros x. by repeat case_match. Qed.
Lemma leaves_outbox job topic payload a : leaves stable (add_outbox job topic payload a).
Proof. unfold add_outbox. leave; stable_tables. Qed.
Lemma leaves_event job kind payload now : leaves stable (job_event job kind payload now).
Proof. unfold job_event, add_event, next_sequence. leave; stable_tables. Qed.
Lemma leaves_the_job id : leaves stable (the_job id).
Proof. unfold the_job. leave. Qed.
Lemma leaves_reserve_project id n : leaves stable (reserve_project_bytes id n).
Proof. unfold reserve_project_bytes. leave; stable_tables. Qed.
Lemma leaves_reserve_pool r pool n : leaves stable (reserve_pool_bytes r pool n).
Proof. unfold reserve_pool_bytes. leave. Qed.
#[local] Hint Resolve leaves_set_reason leaves_outbox leaves_event leaves_the_job leaves_reserve_project leaves_reserve_pool : leaves.
Lemma leaves_reserve id pid n pool : leaves stable (reserve_in_transaction id pid n pool).
Proof. unfold reserve_in_transaction. leave; stable_tables. Qed.
Lemma leaves_plan_entry job spec now acc planned : leaves stable (plan_entry job spec now acc planned).
Proof. unfold plan_entry. leave. Qed.
#[local] Hint Resolve leaves_reserve leaves_plan_entry : leaves.
Lemma leaves_plan_storage job spec now acc plans : leaves stable (plan_storage job spec now acc plans).
Proof. revert acc. induction plans as [|p plans IH]; intros acc; cbn [plan_storage]; leave. Qed.
Lemma leaves_any_protected request blocked : leaves stable (any_protected request blocked).
Proof. induction blocked as [|b bs IH]; cbn [any_protected]; unfold protected; leave. Qed.
Lemma leaves_take_attempt job : leaves stable (take_attempt job).
Proof. unfold take_attempt. leave; stable_tables. Qed.
Lemma leaves_allocate job a now acc c : leaves stable (allocate job a now acc c).
Proof. unfold allocate. leave; stable_tables. Qed.
Lemma leaves_reserve_storage job a acc e : leaves stable (reserve_storage job a acc e).
Proof. unfold reserve_storage. leave; stable_tables. Qed.
Lemma leaves_bind_link a id : leaves stable (bind_link a id).
Proof. unfold bind_link. leave; stable_tables. Qed.
Lemma leaves_link job links pass a : leaves stable (link_allocation job links pass a).
Proof. unfold link_allocation. leave; stable_tables. Qed.
Lemma leaves_count request now b : leaves stable (count_backfill request now b).
Proof. unfold count_backfill. leave; stable_tables. Qed.
#[local] Hint Resolve leaves_plan_storage leaves_any_protected leaves_take_attempt leaves_allocate leaves_reserve_storage
  leaves_bind_link leaves_link leaves_count : leaves.
Lemma leaves_admit job spec now plan assignment pass : leaves stable (admit_gang job spec now plan assignment pass).
Proof. unfold admit_gang. leave. apply stable_jobs. by intros []. Qed.
#[local] Hint Resolve leaves_admit : leaves.
Lemma leaves_schedule_job storage now limit active pass id : leaves stable (schedule_job storage now limit active pass id).
Proof. unfold schedule_job, schedule_ready, place_job. leave; stable_tables. Qed.
End Leaves.

(** ** The statements that hold nothing: allocations and devices stay *)
Definition holdings (d : JobDB) := (allocations d, gpu_allocations d).

Section Holdings.
Context {P : Platform} {U : Unicode}.
Lemma holds_set_reason id code now details : leaves (same holdings) (set_reason id code now details).
Proof. unfold set_reason. leave. Qed.
Lemma holds_outbox job topic payload a : leaves (same holdings) (add_outbox job topic payload a).
Proof. unfold add_outbox. leave. Qed.
Lemma holds_event job kind payload now : leaves (same holdings) (job_event job kind payload now).
Proof. unfold job_event, add_event, next_sequence. leave. Qed.
Lemma holds_the_job id : leaves (same holdings) (the_job id).
Proof. unfold the_job. leave. Qed.
Lemma holds_reserve_project id n : leaves (same holdings) (reserve_project_bytes id n).
Proof. unfold reserve_project_bytes. leave. Qed.
Lemma holds_reserve_pool r pool n : leaves (same holdings) (reserve_pool_bytes r pool n).
Proof. unfold reserve_pool_bytes. leave. Qed.
#[local] Hint Resolve holds_set_reason holds_outbox holds_event holds_the_job holds_reserve_project holds_reserve_pool : leaves.
Lemma holds_reserve id pid n pool : leaves (same holdings) (reserve_in_transaction id pid n pool).
Proof. unfold reserve_in_transaction. leave. Qed.
Lemma holds_plan_entry job spec now acc planned : leaves (same holdings) (plan_entry job spec now acc planned).
Proof. unfold plan_entry. leave. Qed.
#[local] Hint Resolve holds_reserve holds_plan_entry : leaves.
Lemma holds_plan_storage job spec now acc plans : leaves (same holdings) (plan_storage job spec now acc plans).
Proof. revert acc. induction plans as [|p plans IH]; intros acc; cbn [plan_storage]; leave. Qed.
Lemma holds_any_protected request blocked : leaves (same holdings) (any_protected request blocked).
Proof. induction blocked as [|b bs IH]; cbn [any_protected]; unfold protected; leave. Qed.
Lemma holds_take_attempt job : leaves (same holdings) (take_attempt job).
Proof. unfold take_attempt. leave. Qed.
Lemma holds_reserve_storage job a acc e : leaves (same holdings) (reserve_storage job a acc e).
Proof. unfold reserve_storage. leave. Qed.
Lemma holds_bind_link a id : leaves (same holdings) (bind_link a id).
Proof. unfold bind_link. leave. Qed.
Lemma holds_count request now b : leaves (same holdings) (count_backfill request now b).
Proof. unfold count_backfill. leave. Qed.
End Holdings.

(** ** The ledgers agree with the rows *)

(** The dimensions a ledger counts by allocations; disk also counts what is
    retained. *)
Record ledger (d : JobDB) (pass : Pass) : Prop := {
  lg_used : forall p k, k <> DISK -> amount k (amounts_at (pa_used pass) p) = usage d p k;
  lg_project : forall pj k, k <> DISK -> amount k (amounts_at (pa_project_used pass) pj) = project_usage d pj k;
  lg_running : forall j pj, pa_allocation_projects pass !! j = Some pj <-> job_project d j = Some pj /\ j ∈ running_set d pj;
}.

Lemma elem_of_running d pj j : j ∈ running_set d pj <-> exists k a, allocations d !! k = Some a /\ live_of_project d pj a = true /\ al_job_id a = j.
Proof.
  unfold running_set. rewrite elem_of_list_to_set, list_elem_of_fmap. split.
  - intros (a & -> & Ha). apply elem_of_rows in Ha as [Hp (k & Hk)]. by exists k, a.
  - intros (k & a & Hk & Hp & <-). exists a. split; [done|]. apply elem_of_rows. eauto.
Qed.

(** The columns a ledger reads: what a change of other columns keeps. *)
Definition holds (a : Allocation) := (al_job_id a, al_pool_id a, allocation_amounts a, al_state a).
Definition same_holds (d d' : JobDB) : Prop :=
  (holds <$> allocations d') = (holds <$> allocations d) /\ forall j, job_project d' j = job_project d j.

Lemma holds_sum (f : Allocation -> Z) (g : string * string * Amounts * AllocationState -> Z) d : (forall a, f a = g (holds a)) ->
  sum_map f (allocations d) = sum_map g (holds <$> allocations d).
Proof.
  intros Hfg. rewrite !foldr_sum_map, map_to_list_fmap. generalize (map_to_list (allocations d)). intros l.
  induction l as [|[k a] l IH]; [done|]. cbn. by rewrite IH, Hfg.
Qed.

Lemma usage_same d d' p k : same_holds d d' -> usage d' p k = usage d p k.
Proof.
  intros [H _]. unfold usage. pose (g := fun h : string * string * Amounts * AllocationState =>
    if allocation_live h.2 && String.eqb h.1.1.2 p then amount k h.1.2 else 0).
  rewrite !(holds_sum _ g) by done. by rewrite H.
Qed.
Lemma project_usage_same d d' pj k : same_holds d d' -> project_usage d' pj k = project_usage d pj k.
Proof.
  intros [H Hj]. unfold project_usage. pose (g := fun h : string * string * Amounts * AllocationState =>
    if allocation_live h.2 && bool_decide (job_project d h.1.1.1 = Some pj) then amount k h.1.2 else 0).
  rewrite (holds_sum _ g d') by (intros a; unfold live_of_project; by rewrite Hj).
  rewrite (holds_sum _ g d) by done. by rewrite H.
Qed.
Lemma running_same d d' pj : same_holds d d' -> running_set d' pj = running_set d pj.
Proof.
  enough (G : forall d d', same_holds d d' -> running_set d pj ⊆ running_set d' pj).
  { intros H. apply set_eq. intros j. split; apply G; [destruct H as [H1 H2]; split; [done|intros ?; by rewrite H2]|done]. }
  clear d d'. intros d d' [H Hj] j. rewrite !elem_of_running. intros (k & a & Hk & Hl & E).
  assert (Hk' : (holds <$> allocations d') !! k = Some (holds a)) by (rewrite H, lookup_fmap, Hk; done).
  rewrite lookup_fmap in Hk'. destruct (allocations d' !! k) as [a'|] eqn:Ea; [|done]. cbn in Hk'. injection Hk' as E1 E2 E3 E4 E5 E6 E7.
  exists k, a'. split_and!; [done| |congruence]. unfold live_of_project in *. by rewrite Hj, E1, E7.
Qed.
Lemma ledger_same d d' pass : same_holds d d' -> ledger d pass -> ledger d' pass.
Proof.
  intros H [H1 H2 H3]. split.
  - intros p k Hk. by rewrite (usage_same d d' p k H), H1.
  - intros pj k Hk. by rewrite (project_usage_same d d' pj k H), H2.
  - intros j pj. rewrite (running_same d d' pj H), (proj2 H). apply H3.
Qed.

Lemma same_holdings_holds d d' : same holdings d d' -> stable d d' -> same_holds d d'.
Proof. intros [= H _] [_ Hj _]. split; [by rewrite H|done]. Qed.

(** ** One reservation *)

(** The rows written for the devices of an allocation. *)
Inductive adds_gpus (allocation_id pool_id : string) : list string -> gmap string GpuAllocation -> gmap string GpuAllocation -> Prop :=
  | adds_nil g : adds_gpus allocation_id pool_id [] g g
  | adds_cons u us g g' gid : g !! gid = None ->
      (forall k x, g !! k = Some x -> ga_gpu_uuid x = u -> is_some (ga_released_at x) = true) ->
      adds_gpus allocation_id pool_id us (<[gid := mkGpuAllocation gid allocation_id pool_id u None]> g) g' ->
      adds_gpus allocation_id pool_id (u :: us) g g'.

Lemma job_add_ok {V} (T : Tab JobDB string V) clash k row w u w' : job_add T clash k row w = (Ok u, w') ->
  t_get T (jw_db w) !! k = None /\ (forall j x, t_get T (jw_db w) !! j = Some x -> clash x = false) /\ w' = w <| jw_db ::= t_upd T (insert k row) |>.
Proof.
  unfold job_add, job_get, job_select, job_update. intros H. inv_ok. destruct (t_get T (jw_db w) !! k) eqn:E; [done|].
  destruct (rows clash _) eqn:Er; [|done]. split_and!; [done|by apply rows_nil|done].
Qed.

Definition allocated_pass (job : Job) (r : ResourceRequest) (gpus : list string) (pass : Pass) : Pass :=
  pass <| pa_used := charge (pa_used pass) (rq_pool_id r) (request_amounts r) |>
       <| pa_project_used := charge (pa_project_used pass) (jb_project_id job) (request_amounts r) |>
       <| pa_gpu_used := list_to_set gpus ∪ pa_gpu_used pass |>
       <| pa_allocation_projects := <[jb_id job := jb_project_id job]> (pa_allocation_projects pass) |>.

Section Allocate.
Context {P : Platform}.

Lemma allocate_ok job att now pass asg created c w pass' asg' created' w' :
  allocate job att now (pass, asg, created) c w = (Ok (pass', asg', created'), w') ->
  let r := cs_resources c in let gpus := (take_gpus asg r).1 in
  exists id pool, let a := new_allocation job att pool now c id in
    allocations (jw_db w) !! id = None /\ allocations (jw_db w') = <[id := a]> (allocations (jw_db w)) /\ created' = created ++ [a] /\
    pass' = allocated_pass job r gpus pass /\ asg' = (take_gpus asg r).2 /\
    adds_gpus id (rq_pool_id r) gpus (gpu_allocations (jw_db w)) (gpu_allocations (jw_db w')).
Proof.
  unfold allocate. cbv beta iota zeta. intros H. set (r := cs_resources c).
  apply bind_ok in H as (p & w1 & H1 & H). injection H1 as <- <-.
  apply bind_ok in H as (pool & w1 & H1 & H). destruct (pools (jw_db w) !! rq_pool_id (cs_resources c)) as [pool0|] eqn:Ep; [|done]. injection H1 as -> <-.
  apply bind_ok in H as (id & w1 & H1 & H). injection H1 as <- <-.
  apply bind_ok in H as (u & w1 & H1 & H). apply job_add_ok in H1 as (Hnone & _ & ->). cbn in Hnone.
  destruct (take_gpus asg (cs_resources c)) as [gpus asg1] eqn:Eg. subst r. rewrite Eg. cbn [fst snd].
  apply bind_ok in H as (u' & w2 & Hg & H). injection H as <- <- <- <-. destruct u'.
  exists (uuid4_hex (jw_ids w)), pool. cbn. match type of Hg with for_each _ _ ?s = _ => set (w0 := s) in Hg end.
  assert (G : forall l s, for_each l (fun gpu => let* gid := new_id in
      job_add GPU_ALLOCATIONS (fun x => String.eqb (ga_gpu_uuid x) gpu && negb (is_some (ga_released_at x))) gid
        (mkGpuAllocation gid (uuid4_hex (jw_ids w)) (rq_pool_id (cs_resources c)) gpu None)) s = (Ok tt, w2) ->
      allocations (jw_db w2) = allocations (jw_db s) /\
      adds_gpus (uuid4_hex (jw_ids w)) (rq_pool_id (cs_resources c)) l (gpu_allocations (jw_db s)) (gpu_allocations (jw_db w2))).
  { induction l as [|gpu l IH]; intros s Hs; cbn in Hs; [injection Hs as <-; split; [done|constructor]|].
    apply bind_ok in Hs as ([] & s1 & Hs1 & Hs). apply bind_ok in Hs1 as (gid & s2 & Hid & Hs1). injection Hid as <- <-.
    apply job_add_ok in Hs1 as (Hn & Hcl & ->). destruct (IH _ Hs) as [Ea Hadd]. split; [by rewrite Ea|].
    apply (adds_cons _ _ _ _ _ _ (uuid4_hex (jw_ids s))); [done| |done]. intros k x Hk <-. specialize (Hcl k x Hk). cbn in Hcl.
    rewrite String.eqb_refl in Hcl. by destruct (is_some _). }
  destruct (G gpus w0 Hg) as [Ea Hadd]. subst w0. cbn in *. by split_and!.
Qed.

(** The ledgers charge what the new row holds. *)
Lemma ledger_allocate d d' pass job r gpus id a : ledger d pass -> allocations d !! id = None -> allocations d' = <[id := a]> (allocations d) ->
  (forall j, job_project d' j = job_project d j) -> job_project d (jb_id job) = Some (jb_project_id job) ->
  al_job_id a = jb_id job -> al_pool_id a = rq_pool_id r -> allocation_amounts a = request_amounts r -> allocation_live (al_state a) = true ->
  ledger d' (allocated_pass job r gpus pass) /\
  (forall p k, usage d' p k = usage d p k + if String.eqb (rq_pool_id r) p then amount k (request_amounts r) else 0) /\
  (forall pj k, project_usage d' pj k = project_usage d pj k + if String.eqb (jb_project_id job) pj then amount k (request_amounts r) else 0) /\
  (forall pj, running_set d' pj = (if String.eqb (jb_project_id job) pj then {[jb_id job]} else ∅) ∪ running_set d pj).
Proof.
  intros [H1 H2 H3] Hid Ha Hj Hjp Hja Hpa Hra Hl.
  assert (U1 : forall p k, usage d' p k = usage d p k + if String.eqb (rq_pool_id r) p then amount k (request_amounts r) else 0).
  { intros p k. unfold usage. rewrite Ha, sum_map_insert_new by done. unfold live_on at 1. rewrite Hl, Hpa, Hra. cbn. lia. }
  assert (Hlive : forall pj x, live_of_project d' pj x = live_of_project d pj x) by (intros pj x; unfold live_of_project; by rewrite Hj).
  assert (Hla : forall pj, live_of_project d pj a = String.eqb (jb_project_id job) pj).
  { intros pj. unfold live_of_project. rewrite Hl, Hja, Hjp. cbn. destruct (String.eqb _ pj) eqn:E.
    - apply String.eqb_eq in E as ->. by apply bool_decide_eq_true.
    - apply String.eqb_neq in E. apply bool_decide_eq_false. congruence. }
  assert (U2 : forall pj k, project_usage d' pj k = project_usage d pj k + if String.eqb (jb_project_id job) pj then amount k (request_amounts r) else 0).
  { intros pj k. unfold project_usage. rewrite Ha, sum_map_insert_new by done. rewrite Hlive, Hla, Hra.
    rewrite (sum_map_ext _ (fun x => if live_of_project d pj x then amount k (allocation_amounts x) else 0)) by (intros ? ? ?; by rewrite Hlive). lia. }
  assert (U3 : forall pj, running_set d' pj = (if String.eqb (jb_project_id job) pj then {[jb_id job]} else ∅) ∪ running_set d pj).
  { intros pj. apply set_eq. intros j. rewrite elem_of_union, !elem_of_running, Ha. split.
    - intros (k & x & Hk & Hx & <-). rewrite Hlive in Hx. apply lookup_insert_Some in Hk as [[<- <-]|[_ Hk]]; [|right; eauto].
      left. rewrite Hla in Hx. rewrite Hx, Hja. set_solver.
    - intros [Hin|(k & x & Hk & Hx & E)].
      + exists id, a. rewrite lookup_insert_eq, Hlive, Hla. destruct (String.eqb _ pj) eqn:E; [|set_solver]. split_and!; [done..|set_solver].
      + exists k, x. rewrite lookup_insert_ne, Hlive by (intros ->; congruence). done. }
  split_and!; [|done..]. split.
  - intros p k Hk. unfold allocated_pass. cbn. rewrite amount_charge, U1, H1 by done. done.
  - intros pj k Hk. unfold allocated_pass. cbn. rewrite amount_charge, U2, H2 by done. done.
  - intros j pj. unfold allocated_pass. cbn. rewrite U3, Hj, elem_of_union. destruct (decide (j = jb_id job)) as [->|Hne].
    + rewrite lookup_insert_eq, Hjp. destruct (String.eqb _ pj) eqn:E.
      * apply String.eqb_eq in E as ->. split; [|done]. intros _. split; [done|left; set_solver].
      * apply String.eqb_neq in E. split; [congruence|]. intros [? _]. congruence.
    + rewrite lookup_insert_ne by done. rewrite H3. destruct (String.eqb _ pj); set_solver.
Qed.
End Allocate.

(** ** A gang *)
Definition comps_on (p : string) (k : Dim) (cs : list ComponentSpec) : Z :=
  foldr (fun c n => (if String.eqb (rq_pool_id (cs_resources c)) p then amount k (request_amounts (cs_resources c)) else 0) + n) 0 cs.
Definition comps_all (k : Dim) (cs : list ComponentSpec) : Z := foldr (fun c n => amount k (request_amounts (cs_resources c)) + n) 0 cs.

Lemma requested_on p k spec : amount k (amounts_at (requested_by_pool spec) p) = comps_on p k (js_components spec).
Proof.
  unfold requested_by_pool. rewrite (amount_fold_charge k (fun c => rq_pool_id (cs_resources c)) (fun c => request_amounts (cs_resources c))).
  unfold amounts_at. rewrite lookup_empty. cbn [default]. unfold no_amounts. rewrite amount_of_dims. unfold comps_on. lia.
Qed.

Lemma sum_charge k m p a : sum_map (amount k) (charge m p a) = sum_map (amount k) m + amount k a.
Proof.
  unfold charge, amounts_at. destruct (m !! p) as [b|] eqn:E; cbn [default from_option].
  - rewrite (sum_map_insert _ _ _ b) by done. rewrite amount_plus. unfold id. lia.
  - rewrite sum_map_insert_new by done. rewrite amount_plus. change (default no_amounts None) with no_amounts.
    unfold no_amounts. rewrite amount_of_dims. lia.
Qed.
Lemma requested_total k spec : sum_map (amount k) (requested_by_pool spec) = comps_all k (js_components spec).
Proof.
  unfold requested_by_pool. enough (G : forall m, sum_map (amount k) (fold_left (fun m c => charge m (rq_pool_id (cs_resources c)) (request_amounts (cs_resources c))) (js_components spec) m)
    = sum_map (amount k) m + comps_all k (js_components spec)) by (rewrite G, sum_map_empty; lia).
  induction (js_components spec) as [|c cs IH]; intros m; cbn [fold_left]; [unfold comps_all; cbn [foldr]; lia|].
  rewrite IH, sum_charge. unfold comps_all. cbn [foldr]. lia.
Qed.

(** Charges of disk alone change no other dimension. *)
Lemma amount_disk_only k n : k <> DISK -> amount k (disk_only n) = 0.
Proof. unfold disk_only. rewrite amount_of_dims. by destruct k. Qed.
Lemma ledger_used_disk d pass p n : ledger d pass -> ledger d (pass <| pa_used := charge (pa_used pass) p (disk_only n) |>).
Proof.
  intros [H1 H2 H3]. split; [|done|done]. intros q k Hk. cbn. rewrite amount_charge, amount_disk_only, <- (H1 q k Hk) by done. destruct (String.eqb p q); lia.
Qed.
Lemma ledger_project_disk d pass p n : ledger d pass -> ledger d (pass <| pa_project_used := charge (pa_project_used pass) p (disk_only n) |>).
Proof.
  intros [H1 H2 H3]. split; [done| |done]. intros q k Hk. cbn. rewrite amount_charge, amount_disk_only, <- (H2 q k Hk) by done. destruct (String.eqb p q); lia.
Qed.

(** What a gang adds to the rows. *)
Record takes (job : Job) (cs : list ComponentSpec) (d d' : JobDB) : Prop := {
  tk_usage : forall p k, usage d' p k = usage d p k + comps_on p k cs;
  tk_project : forall pj k, project_usage d' pj k = project_usage d pj k + if String.eqb (jb_project_id job) pj then comps_all k cs else 0;
  tk_running : forall pj, running_set d' pj ⊆ (if String.eqb (jb_project_id job) pj then {[jb_id job]} else ∅) ∪ running_set d pj;
}.
Lemma takes_same job cs d d1 d2 : takes job cs d d1 -> same_holds d1 d2 -> takes job cs d d2.
Proof.
  intros [H1 H2 H3] H. split; intros.
  - by rewrite (usage_same d1 d2).
  - by rewrite (project_usage_same d1 d2).
  - by rewrite (running_same d1 d2).
Qed.
Lemma takes_before job cs d d1 d2 : same_holds d d1 -> takes job cs d1 d2 -> takes job cs d d2.
Proof.
  intros H [H1 H2 H3]. split; intros.
  - by rewrite H1, (usage_same d d1).
  - by rewrite H2, (project_usage_same d d1).
  - by rewrite <- (running_same d d1).
Qed.

(** The part of a pass a gang does not touch. *)
Definition same_queue (pass pass' : Pass) : Prop := pa_blocked pass' = pa_blocked pass /\ pa_admissions pass' = pa_admissions pass.

Section Gangs.
Context {P : Platform} {U : Unicode}.

Lemma allocate_all_ok job att now cs pass asg created w pass' asg' created' w' :
  foldM (allocate job att now) (pass, asg, created) cs w = (Ok (pass', asg', created'), w') ->
  ledger (jw_db w) pass -> job_project (jw_db w) (jb_id job) = Some (jb_project_id job) ->
  ledger (jw_db w') pass' /\ takes job cs (jw_db w) (jw_db w') /\ same_queue pass pass'.
Proof.
  revert pass asg created w. induction cs as [|c cs IH]; intros pass asg created w H Hl Hj; cbn [foldM] in H.
  - injection H as <- _ _ <-. split_and!; [done| |done]. split; intros; cbn; [lia|destruct (String.eqb _ _); lia|set_solver].
  - apply bind_ok in H as ([[p1 a1] c1] & w1 & H1 & H). pose proof (leaves_allocate _ _ _ _ _ _ _ _ H1) as Hst.
    apply allocate_ok in H1 as (id & pool & Hid & Ha & _ & -> & _ & _).
    destruct (ledger_allocate (jw_db w) (jw_db w1) pass job (cs_resources c) (take_gpus asg (cs_resources c)).1 id _ Hl Hid Ha (st_jobs _ _ Hst) Hj)
      as (Hl1 & U1 & U2 & U3); [done..|].
    destruct (IH _ _ _ _ H Hl1) as (Hl' & [T1 T2 T3] & Hq); [by rewrite (st_jobs _ _ Hst)|]. split_and!; [done| |done]. split.
    + intros p k. rewrite T1, U1. unfold comps_on. cbn [foldr]. lia.
    + intros pj k. rewrite T2, U2. unfold comps_all. cbn [foldr]. destruct (String.eqb _ pj); lia.
    + intros pj. specialize (T3 pj). specialize (U3 pj). rewrite U3 in T3. destruct (String.eqb _ pj); set_solver.
Qed.

Lemma reserve_all_ok job att entries pass links w pass' links' w' :
  foldM (reserve_storage job att) (pass, links) entries w = (Ok (pass', links'), w') -> ledger (jw_db w) pass ->
  ledger (jw_db w') pass' /\ same_holds (jw_db w) (jw_db w') /\ same_queue pass pass'.
Proof.
  revert pass links w. induction entries as [|e es IH]; intros pass links w H Hl; cbn [foldM] in H.
  - injection H as <- _ <-. by split_and!.
  - apply bind_ok in H as ([p1 l1] & w1 & H1 & H). assert (Hs : same_holds (jw_db w) (jw_db w1)).
    { apply same_holdings_holds; [by eapply holds_reserve_storage|by eapply leaves_reserve_storage]. }
    assert (Hp : p1 = pass \/ p1 = pass <| pa_used := charge (pa_used pass) (pn_pool_id e.1.1) (disk_only (pn_max_bytes e.1.1)) |>).
    { clear -H1. destruct e as [[p r] o]. unfold reserve_storage in H1. cbv beta iota zeta in H1. repeat (apply bind_ok in H1 as (? & ? & _ & H1); cbv beta in H1).
      injection H1 as <- _ _. destruct (pn_counted p); [by left|by right]. }
    destruct (IH _ _ _ H) as (Hl' & Hs' & Hq).
    { apply (ledger_same (jw_db w)); [done|]. destruct Hp as [->| ->]; [done|by apply ledger_used_disk]. }
    split_and!; [done| |].
    + destruct Hs as [A1 A2], Hs' as [B1 B2]. split; [congruence|]. intros j. by rewrite B2.
    + destruct Hp as [->| ->]; done.
Qed.

Lemma link_all_ok job links created pass w pass' w' :
  foldM (link_allocation job links) pass created w = (Ok pass', w') -> ledger (jw_db w) pass ->
  ledger (jw_db w') pass' /\ same_holds (jw_db w) (jw_db w') /\ same_queue pass pass'.
Proof.
  revert pass w. induction created as [|a l IH]; intros pass w H Hl; cbn [foldM] in H.
  - injection H as <- <-. by split_and!.
  - apply bind_ok in H as (p1 & w1 & H1 & H). pose proof (leaves_link _ _ _ _ _ _ _ H1) as Hst. unfold link_allocation in H1.
    apply bind_ok in H1 as ([] & w2 & H1 & H2). injection H1 as <-.
    assert (Hs : same_holds (jw_db w) (jw_db w1)).
    { assert (E : w1 = w <| jw_db ::= t_upd ALLOCATIONS (alter (fun x => x <| al_details_json ::= fun d => merge_dicts d (map (fun kv => (kv.1, JStr kv.2)) (map_to_list (default ∅ (links !! al_component_id a)))) |>) (al_id a)) |>).
      { by repeat case_match; injection H2 as _ <-. }
      split; [|apply (st_jobs _ _ Hst)]. rewrite E. cbn. apply map_eq. intros k. rewrite !lookup_fmap.
      destruct (decide (al_id a = k)) as [->|]; [rewrite lookup_alter_eq|by rewrite lookup_alter_ne]. by destruct (allocations (jw_db w) !! k). }
    assert (Hp : p1 = pass \/ p1 = pass <| pa_project_used := charge (pa_project_used pass) (jb_project_id job) (disk_only (- al_disk_bytes a)) |>).
    { repeat case_match; injection H2 as <- _; first [by left|by right]. }
    destruct (IH _ _ H) as (Hl' & Hs' & Hq).
    { apply (ledger_same (jw_db w)); [done|]. destruct Hp as [->| ->]; [done|by apply ledger_project_disk]. }
    split_and!; [done| |].
    + destruct Hs as [A1 A2], Hs' as [B1 B2]. split; [congruence|]. intros j. by rewrite B2.
    + destruct Hp as [->| ->]; done.
Qed.
End Gangs.
