(* ===== verification/PassTheory.v ===== *)
(** * Passes of the scheduler

    The ledgers a pass starts from, the plan of a job's storage, the checks
    before an admission and the admission itself, related to the rows; the
    invariant of the loop over the queue. *)

From stdpp Require Import base gmap strings list fin_maps fin_sets sorting.
From Stdlib Require Import ZArith Lia.
From S2P Require Import Prelude Json Order Domain Placement JobSpec JobModels Retention BlobBudget Scheduler Gang SchedulerLogic SchedulerTheory.

(** ** The ledgers a pass starts from *)
Lemma amounts_no_key k : amount k no_amounts = 0.
Proof. unfold no_amounts. by rewrite amount_of_dims. Qed.

Lemma measure_disks_ok d ids used used' p k : k <> DISK -> measure_disks d ids used = Ok used' -> amount k (amounts_at used' p) = amount k (amounts_at used p).
Proof.
  intros Hk. revert used. induction ids as [|id ids IH]; intros used H; cbn [measure_disks] in H; [by injection H as <-|].
  destruct (pool_used_bytes d id None) as [bytes|]; [|done]. cbn in H. destruct (whole_units bytes) as [n|]; [|done]. cbn in H.
  rewrite (IH _ H). unfold amounts_at at 1. destruct (decide (id = p)) as [->|Hne]; [rewrite lookup_insert_eq|by rewrite lookup_insert_ne].
  cbn. by destruct k.
Qed.

Lemma charge_projects_ok d l used owners used' owners' : charge_projects d l used owners = Ok (used', owners') ->
  (forall pj k, k <> DISK -> amount k (amounts_at used' pj) = amount k (amounts_at used pj) +
    foldr (fun a n => (if bool_decide (job_project d (al_job_id a) = Some pj) then amount k (allocation_amounts a) else 0) + n) 0 l) /\
  (forall j pj, owners' !! j = Some pj <-> (j ∈ map al_job_id l /\ job_project d j = Some pj) \/ (j ∉ map al_job_id l /\ owners !! j = Some pj)).
Proof.
  revert used owners. induction l as [|a l IH]; intros used owners H; cbn [charge_projects] in H.
  - injection H as <- <-. split; [intros; cbn; lia|]. intros j pj. set_solver.
  - unfold project_of in H. destruct (jobs d !! al_job_id a) as [x|] eqn:Ej; [|done]. cbn in H. destruct (IH _ _ H) as [H1 H2]. clear IH.
    assert (Hp : job_project d (al_job_id a) = Some (jb_project_id x)) by (unfold job_project; by rewrite Ej). split.
    + intros pj k Hk. rewrite H1, amount_charge by done. cbn [foldr]. rewrite Hp.
      replace (amount k (project_amounts d a)) with (amount k (allocation_amounts a))
        by (unfold project_amounts; rewrite amount_of_dims, bool_decide_eq_false_2 by done; done).
      destruct (String.eqb (jb_project_id x) pj) eqn:E.
      * apply String.eqb_eq in E as ->. rewrite bool_decide_eq_true_2 by done. lia.
      * apply String.eqb_neq in E. rewrite bool_decide_eq_false_2 by congruence. lia.
    + intros j pj. rewrite H2. cbn [map]. rewrite not_elem_of_cons, elem_of_cons. destruct (decide (j = al_job_id a)) as [->|Hne].
      * rewrite lookup_insert_eq, Hp. destruct (decide (al_job_id a ∈ map al_job_id l)); naive_solver.
      * rewrite lookup_insert_ne by done. naive_solver.
Qed.

Lemma first_pass_ledger d pass : first_pass d = Ok pass -> ledger d pass /\ pa_blocked pass = [] /\ pa_admissions pass = [].
Proof.
  unfold first_pass. intros H. destruct (charge_projects d (live_allocations d) ∅ ∅) as [[pu owners]|] eqn:Ec; [|done]. cbn in H.
  destruct (measure_disks _ _ _) as [used|] eqn:Em; [|done]. cbn in H. injection H as <-. split; [|done]. destruct (charge_projects_ok _ _ _ _ _ _ Ec) as [C1 C2].
  split; cbn.
  - intros p k Hk. rewrite (measure_disks_ok _ _ _ _ _ _ Hk Em), (amount_fold_charge k al_pool_id allocation_amounts).
    unfold amounts_at. rewrite lookup_empty. cbn. rewrite amounts_no_key. unfold live_allocations. rewrite sum_rows. cbn.
    unfold usage. apply sum_map_ext. intros a b _. unfold live_on. by destruct (allocation_live (al_state b)), (String.eqb (al_pool_id b) p).
  - intros pj k Hk. rewrite C1 by done. unfold amounts_at. rewrite lookup_empty. cbn. rewrite amounts_no_key. unfold live_allocations. rewrite sum_rows. cbn.
    unfold project_usage. apply sum_map_ext. intros a b _. unfold live_of_project. by destruct (allocation_live (al_state b)), (bool_decide _).
  - intros j pj. rewrite C2, lookup_empty, elem_of_running. unfold live_allocations. split.
    + intros [[Hj Hp]|[_ ?]]; [|done]. split; [done|]. apply list_elem_of_fmap in Hj as (a & -> & Ha). apply elem_of_rows in Ha as [Ha (k & Hk)].
      exists k, a. unfold live_of_project. rewrite Ha, bool_decide_eq_true_2 by done. done.
    + intros [Hp (k & a & Hk & Hl & <-)]. left. split; [|done]. apply list_elem_of_fmap. exists a. split; [done|]. apply elem_of_rows.
      unfold live_of_project in Hl. apply andb_true_iff in Hl as [Hl _]. eauto.
Qed.

(** ** The checks before an admission *)

(** The request of a plan is the job's, but for disk. *)
Definition asks_as (m m' : gmap string Amounts) : Prop :=
  forall k, k <> DISK -> (forall p, amount k (amounts_at m' p) = amount k (amounts_at m p)) /\ sum_map (amount k) m' = sum_map (amount k) m.
#[export] Instance asks_as_preorder : PreOrder asks_as.
Proof. split; [by split|]. intros x y z H1 H2 k Hk. destruct (H1 k Hk) as [A1 A2], (H2 k Hk) as [B1 B2]. split; [intros p; by rewrite B1|by rewrite B2]. Qed.
Lemma asks_as_disk m p n : asks_as m (charge m p (disk_only n)).
Proof.
  intros k Hk. split; [intros q; rewrite amount_charge|rewrite sum_charge]; rewrite amount_disk_only by done; [destruct (String.eqb _ _)|]; lia.
Qed.

Section Checks.
Context {P : Platform} {U : Unicode}.

Lemma plan_entry_asks job spec now acc planned w plan w' :
  plan_entry job spec now acc planned w = (Ok (Some plan), w') -> asks_as (sp_request acc) (sp_request plan).
Proof.
  unfold plan_entry. intros H. apply bind_ok in H as (ps & w1 & _ & H). apply bind_ok in H as (p & w2 & _ & H). apply bind_ok in H as ([] & w3 & _ & H).
  destruct (ps !! pn_pool_id p); [|done]. destruct (negb _ || _); [by apply bind_ok in H as (? & ? & _ & [=])|].
  apply bind_ok in H as (found & w4 & _ & H). cbv zeta in H. apply bind_ok in H as ([] & w5 & _ & H).
  assert (G : forall c w plan w', ret (Some (mkStoragePlan (sp_storage acc ++ [(p, c, plan_ownership (jb_id job) p)])
                        (if pn_covered p then sp_request acc else charge (sp_request acc) (pn_pool_id p) (disk_only (pn_max_bytes p)))
                        (sp_links acc) (sp_covered_bytes acc))) w = (@Ok (option StoragePlan) (Some plan), w' : JobWorld) -> asks_as (sp_request acc) (sp_request plan)).
  { intros c v plan1 v' [= <- _]. cbn. destruct (pn_covered p); [done|]. apply asks_as_disk. }
  destruct (head found) as [r|]; [|by eapply G]. destruct (has_key _ _ && _); [|by eapply G].
  apply bind_ok in H as ([] & w6 & _ & H). by injection H as <- _.
Qed.

Lemma plan_storage_asks job spec now acc plans w plan w' :
  plan_storage job spec now acc plans w = (Ok (Some plan), w') -> asks_as (sp_request acc) (sp_request plan).
Proof.
  revert acc w. induction plans as [|planned plans IH]; intros acc w H; cbn [plan_storage] in H; [by injection H as <- _|].
  apply bind_ok in H as ([acc1|] & w1 & H1 & H); [|done]. etransitivity; [by eapply plan_entry_asks|by eapply IH].
Qed.

(** The jobs of a project the pass counts are those with live allocations. *)
Lemma running_jobs_ok d pass pj : ledger d pass -> running_jobs (pa_allocation_projects pass) pj = running d pj.
Proof.
  intros [_ _ H3]. unfold running_jobs, running. f_equal. set (l := List.filter _ _).
  assert (Hl : forall j x, (j, x) ∈ l <-> pa_allocation_projects pass !! j = Some x /\ x = pj).
  { intros j x. unfold l. rewrite list_elem_of_In, filter_In, <- list_elem_of_In, elem_of_map_to_list. cbn. by rewrite String.eqb_eq. }
  assert (Hd : NoDup l.*1).
  { assert (Hs : NoDup (map_to_list (pa_allocation_projects pass)).*1) by apply NoDup_fst_map_to_list. revert Hs. unfold l.
    generalize (map_to_list (pa_allocation_projects pass)). clear. induction l as [|[k v] l IH]; cbn; [done|]. rewrite NoDup_cons. intros [Hn Hd].
    destruct (String.eqb v pj); [|by apply IH]. cbn. rewrite NoDup_cons. split; [|by apply IH]. contradict Hn.
    apply list_elem_of_fmap in Hn as (y & -> & Hy). apply list_elem_of_fmap. exists y. split; [done|].
    apply list_elem_of_In, filter_In in Hy as [Hy _]. by apply list_elem_of_In. }
  replace (running_set d pj) with (list_to_set l.*1 : gset string).
  { rewrite size_list_to_set by done. by rewrite length_fmap. }
  apply set_eq. intros j. rewrite elem_of_list_to_set, list_elem_of_fmap. split.
  - intros ([j' x] & -> & Hin). apply Hl in Hin as [Hin ->]. by apply H3 in Hin as [_ ?].
  - intros Hj. exists (j, pj). split; [done|]. apply Hl. split; [|done]. apply H3. split; [|done].
    apply elem_of_running in Hj as (k & a & _ & Ha & <-). unfold live_of_project in Ha. apply andb_true_iff in Ha as [_ Ha]. by apply bool_decide_eq_true in Ha.
Qed.

Lemma exceeds_quota_ok q a k l : exceeds_quota q a = false -> q !! dim_name k = Some l -> amount k a <= l.
Proof.
  unfold exceeds_quota. intros H Hl. assert (Hk : k ∈ RESOURCE_DIMENSIONS) by (destruct k; set_solver).
  pose proof (existsb_none _ _ _ H Hk) as E. cbv beta in E. rewrite Hl in E. by apply Z.ltb_ge.
Qed.

Lemma quota_refused_ok d pj project pass plan : quota_refused pj project pass plan = false -> ledger d pass ->
  (forall k l, k <> DISK -> quota project !! dim_name k = Some l -> project_usage d pj k + sum_map (amount k) (sp_request plan) <= l) /\
  (forall l, quota project !! "max_running_jobs" = Some l -> running d pj < l).
Proof.
  unfold quota_refused. intros H Hl. apply orb_false_iff in H as [H Hr]. apply orb_false_iff in H as [_ Hq]. split.
  - intros k l Hk Hql. pose proof (exceeds_quota_ok _ _ _ _ Hq Hql) as G. rewrite !amount_plus, (lg_project _ _ Hl) in G by done.
    rewrite amount_disk_only in G by done. unfold totals_of in G. rewrite amount_of_dims in G. lia.
  - intros l Hql. rewrite Hql in Hr. rewrite (running_jobs_ok d) in Hr by done. by apply Z.leb_gt.
Qed.

Lemma shortages_ok d pass request p k : shortages (pools d) (pa_used pass) request = ∅ -> ledger d pass -> k <> DISK ->
  is_Some (request !! p) -> usage d p k + amount k (amounts_at request p) <= capacity d p k.
Proof.
  intros H Hl Hk [a Ha]. assert (E : shortages (pools d) (pa_used pass) request !! p = None) by (by rewrite H).
  unfold shortages in E. rewrite map_lookup_imap, Ha in E. cbn in E. unfold amounts_at. rewrite Ha. cbn [default from_option]. unfold id.
  rewrite <- (lg_used _ _ Hl) by done. unfold capacity.
  assert (G : amount k a <= amount k (match pools d !! p with Some p0 => pool_capacity p0 | None => no_amounts end) - amount k (amounts_at (pa_used pass) p)).
  { unfold short_dims in E. cbv zeta in E. revert E. unfold RESOURCE_DIMENSIONS. cbn [omap list_omap].
    destruct k; [| |done|]; repeat case_match; try done; intros _; try (by apply Z.ltb_ge); try congruence. all: by rewrite Z.ltb_ge in *. }
  destruct (pools d !! p); [lia|]. rewrite amounts_no_key in G. lia.
Qed.
End Checks.

(** ** An admission *)
Definition keyed (d : JobDB) : Prop := forall j x, jobs d !! j = Some x -> jb_id x = j.
Lemma keyed_stable d d' : keyed d -> stable d d' -> keyed d'.
Proof.
  intros H Hs j x Hx. pose proof (st_ids _ _ Hs j) as E. rewrite Hx in E. destruct (jobs d !! j) as [y|] eqn:Ey; [|done].
  cbn in E. injection E as -> _. by apply H.
Qed.
Lemma same_spec d d' j x x' : stable d d' -> jobs d !! j = Some x -> jobs d' !! j = Some x' -> jb_spec x' = jb_spec x.
Proof. intros Hs H H'. pose proof (st_ids _ _ Hs j) as E. rewrite H, H' in E. by injection E. Qed.
Lemma job_project_row d j x : jobs d !! j = Some x -> job_project d j = Some (jb_project_id x).
Proof. intros H. unfold job_project. by rewrite H. Qed.

Lemma takes_as job job' cs d d' : jb_id job' = jb_id job -> jb_project_id job' = jb_project_id job -> takes job' cs d d' -> takes job cs d d'.
Proof. intros E1 E2 [H1 H2 H3]. split; [done|intros; by rewrite H2, E2|intros pj; specialize (H3 pj); by rewrite E1, E2 in H3]. Qed.

(** ** The standing of the jobs *)

(** State and epoch, which only expiry and admission change; and with the count
    of times a job was passed by. *)
Definition standing (x : Job) := (jb_state x, jb_epoch x).
Definition calm_columns (x : Job) := (standing x, jb_backfill_count x).
Definition standings (d : JobDB) : gmap string (JobState * Z) := standing <$> jobs d.
Definition calm (d d' : JobDB) : Prop := calm_columns <$> jobs d' = calm_columns <$> jobs d.
#[export] Instance calm_preorder : PreOrder calm.
Proof. split; [done|]. unfold calm. intros x y z H1 H2. congruence. Qed.
Lemma calm_jobs d f k : (forall x, calm_columns (f x) = calm_columns x) -> calm d (t_upd JOBS (alter f k) d).
Proof. intros Hf. unfold calm. cbn. by apply fmap_alter_same. Qed.
Lemma calm_row d d' j x' : calm d d' -> jobs d' !! j = Some x' -> exists x, jobs d !! j = Some x /\ calm_columns x' = calm_columns x.
Proof.
  intros H Hx. apply (f_equal (fun m : gmap string _ => m !! j)) in H. cbv beta in H. rewrite !lookup_fmap, Hx in H.
  destruct (jobs d !! j) as [x|]; [|done]. cbn in H. injection H as H1 H2 H3. exists x. split; [done|]. unfold calm_columns, standing. congruence.
Qed.
Lemma calm_standings d d' : calm d d' -> standings d' = standings d.
Proof.
  intros H. assert (E : forall x, standings x = fst <$> (calm_columns <$> jobs x)) by (intros x; unfold standings; by rewrite <- map_fmap_compose).
  rewrite !E. unfold calm in H. by rewrite H.
Qed.
Ltac calm_tables := first [by apply calm_jobs; intros x; repeat case_match|done].

Section Calm.
Context {P : Platform} {U : Unicode}.
Lemma calm_set_reason id code now details : leaves calm (set_reason id code now details).
Proof. unfold set_reason. leave; calm_tables. Qed.
Lemma calm_outbox job topic payload a : leaves calm (add_outbox job topic payload a).
Proof. unfold add_outbox. leave; calm_tables. Qed.
Lemma calm_event job kind payload now : leaves calm (job_event job kind payload now).
Proof. unfold job_event, add_event, next_sequence. leave; calm_tables. Qed.
Lemma calm_the_job id : leaves calm (the_job id).
Proof. unfold the_job. leave. Qed.
Lemma calm_reserve_project id n : leaves calm (reserve_project_bytes id n).
Proof. unfold reserve_project_bytes. leave; calm_tables. Qed.
Lemma calm_reserve_pool r pool n : leaves calm (reserve_pool_bytes r pool n).
Proof. unfold reserve_pool_bytes. leave. Qed.
#[local] Hint Resolve calm_set_reason calm_outbox calm_event calm_the_job calm_reserve_project calm_reserve_pool : leaves.
Lemma calm_reserve id pid n pool : leaves calm (reserve_in_transaction id pid n pool).
Proof. unfold reserve_in_transaction. leave; calm_tables. Qed.
Lemma calm_plan_entry job spec now acc planned : leaves calm (plan_entry job spec now acc planned).
Proof. unfold plan_entry. leave. Qed.
#[local] Hint Resolve calm_reserve calm_plan_entry : leaves.
Lemma calm_plan_storage job spec now acc plans : leaves calm (plan_storage job spec now acc plans).
Proof. revert acc. induction plans as [|p plans IH]; intros acc; cbn [plan_storage]; leave. Qed.
Lemma calm_any_protected request blocked : leaves calm (any_protected request blocked).
Proof. induction blocked as [|b bs IH]; cbn [any_protected]; unfold protected; leave. Qed.
Lemma calm_take_attempt job : leaves calm (take_attempt job).
Proof. unfold take_attempt. leave; calm_tables. Qed.
Lemma calm_allocate job a now acc c : leaves calm (allocate job a now acc c).
Proof. unfold allocate. leave; calm_tables. Qed.
Lemma calm_reserve_storage job a acc e : leaves calm (reserve_storage job a acc e).
Proof. unfold reserve_storage. leave; calm_tables. Qed.
Lemma calm_bind_link a id : leaves calm (bind_link a id).
Proof. unfold bind_link. leave; calm_tables. Qed.
Lemma calm_link job links pass a : leaves calm (link_allocation job links pass a).
Proof. unfold link_allocation. leave; calm_tables. Qed.
End Calm.

(** ** What changes neither holdings nor the count of passed-by jobs *)
Record quiet (d d' : JobDB) : Prop := { qu_stable : stable d d'; qu_calm : calm d d'; qu_holdings : same holdings d d' }.
#[export] Instance quiet_preorder : PreOrder quiet.
Proof. split; [by split|]. intros x y z [A1 A2 A3] [B1 B2 B3]. split; by etransitivity. Qed.
Lemma leaves_quiet {A} (m : M JobWorld A) : leaves stable m -> leaves calm m -> leaves (same holdings) m -> leaves quiet m.
Proof. intros H1 H2 H3 w a w' H. split; eauto. Qed.
Lemma quiet_holds d d' : quiet d d' -> same_holds d d'.
Proof. intros [H1 _ H3]. by apply same_holdings_holds. Qed.
Lemma same_holds_trans d1 d2 d3 : same_holds d1 d2 -> same_holds d2 d3 -> same_holds d1 d3.
Proof. intros [A1 A2] [B1 B2]. split; [congruence|]. intros j. by rewrite B2. Qed.

Section Quiet.
Context {P : Platform} {U : Unicode}.
Lemma quiet_set_reason id code now details : leaves quiet (set_reason id code now details).
Proof. apply leaves_quiet; [apply leaves_set_reason|apply calm_set_reason|apply holds_set_reason]. Qed.
Lemma quiet_outbox job topic payload a : leaves quiet (add_outbox job topic payload a).
Proof. apply leaves_quiet; [apply leaves_outbox|apply calm_outbox|apply holds_outbox]. Qed.
Lemma quiet_event job kind payload now : leaves quiet (job_event job kind payload now).
Proof. apply leaves_quiet; [apply leaves_event|apply calm_event|apply holds_event]. Qed.
Lemma quiet_plan_storage job spec now acc plans : leaves quiet (plan_storage job spec now acc plans).
Proof. apply leaves_quiet; [apply leaves_plan_storage|apply calm_plan_storage|apply holds_plan_storage]. Qed.
Lemma quiet_take_attempt job : leaves quiet (take_attempt job).
Proof. apply leaves_quiet; [apply leaves_take_attempt|apply calm_take_attempt|apply holds_take_attempt]. Qed.
Lemma quiet_bind_links a ids : leaves quiet (for_each ids (bind_link a)).
Proof. apply leaves_for_each; [apply _|]. intros id. apply leaves_quiet; [apply leaves_bind_link|apply calm_bind_link|apply holds_bind_link]. Qed.
Lemma quiet_reserve_all job a entries acc : leaves quiet (foldM (reserve_storage job a) acc entries).
Proof. apply leaves_foldM; [apply _|]. intros ? ?. apply leaves_quiet; [apply leaves_reserve_storage|apply calm_reserve_storage|apply holds_reserve_storage]. Qed.
Lemma the_job_ok id w j w' : the_job id w = (Ok j, w') -> jobs (jw_db w) !! id = Some j /\ w' = w.
Proof. unfold the_job, job_get. intros H. apply bind_ok in H as (o & w1 & [= <- <-] & H). cbn in H. destruct (jobs (jw_db w) !! id); [by injection H as <- <-|done]. Qed.
Lemma protected_pure request blocked w b w' : any_protected request blocked w = (Ok b, w') -> w' = w /\
  (b = false -> forall x, x ∈ blocked -> exists older, jobs (jw_db w) !! x.1 = Some older /\ (overlaps request x.2 = true -> jb_backfill_count older < MAX_BACKFILLS)).
Proof.
  revert b. induction blocked as [|x l IH]; intros b H; cbn [any_protected] in H; [injection H as <- <-; split; [done|]; intros _ x Hx; by apply elem_of_nil in Hx|].
  apply bind_ok in H as (h & w1 & H1 & H). unfold protected in H1. apply bind_ok in H1 as (older & w2 & H2 & [= <- <-]). apply the_job_ok in H2 as [Ho ->].
  apply bind_ok in H as (h2 & w3 & H3 & [= <- <-]). destruct (IH _ H3) as [-> G]. split; [done|]. intros Hb. apply orb_false_iff in Hb as [Hb ->].
  intros y Hy. apply elem_of_cons in Hy as [->|Hy]; [|by apply G]. exists older. split; [done|]. intros Hov. rewrite Hov, andb_true_r in Hb. by apply Z.leb_gt.
Qed.
End Quiet.

(** ** An admission, statement by statement *)
Section Admissions.
Context {P : Platform} {U : Unicode}.

Inductive admission (job0 : Job) (spec : JobSpec) (now : Z) (plan : StoragePlan) (asg : gmap string (list string)) (pass : Pass) (w : JobWorld) (w' : JobWorld) :
    Job -> Attempt -> list Allocation -> Pass -> Prop :=
  | admission_run attempt job p1 p2 p3 asg1 created links w0 w1 w2 w3 w4 w5 w6 :
      quiet (jw_db w) (jw_db w0) ->
      w1 = w0 <| jw_db ::= t_upd JOBS (alter (admitted_job now (js_max_duration_seconds spec)) (jb_id job0)) |> ->
      jobs (jw_db w1) !! jb_id job0 = Some job -> jb_id job = jb_id job0 -> jb_project_id job = jb_project_id job0 ->
      foldM (allocate job (ja_id attempt) now) (pass, asg, []) (js_components spec) w1 = (Ok (p1, asg1, created), w2) ->
      foldM (reserve_storage job attempt) (p1, sp_links plan) (sp_storage plan) w2 = (Ok (p2, links), w3) ->
      quiet (jw_db w3) (jw_db w4) ->
      foldM (link_allocation job links) p2 created w4 = (Ok p3, w5) ->
      quiet (jw_db w5) (jw_db w6) ->
      for_each (pa_blocked p3) (count_backfill (sp_request plan) now) w6 = (Ok tt, w') ->
      admission job0 spec now plan asg pass w w' job attempt created p3.

Lemma admit_inv job0 spec now plan asg pass w pass' w' :
  admit_gang job0 spec now plan asg pass w = (Ok pass', w') -> keyed (jw_db w) -> job_project (jw_db w) (jb_id job0) = Some (jb_project_id job0) ->
  exists job attempt created p3, admission job0 spec now plan asg pass w w' job attempt created p3 /\
    pass' = p3 <| pa_admissions ::= fun l => l ++ [mkAdmission (jb_id job0) (ja_id attempt) (jb_epoch job) (map al_id created)] |>.
Proof.
  intros H Hk Hj0. unfold admit_gang in H. apply bind_ok in H as (att & w1 & H1 & H). apply quiet_take_attempt in H1 as Q1.
  apply bind_ok in H as ([] & w2 & H2 & H). injection H2 as E. symmetry in E.
  assert (Q : stable (jw_db w) (jw_db w2)) by (rewrite E; etransitivity; [apply Q1|apply stable_jobs; by intros []]).
  apply bind_ok in H as (job & w3 & H3 & H). apply the_job_ok in H3 as [Hj ->].
  assert (E1 : jb_id job = jb_id job0) by (by eapply (keyed_stable (jw_db w))).
  assert (E2 : jb_project_id job = jb_project_id job0).
  { apply job_project_row in Hj. rewrite (st_jobs _ _ Q), Hj0 in Hj. by injection Hj. }
  apply bind_ok in H as ([[p1 a1] created] & w4 & H4 & H). apply bind_ok in H as ([p2 links] & w5 & H5 & H).
  apply bind_ok in H as ([] & w6 & H6 & H). apply quiet_bind_links in H6. apply bind_ok in H as (p3 & w7 & H7 & H).
  apply bind_ok in H as ([] & w8 & H8 & H). apply quiet_outbox in H8. apply bind_ok in H as ([] & w9 & H9 & H). apply quiet_event in H9.
  apply bind_ok in H as ([] & w10 & H10 & H). injection H as <- <-. exists job, att, created, p3. rewrite E1. split; [|done].
  econstructor; [exact Q1|exact E|done|done|done|done|done|done|done|by etransitivity|done].
Qed.

Lemma count_all_holds request now l w u w' : for_each l (count_backfill request now) w = (Ok u, w') -> same_holds (jw_db w) (jw_db w') /\ stable (jw_db w) (jw_db w').
Proof.
  intros H. assert (Hs : stable (jw_db w) (jw_db w')) by (eapply leaves_for_each; [apply _|apply leaves_count|done]). split; [|done].
  apply same_holdings_holds; [|done]. by eapply leaves_for_each; [apply _|apply holds_count|].
Qed.

Lemma admitted_row now duration id w w0 w1 : quiet (jw_db w) (jw_db w0) ->
  w1 = w0 <| jw_db ::= t_upd JOBS (alter (admitted_job now duration) id) |> -> stable (jw_db w) (jw_db w1) /\ same_holds (jw_db w) (jw_db w1).
Proof.
  intros Hq ->. assert (Hs : stable (jw_db w0) (t_upd JOBS (alter (admitted_job now duration) id) (jw_db w0))) by (apply stable_jobs; by intros []).
  split; [etransitivity; [apply Hq|done]|]. eapply same_holds_trans; [by apply quiet_holds|]. by apply same_holdings_holds.
Qed.

Lemma admit_ok job0 spec now plan asg pass w w' job attempt created p3 :
  admission job0 spec now plan asg pass w w' job attempt created p3 -> ledger (jw_db w) pass ->
  job_project (jw_db w) (jb_id job0) = Some (jb_project_id job0) ->
  ledger (jw_db w') p3 /\ takes job0 (js_components spec) (jw_db w) (jw_db w') /\ same_queue pass p3.
Proof.
  intros [a j p1 p2 p4 asg1 cr links w0 w1 w2 w3 w4 w5 w6 Q0 Ew Hj E1 E2 H2 H3 Q4 H5 Q6 H7] Hl Hp.
  destruct (admitted_row _ _ _ _ _ _ Q0 Ew) as [S1 Hs1].
  apply allocate_all_ok in H2 as (L2 & K2 & R2); [|by eapply ledger_same|by rewrite E1, E2, (st_jobs _ _ S1)].
  apply reserve_all_ok in H3 as (L3 & S3 & R3); [|done].
  apply link_all_ok in H5 as (L5 & S5 & R5); [|eapply ledger_same; [by apply quiet_holds|done]].
  apply count_all_holds in H7 as [S7 _]. assert (S57 : same_holds (jw_db w5) (jw_db w')) by (eapply same_holds_trans; [by apply quiet_holds|done]).
  split_and!.
  - by eapply ledger_same.
  - apply (takes_as job0 j); [done..|]. eapply takes_before; [exact Hs1|]. eapply takes_same; [done|].
    eapply same_holds_trans; [done|]. eapply same_holds_trans; [by apply quiet_holds|]. by eapply same_holds_trans.
  - destruct R2, R3, R5. split; congruence.
Qed.

Lemma admit_stable job0 spec now plan asg pass w w' job attempt created p3 :
  admission job0 spec now plan asg pass w w' job attempt created p3 -> stable (jw_db w) (jw_db w').
Proof.
  intros [a j p1 p2 p4 asg1 cr links w0 w1 w2 w3 w4 w5 w6 Q0 Ew Hj E1 E2 H2 H3 Q4 H5 Q6 H7]. destruct (admitted_row _ _ _ _ _ _ Q0 Ew) as [S1 _]. etransitivity; [exact S1|].
  etransitivity; [eapply leaves_foldM; [apply _|intros; apply leaves_allocate|exact H2]|]. etransitivity; [eapply quiet_reserve_all, H3|]. etransitivity; [apply Q4|].
  etransitivity; [eapply leaves_foldM; [apply _|intros; apply leaves_link|exact H5]|]. etransitivity; [apply Q6|]. by eapply count_all_holds.
Qed.

(** An admission changes the row of its job, then those of the jobs passed by. *)
Lemma calm_admission job0 spec now plan asg pass w w' job attempt created p3 :
  admission job0 spec now plan asg pass w w' job attempt created p3 ->
  exists d1 w6, let d2 := t_upd JOBS (alter (admitted_job now (js_max_duration_seconds spec)) (jb_id job0)) d1 in
    calm (jw_db w) d1 /\ jobs d2 !! jb_id job0 = Some job /\ calm d2 (jw_db w6) /\
    for_each (pa_blocked p3) (count_backfill (sp_request plan) now) w6 = (Ok tt, w').
Proof.
  intros [a j p1 p2 p4 asg1 cr links w0 w1 w2 w3 w4 w5 w6 Q0 Ew Hj E1 E2 H2 H3 Q4 H5 Q6 H7].
  exists (jw_db w0), w6. cbv zeta. split_and!; [apply Q0|by subst w1| |done]. apply (f_equal jw_db) in Ew. cbn in Ew. cbn. rewrite <- Ew.
  etransitivity; [eapply leaves_foldM; [apply _|intros; apply calm_allocate|exact H2]|].
  etransitivity; [eapply quiet_reserve_all, H3|]. etransitivity; [apply Q4|]. etransitivity; [eapply leaves_foldM; [apply _|intros; apply calm_link|exact H5]|apply Q6].
Qed.
End Admissions.

(** ** One job of the queue, as a step *)
Section Steps.
Context {P : Platform} {U : Unicode}.

Inductive job_step (now limit : Z) (id : string) (w w' : JobWorld) (pass : Pass) : Pass -> Prop :=
  | step_passed : quiet (jw_db w) (jw_db w') -> job_step now limit id w w' pass pass
  | step_expired d1 : d1 = t_upd JOBS (alter (fun j => j <| jb_state := CANCELLING |> <| jb_phase := Some "deadline_exceeded" |>
        <| jb_updated_at := now |> <| jb_version ::= Z.succ |>) id) (jw_db w) -> quiet d1 (jw_db w') -> job_step now limit id w w' pass pass
  | step_blocked short : quiet (jw_db w) (jw_db w') -> short <> ∅ ->
      job_step now limit id w w' pass (pass <| pa_blocked ::= fun l => l ++ [(id, short)] |>)
  | step_admitted job spec plan asg project w1 job1 attempt created p3 :
      Z.of_nat (List.length (pa_admissions pass)) < limit ->
      jobs (jw_db w) !! id = Some job -> jb_id job = id ->
      validate_spec (jb_spec job) = Ok spec ->
      quiet (jw_db w) (jw_db w1) ->
      asks_as (requested_by_pool spec) (sp_request plan) ->
      projects (jw_db w1) !! jb_project_id job = Some project ->
      quota_refused (jb_project_id job) project pass plan = false ->
      shortages (pools (jw_db w1)) (pa_used pass) (sp_request plan) = ∅ ->
      assign_gpus (pool_gpus (pools (jw_db w1))) (gpu_counts (sp_request plan)) (pa_gpu_used pass) = Some asg ->
      (forall x, x ∈ pa_blocked pass -> exists older, jobs (jw_db w1) !! x.1 = Some older /\
         (overlaps (sp_request plan) x.2 = true -> jb_backfill_count older < MAX_BACKFILLS)) ->
      admission job spec now plan asg pass w1 w' job1 attempt created p3 ->
      job_step now limit id w w' pass (p3 <| pa_admissions ::= fun l => l ++ [mkAdmission id (ja_id attempt) (jb_epoch job1) (map al_id created)] |>).

Lemma place_step job spec now limit plan pass w0 w pass' w' :
  place_job job spec now plan pass w = (Ok pass', w') -> Z.of_nat (List.length (pa_admissions pass)) < limit ->
  keyed (jw_db w0) -> jobs (jw_db w0) !! jb_id job = Some job -> validate_spec (jb_spec job) = Ok spec ->
  quiet (jw_db w0) (jw_db w) -> asks_as (requested_by_pool spec) (sp_request plan) -> job_step now limit (jb_id job) w0 w' pass pass'.
Proof.
  unfold place_job. intros H Hlim Hk Hj Hv Hq Hask. apply bind_ok in H as (ps & w1 & [= <- <-] & H). apply bind_ok in H as (o & w1 & [= <- <-] & H).
  cbn [t_get PROJECTS] in H. destruct (projects (jw_db w) !! jb_project_id job) as [project|] eqn:Epj; [|done].
  apply bind_ok in H as (pj & w1 & [= <- <-] & H). destruct (quota_refused _ _ _ _) eqn:Eq.
  { apply bind_ok in H as ([] & w1 & H1 & [= <- <-]). apply step_passed. etransitivity; [done|]. by eapply quiet_set_reason. }
  cbv zeta in H. set (placed := assign_gpus _ _ _) in H. set (short := match placed with Some _ => _ | None => _ end) in H.
  destruct (bool_decide (short = ∅)) eqn:Es; cbn [negb] in H.
  2: { apply bind_ok in H as ([] & w1 & H1 & [= <- <-]). apply bool_decide_eq_false in Es. apply step_blocked; [|done]. etransitivity; [done|]. by eapply quiet_set_reason. }
  apply bind_ok in H as (hit & w1 & H1 & H). apply protected_pure in H1 as [-> Hb].
  destruct hit. { apply bind_ok in H as ([] & w2 & H2 & [= <- <-]). apply step_passed. etransitivity; [done|]. by eapply quiet_set_reason. }
  apply bool_decide_eq_true in Es. destruct placed as [asg|] eqn:Ea; [|done].
  apply admit_inv in H as (job1 & att & created & p3 & Ha & ->); [|by eapply keyed_stable; [|apply Hq]|by rewrite (st_jobs _ _ (qu_stable _ _ Hq)), (job_project_row _ _ _ Hj)].
  by eapply step_admitted; eauto.
Qed.

Lemma schedule_step storage now limit active pass id w pass' w' :
  schedule_job storage now limit active pass id w = (Ok pass', w') -> keyed (jw_db w) -> job_step now limit id w w' pass pass'.
Proof.
  intros H Hk. unfold schedule_job in H. destruct (limit <=? _) eqn:Hlim; [injection H as <- <-; by apply step_passed|]. apply Z.leb_gt in Hlim.
  apply bind_ok in H as (job & w1 & H1 & H). apply the_job_ok in H1 as [Hj ->].
  destruct (bool_decide _). { apply bind_ok in H as ([] & w1 & H1 & [= <- <-]). apply step_passed. by eapply quiet_set_reason. }
  destruct (match jb_deadline_at job with Some t => t <=? now | None => false end).
  { apply bind_ok in H as ([] & w1 & H1 & H). apply bind_ok in H as (job1 & w2 & H2 & H). apply the_job_ok in H2 as [_ ->].
    apply bind_ok in H as ([] & w2 & H2 & [= <- <-]). eapply step_expired; [done|]. injection H1 as <-. by eapply quiet_outbox in H2. }
  destruct (match jb_next_attempt_at job with Some t => now <? t | None => false end).
  { apply bind_ok in H as ([] & w1 & H1 & [= <- <-]). apply step_passed. by eapply quiet_set_reason. }
  pose proof (Hk _ _ Hj) as <-. unfold schedule_ready in H.
  apply bind_ok in H as (spec & w1 & H1 & H). apply lift_ok in H1 as [Hv ->].
  apply bind_ok in H as (ps & w2 & [= _ <-] & H). destruct (eligibility _ _) as [missing|].
  { apply bind_ok in H as ([] & w2 & H2 & [= <- <-]). apply step_passed. by eapply quiet_set_reason. }
  apply bind_ok in H as (u & w2 & H2 & H). apply throw_if_ok in H2 as [_ ->]. apply bind_ok in H as (plan & w2 & H2 & H).
  pose proof (quiet_plan_storage _ _ _ _ _ _ _ _ H2) as Q2. destruct plan as [plan|]; [|injection H as <- <-; by apply step_passed].
  apply plan_storage_asks in H2. by eapply place_step.
Qed.

(** Rule induction over a pass: what holds before the queue, and every step
    keeps, holds at its end.  [I] may speak of the jobs already considered. *)
Lemma schedule_loop (I : list string -> JobDB -> Pass -> Prop) storage now limit active ids pass w pass' w' :
  foldM (schedule_job storage now limit active) pass ids w = (Ok pass', w') -> keyed (jw_db w) -> I [] (jw_db w) pass ->
  (forall w1 w2 before id after p1 p2, ids = before ++ id :: after -> keyed (jw_db w1) -> I before (jw_db w1) p1 ->
     job_step now limit id w1 w2 p1 p2 -> I (before ++ [id]) (jw_db w2) p2) ->
  I ids (jw_db w') pass'.
Proof.
  intros H Hk HI Hstep. enough (G : forall todo before pass w, ids = before ++ todo -> I before (jw_db w) pass -> keyed (jw_db w) ->
    foldM (schedule_job storage now limit active) pass todo w = (Ok pass', w') -> I ids (jw_db w') pass') by (by eapply (G ids [])).
  clear H Hk HI pass w. induction todo as [|id todo IH]; intros before pass w E HI Hk H; cbn [foldM] in H.
  - injection H as <- <-. by rewrite E, app_nil_r.
  - apply bind_ok in H as (p1 & w2 & H1 & H). apply (IH (before ++ [id]) p1 w2); [by rewrite <- app_assoc| | |done].
    + eapply Hstep; [exact E|done|done|by eapply schedule_step].
    + eapply keyed_stable; [done|by eapply leaves_schedule_job].
Qed.
End Steps.

(** ** The loop *)

(** What the rows hold never passes the larger of what they held before the
    pass and what the pool or the project allows. *)
Record bounded (d0 d : JobDB) : Prop := {
  bd_usage : forall p k, k <> DISK -> usage d p k <= Z.max (usage d0 p k) (capacity d0 p k);
  bd_project : forall pj k l, k <> DISK -> quota_of d0 pj !! dim_name k = Some l -> project_usage d pj k <= Z.max (project_usage d0 pj k) l;
  bd_running : forall pj l, quota_of d0 pj !! "max_running_jobs" = Some l -> running d pj <= Z.max (running d0 pj) l;
}.
Lemma bounded_refl d : bounded d d.
Proof. split; intros; lia. Qed.
Lemma bounded_same d0 d d' : bounded d0 d -> same_holds d d' -> bounded d0 d'.
Proof.
  intros [H1 H2 H3] H. split; intros.
  - rewrite (usage_same d d') by done. auto.
  - rewrite (project_usage_same d d') by done. auto.
  - unfold running in *. rewrite (running_same d d') by done. auto.
Qed.

Record pass_ok (d0 d : JobDB) (pass : Pass) : Prop := {
  po_stable : stable d0 d;
  po_ledger : ledger d pass;
  po_bounded : bounded d0 d;
}.
Lemma pass_ok_same d0 d d' pass : pass_ok d0 d pass -> stable d d' -> same_holds d d' -> pass_ok d0 d' pass.
Proof. intros [H1 H2 H3] Hs Hh. split; [by etransitivity|by eapply ledger_same|by eapply bounded_same]. Qed.
Lemma ledger_queue d pass f g : ledger d pass -> ledger d (pass <| pa_blocked ::= f |> <| pa_admissions ::= g |>).
Proof. by intros []; split. Qed.

Lemma running_takes job cs d d' pj : takes job cs d d' ->
  running d' pj <= running d pj + (if String.eqb (jb_project_id job) pj then 1 else 0).
Proof.
  intros [_ _ H]. specialize (H pj). apply subseteq_size in H. unfold running. destruct (String.eqb _ pj).
  - pose proof (size_union_alt (C := gset string) {[jb_id job]} (running_set d pj)) as E. rewrite size_singleton in E.
    assert (size (running_set d pj ∖ {[jb_id job]}) <= size (running_set d pj))%nat by (apply subseteq_size; set_solver). lia.
  - rewrite union_empty_l_L in H. lia.
Qed.

(** A gang within the quota and the capacity that are left. *)
Lemma bounded_takes d0 d d' pass project job spec plan : pass_ok d0 d pass -> takes job (js_components spec) d d' ->
  asks_as (requested_by_pool spec) (sp_request plan) -> projects d !! jb_project_id job = Some project ->
  quota_refused (jb_project_id job) project pass plan = false -> shortages (pools d) (pa_used pass) (sp_request plan) = ∅ ->
  bounded d0 d'.
Proof.
  intros [Hst Hl Hb] Ht Hask Hpj Hq Hs. destruct (quota_refused_ok d _ _ _ _ Hq Hl) as [Q1 Q2].
  assert (Hquota : quota_of d0 (jb_project_id job) = quota project) by (rewrite <- (st_quota _ _ Hst); unfold quota_of; by rewrite Hpj). split.
  - intros p k Hk. rewrite (tk_usage _ _ _ _ Ht). destruct (Hask k Hk) as [A _]. specialize (A p). rewrite requested_on in A.
    destruct (sp_request plan !! p) as [a|] eqn:Ea.
    + assert (G : usage d p k + amount k (amounts_at (sp_request plan) p) <= capacity d p k) by (eapply shortages_ok; eauto).
      unfold capacity in *. rewrite (st_pools _ _ Hst) in G. lia.
    + unfold amounts_at in A. rewrite Ea in A. cbn [default] in A. rewrite amounts_no_key in A. pose proof (bd_usage _ _ Hb p k Hk). lia.
  - intros pj k l Hk Hql. rewrite (tk_project _ _ _ _ Ht). destruct (String.eqb _ pj) eqn:E.
    + apply String.eqb_eq in E as <-. rewrite Hquota in Hql. destruct (Hask k Hk) as [_ A]. rewrite requested_total in A. specialize (Q1 k l Hk Hql). lia.
    + pose proof (bd_project _ _ Hb pj k l Hk Hql). lia.
  - intros pj l Hql. pose proof (running_takes _ _ _ _ pj Ht) as G. destruct (String.eqb _ pj) eqn:E.
    + apply String.eqb_eq in E as <-. rewrite Hquota in Hql. specialize (Q2 l Hql). lia.
    + pose proof (bd_running _ _ Hb pj l Hql). lia.
Qed.

Section Loop.
Context {P : Platform} {U : Unicode}.

Lemma expired_row now id d : let d1 := t_upd JOBS (alter (fun j => j <| jb_state := CANCELLING |> <| jb_phase := Some "deadline_exceeded" |>
    <| jb_updated_at := now |> <| jb_version ::= Z.succ |>) id) d in stable d d1 /\ same_holds d d1.
Proof.
  intros d1. assert (Hs : stable d d1) by (apply stable_jobs; by intros []). split; [done|]. by apply same_holdings_holds.
Qed.

Lemma pass_ok_step d0 now limit id w w' pass pass' : job_step now limit id w w' pass pass' -> pass_ok d0 (jw_db w) pass -> pass_ok d0 (jw_db w') pass'.
Proof.
  assert (Hquiet : forall d d' p, quiet d d' -> pass_ok d0 d p -> pass_ok d0 d' p)
    by (intros d d' p Hq Hp; eapply pass_ok_same; [done|apply Hq|by apply quiet_holds]).
  intros [Hq|d1 -> Hq|short Hq _|job spec plan asg project w1 job1 att created p3 _ Hj <- _ Hq Hask Hpj Hqr Hs _ _ Ha] Hp; [by eapply Hquiet| | |].
  - eapply Hquiet; [done|]. destruct (expired_row now id (jw_db w)). by eapply pass_ok_same.
  - eapply (Hquiet _ (jw_db w')) in Hp; [|done]. destruct Hp as [A [B1 B2 B3] C]. by split.
  - eapply (Hquiet _ (jw_db w1)) in Hp; [|done]. pose proof (admit_stable _ _ _ _ _ _ _ _ _ _ _ _ Ha) as Hst.
    destruct (admit_ok _ _ _ _ _ _ _ _ _ _ _ _ Ha) as ([L1 L2 L3] & T & _); [apply Hp|by rewrite (st_jobs _ _ (qu_stable _ _ Hq)), (job_project_row _ _ _ Hj)|].
    split; [etransitivity; [apply Hp|done]|by split|by eapply bounded_takes].
Qed.

(** A transaction that succeeds is the loop over the queue it found. *)
Lemma schedule_inv storage now limit w admitted w' : schedule storage now limit w = (Ok admitted, w') ->
  exists pass pass' active, first_pass (jw_db w) = Ok pass /\
    foldM (schedule_job storage now limit active) pass (queued (jw_db w)) w = (Ok pass', w') /\ admitted = pa_admissions pass'.
Proof.
  unfold schedule, job_transaction. destruct (schedule_body storage now limit w) as [[r|e] w1] eqn:H; intros [= -> ->].
  unfold schedule_body in H. apply bind_ok in H as (d & w1 & [= <- <-] & H). apply bind_ok in H as (pass & w1 & H1 & H).
  apply lift_ok in H1 as [H1 ->]. apply bind_ok in H as (pass' & w1 & H2 & [= <- <-]). eauto 6.
Qed.

Lemma schedule_ok storage now limit w admitted w' : schedule storage now limit w = (Ok admitted, w') -> keyed (jw_db w) ->
  exists pass, pass_ok (jw_db w) (jw_db w') pass /\ admitted = pa_admissions pass.
Proof.
  intros H Hk. apply schedule_inv in H as (pass & pass' & active & H1 & H2 & ->). exists pass'. split; [|done].
  apply first_pass_ledger in H1 as [Hl _]. eapply (schedule_loop (fun _ => pass_ok (jw_db w))); [done|done|split; [done|done|apply bounded_refl]|].
  intros. by eapply pass_ok_step.
Qed.
End Loop.

(** ** Fairness of the queue

    The limit of a pass, the order of the queue, and how often a blocked job
    may be passed by. *)

(** ** The queue *)
Lemma queued_NoDup d : keyed d -> NoDup (queued d).
Proof.
  intros Hk. unfold queued. rewrite merge_sort_Permutation. by apply rows_keys_NoDup.
Qed.

(** ** Passing by *)
Definition passed_by_limit (d : JobDB) : Prop := forall j x, jobs d !! j = Some x -> jb_backfill_count x <= MAX_BACKFILLS.
Lemma passed_calm d d' : passed_by_limit d -> calm d d' -> passed_by_limit d'.
Proof. intros H Hc j x' Hx. destruct (calm_row _ _ _ _ Hc Hx) as (x & Hx0 & [= _ _ ->]). by eapply H. Qed.
Lemma passed_alter d f k : passed_by_limit d -> (forall x, jb_backfill_count (f x) = jb_backfill_count x \/ jb_backfill_count (f x) = 0) ->
  passed_by_limit (t_upd JOBS (alter f k) d).
Proof. intros H Hf j x Hx. cbn in Hx. apply lookup_alter_Some in Hx as [(<- & y & Hy & ->)|[_ Hx]]; [destruct (Hf y) as [->| ->]; [by eapply H|done]|by eapply H]. Qed.

Section Passing.
Context {P : Platform} {U : Unicode}.

(** A job is counted at most once, and only below the limit. *)
Lemma count_all_limit request now l w w' : for_each l (count_backfill request now) w = (Ok tt, w') -> NoDup l.*1 -> passed_by_limit (jw_db w) ->
  (forall x j, x ∈ l -> overlaps request x.2 = true -> jobs (jw_db w) !! x.1 = Some j -> jb_backfill_count j < MAX_BACKFILLS) ->
  passed_by_limit (jw_db w').
Proof.
  revert w. induction l as [|[id short] l IH]; intros w H Hnd Hp Hb; cbn [for_each] in H; [by injection H as <-|].
  cbn in Hnd. apply NoDup_cons in Hnd as [Hn Hnd]. apply bind_ok in H as ([] & w1 & H1 & H). unfold count_backfill in H1. cbn [fst snd] in H1.
  destruct (overlaps request short) eqn:Eo; [|injection H1 as <-; apply (IH w); [done..|]; intros x j ?; apply Hb; by right].
  injection H1 as <-. eapply (IH _ H Hnd).
  - intros j x Hx. cbn in Hx. apply lookup_alter_Some in Hx as [(<- & y & Hy & ->)|[_ Hx]]; [|by eapply Hp]. cbn.
    specialize (Hb (id, short) y ltac:(by left) Eo Hy). lia.
  - intros x j Hx Ho. cbn. rewrite lookup_alter_ne; [intros; eapply Hb; eauto; by right|]. intros ->. apply Hn. by apply list_elem_of_fmap_2.
Qed.

(** What holds after the jobs [before] were considered. *)
Record passed_ok (before : list string) (d : JobDB) (pass : Pass) : Prop := {
  ps_limit : passed_by_limit d;
  ps_once : NoDup (pa_blocked pass).*1;
  ps_before : (pa_blocked pass).*1 ⊆ before;
  ps_ledger : ledger d pass;
}.

Lemma passed_step now limit id w w' pass pass' before : job_step now limit id w w' pass pass' -> keyed (jw_db w) -> id ∉ before ->
  passed_ok before (jw_db w) pass -> passed_ok (before ++ [id]) (jw_db w') pass'.
Proof.
  intros Hstep Hk Hid [Hp Hnd Hsub Hl]. assert (Hsub' : (pa_blocked pass).*1 ⊆ before ++ [id]) by set_solver.
  destruct Hstep as [Hq|d1 -> Hq|short Hq _|job spec plan asg project w1 job1 att created p3 _ Hj Ej _ Hq Hask Hpj Hqr Hs _ Hb Ha].
  - split; [eapply passed_calm; [done|apply Hq]|done..|]. eapply ledger_same; [by apply quiet_holds|done].
  - split; [eapply passed_calm; [|apply Hq]; apply passed_alter; [done|by left]|done..|]. destruct (expired_row now id (jw_db w)).
    eapply ledger_same; [by apply quiet_holds|]. by eapply ledger_same.
  - split; cbn; [eapply passed_calm; [done|apply Hq]| | |].
    + rewrite fmap_app, NoDup_app. cbn. split_and!; [done| |apply NoDup_singleton]. intros x Hx. apply Hsub in Hx. set_solver.
    + rewrite fmap_app. cbn. set_solver.
    + eapply (ledger_same _ (jw_db w')) in Hl; [|by apply quiet_holds]. destruct Hl as [L1 L2 L3]. by split.
  - assert (Hl1 : ledger (jw_db w1) pass) by (eapply ledger_same; [by apply quiet_holds|done]).
    destruct (admit_ok _ _ _ _ _ _ _ _ _ _ _ _ Ha Hl1) as ([L1 L2 L3] & _ & Eb & Eadm); [subst id; by rewrite (st_jobs _ _ (qu_stable _ _ Hq)), (job_project_row _ _ _ Hj)|].
    split; cbn; [|by rewrite Eb|by rewrite Eb|by split]. destruct (calm_admission _ _ _ _ _ _ _ _ _ _ _ _ Ha) as (d1 & w6 & Hc & _ & Hc6 & Hcount).
    rewrite Eb in Hcount. assert (Hp1 : passed_by_limit d1) by (eapply passed_calm; [|done]; eapply passed_calm; [done|apply Hq]).
    eapply count_all_limit; [done|done|eapply passed_calm; [|done]; apply passed_alter; [done|by right]|].
    intros x j6 Hx Ho Hj6. destruct (calm_row _ _ _ _ Hc6 Hj6) as (x1 & Hx1 & [= _ _ ->]). cbn in Hx1.
    apply lookup_alter_Some in Hx1 as [(_ & y & _ & ->)|[_ Hx1]]; [done|]. destruct (calm_row _ _ _ _ Hc Hx1) as (x0 & Hx0 & [= _ _ ->]).
    destruct (Hb x Hx) as (older & Hol & Hlt'). rewrite Hol in Hx0. injection Hx0 as <-. by apply Hlt'.
Qed.

Lemma admissions_step now limit id w w' pass pass' : job_step now limit id w w' pass pass' -> ledger (jw_db w) pass ->
  Z.of_nat (List.length (pa_admissions pass)) <= Z.max 0 limit -> Z.of_nat (List.length (pa_admissions pass')) <= Z.max 0 limit.
Proof.
  intros [Hq|d1 -> Hq|short Hq _|job spec plan asg project w1 job1 att created p3 Hlt Hj Ej _ Hq Hask Hpj Hqr Hs _ Hb Ha] Hl H; [done..|].
  assert (Hl1 : ledger (jw_db w1) pass) by (eapply ledger_same; [by apply quiet_holds|done]).
  destruct (admit_ok _ _ _ _ _ _ _ _ _ _ _ _ Ha Hl1) as (_ & _ & _ & Eadm); [subst id; by rewrite (st_jobs _ _ (qu_stable _ _ Hq)), (job_project_row _ _ _ Hj)|].
  cbn. rewrite length_app, Eadm. cbn. lia.
Qed.
End Passing.
