(* ===== verification/Devices.v ===== *)
(** * Gangs and their devices

    What an admission writes: one reservation per component of the job's
    specification, with exactly the devices it asked for; and that later steps
    of a pass leave them. *)

From stdpp Require Import base gmap strings list fin_maps fin_sets sorting.
From Stdlib Require Import ZArith Lia.
From S2P Require Import Prelude Json Order Domain Placement JobSpec JobSpecTheory JobModels Retention BlobBudget Scheduler Gang SchedulerLogic SchedulerTheory PassTheory.

(** ** The devices of an allocation *)
Definition device_of (aid : string) (g : GpuAllocation) : bool := negb (is_some (ga_released_at g)) && String.eqb (ga_allocation_id g) aid.
Definition devices (d : JobDB) (aid : string) : gset string := list_to_set (map ga_gpu_uuid (rows (device_of aid) (gpu_allocations d))).

Lemma elem_of_devices d aid u : u ∈ devices d aid <->
  exists k g, gpu_allocations d !! k = Some g /\ ga_released_at g = None /\ ga_allocation_id g = aid /\ ga_gpu_uuid g = u.
Proof.
  unfold devices. rewrite elem_of_list_to_set, list_elem_of_fmap. unfold device_of. split.
  - intros (g & -> & Hg). apply elem_of_rows in Hg as [Hp (k & Hk)]. apply andb_true_iff in Hp as [Hr Ha]. apply String.eqb_eq in Ha.
    exists k, g. by destruct (ga_released_at g).
  - intros (k & g & Hk & Hr & Ha & <-). exists g. split; [done|]. apply elem_of_rows. rewrite Hr, Ha, String.eqb_refl. eauto.
Qed.

(** A device is given out once at a time; devices belong to allocations. *)
Record devices_ok (d : JobDB) : Prop := {
  dv_once : forall k1 k2 g1 g2, gpu_allocations d !! k1 = Some g1 -> gpu_allocations d !! k2 = Some g2 ->
    ga_released_at g1 = None -> ga_released_at g2 = None -> ga_gpu_uuid g1 = ga_gpu_uuid g2 -> k1 = k2;
  dv_owned : forall k g, gpu_allocations d !! k = Some g -> is_Some (allocations d !! ga_allocation_id g);
}.
Lemma devices_disjoint d a b u : devices_ok d -> u ∈ devices d a -> u ∈ devices d b -> a = b.
Proof.
  intros Hd. rewrite !elem_of_devices. intros (k1 & g1 & H1 & R1 & <- & E1) (k2 & g2 & H2 & R2 & <- & E2).
  assert (k1 = k2) as -> by (eapply (dv_once _ Hd); eauto; congruence). congruence.
Qed.
Lemma devices_ok_same d d' : devices_ok d -> gpu_allocations d' = gpu_allocations d -> dom (allocations d) ⊆ dom (allocations d') -> devices_ok d'.
Proof.
  intros [H1 H2] E Hdom. split; rewrite E; [done|]. intros k g Hk. apply elem_of_dom, Hdom, elem_of_dom. by eapply H2.
Qed.

Lemma adds_gpus_new id pool us g g' : adds_gpus id pool us g g' -> forall k x, g' !! k = Some x ->
  g !! k = Some x \/ (ga_allocation_id x = id /\ ga_released_at x = None /\ ga_gpu_uuid x ∈ us).
Proof.
  induction 1 as [|u us g g' gid Hn Hf _ IH]; intros k x Hk; [by left|]. destruct (IH k x Hk) as [Hk'|(A & B & C)]; [|right; set_solver].
  apply lookup_insert_Some in Hk' as [[_ <-]|[_ Hk']]; [right; cbn; set_solver|by left].
Qed.
Lemma adds_gpus_old id pool us g g' : adds_gpus id pool us g g' -> g ⊆ g'.
Proof. induction 1 as [|u us g g' gid Hn Hf _ IH]; [done|]. etransitivity; [by apply insert_subseteq|done]. Qed.
Lemma adds_gpus_all id pool us g g' : adds_gpus id pool us g g' -> forall u, u ∈ us -> exists k x, g' !! k = Some x /\ ga_allocation_id x = id /\ ga_released_at x = None /\ ga_gpu_uuid x = u.
Proof.
  induction 1 as [|u us g g' gid Hn Hf Ha IH]; intros v Hv; [by apply elem_of_nil in Hv|]. apply elem_of_cons in Hv as [->|Hv]; [|by apply IH].
  exists gid, (mkGpuAllocation gid id pool u None). split; [|done]. eapply lookup_weaken; [|by eapply adds_gpus_old]. apply lookup_insert_eq.
Qed.
Definition given_once (m : gmap string GpuAllocation) : Prop := forall k1 k2 g1 g2, m !! k1 = Some g1 -> m !! k2 = Some g2 ->
  ga_released_at g1 = None -> ga_released_at g2 = None -> ga_gpu_uuid g1 = ga_gpu_uuid g2 -> k1 = k2.
Lemma adds_gpus_once id pool us g g' : adds_gpus id pool us g g' -> given_once g -> given_once g'.
Proof.
  induction 1 as [|u us g g' gid Hn Hf _ IH]; intros Hg; [done|]. apply IH. intros k1 k2 g1 g2 H1 H2 R1 R2 E.
  apply lookup_insert_Some in H1 as [[<- <-]|[N1 H1]], H2 as [[<- <-]|[N2 H2]]; [done| | |by eapply Hg]; cbn in E.
  - specialize (Hf _ _ H2 (eq_sym E)). by rewrite R2 in Hf.
  - specialize (Hf _ _ H1 E). by rewrite R1 in Hf.
Qed.

(** ** Later steps leave what an admission wrote *)
Definition reserved_columns (a : Allocation) := (holds a, al_id a, al_attempt_id a, al_component_id a, al_epoch a, al_released_at a).
Record builds (d d' : JobDB) : Prop := {
  bu_kept : forall k a, allocations d !! k = Some a -> exists a', allocations d' !! k = Some a' /\ reserved_columns a' = reserved_columns a;
  bu_pools : pools d' = pools d;
  bu_devices : forall k, is_Some (allocations d !! k) -> devices d' k = devices d k;
}.
#[export] Instance builds_preorder : PreOrder builds.
Proof.
  split; [split; eauto|]. intros d1 d2 d3 [A1 A2 A3] [B1 B2 B3]. split.
  - intros k a Hk. destruct (A1 k a Hk) as (a2 & H2 & E2), (B1 k a2 H2) as (a3 & H3 & E3). exists a3. split; congruence.
  - congruence.
  - intros k [a Ha]. destruct (A1 k a Ha) as (a2 & H2 & _). rewrite B3, A3; eauto.
Qed.
Lemma builds_dom d d' : builds d d' -> dom (allocations d) ⊆ dom (allocations d').
Proof. intros [H _ _] k Hk. apply elem_of_dom in Hk as [a Ha]. destruct (H k a Ha) as (a' & Ha' & _). apply elem_of_dom. eauto. Qed.
Lemma builds_holdings d d' : same holdings d d' -> pools d' = pools d -> builds d d'.
Proof.
  intros [= E1 E2] Hp. split; [rewrite E1; eauto|done|]. intros k _. unfold devices. by rewrite E2.
Qed.
Lemma builds_quiet d d' : quiet d d' -> builds d d'.
Proof. intros [H1 _ H3]. apply builds_holdings; [done|apply H1]. Qed.
Lemma devices_quiet d d' : quiet d d' -> devices_ok d -> devices_ok d'.
Proof. intros Hq Hd. eapply devices_ok_same; [done|by injection (qu_holdings _ _ Hq)|by apply builds_dom, builds_quiet]. Qed.

(** ** The reservations of a gang *)

(** Row [aid] is the reservation of component [c]. *)
Definition reservation (d : JobDB) (job_id attempt_id : string) (epoch : Z) (aid : string) (c : ComponentSpec) : Prop :=
  let r := cs_resources c in
  (exists a, allocations d !! aid = Some a /\ al_id a = aid /\ al_job_id a = job_id /\ al_attempt_id a = attempt_id /\ al_component_id a = cs_component_id c /\
     al_pool_id a = rq_pool_id r /\ allocation_amounts a = request_amounts r /\ al_state a = RESERVED /\ al_epoch a = epoch /\ al_released_at a = None) /\
  Z.of_nat (size (devices d aid)) = rq_gpu_count r /\ forall u, u ∈ devices d aid -> u ∈ pool_gpus (pools d) (rq_pool_id r).
Lemma reservation_builds d d' job_id attempt_id epoch aid c : builds d d' -> reservation d job_id attempt_id epoch aid c -> reservation d' job_id attempt_id epoch aid c.
Proof.
  intros [B1 B2 B3] ((a & Ha & Hcols) & Hs & Hp). destruct (B1 aid a Ha) as (a' & Ha' & E).
  split; [|by rewrite B3, B2 by eauto]. exists a'. split; [done|]. unfold reserved_columns, holds in E. injection E as E1 E2 E3 E4 E5 E6 E7 E8 E9 E10 E11 E12.
  destruct Hcols as (F1 & F2 & F3 & F4 & F5 & F6 & F7 & F8 & F9). split_and!; try congruence.
  rewrite <- F6. unfold allocation_amounts. congruence.
Qed.

(** What is left of an assignment is enough for the components to come. *)
Definition enough (d : JobDB) (asg : gmap string (list string)) (cs : list ComponentSpec) : Prop :=
  forall p, let l := default [] (asg !! p) in NoDup l /\ (forall u, u ∈ l -> u ∈ pool_gpus (pools d) p) /\ comps_on p GPU cs <= Z.of_nat (List.length l).
Lemma comps_on_cons p k c cs : comps_on p k (c :: cs) = (if String.eqb (rq_pool_id (cs_resources c)) p then amount k (request_amounts (cs_resources c)) else 0) + comps_on p k cs.
Proof. done. Qed.
Lemma comps_on_nonneg p cs : (forall c, c ∈ cs -> 0 <= rq_gpu_count (cs_resources c)) -> 0 <= comps_on p GPU cs.
Proof.
  induction cs as [|c cs IH]; intros H; [done|]. rewrite comps_on_cons. assert (0 <= comps_on p GPU cs) by (apply IH; intros ??; apply H; by right).
  specialize (H c ltac:(by left)). destruct (String.eqb _ _); cbn; lia.
Qed.
Lemma take_enough d asg c cs : enough d asg (c :: cs) -> (forall x, x ∈ c :: cs -> 0 <= rq_gpu_count (cs_resources x)) ->
  let r := cs_resources c in let gpus := (take_gpus asg r).1 in
  NoDup gpus /\ Z.of_nat (List.length gpus) = rq_gpu_count r /\ (forall u, u ∈ gpus -> u ∈ pool_gpus (pools d) (rq_pool_id r)) /\ enough d (take_gpus asg r).2 cs.
Proof.
  intros He Hn r gpus. destruct (He (rq_pool_id r)) as (Hd & Hp & Hl). unfold gpus, take_gpus. cbn [fst snd]. set (l := default [] (asg !! rq_pool_id r)) in *.
  assert (H0 : 0 <= comps_on (rq_pool_id r) GPU cs) by (apply comps_on_nonneg; intros ??; apply Hn; by right).
  rewrite comps_on_cons in Hl. fold r in Hl. rewrite String.eqb_refl in Hl. change (amount GPU (request_amounts r)) with (rq_gpu_count r) in Hl.
  specialize (Hn c ltac:(by left)). fold r in Hn. split_and!.
  - rewrite <- (take_drop (Z.to_nat (rq_gpu_count r)) l) in Hd. by apply NoDup_app in Hd as [? _].
  - rewrite length_take. lia.
  - intros u Hu. apply Hp. apply elem_of_take in Hu as (i & Hi & _). by eapply list_elem_of_lookup_2.
  - intros p. destruct (decide (rq_pool_id r = p)) as [<-|Hne].
    + rewrite lookup_insert_eq. cbn [default from_option]. unfold id. split_and!.
      * rewrite <- (take_drop (Z.to_nat (rq_gpu_count r)) l) in Hd. by apply NoDup_app in Hd as (_ & _ & ?).
      * intros u Hu. apply Hp. rewrite <- (take_drop (Z.to_nat (rq_gpu_count r)) l). apply elem_of_app. by right.
      * rewrite length_drop. lia.
    + rewrite lookup_insert_ne by done. specialize (He p). cbn zeta in He. rewrite comps_on_cons in He. fold r in He.
      apply String.eqb_neq in Hne. rewrite Hne in He. done.
Qed.

Section Gangs.
Context {P : Platform} {U : Unicode}.

Lemma assigned_enough d request occupied asg spec : (forall p, amount GPU (amounts_at request p) = comps_on p GPU (js_components spec)) ->
  assign_gpus (pool_gpus (pools d)) (gpu_counts request) occupied = Some asg -> enough d asg (js_components spec).
Proof.
  intros Hr Ha p. specialize (Hr p). unfold amounts_at in Hr. destruct (request !! p) as [a|] eqn:Ep.
  - assert (Hc : gpu_counts request !! p = Some (am_gpu a)) by (unfold gpu_counts; by rewrite lookup_fmap, Ep).
    destruct (assigned_at _ _ _ _ _ _ Ha Hc) as (l & -> & Hd & Hl & Hin). cbn in *. split_and!; [done|by intros u Hu; apply Hin|lia].
  - assert (Hc : gpu_counts request !! p = None) by (unfold gpu_counts; by rewrite lookup_fmap, Ep).
    rewrite (unassigned_at _ _ _ _ _ Ha Hc). cbn [default from_option] in *. rewrite amounts_no_key in Hr. rewrite <- Hr. cbn.
    split_and!; [constructor| |done]. intros u Hu. by apply elem_of_nil in Hu.
Qed.

Lemma allocate_builds job att now pass asg created c w pass' asg' created' w' :
  allocate job att now (pass, asg, created) c w = (Ok (pass', asg', created'), w') -> devices_ok (jw_db w) ->
  builds (jw_db w) (jw_db w') /\ devices_ok (jw_db w').
Proof.
  intros H Hd. pose proof (leaves_allocate _ _ _ _ _ _ _ _ H) as Hst. apply allocate_ok in H as (id & pool & Hid & Ha & _ & _ & _ & Hg).
  assert (Hdev : forall k g, gpu_allocations (jw_db w') !! k = Some g -> gpu_allocations (jw_db w) !! k = Some g \/ ga_allocation_id g = id).
  { intros k g Hk. destruct (adds_gpus_new _ _ _ _ _ Hg k g Hk) as [?|(? & _)]; auto. }
  assert (Hsub := adds_gpus_old _ _ _ _ _ Hg). split; [split|split].
  - intros k a Hk. exists a. rewrite Ha, lookup_insert_ne by (intros ->; congruence). done.
  - apply Hst.
  - intros k [a Hk]. apply set_eq. intros u. rewrite !elem_of_devices. split; intros (j & g & Hj & Hr & Hu & E).
    + destruct (Hdev j g Hj) as [?|Eid]; [eauto 8|]. congruence.
    + exists j, g. split_and!; [by eapply lookup_weaken|done..].
  - exact (adds_gpus_once _ _ _ _ _ Hg (dv_once _ Hd)).
  - intros k g Hk. destruct (Hdev k g Hk) as [Hk'| ->]; rewrite Ha; [|by rewrite lookup_insert_eq]. apply (dv_owned _ Hd) in Hk'.
    apply lookup_insert_is_Some'. by right.
Qed.

Lemma allocate_reserves job att now pass asg created c cs w pass' asg' created' w' :
  allocate job att now (pass, asg, created) c w = (Ok (pass', asg', created'), w') -> devices_ok (jw_db w) ->
  enough (jw_db w) asg (c :: cs) -> (forall x, x ∈ c :: cs -> 0 <= rq_gpu_count (cs_resources x)) ->
  enough (jw_db w') asg' cs /\ exists a, created' = created ++ [a] /\ reservation (jw_db w') (jb_id job) att (jb_epoch job) (al_id a) c.
Proof.
  intros H Hd He Hn. pose proof (leaves_allocate _ _ _ _ _ _ _ _ H) as Hst. destruct (take_enough _ _ _ _ He Hn) as (G1 & G2 & G3 & G4).
  apply allocate_ok in H as (id & pool & Hid & Ha & -> & _ & -> & Hg). set (r := cs_resources c) in *. set (gpus := (take_gpus asg r).1) in *.
  assert (Hdev : devices (jw_db w') id = list_to_set gpus).
  { apply set_eq. intros u. rewrite elem_of_list_to_set, elem_of_devices. split.
    - intros (k & g & Hk & Hr & Eid & <-). destruct (adds_gpus_new _ _ _ _ _ Hg k g Hk) as [Hk'|(_ & _ & ?)]; [|done].
      apply (dv_owned _ Hd) in Hk' as [x Hx]. congruence.
    - intros Hu. destruct (adds_gpus_all _ _ _ _ _ Hg u Hu) as (k & g & ? & ? & ? & ?). eauto 8. }
  split; [intros p; rewrite (st_pools _ _ Hst); apply G4|]. eexists. split; [done|]. split.
  - eexists. rewrite Ha, lookup_insert_eq. cbn. split_and!; try done.
  - cbn [al_id new_allocation]. rewrite Hdev, size_list_to_set by done. split; [done|]. intros u Hu. rewrite (st_pools _ _ Hst). apply G3. by apply elem_of_list_to_set in Hu.
Qed.

Lemma allocate_all_reserves job att now cs pass asg created w pass' asg' created' w' :
  foldM (allocate job att now) (pass, asg, created) cs w = (Ok (pass', asg', created'), w') -> devices_ok (jw_db w) ->
  enough (jw_db w) asg cs -> (forall x, x ∈ cs -> 0 <= rq_gpu_count (cs_resources x)) ->
  builds (jw_db w) (jw_db w') /\ devices_ok (jw_db w') /\
  exists news, created' = created ++ news /\ Forall2 (reservation (jw_db w') (jb_id job) att (jb_epoch job)) (map al_id news) cs.
Proof.
  revert pass asg created w. induction cs as [|c cs IH]; intros pass asg created w H Hd He Hn; cbn [foldM] in H.
  - injection H as <- <- <- <-. split_and!; [done|done|]. exists []. rewrite app_nil_r. split; [done|constructor].
  - apply bind_ok in H as ([[p1 a1] c1] & w1 & H1 & H). destruct (allocate_builds _ _ _ _ _ _ _ _ _ _ _ _ H1 Hd) as [B1 D1].
    destruct (allocate_reserves _ _ _ _ _ _ _ cs _ _ _ _ _ H1 Hd He Hn) as (E1 & a & -> & R1).
    destruct (IH _ _ _ _ H D1 E1) as (B2 & D2 & news & -> & F2); [intros ??; apply Hn; by right|].
    split_and!; [by etransitivity|done|]. exists (a :: news). split; [by rewrite <- app_assoc|]. cbn. constructor; [|done]. by eapply reservation_builds.
Qed.
End Gangs.

(** ** A pass *)
Section Passes.
Context {P : Platform} {U : Unicode}.

Lemma reserved_columns_alter f k (m : gmap string Allocation) : (forall a, reserved_columns (f a) = reserved_columns a) ->
  forall j a, m !! j = Some a -> exists a', alter f k m !! j = Some a' /\ reserved_columns a' = reserved_columns a.
Proof.
  intros Hf j a Hj. destruct (decide (k = j)) as [->|Hne]; [|rewrite lookup_alter_ne by done; eauto]. rewrite lookup_alter_eq, Hj. cbn. eauto.
Qed.
Lemma link_builds job links pass a : leaves builds (link_allocation job links pass a).
Proof.
  unfold link_allocation. leave. split; [|done|done]. apply reserved_columns_alter. by intros [].
Qed.
Lemma link_gpus job links pass a : leaves (same gpu_allocations) (link_allocation job links pass a).
Proof. unfold link_allocation. leave. Qed.

Lemma count_all_standings request now l w u w' : for_each l (count_backfill request now) w = (Ok u, w') -> standings (jw_db w') = standings (jw_db w).
Proof.
  intros H. change (same standings (jw_db w) (jw_db w')). eapply leaves_for_each; [apply _| |exact H]. intros x. unfold count_backfill. leave.
  unfold same, standings. cbn. by apply fmap_alter_same.
Qed.

Lemma count_all_holdings request now l w u w' : for_each l (count_backfill request now) w = (Ok u, w') -> same holdings (jw_db w) (jw_db w').
Proof. intros H. eapply leaves_for_each; [apply _|apply holds_count|exact H]. Qed.

(** An admission reserves the whole gang, and moves its job to a new epoch. *)
Lemma admission_whole job0 spec now plan asg pass w w' job attempt created p3 :
  admission job0 spec now plan asg pass w w' job attempt created p3 -> keyed (jw_db w) -> devices_ok (jw_db w) ->
  enough (jw_db w) asg (js_components spec) -> (forall c, c ∈ js_components spec -> 0 <= rq_gpu_count (cs_resources c)) ->
  builds (jw_db w) (jw_db w') /\ devices_ok (jw_db w') /\
  Forall2 (reservation (jw_db w') (jb_id job0) (ja_id attempt) (jb_epoch job)) (map al_id created) (js_components spec) /\
  (forall j, j <> jb_id job0 -> standings (jw_db w') !! j = standings (jw_db w) !! j) /\
  standings (jw_db w') !! jb_id job0 = Some (PROVISIONING, jb_epoch job) /\
  exists e, standings (jw_db w) !! jb_id job0 = Some e /\ jb_epoch job = Z.succ e.2.
Proof.
  intros Ha Hk Hd He Hn. pose proof Ha as Hcalm. apply calm_admission in Hcalm as (d1 & w6' & C1 & Cj & C2 & C3).
  destruct Ha as [a j p1 p2 p4 asg1 cr links w0 w1 w2 w3 w4 w5 w6 Q0 Ew Hj E1 E2 H2 H3 Q4 H5 Q6 H7].
  assert (B1 : builds (jw_db w) (jw_db w1)) by (rewrite Ew; etransitivity; [by apply builds_quiet|by apply builds_holdings]).
  assert (D1 : devices_ok (jw_db w1)) by (rewrite Ew; eapply devices_ok_same; [exact (devices_quiet _ _ Q0 Hd)|done|done]).
  apply allocate_all_reserves in H2 as (B2 & D2 & news & -> & R2); [|done|intros p; rewrite (bu_pools _ _ B1); apply He|done]. cbn [app] in *.
  assert (B : builds (jw_db w2) (jw_db w')).
  { etransitivity; [by eapply builds_quiet, quiet_reserve_all|]. etransitivity; [by apply builds_quiet|].
    etransitivity; [eapply leaves_foldM; [apply _|intros; apply link_builds|done]|]. etransitivity; [by apply builds_quiet|].
    apply builds_holdings; [by eapply count_all_holdings|]. by apply count_all_holds in H7 as [_ [? _ _]]. }
  split_and!.
  - etransitivity; [exact B1|]. by etransitivity.
  - eapply devices_ok_same; [exact D2| |by apply builds_dom]. transitivity (gpu_allocations (jw_db w5)); [|transitivity (gpu_allocations (jw_db w4))].
    + apply count_all_holdings in H7. injection H7 as _ ->. by injection (qu_holdings _ _ Q6) as _ ->.
    + change (same gpu_allocations (jw_db w4) (jw_db w5)). eapply leaves_foldM; [apply _|intros; apply link_gpus|exact H5].
    + injection (qu_holdings _ _ Q4) as _ ->. eapply quiet_reserve_all in H3. by injection (qu_holdings _ _ H3) as _ ->.
  - rewrite <- E1. eapply Forall2_impl; [exact R2|]. intros aid c. by apply reservation_builds.
  - intros k Hne. rewrite (count_all_standings _ _ _ _ _ _ C3), (calm_standings _ _ C2), <- (calm_standings _ _ C1).
    unfold standings. cbn. by rewrite !lookup_fmap, lookup_alter_ne.
  - rewrite (count_all_standings _ _ _ _ _ _ C3), (calm_standings _ _ C2). unfold standings. rewrite lookup_fmap, Cj. cbn in Cj. rewrite lookup_alter_eq in Cj.
    destruct (jobs d1 !! jb_id job0) as [x|]; [|done]. by injection Cj as <-.
  - rewrite <- (calm_standings _ _ C1). unfold standings. rewrite lookup_fmap. cbn in Cj. rewrite lookup_alter_eq in Cj.
    destruct (jobs d1 !! jb_id job0) as [x|]; [|done]. injection Cj as <-. eexists. split; [done|]. done.
Qed.

(** Admission [ad] is a whole gang for the job of [d0] it names. *)
Definition gang_placed (d0 d : JobDB) (ad : Admission) : Prop :=
  exists job spec, jobs d0 !! ad_job_id ad = Some job /\ jb_state job = QUEUED /\ validate_spec (jb_spec job) = Ok spec /\
    ad_epoch ad = Z.succ (jb_epoch job) /\ standings d !! ad_job_id ad = Some (PROVISIONING, ad_epoch ad) /\
    Forall2 (reservation d (ad_job_id ad) (ad_attempt_id ad) (ad_epoch ad)) (ad_allocation_ids ad) (js_components spec).

Record gangs_ok (d0 : JobDB) (before : list string) (d : JobDB) (pass : Pass) : Prop := {
  go_stable : stable d0 d;
  go_ledger : ledger d pass;
  go_devices : devices_ok d;
  go_untouched : forall j, j ∉ before -> standings d !! j = standings d0 !! j;
  go_placed : forall ad, ad ∈ pa_admissions pass -> ad_job_id ad ∈ before /\ gang_placed d0 d ad;
  go_once : NoDup (map ad_job_id (pa_admissions pass));
}.

Lemma gang_placed_later d0 d d' ad : builds d d' -> standings d' !! ad_job_id ad = standings d !! ad_job_id ad -> gang_placed d0 d ad -> gang_placed d0 d' ad.
Proof.
  intros B E (job & spec & H1 & H2 & H3 & H4 & H5 & H6). exists job, spec. split_and!; [done..|by rewrite E|].
  eapply Forall2_impl; [exact H6|]. intros aid c. by apply reservation_builds.
Qed.

Lemma gangs_later d0 before id d d' pass pass' : gangs_ok d0 before d pass -> stable d d' -> same_holds d d' -> builds d d' -> gpu_allocations d' = gpu_allocations d ->
  (forall j, j <> id -> standings d' !! j = standings d !! j) -> id ∉ before ->
  ledger d pass' -> pa_admissions pass' = pa_admissions pass -> gangs_ok d0 (before ++ [id]) d' pass'.
Proof.
  intros [S L D Un Pl On] Hs Hh Hb Hg Hst Hid Hl' Ead. split; rewrite ?Ead.
  - by etransitivity.
  - by eapply ledger_same.
  - eapply devices_ok_same; [done|done|by apply builds_dom].
  - intros j Hj. rewrite Hst by set_solver. apply Un. set_solver.
  - intros ad Ha. destruct (Pl ad Ha) as [Hin Hp]. split; [set_solver|]. eapply gang_placed_later; [done| |done]. apply Hst. set_solver.
  - done.
Qed.

Lemma gangs_step d0 now limit id before w w' pass pass' : job_step now limit id w w' pass pass' -> keyed (jw_db w) -> id ∈ queued d0 -> keyed d0 -> id ∉ before ->
  gangs_ok d0 before (jw_db w) pass -> gangs_ok d0 (before ++ [id]) (jw_db w') pass'.
Proof.
  intros Hstep Hk Hq Hk0 Hid HG.
  assert (Hquiet : forall d d' p, quiet d d' -> gangs_ok d0 before d pass -> ledger d p -> pa_admissions p = pa_admissions pass -> gangs_ok d0 (before ++ [id]) d' p).
  { intros d d' p Hqu G Lp Ep. eapply gangs_later; [exact G|apply Hqu|by apply quiet_holds|by apply builds_quiet|by injection (qu_holdings _ _ Hqu)| |done|done|done].
    intros j _. by rewrite (calm_standings _ _ (qu_calm _ _ Hqu)). }
  destruct Hstep as [Hqu|d1 -> Hqu|short Hqu _|job spec plan asg project w1 job1 att created p3 _ Hj Ej Hv Hqu Hask Hpj Hqr Hs Has _ Ha].
  - eapply Hquiet; [done|done|apply HG|done].
  - destruct (expired_row now id (jw_db w)) as [S1 H1]. eapply gangs_later; [exact HG| | | | | |done|apply HG|done].
    + etransitivity; [exact S1|apply Hqu].
    + eapply same_holds_trans; [exact H1|by apply quiet_holds].
    + etransitivity; [|by apply builds_quiet]. by apply builds_holdings.
    + by injection (qu_holdings _ _ Hqu).
    + intros j Hne. rewrite (calm_standings _ _ (qu_calm _ _ Hqu)). unfold standings. cbn. by rewrite !lookup_fmap, lookup_alter_ne.
  - eapply Hquiet; [done|done| |done]. destruct HG as [_ [L1 L2 L3] _ _ _ _]. by split.
  - assert (G1 : gangs_ok d0 (before ++ [id]) (jw_db w1) pass) by (eapply Hquiet; [done|done|apply HG|done]).
    destruct (validated_spec _ _ Hv) as [_ Hreq]. pose proof (admit_stable _ _ _ _ _ _ _ _ _ _ _ _ Ha) as Sa.
    destruct (admit_ok _ _ _ _ _ _ _ _ _ _ _ _ Ha) as ([L1 L2 L3] & _ & _ & Ead); [apply G1|by rewrite Ej, (st_jobs _ _ (qu_stable _ _ Hqu)), (job_project_row _ _ _ Hj)|].
    eapply admission_whole in Ha as (B & D & R & St & Sid & e & Ee & Ep); [|eapply keyed_stable; [exact Hk|apply Hqu]|apply G1| |].
    + rewrite Ej in *. split; cbn; rewrite ?Ead.
      * etransitivity; [apply G1|done].
      * by split.
      * done.
      * intros j Hj'. rewrite St; [by apply G1|]. intros ->. apply Hj'. apply elem_of_app. right. by left.
      * intros ad Had. apply elem_of_app in Had as [Had|Had].
        { destruct (go_placed _ _ _ _ HG ad Had) as [Hin _]. destruct (go_placed _ _ _ _ G1 ad Had) as [Hin' Hp]. split; [done|].
          eapply gang_placed_later; [done| |done]. apply St. intros E. by rewrite E in Hin. }
        apply list_elem_of_singleton in Had as ->. cbn. split; [apply elem_of_app; right; by left|].
        apply list_elem_of_fmap in Hq as (x & -> & Hx). rewrite merge_sort_Permutation in Hx. apply elem_of_rows in Hx as [Hst (k & Hx)]. apply bool_decide_eq_true in Hst.
        pose proof (Hk0 _ _ Hx) as <-. pose proof (go_untouched _ _ _ _ HG (jb_id x) Hid) as Eu. pose proof (same_spec _ _ _ _ _ (go_stable _ _ _ _ HG) Hx Hj) as Esp.
        rewrite (calm_standings _ _ (qu_calm _ _ Hqu)), Eu in Ee. unfold standings in Ee. rewrite lookup_fmap, Hx in Ee. injection Ee as <-. cbn in Ep.
        exists x, spec. rewrite <- Esp. split_and!; done.
      * rewrite map_app, NoDup_app. split_and!; [apply HG| |apply NoDup_singleton]. intros j Hj' Hj2. apply list_elem_of_singleton in Hj2 as ->. cbn in Hj'.
        apply list_elem_of_fmap in Hj' as (ad & E & Had). destruct (go_placed _ _ _ _ HG ad Had) as [Hin _]. congruence.
    + eapply assigned_enough; [|exact Has]. intros p. rewrite (proj1 (Hask GPU ltac:(done)) p). apply requested_on.
    + intros c Hc. by apply Hreq in Hc as [_ _ _ _ [? _] _].
Qed.
End Passes.
