(* ===== verification/RetentionTheory.v ===== *)
(** * The ledger of retained storage

    A project's [retained_bytes] is the sum of what its jobs' resources and
    logs are charged: every operation of the retention service moves both sides
    by the same amount. *)

From stdpp Require Import base gmap strings list fin_maps.
From Stdlib Require Import ZArith Lia Ascii.
From S2P Require Import Prelude Json Order Domain Placement JobSpec JobModels Retention BlobBudget Scheduler Gang SchedulerLogic SchedulerTheory.

(** ** Both sides *)
Definition charge_in (details : document) : Z :=
  if truthy (get_or_none details RELEASED_KEY) then 0
  else match get_or details CHARGED (JInt 0) with JInt n => n | _ => 0 end.
Definition charge_of (r : ProvisioningResource) : Z := charge_in (rs_details_json r).
Definition resource_of (d : JobDB) (pid : string) (r : ProvisioningResource) : Z :=
  if bool_decide (job_project d (rs_job_id r) = Some pid) then charge_of r else 0.
Definition log_of (d : JobDB) (pid : string) (c : LogChunk) : Z :=
  if bool_decide (job_project d (lc_job_id c) = Some pid) then lc_charged_bytes c else 0.
Definition charged_to (d : JobDB) (pid : string) : Z := sum_map (resource_of d pid) (resources d) + sum_map (log_of d pid) (log_chunks d).
Definition retained_by (d : JobDB) (pid : string) : option Z := pj_retained_bytes <$> projects d !! pid.
Definition balanced (d : JobDB) : Prop := forall pid n, retained_by d pid = Some n -> n = charged_to d pid.

(** A change of both sides: [n] more charged to [pid], [m] more retained. *)
Definition at_project (pid q : string) (n : Z) : Z := if String.eqb pid q then n else 0.
Record moves (pid : string) (n m : Z) (d d' : JobDB) : Prop := {
  mv_jobs : forall j, job_project d' j = job_project d j;
  mv_charged : forall q, charged_to d' q = charged_to d q + at_project pid q n;
  mv_retained : forall q, retained_by d' q = (fun b => b + at_project pid q m) <$> retained_by d q;
}.
Lemma moves_refl pid d : moves pid 0 0 d d.
Proof.
  split; [done| |]; intros q; unfold at_project; destruct (String.eqb _ _); rewrite ?Z.add_0_r; try done; destruct (retained_by d q); cbn; by rewrite ?Z.add_0_r.
Qed.
Lemma moves_trans {pid n1 m1 n2 m2 d1 d2 d3} : moves pid n1 m1 d1 d2 -> moves pid n2 m2 d2 d3 -> moves pid (n1 + n2) (m1 + m2) d1 d3.
Proof.
  intros [A1 A2 A3] [B1 B2 B3]. split; [intros j; by rewrite B1|intros q; rewrite B2, A2; unfold at_project; destruct (String.eqb _ _); lia|].
  intros q. rewrite B3, A3. destruct (retained_by d1 q); cbn; [|done]. f_equal. unfold at_project. destruct (String.eqb _ _); lia.
Qed.
Lemma moves_balanced pid n d d' : moves pid n n d d' -> balanced d -> balanced d'.
Proof.
  intros [H1 H2 H3] Hb q b Hq. rewrite H3 in Hq. destruct (retained_by d q) as [b0|] eqn:E; [|done]. injection Hq as <-. rewrite H2, (Hb q b0 E). done.
Qed.
(** A change of neither side is one for every project. *)
Definition level (d d' : JobDB) : Prop := forall pid, moves pid 0 0 d d'.
#[export] Instance level_preorder : PreOrder level.
Proof. split; [intros d pid; apply moves_refl|]. intros x y z H1 H2 pid. exact (moves_trans (H1 pid) (H2 pid)). Qed.

Lemma charged_same d d' q : resources d' = resources d -> log_chunks d' = log_chunks d -> (forall j, job_project d' j = job_project d j) -> charged_to d' q = charged_to d q.
Proof.
  intros E1 E2 Hj. unfold charged_to. rewrite E1, E2. f_equal; apply sum_map_ext; intros k v _; unfold resource_of, log_of; by rewrite Hj.
Qed.
Lemma moves_same pid d d' : resources d' = resources d -> log_chunks d' = log_chunks d -> (forall j, job_project d' j = job_project d j) ->
  (forall q, retained_by d' q = retained_by d q) -> moves pid 0 0 d d'.
Proof.
  intros E1 E2 Hj Hr. pose proof (moves_refl pid d) as [_ R2 R3]. split; [done|intros q; rewrite (charged_same d d') by done; apply R2|intros q; rewrite Hr; apply R3].
Qed.

(** A project's counter. *)
Lemma retained_alter d pid f q n : (forall p, pj_retained_bytes (f p) = pj_retained_bytes p + n) ->
  retained_by (t_upd PROJECTS (alter f pid) d) q = (fun b => b + at_project pid q n) <$> retained_by d q.
Proof.
  intros Hf. unfold retained_by, at_project. cbn. destruct (String.eqb pid q) eqn:E.
  - apply String.eqb_eq in E as ->. rewrite lookup_alter_eq. destruct (projects d !! q); cbn; [by rewrite Hf|done].
  - apply String.eqb_neq in E. rewrite lookup_alter_ne by done. destruct (projects d !! q); cbn; by rewrite ?Z.add_0_r.
Qed.
Lemma moves_project d pid f n : (forall p, pj_retained_bytes (f p) = pj_retained_bytes p + n) -> moves pid 0 n d (t_upd PROJECTS (alter f pid) d).
Proof.
  intros Hf. split; [done| |intros q; by apply retained_alter]. intros q. rewrite (charged_same d) by done. unfold at_project. destruct (String.eqb _ _); lia.
Qed.

(** A resource's charge. *)
Lemma moves_resource d pid id f r : resources d !! id = Some r -> rs_job_id (f r) = rs_job_id r -> job_project d (rs_job_id r) = Some pid ->
  moves pid (charge_of (f r) - charge_of r) 0 d (t_upd RESOURCES (alter f id) d).
Proof.
  intros Hr Hj Hp. pose proof (moves_refl pid d) as [_ _ R3]. split; [done| |exact R3]. intros q.
  assert (Ef : forall x, rs_job_id x = rs_job_id r -> resource_of d q x = at_project pid q (charge_of x)).
  { intros x Hx. unfold resource_of, at_project. rewrite Hx, Hp. destruct (String.eqb pid q) eqn:E.
    - apply String.eqb_eq in E as ->. by rewrite bool_decide_eq_true_2.
    - apply String.eqb_neq in E. by rewrite bool_decide_eq_false_2 by congruence. }
  transitivity (sum_map (resource_of d q) (alter f id (resources d)) + sum_map (log_of d q) (log_chunks d)); [done|].
  rewrite (sum_map_alter _ _ _ r) by done. rewrite (Ef r), (Ef (f r)) by done. unfold charged_to, at_project. destruct (String.eqb _ _); lia.
Qed.

(** ** Details *)
(** What an update of details does to the columns of the ledger. *)
Ltac details_simpl :=
  unfold charge_in, update_details, merge_dicts, get_or_none, get_or, has_key; cbn [fold_left fst snd app];
  rewrite ?assoc_assoc_set;
  repeat match goal with |- context[String.eqb ?a ?b] => let v := eval vm_compute in (String.eqb a b) in change (String.eqb a b) with v end; cbv iota.

Lemma charge_uncharged r : has_key CHARGED (rs_details_json r) = false -> charge_of r = 0.
Proof.
  unfold charge_of, charge_in, has_key, get_or. intros H. destruct (assoc CHARGED (rs_details_json r)); [done|]. by destruct (truthy _).
Qed.
Lemma charge_held r n : truthy (get_or_none (rs_details_json r) RELEASED_KEY) = false -> json_int (get_or (rs_details_json r) CHARGED (JInt 0)) = Ok n -> charge_of r = n.
Proof. unfold charge_of, charge_in. intros ->. by destruct (get_or _ _ _); intros [= ->]. Qed.
Lemma charge_held_key r n : truthy (get_or_none (rs_details_json r) RELEASED_KEY) = false -> json_int (get_or_none (rs_details_json r) CHARGED) = Ok n -> charge_of r = n.
Proof. intros H1 H2. apply charge_held; [done|]. unfold get_or_none, get_or in *. by destruct (assoc CHARGED _). Qed.

(** ** Operations *)
Section Operations.
Context {P : Platform}.

Definition moved (pid : string) (n m : Z) {A} (m0 : M JobWorld A) : Prop := forall w a w', m0 w = (Ok a, w') -> moves pid n m (jw_db w) (jw_db w').

Lemma reserve_project_moves pid amount w u w' : reserve_project_bytes pid amount w = (Ok u, w') -> moves pid 0 amount (jw_db w) (jw_db w') /\ resources (jw_db w') = resources (jw_db w)
  /\ log_chunks (jw_db w') = log_chunks (jw_db w).
Proof.
  unfold reserve_project_bytes. intros H. apply bind_ok in H as ([] & w1 & H1 & H). apply raise_if_ok in H1 as [_ ->].
  apply bind_ok in H as (o & w1 & [= <- <-] & H). apply bind_ok in H as (p & w1 & H1 & H). cbn in H1. destruct (projects (jw_db w) !! pid); [|done]. injection H1 as -> <-.
  apply bind_ok in H as ([] & w1 & H1 & H). apply raise_if_ok in H1 as [_ ->]. injection H as _ <-. split; [|done].
  apply moves_project. intros x. cbn. lia.
Qed.
Lemma release_project_moves pid amount bump w u w' : release_project_bytes pid amount bump w = (Ok u, w') -> moves pid 0 (- amount) (jw_db w) (jw_db w') /\ resources (jw_db w') = resources (jw_db w)
  /\ log_chunks (jw_db w') = log_chunks (jw_db w).
Proof. intros [= _ <-]. split; [|done]. apply moves_project. intros x. cbn. lia. Qed.

(** The resource, with the charge [n] in place of its charge. *)
Lemma set_resource_moves {pid id f r d w u w'} n : job_set RESOURCES id f w = (Ok u, w') -> resources (jw_db w) !! id = Some r -> rs_job_id (f r) = rs_job_id r ->
  job_project (jw_db w) (rs_job_id r) = Some pid -> rs_details_json (f r) = d -> charge_in d = n -> moves pid (n - charge_of r) 0 (jw_db w) (jw_db w').
Proof. intros [= _ <-] Hr Hj Hp <- <-. by apply moves_resource. Qed.

Lemma charge_moves id pid n w b w' r : charge_in_transaction id pid n w = (Ok b, w') -> resources (jw_db w) !! id = Some r ->
  job_project (jw_db w) (rs_job_id r) = Some pid -> exists k, moves pid k k (jw_db w) (jw_db w').
Proof.
  unfold charge_in_transaction. intros H Hr Hp. apply bind_ok in H as ([] & w1 & H1 & H). apply raise_if_ok in H1 as [_ ->].
  apply bind_ok in H as (o & w1 & [= <- <-] & H). cbn [t_get RESOURCES] in H. rewrite Hr in H. apply bind_ok in H as (r0 & w1 & [= <- <-] & H).
  destruct (has_key CHARGED (rs_details_json r)) eqn:Ek.
  { apply bind_ok in H as ([] & w1 & H1 & H). apply raise_if_ok in H1 as [_ ->]. injection H as _ <-. exists 0. apply moves_refl. }
  apply bind_ok in H as ([] & w1 & H1 & H). apply raise_if_ok in H1 as [_ ->]. apply bind_ok in H as ([] & w1 & H1 & H).
  apply reserve_project_moves in H1 as (M1 & E1 & _). apply bind_ok in H as ([] & w2 & H2 & [= _ <-]).
  assert (M2 : moves pid (n - charge_of r) 0 (jw_db w1) (jw_db w2))
    by (eapply (set_resource_moves n); [exact H2|by rewrite E1|reflexivity|by rewrite (mv_jobs _ _ _ _ _ M1)|cbn; reflexivity|by details_simpl]).
  exists n. pose proof (moves_trans M1 M2) as G. rewrite (charge_uncharged _ Ek), Z.add_0_r, Z.sub_0_r in G. exact G.
Qed.

Lemma reserve_pool_pure r pool n w u w' : reserve_pool_bytes r pool n w = (Ok u, w') -> w' = w.
Proof.
  unfold reserve_pool_bytes. destruct pool as [p|]; [|by intros [= _ ->]]. destruct (String.eqb _ _); [by intros [= _ ->]|]. intros H.
  apply bind_ok in H as (x & w1 & [= _ <-] & H). by apply raise_if_ok in H as [_ ->].
Qed.

Lemma reserve_moves id pid n pool w b w' r : reserve_in_transaction id pid n pool w = (Ok b, w') -> resources (jw_db w) !! id = Some r ->
  job_project (jw_db w) (rs_job_id r) = Some pid -> exists k, moves pid k k (jw_db w) (jw_db w').
Proof.
  unfold reserve_in_transaction. intros H Hr Hp. apply bind_ok in H as ([] & w1 & H1 & H). apply raise_if_ok in H1 as [_ ->].
  apply bind_ok in H as (o & w1 & [= <- <-] & H). cbn [t_get RESOURCES] in H. rewrite Hr in H. apply bind_ok in H as (r0 & w1 & [= <- <-] & H).
  do 3 (apply bind_ok in H as ([] & w1 & H1 & H); apply raise_if_ok in H1 as [_ ->]).
  destruct (has_key CHARGED (rs_details_json r)) eqn:Ek.
  { exists 0. destruct (settled_flag _).
    - apply bind_ok in H as (c & w1 & H1 & H). apply lift_ok in H1 as [_ ->]. apply bind_ok in H as ([] & w1 & H1 & [= _ <-]). apply raise_if_ok in H1 as [_ ->]. apply moves_refl.
    - apply bind_ok in H as ([] & w1 & H1 & [= _ <-]). apply raise_if_ok in H1 as [_ ->]. apply moves_refl. }
  apply bind_ok in H as ([] & w1 & H1 & H). apply reserve_pool_pure in H1 as ->. apply bind_ok in H as ([] & w1 & H1 & H).
  apply reserve_project_moves in H1 as (M1 & E1 & _). apply bind_ok in H as ([] & w2 & H2 & [= _ <-]).
  assert (M2 : moves pid (n - charge_of r) 0 (jw_db w1) (jw_db w2))
    by (eapply (set_resource_moves n); [exact H2|by rewrite E1|reflexivity|by rewrite (mv_jobs _ _ _ _ _ M1)|cbn; reflexivity|by details_simpl]).
  exists n. pose proof (moves_trans M1 M2) as G. rewrite (charge_uncharged _ Ek), Z.add_0_r, Z.sub_0_r in G. exact G.
Qed.

(** [_locked_resource] reads, and finds the project of the resource. *)
Lemma locked_ok id job_id w pid r pool w' : locked_resource id job_id w = (Ok (pid, r, pool), w') ->
  w' = w /\ resources (jw_db w) !! id = Some r /\ job_project (jw_db w) (rs_job_id r) = Some pid.
Proof.
  unfold locked_resource. intros H. apply bind_ok in H as (o & w1 & [= <- <-] & H). cbn [t_get RESOURCES] in H.
  apply bind_ok in H as (r0 & w1 & H1 & H). destruct (resources (jw_db w) !! id) as [r1|] eqn:Er; [|done]. injection H1 as -> <-.
  apply bind_ok in H as ([] & w1 & H1 & H). apply raise_if_ok in H1 as [Ho ->]. apply bind_ok in H as (pl & w1 & H1 & H).
  assert (w1 = w) as ->.
  { destruct (get_or_none _ _); try done; [by injection H1 as _ <-|]. apply bind_ok in H1 as (o & w2 & [= <- <-] & Hp). apply bind_ok in Hp as (p & w2 & H2 & [= _ <-]).
    cbn in H2. destruct (pools (jw_db w) !! _); [by injection H2 as _ <-|done]. }
  clear H1. apply bind_ok in H as (o & w1 & [= <- <-] & H). apply bind_ok in H as (j & w1 & H1 & H). cbn in H1. destruct (jobs (jw_db w) !! job_id) as [j0|] eqn:Ej; [|done].
  injection H1 as -> <-. injection H as <- <- _ <-. split_and!; [done|done|]. apply negb_false_iff, andb_true_iff in Ho as [Ho _]. apply String.eqb_eq in Ho as ->.
  unfold job_project. by rewrite Ej.
Qed.

Lemma job_transaction_ok {A} (m : M JobWorld A) w a w' : job_transaction m w = (Ok a, w') -> m w = (Ok a, w').
Proof. unfold job_transaction. by destruct (m w) as [[x|e] w1]. Qed.

Lemma settle_moves id job_id n w b w' : settle_resource id job_id n w = (Ok b, w') -> exists pid k, moves pid k k (jw_db w) (jw_db w').
Proof.
  unfold settle_resource. intros H. apply bind_ok in H as ([] & w1 & H1 & H). apply raise_if_ok in H1 as [_ ->]. apply job_transaction_ok in H.
  apply bind_ok in H as ([[pid r] pool] & w1 & H1 & H). apply locked_ok in H1 as (-> & Hr & Hp). exists pid. cbv zeta in H.
  apply bind_ok in H as ([] & w1 & H1 & H). apply raise_if_ok in H1 as [Hrel ->]. apply orb_false_iff in Hrel as [_ Hrel].
  apply bind_ok in H as ([] & w1 & H1 & H). apply raise_if_ok in H1 as [_ ->]. destruct (settled_flag _).
  { apply bind_ok in H as ([] & w1 & H1 & [= _ <-]). apply raise_if_ok in H1 as [_ ->]. exists 0. apply moves_refl. }
  apply bind_ok in H as ([] & w1 & H1 & H). apply raise_if_ok in H1 as [_ ->]. apply bind_ok in H as (charged & w1 & H1 & H). apply lift_ok in H1 as [Hc ->].
  apply bind_ok in H as (o & w1 & [= <- <-] & H). apply bind_ok in H as (p & w1 & H1 & H). cbn in H1. destruct (projects (jw_db w) !! pid); [|done]. injection H1 as -> <-.
  apply bind_ok in H as ([] & w1 & H1 & H). apply raise_if_ok in H1 as [_ ->]. apply bind_ok in H as ([] & w1 & H1 & H).
  apply release_project_moves in H1 as (M1 & E1 & _). apply bind_ok in H as ([] & w2 & H2 & [= _ <-]).
  assert (M2 : moves pid (n - charge_of r) 0 (jw_db w1) (jw_db w2)).
  { eapply (set_resource_moves n); [exact H2|by rewrite E1|reflexivity|by rewrite (mv_jobs _ _ _ _ _ M1)|cbn; reflexivity|].
    unfold get_or_none in Hrel. details_simpl. by rewrite Hrel. }
  exists (n - charge_of r). pose proof (moves_trans M1 M2) as G. rewrite (charge_held_key r charged) in * by done.
  replace (- (charged - n) + 0) with (n - charged) in G by lia. exact G.
Qed.

Lemma released_charge details t : charge_in (update_details details [(RELEASED_KEY, JBool true); ("retention_released_at", JStr t)]) = 0.
Proof. by details_simpl. Qed.

Lemma confirm_moves now id job_id w b w' : confirm_resource_deleted now id job_id w = (Ok b, w') -> exists pid k, moves pid k k (jw_db w) (jw_db w').
Proof.
  unfold confirm_resource_deleted. intros H. apply job_transaction_ok in H. apply bind_ok in H as ([[pid r] pool] & w1 & H1 & H). apply locked_ok in H1 as (-> & Hr & Hp). exists pid.
  apply bind_ok in H as ([] & w1 & H1 & H). apply raise_if_ok in H1 as [_ ->]. cbv zeta in H.
  destruct (truthy _) eqn:Hrel; [injection H as _ <-; exists 0; apply moves_refl|].
  apply bind_ok in H as (charged & w1 & H1 & H). apply lift_ok in H1 as [Hc ->].
  apply bind_ok in H as (o & w1 & [= <- <-] & H). apply bind_ok in H as (p & w1 & H1 & H). cbn in H1. destruct (projects (jw_db w) !! pid); [|done]. injection H1 as -> <-.
  apply bind_ok in H as ([] & w1 & H1 & H). apply raise_if_ok in H1 as [_ ->]. apply bind_ok in H as ([] & w1 & H1 & H).
  apply release_project_moves in H1 as (M1 & E1 & _). apply bind_ok in H as ([] & w2 & H2 & [= _ <-]).
  assert (M2 : moves pid (0 - charge_of r) 0 (jw_db w1) (jw_db w2))
    by (eapply (set_resource_moves 0); [exact H2|by rewrite E1|reflexivity|by rewrite (mv_jobs _ _ _ _ _ M1)|reflexivity|apply released_charge]).
  exists (- charged). pose proof (moves_trans M1 M2) as G. rewrite (charge_held r charged), Z.add_0_r in G by done. exact G.
Qed.

(** Purging a job: each of its charges once. *)
Definition resource_keys (d : JobDB) : Prop := forall k r, resources d !! k = Some r -> rs_id r = k.

Lemma release_row_moves now released r w released' w' pid : release_row now released r w = (Ok released', w') ->
  resources (jw_db w) !! rs_id r = Some r -> job_project (jw_db w) (rs_job_id r) = Some pid ->
  moves pid (released - released') 0 (jw_db w) (jw_db w') /\ log_chunks (jw_db w') = log_chunks (jw_db w) /\
  (forall k, k <> rs_id r -> resources (jw_db w') !! k = resources (jw_db w) !! k).
Proof.
  unfold release_row. cbv zeta. intros H Hr Hp. destruct (truthy _) eqn:Hrel.
  { injection H as <- <-. rewrite Z.sub_diag. split; [apply moves_refl|done]. }
  apply bind_ok in H as (n & w1 & H1 & H). apply lift_ok in H1 as [Hn ->]. apply bind_ok in H as ([] & w1 & H1 & [= <- <-]). split_and!.
  - replace (released - (released + n)) with (0 - n) by lia. rewrite <- (charge_held r n) by done.
    eapply (set_resource_moves 0); [exact H1|done|reflexivity|done|reflexivity|apply released_charge].
  - by injection H1 as <-.
  - intros k Hk. injection H1 as <-. cbn. by rewrite lookup_alter_ne.
Qed.

Lemma release_rows_moves now l pid released w released' w' : foldM (release_row now) released l w = (Ok released', w') -> NoDup (map rs_id l) ->
  (forall r, r ∈ l -> resources (jw_db w) !! rs_id r = Some r /\ job_project (jw_db w) (rs_job_id r) = Some pid) ->
  moves pid (released - released') 0 (jw_db w) (jw_db w') /\ log_chunks (jw_db w') = log_chunks (jw_db w).
Proof.
  revert released w. induction l as [|r l IH]; intros released w H Hn Hl; cbn [foldM] in H.
  - injection H as <- <-. rewrite Z.sub_diag. split; [apply moves_refl|done].
  - cbn in Hn. apply NoDup_cons in Hn as [Hin Hn]. apply bind_ok in H as (r1 & w1 & H1 & H).
    destruct (Hl r ltac:(by left)) as [Hr Hp]. destruct (release_row_moves _ _ _ _ _ _ _ H1 Hr Hp) as (M1 & E1 & Hk).
    destruct (IH _ _ H Hn) as [M2 E2].
    { intros x Hx. destruct (Hl x ltac:(by right)) as [Hx1 Hx2]. rewrite (mv_jobs _ _ _ _ _ M1). split; [|done]. rewrite Hk; [done|].
      intros E. apply Hin. rewrite <- E. by apply list_elem_of_fmap_2. }
    split; [|congruence]. pose proof (moves_trans M1 M2) as G. by replace (released - r1 + (r1 - released')) with (released - released') in G by lia.
Qed.

(** The log chunks of a job lose their charges. *)
Lemma moves_logs d pid f job_id : job_project d job_id = Some pid ->
  (forall c, lc_job_id (f c) = lc_job_id c /\ lc_charged_bytes (f c) = if String.eqb (lc_job_id c) job_id then 0 else lc_charged_bytes c) ->
  moves pid (- foldr Z.add 0 (map lc_charged_bytes (rows (fun c => String.eqb (lc_job_id c) job_id) (log_chunks d)))) 0 d (t_upd LOG_CHUNKS (fmap f) d).
Proof.
  intros Hp Hf. pose proof (moves_refl pid d) as [_ _ R3]. split; [done| |exact R3]. intros q.
  transitivity (sum_map (resource_of d q) (resources d) + sum_map (log_of d q) (f <$> log_chunks d)); [done|]. unfold charged_to.
  replace (foldr Z.add 0 (map lc_charged_bytes (rows (fun c => String.eqb (lc_job_id c) job_id) (log_chunks d))))
    with (sum_map (fun c => if String.eqb (lc_job_id c) job_id then lc_charged_bytes c else 0) (log_chunks d)).
  2: { rewrite <- sum_rows. generalize (rows (fun c => String.eqb (lc_job_id c) job_id) (log_chunks d)). intros l. induction l as [|c l IH]; [done|]. cbn. by rewrite IH. }
  enough (G : sum_map (log_of d q) (f <$> log_chunks d) = sum_map (log_of d q) (log_chunks d)
    - at_project pid q (sum_map (fun c => if String.eqb (lc_job_id c) job_id then lc_charged_bytes c else 0) (log_chunks d))).
  { rewrite G. unfold at_project. destruct (String.eqb _ _); lia. }
  rewrite !foldr_sum_map, map_to_list_fmap. generalize (map_to_list (log_chunks d)). intros l. induction l as [|[k c] l IH]; cbn.
  - unfold at_project. by destruct (String.eqb _ _).
  - rewrite IH. destruct (Hf c) as [E1 E2]. unfold log_of, at_project. rewrite E1, E2. destruct (String.eqb (lc_job_id c) job_id) eqn:Ej.
    + apply String.eqb_eq in Ej as ->. rewrite Hp. destruct (String.eqb pid q) eqn:E.
      * apply String.eqb_eq in E as ->. rewrite bool_decide_eq_true_2 by done. lia.
      * apply String.eqb_neq in E. rewrite bool_decide_eq_false_2 by congruence. lia.
    + destruct (String.eqb pid q); lia.
Qed.

(** Statements that move nothing. *)
Lemma level_same d d' : resources d' = resources d -> log_chunks d' = log_chunks d -> projects d' = projects d -> (forall j, job_project d' j = job_project d j) -> level d d'.
Proof. intros E1 E2 E3 Hj pid. apply moves_same; [done..|]. intros q. unfold retained_by. by rewrite E3. Qed.
Lemma level_jobs d f k : (forall x, jb_project_id (f x) = jb_project_id x) -> level d (t_upd JOBS (alter f k) d).
Proof. intros Hf. apply level_same; [done..|]. intros j. by apply job_project_alter. Qed.
Lemma level_resource d f k : (forall r, rs_details_json (f r) = rs_details_json r /\ rs_job_id (f r) = rs_job_id r) -> level d (t_upd RESOURCES (alter f k) d).
Proof.
  intros Hf pid. pose proof (moves_refl pid d) as [_ R2 R3]. split; [done| |exact R3]. intros q.
  transitivity (sum_map (resource_of d q) (alter f k (resources d)) + sum_map (log_of d q) (log_chunks d)); [done|].
  rewrite sum_map_alter_same; [apply R2|]. intros r _. destruct (Hf r) as [E1 E2]. unfold resource_of, charge_of. by rewrite E1, E2.
Qed.
Ltac level_tables := first [by apply level_jobs; intros []|by apply level_resource; intros []|by apply level_same].
Lemma level_event job kind v e payload now : leaves level (add_event job kind v e payload now).
Proof. unfold add_event, next_sequence. leave; level_tables. Qed.
Hint Resolve level_event : leaves.

Lemma request_expiry_level now limit : leaves level (request_expiry now limit).
Proof.
  unfold request_expiry. leave. apply leaves_transaction. leave. unfold request_expiry_of. leave; level_tables.
Qed.

Lemma purge_moves now job_id w n w' : confirm_job_data_deleted now job_id w = (Ok n, w') -> resource_keys (jw_db w) ->
  exists pid k, moves pid k k (jw_db w) (jw_db w').
Proof.
  unfold confirm_job_data_deleted. intros H Hk. apply job_transaction_ok in H. apply bind_ok in H as (o & w1 & [= <- <-] & H).
  apply bind_ok in H as (job & w1 & H1 & H). cbn in H1. destruct (jobs (jw_db w) !! job_id) as [j0|] eqn:Ej; [|done]. injection H1 as -> <-.
  cbv zeta in H. set (pid := jb_project_id job) in *. assert (Hp : job_project (jw_db w) job_id = Some pid) by (unfold job_project; by rewrite Ej). exists pid.
  apply bind_ok in H as ([] & w1 & H1 & H). apply raise_if_ok in H1 as [_ ->]. apply bind_ok in H as (owned & w1 & [= <- <-] & H). cbn [t_get RESOURCES] in H.
  set (owned := rows _ (resources (jw_db w))) in *. apply bind_ok in H as ([] & w1 & H1 & H). apply raise_if_ok in H1 as [_ ->].
  apply bind_ok in H as (released & w1 & H1 & H). apply (release_rows_moves _ _ pid) in H1 as [M1 E1].
  2: { by apply rows_keys_NoDup. }
  2: { intros r Hr. apply elem_of_rows in Hr as [Hj (k & Hr)]. apply andb_true_iff in Hj as [Hj _]. apply String.eqb_eq in Hj. by rewrite (Hk _ _ Hr), Hj. }
  apply bind_ok in H as (logs & w2 & [= <- <-] & H). cbn [t_get LOG_CHUNKS] in H. rewrite E1 in H.
  apply bind_ok in H as ([] & w2 & H2 & H). injection H2 as E2.
  assert (M2 := moves_logs (jw_db w1) pid (fun c => if String.eqb (lc_job_id c) job_id
      then c <| lc_charged_bytes := 0 |> <| lc_data := "" |> <| lc_deleted_at ::= fun t => Some (default now t) |> else c) job_id
      ltac:(by rewrite (mv_jobs _ _ _ _ _ M1)) ltac:(intros c; cbv beta; destruct (String.eqb (lc_job_id c) job_id); done)).
  rewrite E1 in M2. set (logged := foldr Z.add 0 _) in *.
  assert (M12 : moves pid (- (released + logged)) 0 (jw_db w) (jw_db w2)).
  { pose proof (moves_trans M1 M2) as G. rewrite <- E2. replace (- (released + logged)) with (0 - released + - logged) by lia. exact G. }
  apply bind_ok in H as ([] & w3 & H3 & H).
  assert (L3 : level (jw_db w2) (jw_db w3)).
  { revert H3. match goal with |- ?m w2 = _ -> _ => assert (Hl : leaves level m) end; [|apply Hl]. leave. by apply level_resource. }
  apply bind_ok in H as (o & w4 & [= <- <-] & H). apply bind_ok in H as (p & w4 & H4 & H). cbn in H4. destruct (projects (jw_db w3) !! pid); [|done]. injection H4 as -> <-.
  apply bind_ok in H as ([] & w4 & H4 & H). apply raise_if_ok in H4 as [_ ->]. apply bind_ok in H as ([] & w4 & H4 & H). apply release_project_moves in H4 as (M4 & _).
  assert (L5 : level (jw_db w4) (jw_db w')).
  { revert H. match goal with |- ?m w4 = _ -> _ => assert (Hl : leaves level m) end; [|apply Hl]. leave; level_tables. }
  exists (- (released + logged)). pose proof (moves_trans (moves_trans (moves_trans M12 (L3 pid)) M4) (L5 pid)) as G.
  by rewrite ?Z.add_0_r in G.
Qed.

(** The chunk handed to the ledger is the row of its identifier, or a new one. *)
Definition chunk_row (d : JobDB) (chunk : LogChunk) : Prop :=
  match log_chunks d !! lc_id chunk with
  | Some c => lc_job_id c = lc_job_id chunk /\ lc_charged_bytes c = lc_charged_bytes chunk
  | None => lc_charged_bytes chunk = 0
  end.
Lemma moves_chunk d pid chunk c' : chunk_row d chunk -> job_project d (lc_job_id chunk) = Some pid -> lc_job_id c' = lc_job_id chunk ->
  moves pid (lc_charged_bytes c' - lc_charged_bytes chunk) 0 d (t_upd LOG_CHUNKS (insert (lc_id chunk) c') d).
Proof.
  intros Hc Hp Hj. pose proof (moves_refl pid d) as [_ _ R3]. split; [done| |exact R3]. intros q.
  assert (Ef : forall x, lc_job_id x = lc_job_id chunk -> log_of d q x = at_project pid q (lc_charged_bytes x)).
  { intros x Hx. unfold log_of, at_project. rewrite Hx, Hp. destruct (String.eqb pid q) eqn:E.
    - apply String.eqb_eq in E as ->. by rewrite bool_decide_eq_true_2.
    - apply String.eqb_neq in E. by rewrite bool_decide_eq_false_2 by congruence. }
  transitivity (sum_map (resource_of d q) (resources d) + sum_map (log_of d q) (<[lc_id chunk := c']> (log_chunks d))); [done|].
  unfold chunk_row in Hc. unfold charged_to. destruct (log_chunks d !! lc_id chunk) as [c|] eqn:E.
  - destruct Hc as [H1 H2]. rewrite (sum_map_insert _ _ _ c) by done. rewrite (Ef c), (Ef c'), H2 by done. unfold at_project. destruct (String.eqb _ _); lia.
  - rewrite sum_map_insert_new, (Ef c') by done. unfold at_project. destruct (String.eqb _ _); lia.
Qed.

Lemma put_chunk_moves {pid chunk c' w u w'} n : job_update LOG_CHUNKS (insert (lc_id chunk) c') w = (Ok u, w') -> chunk_row (jw_db w) chunk ->
  job_project (jw_db w) (lc_job_id chunk) = Some pid -> lc_job_id c' = lc_job_id chunk -> lc_charged_bytes c' = n ->
  moves pid (n - lc_charged_bytes chunk) 0 (jw_db w) (jw_db w') /\ resources (jw_db w') = resources (jw_db w).
Proof. intros [= _ <-] Hc Hp Hj <-. split; [by apply moves_chunk|done]. Qed.

Lemma budget_project pid d budget chunk : log_budget_owned pid (jobs d !! lc_job_id chunk) budget chunk = true -> job_project d (rs_job_id budget) = Some pid.
Proof.
  unfold log_budget_owned. destruct (jobs d !! lc_job_id chunk) as [j|] eqn:Ej; [|done]. intros H.
  repeat match type of H with _ && _ = true => apply andb_true_iff in H as [H ?] end. unfold job_project.
  match goal with E : String.eqb (rs_job_id budget) _ = true |- _ => apply String.eqb_eq in E as -> end. rewrite Ej. cbn. by apply String.eqb_eq in H as ->.
Qed.

Lemma charge_log_moves pid chunk budget w b w' : charge_log_in_transaction pid chunk budget w = (Ok b, w') -> chunk_row (jw_db w) chunk ->
  job_project (jw_db w) (lc_job_id chunk) = Some pid -> exists k, moves pid k k (jw_db w) (jw_db w').
Proof.
  unfold charge_log_in_transaction. cbv zeta. intros H Hc Hp. apply bind_ok in H as ([] & w1 & H1 & H). apply raise_if_ok in H1 as [_ ->]. destruct budget as [bid|].
  - apply bind_ok in H as (o & w1 & [= <- <-] & H). apply bind_ok in H as (r & w1 & H1 & H). cbn in H1. destruct (resources (jw_db w) !! bid) as [r0|] eqn:Er; [|done]. injection H1 as -> <-.
    apply bind_ok in H as (job & w1 & [= <- <-] & H). apply bind_ok in H as ([] & w1 & H1 & H). apply raise_if_ok in H1 as [Ho ->].
    apply bind_ok in H as (o & w1 & [= <- <-] & H). apply bind_ok in H as (p & w1 & H1 & H). cbn in H1. destruct (projects (jw_db w) !! pid); [|done]. injection H1 as -> <-.
    destruct (log_ledger p r) as [[[maximum consumed] last]|]; [|done]. destruct (lc_sequence chunk <=? last).
    { apply bind_ok in H as (o & w1 & [= <- <-] & H). apply bind_ok in H as ([] & w1 & H1 & [= _ <-]). apply raise_if_ok in H1 as [_ ->]. exists 0. apply moves_refl. }
    apply bind_ok in H as ([] & w1 & H1 & H). apply raise_if_ok in H1 as [Hz ->]. apply negb_false_iff, Z.eqb_eq in Hz.
    apply bind_ok in H as ([] & w1 & H1 & H). apply bind_ok in H as ([] & w2 & H2 & [= _ <-]).
    destruct (put_chunk_moves 0 H1 Hc Hp eq_refl eq_refl) as [M1 E1]. apply negb_false_iff, budget_project in Ho. exists 0.
    assert (M2 : moves pid (charge_of r - charge_of r) 0 (jw_db w1) (jw_db w2)).
    { eapply (set_resource_moves (charge_of r)); [exact H2|by rewrite E1|reflexivity|by rewrite (mv_jobs _ _ _ _ _ M1)|cbn; reflexivity|].
      unfold charge_of. by details_simpl. }
    pose proof (moves_trans M1 M2) as G. by rewrite Z.sub_diag, Hz in G.
  - destruct (negb _) eqn:Ez. { apply bind_ok in H as ([] & w1 & H1 & [= _ <-]). apply raise_if_ok in H1 as [_ ->]. exists 0. apply moves_refl. }
    apply negb_false_iff, Z.eqb_eq in Ez. apply bind_ok in H as ([] & w1 & H1 & H). apply reserve_project_moves in H1 as (M1 & _ & E1).
    apply bind_ok in H as ([] & w2 & H2 & [= _ <-]). exists (utf8_len (lc_data chunk)).
    destruct (put_chunk_moves (pid := pid) (utf8_len (lc_data chunk)) H2) as [M2 _]; [unfold chunk_row; by rewrite E1|by rewrite (mv_jobs _ _ _ _ _ M1)|done|done|].
    pose proof (moves_trans M1 M2) as G. by rewrite Ez, Z.add_0_r, Z.sub_0_r in G.
Qed.

(** ** A collection *)

(** Rows other than [rid] may change, but not whose they are. *)
Record same_owners (rid : string) (d d' : JobDB) : Prop := {
  so_jobs : forall k, rs_job_id <$> resources d' !! k = rs_job_id <$> resources d !! k;
  so_row : resources d' !! rid = resources d !! rid;
}.

Lemma transfer_child_moves reservation settled left cid w left' w' pid rid : transfer_child reservation settled left cid w = (Ok left', w') -> cid <> rid ->
  (forall child, resources (jw_db w) !! cid = Some child -> job_project (jw_db w) (rs_job_id child) = Some pid) ->
  moves pid (left.1 - left'.1) 0 (jw_db w) (jw_db w') /\ same_owners rid (jw_db w) (jw_db w') /\ (settled = true -> left'.1 = left.1).
Proof.
  unfold transfer_child. cbv zeta. intros H Hne Hp. apply bind_ok in H as (o & w1 & [= <- <-] & H). apply bind_ok in H as (child & w1 & H1 & H). cbn in H1.
  destruct (resources (jw_db w) !! cid) as [c|] eqn:Ec; [|done]. injection H1 as -> <-. specialize (Hp child eq_refl).
  destruct (has_key CHARGED (rs_details_json child)) eqn:Ek.
  { apply bind_ok in H as ([] & w1 & H1 & [= <- <-]). apply raise_if_ok in H1 as [_ ->]. rewrite Z.sub_diag. split_and!; [apply moves_refl|done|done]. }
  apply bind_ok in H as ([] & w1 & H1 & H). apply raise_if_ok in H1 as [Hs ->]. apply orb_false_iff in Hs as [Hs _].
  apply bind_ok in H as ([] & w1 & H1 & [= <- <-]). cbn. split_and!.
  - replace (left.1 - (left.1 - rs_size_bytes child)) with (rs_size_bytes child - charge_of child) by (rewrite (charge_uncharged child) by done; lia).
    eapply (set_resource_moves (rs_size_bytes child)); [exact H1|done|reflexivity|done|cbn; reflexivity|].
    destruct (is_none _); by details_simpl.
  - injection H1 as <-. split.
    + intros k. cbn. destruct (decide (cid = k)) as [<-|?]; [rewrite lookup_alter_eq|by rewrite lookup_alter_ne]. by rewrite Ec.
    + cbn. by rewrite lookup_alter_ne.
  - by rewrite Hs.
Qed.

Lemma transfer_children_moves reservation settled ids left w left' w' pid rid : foldM (transfer_child reservation settled) left ids w = (Ok left', w') -> rid ∉ ids ->
  (forall cid child, cid ∈ ids -> resources (jw_db w) !! cid = Some child -> job_project (jw_db w) (rs_job_id child) = Some pid) ->
  moves pid (left.1 - left'.1) 0 (jw_db w) (jw_db w') /\ resources (jw_db w') !! rid = resources (jw_db w) !! rid /\ (settled = true -> left'.1 = left.1).
Proof.
  revert left w. induction ids as [|cid ids IH]; intros left w H Hn Hp; cbn [foldM] in H.
  - injection H as <- <-. rewrite Z.sub_diag. split_and!; [apply moves_refl|done|done].
  - apply not_elem_of_cons in Hn as [Hne Hn]. apply bind_ok in H as (l1 & w1 & H1 & H).
    destruct (transfer_child_moves _ _ _ _ _ _ _ pid rid H1 (not_eq_sym Hne)) as (M1 & [O1 O2] & S1); [intros c; apply Hp; by left|].
    destruct (IH _ _ H Hn) as (M2 & E2 & S2).
    { intros k c Hk Hc. rewrite (mv_jobs _ _ _ _ _ M1). specialize (O1 k). rewrite Hc in O1. destruct (resources (jw_db w) !! k) as [c0|] eqn:E0; [|done].
      injection O1 as ->. eapply Hp; [by right|done]. }
    split_and!; [|congruence|intros Hs; rewrite (S2 Hs); by apply S1].
    pose proof (moves_trans M1 M2) as G. by replace (left.1 - l1.1 + (l1.1 - left'.1)) with (left.1 - left'.1) in G by lia.
Qed.

Lemma collected_all reservation job_id ids w manifest w' :
  mapM (fun id => let* child := job_get RESOURCES id in let* child := row_or child AttributeError in lift (collected reservation job_id child)) ids w = (Ok manifest, w') ->
  w' = w /\ forall cid, cid ∈ ids -> exists child, resources (jw_db w) !! cid = Some child /\ rs_job_id child = job_id /\ rs_id child <> rs_id reservation.
Proof.
  revert manifest. induction ids as [|id ids IH]; intros manifest H; cbn [mapM] in H; [injection H as _ <-; split; [done|]; intros ? Hx; by apply elem_of_nil in Hx|].
  apply bind_ok in H as (x & w1 & H1 & H). apply bind_ok in H as (xs & w2 & H2 & [= _ <-]).
  apply bind_ok in H1 as (o & w3 & [= <- <-] & H1). apply bind_ok in H1 as (c & w3 & H3 & H1). cbn in H3. destruct (resources (jw_db w) !! id) as [c0|] eqn:Ec; [|done]. injection H3 as -> <-.
  apply lift_ok in H1 as [Hcol ->]. destruct (IH _ H2) as [-> G]. split; [done|]. intros cid Hin. apply elem_of_cons in Hin as [->|Hin]; [|by apply G].
  exists c. split; [done|]. unfold collected in Hcol. cbv zeta in Hcol. destruct (_ || negb (in_bytes _)) eqn:E; [done|]. bool_simpl.
  repeat match goal with E : String.eqb _ _ = _ |- _ => first [apply String.eqb_neq in E|apply String.eqb_eq in E] end.
  split; [|done]. match goal with Ho : owned_by c job_id = true |- _ => apply andb_true_iff in Ho as [Ho _]; by apply String.eqb_eq in Ho end.
Qed.

Lemma transfer_moves rid pid children retain_unused w r w' : transfer_reserved_in_transaction rid pid children retain_unused w = (Ok r, w') -> resource_keys (jw_db w) ->
  retain_unused = true \/ (forall x, resources (jw_db w) !! rid = Some x -> truthy (get_or (rs_details_json x) SETTLED (JBool false)) = false) ->
  exists k, moves pid k k (jw_db w) (jw_db w').
Proof.
  unfold transfer_reserved_in_transaction. cbv zeta. intros H Hk Hr. apply bind_ok in H as ([] & w1 & H1 & H). apply raise_if_ok in H1 as [_ ->].
  apply bind_ok in H as (o & w1 & [= <- <-] & H). apply bind_ok in H as (reservation & w1 & H1 & H). cbn in H1.
  destruct (resources (jw_db w) !! rid) as [r0|] eqn:Er; [|done]. injection H1 as -> <-.
  apply bind_ok in H as (job & w1 & [= <- <-] & H). cbn [t_get JOBS] in H. apply bind_ok in H as ([] & w1 & H1 & H). apply raise_if_ok in H1 as [Ho ->].
  assert (Hp : job_project (jw_db w) (rs_job_id reservation) = Some pid).
  { unfold job_project. destruct (jobs (jw_db w) !! _) as [j|]; [|done]. cbn. repeat apply orb_false_iff in Ho as [Ho _].
    apply negb_false_iff, String.eqb_eq in Ho. by rewrite Ho. }
  apply bind_ok in H as ([] & w1 & H1 & H). apply raise_if_ok in H1 as [Hrel ->]. apply orb_false_iff in Hrel as [_ Hrel].
  apply bind_ok in H as (available & w1 & H1 & H). apply lift_ok in H1 as [Hav ->]. apply bind_ok in H as (manifest & w1 & H1 & H). apply collected_all in H1 as [-> Hcol].
  apply bind_ok in H as ([] & w1 & H1 & H). apply raise_if_ok in H1 as [_ ->]. set (settled := truthy (get_or (rs_details_json reservation) SETTLED (JBool false))) in *.
  apply bind_ok in H as ([left transferred] & w1 & H1 & H). apply (transfer_children_moves _ _ _ _ _ _ _ pid rid) in H1 as (M1 & E1 & S1).
  2: { intros Hin. destruct (Hcol _ Hin) as (c & Hc & _ & Hid). congruence. }
  2: { intros cid c Hin Hc. destruct (Hcol _ Hin) as (c0 & Hc0 & Hj & _). rewrite Hc in Hc0. injection Hc0 as <-. by rewrite Hj. }
  cbn [fst] in *. apply bind_ok in H as (o & w2 & [= <- <-] & H). apply bind_ok in H as (p & w2 & H2 & H). cbn in H2. destruct (projects (jw_db w1) !! pid); [|done]. injection H2 as -> <-.
  apply bind_ok in H as ([] & w2 & H2 & H). apply raise_if_ok in H2 as [_ ->]. set (released := if _ && _ then left else 0) in *.
  apply bind_ok in H as ([] & w2 & H2 & H). apply release_project_moves in H2 as (M2 & E2 & _). apply bind_ok in H as (before & w3 & H3 & H). apply lift_ok in H3 as [_ ->].
  apply bind_ok in H as ([] & w3 & H3 & [= _ <-]). set (remaining := if retain_unused then left else 0) in *.
  pose proof (moves_trans M1 M2) as M12. assert (M3 : moves pid (remaining - available) 0 (jw_db w2) (jw_db w3)).
  { rewrite <- (charge_held reservation available) by done. eapply (set_resource_moves remaining); [exact H3|by rewrite E2, E1|reflexivity|by rewrite (mv_jobs _ _ _ _ _ M12)|cbn; reflexivity|].
    unfold get_or_none in Hrel. details_simpl. by rewrite Hrel. }
  exists (- released). pose proof (moves_trans M12 M3) as G. replace (0 + - released + 0) with (- released) in G by lia.
  replace (available - left + 0 + (remaining - available)) with (- released) in G; [exact G|]. unfold remaining, released.
  destruct Hr as [->|Hr]; [cbn; rewrite andb_false_r; lia|]. assert (Es : settled = false) by (by apply Hr). rewrite Es. destruct retain_unused; cbn; lia.
Qed.

(** The keys of the resource rows. *)
Definition resource_ids (d : JobDB) : gmap string string := rs_id <$> resources d.
Lemma keys_same d d' : same resource_ids d d' -> resource_keys d -> resource_keys d'.
Proof.
  intros H Hk k r Hr. apply (f_equal (fun m : gmap string string => m !! k)) in H. unfold resource_ids in H. rewrite !lookup_fmap, Hr in H. cbn in H.
  destruct (resources d !! k) as [r0|] eqn:E; [|done]. injection H as ->. by eapply Hk.
Qed.
Lemma ids_resource d f k : (forall r, rs_id (f r) = rs_id r) -> same resource_ids d (t_upd RESOURCES (alter f k) d).
Proof. intros Hf. unfold same, resource_ids. cbn. by apply fmap_alter_same. Qed.
Ltac ids_tables := first [by apply ids_resource; intros []|done].
Lemma ids_reserve_project id n : leaves (same resource_ids) (reserve_project_bytes id n).
Proof. unfold reserve_project_bytes. leave. Qed.
Lemma ids_release_project id n b : leaves (same resource_ids) (release_project_bytes id n b).
Proof. unfold release_project_bytes. leave. Qed.
Lemma ids_reserve_pool r pool n : leaves (same resource_ids) (reserve_pool_bytes r pool n).
Proof. unfold reserve_pool_bytes. leave. Qed.
Lemma ids_locked id job : leaves (same resource_ids) (locked_resource id job).
Proof. unfold locked_resource. leave. Qed.
Lemma ids_event job kind v e payload now : leaves (same resource_ids) (add_event job kind v e payload now).
Proof. unfold add_event, next_sequence. leave. Qed.
#[local] Hint Resolve ids_reserve_project ids_release_project ids_reserve_pool ids_locked ids_event : leaves.
Lemma ids_charge id pid n : leaves (same resource_ids) (charge_in_transaction id pid n).
Proof. unfold charge_in_transaction. leave; ids_tables. Qed.
Lemma ids_reserve id pid n pool : leaves (same resource_ids) (reserve_in_transaction id pid n pool).
Proof. unfold reserve_in_transaction. leave; ids_tables. Qed.
Lemma ids_settle id job n : leaves (same resource_ids) (settle_resource id job n).
Proof. unfold settle_resource. leave. apply leaves_transaction. leave; ids_tables. Qed.
Lemma ids_confirm now id job : leaves (same resource_ids) (confirm_resource_deleted now id job).
Proof. unfold confirm_resource_deleted. apply leaves_transaction. leave; ids_tables. Qed.
Lemma ids_purge now job : leaves (same resource_ids) (confirm_job_data_deleted now job).
Proof. unfold confirm_job_data_deleted. apply leaves_transaction. unfold release_row. leave; ids_tables. Qed.
Lemma ids_expiry now limit : leaves (same resource_ids) (request_expiry now limit).
Proof. unfold request_expiry. leave. apply leaves_transaction. unfold request_expiry_of. leave. Qed.
Lemma ids_log pid chunk budget : leaves (same resource_ids) (charge_log_in_transaction pid chunk budget).
Proof. unfold charge_log_in_transaction. leave; ids_tables. Qed.
Lemma ids_transfer rid pid children keep : leaves (same resource_ids) (transfer_reserved_in_transaction rid pid children keep).
Proof. unfold transfer_reserved_in_transaction, transfer_child. leave; ids_tables. Qed.
End Operations.

(** ** The service *)

(** The operations of [RetentionService]; the ones that run in a transaction of
    their caller are given one of their own. *)
Inductive RetentionCall :=
  | CHARGE (resource_id job_id : string) (size_bytes : Z)
  | RESERVE (resource_id job_id : string) (max_bytes : Z)
  | SETTLE (resource_id job_id : string) (actual_bytes : Z)
  | CONFIRM (resource_id job_id : string)
  | PURGE (job_id : string)
  | EXPIRE (limit : Z)
  | LOG (project_id : string) (chunk : LogChunk) (budget : option string)
  | COLLECT (reservation_id project_id : string) (children : list string) (retain_unused : bool).

(** What the callers of the last two ensure: the project is the one of the job,
    the chunk is its row, and a collection either keeps its physical bound, as
    the controller asks, or was not settled before. *)
Definition call_ok (d : JobDB) (call : RetentionCall) : Prop :=
  match call with
  | LOG pid chunk _ => chunk_row d chunk /\ job_project d (lc_job_id chunk) = Some pid
  | COLLECT rid _ _ keep => keep = true \/ forall x, resources d !! rid = Some x -> truthy (get_or (rs_details_json x) SETTLED (JBool false)) = false
  | _ => True
  end.

Section Service.
Context {P : Platform}.

Definition serve_retention (now : Z) (call : RetentionCall) : M JobWorld unit :=
  match call with
  | CHARGE id job n => charge_resource id job n ;; ret tt
  | RESERVE id job n => reserve_resource id job n ;; ret tt
  | SETTLE id job n => settle_resource id job n ;; ret tt
  | CONFIRM id job => confirm_resource_deleted now id job ;; ret tt
  | PURGE job => confirm_job_data_deleted now job ;; ret tt
  | EXPIRE limit => request_expiry now limit ;; ret tt
  | LOG pid chunk budget => job_transaction (charge_log_in_transaction pid chunk budget) ;; ret tt
  | COLLECT rid pid children keep => job_transaction (transfer_reserved_in_transaction rid pid children keep) ;; ret tt
  end.

Definition undone {A} (m : M JobWorld A) : Prop := forall w e w', m w = (Err e, w') -> jw_db w' = jw_db w.
Lemma undone_transaction {A} (m : M JobWorld A) : undone (job_transaction m).
Proof. intros w e w'. unfold job_transaction. destruct (m w) as [[x|e'] w1]; [done|]. by intros [= _ <-]. Qed.
Lemma undone_guard {A} (m : M JobWorld unit) (k : M JobWorld A) : (forall w, (m w).2 = w) -> undone k -> undone (m ;; k).
Proof.
  intros Hm Hk w e w'. unfold bind. specialize (Hm w). destruct (m w) as [[x|e'] w1]; cbn in Hm; subst; [apply Hk|]. by intros [= _ <-].
Qed.
Lemma undone_then {A} (m : M JobWorld A) : undone m -> undone (m ;; ret tt).
Proof. intros Hm w e w'. unfold bind. destruct (m w) as [[x|e'] w1] eqn:E; [done|]. intros [= <- <-]. by eapply Hm. Qed.
Lemma serve_undone now call : undone (serve_retention now call).
Proof.
  assert (Hr : forall c s t w, ((raise_if c s t : M JobWorld unit) w).2 = w) by (by intros []).
  assert (Ht : forall c e w, ((throw_if c e : M JobWorld unit) w).2 = w) by (by intros []).
  destruct call; apply undone_then; try apply undone_transaction; apply undone_guard; auto using undone_transaction.
Qed.

Lemma serve_moves now call w w' : serve_retention now call w = (Ok tt, w') -> resource_keys (jw_db w) -> call_ok (jw_db w) call ->
  exists pid k, moves pid k k (jw_db w) (jw_db w').
Proof.
  intros H Hk Hc. destruct call; cbn [serve_retention] in H; apply bind_ok in H as (a & w1 & H & [= <-]).
  - unfold charge_resource in H. apply job_transaction_ok in H. apply bind_ok in H as ([[pid r] pool] & w2 & H1 & H). apply locked_ok in H1 as (-> & Hr & Hp).
    apply bind_ok in H as ([] & w2 & H1 & H). apply reserve_pool_pure in H1 as ->. exists pid. by eapply charge_moves.
  - unfold reserve_resource in H. apply job_transaction_ok in H. apply bind_ok in H as ([[pid r] pool] & w2 & H1 & H). apply locked_ok in H1 as (-> & Hr & Hp).
    exists pid. by eapply reserve_moves.
  - by eapply settle_moves.
  - by eapply confirm_moves.
  - by eapply purge_moves.
  - exists "", 0. by eapply request_expiry_level.
  - apply job_transaction_ok in H. destruct Hc. exists project_id. by eapply charge_log_moves.
  - apply job_transaction_ok in H. exists project_id. by eapply transfer_moves.
Qed.

Lemma serve_ids now call : leaves (same resource_ids) (serve_retention now call).
Proof.
  destruct call; apply leaves_bind; try apply _; try (intros; by apply leaves_ret; apply _).
  - apply leaves_transaction. apply leaves_bind; [apply _|apply ids_locked|intros [[pid r] pool]]. apply leaves_bind; [apply _|apply ids_reserve_pool|intros _; apply ids_charge].
  - apply leaves_transaction. apply leaves_bind; [apply _|apply ids_locked|intros [[pid r] pool]]. apply ids_reserve.
  - apply ids_settle.
  - apply ids_confirm.
  - apply ids_purge.
  - apply ids_expiry.
  - apply leaves_transaction, ids_log.
  - apply leaves_transaction, ids_transfer.
Qed.
End Service.
