(* ===== verification/JobScenario.v ===== *)
(** * A concrete manager

    Functions in place of the parameters of the manager's model, and databases
    with a small cluster: a manager pool, two GPU pools that advertise a common
    device, a project with quotas and a queue of jobs. *)

From stdpp Require Import base gmap strings list.
From Stdlib Require Import ZArith Lia Ascii SpecFloat.
From S2P Require Import Prelude Json Order Domain Placement JobSpec JobModels Retention BlobBudget Scheduler Gang.

(** A stand-in for the hash that keeps distinct texts distinct. *)
Definition mirror (s : string) : string := String.string_of_list_ascii (rev (chars s)).
Definition job_platform : Platform := {|
  sha256_hex := mirror;
  float_repr _ := "0.0";
  py_repr _ := "";
  casefold s := s;
  schema_wellformed _ := true;
  schema_accepts _ _ := true;
  clock n := seconds (1600000000 + Z.of_nat n);
  uuid4_hex n := "id" +:+ str_of_int (Z.of_nat n);
  settings := mkSettings (mkAuthSettings "root" "issuer" [] []) (mkStorageSettings "/objects/" 60 8) (mkWorkerSettings 30 100 5 50 50) 3600 60
|}.
(** The ASCII part of the Unicode tables. *)
Definition ascii_tables : Unicode := {|
  str_lower := ascii_lower;
  str_isalnum s := negb (String.eqb s "") && all_char is_alnum s;
  str_blank := all_char (fun c => (byte_of c =? 32) || (9 <=? byte_of c) && (byte_of c <=? 13))
|}.
#[export] Existing Instance job_platform.
#[export] Existing Instance ascii_tables.

Definition GIB : Z := Z.shiftl 1 30.
Definition request_on (pool : string) (gpus : Z) : ResourceRequest :=
  mkResourceRequest pool 1000 GIB GIB gpus (if gpus =? 0 then None else Some "a100") "runsc-cpu-v1".
Definition two_site_spec : JobSpec := mkJobSpec "proj" "trial" "repo" "0123456789ABCDEF0123456789abcdef01234567" "runtime-1" "trainer.main:run"
  [("minimum_participants", JInt 2); ("learningRate", JFloat (S754_zero false))] [("hub", "hub-secret")]
  [mkParticipantSpec "site1" "data1" MANAGED_MODE (Some "w1"); mkParticipantSpec "site2" "data2" MANAGED_MODE (Some "w2");
   mkParticipantSpec "site3" "data3" EXTERNAL None]
  [mkComponentSpec "owner" OWNER (request_on "main" 0) None;
   mkComponentSpec "w1" PARTICIPANT (request_on "left" 1) (Some "site1");
   mkComponentSpec "w2" PARTICIPANT (request_on "right" 1) (Some "site2")] 5 3600.
Definition SPEC : JobSpec := Eval vm_compute in match validate_spec two_site_spec with Ok s => s | Err _ => two_site_spec end.

Definition pool_of (id : string) (gpus : list string) : Pool :=
  mkPool id ("node-" +:+ id) 4000 (8 * GIB) (16 * GIB) gpus ["a100"] ["runsc-cpu-v1"] true false [].
Definition project_row : Project := mkProject "proj" 90 None None None (Some 8) (Some 2) {["retained_bytes" := 64 * GIB; "cpu_millicores" := 12000]} 0 1.
Definition job_row (id : string) (created : Z) (spec : JobSpec) : Job :=
  mkJob id "proj" spec (match digest spec with Ok h => h | Err _ => "" end) QUEUED (Some "waiting_resources") None 1 1 1 0 0 0 (js_target_round spec) "none" None None None None created created None None None.
Definition attempt_row (id job : string) : Attempt := mkJobAttempt id job 1 1 "QUEUED" None None None None false false "none" None [] [].

Definition cluster : JobDB := mkJobDB
  {["proj" := project_row]}
  {["job1" := job_row "job1" 1 SPEC; "job2" := job_row "job2" 2 SPEC]}
  {["try1" := attempt_row "try1" "job1"; "try2" := attempt_row "try2" "job2"]}
  {["main" := pool_of "main" []; "left" := pool_of "left" ["g1"; "g2"]; "right" := pool_of "right" ["g1"]]}
  ∅ ∅ ∅ ∅ ∅ ∅ ∅ ∅ ∅ ∅ ∅ ∅ ∅ ∅ ∅.
Definition NOW : Z := 1600000000 * MICROS.
Definition scheduled : result (list Admission) * JobWorld := schedule default_admission_storage NOW 100 (mkJobWorld cluster 0 NOW 0).
