(* ===== verification/JobGuarantees.v ===== *)
(** * What the scheduler guarantees

    Theorems about whole scheduling transactions, with runs on a concrete
    cluster. *)

From stdpp Require Import base gmap strings list fin_maps fin_sets.
From Stdlib Require Import ZArith Lia Ascii.
From S2P Require Import Prelude Json Order Domain Placement JobSpec JobSpecTheory JobModels Retention BlobBudget Scheduler Gang SchedulerLogic SchedulerTheory PassTheory Devices RetentionTheory JobScenario.

Section Guarantees.
Context {P : Platform} {U : Unicode}.


(** C33: Gangs are admitted whole.  Every admission the transaction reports is
    of a different job, at most [limit] of them; the job was queued, is now
    provisioning at the next epoch, and has, for each component of its
    validated specification in order, one reserved allocation of that
    component's pool and amounts, with exactly the requested number of devices,
    all advertised by the pool; and no device is in use twice. *)
Theorem gangs_are_whole storage now limit w admitted w' :
  schedule storage now limit w = (Ok admitted, w') -> keyed (jw_db w) -> devices_ok (jw_db w) ->
  NoDup (map ad_job_id admitted) /\ Z.of_nat (List.length admitted) <= Z.max 0 limit /\
  (forall ad, ad ∈ admitted -> gang_placed (jw_db w) (jw_db w') ad) /\ devices_ok (jw_db w').
Proof.
  intros H Hk Hd. apply schedule_inv in H as (pass & pass' & active & H1 & H2 & ->). apply first_pass_ledger in H1 as (Hl & Eb & Ea).
  pose proof (queued_NoDup _ Hk) as Hq.
  assert (G : gangs_ok (jw_db w) (queued (jw_db w)) (jw_db w') pass' /\ Z.of_nat (List.length (pa_admissions pass')) <= Z.max 0 limit).
  { eapply (schedule_loop (fun before d p => gangs_ok (jw_db w) before d p /\ Z.of_nat (List.length (pa_admissions p)) <= Z.max 0 limit)); [done|done| |].
    - split; [|rewrite Ea; cbn; lia]. split; rewrite ?Ea; [done|done|done|done| |constructor]. intros ad Had. by apply elem_of_nil in Had.
    - intros w1 w2 before id after p1 p2 E Hk1 [G1 L1] Hs. assert (Hid : id ∉ before).
      { rewrite E in Hq. apply NoDup_app in Hq as (_ & Hq & _). intros Hin. apply (Hq id Hin). by left. }
      split; [eapply gangs_step; [done|done| |done|done|done]; rewrite E; apply elem_of_app; right; by left|].
      by eapply admissions_step; [|apply G1|]. }
  destruct G as [[_ _ D _ Pl On] L]. split_and!; [done|done| |done]. intros ad Had. by apply Pl.
Qed.


(** A pass that fails changes nothing.  When a statement of
    [Scheduler.schedule] raises, whatever was admitted before it in the same
    transaction is rolled back. *)
Theorem failed_pass_changes_nothing storage now limit w e w' : schedule storage now limit w = (Err e, w') -> jw_db w' = jw_db w.
Proof. unfold schedule, job_transaction. destruct (schedule_body storage now limit w) as [[r|e'] w1]; [done|]. by intros [= _ <-]. Qed.

(** C36: An accepted specification is closed under validation and well bound.
    [JobSpec.model_validate] returns its argument with the commit in lower case,
    and validating that again succeeds with the same value; every managed
    participant names its own component and every participant component its
    participant, there is one owner, identifiers are unique; and every
    component's request is within the accepted ranges. *)
Theorem accepted_spec_is_stable s s' : validate_spec s = Ok s' ->
  js_components s' = js_components s /\ js_participants s' = js_participants s /\ js_source_commit s' = ascii_lower (js_source_commit s) /\
  validate_spec s' = Ok s' /\ well_bound s' /\ (forall c, c ∈ js_components s' -> request_ok (cs_resources c)).
Proof.
  intros H. destruct (validated_spec _ _ H) as [H1 H2]. pose proof (validate_spec_same _ _ H) as E.
  split_and!; [by rewrite E|by rewrite E|by rewrite E|by eapply validate_spec_again|done..].
Qed.
End Guarantees.

(** ** Runs on the cluster *)
Definition AFTER : JobWorld := snd scheduled.
Definition ADMITTED : list Admission := match fst scheduled with Ok l => l | Err _ => [] end.
Lemma scheduled_ok : schedule default_admission_storage NOW 100 (mkJobWorld cluster 0 NOW 0) = (Ok ADMITTED, AFTER).
Proof. vm_compute. reflexivity. Qed.
Lemma cluster_keyed : keyed cluster.
Proof. intros j x H. cbn in H. repeat apply lookup_insert_Some in H as [[<- <-]|[_ H]]; [done|]. by apply lookup_singleton_Some in H as [<- <-]. Qed.
Lemma cluster_devices : devices_ok cluster.
Proof. split; [intros k1 k2 g1 g2 H|intros k g H]; cbn in H; by rewrite lookup_empty in H. Qed.


Example one_job_admitted : map ad_job_id ADMITTED = ["job1"].
Proof. vm_compute. reflexivity. Qed.

Lemma only_admission {l id} : map ad_job_id l = [id] -> exists ad, ad ∈ l /\ ad_job_id ad = id.
Proof. destruct l as [|ad [|? ?]]; intros [= <-]. exists ad. split; [by left|done]. Qed.

Lemma gangs_are_whole_witness : exists ad, ad ∈ ADMITTED /\ ad_job_id ad = "job1" /\ gang_placed cluster (jw_db AFTER) ad.
Proof.
  destruct (gangs_are_whole _ _ _ _ _ _ scheduled_ok cluster_keyed cluster_devices) as (_ & _ & H & _).
  destruct (only_admission one_job_admitted) as (ad & Hin & E). exists ad. split; [exact Hin|]. split; [exact E|exact (H ad Hin)].
Defined.


(** Room for two jobs, but the second has lost its attempt: nothing is admitted. *)
Definition BROKEN : JobDB := cluster
  <| pools := {["main" := pool_of "main" []; "left" := pool_of "left" ["g1"; "g2"]; "right" := pool_of "right" ["g3"; "g4"]]} |>
  <| job_attempts ::= delete "try2" |>.
Lemma failed_pass_changes_nothing_witness : exists e w',
  schedule default_admission_storage NOW 100 (mkJobWorld BROKEN 0 NOW 0) = (Err e, w') /\ jw_db w' = BROKEN.
Proof.
  destruct (schedule default_admission_storage NOW 100 (mkJobWorld BROKEN 0 NOW 0)) as [[l|e] w'] eqn:E.
  - exfalso. apply (f_equal fst) in E. revert E. vm_compute. discriminate.
  - exists e, w'. split; [reflexivity|]. exact (failed_pass_changes_nothing _ _ _ _ _ _ E).
Defined.

Lemma accepted_spec_is_stable_witness : validate_spec two_site_spec = Ok SPEC /\ validate_spec SPEC = Ok SPEC /\
  js_source_commit SPEC = "0123456789abcdef0123456789abcdef01234567".
Proof.
  assert (H : validate_spec two_site_spec = Ok SPEC) by (vm_compute; reflexivity).
  destruct (accepted_spec_is_stable _ _ H) as (_ & _ & _ & H' & _). split_and!; [exact H|exact H'|vm_compute; reflexivity].
Defined.

(** ** What the retention service guarantees

    The ledger of retained bytes is exact after every operation, and log text
    never exceeds the budget it was prepaid; with runs on the scheduled
    cluster. *)

(** ** Truncated logs *)
Lemma substring_length n s : (String.length (String.substring 0 n s) <= n)%nat.
Proof. revert n. induction s as [|c s IH]; intros [|n]; cbn; [lia..|]. specialize (IH n). lia. Qed.
Lemma drop_continuation_length l : (List.length (drop_continuation l) <= List.length l)%nat.
Proof. induction l as [|c l IH]; cbn; [lia|]. destruct (is_continuation c); lia. Qed.
Lemma chars_length s : List.length (chars s) = String.length s.
Proof. induction s as [|c s IH]; cbn; [done|]. by rewrite IH. Qed.
Lemma of_list_length l : String.length (String.string_of_list_ascii l) = List.length l.
Proof. induction l as [|c l IH]; cbn; [done|]. by rewrite IH. Qed.
Lemma utf8_prefix_length n raw : (String.length (utf8_prefix n raw) <= n)%nat.
Proof.
  unfold utf8_prefix. pose proof (substring_length n raw). destruct (String.get n raw) as [c|]; [|done]. destruct (is_continuation c); [|done].
  rewrite of_list_length, length_rev. pose proof (drop_continuation_length (rev (chars (String.substring 0 n raw)))) as G.
  rewrite length_rev, chars_length in G. lia.
Qed.
Lemma append_length a b : String.length (a +:+ b) = (String.length a + String.length b)%nat.
Proof. induction a as [|c a IH]; [done|]. change (S (String.length (a +:+ b)) = S (String.length a + String.length b))%nat. by rewrite IH. Qed.
Lemma bounded_log_length raw remaining : 0 <= remaining -> utf8_len (bounded_log raw remaining) <= remaining.
Proof.
  intros H. unfold bounded_log, utf8_len. destruct (Z.leb_spec (Z.of_nat (String.length LOG_MARKER)) remaining) as [Hm|Hm].
  - rewrite append_length. pose proof (utf8_prefix_length (Z.to_nat (remaining - Z.of_nat (String.length LOG_MARKER))) raw). lia.
  - pose proof (utf8_prefix_length (Z.to_nat remaining) raw). lia.
Qed.

Section Guarantees.
Context {P : Platform}.


(** Log text never exceeds its prepaid budget.  When a chunk is accepted
    under a budget, the row that is kept holds the chunk's text, cut at a
    character boundary with a marker when it does not fit; its bytes are added
    to those consumed, which stay within the reservation, at most one
    mebibyte, and the chunk itself is charged nothing. *)
Theorem log_budget_respected pid chunk budget_id w w' : charge_log_in_transaction pid chunk (Some budget_id) w = (Ok true, w') ->
  exists budget budget' row maximum consumed,
    resources (jw_db w) !! budget_id = Some budget /\ resources (jw_db w') !! budget_id = Some budget' /\ log_chunks (jw_db w') !! lc_id chunk = Some row /\
    get_or_none (rs_details_json budget) RESERVATION = JInt maximum /\ get_or (rs_details_json budget) "log_consumed_bytes" (JInt 0) = JInt consumed /\
    get_or (rs_details_json budget') "log_consumed_bytes" (JInt 0) = JInt (consumed + utf8_len (lc_data row)) /\
    0 <= consumed /\ consumed + utf8_len (lc_data row) <= maximum <= 1024 * 1024 /\ lc_charged_bytes row = 0 /\
    (truthy (get_or_none (rs_details_json budget) "log_budget_exhausted") = false -> consumed + utf8_len (lc_data chunk) <= maximum -> lc_data row = lc_data chunk).
Proof.
  unfold charge_log_in_transaction. cbv zeta. intros H. apply bind_ok in H as ([] & w1 & H1 & H). apply raise_if_ok in H1 as [_ ->].
  apply bind_ok in H as (o & w1 & [= <- <-] & H). apply bind_ok in H as (r & w1 & H1 & H). cbn in H1. destruct (resources (jw_db w) !! budget_id) as [r0|] eqn:Er; [|done]. injection H1 as -> <-.
  apply bind_ok in H as (job & w1 & [= <- <-] & H). apply bind_ok in H as ([] & w1 & H1 & H). apply raise_if_ok in H1 as [_ ->].
  apply bind_ok in H as (o & w1 & [= <- <-] & H). apply bind_ok in H as (p & w1 & H1 & H). cbn in H1. destruct (projects (jw_db w) !! pid); [|done]. injection H1 as -> <-.
  destruct (log_ledger p r) as [[[maximum consumed] last]|] eqn:El; [|done]. destruct (lc_sequence chunk <=? last).
  { apply bind_ok in H as (o & w1 & [= <- <-] & H). by apply bind_ok in H as ([] & w1 & H1 & [=]). }
  apply bind_ok in H as ([] & w1 & H1 & H). apply raise_if_ok in H1 as [_ ->]. apply bind_ok in H as ([] & w1 & H1 & H). injection H1 as <-.
  apply bind_ok in H as ([] & w2 & H2 & [= <-]). injection H2 as <-. unfold log_ledger in El. cbv zeta in El.
  destruct (get_or_none (rs_details_json r) RESERVATION) eqn:E1; try done. destruct (get_or (rs_details_json r) "log_consumed_bytes" (JInt 0)) eqn:E2; try done.
  destruct (get_or (rs_details_json r) "log_last_sequence" (JInt 0)) eqn:E3; try done. destruct (_ && _) eqn:Ec in El; [|done]. injection El as -> -> ->. bool_simpl.
  set (data := if truthy _ then "" else _). do 5 eexists.
  split; [done|]. split; [cbn; by rewrite lookup_alter_eq, Er|]. split; [cbn; by rewrite lookup_insert_eq|]. split; [done|]. split; [done|].
  split; [cbn; by details_simpl|]. cbn [lc_data lc_charged_bytes].
  assert (Hd : utf8_len data <= maximum - consumed).
  { unfold data. destruct (truthy _); [change (utf8_len "") with 0; lia|]. rewrite orb_false_r. destruct (Z.ltb_spec (maximum - consumed) (utf8_len (lc_data chunk))); [|done]. apply bounded_log_length. lia. }
  split_and!; [done|cbn; fold data; lia|lia|done|]. intros Hx Hfit. unfold data. cbn. rewrite Hx, orb_false_r.
  destruct (Z.ltb_spec (maximum - consumed) (utf8_len (lc_data chunk))); [lia|done].
Qed.
End Guarantees.


Definition JOB1_PLACED : JobWorld := snd scheduled.
Definition OWNER_LOG : string := resource_identity "job1" "log_budget" "hf2l-log://job1/1/owner".


(** 40 characters of two bytes each under what is left of a budget: cut between
    characters, with the marker. *)
Definition NEARLY_FULL : JobDB := (jw_db JOB1_PLACED) <| resources ::= alter (fun r =>
  r <| rs_details_json ::= fun d => update_details d [("log_consumed_bytes", JInt (1048576 - 60))] |>) OWNER_LOG |>.
Definition LONG_LINE : string := join "" (repeat "é" 40).
Definition a_chunk : LogChunk := mkLogChunk "chunk1" "job1" 1 "owner" 1 LONG_LINE 0 NOW None None.
Lemma log_budget_respected_witness : exists w', charge_log_in_transaction "proj" a_chunk (Some OWNER_LOG) (mkJobWorld NEARLY_FULL 50 NOW 0) = (Ok true, w') /\
  exists row, log_chunks (jw_db w') !! "chunk1" = Some row /\ 1048576 - 60 + utf8_len (lc_data row) <= 1048576 /\ lc_data row = "éé" +:+ LOG_MARKER.
Proof.
  destruct (charge_log_in_transaction "proj" a_chunk (Some OWNER_LOG) (mkJobWorld NEARLY_FULL 50 NOW 0)) as [r w'] eqn:E.
  assert (Hr : r = Ok true) by (apply (f_equal fst) in E; revert E; vm_compute; intros <-; reflexivity). subst r.
  assert (Hrow : lc_data <$> log_chunks (jw_db w') !! "chunk1" = Some ("éé" +:+ LOG_MARKER))
    by (apply (f_equal (fun x => lc_data <$> log_chunks (jw_db x.2) !! "chunk1")) in E; revert E; vm_compute; intros <-; reflexivity).
  assert (Hc : (fun b => get_or (rs_details_json b) "log_consumed_bytes" (JInt 0)) <$> resources NEARLY_FULL !! OWNER_LOG = Some (JInt (1048576 - 60))) by (vm_compute; reflexivity).
  assert (Hm : (fun b => get_or_none (rs_details_json b) RESERVATION) <$> resources NEARLY_FULL !! OWNER_LOG = Some (JInt 1048576)) by (vm_compute; reflexivity).
  exists w'. split; [reflexivity|].
  destruct (log_budget_respected _ _ _ _ _ E) as (b & b' & row & maximum & consumed & Hb & _ & Hrow' & H1 & H2 & _ & _ & [H3 _] & _).
  change (jw_db (mkJobWorld NEARLY_FULL 50 NOW 0)) with NEARLY_FULL in Hb. rewrite Hb in Hc, Hm. cbn in Hc, Hm. rewrite H1 in Hm. rewrite H2 in Hc. injection Hm as ->. injection Hc as ->.
  change (lc_id a_chunk) with "chunk1" in Hrow'. exists row. rewrite Hrow' in Hrow. injection Hrow as Hrow. split_and!; [exact Hrow'|exact H3|exact Hrow].
Defined.
