(* ===== verification/JobRefinement.v ===== *)
(** * The manager's tables as the abstract lifecycle

    [machine] forgets all columns of the tables but those the lifecycle speaks
    of; [refines] relates two databases when the second is reached from the
    first by moves of the lifecycle.  Every transaction of the controller and
    of the commands refines it. *)

From stdpp Require Import base gmap strings list fin_maps relations.
From Stdlib Require Import ZArith Lia.
From S2P Require Import Prelude Json Domain JobSpec JobModels Retention Recovery BlobBudget Scheduler Gang SchedulerLogic SchedulerTheory Controller Fence Views Commands Submission JobMachine.

(** ** The projection *)
Definition job_face (j : Job) : JobFace := mkJobFace (jb_state j) (jb_epoch j) (jb_current_attempt j).
Definition attempt_face (a : Attempt) : AttemptFace := mkAttemptFace (ja_job_id a) (ja_number a) (ja_epoch a) (over a).
Definition hold_face (a : Allocation) : HoldFace :=
  mkHoldFace (al_job_id a) (al_attempt_id a) (al_epoch a) (al_termination_confirmed a) (allocation_live (al_state a)).
Definition device_face (g : GpuAllocation) : DeviceFace := mkDeviceFace (ga_allocation_id g) (ga_gpu_uuid g) (negb (is_some (ga_released_at g))).
Definition machine (d : JobDB) : Machine :=
  mkMachine (job_face <$> jobs d) (attempt_face <$> job_attempts d) (hold_face <$> allocations d) (device_face <$> gpu_allocations d).

(** Rows are stored under their identifiers. *)
Definition named_rows (d : JobDB) := (jb_id <$> jobs d, ja_id <$> job_attempts d, al_id <$> allocations d).
Record named (d : JobDB) : Prop := {
  nm_jobs : forall k j, jobs d !! k = Some j -> jb_id j = k;
  nm_attempts : forall k a, job_attempts d !! k = Some a -> ja_id a = k;
  nm_allocations : forall k a, allocations d !! k = Some a -> al_id a = k;
}.
Definition refines (d d' : JobDB) : Prop := named d -> named d' /\ run (machine d) (machine d').
#[export] Instance refines_preorder : PreOrder refines.
Proof.
  split; [by intros d H|]. intros d1 d2 d3 H1 H2 Hn. destruct (H1 Hn) as [Hn2 R1], (H2 Hn2) as [Hn3 R2]. split; [done|]. by etransitivity.
Qed.

(** All the columns concerned. *)
Definition core (d : JobDB) :=
  (((fun j => (jb_id j, job_face j)) <$> jobs d, (fun a => (ja_id a, attempt_face a)) <$> job_attempts d),
   ((fun a => (al_id a, hold_face a)) <$> allocations d, device_face <$> gpu_allocations d)).
Lemma fmap_snd_same {A B C} (f : A -> B) (g : A -> C) (m m' : gmap string A) : (fun x => (f x, g x)) <$> m' = (fun x => (f x, g x)) <$> m -> g <$> m' = g <$> m.
Proof.
  intros H. apply (f_equal (fmap snd)) in H. rewrite <- !map_fmap_compose in H. exact H.
Qed.
Lemma fmap_fst_named {A B} (f : A -> string) (g : A -> B) (m m' : gmap string A) : (fun x => (f x, g x)) <$> m' = (fun x => (f x, g x)) <$> m ->
  (forall k a, m !! k = Some a -> f a = k) -> forall k a, m' !! k = Some a -> f a = k.
Proof.
  intros H Hm k a Hk. assert (E : ((fun x => (f x, g x)) <$> m') !! k = Some (f a, g a)) by (by rewrite lookup_fmap, Hk).
  rewrite H, lookup_fmap in E. destruct (m !! k) as [b|] eqn:Eb; [|done]. injection E as <- _. by apply Hm.
Qed.
Lemma refines_core d d' : same core d d' -> refines d d'.
Proof.
  intros [= E1 E2 E3 E4] [N1 N2 N3]. split; [split; by eapply fmap_fst_named|]. unfold machine.
  rewrite (fmap_snd_same _ _ _ _ E1), (fmap_snd_same _ _ _ _ E2), (fmap_snd_same _ _ _ _ E3), E4. done.
Qed.

(** ** One row *)
Lemma fmap_alter_face {A B} (g : A -> B) f k a (m : gmap string A) : m !! k = Some a -> g <$> alter f k m = <[k := g (f a)]> (g <$> m).
Proof.
  intros Hk. apply map_eq. intros j. rewrite lookup_fmap. destruct (decide (k = j)) as [->|Hne]; [by rewrite lookup_alter_eq, lookup_insert_eq, Hk|].
  by rewrite lookup_alter_ne, lookup_insert_ne, lookup_fmap.
Qed.
Lemma named_alter {A} (c : A -> string) f k (m : gmap string A) : (forall a, m !! k = Some a -> c (f a) = c a) ->
  (forall j a, m !! j = Some a -> c a = j) -> forall j a, alter f k m !! j = Some a -> c a = j.
Proof.
  intros Hf Hm j a Hj. apply lookup_alter_Some in Hj as [(<- & b & Hb & ->)|[_ Hj]]; [rewrite Hf by done|]; by apply Hm.
Qed.
Lemma named_insert {A} (c : A -> string) k x (m : gmap string A) : c x = k ->
  (forall j a, m !! j = Some a -> c a = j) -> forall j a, <[k := x]> m !! j = Some a -> c a = j.
Proof. intros Hx Hm j a Hj. apply lookup_insert_Some in Hj as [[<- <-]|[_ Hj]]; [done|by apply Hm]. Qed.

(** One move, or none, when the row may be missing. *)
Lemma run_one M M' : move M M' -> run M M'.
Proof. apply rtc_once. Qed.

Lemma refines_job f k j d : jobs d !! k = Some j -> jb_id (f j) = jb_id j -> jb_epoch (f j) = jb_epoch j -> jb_current_attempt (f j) = jb_current_attempt j ->
  jb_state (f j) = jb_state j \/ edge (jb_state j) (jb_state (f j)) = true -> refines d (t_upd JOBS (alter f k) d).
Proof.
  intros Hk Ei Ee Ea Es [N1 N2 N3]. split; [split; try done; eapply named_alter; [|done]; intros; by simplify_eq|].
  unfold machine at 2. cbn. rewrite (fmap_alter_face _ _ _ _ _ Hk).
  assert (E : job_face (f j) = set_state (jb_state (f j)) (job_face j)) by (unfold job_face, set_state; cbn; by rewrite Ee, Ea).
  assert (Hm : m_jobs (machine d) !! k = Some (job_face j)) by (cbn; by rewrite lookup_fmap, Hk). destruct Es as [Es|Es].
  - rewrite insert_id; [done|]. rewrite E, Es. exact Hm.
  - rewrite E. apply run_one. by apply (advance (machine d) k (job_face j)).
Qed.

(** An attempt may be recorded as over, never as not over. *)
Definition attempt_kept (f : Attempt -> Attempt) : Prop :=
  forall a, ja_id (f a) = ja_id a /\ ja_job_id (f a) = ja_job_id a /\ ja_number (f a) = ja_number a /\ ja_epoch (f a) = ja_epoch a /\ (over (f a) = over a \/ over (f a) = true).
Lemma refines_attempt f k d : attempt_kept f -> refines d (t_upd JOB_ATTEMPTS (alter f k) d).
Proof.
  intros Hf [N1 N2 N3]. split; [split; try done; eapply named_alter; [|done]; intros; by apply Hf|].
  destruct (job_attempts d !! k) as [a|] eqn:Hk; [|unfold machine; cbn; by rewrite alter_id by (intros; congruence)].
  unfold machine at 2. cbn. rewrite (fmap_alter_face _ _ _ _ _ Hk). destruct (Hf a) as (_ & E1 & E2 & E3 & Eo).
  assert (Hm : m_attempts (machine d) !! k = Some (attempt_face a)) by (cbn; by rewrite lookup_fmap, Hk). destruct Eo as [Eo|Eo].
  - rewrite insert_id; [done|]. unfold attempt_face at 2. rewrite E1, E2, E3, Eo. exact Hm.
  - replace (attempt_face (f a)) with (closed (attempt_face a)) by (unfold attempt_face, closed; cbn; by rewrite E1, E2, E3, Eo). apply run_one. by apply (close (machine d) k (attempt_face a)).
Qed.

Lemma over_more a a' : (ja_revocation_confirmed a = true -> ja_revocation_confirmed a' = true) -> (ja_termination_confirmed a = true -> ja_termination_confirmed a' = true) ->
  (mem_str (ja_publication_status a) KNOWN_PUBLICATIONS = true -> mem_str (ja_publication_status a') KNOWN_PUBLICATIONS = true) -> over a' = over a \/ over a' = true.
Proof.
  intros H1 H2 H3. unfold over. destruct (ja_revocation_confirmed a && ja_termination_confirmed a && mem_str (ja_publication_status a) KNOWN_PUBLICATIONS) eqn:E.
  - right. rewrite !andb_true_iff in *. destruct_and!. auto.
  - match goal with |- ?b = false \/ _ => destruct b; auto end.
Qed.

(** A reservation may be recorded as stopped. *)
Lemma refines_hold f k a d : allocations d !! k = Some a -> al_id (f a) = al_id a -> al_job_id (f a) = al_job_id a -> al_attempt_id (f a) = al_attempt_id a ->
  al_epoch (f a) = al_epoch a -> allocation_live (al_state (f a)) = allocation_live (al_state a) ->
  al_termination_confirmed (f a) = al_termination_confirmed a \/ al_termination_confirmed (f a) = true -> refines d (t_upd ALLOCATIONS (alter f k) d).
Proof.
  intros Hk Ei E1 E2 E3 E4 Eo [N1 N2 N3]. split; [split; try done; eapply named_alter; [|done]; intros; by simplify_eq|].
  unfold machine at 2. cbn. rewrite (fmap_alter_face _ _ _ _ _ Hk).
  assert (Hm : m_holds (machine d) !! k = Some (hold_face a)) by (cbn; by rewrite lookup_fmap, Hk). destruct Eo as [Eo|Eo].
  - rewrite insert_id; [done|]. unfold hold_face at 2. rewrite E1, E2, E3, E4, Eo. exact Hm.
  - replace (hold_face (f a)) with (stopped (hold_face a)) by (unfold hold_face, stopped; cbn; by rewrite E1, E2, E3, E4, Eo). apply run_one. by apply (stop_hold (machine d) k (hold_face a)).
Qed.

(** Rows whose concerned columns an update keeps. *)
Lemma fmap_where {A B} (g : A -> B) (p : A -> bool) f (m : gmap string A) : (forall a, p a = true -> g (f a) = g a) ->
  g <$> ((fun r => if p r then f r else r) <$> m) = g <$> m.
Proof.
  intros Hf. rewrite <- map_fmap_compose. apply map_fmap_ext. intros k a _. cbn. destruct (p a) eqn:E; [by apply Hf|done].
Qed.

(** ** Transactions, statement by statement *)

(** [lands R w m]: a successful run of [m] from [w] ends in a database related
    to that of [w]. *)
Definition lands (R : JobDB -> JobDB -> Prop) {A} (w : JobWorld) (m : M JobWorld A) : Prop := forall a w', m w = (Ok a, w') -> R (jw_db w) (jw_db w').
Lemma lands_leaves R {A} w (m : M JobWorld A) : leaves R m -> lands R w m.
Proof. intros H a w'. apply H. Qed.
Lemma lands_bind R `{!PreOrder R} {A B} w (m : M JobWorld A) (f : A -> M JobWorld B) : lands R w m -> (forall a w1, m w = (Ok a, w1) -> lands R w1 (f a)) -> lands R w (bind m f).
Proof. intros Hm Hf b w' H. apply bind_ok in H as (a & w1 & H1 & H). etransitivity; [by eapply Hm|]. by eapply Hf. Qed.
Lemma lands_gets R {A B} w (g : JobWorld -> A) (f : A -> M JobWorld B) : lands R w (f (g w)) -> lands R w (bind (gets g) f).
Proof. intros H b w' Hb. apply bind_ok in Hb as (a & w1 & [= <- <-] & Hb). by eapply H. Qed.
Lemma lands_get R {V B} (T : Tab JobDB string V) k w (f : option V -> M JobWorld B) : lands R w (f (t_get T (jw_db w) !! k)) -> lands R w (bind (job_get T k) f).
Proof. exact (lands_gets R w (fun w => t_get T (jw_db w) !! k) f). Qed.
Lemma lands_guard R {B} c e w (f : unit -> M JobWorld B) : (c = false -> lands R w (f tt)) -> lands R w (bind (throw_if c e) f).
Proof. intros H b w' Hb. apply bind_ok in Hb as ([] & w1 & H1 & Hb). apply throw_if_ok in H1 as [Hc ->]. by eapply H. Qed.
Lemma lands_raise_if R {B} c st code w (f : unit -> M JobWorld B) : (c = false -> lands R w (f tt)) -> lands R w (bind (raise_if c st code) f).
Proof. intros H b w' Hb. apply bind_ok in Hb as ([] & w1 & H1 & Hb). apply raise_if_ok in H1 as [Hc ->]. by eapply H. Qed.
Lemma lands_lift R {A B} (r : result A) w (f : A -> M JobWorld B) : (forall a, r = Ok a -> lands R w (f a)) -> lands R w (bind (lift r) f).
Proof. intros H b w' Hb. apply bind_ok in Hb as (a & w1 & H1 & Hb). apply lift_ok in H1 as [-> ->]. by eapply H. Qed.
Lemma lands_row_or R {A B} (o : option A) e w (f : A -> M JobWorld B) : (forall a, o = Some a -> lands R w (f a)) -> lands R w (bind (row_or o e) f).
Proof. intros H b w' Hb. apply bind_ok in Hb as (a & w1 & H1 & Hb). destruct o; [injection H1 as -> <-; by eapply H|done]. Qed.
Lemma lands_transaction R {A} w (m : M JobWorld A) : lands R w m -> lands R w (job_transaction m).
Proof. intros Hm a w' H. unfold job_transaction in H. destruct (m w) as [[x|e] w1] eqn:E; [|done]. injection H as <- <-. by eapply Hm. Qed.

(** However it ends. *)
Definition safely (R : JobDB -> JobDB -> Prop) {A} (w : JobWorld) (m : M JobWorld A) : Prop := R (jw_db w) (jw_db (snd (m w))).
Lemma safely_transaction R `{!PreOrder R} {A} w (m : M JobWorld A) : lands R w m -> safely R w (job_transaction m).
Proof.
  intros Hm. unfold safely, job_transaction. destruct (m w) as [[x|e] w1] eqn:E; cbn; [by eapply Hm|done].
Qed.
Lemma lands_named {A} w (m : M JobWorld A) : (named (jw_db w) -> lands refines w m) -> lands refines w m.
Proof. intros H a w' Hm Hn. by eapply (H Hn). Qed.
Lemma safely_pure R `{!PreOrder R} {A} w (m : M JobWorld A) : (forall w, (m w).2 = w) -> safely R w m.
Proof. intros H. unfold safely. by rewrite H. Qed.

(** ** Statements that concern nothing *)
Lemma core_jobs d f k : (forall j, jb_id (f j) = jb_id j /\ job_face (f j) = job_face j) -> refines d (t_upd JOBS (alter f k) d).
Proof. intros Hf. apply refines_core. unfold same, core. cbn. rewrite fmap_alter_same; [done|]. intros j. by destruct (Hf j) as [-> ->]. Qed.
Lemma core_attempts d f k : (forall a, ja_id (f a) = ja_id a /\ attempt_face (f a) = attempt_face a) -> refines d (t_upd JOB_ATTEMPTS (alter f k) d).
Proof. intros Hf. apply refines_core. unfold same, core. cbn. rewrite fmap_alter_same; [done|]. intros j. by destruct (Hf j) as [-> ->]. Qed.
Lemma core_allocations d f k : (forall a, al_id (f a) = al_id a /\ hold_face (f a) = hold_face a) -> refines d (t_upd ALLOCATIONS (alter f k) d).
Proof. intros Hf. apply refines_core. unfold same, core. cbn. rewrite fmap_alter_same; [done|]. intros j. by destruct (Hf j) as [-> ->]. Qed.
Lemma core_allocations_where d p f : (forall a, p a = true -> al_id (f a) = al_id a /\ hold_face (f a) = hold_face a) ->
  refines d (t_upd ALLOCATIONS (fmap (fun r => if p r then f r else r)) d).
Proof. intros Hf. apply refines_core. unfold same, core. cbn. rewrite fmap_where; [done|]. intros a Ha. by destruct (Hf a Ha) as [-> ->]. Qed.
Ltac idle_table := first [by apply refines_core
  |by apply core_jobs; intros []|by apply core_jobs; intros []; repeat case_match
  |by apply core_attempts; intros []|by apply core_allocations; intros []
  |by apply refines_attempt; intros []; cbn; auto 6].
Ltac idle := cbv zeta; repeat (leave_step; cbv beta zeta); try eauto with leaves; idle_table.

Section Idle.
Context {P : Platform} {U : Unicode} {C : Calendar}.

Lemma idle_set_reason id code now details : leaves refines (set_reason id code now details).
Proof. unfold set_reason. idle. Qed.
Lemma idle_outbox job topic payload a : leaves refines (add_outbox job topic payload a).
Proof. unfold add_outbox. idle. Qed.
Lemma idle_event job kind payload now : leaves refines (job_event job kind payload now).
Proof. unfold job_event, add_event, next_sequence. idle. Qed.
Lemma idle_emit job kind actor data : leaves refines (_emit job kind actor data).
Proof. unfold _emit, next_sequence. idle. Qed.
Lemma idle_the_job id : leaves refines (the_job id).
Proof. unfold the_job. leave. Qed.
#[local] Hint Resolve idle_set_reason idle_outbox idle_event idle_emit idle_the_job : leaves.
Lemma idle_request job kind actor payload : leaves refines (_outbox job kind actor payload).
Proof. unfold _outbox. idle. Qed.
Lemma idle_touch id : leaves refines (_touch id).
Proof. unfold _touch. idle. Qed.
Lemma idle_answer id m : leaves refines (answer id m).
Proof. unfold answer, job_member. leave. Qed.
Lemma idle_detail id items : leaves refines (detail id items).
Proof. unfold detail. idle. Qed.
Lemma idle_expire id at_ : leaves refines (expire_data id at_).
Proof. unfold expire_data, job_update_where. idle. Qed.
Lemma idle_quarantine id : leaves refines (quarantine_live id).
Proof.
  unfold quarantine_live, job_update_where. leave. apply core_allocations_where. intros a Ha. unfold live_of_job in Ha. apply andb_true_iff in Ha as [_ Ha].
  destruct a; cbn in *. unfold hold_face. cbn. by rewrite Ha.
Qed.
Lemma idle_reserve_project id n : leaves refines (reserve_project_bytes id n).
Proof. unfold reserve_project_bytes. idle. Qed.
Lemma idle_reserve_pool r pool n : leaves refines (reserve_pool_bytes r pool n).
Proof. unfold reserve_pool_bytes. leave. Qed.
Lemma idle_release_project id n bump : leaves refines (release_project_bytes id n bump).
Proof. unfold release_project_bytes. idle. Qed.
#[local] Hint Resolve idle_reserve_project idle_reserve_pool idle_release_project : leaves.
Lemma idle_reserve id pid n pool : leaves refines (reserve_in_transaction id pid n pool).
Proof. unfold reserve_in_transaction. idle. Qed.
Lemma idle_charge id pid n : leaves refines (charge_in_transaction id pid n).
Proof. unfold charge_in_transaction. idle. Qed.
Lemma idle_charge_log pid chunk budget : leaves refines (charge_log_in_transaction pid chunk budget).
Proof. unfold charge_log_in_transaction. idle. Qed.
Lemma idle_current job : leaves refines (current_attempt job).
Proof. unfold current_attempt. leave. Qed.
End Idle.
#[export] Hint Resolve idle_set_reason idle_outbox idle_event idle_emit idle_the_job idle_request idle_touch idle_answer idle_detail idle_expire
  idle_quarantine idle_current idle_reserve_project idle_reserve_pool idle_release_project idle_reserve idle_charge idle_charge_log : leaves.

(** ** Going through a transaction *)
Lemma lands_set R `{!PreOrder R} {V B} (T : Tab JobDB string V) k g w (f : unit -> M JobWorld B) : R (jw_db w) (t_upd T (alter g k) (jw_db w)) ->
  lands R (w <| jw_db ::= t_upd T (alter g k) |>) (f tt) -> lands R w (bind (job_set T k g) f).
Proof. intros H1 H2 b w' Hb. apply bind_ok in Hb as ([] & w1 & [= <-] & Hb). etransitivity; [exact H1|]. by eapply H2. Qed.
Lemma lands_set_last R {V} (T : Tab JobDB string V) k g w : R (jw_db w) (t_upd T (alter g k) (jw_db w)) -> lands R w (job_set T k g).
Proof. intros H1 b w' [= _ <-]. exact H1. Qed.
Lemma lands_update R {V} (T : Tab JobDB string V) g w : R (jw_db w) (t_upd T g (jw_db w)) -> lands R w (job_update T g).
Proof. intros H1 b w' [= _ <-]. exact H1. Qed.
Lemma lands_new_id {P : Platform} R {B} w (f : string -> M JobWorld B) : lands R (w <| jw_ids ::= S |>) (f (uuid4_hex (jw_ids w))) -> lands R w (bind new_id f).
Proof. intros H b w' Hb. apply bind_ok in Hb as (a & w1 & [= <- <-] & Hb). by eapply H in Hb. Qed.
Lemma lands_when R `{!PreOrder R} {B} c m w (f : unit -> M JobWorld B) : (c = true -> lands R w (bind m f)) -> (c = false -> lands R w (f tt)) -> lands R w (bind (when c m) f).
Proof. destruct c; intros H1 H2; [by apply H1|]. intros b w' Hb. apply bind_ok in Hb as ([] & w1 & [= <-] & Hb). by eapply H2. Qed.
Lemma lands_when_last R `{!PreOrder R} c m w : (c = true -> lands R w m) -> lands R w (when c m).
Proof. destruct c; intros H1; [by apply H1|]. by intros b w' [= _ <-]. Qed.
Lemma lands_ret R `{!PreOrder R} {A} (a : A) w : lands R w (ret a).
Proof. by intros b w' [= _ <-]. Qed.
Lemma lands_ret_bind R {A B} (a : A) w (f : A -> M JobWorld B) : lands R w (f a) -> lands R w (bind (ret a) f).
Proof. intros H b w' Hb. by eapply H. Qed.
Lemma lands_the_job R {B} id w (f : Job -> M JobWorld B) : (forall j, jobs (jw_db w) !! id = Some j -> lands R w (f j)) -> lands R w (bind (the_job id) f).
Proof.
  intros H b w' Hb. apply bind_ok in Hb as (j & w1 & H1 & Hb). unfold the_job in H1. apply bind_ok in H1 as (o & w2 & [= <- <-] & H1). cbn in H1.
  destruct (jobs (jw_db w) !! id) eqn:E; [|done]. injection H1 as -> <-. by eapply H.
Qed.
Lemma lands_current R {B} job w (f : option Attempt -> M JobWorld B) :
  (forall o, (forall a, o = Some a -> attempt_of job a = true /\ exists k, job_attempts (jw_db w) !! k = Some a) -> lands R w (f o)) -> lands R w (bind (current_attempt job) f).
Proof.
  intros H b w' Hb. apply bind_ok in Hb as (o & w1 & H1 & Hb). unfold current_attempt in H1. apply bind_ok in H1 as (l & w2 & [= <- <-] & [= <- <-]).
  eapply H; [|exact Hb]. intros a Ha. apply head_Some_elem_of in Ha. by apply elem_of_rows in Ha.
Qed.

(** Two updates that make one move: the first leaves the database it started
    from to be related later. *)
Definition lands_from (R : JobDB -> JobDB -> Prop) {A} (d : JobDB) (w : JobWorld) (m : M JobWorld A) : Prop := forall a w', m w = (Ok a, w') -> R d (jw_db w').
Lemma lands_add R {V B} (T : Tab JobDB string V) clash k row w (f : unit -> M JobWorld B) :
  (t_get T (jw_db w) !! k = None -> (forall j x, t_get T (jw_db w) !! j = Some x -> clash x = false) ->
   lands_from R (jw_db w) (w <| jw_db ::= t_upd T (insert k row) |>) (f tt)) -> lands R w (bind (job_add T clash k row) f).
Proof. intros H b w' Hb. apply bind_ok in Hb as ([] & w1 & H1 & Hb). apply job_add_ok in H1 as (Hn & Hc & ->). by eapply H. Qed.
Lemma from_pure R {A B} (m : M JobWorld A) d w (f : A -> M JobWorld B) : (forall w, (m w).2 = w) -> (forall a, lands_from R d w (f a)) -> lands_from R d w (bind m f).
Proof. intros Hp H b w' Hb. apply bind_ok in Hb as (a & w1 & H1 & Hb). specialize (Hp w). rewrite H1 in Hp. cbn in Hp. subst. by eapply H. Qed.
Lemma from_new_id {P : Platform} R {B} d w (f : string -> M JobWorld B) : lands_from R d (w <| jw_ids ::= S |>) (f (uuid4_hex (jw_ids w))) -> lands_from R d w (bind new_id f).
Proof. intros H b w' Hb. apply bind_ok in Hb as (a & w1 & [= <- <-] & Hb). by eapply H. Qed.
Lemma from_set R `{!PreOrder R} {V B} (T : Tab JobDB string V) k g d w (f : unit -> M JobWorld B) : R d (t_upd T (alter g k) (jw_db w)) ->
  lands R (w <| jw_db ::= t_upd T (alter g k) |>) (f tt) -> lands_from R d w (bind (job_set T k g) f).
Proof. intros H1 H2 b w' Hb. apply bind_ok in Hb as ([] & w1 & [= <-] & Hb). etransitivity; [exact H1|]. by eapply H2. Qed.

Ltac land_step :=
  lazymatch goal with
  | |- lands _ _ (bind (job_get _ _) _) => apply lands_get
  | |- lands _ _ (bind (job_select _ _) _) => apply lands_gets
  | |- lands _ _ (bind (gets _) _) => apply lands_gets
  | |- lands _ _ (bind utcnow _) => apply lands_gets
  | |- lands _ _ (bind new_id _) => apply lands_new_id
  | |- lands _ _ (bind (ret _) _) => apply lands_ret_bind
  | |- lands _ _ (bind (lift _) _) => apply lands_lift; intros ? ?
  | |- lands _ _ (bind (throw_if _ _) _) => apply lands_guard; intros ?
  | |- lands _ _ (bind (raise_if _ _ _) _) => apply lands_raise_if; intros ?
  | |- lands _ _ (bind (row_or _ _) _) => apply lands_row_or; intros ? ?
  | |- lands _ _ (bind (the_job _) _) => apply lands_the_job; intros ? ?
  | |- lands _ _ (bind (job_add _ _ _ _) _) => fail
  | |- lands _ _ (bind (current_attempt _) _) => apply lands_current; intros ? ?
  | |- lands _ _ (bind (when _ _) _) => apply lands_when; [apply _|intros ?|intros ?]
  | |- lands _ _ (bind (job_set _ _ _) _) => apply lands_set; [apply _| |]
  | |- lands _ _ (bind (match ?x with _ => _ end) _) => destruct x eqn:?
  | |- lands _ _ (bind _ _) => apply lands_bind; [apply _| |intros ? ? _]
  | |- lands _ _ (job_set _ _ _) => apply lands_set_last
  | |- lands _ _ (job_update _ _) => apply lands_update
  | |- lands _ _ (when _ _) => apply lands_when_last; [apply _|intros ?]
  | |- lands _ _ (ret _) => apply lands_ret; apply _
  | |- lands _ _ (throw _) => by intros ? ?
  | |- lands _ _ (raise _ _) => by intros ? ?
  | |- lands _ _ (match ?x with _ => _ end) => destruct x eqn:?
  | |- lands _ _ (let '_ := ?x in _) => destruct x eqn:?
  | |- lands _ _ _ => apply lands_leaves; solve [eauto with leaves]
  | |- refines _ _ => solve [idle_table]
  end; cbn [t_get t_upd JOBS JOB_ATTEMPTS ALLOCATIONS] in *.
Ltac land := repeat land_step.

Section Where.
Context {P : Platform} {U : Unicode}.
Lemma idle_allocations_where p f : (forall a, p a = true -> al_id (f a) = al_id a /\ hold_face (f a) = hold_face a) -> leaves refines (job_update_where ALLOCATIONS p f).
Proof. intros Hf. unfold job_update_where. leave. by apply core_allocations_where. Qed.
Lemma idle_staged attempt_id s : leaves refines (job_update_where ALLOCATIONS (live_of_attempt attempt_id) (fun a => a <| al_state ::= stage_allocation s |>)).
Proof.
  apply idle_allocations_where. intros a Ha. unfold live_of_attempt in Ha. apply andb_true_iff in Ha as [_ Ha].
  split; [by destruct a|]. destruct a, s; cbn in *; unfold hold_face; cbn; by rewrite ?Ha.
Qed.
End Where.
#[export] Hint Resolve idle_staged : leaves.

(** The guards of a command, and the states they leave. *)
Ltac guards := rewrite ?orb_false_iff, ?negb_false_iff, ?andb_true_iff, ?negb_true_iff in *; destruct_and?; unfold job_in in *.
Ltac by_state E := repeat match goal with H : context[jb_state _] |- _ => rewrite E in H end; rewrite ?E; cbn;
  try (exfalso; by repeat match goal with H : bool_decide _ = _ |- _ => vm_compute in H end); repeat case_match; first [by left|by right|by auto].
Ltac job_move Hj := lazymatch type of Hj with _ = Some ?j =>
  apply (refines_job _ _ j); [exact Hj|done|done|done|guards; let E := fresh "E" in destruct (jb_state j) eqn:E; by_state E] end.

(** ** The controller *)
Section Controller.
Context {P : Platform} {U : Unicode}.

Lemma claim_refines id topics w : safely refines w (_claim id topics).
Proof. apply safely_transaction, lands_leaves; [apply _|]. idle. Qed.
Lemma finish_refines c d e w : safely refines w (_finish_claim c d e).
Proof. apply safely_transaction, lands_leaves; [apply _|]. idle. Qed.
Lemma restoration_refines w : safely refines w _queue_proxy_restoration.
Proof. apply safely_transaction, lands_leaves; [apply _|]. unfold queue_restoration. idle. Qed.
Lemma set_phase_refines job_id attempt_id epoch s phase w : safely refines w (_set_phase job_id attempt_id epoch s phase).
Proof.
  apply safely_transaction; [apply _|]. land. destruct s; job_move Heqo.
Qed.
Lemma failure_refines job_id code transient w : safely refines w (_request_failure job_id code transient).
Proof.
  apply safely_transaction; [apply _|]. unfold want_failed, blame, detail. land; job_move Heqo.
Qed.
Lemma completion_refines job_id round w : safely refines w (_request_completion job_id round).
Proof. apply safely_transaction; [apply _|]. land. job_move Heqo. Qed.
Lemma attention_refines job_id reason w : safely refines w (_attention job_id reason).
Proof. apply safely_transaction; [apply _|]. land. job_move Heqo. Qed.
Lemma quarantine_refines job_id w : safely refines w (_quarantine job_id).
Proof. apply safely_transaction; [apply _|]. land. Qed.

(** The end of a job, whatever was done before it. *)
Lemma terminal_lands j o reason w : jobs (jw_db w) !! jb_id j = Some j -> lands refines w (_terminal_in_transaction j o reason).
Proof.
  intros Hj. unfold _terminal_in_transaction. land; destruct o; job_move Hj.
Qed.
Lemma terminal_refines job_id o reason w : safely refines w (_terminal job_id o reason).
Proof.
  apply safely_transaction; [apply _|]. apply lands_named. intros Hn. land. apply terminal_lands. by rewrite (nm_jobs _ Hn _ _ Heqo0).
Qed.

(** A retry adds the row of the next attempt, then moves the job to it. *)
Lemma refines_retry d k j x a y row f : jobs d !! k = Some j -> jb_state j = RECONCILING -> job_attempts d !! x = Some a -> attempt_of j a = true -> over a = true ->
  job_attempts d !! y = None -> (forall z b, job_attempts d !! z = Some b -> ja_job_id b = k -> ja_number b <> jb_current_attempt j + 1 /\ ja_epoch b <> jb_epoch j + 1) ->
  ja_id row = y -> attempt_face row = mkAttemptFace k (jb_current_attempt j + 1) (jb_epoch j + 1) false ->
  jb_id (f j) = jb_id j -> job_face (f j) = requeued (job_face j) ->
  refines d (t_upd JOBS (alter f k) (t_upd JOB_ATTEMPTS (insert y row) d)).
Proof.
  intros Hk Hs Hx Ha Ho Hy Hu Er Ef Ei Ej [N1 N2 N3]. split.
  - split; [apply (named_alter jb_id f k (jobs d)); [intros i Hi; by simplify_eq|exact N1]|by apply named_insert|done].
  - unfold machine at 2. cbn. rewrite (fmap_alter_face _ _ _ _ _ Hk), fmap_insert, Ef, Ej. apply run_one.
    apply andb_true_iff in Ha as [Ha1 Ha2]. apply String.eqb_eq in Ha1. apply Z.eqb_eq in Ha2.
    apply (retry_job (machine d) k (job_face j) x (attempt_face a) y); cbn; rewrite ?lookup_fmap, ?Hk, ?Hx, ?Hy; try done; [by rewrite Ha1; apply N1|].
    intros z b Hz. cbn in Hz. apply lookup_fmap_Some in Hz as (c & <- & Hz). by apply (Hu z c).
Qed.
Lemma retry_refines job_id manual w : safely refines w (_retry job_id manual).
Proof.
  apply safely_transaction; [apply _|]. apply lands_named. intros Hn. unfold _retry. land.
  1, 2: apply terminal_lands; by rewrite (nm_jobs _ Hn _ _ ltac:(eassumption)).
  apply lands_add; cbn [t_get t_upd JOB_ATTEMPTS]. intros Hy Hc. apply from_pure; [by destruct manual|]. intros delay.
  destruct (H0 a0 ltac:(done)) as (Ha & x & Hx). guards. apply from_set; [apply _| |land].
  eapply (refines_retry _ _ a x a0); try done; [by apply bool_decide_eq_true in Heqb; set_solver| |].
  - intros z b Hz E. specialize (Hc z b Hz). rewrite E, String.eqb_refl in Hc. cbn in Hc. apply orb_false_iff in Hc as [C1 C2].
    by apply Z.eqb_neq in C1, C2.
  - unfold attempt_face. cbn. by rewrite (nm_jobs _ Hn _ _ ltac:(eassumption)).
Qed.
Lemma round_refines job_id round w : safely refines w (_authoritative_round job_id round).
Proof. apply safely_transaction; [apply _|]. land. Qed.

(** Reports: what they change is the row of a live reservation. *)
Definition reports (apply : Job -> Attempt -> Allocation -> M JobWorld unit) : Prop :=
  forall w j t a k, named (jw_db w) -> allocations (jw_db w) !! k = Some a -> allocation_live (al_state a) = true -> lands refines w (apply j t a).
Lemma callback_refines job_id attempt_id component_id epoch apply_ w : reports apply_ -> safely refines w (_callback job_id attempt_id component_id epoch apply_).
Proof.
  intros Ha. apply safely_transaction; [apply _|]. apply lands_named. intros Hn. unfold callback_body. land.
  assert (Hl : a0 ∈ rows (reservation_of job_id attempt_id component_id epoch) (allocations (jw_db w))) by (rewrite Heql; left).
  apply elem_of_rows in Hl as (Hl & k & Hk). eapply Ha; [done|exact Hk|]. unfold reservation_of in Hl. by apply andb_true_iff in Hl as [_ ?].
Qed.
Lemma ack_refines job_id attempt_id component_id epoch w : safely refines w (ack_assignment job_id attempt_id component_id epoch).
Proof.
  apply callback_refines. intros v j t a k Hn Hk Hl. land. rewrite (nm_allocations _ Hn _ _ Hk). eapply refines_hold; [exact Hk|done..| |by left]. by rewrite Hl.
Qed.
Lemma heartbeat_refines job_id attempt_id component_id epoch w : safely refines w (heartbeat job_id attempt_id component_id epoch).
Proof. apply callback_refines. intros v j t a k Hn Hk Hl. land. Qed.
Lemma stop_refines job_id attempt_id component_id epoch w : safely refines w (stop_confirmation job_id attempt_id component_id epoch).
Proof.
  apply callback_refines. intros v j t a k Hn Hk Hl. land. rewrite (nm_allocations _ Hn _ _ Hk). eapply refines_hold; [exact Hk|done..| |by right]. by rewrite Hl.
Qed.
Lemma progress_refines job_id attempt_id component_id epoch p w : safely refines w (progress job_id attempt_id component_id epoch p).
Proof.
  unfold progress. unfold safely, bind, lift. destruct (check_progress p) as [[]|e]; [|done].
  apply callback_refines. intros v j t a k Hn Hk Hl. apply lands_leaves. unfold progress_apply. idle.
Qed.
Lemma logs_refines job_id attempt_id component_id epoch data w : safely refines w (append_logs job_id attempt_id component_id epoch data).
Proof.
  unfold append_logs. unfold safely, throw_if. destruct (65536 <? utf8_len data); [done|].
  apply callback_refines. intros v j t a k Hn Hk Hl. apply lands_leaves. unfold append_apply, next_chunk.
  idle.
Qed.
End Controller.

(** ** Fences, evidence and release *)
Section Fences.
Context {P : Platform} {U : Unicode}.

Lemma begin_refines job attempt component_id action desired w : safely refines w (begin_operation job attempt component_id action desired).
Proof. apply safely_transaction, lands_leaves; [apply _|]. idle. Qed.
Lemma fail_refines id refused error w : safely refines w (fail_operation id refused error).
Proof. apply safely_transaction, lands_leaves; [apply _|]. idle. Qed.
Lemma confirm_refines job attempt id observed w : safely refines w (confirm_operation job attempt id observed).
Proof. apply safely_transaction, lands_leaves; [apply _|]. idle. Qed.
Lemma never_started_refines claim job_id attempt_id w : safely refines w (_confirm_never_started claim job_id attempt_id).
Proof.
  unfold _confirm_never_started. set (body := job_transaction _).
  assert (Hb : forall v, safely refines v body) by (intros v; apply safely_transaction; [apply _|]; land).
  unfold safely, bind. assert (Hc : (_require_claim claim w).2 = w).
  { unfold _require_claim. destruct claim; [|done]. unfold bind, _claim_current, throw_if. cbn. by case_match. }
  destruct (_require_claim claim w) as [[[]|e] w1]; cbn in Hc; subst; [apply Hb|done].
Qed.
Lemma desired_refines attempt_id o reason w : safely refines w (record_desired attempt_id o reason).
Proof. apply safely_transaction, lands_leaves; [apply _|]. idle. Qed.
Lemma revoked_refines attempt_id w : safely refines w (record_revoked attempt_id).
Proof.
  apply safely_transaction; [apply _|]. land. apply refines_attempt. intros a0. split_and!; [by destruct a0..|]. by apply over_more.
Qed.
Lemma evidence_refines attempt_id details w : safely refines w (record_evidence attempt_id details).
Proof. apply safely_transaction, lands_leaves; [apply _|]. idle. Qed.

(** What is recorded of a fence that saw everything stopped is a known
    publication, as [PublicationObservation] ensures. *)
Lemma observed_known known status round publication : observe known status round = Ok publication -> pu_known publication = true -> mem_str (pu_status publication) KNOWN_PUBLICATIONS = true.
Proof.
  unfold observe. destruct (negb (mem_str status _)); [done|]. destruct (negb (Bool.eqb _ _)) eqn:E; [done|]. case_match; [done|]. intros [= <-]. cbn. intros ->.
  apply negb_false_iff, Bool.eqb_prop in E. done.
Qed.
Lemma stopped_refines job_id attempt_id publication evidence w : mem_str (pu_status publication) KNOWN_PUBLICATIONS = true ->
  safely refines w (record_stopped job_id attempt_id publication evidence).
Proof.
  intros Hp. apply safely_transaction; [apply _|]. land. apply refines_attempt. intros a0. split_and!; [by destruct a0..|]. by apply over_more.
Qed.

(** A reservation is given up with its devices, once it was stopped. *)
Lemma refines_free f k a d g : allocations d !! k = Some a -> al_termination_confirmed a = true -> al_id (f a) = al_id a -> hold_face (f a) = given_up (hold_face a) ->
  (forall x, device_face (g x) = returned k (device_face x)) -> refines d (t_upd GPU_ALLOCATIONS (fmap g) (t_upd ALLOCATIONS (alter f k) d)).
Proof.
  intros Hk Ht Ei Ef Eg [N1 N2 N3]. split; [split; [done|done|]; apply (named_alter al_id f k (allocations d)); [intros i Hi; by simplify_eq|exact N3]|].
  unfold machine at 2. cbn. rewrite (fmap_alter_face _ _ _ _ _ Hk), Ef. replace (device_face <$> (g <$> gpu_allocations d)) with (returned k <$> (device_face <$> gpu_allocations d)).
  - apply run_one. apply (free_hold (machine d) k (hold_face a)); cbn; [by rewrite lookup_fmap, Hk|done].
  - rewrite <- !map_fmap_compose. apply map_fmap_ext. intros i x _. cbn. by rewrite Eg.
Qed.
Lemma release_refines allocation_id w : safely refines w (release_reserved allocation_id).
Proof.
  apply safely_transaction; [apply _|]. unfold release_reserved. land_step. land_step. land_step; [by land|]. land_step.
  intros b w' Hb. apply bind_ok in Hb as ([] & w1 & [= <-] & Hb). apply bind_ok in Hb as ([] & w2 & [= <-] & [= _ <-]). guards.
  eapply (refines_free _ _ a); try done. intros x. unfold device_face, returned. cbn. destruct (String.eqb_spec (ga_allocation_id x) allocation_id) as [E|E]; cbn.
  - destruct (ga_released_at x) eqn:Er; cbn; [|done]. by rewrite Er.
  - done.
Qed.

Lemma idle_linked a pointer kind : leaves refines (linked_resource a pointer kind).
Proof. unfold linked_resource. leave. Qed.
#[local] Hint Resolve idle_linked : leaves.
Lemma collection_refines job attempt a w : safely refines w (_reserve_collection job attempt a).
Proof. apply safely_transaction, lands_leaves; [apply _|]. idle. Qed.
Lemma retain_refines job attempt a w : safely refines w (_retain_execution_state job attempt a).
Proof. apply safely_transaction, lands_leaves; [apply _|]. idle. Qed.
Lemma storage_refines job_id w : safely refines w (record_storage_deleted job_id).
Proof.
  apply safely_transaction, lands_leaves; [apply _|]. unfold record_storage_deleted, job_update_where. leave; [|idle_table]. apply core_allocations_where. by intros [].
Qed.
Lemma cleanup_refines t job_id confirmed w : safely refines w (record_cleanup t job_id confirmed).
Proof. apply safely_transaction; [apply _|]. land. apply core_jobs. intros []. by destruct t, confirmed. Qed.
End Fences.

(** ** Commands *)
Section Commands.
Context {P : Platform} {U : Unicode} {C : Calendar}.

Lemma safely_lift {A B} (r : result A) w (f : A -> M JobWorld B) : (forall a, r = Ok a -> safely refines w (f a)) -> safely refines w (bind (lift r) f).
Proof. intros H. unfold safely, bind, lift. destruct r as [a|e]; [by apply H|done]. Qed.
Lemma idle_remember scope actor key row : leaves refines (remember scope actor key row).
Proof. intros w a w' [= _ <-]. by apply refines_core. Qed.
Lemma idle_row scope actor key : leaves refines (idempotency_row scope actor key).
Proof. unfold idempotency_row. leave. Qed.
Lemma idle_member job actor : leaves refines (job_member job actor).
Proof. unfold job_member. leave. Qed.
Lemma idle_set_member job actor role : leaves refines (set_member job actor role).
Proof. intros w a w' [= _ <-]. by apply refines_core. Qed.
Lemma idle_drop_member job actor : leaves refines (drop_member job actor).
Proof. intros w a w' [= _ <-]. by apply refines_core. Qed.
Lemma idle_preserve job : leaves refines (_preserve_admin job).
Proof. unfold _preserve_admin. leave. Qed.
#[local] Hint Resolve idle_remember idle_row idle_member idle_set_member idle_drop_member idle_preserve : leaves.

Lemma once_lands actor scope key body action replay w : lands refines w action -> (forall r, leaves refines (replay r)) -> lands refines w (_once actor scope key body action replay).
Proof.
  intros Ha Hr. unfold _once. land_step. land_step. apply lands_gets. land_step.
  - land_step. by apply lands_leaves.
  - apply lands_bind; [apply _|done|]. intros r w1 _. apply lands_leaves. idle.
Qed.

Definition commands (action : Job -> string -> M JobWorld unit) : Prop :=
  forall w j actor, jobs (jw_db w) !! jb_id j = Some j -> lands refines w (action j actor).
Lemma command_refines principal job_id role key expected kind data action allow_purged w : commands action ->
  safely refines w (_command principal job_id role key expected kind data action allow_purged).
Proof.
  intros Ha. unfold _command, authorized. apply safely_lift. intros actor _. apply safely_transaction; [apply _|]. apply lands_named. intros Hn.
  land_step. unfold job_member. apply lands_bind; [apply _|by apply lands_leaves; leave|]. intros member w1 E1.
  assert (w1 = w) as -> by (destruct (jobs (jw_db w) !! job_id); by injection E1).
  land_step. land_step; [|by intros ? ?]. land_step; [|by intros ? ?]. apply once_lands; [|intros r; leave]. unfold execute_command.
  land_step. land_step. land_step. apply lands_bind; [apply _| |intros ? ? _; apply lands_leaves; idle].
  apply Ha. by rewrite (nm_jobs _ Hn _ _ ltac:(eassumption)).
Qed.

Lemma cancel_refines principal job_id expected key w : safely refines w (cancel principal job_id expected key).
Proof.
  apply command_refines. intros v j actor Hj. unfold cancel_action. land. job_move Hj.
Qed.
Lemma user_retry_refines principal job_id expected key w : safely refines w (retry principal job_id expected key).
Proof. apply command_refines. intros v j actor Hj. unfold retry_action. land. job_move Hj. Qed.
Lemma reconcile_refines principal job_id expected key evidence w : safely refines w (reconcile principal job_id expected key evidence).
Proof. apply safely_lift. intros e _. apply command_refines. intros v j actor Hj. unfold reconcile_action. land. job_move Hj. Qed.
Lemma purge_refines principal job_id expected key w : safely refines w (purge principal job_id expected key).
Proof. apply command_refines. intros v j actor Hj. unfold purge_action. land. Qed.
Lemma put_member_refines principal job_id member_id role expected key w : safely refines w (put_member principal job_id member_id role expected key).
Proof.
  apply safely_lift. intros m _. apply safely_lift. intros known _. destruct role; try done. destruct known; [|done].
  apply command_refines. intros v j actor Hj. apply lands_leaves. unfold put_member_action. idle.
Qed.
Lemma delete_member_refines principal job_id member_id expected key w : safely refines w (delete_member principal job_id member_id expected key).
Proof.
  apply safely_lift. intros m _. apply command_refines. intros v j actor Hj. apply lands_leaves. unfold delete_member_action. idle.
Qed.

(** The submission of a job adds its row and that of its first attempt. *)
Lemma refines_submit d k x j a : jobs d !! k = None -> job_attempts d !! x = None ->
  (forall z b, job_attempts d !! z = Some b -> ja_job_id b = k -> ja_number b <> 1 /\ ja_epoch b <> 1) ->
  jb_id j = k -> ja_id a = x -> job_face j = mkJobFace QUEUED 0 1 -> attempt_face a = mkAttemptFace k 1 1 false ->
  refines d (t_upd JOB_ATTEMPTS (insert x a) (t_upd JOBS (insert k j) d)).
Proof.
  intros Hk Hx Hu Ej Ea Fj Fa [N1 N2 N3]. split; [split; [by apply named_insert|by apply named_insert|done]|].
  unfold machine at 2. cbn. rewrite !fmap_insert, Fj, Fa. apply run_one. apply (submit (machine d) k x); cbn; rewrite ?lookup_fmap, ?Hk, ?Hx; try done.
  intros z b Hz. cbn in Hz. apply lookup_fmap_Some in Hz as (c & <- & Hz). by apply (Hu z c).
Qed.
Lemma create_refines storage_planner principal spec key w : safely refines w (create_job storage_planner principal spec key).
Proof.
  apply safely_lift. intros actor _. apply safely_lift. intros ? _. apply safely_lift. intros spec' _. apply safely_transaction; [apply _|].
  land_step. apply lands_bind; [apply _|by apply lands_leaves; leave|]. intros role w1 _. land_step. apply once_lands.
  - unfold create_action. land. apply lands_add; cbn [t_get t_upd JOBS]. intros Hk _ b w' Hb.
    apply bind_ok in Hb as ([] & w2 & [= <-] & Hb). apply bind_ok in Hb as (x & w3 & [= <- <-] & Hb). apply bind_ok in Hb as ([] & w4 & Hx & Hb).
    apply job_add_ok in Hx as (Hx & Hc & ->). etransitivity; [|eapply leaves_bind; [apply _|apply idle_emit|intros ?; apply idle_answer|exact Hb]].
    lazymatch goal with |- context[insert ?x (first_attempt _ ?k)] => lazymatch goal with |- context[queued_job k ?s ?h ?now] => etransitivity;
      [apply (refines_submit _ k x (queued_job k s h now) (first_attempt x k)); [exact Hk|exact Hx| |done..]|by apply refines_core] end end.
    intros z c Hz E. specialize (Hc z c Hz). rewrite E, String.eqb_refl in Hc. cbn in Hc. apply orb_false_iff in Hc as [C1 C2]. by apply Z.eqb_neq in C1, C2.
  - intros r. unfold create_replay. leave.
Qed.
End Commands.
