(* ===== verification/JobAdmission.v ===== *)
(** * A pass of the scheduler refines the abstract lifecycle

    An admission takes the queued attempt of its job to the next epoch, when
    nothing of the job is reserved any more, and reserves the components of the
    job and their devices under that epoch. *)

From stdpp Require Import base gmap strings list fin_maps fin_sets relations sorting.
From Stdlib Require Import ZArith Lia.
From S2P Require Import Prelude Json Domain Placement JobSpec Recovery JobModels Retention BlobBudget Scheduler Gang Controller Fence Views Commands Submission JobMachine SchedulerLogic SchedulerTheory PassTheory Devices JobRefinement.

(** ** One admission *)
Definition live_job (d : JobDB) (id : string) : Prop := exists k a, allocations d !! k = Some a /\ allocation_live (al_state a) = true /\ al_job_id a = id.

Lemma refines_admit d k j x a fj fa : jobs d !! k = Some j -> jb_state j = QUEUED -> job_attempts d !! x = Some a -> ja_job_id a = k -> ja_number a = jb_current_attempt j ->
  (forall y c, job_attempts d !! y = Some c -> ja_job_id c = k -> ja_epoch c = jb_epoch j + 1 -> y = x) -> ~ live_job d k ->
  jb_id (fj j) = jb_id j -> job_face (fj j) = admitted (job_face j) -> ja_id (fa a) = ja_id a -> attempt_face (fa a) = restarted (jb_epoch j + 1) (attempt_face a) ->
  refines d (t_upd JOBS (alter fj k) (t_upd JOB_ATTEMPTS (alter fa x) d)).
Proof.
  intros Hk Hs Hx Ej En Hu Hl Ij Fj Ia Fa [N1 N2 N3]. split.
  - split; [apply (named_alter jb_id fj k (jobs d)); [intros i Hi; by simplify_eq|exact N1]| |done].
    apply (named_alter ja_id fa x (job_attempts d)); [intros i Hi; by simplify_eq|exact N2].
  - unfold machine at 2. cbn. rewrite (fmap_alter_face _ _ _ _ _ Hk), (fmap_alter_face _ _ _ _ _ Hx), Fj, Fa. apply run_one.
    apply (admit_job (machine d) k (job_face j) x (attempt_face a)); cbn; rewrite ?lookup_fmap, ?Hk, ?Hx; try done.
    + intros y c Hy. cbn in Hy. apply lookup_fmap_Some in Hy as (b & <- & Hy). by apply Hu.
    + intros r h Hr Hh E. cbn in Hr. apply lookup_fmap_Some in Hr as (b & <- & Hr). apply Hl. by exists r, b.
Qed.

(** Devices are given to a reservation that is held. *)
Lemma assigns M id pool us g g' h : adds_gpus id pool us g g' -> m_devices M = device_face <$> g -> m_holds M !! id = Some h -> hf_held h = true ->
  run M (mkMachine (m_jobs M) (m_attempts M) (m_holds M) (device_face <$> g')).
Proof.
  intros Hg. revert M. induction Hg as [g|u us g g' gid Hn Hf _ IH]; intros M E Hh Hd.
  - rewrite <- E. by destruct M.
  - etransitivity; [apply run_one; apply (assign_device M gid (mkDeviceFace id u true) h); try done|].
    + by rewrite E, lookup_fmap, Hn.
    + intros i v Hi Hv Eu. rewrite E in Hi. apply lookup_fmap_Some in Hi as (x & <- & Hi). cbn in *. rewrite (Hf _ _ Hi Eu) in Hv. done.
    + apply (IH (mkMachine _ _ _ _)); cbn; [by rewrite E, fmap_insert|done|done].
Qed.

Lemma refines_reserve d d' job a id pool us : jobs d !! jb_id job = Some job -> allocations d !! id = None -> allocations d' = <[id := a]> (allocations d) ->
  adds_gpus id pool us (gpu_allocations d) (gpu_allocations d') -> jobs d' = jobs d -> job_attempts d' = job_attempts d ->
  al_id a = id -> al_job_id a = jb_id job -> al_epoch a = jb_epoch job -> allocation_live (al_state a) = true -> al_termination_confirmed a = false -> refines d d'.
Proof.
  intros Hj Hn Ea Hg Ej Et Ei E1 E2 E3 E4 [N1 N2 N3]. split; [split; [by rewrite Ej|by rewrite Et|rewrite Ea; by apply named_insert]|].
  unfold machine at 2. rewrite Ej, Et, Ea, fmap_insert. etransitivity.
  - apply run_one. apply (reserve_hold (machine d) id (job_face job) (hold_face a)); cbn; rewrite ?lookup_fmap, ?Hn, ?E1, ?Hj; done.
  - eapply (assigns (mkMachine _ _ _ _)); [exact Hg|done|cbn; apply lookup_insert_eq|done].
Qed.

Section Admissions.
Context {P : Platform} {U : Unicode}.

Definition bystanders (d : JobDB) := (jobs d, job_attempts d).
Lemma bystanders_allocate job att now acc c : leaves (same bystanders) (allocate job att now acc c).
Proof. unfold allocate. leave. Qed.
Lemma allocate_refines job att now pass asg created c w pass' asg' created' w' :
  allocate job att now (pass, asg, created) c w = (Ok (pass', asg', created'), w') -> jobs (jw_db w) !! jb_id job = Some job ->
  refines (jw_db w) (jw_db w') /\ jobs (jw_db w') !! jb_id job = Some job.
Proof.
  intros H Hj. pose proof (bystanders_allocate _ _ _ _ _ _ _ _ H) as [= E1 E2]. split; [|by rewrite E1].
  apply allocate_ok in H as (id & pool & Hid & Ha & _ & _ & _ & Hg). by eapply refines_reserve.
Qed.
Lemma allocate_all_refines job att now cs pass asg created w pass' asg' created' w' :
  foldM (allocate job att now) (pass, asg, created) cs w = (Ok (pass', asg', created'), w') -> jobs (jw_db w) !! jb_id job = Some job -> refines (jw_db w) (jw_db w').
Proof.
  revert pass asg created w. induction cs as [|c cs IH]; intros pass asg created w H Hj; cbn [foldM] in H; [by injection H as _ _ _ <-|].
  apply bind_ok in H as ([[p1 a1] c1] & w1 & H1 & H). apply allocate_refines in H1 as [R1 Hj1]; [|done]. etransitivity; [exact R1|]. by eapply IH.
Qed.

Lemma idle_plan_entry job spec now acc planned : leaves refines (plan_entry job spec now acc planned).
Proof. unfold plan_entry. idle. Qed.
Lemma idle_reserve_storage job a acc e : leaves refines (reserve_storage job a acc e).
Proof. unfold reserve_storage. idle. Qed.
Lemma idle_bind_link a id : leaves refines (bind_link a id).
Proof. unfold bind_link. idle. Qed.
Lemma idle_link job links pass a : leaves refines (link_allocation job links pass a).
Proof. unfold link_allocation. idle. Qed.
Lemma idle_count request now b : leaves refines (count_backfill request now b).
Proof. unfold count_backfill. idle. Qed.
#[local] Hint Resolve idle_plan_entry idle_reserve_storage idle_bind_link idle_link idle_count : leaves.
Lemma idle_plan_storage job spec now acc plans : leaves refines (plan_storage job spec now acc plans).
Proof. revert acc. induction plans as [|p plans IH]; intros acc; cbn [plan_storage]; leave. Qed.
#[local] Hint Resolve idle_plan_storage : leaves.

Lemma admit_refines job0 spec now plan asg pass w : named (jw_db w) -> jobs (jw_db w) !! jb_id job0 = Some job0 -> jb_state job0 = QUEUED -> ~ live_job (jw_db w) (jb_id job0) ->
  lands refines w (admit_gang job0 spec now plan asg pass).
Proof.
  intros Hn Hj Hs Hl b w' H. unfold admit_gang in H. apply bind_ok in H as (att & w1 & H1 & H).
  unfold take_attempt in H1. apply bind_ok in H1 as (found & w2 & [= <- <-] & H1). apply bind_ok in H1 as (a & w3 & H2 & H1).
  destruct (head (rows _ _)) as [a0|] eqn:Eh; [|done]. injection H2 as -> <-. apply head_Some_elem_of in Eh. apply elem_of_rows in Eh as (Ha & x & Hx).
  apply bind_ok in H1 as (clash & w4 & [= <- <-] & H1). apply bind_ok in H1 as ([] & w5 & H2 & H1). apply throw_if_ok in H2 as [Hc ->].
  apply bind_ok in H1 as ([] & w6 & [= <-] & [= <- <-]). apply bind_ok in H as ([] & w7 & [= <-] & H).
  apply andb_true_iff in Ha as [Ha1 Ha2]. apply String.eqb_eq in Ha1. apply Z.eqb_eq in Ha2. pose proof (nm_attempts _ Hn _ _ Hx) as <-.
  etransitivity; cycle 1.
  - apply bind_ok in H as (job & w8 & H1 & H). apply the_job_ok in H1 as [Hj1 ->]. apply bind_ok in H as ([[p1 a1] created] & w9 & H1 & H).
    etransitivity; [eapply allocate_all_refines; [exact H1|]|].
    + replace (jb_id job) with (jb_id job0); [done|]. cbn in Hj1. rewrite lookup_alter_eq, Hj in Hj1. by injection Hj1 as <-.
    + clear H1. match type of H with ?m _ = _ => enough (Hi : leaves refines m) by (by eapply Hi) end. idle.
  - apply (refines_admit (jw_db w) (jb_id job0) job0 (ja_id a) a); try done.
    + intros y c Hy E1 E2. destruct (rows _ (job_attempts (jw_db w))) eqn:Er; [|done]. destruct (decide (y = ja_id a)) as [|Hne]; [done|].
      pose proof (proj1 (rows_nil _ _) Er y c Hy) as Hf. cbn in Hf. rewrite E1, E2, String.eqb_refl, Z.eqb_refl, (nm_attempts _ Hn _ _ Hy) in Hf. cbn in Hf.
      apply negb_false_iff, String.eqb_eq in Hf. done.
    + unfold attempt_face, restarted, over. cbn. by rewrite andb_false_r.
Qed.

(** ** A job of the queue *)
Lemma plan_storage_pure job spec now acc plans w plan w' : plan_storage job spec now acc plans w = (Ok (Some plan), w') -> w' = w.
Proof.
  revert acc w. induction plans as [|planned plans IH]; intros acc w H; cbn [plan_storage] in H; [by injection H as _ <-|].
  apply bind_ok in H as ([acc1|] & w1 & H1 & H); [|done]. apply IH in H as ->. unfold plan_entry in H1.
  apply bind_ok in H1 as (ps & w2 & [= <- <-] & H). apply bind_ok in H as (p & w2 & H2 & H). apply lift_ok in H2 as [_ ->].
  apply bind_ok in H as ([] & w2 & H2 & H). apply lift_ok in H2 as [_ ->]. destruct (_ !! pn_pool_id p); [|done].
  destruct (negb _ || _); [by apply bind_ok in H as (? & ? & _ & [=])|]. apply bind_ok in H as (found & w2 & [= <- <-] & H).
  apply bind_ok in H as ([] & w2 & H2 & H). apply lift_ok in H2 as [_ ->]. case_match; [|by injection H as _ <-]. case_match; [|by injection H as _ <-].
  apply bind_ok in H as ([] & w2 & H2 & H). apply lift_ok in H2 as [_ ->]. by injection H as _ <-.
Qed.

Lemma schedule_job_refines storage now limit active pass id w j : named (jw_db w) -> jobs (jw_db w) !! id = Some j -> jb_state j = QUEUED ->
  (id ∉ active -> ~ live_job (jw_db w) id) -> lands refines w (schedule_job storage now limit active pass id).
Proof.
  intros Hn Hj Hs Hl. pose proof (nm_jobs _ Hn _ _ Hj) as Ei. unfold schedule_job. land_step; [by land|]. land_step.
  match goal with H : jobs _ !! id = Some ?x |- _ => assert (x = j) as -> by congruence end. land_step; [by land|]. apply bool_decide_eq_false in Heqb0.
  land_step; [land; apply (refines_job _ _ j); try done; right; by rewrite Hs|]. land_step; [by land|]. unfold schedule_ready, place_job.
  land_step. land_step. land_step; [by land|]. land_step. apply lands_bind; [apply _|apply lands_leaves; by eauto with leaves|]. intros [plan|] w1 Hp; [|by land].
  apply plan_storage_pure in Hp as ->. land_step. land_step. land_step. land_step; [by land|]. land_step; [by land|].
  apply lands_bind; [apply _| |].
  { intros b w' Hb. by apply protected_pure in Hb as [-> _]. }
  intros hit w2 Hq. apply protected_pure in Hq as [-> _]. land_step; [by land|]. land_step; [|by intros ? ?].
  apply admit_refines; rewrite ?Ei; auto.
Qed.

(** ** The queue *)

(** Only job [id] comes to hold reservations. *)
Definition others_hold (id : string) (d d' : JobDB) : Prop := forall j, j <> id -> live_job d' j -> live_job d j.
#[local] Instance others_hold_po id : PreOrder (others_hold id).
Proof. split; [by intros d j|]. intros d1 d2 d3 H1 H2 j Hj H. by apply H1, H2. Qed.
Lemma others_allocations id d d' : (forall k a, allocations d' !! k = Some a -> al_job_id a = id \/ exists a0, allocations d !! k = Some a0 /\ al_job_id a0 = al_job_id a /\ al_state a0 = al_state a) ->
  others_hold id d d'.
Proof. intros H j Hj (k & a & Hk & Hl & E). destruct (H k a Hk) as [?|(a0 & H0 & E1 & E2)]; [congruence|]. exists k, a0. split_and!; congruence. Qed.
Lemma others_holdings id d d' : same holdings d d' -> others_hold id d d'.
Proof. intros [= E _]. apply others_allocations. rewrite E. eauto. Qed.
Lemma others_quiet id d d' : quiet d d' -> others_hold id d d'.
Proof. intros [_ _ H]. by apply others_holdings. Qed.
Lemma others_allocate job att now acc c : leaves (others_hold (jb_id job)) (allocate job att now acc c).
Proof.
  destruct acc as [[pass asg] created]. intros w [[p1 a1] c1] w' H. apply allocate_ok in H as (id & pool & _ & Ha & _). apply others_allocations. rewrite Ha.
  intros k a Hk. apply lookup_insert_Some in Hk as [[_ <-]|[_ Hk]]; eauto.
Qed.
Lemma others_link id job links pass a : leaves (others_hold id) (link_allocation job links pass a).
Proof.
  unfold link_allocation. leave. apply others_allocations. intros k x Hk. cbn in Hk. right. apply lookup_alter_Some in Hk as [(<- & y & Hy & ->)|[_ Hk]]; [|eauto].
  exists y. by destruct y.
Qed.
Lemma others_admission job0 spec now plan asg pass w w' job attempt created p3 :
  admission job0 spec now plan asg pass w w' job attempt created p3 -> others_hold (jb_id job0) (jw_db w) (jw_db w').
Proof.
  intros [a j p1 p2 p4 asg1 cr links w0 w1 w2 w3 w4 w5 w6 Q0 Ew Hj E1 E2 H2 H3 Q4 H5 Q6 H7].
  transitivity (jw_db w0); [by apply others_quiet|]. transitivity (jw_db w1); [rewrite Ew; by apply others_holdings|].
  transitivity (jw_db w2); [rewrite <- E1; eapply leaves_foldM; [apply _|intros; apply others_allocate|exact H2]|].
  transitivity (jw_db w3); [by eapply others_quiet, quiet_reserve_all|]. transitivity (jw_db w4); [by apply others_quiet|].
  transitivity (jw_db w5); [eapply leaves_foldM; [apply _|intros; apply others_link|exact H5]|]. transitivity (jw_db w6); [by apply others_quiet|].
  by eapply others_holdings, count_all_holdings.
Qed.
Lemma admission_standings job0 spec now plan asg pass w w' job attempt created p3 k :
  admission job0 spec now plan asg pass w w' job attempt created p3 -> k <> jb_id job0 -> standings (jw_db w') !! k = standings (jw_db w) !! k.
Proof.
  intros Ha Hne. apply calm_admission in Ha as (d1 & w6 & C1 & Cj & C2 & C3). rewrite (count_all_standings _ _ _ _ _ _ C3), (calm_standings _ _ C2), <- (calm_standings _ _ C1).
  unfold standings. cbn. by rewrite !lookup_fmap, lookup_alter_ne.
Qed.
Lemma step_others now limit id w w' pass pass' : job_step now limit id w w' pass pass' -> forall k, k <> id ->
  standings (jw_db w') !! k = standings (jw_db w) !! k /\ (live_job (jw_db w') k -> live_job (jw_db w) k).
Proof.
  intros Hs k Hk. assert (Hq : forall d d', quiet d d' -> standings d' !! k = standings d !! k /\ (live_job d' k -> live_job d k)).
  { intros d d' Q. rewrite (calm_standings _ _ (qu_calm _ _ Q)). split; [done|]. by eapply others_quiet. }
  destruct Hs as [Hqu|d1 -> Hqu|short Hqu _|job spec plan asg project w1 job1 att created p3 _ Hj Ej Hv Hqu Hask Hpj Hqr Hsh Has _ Ha]; [by apply Hq| |by apply Hq|].
  - destruct (Hq _ _ Hqu) as [E L]. split; [|exact L]. rewrite E. unfold standings. cbn. by rewrite !lookup_fmap, lookup_alter_ne.
  - subst id. destruct (Hq _ _ Hqu) as [E L]. split; [by rewrite (admission_standings _ _ _ _ _ _ _ _ _ _ _ _ _ Ha)|].
    intros H. apply L. by eapply others_admission.
Qed.

(** The jobs still to be considered are queued, and hold nothing new. *)
Definition waiting (active : gset string) (d : JobDB) (todo : list string) : Prop :=
  forall id, id ∈ todo -> (exists e, standings d !! id = Some (QUEUED, e)) /\ (id ∉ active -> ~ live_job d id).
Lemma queue_refines storage now limit active todo pass w pass' w' : foldM (schedule_job storage now limit active) pass todo w = (Ok pass', w') ->
  NoDup todo -> waiting active (jw_db w) todo -> refines (jw_db w) (jw_db w').
Proof.
  revert pass w. induction todo as [|id todo IH]; intros pass w H Hd Hw Hn; cbn [foldM] in H; [by injection H as _ <-|].
  apply bind_ok in H as (p1 & w1 & H1 & H). apply NoDup_cons in Hd as [Hid Hd]. destruct (Hw id ltac:(by left)) as [(e & He) Hl].
  unfold standings in He. rewrite lookup_fmap in He. destruct (jobs (jw_db w) !! id) as [j|] eqn:Ej; [|done]. injection He as Es _.
  assert (R1 : refines (jw_db w) (jw_db w1)) by (by eapply schedule_job_refines).
  assert (R : refines (jw_db w) (jw_db w')); [|by apply R]. etransitivity; [exact R1|]. apply (IH p1 w1); [done|done|].
  intros k Hk. assert (Hne : k <> id) by congruence. eapply schedule_step in H1; [|exact (nm_jobs _ Hn)]. destruct (step_others _ _ _ _ _ _ _ H1 k Hne) as [E L].
  destruct (Hw k ltac:(by right)) as [Hs Hnl]. rewrite E. split; [done|]. intros Ha Hlk. by apply (Hnl Ha), L.
Qed.

Lemma schedule_refines storage now limit w : safely refines w (schedule storage now limit).
Proof.
  apply safely_transaction; [apply _|]. apply lands_named. intros Hn. unfold schedule_body. land_step. land_step.
  intros adm w' H0. apply bind_ok in H0 as (pass & w1 & H1 & [= _ <-]). eapply queue_refines; [exact H1|apply queued_NoDup; exact (nm_jobs _ Hn)|].
  intros id Hid. apply list_elem_of_fmap in Hid as (x & -> & Hx). rewrite merge_sort_Permutation in Hx. apply elem_of_rows in Hx as [Hst (k & Hx)]. apply bool_decide_eq_true in Hst.
  pose proof (nm_jobs _ Hn _ _ Hx) as <-. split; [exists (jb_epoch x); unfold standings; rewrite lookup_fmap, Hx; cbn; unfold standing; by rewrite Hst|].
  intros Ha (i & b & Hi & Hl & E). apply Ha. rewrite elem_of_list_to_set. apply list_elem_of_fmap. exists b. split; [done|].
  unfold live_allocations. apply elem_of_rows. eauto.
Qed.
End Admissions.
