(* ===== verification/ManagerSystem.v ===== *)
(** * The manager as a transition system

    Every transaction of the manager -- the commands of members, the passes of
    the scheduler, the transactions of the controller and of the retention
    service -- in any order, at any time and with any identifiers.  The other
    services of the manager write columns the lifecycle does not speak of. *)

From stdpp Require Import base gmap strings list fin_maps relations.
From Stdlib Require Import ZArith Lia.
From S2P Require Import Prelude Json Domain JobSpec JobModels Retention Recovery BlobBudget Scheduler Gang SchedulerLogic SchedulerTheory RetentionTheory Controller Fence Views Commands Submission JobMachine JobRefinement JobAdmission.

(** ** Operations *)
Inductive ManagerOp :=
  (* hf2l_jobs.application *)
  | CreateJob (principal : string) (spec : JobSpec) (key : json)
  | CancelJob (principal job_id : string) (expected key : json)
  | RetryJob (principal job_id : string) (expected key : json)
  | ReconcileJob (principal job_id : string) (expected key evidence : json)
  | RequestPurge (principal job_id : string) (expected key : json)
  | PutJobMember (principal job_id : string) (member_id role expected key : json)
  | DeleteJobMember (principal job_id : string) (member_id expected key : json)
  (* hf2l_jobs.scheduler, hf2l_jobs.retention *)
  | Schedule (now limit : Z)
  | Retain (now : Z) (call : RetentionCall)
  (* hf2l_jobs.controller *)
  | ClaimItem (controller_id : string) (topics : option (list string))
  | FinishClaim (claim : Outbox) (done_ : bool) (error : option string)
  | QueueRestoration
  | SetPhase (job_id attempt_id : string) (epoch : Z) (s : Stage) (phase : string)
  | RequestFailure (job_id code : string) (transient : bool)
  | RequestCompletion (job_id : string) (round : Z)
  | Attention (job_id reason : string)
  | Quarantine (job_id : string)
  | Terminate (job_id : string) (o : Outcome) (reason : string)
  | NextAttempt (job_id : string) (manual : bool)
  | AuthoritativeRound (job_id : string) (round : Z)
  | AckAssignment (job_id attempt_id component_id : string) (epoch : Z)
  | Heartbeat (job_id attempt_id component_id : string) (epoch : Z)
  | StopConfirmation (job_id attempt_id component_id : string) (epoch : Z)
  | ReportProgress (job_id attempt_id component_id : string) (epoch : Z) (p : Progress)
  | AppendLogs (job_id attempt_id component_id : string) (epoch : Z) (data : string)
  | BeginOperation (job : Job) (attempt : Attempt) (component_id action : string) (desired : document)
  | FailOperation (operation_id : string) (refused : bool) (error : string)
  | ConfirmOperation (job : Job) (attempt : Attempt) (operation_id : string) (observed : document)
  | ConfirmNeverStarted (claim : option Outbox) (job_id attempt_id : string)
  | RecordDesired (attempt_id : string) (o : Outcome) (reason : string)
  | RecordRevoked (attempt_id : string)
  | RecordEvidence (attempt_id : string) (details : document)
  | RecordStopped (job_id attempt_id : string) (publication : PublicationObservation) (evidence : document)
  | ReleaseReserved (allocation_id : string)
  | ReserveCollection (job : Job) (attempt : Attempt) (a : Allocation)
  | RetainExecutionState (job : Job) (attempt : Attempt) (a : Allocation)
  | RecordStorageDeleted (job_id : string)
  | RecordCleanup (t : CleanupTopic) (job_id : string) (confirmed : bool).

Definition ignoring {A} (m : M JobWorld A) : M JobWorld unit := let* _ := m in ret tt.

Section System.
Context {P : Platform} {U : Unicode} {C : Calendar}.
(** The storage a job prepays, and the planner that approves it. *)
Context (admission_storage : Job -> list json) (storage_planner : option (Job -> option (list json))).

Definition serve_manager (op : ManagerOp) : M JobWorld unit :=
  match op with
  | CreateJob principal spec key => ignoring (create_job storage_planner principal spec key)
  | CancelJob principal job_id expected key => ignoring (cancel principal job_id expected key)
  | RetryJob principal job_id expected key => ignoring (retry principal job_id expected key)
  | ReconcileJob principal job_id expected key evidence => ignoring (reconcile principal job_id expected key evidence)
  | RequestPurge principal job_id expected key => ignoring (purge principal job_id expected key)
  | PutJobMember principal job_id member_id role expected key => ignoring (put_member principal job_id member_id role expected key)
  | DeleteJobMember principal job_id member_id expected key => ignoring (delete_member principal job_id member_id expected key)
  | Schedule now limit => ignoring (schedule admission_storage now limit)
  | Retain now call => serve_retention now call
  | ClaimItem controller_id topics => ignoring (_claim controller_id topics)
  | FinishClaim claim done_ error => _finish_claim claim done_ error
  | QueueRestoration => _queue_proxy_restoration
  | SetPhase job_id attempt_id epoch s phase => ignoring (_set_phase job_id attempt_id epoch s phase)
  | RequestFailure job_id code transient => _request_failure job_id code transient
  | RequestCompletion job_id round => _request_completion job_id round
  | Attention job_id reason => _attention job_id reason
  | Quarantine job_id => _quarantine job_id
  | Terminate job_id o reason => _terminal job_id o reason
  | NextAttempt job_id manual => ignoring (_retry job_id manual)
  | AuthoritativeRound job_id round => _authoritative_round job_id round
  | AckAssignment job_id attempt_id component_id epoch => ignoring (ack_assignment job_id attempt_id component_id epoch)
  | Heartbeat job_id attempt_id component_id epoch => ignoring (heartbeat job_id attempt_id component_id epoch)
  | StopConfirmation job_id attempt_id component_id epoch => ignoring (stop_confirmation job_id attempt_id component_id epoch)
  | ReportProgress job_id attempt_id component_id epoch p => ignoring (progress job_id attempt_id component_id epoch p)
  | AppendLogs job_id attempt_id component_id epoch data => ignoring (append_logs job_id attempt_id component_id epoch data)
  | BeginOperation job attempt component_id action desired => ignoring (begin_operation job attempt component_id action desired)
  | FailOperation operation_id refused error => fail_operation operation_id refused error
  | ConfirmOperation job attempt operation_id observed => confirm_operation job attempt operation_id observed
  | ConfirmNeverStarted claim job_id attempt_id => ignoring (_confirm_never_started claim job_id attempt_id)
  | RecordDesired attempt_id o reason => record_desired attempt_id o reason
  | RecordRevoked attempt_id => record_revoked attempt_id
  | RecordEvidence attempt_id details => record_evidence attempt_id details
  | RecordStopped job_id attempt_id publication evidence => record_stopped job_id attempt_id publication evidence
  | ReleaseReserved allocation_id => ignoring (release_reserved allocation_id)
  | ReserveCollection job attempt a => ignoring (_reserve_collection job attempt a)
  | RetainExecutionState job attempt a => _retain_execution_state job attempt a
  | RecordStorageDeleted job_id => record_storage_deleted job_id
  | RecordCleanup t job_id confirmed => ignoring (record_cleanup t job_id confirmed)
  end.

(** [_fence] records a stop only after [publication.known]. *)
Definition permitted (op : ManagerOp) : Prop :=
  match op with
  | RecordStopped _ _ publication _ => mem_str (pu_status publication) KNOWN_PUBLICATIONS = true
  | _ => True
  end.

(** One transaction, whatever its outcome; or a write of another service, which
    leaves the columns of the lifecycle. *)
Inductive manager_step (d d' : JobDB) : Prop :=
  | by_operation op w : jw_db w = d -> permitted op -> jw_db (snd (serve_manager op w)) = d' -> manager_step d d'
  | by_others : same core d d' -> manager_step d d'.
Definition manager_runs : JobDB -> JobDB -> Prop := rtc manager_step.
Record untouched_manager (d : JobDB) : Prop := {
  um_jobs : jobs d = ∅;
  um_attempts : job_attempts d = ∅;
  um_allocations : allocations d = ∅;
  um_devices : gpu_allocations d = ∅;
}.
Definition reachable_manager (d : JobDB) : Prop := exists d0, untouched_manager d0 /\ manager_runs d0 d.

(** ** Every operation refines the lifecycle *)
Lemma safely_ignoring {A} w (m : M JobWorld A) : safely refines w m -> safely refines w (ignoring m).
Proof. unfold safely, ignoring, bind. by destruct (m w) as [[a|e] w1]. Qed.

Lemma idle_locked id job : leaves refines (locked_resource id job).
Proof. unfold locked_resource. leave. Qed.
#[local] Hint Resolve idle_locked : leaves.
Lemma idle_release_row now n r : leaves refines (release_row now n r).
Proof. unfold release_row. idle. Qed.
Lemma idle_add_event id kind v e data now : leaves refines (add_event id kind v e data now).
Proof. unfold add_event, next_sequence. idle. Qed.
#[local] Hint Resolve idle_release_row idle_add_event : leaves.
Lemma idle_request_expiry now job : leaves refines (request_expiry_of now job).
Proof. unfold request_expiry_of. idle. Qed.
#[local] Hint Resolve idle_request_expiry : leaves.
Lemma idle_transfer_child r settled left_ id : leaves refines (transfer_child r settled left_ id).
Proof. unfold transfer_child. idle. Qed.
#[local] Hint Resolve idle_transfer_child : leaves.
Lemma retention_refines now call w : safely refines w (serve_retention now call).
Proof.
  enough (G : forall A (m : M JobWorld A), leaves refines m -> undone m -> safely refines w m).
  { apply G; [|apply serve_undone]. destruct call; cbn [serve_retention]; (apply leaves_bind; [apply _| |by intros ?; leave]).
    - unfold charge_resource. apply leaves_transaction. idle.
    - unfold reserve_resource. apply leaves_transaction. idle.
    - unfold settle_resource. leave_step; [leave|]. apply leaves_transaction. idle.
    - unfold confirm_resource_deleted. apply leaves_transaction. idle.
    - unfold confirm_job_data_deleted. apply leaves_transaction. idle.
    - unfold request_expiry. leave_step; [leave|]. apply leaves_transaction. idle.
    - apply leaves_transaction. apply idle_charge_log.
    - apply leaves_transaction. unfold transfer_reserved_in_transaction. idle. }
  intros A m Hl Hu. unfold safely. destruct (m w) as [[a|e] w1] eqn:E; cbn; [by eapply Hl|by rewrite (Hu _ _ _ E)].
Qed.

Lemma serve_refines op w : permitted op -> safely refines w (serve_manager op).
Proof.
  intros Hp. destruct op; cbn [serve_manager]; try apply safely_ignoring.
  - apply create_refines. 
  - apply cancel_refines.
  - apply user_retry_refines.
  - apply reconcile_refines.
  - apply purge_refines.
  - apply put_member_refines.
  - apply delete_member_refines.
  - apply schedule_refines.
  - apply retention_refines.
  - apply claim_refines.
  - apply finish_refines.
  - apply restoration_refines.
  - apply set_phase_refines.
  - apply failure_refines.
  - apply completion_refines.
  - apply attention_refines.
  - apply quarantine_refines.
  - apply terminal_refines.
  - apply retry_refines.
  - apply round_refines.
  - apply ack_refines.
  - apply heartbeat_refines.
  - apply stop_refines.
  - apply progress_refines.
  - apply logs_refines.
  - apply begin_refines.
  - apply fail_refines.
  - apply confirm_refines.
  - apply never_started_refines.
  - apply desired_refines.
  - apply revoked_refines.
  - apply evidence_refines.
  - by apply stopped_refines.
  - apply release_refines.
  - apply collection_refines.
  - apply retain_refines.
  - apply storage_refines.
  - apply cleanup_refines.
Qed.

Lemma step_refines d d' : manager_step d d' -> refines d d'.
Proof. intros [op w <- Hp <-|H]; [by apply serve_refines|by apply refines_core]. Qed.
Lemma runs_refine d d' : manager_runs d d' -> refines d d'.
Proof. induction 1 as [|d d1 d' H _ IH]; [done|]. etransitivity; [by apply step_refines|done]. Qed.

(** ** What holds in every reachable database *)
Lemma untouched_lawful d : untouched_manager d -> named d /\ lawful (machine d).
Proof.
  intros [E1 E2 E3 E4]. split; [split; rewrite ?E1, ?E2, ?E3; intros k x Hk; by rewrite lookup_empty in Hk|].
  unfold machine. rewrite E1, E2, E3, E4, !fmap_empty. split; cbn; repeat split; intros; exfalso; match goal with H : _ !! _ = Some _ |- _ => exact (lookup_empty_Some _ _ H) end.
Qed.
Lemma reachable_lawful d : reachable_manager d -> named d /\ lawful (machine d).
Proof.
  intros (d0 & H0 & H). destruct (untouched_lawful _ H0) as [Hn Hl]. destruct (runs_refine _ _ H Hn) as [Hn' Hr]. split; [done|by eapply run_lawful].
Qed.
Lemma runs_later d d' : manager_runs d d' -> named d -> later (machine d) (machine d').
Proof. intros H Hn. apply run_later. apply (runs_refine _ _ H Hn). Qed.
Lemma runs_reachable d d' : reachable_manager d -> manager_runs d d' -> reachable_manager d'.
Proof. intros (d0 & H0 & H) Hr. exists d0. split; [done|]. unfold manager_runs in *. by etransitivity. Qed.
End System.
