(* ===== verification/Flows.v ===== *)
(** * The flows of the lifecycle controller

    [hf2l_jobs.controller.Controller] between its transactions: the claims it
    takes from the outbox, dispatch with its builds, the fence of an attempt,
    release and collection, cleanup, the monitor and one pass of them all.  A
    flow is a sequence of the transactions of [Controller], [Fence], [Gang] and
    [Retention] and of calls of the executor, the provisioner and the
    participants' service, which are interfaces.  Before each of them the
    process may die, and everything else that works on the database runs. *)

From stdpp Require Import base gmap strings list sorting.
From Stdlib Require Import ZArith Lia Ascii.
From S2P Require Import Prelude Json Domain Schemas NodeAgent JobSpec JobModels Retention Recovery BlobBudget Scheduler Gang Controller Fence.

(** ** Locators of collected outputs *)
Definition py_prefix (n : nat) (s : string) : string :=
  let fix take_points (n : nat) (l : list ascii) : list ascii :=
    match l with
    | [] => []
    | c :: l' => if is_continuation c then c :: take_points n l' else match n with O => [] | S n' => c :: take_points n' l' end
    end in
  String.string_of_list_ascii (take_points n (chars s)).
Definition endswith (s suffix : string) : bool :=
  (String.length suffix <=? String.length s)%nat
  && String.eqb (String.substring (String.length s - String.length suffix) (String.length suffix) s) suffix.

(** [urllib.parse.quote(s, safe="/")] *)
Definition upper_hex (n : N) : ascii := ascii_of_N (if (n <? 10)%N then 48 + n else 55 + n).
Definition quoted_char (c : ascii) : string :=
  if is_alnum c || existsb (char_eqb c) ["_"; "."; "-"; "~"; "/"]%char then String c ""
  else let n := N_of_ascii c in String "%" (String (upper_hex (n / 16)) (String (upper_hex (n mod 16)) "")).
Definition url_quote (s : string) : string := String.concat "" (map quoted_char (chars s)).

(** [urllib.parse.urlsplit], without its validation of the hosts in brackets
    and of the characters of a host that is not ASCII. *)
Record SplitUrl := mkSplit { us_scheme : string; us_netloc : string; us_path : string; us_query : string; us_fragment : string }.
Fixpoint until (p : ascii -> bool) (l : list ascii) : list ascii * list ascii :=
  match l with
  | [] => ([], [])
  | c :: l' => if p c then ([], l) else let '(a, b) := until p l' in (c :: a, b)
  end.
Fixpoint skip_while (p : ascii -> bool) (l : list ascii) : list ascii :=
  match l with c :: l' => if p c then skip_while p l' else l | [] => [] end.
Definition ascii_upper (s : string) : string :=
  String.string_of_list_ascii (map (fun c => if is_lower c then ascii_of_N (N_of_ascii c - 32) else c) (chars s)).
Definition scheme_char (c : ascii) : bool := is_alnum c || existsb (char_eqb c) ["+"; "-"; "."]%char.
Definition text (l : list ascii) : string := String.string_of_list_ascii l.
Definition urlsplit (url : string) : result SplitUrl :=
  let l := skip_while (fun c => byte_of c <=? 32) (chars url) in
  let l := List.filter (fun c => negb (existsb (Z.eqb (byte_of c)) [9; 10; 13])) l in
  let '(scheme, l) :=
    match until (fun c => char_eqb c ":") l with
    | (c :: name, _ :: rest) => if (is_lower c || is_upper c) && forallb scheme_char (c :: name) then (ascii_lower (text (c :: name)), rest) else ("", l)
    | _ => ("", l)
    end in
  let '(netloc, l) :=
    match l with
    | "/"%char :: "/"%char :: rest => until (fun c => existsb (char_eqb c) ["/"; "?"; "#"]%char) rest
    | _ => ([], l)
    end in
  if negb (Bool.eqb (existsb (char_eqb "[") netloc) (existsb (char_eqb "]") netloc)) then invalid "Invalid IPv6 URL"
  else
    let '(l, fragment) := until (fun c => char_eqb c "#") l in
    let '(path, query) := until (fun c => char_eqb c "?") l in
    Ok (mkSplit scheme (text netloc) (text path) (text (tl query)) (text (tl fragment))).
(** [parsed.username or parsed.password] *)
Definition has_credentials (netloc : string) : bool :=
  match rev (split_on "@" netloc) with
  | _ :: (_ :: _) as before => negb (mem_str (join "@" (rev (tl before))) [""; ":"])
  | _ => false
  end.

(** [PurePosixPath]: the root and the other parts. *)
Definition path_root (s : string) : string :=
  if startswith s "///" then "/" else if startswith s "//" then "//" else if startswith s "/" then "/" else "".
Definition path_parts (s : string) : list string := List.filter (fun p => negb (mem_str p [""; "."])) (split_on "/" s).
Definition relative_path_ok (s : string) : bool :=
  String.eqb (path_root s) "" && negb (bool_decide (path_parts s = [])) && forallb (fun p => negb (mem_str p [""; "."; ".."])) (split_on "/" s).

(** ** What a collector returns of one output; [co_locator] is null without one *)
Record Collected := mkCollected { co_locator : json; co_size_bytes : json; co_sha256 : json; co_path : json }.

(** [ExecutionIdentity(...)] *)
Definition execution_identity (job_id attempt_id component_id : string) (epoch : Z) : result ExecutionIdentity :=
  let i := mkIdentity job_id attempt_id component_id epoch in
  let? _ := validate_identity i in Ok i.

Section Collection.
Context {P : Platform} {U : Unicode}.

Definition unsafe_output {A} : M JobWorld A := throw (ExecutorRefused "unsafe_output").

(** The root a locator lies under: the node's, or a directory. *)
Definition locator_root (job : Job) (attempt : Attempt) (a : Allocation) (locator path : string) : M JobWorld string :=
  let* parsed := lift (urlsplit locator) in
  if String.eqb (us_scheme parsed) "hf2l-node" then
    let* i := lift (execution_identity (jb_id job) (ja_id attempt) (al_component_id a) (al_epoch a)) in
    let* pool := job_get POOLS (al_pool_id a) in
    let assigned := get_or_none (al_details_json a) "node_id" in
    match (if truthy assigned then assigned else match pool with Some p => JStr (po_node_id p) | None => JNull end) with
    | JStr node_id =>
        if String.eqb node_id "" || negb (String.eqb (us_netloc parsed) node_id)
           || negb (String.eqb (us_path parsed) ("/" +:+ key i +:+ "/" +:+ url_quote path))
           || negb (String.eqb (us_query parsed) "") || negb (String.eqb (us_fragment parsed) "") || has_credentials (us_netloc parsed)
        then unsafe_output
        else ret ("hf2l-node://" +:+ node_id +:+ "/" +:+ key i)
    | _ => unsafe_output
    end
  else
    let parts := path_parts locator in
    let n := List.length (path_parts path) in
    let all := path_root locator :: parts in
    if negb (String.eqb (us_scheme parsed) "") || String.eqb (path_root locator) ""
       || negb (bool_decide (drop (List.length all - n) all = path_parts path))
    then unsafe_output
    else ret (path_root locator +:+ join "/" (take (List.length parts - n) parts)).

Definition retained_resource (id : string) (job : Job) (attempt : Attempt) (a : Allocation) (kind external_id : string)
    (details : document) (size : Z) : ProvisioningResource :=
  mkResource id (jb_id job) (Some (ja_id attempt)) (al_component_id a) kind external_id (allocation_ownership job attempt a) details
    "retained" true size None.
Definition resource_named (kind external_id : string) (r : ProvisioningResource) : bool :=
  String.eqb (rs_kind r) kind && String.eqb (rs_external_id r) external_id.
Definition site_details (a : Allocation) : document :=
  [("pool_id", JStr (al_pool_id a)); ("node_id", get_or_none (al_details_json a) "node_id")].

(** The resource of the root: created, or the component's own. *)
Definition root_resource (job : Job) (attempt : Attempt) (a : Allocation) (root : string) : M JobWorld string :=
  let* found := job_select RESOURCES (resource_named "retained_artifact_root" root) in
  match found with
  | r :: _ =>
      if negb (String.eqb (rs_job_id r) (jb_id job)) || negb (String.eqb (rs_component_id r) (al_component_id a)) then unsafe_output
      else ret (rs_id r)
  | [] =>
      let* id := new_id in
      job_add RESOURCES (resource_named "retained_artifact_root" root) id
        (retained_resource id job attempt a "retained_artifact_root" root (("root", JStr root) :: site_details a) 0) ;;
      ret id
  end.

(** The resource of an output that is not an artifact yet. *)
Definition output_resource (job : Job) (attempt : Attempt) (a : Allocation) (locator : string) (size : Z) : M JobWorld string :=
  let* found := job_select RESOURCES (resource_named "retained_output" locator) in
  match found with
  | r :: _ => raise_if (negb (rs_size_bytes r =? size)) 409 "retained_resource_charge_conflict" ;; ret (rs_id r)
  | [] =>
      let* id := new_id in
      job_add RESOURCES (resource_named "retained_output" locator) id
        (retained_resource id job attempt a "retained_output" locator (site_details a) size) ;;
      ret id
  end.
Definition artifact_kind (path : string) : string := if existsb (endswith path) [".bin"; ".pt"; ".safetensors"] then "checkpoint" else "output".

(** One output: an artifact and the resource that will be charged for it. *)
Definition store_output (job : Job) (attempt : Attempt) (a : Allocation) (stored_job : option Job) (children : list string)
    (locator : string) (size : Z) (sha256 path : string) : M JobWorld (list string) :=
  let* root := locator_root job attempt a locator path in
  let* root_id := root_resource job attempt a root in
  let* existing := job_select ARTIFACTS (fun r => String.eqb (ar_job_id r) (jb_id job) && String.eqb (ar_storage_key r) locator) in
  match existing with
  | old :: _ =>
      if negb (String.eqb (ar_sha256 old) sha256) || negb (ar_size_bytes old =? size) then unsafe_output
      else
        let* found := job_select RESOURCES (resource_named "retained_output" locator) in
        match found with
        | r :: _ => ret (children ++ [rs_id r])
        | [] => raise 409 "retained_storage_ledger_inconsistent"
        end
  | [] =>
      let* child := output_resource job attempt a locator size in
      let* id := new_id in
      let* now := utcnow in
      let* stored_job := row_or stored_job AttributeError in
      job_add ARTIFACTS (fun _ => false) id
        (mkArtifact id (jb_id job) (Some (ja_number attempt)) (artifact_kind path) (py_prefix 256 (al_component_id a +:+ "/" +:+ path))
           size sha256 locator [("kind", JStr "local"); ("resource_id", JStr root_id); ("relative_path", JStr path)]
           "retained" now (jb_artifacts_expire_at stored_job) None) ;;
      ret (children ++ [child])
  end.
Definition store_item (job : Job) (attempt : Attempt) (a : Allocation) (stored_job : option Job) (children : list string) (c : Collected) :
    M JobWorld (list string) :=
  if is_none (co_locator c) then ret children
  else match co_locator c, co_size_bytes c, co_sha256 c, co_path c with
       | JStr locator, JInt size, JStr sha256, JStr path =>
           if (1024 <? py_len locator) || (size <? 0) || negb (py_len sha256 =? 64) || negb (relative_path_ok path) then unsafe_output
           else store_output job attempt a stored_job children locator size sha256 path
       | _, _, _, _ => unsafe_output
       end.

(** [_store_collected]; [None] is a result that is not a list. *)
Definition _store_collected (job : Job) (attempt : Attempt) (a : Allocation) (collected : option (list Collected)) : M JobWorld unit :=
  match collected with
  | Some items =>
      throw_if (1000 <? Z.of_nat (List.length items)) (ExecutorRefused "unsafe_output") ;;
      job_transaction (
        let* stored_job := job_get JOBS (jb_id job) in
        let* reservation := linked_resource a "collection_resource_id" "collection_budget" in
        match reservation with
        | None => raise 409 "retained_resource_reservation_required"
        | Some r =>
            let* children := foldM (store_item job attempt a stored_job) [] items in
            let* _ := transfer_reserved_in_transaction (rs_id r) (jb_project_id job) children true in
            ret tt
        end)
  | None => unsafe_output
  end.
End Collection.

(** ** The adapters of the controller *)

(** A [RuntimeObservation]; [ro_details] and [ro_metrics] are documents. *)
Record RuntimeObservation := mkRuntime {
  ro_state : string;
  ro_termination_confirmed : bool;
  ro_publication_status : string;
  ro_current_round : option Z;
  ro_error_code : option string;
  ro_transient : bool;
  ro_exit_code : option Z;
  ro_details : document;
  ro_metrics : json;
  ro_phase : option string;
  ro_readiness : option string;
}.

(** The executor, at the [n]-th step of the controller; [has_renew],
    [has_purge] and [has_read_logs] say whether it has these methods. *)
Class ControlExecutor := {
  xe_reserve : N -> ExecutionSpec -> result (bool * string);
  xe_start : N -> ExecutionIdentity -> result RuntimeObservation;
  xe_inspect : N -> ExecutionIdentity -> result RuntimeObservation;
  xe_stop : N -> ExecutionIdentity -> Z -> result RuntimeObservation;
  xe_collect : N -> ExecutionIdentity -> result (option (list Collected));
  xe_release : N -> ExecutionIdentity -> result bool;
  has_renew : bool;
  xe_renew : N -> ExecutionIdentity -> result unit;
  has_purge : bool;
  xe_purge : N -> ExecutionIdentity -> result bool;
  has_read_logs : bool;
}.

(** The provisioner.  An answer that the controller compares with [True],
    [False] or [None] is a document; [pv_reconcile] answers [None] for what is
    not a [PublicationObservation], else the arguments of its constructor. *)
Class ControlProvisioner := {
  pv_current_round : N -> Job -> result Z;
  pv_plan : N -> Job -> Attempt -> Z -> result (gmap string ExecutionSpec);
  pv_ensure : N -> Job -> Attempt -> Z -> result unit;
  has_prepare_build : bool;
  pv_prepare_build : N -> Job -> Attempt -> list (string * option (list Collected)) -> result json;
  has_restore : bool;
  pv_restore : N -> Job -> Attempt -> result json;
  pv_revoke : N -> Job -> Attempt -> result json;
  pv_reconcile : N -> Job -> Attempt -> result (option (bool * string * option Z * document));
  pv_cleanup : N -> Job -> option Attempt -> result bool;
  pv_purge_job : N -> Job -> result bool;
  pv_expire_artifacts : N -> Job -> result bool;
}.

(** The service of the participants, when there is one. *)
Class ControlParticipants := {
  has_participants : bool;
  pp_request_stop : N -> Job -> Attempt -> result unit;
  pp_termination_confirmed : N -> string -> string -> result bool;
}.

(** ** The world of a controller

    What is recorded of the answers it acts on, and of what it reads in the
    ledger of operations; [Reported] is the report of a node. *)
Inductive Answer := StopAnswer | CollectAnswer | ReleaseAnswer.
Inductive Evidence :=
  | Answered (a : Answer) (i : ExecutionIdentity) (confirmed : bool)
  | Revoked (attempt_id : string) (confirmed : bool)
  | NeverReserved (job_id attempt_id component_id : string)
  | NeverStarted (attempt_id : string)
  | Reported (i : ExecutionIdentity).

Record Control := mkControl {
  ct_job : JobWorld;
  ct_log : list Evidence;
  ct_claim : option Outbox;          (* self._local.claim *)
  ct_restored : bool;                (* self._restoration_requested *)
  ct_tick : N;
}.
#[global] Instance eta_Control : Eta Control := fun w => mkControl (ct_job w) (ct_log w) (ct_claim w) (ct_restored w) (ct_tick w).

(** Before the [n]-th step: whether the process dies, and what everything else
    -- other controllers, members, nodes, the renewals of [_keepalive] -- does
    to the database, the clock and the record.  [renewals] is the failure
    [_keepalive] has gathered, if any; [halted] whether its pulses are to stop;
    [log_reader] the exception of a reading of logs, if any. *)
Class Surroundings := {
  dies : N -> bool;
  meanwhile : N -> JobWorld * list Evidence -> JobWorld * list Evidence;
  renewals : N -> option exn;
  halted : N -> bool;
  log_reader : N -> option exn;
}.

(** What the handlers of the controller call an exception. *)
Definition type_name (e : exn) : string :=
  match e with
  | ExchangeError _ _ _ => "Error" | StorageFailure _ _ _ => "StorageFailure" | ClientError _ => "ClientError"
  | IntegrityError => "IntegrityError" | ValueError _ => "ValueError" | RuntimeError _ => "RuntimeError" | KeyError => "KeyError"
  | TypeError => "TypeError" | AttributeError => "AttributeError" | OSError => "OSError" | ProtocolError _ => "ProtocolError"
  | ListenerStateError _ => "ListenerStateError" | UncertainOperation _ => "UncertainOperation" | PublicationUncertain => "PublicationUncertain"
  | ClaimInactive => "ClaimInactive" | ExecutorRefused _ => "ExecutorRefused" | UncertainExecution => "UncertainExecution"
  | TimeoutError => "TimeoutError" | ConnectionError => "ConnectionError" | OverflowError => "OverflowError" | Killed => ""
  end.
(** [getattr(error, "code", type(error).__name__)] *)
Definition error_code (e : exn) : string :=
  match e with
  | ExchangeError _ code _ | StorageFailure code _ _ | ClientError code | ExecutorRefused code => code
  | UncertainExecution => "execution_unknown"
  | e => type_name e
  end.
Definition is_refusal (e : exn) : bool := match e with ExecutorRefused _ => true | _ => false end.
Definition stale_claim (e : exn) : bool := bool_decide (e = ExecutorRefused "stale_claim").
(** [(UncertainExecution, TimeoutError, ConnectionError)] *)
Definition is_uncertain (e : exn) : bool := match e with UncertainExecution | TimeoutError | ConnectionError => true | _ => false end.

Section Flows.
Context {P : Platform} {U : Unicode} {X : ControlExecutor} {V : ControlProvisioner} {Q : ControlParticipants} {H : Surroundings}.
Context (admission_storage : Job -> list json) (controller_id : string) (heartbeat_timeout : Z).

(** ** Steps *)
Definition preempted : M Control unit := fun w =>
  let w' := w <| ct_tick := (ct_tick w + 1)%N |> in
  if dies (ct_tick w) then (Err Killed, w')
  else let '(j, log) := meanwhile (ct_tick w) (ct_job w, ct_log w) in (Ok tt, w' <| ct_job := j |> <| ct_log := log |>).

(** One transaction of the manager, or one reading. *)
Definition committed {A} (m : M JobWorld A) : M Control A :=
  preempted ;; fun w => let (r, j) := m (ct_job w) in (r, w <| ct_job := j |>).
Definition learned (e : Evidence) : M Control unit := modify (fun w => w <| ct_log ::= cons e |>).
(** A transaction that, by its commit, settles a question. *)
Definition committed_as (m : M JobWorld bool) (e : Evidence) : M Control bool :=
  preempted ;; fun w =>
    let (r, j) := m (ct_job w) in
    (r, w <| ct_job := j |> <| ct_log ::= fun log => match r with Ok true => e :: log | _ => log end |>).
(** One call of an adapter. *)
Definition asked {A} (answer : N -> result A) : M Control A :=
  preempted ;; fun w => (answer (ct_tick w), w <| ct_tick := (ct_tick w + 1)%N |>).
(** [self.now()] *)
Definition the_time : M Control Z := gets (fun w => jw_utc (ct_job w)).
(** [try: m] with the handler to come: the end of the process is not caught. *)
Definition outcome {A} (m : M Control A) : M Control (result A) := fun w =>
  match m w with
  | (Err Killed, w') => (Err Killed, w')
  | (r, w') => (Ok r, w')
  end.

(** ** Claims *)
Definition _require : M Control unit :=
  let* claim := gets ct_claim in committed (_require_claim claim).
Definition expired (deadline : option Z) (now : Z) : bool := match deadline with Some t => t <=? now | None => false end.

(** [_snapshot] *)
Definition allocation_order (a b : Allocation) : Prop :=
  String.compare (al_pool_id a) (al_pool_id b) = Lt \/ al_pool_id a = al_pool_id b /\ String.compare (al_id a) (al_id b) <> Gt.
#[global] Instance allocation_order_dec : RelDecision allocation_order.
Proof. intros a b. unfold allocation_order. apply _. Defined.
Definition _snapshot (job_id : string) (attempt_id : option string) : M JobWorld (option (Job * option Attempt * list Allocation)) :=
  let* job := job_get JOBS job_id in
  match job with
  | None => ret None
  | Some job =>
      let* attempt := (match attempt_id with Some id => if String.eqb id "" then current_attempt job else job_get JOB_ATTEMPTS id
                       | None => current_attempt job end) in
      let* found := (match attempt with
                     | Some a => job_select ALLOCATIONS (fun x => String.eqb (al_job_id x) (jb_id job) && live_of_attempt (ja_id a) x)
                     | None => ret []
                     end) in
      ret (Some (job, attempt, merge_sort allocation_order found))
  end.

(** [_current] *)
Definition _current (job_id attempt_id : string) (epoch : Z) (states : list JobState) : M Control bool :=
  let* snapshot := committed (_snapshot job_id (Some attempt_id)) in
  ret (match snapshot with
       | Some (job, Some attempt, _) => (jb_epoch job =? epoch) && (ja_number attempt =? jb_current_attempt job) && job_in states job
       | _ => false
       end).

(** [_operation]: the intent, the effect between two checks of the claim, and
    what became of it. *)
Definition _operation {A} (job : Job) (attempt : Attempt) (component_id action : string) (effect : M Control A) (observe : A -> document)
    (desired : document) : M Control A :=
  _require ;;
  let* operation_id := committed (begin_operation job attempt component_id action desired) in
  let* r := outcome (_require ;; let* observed := effect in _require ;; ret observed) in
  match r with
  | Ok observed => committed (confirm_operation job attempt operation_id (observe observed)) ;; ret observed
  | Err e => if stale_claim e then throw e
             else committed (fail_operation operation_id (is_refusal e) (error_code e)) ;; throw e
  end.

(** [value or default] *)
Definition some_or (o : option string) (default_ : string) : string := match o with Some s => if String.eqb s "" then default_ else s | None => default_ end.

(** [_observation] *)
Definition opt_int (o : option Z) : json := match o with Some n => JInt n | None => JNull end.
Definition observe_runtime (o : RuntimeObservation) : document :=
  [("state", JStr (ro_state o)); ("termination_confirmed", JBool (ro_termination_confirmed o));
   ("publication_status", JStr (ro_publication_status o)); ("current_round", opt_int (ro_current_round o));
   ("error_code", opt_str (ro_error_code o)); ("transient", JBool (ro_transient o)); ("exit_code", opt_int (ro_exit_code o))].
Definition observe_reservation (r : bool * string) : document := [("acknowledged", JBool r.1); ("state", JStr r.2)].
Definition observe_publication (o : option (PublicationObservation * document)) : document :=
  match o with
  | Some (p, _) => [("known", JBool (pu_known p)); ("status", JStr (pu_status p)); ("current_round", opt_int (pu_current_round p))]
  | None => [("confirmed", JBool false)]
  end.
Definition observe_value (v : json) : document := [("confirmed", JBool (is_true v))].

(** *** Calls of the executor *)
Definition stopping (i : ExecutionIdentity) : M Control RuntimeObservation :=
  let* o := asked (fun n => xe_stop n i 60) in learned (Answered StopAnswer i (ro_termination_confirmed o)) ;; ret o.
Definition collecting (i : ExecutionIdentity) : M Control (option (list Collected)) :=
  let* c := asked (fun n => xe_collect n i) in learned (Answered CollectAnswer i true) ;; ret c.
Definition releasing (i : ExecutionIdentity) : M Control bool :=
  let* r := asked (fun n => xe_release n i) in learned (Answered ReleaseAnswer i r) ;; ret r.
Definition identity_for (job : Job) (attempt : Attempt) (a : Allocation) : M Control ExecutionIdentity :=
  lift (execution_identity (jb_id job) (ja_id attempt) (al_component_id a) (al_epoch a)).
Definition never_reserved (job : Job) (attempt : Attempt) (component_id : string) : M Control bool :=
  committed_as (_never_reserved job attempt component_id) (NeverReserved (jb_id job) (ja_id attempt) component_id).

(** [_ingest_logs]: [log_stream] reads the node and writes chunks and the
    cursor among what runs meanwhile; its expected failures are dropped. *)
Definition _ingest_logs : M Control unit :=
  if negb has_read_logs then ret tt
  else
    let* failed := (preempted ;; fun w => (Ok (log_reader (ct_tick w)), w <| ct_tick := (ct_tick w + 1)%N |>)) in
    match failed with
    | None => ret tt
    | Some e => match e with ExchangeError _ _ _ => ret tt | _ => if is_refusal e || is_uncertain e || is_value_error e then ret tt else throw e end
    end.

(** ** Release *)

(** What an execution leaves is paid for and stored before it is released. *)
Definition give_up_execution (job : Job) (attempt : Attempt) (a : Allocation) (i : ExecutionIdentity) : M Control bool :=
  let* _ := committed (_reserve_collection job attempt a) in
  let* collected := _operation job attempt (al_component_id a) "collect" (collecting i) (fun _ => observe_value JNull) [] in
  committed (_store_collected job attempt a collected) ;;
  _ingest_logs ;;
  committed (_retain_execution_state job attempt a) ;;
  _operation job attempt (al_component_id a) "release" (releasing i) (fun r => observe_value (JBool r)) [].

Definition ready_to_free (job : Job) (attempt : Attempt) (a : Allocation) : M Control bool :=
  let* i := identity_for job attempt a in
  let* never := never_reserved job attempt (al_component_id a) in
  if never then ret true
  else
    let* r := outcome (give_up_execution job attempt a i) in
    match r with
    | Ok released => ret released
    | Err (ExchangeError _ code _) => committed (_attention (jb_id job) code) ;; ret false
    | Err (ExecutorRefused _) | Err UncertainExecution => ret false
    | Err e => throw e
    end.
Fixpoint _release (job : Job) (attempt : Attempt) (allocations : list Allocation) : M Control bool :=
  match allocations with
  | [] => ret true
  | a :: rest =>
      let* ready := ready_to_free job attempt a in
      if negb ready then ret false
      else
        let* freed := committed (release_reserved (al_id a)) in
        if negb freed then ret false else _release job attempt rest
  end.

(** ** Dispatch *)

(** [_renew_reserved_components] *)
Fixpoint renew_all (job : Job) (attempt : Attempt) (allocations : list Allocation) : M Control unit :=
  match allocations with
  | [] => ret tt
  | a :: rest =>
      _require ;;
      let* current := _current (jb_id job) (ja_id attempt) (jb_epoch job) [PROVISIONING; STARTING] in
      if negb current then ret tt
      else
        let* i := identity_for job attempt a in
        asked (fun n => xe_renew n i) ;;
        renew_all job attempt rest
  end.
Definition renewable (attempt_id : string) (a : Allocation) : bool :=
  live_of_attempt attempt_id a && al_acknowledged a && negb (al_termination_confirmed a).
Definition _renew_reserved_components (job : Job) (attempt : Attempt) : M Control unit :=
  if negb has_renew then ret tt
  else
    _require ;;
    let* found := committed (job_select ALLOCATIONS (renewable (ja_id attempt))) in
    renew_all job attempt found.

Definition state_is (o : RuntimeObservation) (states : list string) : bool := mem_str (ascii_upper (ro_state o)) states.
Definition planned (specs : gmap string ExecutionSpec) (component_id : string) : M Control ExecutionSpec := row_or (specs !! component_id) KeyError.

(** The components of one role. *)
Definition has_role (job : Job) (role : ComponentRole) (component_id : string) : bool := bool_decide (role_of (jb_spec job) component_id = Some role).
Definition component_order (a b : Allocation) : Prop := String.compare (al_component_id a) (al_component_id b) <> Gt.
#[global] Instance component_order_dec : RelDecision component_order.
Proof. intros a b. unfold component_order. apply _. Defined.

(** [dict.__setitem__] *)
Definition put_output {A} (k : string) (v : A) (d : list (string * A)) : list (string * A) :=
  if existsb (fun kv => String.eqb kv.1 k) d then map (fun kv => if String.eqb kv.1 k then (k, v) else kv) d else d ++ [(k, v)].

(** A build that has ended: its outputs are collected once it is stopped. *)
Definition finish_build (job : Job) (attempt : Attempt) (a : Allocation) (i : ExecutionIdentity) (observed : RuntimeObservation) :
    M Control (option (list Collected)) :=
  let c := al_component_id a in
  throw_if (negb (is_some (ro_exit_code observed))) UncertainExecution ;;
  throw_if (negb (bool_decide (ro_exit_code observed = Some 0)) || present (ro_error_code observed)) (ExecutorRefused "failed_build") ;;
  let* stopped := _operation job attempt c "stop_build" (stopping i) observe_runtime [] in
  throw_if (negb (ro_termination_confirmed stopped)) UncertainExecution ;;
  let* _ := committed (stop_confirmation (jb_id job) (ja_id attempt) c (jb_epoch job)) in
  let* _ := committed (_reserve_collection job attempt a) in
  let* output := _operation job attempt c "collect_build" (collecting i) (fun _ => observe_value JNull) [] in
  committed (_store_collected job attempt a output) ;;
  _ingest_logs ;;
  ret output.

(** The builds of an attempt; [None] when the attempt is not current. *)
Fixpoint run_builds (job : Job) (attempt : Attempt) (specs : gmap string ExecutionSpec) (builds : list Allocation)
    (outputs : list (string * option (list Collected))) (all_finished : bool) : M Control (option (list (string * option (list Collected)) * bool)) :=
  match builds with
  | [] => ret (Some (outputs, all_finished))
  | a :: rest =>
      let c := al_component_id a in
      let* spec := planned specs c in
      let i := identity spec in
      let* current := _current (jb_id job) (ja_id attempt) (jb_epoch job) [PROVISIONING; STARTING] in
      if negb current then ret None
      else
        let* observed := _operation job attempt c "inspect_build" (asked (fun n => xe_inspect n i)) observe_runtime [] in
        _ingest_logs ;;
        let* observed := (if state_is observed ["RESERVED"]
                          then _operation job attempt c "start_build" (asked (fun n => xe_start n i)) observe_runtime []
                          else ret observed) in
        throw_if (state_is observed ["UNKNOWN"; "QUARANTINED"]) UncertainExecution ;;
        if ro_termination_confirmed observed then
          let* output := finish_build job attempt a i observed in
          run_builds job attempt specs rest (put_output c output outputs) all_finished
        else run_builds job attempt specs rest outputs false
  end.

(** The provisioner takes the outputs over, before anything is trained. *)
Definition prepare_build_outputs (job : Job) (attempt : Attempt) (build_ids : list string) (outputs : list (string * option (list Collected))) :
    M Control unit :=
  let* r := outcome (_operation job attempt "owner" "prepare_build_outputs" (asked (fun n => pv_prepare_build n job attempt outputs))
                       observe_value [("build_components", json_strings build_ids)]) in
  match r with
  | Ok v => throw_if (match v with JNull | JBool false => true | _ => false end) (ExecutorRefused "failed_build")
  | Err e => if is_uncertain e || is_refusal e then throw e else throw (ExecutorRefused "failed_build")
  end ;;
  _require ;;
  committed (job_transaction (
    let* stored := job_get JOB_ATTEMPTS (ja_id attempt) in
    let* _ := row_or stored AttributeError in
    detail (ja_id attempt) [("build_prepared", JBool true); ("build_components", json_strings build_ids)])).

(** [_build_phase] *)
Definition _build_phase (job : Job) (attempt : Attempt) (specs : gmap string ExecutionSpec) : M Control bool :=
  let build_ids := sorted_set (map cs_component_id (List.filter (fun c => bool_decide (cs_role c = BUILD)) (js_components (jb_spec job)))) in
  if bool_decide (build_ids = []) then ret true
  else
    throw_if (negb has_prepare_build) (ExecutorRefused "failed_build") ;;
    let* '(found, stored) := committed (
      let* found := job_select ALLOCATIONS (fun a => String.eqb (al_attempt_id a) (ja_id attempt) && mem_str (al_component_id a) build_ids) in
      let* stored := job_get JOB_ATTEMPTS (ja_id attempt) in
      let* stored := row_or stored AttributeError in
      ret (found, stored)) in
    let builds := merge_sort component_order found in
    let prepared := truthy (get_or_none (ja_details_json stored) "build_prepared") in
    throw_if (negb (bool_decide (list_to_set (C := gset string) (map al_component_id builds) = list_to_set build_ids)))
      (ExecutorRefused "component_plan_mismatch") ;;
    let* ready := (if prepared then ret true
      else
        let* _ := committed (_set_phase (jb_id job) (ja_id attempt) (jb_epoch job) ProvisioningStage "building") in
        let* built := run_builds job attempt specs builds [] true in
        match built with
        | None => ret false
        | Some (outputs, false) => _renew_reserved_components job attempt ;; ret false
        | Some (outputs, true) => prepare_build_outputs job attempt build_ids outputs ;; ret true
        end) in
    if negb ready then ret false
    else
      let live := List.filter (fun a => allocation_live (al_state a)) builds in
      let* released := (match live with [] => ret true | _ => _release job attempt live end) in
      throw_if (negb released) UncertainExecution ;;
      ret true.

(** Every component of the gang is reserved, each under the identity it was
    admitted with; [false] when an acknowledgement came too late. *)
Fixpoint reserve_all (job : Job) (attempt : Attempt) (specs : gmap string ExecutionSpec) (allocations : list Allocation) : M Control bool :=
  match allocations with
  | [] => ret true
  | a :: rest =>
      let c := al_component_id a in
      let* spec := planned specs c in
      let* expected := lift (execution_identity (jb_id job) (ja_id attempt) c (jb_epoch job)) in
      throw_if (negb (bool_decide (identity spec = expected)) || negb (String.eqb (spec_pool_id spec) (al_pool_id a)))
        (ExecutorRefused "execution_binding_mismatch") ;;
      if al_acknowledged a then reserve_all job attempt specs rest
      else
        let* reservation := _operation job attempt c "reserve" (asked (fun n => xe_reserve n spec)) observe_reservation
                              [("allocation_id", JStr (al_id a))] in
        throw_if (negb reservation.1) UncertainExecution ;;
        let* accepted := committed (ack_assignment (jb_id job) (ja_id attempt) c (jb_epoch job)) in
        if negb accepted then ret false else reserve_all job attempt specs rest
  end.

(** The components are started, the owner first; [None] ends the dispatch. *)
Fixpoint start_all (job : Job) (attempt : Attempt) (specs : gmap string ExecutionSpec) (allocations : list Allocation) (all_running : bool) :
    M Control (option bool) :=
  match allocations with
  | [] => ret (Some all_running)
  | a :: rest =>
      let c := al_component_id a in
      let* current := _current (jb_id job) (ja_id attempt) (jb_epoch job) [STARTING; PROVISIONING] in
      if negb current then ret None
      else
        let* spec := planned specs c in
        let* observed := _operation job attempt c "start" (asked (fun n => xe_start n (identity spec))) observe_runtime [] in
        throw_if (state_is observed ["UNKNOWN"; "QUARANTINED"]) UncertainExecution ;;
        if ro_termination_confirmed observed then
          let* latest := asked (fun n => pv_current_round n job) in
          (if jb_target_round job <=? latest then committed (_request_completion (jb_id job) latest)
           else committed (_request_failure (jb_id job) (some_or (ro_error_code observed) "component_stopped_early") (ro_transient observed))) ;;
          ret None
        else start_all job attempt specs rest (all_running && state_is observed ["RUNNING"])
  end.
Definition owner_first (job : Job) (a b : Allocation) : Prop :=
  has_role job OWNER (al_component_id a) = true /\ has_role job OWNER (al_component_id b) = false
  \/ has_role job OWNER (al_component_id a) = has_role job OWNER (al_component_id b) /\ component_order a b.
#[global] Instance owner_first_dec job : RelDecision (owner_first job).
Proof. intros a b. unfold owner_first. apply _. Defined.

(** What follows once the whole gang is reserved. *)
Definition dispatch_gang (job : Job) (attempt : Attempt) (specs : gmap string ExecutionSpec) (remaining : Z) : M Control bool :=
  let* current := _current (jb_id job) (ja_id attempt) (jb_epoch job) [PROVISIONING; STARTING] in
  if negb current then ret true
  else
    _operation job attempt "owner" "provision" (asked (fun n => pv_ensure n job attempt remaining)) (fun _ => []) [] ;;
    let* round := asked (fun n => pv_current_round n job) in
    let* remaining := lift (remaining_rounds (jb_target_round job) round) in
    if remaining =? 0 then committed (_request_completion (jb_id job) round) ;; ret true
    else
      let* built := _build_phase job attempt specs in
      if negb built then ret false
      else
        let* snapshot := committed (_snapshot (jb_id job) (Some (ja_id attempt))) in
        let* '(_, _, allocations) := row_or snapshot TypeError in
        let* _ := committed (_set_phase (jb_id job) (ja_id attempt) (jb_epoch job) StartingStage "starting") in
        throw_if (existsb (fun a => negb (is_some (role_of (jb_spec job) (al_component_id a)))) allocations) KeyError ;;
        let* started := start_all job attempt specs
          (merge_sort (owner_first job) (List.filter (fun a => negb (has_role job BUILD (al_component_id a))) allocations)) true in
        match started with
        | None => ret true
        | Some false => let* _ := committed (_set_phase (jb_id job) (ja_id attempt) (jb_epoch job) StartingStage "waiting_components") in ret false
        | Some true => let* _ := committed (_set_phase (jb_id job) (ja_id attempt) (jb_epoch job) RunningStage "waiting_participants") in ret true
        end.

(** [_dispatch_reserved] *)
Definition _dispatch_reserved (item : Outbox) : M Control bool :=
  let* snapshot := committed (_snapshot (ob_job_id item) (ob_attempt_id item)) in
  match snapshot with
  | Some (job, Some attempt, allocations) =>
      if negb (job_in [PROVISIONING; STARTING] job)
         || negb (py_eqb (get_or (ob_payload_json item) "epoch" (JInt (ja_epoch attempt))) (JInt (jb_epoch job)))
         || negb (ja_epoch attempt =? jb_epoch job)
      then ret true
      else
        let* now := the_time in
        if expired (jb_deadline_at job) now then committed (_request_failure (jb_id job) "deadline_exceeded" false) ;; ret true
        else
          let* round := asked (fun n => pv_current_round n job) in
          let* remaining := lift (remaining_rounds (jb_target_round job) round) in
          let* specs := asked (fun n => pv_plan n job attempt remaining) in
          let declared : gset string := list_to_set (map cs_component_id (js_components (jb_spec job))) in
          throw_if (negb (bool_decide (dom specs = declared)) || negb (forallb (fun a => bool_decide (al_component_id a ∈ declared)) allocations))
            (ExecutorRefused "component_plan_mismatch") ;;
          _renew_reserved_components job attempt ;;
          let* reserved := reserve_all job attempt specs allocations in
          if negb reserved then ret true else dispatch_gang job attempt specs remaining
  | _ => ret true
  end.

(** [_dispatch] under [_keepalive]: a renewal that failed meanwhile ends the
    dispatch; one that lost the claim ends it as stale. *)
Definition _dispatch (item : Outbox) : M Control bool :=
  let* completed := _dispatch_reserved item in
  if negb has_renew then ret completed
  else
    let* failure := (fun w => (Ok (renewals (ct_tick w)), w)) in
    match failure with
    | None => ret completed
    | Some e => throw (if stale_claim e then e else UncertainExecution)
    end.

(** [_restore_proxies] *)
Definition _restore_proxies (item : Outbox) : M Control bool :=
  let* snapshot := committed (_snapshot (ob_job_id item) (ob_attempt_id item)) in
  match snapshot with
  | Some (job, Some attempt, _) =>
      if negb (job_in [RUNNING] job) || negb (ja_epoch attempt =? jb_epoch job) then ret true
      else
        let* confirmed := _operation job attempt "owner" "restore_proxies" (asked (fun n => pv_restore n job attempt)) observe_value [] in
        ret (match confirmed with JBool false => false | _ => true end)
  | _ => ret true
  end.

(** One pulse of [_keepalive]: the lease of the claim is extended while its
    dispatch is current, then the reserved components are renewed; what failed
    is kept for [_dispatch]. *)
Definition pulse_transaction (claim : Outbox) : M JobWorld (list ExecutionIdentity) :=
  job_transaction (
    let* item := job_get OUTBOX (ob_id claim) in
    let* job := job_get JOBS (ob_job_id claim) in
    throw_if (match item with
              | Some item => negb (String.eqb (ob_state item) "processing") || negb (bool_decide (ob_lease_owner item = ob_lease_owner claim))
              | None => true
              end) (ExecutorRefused "stale_claim") ;;
    let* now := utcnow in
    let* attempt := job_get JOB_ATTEMPTS (default "" (ob_attempt_id claim)) in
    match job, attempt with
    | Some job, Some attempt =>
        if negb (job_in [PROVISIONING; STARTING] job) || negb (is_some (jb_deadline_at job)) || expired (jb_deadline_at job) now
           || negb (jb_epoch job =? ja_epoch attempt) || negb (jb_current_attempt job =? ja_number attempt) then ret []
        else
          job_set OUTBOX (ob_id claim) (fun o => o <| ob_lease_until := Some (now + minutes 5) |>) ;;
          let* found := job_select ALLOCATIONS (renewable (ja_id attempt)) in
          mapM (fun a => lift (execution_identity (jb_id job) (ja_id attempt) (al_component_id a) (al_epoch a))) found
    | _, _ => ret []
    end).
Fixpoint renew_pulse (identities : list ExecutionIdentity) : M Control unit :=
  match identities with
  | [] => ret tt
  | i :: rest =>
      let* stopped := gets (fun w => halted (ct_tick w)) in
      if stopped then ret tt
      else
        let* current := _current (job_id i) (attempt_id i) (epoch i) [PROVISIONING; STARTING] in
        if negb current then ret tt else asked (fun n => xe_renew n i) ;; renew_pulse rest
  end.
Definition _pulse (claim : Outbox) : M Control (option exn) :=
  let* r := outcome (let* identities := committed (pulse_transaction claim) in renew_pulse identities) in
  ret (match r with Ok _ => None | Err e => Some e end).

(** ** The fence of an attempt *)
Definition wants_deadline (item : Outbox) : bool := py_eqb (get_or_none (ob_payload_json item) "reason") (JStr "deadline_exceeded").
Definition phase_is (job : Job) (phase : string) : bool := bool_decide (jb_phase job = Some phase).
(** [("FAILED" if reason == "deadline_exceeded" else "CANCELLED", reason)] *)
Definition ending (by_deadline : bool) : Outcome * string :=
  if by_deadline then (Failed, "deadline_exceeded") else (Cancelled, "cancelled").

(** The proof that a queued attempt never started, as the record keeps it. *)
Definition confirm_never_started (job_id attempt_id : string) : M Control bool :=
  _require ;;
  committed_as (_confirm_never_started None job_id attempt_id) (NeverStarted attempt_id).

(** A reservation is recorded as stopped when the executor confirmed the stop,
    or when the ledger shows that it was never asked for. *)
Definition stop_one (job : Job) (attempt : Attempt) (a : Allocation) : M Control bool :=
  let c := al_component_id a in
  let* i := identity_for job attempt a in
  let* never := never_reserved job attempt c in
  if never then
    let* _ := committed (stop_confirmation (jb_id job) (ja_id attempt) c (jb_epoch job)) in ret true
  else
    let* r := outcome (_operation job attempt c "stop" (stopping i) observe_runtime []) in
    let* confirmed := (match r with
                       | Ok observed => ret (ro_termination_confirmed observed)
                       | Err (ExecutorRefused _) | Err UncertainExecution => ret false
                       | Err e => throw e
                       end) in
    if confirmed then let* _ := committed (stop_confirmation (jb_id job) (ja_id attempt) c (jb_epoch job)) in ret true
    else ret false.
Fixpoint stop_all (job : Job) (attempt : Attempt) (allocations : list Allocation) (all_stopped : bool) : M Control bool :=
  match allocations with
  | [] => ret all_stopped
  | a :: rest => let* confirmed := stop_one job attempt a in stop_all job attempt rest (all_stopped && confirmed)
  end.

(** The components outside of the manager's pools. *)
Definition externals_stopped (job : Job) (attempt : Attempt) (all_stopped : bool) : M Control bool :=
  if has_participants then
    asked (fun n => pp_request_stop n job attempt) ;;
    if all_stopped then asked (fun n => pp_termination_confirmed n (jb_id job) (ja_id attempt)) else ret false
  else
    let* external := committed (job_select RESOURCES (fun r => String.eqb (rs_job_id r) (jb_id job) && String.eqb (rs_kind r) "external_enrollment")) in
    ret (all_stopped && forallb (fun r => truthy (get_or (rs_details_json r) "termination_confirmed" (JBool false))) external).

(** The end of the fence: the job ends, or is tried again. *)
Definition conclude (item : Outbox) (job : Job) (attempt : option Attempt) (publication : PublicationObservation) : M Control bool :=
  let terminal o reason := committed (_terminal (jb_id job) o reason) ;; ret true in
  if job_in [CANCELLING] job then
    let '(o, reason) := ending (phase_is job "deadline_exceeded" || wants_deadline item) in terminal o reason
  else
    let* attempt := row_or attempt AttributeError in
    let desired := get_or_none (ja_details_json attempt) "desired_terminal" in
    if py_eqb desired (JStr "CANCELLED") || py_eqb desired (JStr "FAILED") then
      match assoc "desired_terminal_reason" (ja_details_json attempt) with
      | Some (JStr reason) => terminal (if py_eqb desired (JStr "FAILED") then Failed else Cancelled) reason
      | Some _ => throw TypeError
      | None => throw KeyError
      end
    else if wants_deadline item || bool_decide (jb_error_code job = Some "deadline_exceeded") then terminal Failed "deadline_exceeded"
    else if match pu_current_round publication with Some round => jb_target_round job <=? round | None => false end
    then terminal Succeeded "target_round_confirmed"
    else if String.eqb (ob_topic item) "reconcile" && negb (truthy (get_or_none (ob_payload_json item) "retry"))
    then terminal Failed (some_or (jb_error_code job) "reconciled_failure")
    else if String.eqb (ob_topic item) "prepare_retry" then committed (_retry (jb_id job) true)
    else if truthy (get_or_none (ja_details_json attempt) "transient") || truthy (get_or_none (ob_payload_json item) "transient")
    then committed (_retry (jb_id job) false)
    else terminal Failed (some_or (jb_error_code job) "execution_failed").

(** [PublicationObservation(known, status, current_round, evidence)] *)
Definition publication_of (o : option (bool * string * option Z * document)) : result (option (PublicationObservation * document)) :=
  match o with
  | Some (known, status, round, evidence) => let? p := observe known status round in Ok (Some (p, evidence))
  | None => Ok None
  end.

(** Everything is stopped: what was published decides, and what the attempt
    held is released. *)
Definition settle_attempt (item : Outbox) (job : Job) (attempt : Attempt) (allocations : list Allocation) : M Control bool :=
  let evidence := get_or_none (ob_payload_json item) "evidence" in
  let with_evidence := String.eqb (ob_topic item) "reconcile" && truthy evidence in
  let attempt := if with_evidence
                 then attempt <| ja_details_json ::= fun d => merge_dicts d [("reconciliation_evidence", evidence)] |> else attempt in
  when with_evidence (committed (record_evidence (ja_id attempt) (ja_details_json attempt))) ;;
  let* seen := _operation job attempt "owner" "reconcile" 
    (asked (fun n => let? o := pv_reconcile n job attempt in publication_of o)) observe_publication [] in
  match seen with
  | Some (publication, evidence) =>
      if negb (pu_known publication) then committed (_attention (jb_id job) "publication_unknown") ;; ret true
      else
        committed (record_stopped (jb_id job) (ja_id attempt) publication evidence) ;;
        let* released := _release job attempt allocations in
        if negb released then committed (_quarantine (jb_id job)) ;; ret false
        else
          let* snapshot := committed (_snapshot (jb_id job) None) in
          let* '(job, attempt, _) := row_or snapshot TypeError in
          conclude item job attempt publication
  | None => committed (_attention (jb_id job) "publication_unknown") ;; ret true
  end.

(** The attempt that runs, or may run, is fenced. *)
Definition fence_attempt (item : Outbox) (job : Job) (attempt : Attempt) (allocations : list Allocation) : M Control bool :=
  let* now := the_time in
  when (job_in [CANCELLING] job || expired (jb_deadline_at job) now)
    (let '(o, reason) := ending (phase_is job "deadline_exceeded" || wants_deadline item || negb (job_in [CANCELLING] job)) in
     committed (record_desired (ja_id attempt) o reason)) ;;
  let* revoked := _operation job attempt "owner" "revoke"
    (let* r := asked (fun n => pv_revoke n job attempt) in learned (Revoked (ja_id attempt) (is_true r)) ;; ret r) observe_value [] in
  if negb (is_true revoked) then committed (_attention (jb_id job) "grant_revocation_unknown") ;; ret true
  else
    committed (record_revoked (ja_id attempt)) ;;
    let* active := committed (_other_dispatch_active (jb_id job)) in
    if active then ret false
    else
      let* all_stopped := stop_all job attempt allocations true in
      let* all_stopped := externals_stopped job attempt all_stopped in
      if negb all_stopped then committed (_quarantine (jb_id job)) ;; ret false
      else settle_attempt item job attempt allocations.

(** [_fence] *)
Definition _fence (item : Outbox) : M Control bool :=
  let* snapshot := committed (_snapshot (ob_job_id item) (ob_attempt_id item)) in
  match snapshot with
  | None => ret true
  | Some (job, attempt, allocations) =>
      if match ob_attempt_number item with Some n => negb (n =? jb_current_attempt job) | None => false end then ret true
      else if job_terminal (jb_state job) then ret true
      else
        match attempt with
        | None => committed (_terminal (jb_id job) Cancelled "cancelled") ;; ret true
        | Some attempt =>
            if bool_decide (allocations = []) && String.eqb (ja_state attempt) "QUEUED" && job_in [CANCELLING] job then
              let* proved := confirm_never_started (jb_id job) (ja_id attempt) in
              if negb proved then committed (_attention (jb_id job) "queued_cancellation_effects_unconfirmed") ;; ret true
              else
                let '(o, reason) := ending (phase_is job "deadline_exceeded") in
                committed (_terminal (jb_id job) o reason) ;; ret true
            else if negb (ja_number attempt =? jb_current_attempt job) || negb (ja_epoch attempt =? jb_epoch job) then ret true
            else fence_attempt item job attempt allocations
        end
  end.

(** ** Cleanup *)

(** The retained state of what was released is purged; [false] ends the claim. *)
Fixpoint purge_retained (job : Job) (retained : list Allocation) : M Control bool :=
  match retained with
  | [] => ret true
  | a :: rest =>
      if truthy (get_or_none (al_details_json a) "storage_deleted") || negb (truthy (get_or_none (al_details_json a) "retained_disk_charged"))
      then purge_retained job rest
      else
        let* i := lift (execution_identity (jb_id job) (al_attempt_id a) (al_component_id a) (al_epoch a)) in
        _require ;;
        if negb has_purge then ret false
        else
          let* purged := asked (fun n => xe_purge n i) in
          if negb purged then ret false else purge_retained job rest
  end.

(** The storage of a job is deleted; [None] when some of it is still there. *)
Definition delete_storage (purge : bool) (job : Job) : M Control (option bool) :=
  let* retained := committed (job_select ALLOCATIONS (fun a => String.eqb (al_job_id a) (jb_id job) && bool_decide (al_state a = RELEASED))) in
  let* purged := purge_retained job retained in
  if negb purged then ret None
  else
    _require ;;
    let* confirmed := asked (fun n => if purge then pv_purge_job n job else pv_expire_artifacts n job) in
    _require ;;
    when confirmed (
      committed (record_storage_deleted (jb_id job)) ;;
      preempted ;;
      let* now := the_time in
      let* _ := committed (confirm_job_data_deleted now (jb_id job)) in
      ret tt) ;;
    ret (Some confirmed).

(** A finished attempt is cleaned up, once it is known to have ended. *)
Definition clean_attempt (job : Job) (attempt : option Attempt) : M Control bool :=
  _require ;;
  let* '(job, attempt) := (match attempt with
    | Some a =>
        if negb (ja_revocation_confirmed a) || negb (ja_termination_confirmed a) then
          let* proved := confirm_never_started (jb_id job) (ja_id a) in
          if proved then
            let* snapshot := committed (_snapshot (jb_id job) (Some (ja_id a))) in
            let* '(job, attempt, _) := row_or snapshot TypeError in
            ret (job, attempt)
          else ret (job, attempt)
        else ret (job, attempt)
    | None => ret (job, attempt)
    end) in
  let* confirmed := asked (fun n => pv_cleanup n job attempt) in
  _require ;;
  ret confirmed.

Definition cleanup_topic (topic : string) : CleanupTopic :=
  if String.eqb topic "purge" then PurgeJob else if String.eqb topic "expire_artifacts" then ExpireArtifacts else CleanupJob.

(** [_cleanup] *)
Definition _cleanup (item : Outbox) : M Control bool :=
  let t := cleanup_topic (ob_topic item) in
  let* snapshot := committed (_snapshot (ob_job_id item) None) in
  match snapshot with
  | None => ret true
  | Some (job, attempt, allocations) =>
      if negb (job_terminal (jb_state job)) || negb (bool_decide (allocations = [])) then ret false
      else if is_some (jb_purged_at job)
              || negb (deletes_storage t) && mem_str (jb_cleanup_status job) ["purge_pending"; "expiry_pending"; "expired"] then ret true
      else if match t with ExpireArtifacts => String.eqb (jb_cleanup_status job) "purge_pending" | _ => false end then ret true
      else
        let* confirmed := (match t with
                           | CleanupJob => let* confirmed := clean_attempt job attempt in ret (Some confirmed)
                           | PurgeJob => delete_storage true job
                           | ExpireArtifacts => delete_storage false job
                           end) in
        match confirmed with
        | None => ret false
        | Some confirmed => committed (record_cleanup t (jb_id job) confirmed)
        end
  end.

(** ** The monitor *)

(** [getattr(observed, name, None) or (details or {}).get(name)] *)
Definition reported_or (v : option string) (details : document) (name : string) : json :=
  if present v then opt_str v else get_or_none details name.
(** A value the report must find in a set of names. *)
Definition report_name (v : json) : result (option string) :=
  match v with JNull => Ok None | JStr s => Ok (Some s) | JList _ | JObj _ => Err TypeError | _ => invalid "Invalid progress report" end.

(** What the observation of a component reports. *)
Definition report_progress (job : Job) (attempt : Attempt) (component_id : string) (o : RuntimeObservation) (round : Z) : M Control unit :=
  let round := Some (default round (ro_current_round o)) in
  lift (check_progress (mkProgress round None (Some (ro_publication_status o)) None None)) ;;
  let* phase := lift (report_name (reported_or (ro_phase o) (ro_details o) "phase")) in
  lift (check_progress (mkProgress round phase (Some (ro_publication_status o)) None None)) ;;
  let* readiness := lift (report_name (reported_or (ro_readiness o) (ro_details o) "readiness")) in
  let* _ := committed (progress (jb_id job) (ja_id attempt) component_id (jb_epoch job)
                         (mkProgress round phase (Some (ro_publication_status o)) (match ro_metrics o with JNull => None | m => Some m end) readiness)) in
  ret tt.

Fixpoint observe_all (job : Job) (attempt : Attempt) (round : Z) (allocations : list Allocation) : M Control unit :=
  match allocations with
  | [] => ret tt
  | a :: rest =>
      let c := al_component_id a in
      let* i := identity_for job attempt a in
      let* o := asked (fun n => xe_inspect n i) in
      _ingest_logs ;;
      if present (ro_error_code o) || state_is o ["FAILED"; "QUARANTINED"; "UNKNOWN"] then
        committed (_request_failure (jb_id job) (some_or (ro_error_code o) "execution_unknown") (ro_transient o))
      else if ro_termination_confirmed o then
        committed (_request_failure (jb_id job) "component_stopped_early" (ro_transient o))
      else
        when has_renew (asked (fun n => xe_renew n i)) ;;
        let* _ := committed (heartbeat (jb_id job) (ja_id attempt) c (jb_epoch job)) in
        report_progress job attempt c o round ;;
        observe_all job attempt round rest
  end.
Definition observe_job (job : Job) (attempt : Attempt) (allocations : list Allocation) : M Control unit :=
  let* round := asked (fun n => pv_current_round n job) in
  committed (_authoritative_round (jb_id job) round) ;;
  if jb_target_round job <=? round then committed (_request_completion (jb_id job) round)
  else observe_all job attempt round allocations.

Definition monitor_job (job_id : string) : M Control unit :=
  let* snapshot := committed (_snapshot job_id None) in
  let* '(job, attempt, allocations) := row_or snapshot TypeError in
  let* now := the_time in
  if expired (jb_deadline_at job) now then committed (_request_failure (jb_id job) "deadline_exceeded" false)
  else
    let* pending := (if job_in [RUNNING] job then committed (_proxy_restore_pending job) else ret false) in
    if pending || job_in [PROVISIONING] job then ret tt
    else
      let* attempt := row_or attempt AttributeError in
      let* now := the_time in
      if match ja_heartbeat_at attempt with Some t => timedelta_seconds heartbeat_timeout <? now - t | None => false end
      then committed (_request_failure (jb_id job) "heartbeat_expired" true)
      else
        let* r := outcome (observe_job job attempt allocations) in
        match r with
        | Ok _ => ret tt
        | Err e => if is_refusal e || is_uncertain e then committed (_request_failure (jb_id job) "heartbeat_lost" true)
                   else if is_value_error e then committed (_request_failure (jb_id job) "invalid_runtime_progress" false)
                   else throw e
        end.
(** [_monitor] *)
Definition _monitor : M Control unit :=
  let* found := committed (job_select JOBS (job_in [RUNNING; STARTING; PROVISIONING])) in
  for_each (map jb_id found) monitor_job.

(** ** Claims, and one pass *)
Definition CLEANUP_TOPICS : list string := ["cleanup"; "purge"; "expire_artifacts"].
Definition _handle_owned (item : Outbox) : M Control bool :=
  if String.eqb (ob_topic item) "dispatch" then _dispatch item
  else if String.eqb (ob_topic item) "restore_proxies" then _restore_proxies item
  else if mem_str (ob_topic item) ["fence_stop"; "prepare_retry"; "reconcile"] then _fence item
  else if mem_str (ob_topic item) CLEANUP_TOPICS then _cleanup item
  else ret true.
(** [_handle]: the claim is the thread's while it is handled. *)
Definition _handle (item : Outbox) : M Control bool :=
  modify (fun w => w <| ct_claim := Some item |>) ;;
  (fun w => let (r, w') := (_require ;; _handle_owned item) w in (r, w' <| ct_claim := None |>)).

Definition _finish (item : Outbox) (done_ : bool) (error : option string) : M Control unit := committed (_finish_claim item done_ error).
(** [_process_cleanup_claim]: whatever failed, the intent stays. *)
Definition _process_cleanup_claim (item : Outbox) : M Control bool :=
  let* r := outcome (_handle item) in
  match r with
  | Ok completed => _finish item completed None ;; ret completed
  | Err e =>
      let error := match e with
                   | ExecutorRefused code | ExchangeError _ code _ => py_prefix 128 code
                   | e => if is_uncertain e then "execution_unknown" else py_prefix 128 (type_name e)
                   end in
      _finish item false (Some error) ;; ret false
  end.
Definition TRANSIENT_REFUSALS : list string := ["capacity"; "runtime_unhealthy"; "lease_expired"; "node_quarantined"; "proxy_restart_required"].
(** [_process_claim] *)
Definition _process_claim (item : Outbox) : M Control bool :=
  let failed code transient := committed (_request_failure (ob_job_id item) code transient) in
  if mem_str (ob_topic item) CLEANUP_TOPICS then _process_cleanup_claim item
  else
    let* r := outcome (_handle item) in
    match r with
    | Ok completed => _finish item completed None ;; ret completed
    | Err (ExecutorRefused code) =>
        if mem_str code ["stale_epoch"; "stale_claim"] then _finish item (String.eqb code "stale_epoch") None ;; ret false
        else failed code (mem_str code TRANSIENT_REFUSALS) ;; _finish item true None ;; ret true
    | Err (ExchangeError _ code _) => failed code false ;; _finish item true None ;; ret true
    | Err e =>
        if is_uncertain e then failed "execution_unknown" true ;; _finish item true None ;; ret true
        else failed "controller_error" false ;; _finish item false (Some (type_name e)) ;; ret false
    end.

(** [for _ in range(n)], until nothing is due: how many claims completed. *)
Fixpoint process_claims (n : nat) (topics : option (list string)) (completed : Z) : M Control Z :=
  match n with
  | O => ret completed
  | S n =>
      let* item := committed (_claim controller_id topics) in
      match item with
      | None => ret completed
      | Some item => let* c := _process_claim item in process_claims n topics (completed + Z.b2z c)
      end
  end.

(** [run_once]: how many jobs were admitted, claims dispatched and proxies
    restored. *)
Definition run_once (dispatch_limit : nat) : M Control (Z * Z * Z) :=
  let* requested := gets ct_restored in
  when (negb requested)
    (when has_restore (committed _queue_proxy_restoration) ;; modify (fun w => w <| ct_restored := true |>)) ;;
  let* restored := process_claims dispatch_limit (Some ["restore_proxies"]) 0 in
  preempted ;;
  let* now := the_time in
  let* _ := committed (request_expiry now 100) in
  preempted ;;
  let* now := the_time in
  let* admissions := committed (schedule admission_storage now 100) in
  _monitor ;;
  let* dispatched := process_claims dispatch_limit None 0 in
  ret (Z.of_nat (List.length admissions), dispatched, restored).
End Flows.
