(* ===== verification/ManagerScenario.v ===== *)
(** * The life of a job on a concrete manager

    A job is submitted and admitted, fails, is fenced and retried, and ends:
    runs of the manager from empty tables, for the witnesses of its theorems. *)

From stdpp Require Import base gmap strings list fin_maps relations.
From Stdlib Require Import ZArith Lia.
From S2P Require Import Prelude Json Domain NodeAgent Placement JobSpec JobModels Retention Recovery BlobBudget Scheduler Gang SchedulerLogic SchedulerTheory RetentionTheory Controller Fence Views Commands Submission JobMachine JobRefinement JobAdmission ManagerSystem Flows JobScenario.

(** Dates are not parsed in these runs. *)
#[export] Instance no_calendar : Calendar := {| fromisoformat _ := None |}.
Definition IMAGE : string := "sha256:0123456789abcdef0123456789abcdef0123456789abcdef0123456789abcdef".

(** A project whose submitter is alice, with everything its job needs approved. *)
Definition MANAGER : JobDB := mkJobDB {["proj" := project_row]} ∅ ∅
  {["main" := pool_of "main" []; "left" := pool_of "left" ["g1"; "g2"]; "right" := pool_of "right" ["g1"]]}
  ∅ ∅ ∅ ∅ ∅ ∅ ∅ ∅ ∅ ∅ {[("proj", "alice") := "submitter"]}
  {["repo" := mkSource "repo" None "approved" [] true]}
  {["runtime-1" := mkImage "runtime-1" None true "approved" IMAGE true]}
  {["data1" := mkBinding "data1" "proj" "site1" None true; "data2" := mkBinding "data2" "proj" "site2" None true;
    "data3" := mkBinding "data3" "proj" "site3" (Some "node-3") true]}
  {["hub-secret" := mkSecret "hub-secret" "proj" true]}.
Definition START : JobWorld := mkJobWorld MANAGER 0 NOW 0.

(** ** Scripts *)
Definition at_time (t : Z) (w : JobWorld) : JobWorld := mkJobWorld (jw_db w) (jw_ids w) t (jw_calls w).
Definition serve (op : ManagerOp) : M JobWorld unit := serve_manager default_admission_storage None op.
Fixpoint play (script : list (Z * ManagerOp)) (w : JobWorld) : JobWorld :=
  match script with
  | [] => w
  | (t, op) :: rest => play rest (snd (serve op (at_time t w)))
  end.
Abbreviation steps := (manager_runs default_admission_storage None).

Lemma play_runs script w : Forall (fun e => permitted e.2) script -> steps (jw_db w) (jw_db (play script w)).
Proof.
  revert w. induction script as [|[t op] script IH]; intros w Hp; [apply rtc_refl|]. inversion_clear Hp as [|? ? Hop Hrest]. cbn [play].
  eapply rtc_l; [|by apply IH]. by apply (by_operation _ _ _ _ op (at_time t w)).
Qed.
Lemma play_app s1 s2 w : play (s1 ++ s2) w = play s2 (play s1 w).
Proof. revert w. induction s1 as [|[t op] s1 IH]; intros w; [done|]. apply IH. Qed.
Lemma start_untouched : untouched_manager MANAGER.
Proof. done. Qed.
Lemma play_reachable_manager script : Forall (fun e => permitted e.2) script -> reachable_manager default_admission_storage None (jw_db (play script START)).
Proof. intros Hp. exists MANAGER. split; [done|]. by apply (play_runs script START). Qed.

(** ** The life of a job *)
Definition RUN : list (Z * ManagerOp) :=
  [(NOW, CreateJob "alice" two_site_spec (JStr "key-1")); (NOW, Schedule NOW 10);
   (NOW, AckAssignment "id0" "id1" "owner" 1); (NOW, AckAssignment "id0" "id1" "w1" 1); (NOW, AckAssignment "id0" "id1" "w2" 1);
   (NOW, SetPhase "id0" "id1" 1 RunningStage "waiting_participants"); (NOW, Heartbeat "id0" "id1" "w1" 1)].
Definition LATER : Z := NOW + minutes 10.
Definition FENCE : list (Z * ManagerOp) :=
  [(LATER, RequestFailure "id0" "heartbeat_expired" true); (LATER, RecordRevoked "id1");
   (LATER, StopConfirmation "id0" "id1" "owner" 1); (LATER, StopConfirmation "id0" "id1" "w1" 1); (LATER, StopConfirmation "id0" "id1" "w2" 1);
   (LATER, RecordStopped "id0" "id1" (mkObservation true "none" None) []);
   (LATER, ReleaseReserved "id3"); (LATER, ReleaseReserved "id4"); (LATER, ReleaseReserved "id6")].
Definition AGAIN : list (Z * ManagerOp) :=
  [(LATER, NextAttempt "id0" false); (LATER + minutes 2, Schedule (LATER + minutes 2) 10)].
Definition FINISH : list (Z * ManagerOp) := [(LATER + minutes 3, Terminate "id0" Cancelled "cancelled")].

(** ** The same life under a controller

    A controller admits the job, starts it and, when the node reports the last
    round, fences it: an executor that does what it is asked, a node that
    reaches the target round after a while, and a clock that goes on by a
    tenth of a second before every step. *)
Definition runtime (state : string) (stopped : bool) : RuntimeObservation :=
  mkRuntime state stopped "none" None None false None [] JNull None None.
Definition pool_for (component : string) : string := if String.eqb component "owner" then "main" else if String.eqb component "w1" then "left" else "right".
Definition spec_for (j : Job) (x : Attempt) (c : string) : ExecutionSpec :=
  mkExecutionSpec (mkIdentity (jb_id j) (ja_id x) c (jb_epoch j)) IMAGE "/source" "/state" [] None (mkLimits 1000 GIB GIB 16 1000000 0) (JInt 60)
    (pool_for c) ("node-" +:+ pool_for c) JNull None "runsc-cpu-v1" "participant" None None None None.
#[export] Instance willing_executor : ControlExecutor := {|
  xe_reserve _ _ := Ok (true, "RESERVED"); xe_start _ _ := Ok (runtime "RUNNING" false); xe_inspect _ _ := Ok (runtime "RUNNING" false);
  xe_stop _ _ _ := Ok (runtime "STOPPED" true); xe_collect _ _ := Ok (Some []); xe_release _ _ := Ok true;
  has_renew := true; xe_renew _ _ := Ok tt; has_purge := true; xe_purge _ _ := Ok true; has_read_logs := false
|}.
Definition round_at (n : N) : Z := if (n <? 82)%N then 0 else 5.
#[export] Instance willing_provisioner : ControlProvisioner := {|
  pv_current_round n _ := Ok (round_at n);
  pv_plan _ j x _ := Ok (list_to_map (map (fun c => (c, spec_for j x c)) ["owner"; "w1"; "w2"]));
  pv_ensure _ _ _ _ := Ok tt; has_prepare_build := false; pv_prepare_build _ _ _ _ := Ok JNull; has_restore := true; pv_restore _ _ _ := Ok (JBool true);
  pv_revoke _ _ _ := Ok (JBool true); pv_reconcile n _ _ := Ok (Some (true, "published", Some (round_at n), []));
  pv_cleanup _ _ _ := Ok true; pv_purge_job _ _ := Ok true; pv_expire_artifacts _ _ := Ok true
|}.
#[export] Instance no_participants : ControlParticipants :=
  {| has_participants := false; pp_request_stop _ _ _ := Ok tt; pp_termination_confirmed _ _ _ := Ok true |}.
#[export] Instance quiet : Surroundings := {|
  dies _ := false; meanwhile _ s := (at_time (jw_utc s.1 + 100000) s.1, s.2); renewals _ := None; halted _ := false; log_reader _ := None
|}.
(** A process that dies at step 130, after another controller has made a pass
    of its own at step 110. *)
Definition troubled : Surroundings := {|
  dies n := (n =? 130)%N;
  meanwhile n s :=
    if (n =? 110)%N then
      let w := snd (run_once default_admission_storage "controller-2" 60 20 (mkControl s.1 s.2 None true 1000)) in (ct_job w, ct_log w)
    else (at_time (jw_utc s.1 + 100000) s.1, s.2);
  renewals _ := None; halted _ := false; log_reader _ := None
|}.
(** The job is admitted and started; it is fenced until the process dies; the
    process that takes over ten minutes later finishes it. *)
Definition SUBMITTED : Control := mkControl (play [(NOW, CreateJob "alice" two_site_spec (JStr "key-1"))] START) [] None false 0.
Definition pass (w : Control) : Control := snd (run_once default_admission_storage "controller-1" 60 20 w).
Definition failing_pass (w : Control) : Control := snd (run_once (H := troubled) default_admission_storage "controller-1" 60 20 w).
Definition restarted_after (d : Z) (w : Control) : Control :=
  mkControl (at_time (jw_utc (ct_job w) + d) (ct_job w)) (ct_log w) None false (ct_tick w).
Definition STARTED : Control := pass SUBMITTED.
Definition CRASHED : Control := failing_pass STARTED.
Definition RECOVERED : Control := pass (restarted_after (minutes 10) CRASHED).
Definition job_states (w : Control) : list JobState := map jb_state (map_to_list (jobs (jw_db (ct_job w)))).*2.
Definition hold_states (w : Control) : list (string * AllocationState) := map (fun a => (al_component_id a, al_state a)) (map_to_list (allocations (jw_db (ct_job w)))).*2.
Example crashed_mid_fence : job_states STARTED = [RUNNING] /\ job_states CRASHED = [RECONCILING] /\
  hold_states CRASHED = [("owner", RELEASING); ("w2", AL_RUNNING); ("w1", RELEASING)] /\ job_states RECOVERED = [SUCCEEDED] /\
  hold_states RECOVERED = [("owner", RELEASED); ("w2", RELEASED); ("w1", RELEASED)].
Proof. vm_compute. auto. Qed.

(** *** A fence that meets a time-out

    The node is not heard of for ten minutes; the fence that follows cannot
    reach the Exchange to revoke the grants of the attempt.  [_process_claim]
    asks for a failure, which a job that is being reconciled ignores, and closes
    the claim: no later pass fences the job, which holds its reservations. *)
Definition unreachable : ControlProvisioner := {|
  pv_current_round _ _ := Ok 0; pv_plan := pv_plan; pv_ensure := pv_ensure; has_prepare_build := false; pv_prepare_build := pv_prepare_build;
  has_restore := true; pv_restore := pv_restore; pv_revoke _ _ _ := Err TimeoutError; pv_reconcile := pv_reconcile;
  pv_cleanup := pv_cleanup; pv_purge_job := pv_purge_job; pv_expire_artifacts := pv_expire_artifacts
|}.
Definition UNFENCED : Control :=
  snd (run_once (V := unreachable) default_admission_storage "controller-1" 60 20 (restarted_after (minutes 10) STARTED)).
Definition MUCH_LATER : Control := pass (restarted_after (minutes 600) UNFENCED).
Definition topics_open (w : Control) : list string :=
  map ob_topic (filter (fun o => ob_state o <> "done") (map_to_list (outbox (jw_db (ct_job w)))).*2).
Example timed_out_fence_is_lost : job_states UNFENCED = [RECONCILING] /\ topics_open UNFENCED = [] /\
  job_states MUCH_LATER = [RECONCILING] /\ hold_states MUCH_LATER = hold_states UNFENCED /\
  hold_states UNFENCED = [("owner", QUARANTINED); ("w2", QUARANTINED); ("w1", QUARANTINED)].
Proof. vm_compute. auto. Qed.
