(* ===== verification/LifecycleGuarantees.v ===== *)
(** * What the job manager guarantees over a job's life

    Theorems about every reachable state of the manager, and about the states
    that follow it, with the life of a job as their witness. *)

From stdpp Require Import base gmap strings list fin_maps relations.
From Stdlib Require Import ZArith Lia.
From S2P Require Import Prelude Json Domain Placement JobSpec Recovery JobModels Retention BlobBudget Scheduler Gang Controller Fence Views Commands Submission JobMachine SchedulerLogic JobScenario JobRefinement JobAdmission ManagerSystem ManagerScenario.

Section Guarantees.
Context {P : Platform} {U : Unicode} {C : Calendar}.
Context (admission_storage : Job -> list json) (storage_planner : option (Job -> option (list json))).

(** C9: The manager refines the lifecycle of its jobs.  Whatever transaction is
    served -- a member's command, a pass of the scheduler, a transaction of the
    controller, a call of the retention service, or a write of another service
    -- and however it ends, the tables it leaves are reached from the tables it
    found by moves of the abstract lifecycle: submission, the edges of the
    graph of job states, admission of the queued attempt to the next epoch while
    nothing of the job is reserved, retry once the current attempt is over,
    reservation, stop and release.  (Rows are stored under their identifiers,
    and stay so.) *)
Theorem manager_refines_lifecycle d d' : manager_step admission_storage storage_planner d d' -> named d -> named d' /\ run (machine d) (machine d').
Proof. intros H Hn. by eapply step_refines. Qed.

(** C19: One attempt of a job at a time.  In every reachable state an attempt
    belongs to a job and is numbered within its attempts, no two attempts of a
    job share a number, and every attempt before the current one is over: its
    grants are known to be revoked, its termination is confirmed and its
    publication is known.  Whatever is still reserved is reserved under the
    epoch its job has now. *)
Theorem one_attempt_at_a_time d : reachable_manager admission_storage storage_planner d ->
  (forall k a, job_attempts d !! k = Some a -> exists j, jobs d !! ja_job_id a = Some j /\ 1 <= ja_number a <= jb_current_attempt j /\
     (ja_number a < jb_current_attempt j -> over a = true)) /\
  (forall k i a b, job_attempts d !! k = Some a -> job_attempts d !! i = Some b -> ja_job_id a = ja_job_id b -> ja_number a = ja_number b -> k = i) /\
  (forall k a, allocations d !! k = Some a -> allocation_live (al_state a) = true -> exists j, jobs d !! al_job_id a = Some j /\ al_epoch a = jb_epoch j).
Proof.
  intros H. destruct (reachable_lawful _ _ _ H) as [_ [(H1 & H2 & H3) [H4 _] _]]. split_and!.
  - intros k a Hk. destruct (H1 k (attempt_face a)) as (j & Hj & Hn); [cbn; by rewrite lookup_fmap, Hk|].
    pose proof Hj as Hj'. cbn in Hj'. apply lookup_fmap_Some in Hj' as (x & <- & Hx). exists x. split_and!; [done|apply Hn..|].
    intros Hlt. apply (H3 k (attempt_face a) (job_face x)); [cbn; by rewrite lookup_fmap, Hk|done|done].
  - intros k i a b Hk Hi. apply (H2 k i (attempt_face a) (attempt_face b)); cbn; rewrite lookup_fmap; [by rewrite Hk|by rewrite Hi].
  - intros k a Hk Hl. destruct (H4 k (hold_face a)) as (j & Hj & _ & He); [cbn; by rewrite lookup_fmap, Hk|].
    cbn in Hj. apply lookup_fmap_Some in Hj as (x & <- & Hx). exists x. split; [done|by apply He].
Qed.

(** C20: Resources outlive the execution that uses them.  In every reachable
    state a reservation that is no longer live had its termination confirmed; a
    device that is not released belongs to a live reservation, and no two of
    them are the same device. *)
Theorem resources_outlive_execution d : reachable_manager admission_storage storage_planner d ->
  (forall k a, allocations d !! k = Some a -> allocation_live (al_state a) = false -> al_termination_confirmed a = true) /\
  (forall k g, gpu_allocations d !! k = Some g -> ga_released_at g = None ->
     exists a, allocations d !! ga_allocation_id g = Some a /\ allocation_live (al_state a) = true) /\
  (forall k i g h, gpu_allocations d !! k = Some g -> gpu_allocations d !! i = Some h -> ga_released_at g = None -> ga_released_at h = None ->
     ga_gpu_uuid g = ga_gpu_uuid h -> k = i).
Proof.
  intros H. destruct (reachable_lawful _ _ _ H) as [_ [_ [_ H2] [H3 H4]]].
  assert (Hf : forall k g, gpu_allocations d !! k = Some g -> m_devices (machine d) !! k = Some (device_face g)) by (intros k g Hk; cbn; by rewrite lookup_fmap, Hk).
  assert (Hh : forall g, ga_released_at g = None -> df_held (device_face g) = true) by (intros g Hg; unfold device_face; by rewrite Hg).
  split_and!.
  - intros k a Hk Hl. apply (H2 k (hold_face a)); [cbn; by rewrite lookup_fmap, Hk|done].
  - intros k g Hk Hg. destruct (H3 k _ (Hf _ _ Hk) (Hh _ Hg)) as (h & Hx & Hl). cbn in Hx. apply lookup_fmap_Some in Hx as (a & <- & Ha). by exists a.
  - intros k i g h Hk Hi Hg Hh' E. by apply (H4 k i _ _ (Hf _ _ Hk) (Hf _ _ Hi) (Hh _ Hg) (Hh _ Hh')).
Qed.

(** C21: Outcomes are final, and nothing is taken back.  Once a job has
    succeeded or was cancelled it keeps its state, its epoch and its current
    attempt whatever is served later; epochs and attempt numbers of any job
    never decrease; and a reservation that was given up, or stopped, stays so. *)
Theorem outcomes_are_final d d' : reachable_manager admission_storage storage_planner d -> manager_runs admission_storage storage_planner d d' ->
  (forall k j, jobs d !! k = Some j -> exists j', jobs d' !! k = Some j' /\ jb_epoch j <= jb_epoch j' /\ jb_current_attempt j <= jb_current_attempt j' /\
     (jb_state j = SUCCEEDED \/ jb_state j = JOB_CANCELLED -> jb_state j' = jb_state j /\ jb_epoch j' = jb_epoch j /\ jb_current_attempt j' = jb_current_attempt j)) /\
  (forall k a, allocations d !! k = Some a -> exists a', allocations d' !! k = Some a' /\ al_job_id a' = al_job_id a /\ al_epoch a' = al_epoch a /\
     (allocation_live (al_state a) = false -> allocation_live (al_state a') = false) /\ (al_termination_confirmed a = true -> al_termination_confirmed a' = true)).
Proof.
  intros H Hr. destruct (reachable_lawful _ _ _ H) as [Hn _]. destruct (runs_later _ _ _ _ Hr Hn) as [L1 L2 _]. split.
  - intros k j Hk. destruct (L1 k (job_face j)) as (j' & Hj' & E1 & E2 & E3); [cbn; by rewrite lookup_fmap, Hk|].
    cbn in Hj'. apply lookup_fmap_Some in Hj' as (x & <- & Hx). exists x. split_and!; [done..|]. intros Hs.
    assert (E : job_face x = job_face j) by (apply E3; cbn; by destruct Hs as [-> | ->]). by injection E.
  - intros k a Hk. destruct (L2 k (hold_face a)) as (h & Hh & E1 & E2 & E3 & E4 & E5); [cbn; by rewrite lookup_fmap, Hk|].
    cbn in Hh. apply lookup_fmap_Some in Hh as (x & <- & Hx). by exists x.
Qed.

(** C22: Reports of an earlier epoch are refused for ever.  When a job has moved
    past an epoch, any report of a component under that epoch -- at that moment
    or after anything else was served -- is answered [False] without a change,
    and so is the question of a node whether it still holds its assignment. *)
Theorem stale_reports_refused d d' k j epoch : reachable_manager admission_storage storage_planner d -> manager_runs admission_storage storage_planner d d' ->
  jobs d !! k = Some j -> epoch < jb_epoch j ->
  forall w attempt_id component_id, jw_db w = d' ->
  (forall apply_, _callback k attempt_id component_id epoch apply_ w = (Ok false, w)) /\
  (forall node_id pool_id, check_assignment node_id pool_id k attempt_id component_id epoch w = (Ok false, w)).
Proof.
  intros H Hr Hk He w attempt_id component_id Hw. destruct (reachable_lawful _ _ _ H) as [Hn _]. destruct (runs_later _ _ _ _ Hr Hn) as [L1 _ _].
  destruct (L1 k (job_face j)) as (j' & Hj' & E1 & _); [cbn; by rewrite lookup_fmap, Hk|]. cbn in Hj'. apply lookup_fmap_Some in Hj' as (x & <- & Hx). cbn in E1.
  assert (Ex : jb_epoch x =? epoch = false) by (apply Z.eqb_neq; lia). split.
  - intros apply_. unfold _callback, job_transaction, callback_body, bind, job_get, gets. cbn. rewrite Hw, Hx. destruct (job_attempts d' !! attempt_id); [|done].
    unfold current_report. by rewrite Ex.
  - intros node_id pool_id. unfold check_assignment, bind, job_get, gets. cbn. rewrite Hw, Hx. do 2 (case_match; [|done]). by rewrite Ex, orb_true_r.
Qed.
End Guarantees.

(** ** Witnesses: the life of a job *)
Definition scripted (script : list (Z * ManagerOp)) : JobDB := jw_db (play script START).
Definition ADMITTED_RUN : JobDB := scripted (take 2 RUN).

Lemma manager_refines_lifecycle_witness : named MANAGER /\ run (machine (scripted (take 1 RUN))) (machine ADMITTED_RUN) /\
  (jb_state <$> jobs ADMITTED_RUN !! "id0") = Some PROVISIONING.
Proof.
  split_and!; [by apply untouched_lawful| |vm_compute; reflexivity].
  apply (manager_refines_lifecycle default_admission_storage None).
  - apply (by_operation _ _ _ _ (Schedule NOW 10) (at_time NOW (play (take 1 RUN) START))); done.
  - apply (reachable_lawful default_admission_storage None). apply play_reachable_manager. by repeat constructor.
Defined.

Lemma permitted_life : Forall (fun e => permitted e.2) (RUN ++ FENCE ++ AGAIN).
Proof. by repeat constructor. Qed.
Definition SECOND : JobDB := scripted (RUN ++ FENCE ++ AGAIN).
Lemma second_reachable : reachable_manager default_admission_storage None SECOND.
Proof. apply play_reachable_manager, permitted_life. Qed.

(** A retry, and the second attempt. *)
Lemma one_attempt_at_a_time_witness : exists j a, jobs SECOND !! "id0" = Some j /\ jb_current_attempt j = 2 /\ job_attempts SECOND !! "id1" = Some a /\ over a = true.
Proof.
  destruct (one_attempt_at_a_time default_admission_storage None SECOND second_reachable) as (H & _ & _).
  destruct (job_attempts SECOND !! "id1") as [a|] eqn:E; [|vm_compute in E; discriminate].
  destruct (H "id1" a E) as (j & Hj & Hn & Ho). assert (Ea : option_map (fun a => (ja_job_id a, ja_number a)) (job_attempts SECOND !! "id1") = Some ("id0", 1)) by (vm_compute; reflexivity).
  rewrite E in Ea. cbn in Ea. injection Ea as E1 E2. rewrite E1 in Hj.
  assert (Ej : option_map jb_current_attempt (jobs SECOND !! "id0") = Some 2) by (vm_compute; reflexivity).
  exists j, a. split_and!; [exact Hj| |done|apply Ho]; rewrite Hj in Ej; cbn in Ej; injection Ej as ->; [done|lia].
Defined.

(** The first reservation of the owner was given up after it was stopped; the
    device that was given back is in use again. *)
Lemma resources_outlive_execution_witness : exists a, allocations SECOND !! "id3" = Some a /\ allocation_live (al_state a) = false /\ al_termination_confirmed a = true /\
  exists g b, gpu_allocations SECOND !! "id17" = Some g /\ ga_gpu_uuid g = "g2" /\ allocations SECOND !! ga_allocation_id g = Some b /\ allocation_live (al_state b) = true.
Proof.
  destruct (resources_outlive_execution default_admission_storage None SECOND second_reachable) as (H1 & H2 & _).
  destruct (allocations SECOND !! "id3") as [a|] eqn:E; [|vm_compute in E; discriminate]. exists a. split; [reflexivity|].
  assert (Ea : option_map (fun a => allocation_live (al_state a)) (allocations SECOND !! "id3") = Some false) by (vm_compute; reflexivity).
  rewrite E in Ea. injection Ea as Ea. split; [exact Ea|]. split; [exact (H1 "id3" a E Ea)|].
  destruct (gpu_allocations SECOND !! "id17") as [g|] eqn:Eg; [|vm_compute in Eg; discriminate].
  assert (Ef : option_map (fun g => (ga_gpu_uuid g, ga_released_at g)) (gpu_allocations SECOND !! "id17") = Some ("g2", None)) by (vm_compute; reflexivity).
  rewrite Eg in Ef. injection Ef as E1 E2. destruct (H2 "id17" g Eg E2) as (b & Hb & Hl). exists g, b. exact (conj eq_refl (conj E1 (conj Hb Hl))).
Defined.

(** The second attempt is cancelled; a late report, a retry and a schedule do
    not bring the job back. *)
Definition ENDED : JobDB := scripted ((RUN ++ FENCE ++ AGAIN) ++ FINISH).
Definition AFTERWARDS : list (Z * ManagerOp) :=
  [(LATER + minutes 4, Heartbeat "id0" "id13" "w1" 2); (LATER + minutes 4, NextAttempt "id0" true); (LATER + minutes 4, Schedule (LATER + minutes 4) 10)].
Definition AFTER_ALL : JobDB := scripted (((RUN ++ FENCE ++ AGAIN) ++ FINISH) ++ AFTERWARDS).
Lemma ended_reachable : reachable_manager default_admission_storage None ENDED.
Proof. apply play_reachable_manager. by repeat constructor. Qed.
Lemma ended_continues : manager_runs default_admission_storage None ENDED AFTER_ALL.
Proof. unfold ENDED, AFTER_ALL, scripted. rewrite (play_app ((RUN ++ FENCE ++ AGAIN) ++ FINISH)). apply play_runs. by repeat constructor. Qed.
Lemma outcomes_are_final_witness : exists j j', jobs ENDED !! "id0" = Some j /\ jb_state j = JOB_CANCELLED /\ jobs AFTER_ALL !! "id0" = Some j' /\ jb_state j' = JOB_CANCELLED /\ jb_epoch j' = 2.
Proof.
  destruct (outcomes_are_final default_admission_storage None ENDED AFTER_ALL ended_reachable ended_continues) as [H _].
  destruct (jobs ENDED !! "id0") as [j|] eqn:E; [|vm_compute in E; discriminate].
  assert (Ej : option_map (fun j => (jb_state j, jb_epoch j)) (jobs ENDED !! "id0") = Some (JOB_CANCELLED, 2)) by (vm_compute; reflexivity).
  rewrite E in Ej. injection Ej as E1 E2. destruct (H "id0" j E) as (j' & Hj' & _ & _ & Hf). destruct (Hf (or_intror E1)) as (F1 & F2 & _).
  exists j, j'. split_and!; congruence.
Defined.

(** A component of the first attempt that comes back during the second. *)
Definition AFTER_WORLD := play (((RUN ++ FENCE ++ AGAIN) ++ FINISH) ++ AFTERWARDS) START.
Lemma stale_reports_refused_witness :
  heartbeat "id0" "id1" "w1" 1 AFTER_WORLD = (Ok false, AFTER_WORLD) /\
  check_assignment "node-left" "left" "id0" "id1" "w1" 1 AFTER_WORLD = (Ok false, AFTER_WORLD).
Proof.
  assert (Ej : option_map jb_epoch (jobs ENDED !! "id0") = Some 2) by (vm_compute; reflexivity).
  destruct (jobs ENDED !! "id0") as [j|] eqn:E; [|discriminate]. injection Ej as Ej.
  destruct (stale_reports_refused default_admission_storage None ENDED AFTER_ALL "id0" j 1 ended_reachable ended_continues E ltac:(lia)
    AFTER_WORLD "id1" "w1" eq_refl) as [H1 H2].
  split; [apply H1|apply H2].
Defined.

(** ** Two behaviours of the controller that its code does not mean

    A metric that is a huge integer makes the report of a component raise an
    [OverflowError], which the callers do not expect; and the evidence of an
    operator is stored over the details the fence has just recorded. *)

(** [math.isfinite] of an integer too large for a float raises, so a report
    with such a metric is not refused as invalid: [progress] raises
    [OverflowError], where the monitor of the controller handles [ValueError]. *)
Theorem huge_metric_raises {P : Platform} {U : Unicode} job_id attempt_id component_id epoch n w : 2 ^ 1024 <= n ->
  progress job_id attempt_id component_id epoch (mkProgress None None None (Some (JObj [("loss", JInt n)])) None) w = (Err OverflowError, w).
Proof.
  intros Hn. assert (E : Z.abs n <? 2 ^ 1024 - 2 ^ 970 = false).
  { apply Z.ltb_ge. rewrite Z.abs_eq by lia. assert (0 <= 2 ^ 970) by lia. lia. }
  unfold progress, bind, lift, check_progress, check_metrics, bad_metric. cbn -[Z.pow Z.abs]. unfold isfinite. by rewrite E.
Qed.
Lemma huge_metric_raises_witness : exists n, 2 ^ 1024 <= n /\
  forall (P : Platform) (U : Unicode) w, progress "job" "attempt" "owner" 1 (mkProgress None None None (Some (JObj [("loss", JInt n)])) None) w = (Err OverflowError, w).
Proof. exists (2 ^ 1024). split; [lia|]. intros P U w. apply (huge_metric_raises "job" "attempt" "owner" 1 (2 ^ 1024) w). lia. Defined.

(** [_fence] of a reconciliation whose deadline has passed records the outcome
    it is for, then stores the evidence with the details it read before: the
    outcome is lost, and the end of the job is decided without it. *)
Theorem evidence_erases_outcome {P : Platform} {U : Unicode} attempt_id o reason evidence a w :
  job_attempts (jw_db w) !! attempt_id = Some a -> has_key "desired_terminal" (ja_details_json a) = false ->
  let '(r, w') := (record_desired attempt_id o reason ;; record_evidence attempt_id (assoc_set "reconciliation_evidence" evidence (ja_details_json a))) w in
  r = Ok tt /\ exists a', job_attempts (jw_db w') !! attempt_id = Some a' /\ has_key "desired_terminal" (ja_details_json a') = false.
Proof.
  intros Ha Hd. unfold record_desired, record_evidence, job_transaction, bind, job_get, gets, row_or, detail, job_set, job_update, modify, ret.
  cbn. rewrite Ha. cbn. rewrite Hd. cbn. rewrite lookup_alter_eq, Ha. cbn. split; [done|]. rewrite !lookup_alter_eq, Ha. cbn. eexists. split; [done|]. cbn.
  unfold has_key in *. rewrite assoc_assoc_set. done.
Qed.
