(* ===== verification/FlowTheory.v ===== *)
(** * What a controller may claim

    [honest]: a transaction keeps the identity of every reservation, records a
    stop, a release or a revocation only with the evidence of a record, and
    reserves only under an epoch its job has not had.  Every transaction of the
    manager is honest, those that record evidence when it is in the record. *)

From stdpp Require Import base gmap strings list fin_maps relations sorting.
From Stdlib Require Import ZArith Lia.
From S2P Require Import Prelude Json Domain NodeAgent Placement JobSpec JobModels Retention Recovery BlobBudget Scheduler Gang SchedulerLogic SchedulerTheory RetentionTheory Controller Fence Views Commands Submission JobMachine JobRefinement PassTheory JobAdmission ManagerSystem Flows.

(** ** Evidence

    An execution is known by its attempt, its component and its epoch. *)
Definition held_identity (a : Allocation) : ExecutionIdentity := mkIdentity (al_job_id a) (al_attempt_id a) (al_component_id a) (al_epoch a).
Definition of_job (j : string) (i : ExecutionIdentity) : ExecutionIdentity := mkIdentity j (attempt_id i) (component_id i) (epoch i).
Definition ledger_shows (h : list Evidence) (i : ExecutionIdentity) : Prop := exists j, NeverReserved j (attempt_id i) (component_id i) ∈ h.
Definition answered (h : list Evidence) (a : Answer) (i : ExecutionIdentity) : Prop := exists j, Answered a (of_job j i) true ∈ h.
(** The execution is known to have stopped, and to be released. *)
Definition stop_known (h : list Evidence) (i : ExecutionIdentity) : Prop :=
  answered h StopAnswer i \/ (exists j, Reported (of_job j i) ∈ h) \/ ledger_shows h i.
Definition release_known (h : list Evidence) (i : ExecutionIdentity) : Prop :=
  (answered h CollectAnswer i /\ answered h ReleaseAnswer i) \/ ledger_shows h i.
(** The grants of an attempt are known to be revoked, or were never given. *)
Definition revoke_known (h : list Evidence) (x : string) : Prop := Revoked x true ∈ h \/ NeverStarted x ∈ h.

Lemma answer_app l h a i : answered h a i -> answered (l ++ h) a i.
Proof. intros (j & H). exists j. rewrite elem_of_app. by right. Qed.
Lemma shows_app l h i : ledger_shows h i -> ledger_shows (l ++ h) i.
Proof. intros (j & H). exists j. rewrite elem_of_app. by right. Qed.
Lemma stop_known_app l h i : stop_known h i -> stop_known (l ++ h) i.
Proof.
  intros [H|[(j & H)|H]]; [left; by apply answer_app|right; left|right; right; by apply shows_app]. exists j. rewrite elem_of_app. by right.
Qed.
Lemma release_known_app l h i : release_known h i -> release_known (l ++ h) i.
Proof. intros [[H1 H2]|H]; [left; split; by apply answer_app|right; by apply shows_app]. Qed.
Lemma revoke_known_app l h x : revoke_known h x -> revoke_known (l ++ h) x.
Proof. unfold revoke_known. rewrite !elem_of_app. tauto. Qed.
#[export] Hint Resolve stop_known_app release_known_app revoke_known_app : core.

(** ** Honest changes *)
Record row_honest (h : list Evidence) (a a' : Allocation) : Prop := {
  rh_id : al_id a' = al_id a;
  rh_identity : held_identity a' = held_identity a;
  rh_stopped : al_termination_confirmed a = true -> al_termination_confirmed a' = true;
  rh_stop : al_termination_confirmed a' = true -> al_termination_confirmed a = true \/ stop_known h (held_identity a');
  rh_live : allocation_live (al_state a') = true -> allocation_live (al_state a) = true;
  rh_free : allocation_live (al_state a') = false -> allocation_live (al_state a) = false \/ release_known h (held_identity a');
}.
#[export] Instance row_honest_po h : PreOrder (row_honest h).
Proof.
  split; [intros a; split; auto|]. intros a b c [A1 A2 A3 A4 A5 A6] [B1 B2 B3 B4 B5 B6]. split; try congruence; auto.
  - intros Hc. destruct (B4 Hc) as [Hb|?]; [|by right]. rewrite B2. auto.
  - intros Hc. destruct (B6 Hc) as [Hb|?]; [|by right]. rewrite B2. auto.
Qed.
Lemma row_honest_app l h a a' : row_honest h a a' -> row_honest (l ++ h) a a'.
Proof. intros [R1 R2 R3 R4 R5 R6]. split; auto; [intros H; destruct (R4 H)|intros H; destruct (R6 H)]; auto. Qed.

Definition epoch_le (j j' : Job) : Prop := jb_id j' = jb_id j /\ jb_epoch j <= jb_epoch j'.
#[export] Instance epoch_le_po : PreOrder epoch_le.
Proof. split; [intros j; split; [done|lia]|intros a b c [E1 ?] [E2 ?]; split; [congruence|lia]]. Qed.

(** [honest h N]: what is recorded has its evidence in [h]; [N d a] holds of the
    reservations made since [d]. *)
Definition unclaimed (a : Allocation) : Prop := al_termination_confirmed a = false /\ allocation_live (al_state a) = true.
Record changed (h : list Evidence) (N : JobDB -> ExecutionIdentity -> Prop) (d d' : JobDB) : Prop := {
  ch_rows : kept (row_honest h) (allocations d) (allocations d');
  ch_new : forall k a, allocations d' !! k = Some a -> allocations d !! k = None ->
    N d (held_identity a) /\ exists b, unclaimed b /\ row_honest h b a;
  ch_attempts : forall k x, job_attempts d' !! k = Some x -> ja_revocation_confirmed x = true ->
    (exists y, job_attempts d !! k = Some y /\ ja_revocation_confirmed y = true) \/ revoke_known h k;
  ch_jobs : kept epoch_le (jobs d) (jobs d');
}.
(** What new reservations may depend on is kept. *)
Class Backward (N : JobDB -> ExecutionIdentity -> Prop) :=
  backward : forall d d' i, kept epoch_le (jobs d) (jobs d') -> N d' i -> N d i.
#[export] Instance changed_po h N `{!Backward N} : PreOrder (changed h N).
Proof.
  split.
  - intros d. split; [apply kept_refl; apply _|congruence|eauto|apply kept_refl; apply _].
  - intros d1 d2 d3 [A1 A2 A3 A4] [B1 B2 B3 B4]. split; [eapply kept_trans; [apply _|done..]| | |eapply kept_trans; [apply _|done..]].
    + intros k a Hk Hn. destruct (allocations d2 !! k) as [b|] eqn:Hb.
      * destruct (B1 k b Hb) as (a' & Ha' & R), (A2 k b Hb Hn) as (Hi & c & Hc & Rc). simplify_eq. rewrite (rh_identity _ _ _ R).
        split; [done|]. exists c. split; [done|]. by etransitivity.
      * destruct (B2 k a Hk Hb) as (Hi & c & Hc & Rc). split; [by eapply backward|]. by exists c.
    + intros k x Hk Hx. destruct (B3 k x Hk Hx) as [(y & Hy & Hc)|]; [by eapply A3|by right].
Qed.
Lemma changed_weaken l h N N' d d' : (forall i, N d i -> N' d i) -> changed h N d d' -> changed (l ++ h) N' d d'.
Proof.
  intros HN [A1 A2 A3 A4]. split; [| |intros k x Hk Hx; destruct (A3 k x Hk Hx); auto|done].
  - intros k a Hk. destruct (A1 k a Hk) as (a' & ? & ?). eauto using row_honest_app.
  - intros k a Hk Hn. destruct (A2 k a Hk Hn) as (Hi & b & Hb & R). split; [by apply HN|]. eauto using row_honest_app.
Qed.

(** No reservation is made; or each under an epoch that is new to its job; or
    all for one job, under one epoch. *)
Definition none_new (d : JobDB) (i : ExecutionIdentity) : Prop := False.
Definition fresh (d : JobDB) (i : ExecutionIdentity) : Prop := forall j, jobs d !! job_id i = Some j -> jb_epoch j < epoch i.
Definition only (id : string) (e : Z) (d : JobDB) (i : ExecutionIdentity) : Prop := job_id i = id /\ epoch i = e.
#[export] Instance none_backward : Backward none_new.
Proof. by intros d d' i _. Qed.
#[export] Instance only_backward id e : Backward (only id e).
Proof. by intros d d' i _. Qed.
#[export] Instance fresh_backward : Backward fresh.
Proof. intros d d' i Hj H j Hk. destruct (Hj _ _ Hk) as (j' & Hj' & _ & Hle). specialize (H _ Hj'). lia. Qed.
Abbreviation steady h := (changed h none_new).
Abbreviation honest h := (changed h fresh).
Lemma steady_changed h N d d' : steady h d d' -> changed h N d d'.
Proof. intros H. apply (changed_weaken [] h none_new); [by intros i|done]. Qed.

(** ** Readings *)
Definition reads {A} (m : M JobWorld A) : Prop := forall w, (m w).2 = w.
Lemma reads_bind {A B} (m : M JobWorld A) (f : A -> M JobWorld B) : reads m -> (forall a, reads (f a)) -> reads (bind m f).
Proof. intros Hm Hf w. specialize (Hm w). unfold bind. destruct (m w) as [[a|e] w1]; cbn in Hm; subst w1; [apply Hf|done]. Qed.
Lemma reads_ok {A} (m : M JobWorld A) w r w' : reads m -> m w = (r, w') -> w' = w.
Proof. intros Hm E. specialize (Hm w). by rewrite E in Hm. Qed.
Lemma reads_row_or {A} (o : option A) e : reads (row_or o e).
Proof. by destruct o. Qed.
Lemma reads_throw_if c e : reads (throw_if c e).
Proof. by destruct c. Qed.
Ltac reading := repeat first [apply reads_row_or|apply reads_throw_if|apply reads_bind; [|intros ?]
  |progress cbv beta zeta|match goal with |- reads (match ?x with _ => _ end) => destruct x end|done].

(** ** Statement by statement *)
Section Statements.
Context (h : list Evidence).

(** The columns concerned. *)
Definition frank (d : JobDB) :=
  ((fun a => (al_id a, held_identity a, al_termination_confirmed a, allocation_live (al_state a))) <$> allocations d,
   ja_revocation_confirmed <$> job_attempts d, (fun j => (jb_id j, jb_epoch j)) <$> jobs d).
Lemma fmap_face {A B} (f : A -> B) (m m' : gmap string A) k a : f <$> m' = f <$> m -> m' !! k = Some a -> exists b, m !! k = Some b /\ f a = f b.
Proof.
  intros E Hk. assert (H : (f <$> m') !! k = Some (f a)) by (by rewrite lookup_fmap, Hk). rewrite E, lookup_fmap in H.
  destruct (m !! k) as [b|]; [|done]. injection H as H. eauto.
Qed.
Lemma steady_frank d d' : same frank d d' -> steady h d d'.
Proof.
  intros [= E1 E2 E3]. split.
  - intros k a Hk. destruct (fmap_face _ _ _ _ _ (eq_sym E1) Hk) as (b & Hb & E). exists b. split; [done|]. injection E as F1 F2 F3 F4 F5 F6 F7.
    split; rewrite ?F1, ?F6, ?F7; auto. unfold held_identity. congruence.
  - intros k a Hk Hn. destruct (fmap_face _ _ _ _ _ E1 Hk) as (b & Hb & _). congruence.
  - intros k x Hk Hx. destruct (fmap_face _ _ _ _ _ E2 Hk) as (y & Hy & E). left. exists y. by rewrite <- E.
  - intros k j Hk. destruct (fmap_face _ _ _ _ _ (eq_sym E3) Hk) as (j' & Hj & E). exists j'. split; [done|]. injection E as ? ?. split; [done|lia].
Qed.
Lemma steady_job d f k : (forall j, epoch_le j (f j)) -> steady h d (t_upd JOBS (alter f k) d).
Proof.
  intros Hf. split; cbn; [apply kept_refl; apply _|congruence|eauto|]. intros i j Hj. destruct (decide (k = i)) as [->|Hne].
  - exists (f j). rewrite lookup_alter_eq, Hj. split; [done|apply Hf].
  - exists j. by rewrite lookup_alter_ne.
Qed.
Lemma steady_new_job d k j : jobs d !! k = None -> steady h d (t_upd JOBS (insert k j) d).
Proof.
  intros Hk. split; cbn; [apply kept_refl; apply _|congruence|eauto|]. intros i x Hx. exists x. by rewrite lookup_insert_ne by congruence.
Qed.
Lemma steady_attempt d f k : (forall x, ja_revocation_confirmed (f x) = true -> ja_revocation_confirmed x = true \/ revoke_known h k) ->
  steady h d (t_upd JOB_ATTEMPTS (alter f k) d).
Proof.
  intros Hf. split; cbn; [apply kept_refl; apply _|congruence| |apply kept_refl; apply _]. intros i x Hx Hc.
  apply lookup_alter_Some in Hx as [(<- & y & Hy & ->)|[_ Hx]]; [|eauto]. destruct (Hf y Hc); [eauto|by right].
Qed.
Lemma steady_new_attempt d k x : ja_revocation_confirmed x = false -> steady h d (t_upd JOB_ATTEMPTS (insert k x) d).
Proof.
  intros Hf. split; cbn; [apply kept_refl; apply _|congruence| |apply kept_refl; apply _]. intros i y Hy Hc.
  apply lookup_insert_Some in Hy as [[<- <-]|[_ Hy]]; [congruence|eauto].
Qed.
Lemma steady_row d f k : (forall a, allocations d !! k = Some a -> row_honest h a (f a)) -> steady h d (t_upd ALLOCATIONS (alter f k) d).
Proof.
  intros Hf. split; cbn; [| |eauto|apply kept_refl; apply _].
  - intros i a Ha. destruct (decide (k = i)) as [->|Hne].
    + exists (f a). rewrite lookup_alter_eq, Ha. eauto.
    + exists a. by rewrite lookup_alter_ne.
  - intros i a Ha Hn. apply lookup_alter_Some in Ha as [(<- & y & Hy & ->)|[_ Ha]]; congruence.
Qed.
Lemma steady_rows d p f : (forall a, p a = true -> row_honest h a (f a)) -> steady h d (t_upd ALLOCATIONS (fmap (fun r => if p r then f r else r)) d).
Proof.
  intros Hf. split; cbn; [| |eauto|apply kept_refl; apply _].
  - intros i a Ha. eexists. rewrite lookup_fmap, Ha. split; [done|]. destruct (p a) eqn:E; [by apply Hf|done].
  - intros i a Ha Hn. rewrite lookup_fmap, Hn in Ha. done.
Qed.
(** A row that keeps its identity, its stop and whether it is live. *)
Lemma row_kept a a' : al_id a' = al_id a -> held_identity a' = held_identity a -> al_termination_confirmed a' = al_termination_confirmed a ->
  allocation_live (al_state a') = allocation_live (al_state a) -> row_honest h a a'.
Proof. intros E1 E2 E3 E4. split; rewrite ?E3, ?E4; auto. Qed.
End Statements.

Ltac frankly := first [by apply steady_frank
  |by apply steady_job; intros []; split; cbn; first [done|lia]|by apply steady_job; intros []; split; cbn; repeat case_match; cbn; first [done|lia]
  |by apply steady_attempt; intros []; cbn; auto
  |by apply steady_new_attempt
  |by apply steady_row; intros [] _; apply row_kept].
Ltac steadily := cbv zeta; repeat (leave_step; cbv beta zeta); try eauto with leaves; frankly.

(** ** Transactions that record no evidence *)
Section Ordinary.
Context {P : Platform} {U : Unicode} {C : Calendar} (h : list Evidence).

Lemma steady_reason id code now details : leaves (steady h) (set_reason id code now details).
Proof. unfold set_reason. steadily. Qed.
Lemma steady_outbox job topic payload a : leaves (steady h) (add_outbox job topic payload a).
Proof. unfold add_outbox. steadily. Qed.
Lemma steady_add_event id kind v e data now : leaves (steady h) (add_event id kind v e data now).
Proof. unfold add_event, next_sequence. steadily. Qed.
#[local] Hint Resolve steady_add_event : leaves.
Lemma steady_event job kind payload now : leaves (steady h) (job_event job kind payload now).
Proof. unfold job_event. steadily. Qed.
Lemma steady_emit job kind actor data : leaves (steady h) (_emit job kind actor data).
Proof. unfold _emit, next_sequence. steadily. Qed.
Lemma steady_the_job id : leaves (steady h) (the_job id).
Proof. unfold the_job. leave. Qed.
#[local] Hint Resolve steady_reason steady_outbox steady_event steady_emit steady_the_job : leaves.
Lemma steady_request job kind actor payload : leaves (steady h) (_outbox job kind actor payload).
Proof. unfold _outbox. steadily. Qed.
Lemma steady_touch id : leaves (steady h) (_touch id).
Proof. unfold _touch. steadily. Qed.
Lemma steady_answer id m : leaves (steady h) (answer id m).
Proof. unfold answer, job_member. leave. Qed.
Lemma steady_detail id items : leaves (steady h) (detail id items).
Proof. unfold detail. steadily. Qed.
Lemma steady_expire id at_ : leaves (steady h) (expire_data id at_).
Proof. unfold expire_data, job_update_where. steadily. Qed.
Lemma steady_live p f : (forall a, p a = true -> allocation_live (al_state a) = true) ->
  (forall a, allocation_live (al_state a) = true -> row_honest h a (f a)) -> leaves (steady h) (job_update_where ALLOCATIONS p f).
Proof. intros Hp Hf. unfold job_update_where. leave. apply steady_rows. auto. Qed.
Lemma live_job_row id a : live_of_job id a = true -> allocation_live (al_state a) = true.
Proof. unfold live_of_job. by intros [_ ?]%andb_true_iff. Qed.
Lemma live_attempt_row id a : live_of_attempt id a = true -> allocation_live (al_state a) = true.
Proof. unfold live_of_attempt. by intros [_ ?]%andb_true_iff. Qed.
Lemma steady_quarantine id : leaves (steady h) (quarantine_live id).
Proof. apply steady_live; [apply live_job_row|]. intros [] Hl. by apply row_kept. Qed.
Lemma steady_staged attempt_id s : leaves (steady h) (job_update_where ALLOCATIONS (live_of_attempt attempt_id) (fun a => a <| al_state ::= stage_allocation s |>)).
Proof. apply steady_live; [apply live_attempt_row|]. intros [] Hl. cbn in Hl. apply row_kept; [done..|]. cbn. rewrite Hl. by destruct s. Qed.
Lemma steady_current job : leaves (steady h) (current_attempt job).
Proof. unfold current_attempt. leave. Qed.
Lemma steady_reserve_project id n : leaves (steady h) (reserve_project_bytes id n).
Proof. unfold reserve_project_bytes. steadily. Qed.
Lemma steady_reserve_pool r pool n : leaves (steady h) (reserve_pool_bytes r pool n).
Proof. unfold reserve_pool_bytes. leave. Qed.
Lemma steady_release_project id n bump : leaves (steady h) (release_project_bytes id n bump).
Proof. unfold release_project_bytes. steadily. Qed.
#[local] Hint Resolve steady_reserve_project steady_reserve_pool steady_release_project : leaves.
Lemma steady_reserve id pid n pool : leaves (steady h) (reserve_in_transaction id pid n pool).
Proof. unfold reserve_in_transaction. steadily. Qed.
Lemma steady_charge id pid n : leaves (steady h) (charge_in_transaction id pid n).
Proof. unfold charge_in_transaction. steadily. Qed.
Lemma steady_charge_log pid chunk budget : leaves (steady h) (charge_log_in_transaction pid chunk budget).
Proof. unfold charge_log_in_transaction. steadily. Qed.
Lemma steady_linked a pointer kind : leaves (steady h) (linked_resource a pointer kind).
Proof. unfold linked_resource. leave. Qed.
Lemma steady_release_row now n r : leaves (steady h) (release_row now n r).
Proof. unfold release_row. steadily. Qed.
Lemma steady_transfer_child r settled left_ id : leaves (steady h) (transfer_child r settled left_ id).
Proof. unfold transfer_child. steadily. Qed.
#[local] Hint Resolve steady_transfer_child : leaves.
Lemma steady_transfer rid pid children keep : leaves (steady h) (transfer_reserved_in_transaction rid pid children keep).
Proof. unfold transfer_reserved_in_transaction. steadily. Qed.
End Ordinary.
#[export] Hint Resolve steady_reason steady_outbox steady_add_event steady_event steady_emit steady_the_job steady_request steady_touch steady_answer steady_detail
  steady_expire steady_quarantine steady_staged steady_current steady_reserve_project steady_reserve_pool steady_release_project steady_reserve steady_charge
  steady_charge_log steady_linked steady_release_row steady_transfer_child steady_transfer : leaves.

(** However it ends: what fails is rolled back. *)
Lemma safely_steady {A} h (m : M JobWorld A) w : leaves (steady h) m -> safely (steady h) w (job_transaction m).
Proof. intros Hm. apply safely_transaction; [apply _|]. by apply lands_leaves. Qed.

Section Transactions.
Context {P : Platform} {U : Unicode} {C : Calendar} (h : list Evidence).

Lemma claim_steady id topics w : safely (steady h) w (_claim id topics).
Proof. apply safely_steady. steadily. Qed.
Lemma finish_steady c d e w : safely (steady h) w (_finish_claim c d e).
Proof. apply safely_steady. steadily. Qed.
Lemma restoration_steady w : safely (steady h) w _queue_proxy_restoration.
Proof. apply safely_steady. unfold queue_restoration. steadily. Qed.
Lemma set_phase_steady job_id attempt_id epoch s phase w : safely (steady h) w (_set_phase job_id attempt_id epoch s phase).
Proof. apply safely_steady. steadily. Qed.
Lemma failure_steady job_id code transient w : safely (steady h) w (_request_failure job_id code transient).
Proof. apply safely_steady. unfold want_failed, blame. steadily. Qed.
Lemma completion_steady job_id round w : safely (steady h) w (_request_completion job_id round).
Proof. apply safely_steady. steadily. Qed.
Lemma attention_steady job_id reason w : safely (steady h) w (_attention job_id reason).
Proof. apply safely_steady. steadily. Qed.
Lemma quarantine_steady job_id w : safely (steady h) w (_quarantine job_id).
Proof. apply safely_steady. leave. Qed.
Lemma steady_terminal j o reason : leaves (steady h) (_terminal_in_transaction j o reason).
Proof. unfold _terminal_in_transaction. steadily. Qed.
#[local] Hint Resolve steady_terminal : leaves.
Lemma terminal_steady job_id o reason w : safely (steady h) w (_terminal job_id o reason).
Proof. apply safely_steady. leave. Qed.
Lemma retry_steady job_id manual w : safely (steady h) w (_retry job_id manual).
Proof. apply safely_steady. steadily. Qed.
Lemma round_steady job_id round w : safely (steady h) w (_authoritative_round job_id round).
Proof. apply safely_steady. steadily. Qed.
Lemma begin_steady job attempt component_id action desired w : safely (steady h) w (begin_operation job attempt component_id action desired).
Proof. apply safely_steady. steadily. Qed.
Lemma fail_steady id refused error w : safely (steady h) w (fail_operation id refused error).
Proof. apply safely_steady. steadily. Qed.
Lemma confirm_steady job attempt id observed w : safely (steady h) w (confirm_operation job attempt id observed).
Proof. apply safely_steady. steadily. Qed.
Lemma desired_steady attempt_id o reason w : safely (steady h) w (record_desired attempt_id o reason).
Proof. apply safely_steady. steadily. Qed.
Lemma evidence_steady attempt_id details w : safely (steady h) w (record_evidence attempt_id details).
Proof. apply safely_steady. steadily. Qed.
Lemma stopped_steady job_id attempt_id publication evidence w : safely (steady h) w (record_stopped job_id attempt_id publication evidence).
Proof. apply safely_steady. steadily. Qed.
Lemma collection_steady job attempt a w : safely (steady h) w (_reserve_collection job attempt a).
Proof. apply safely_steady. steadily. Qed.
Lemma retain_steady job attempt a w : safely (steady h) w (_retain_execution_state job attempt a).
Proof. apply safely_steady. steadily. Qed.
Lemma storage_steady job_id w : safely (steady h) w (record_storage_deleted job_id).
Proof.
  apply safely_steady. unfold job_update_where. leave; [|frankly]. apply steady_rows. intros [] _. by apply row_kept.
Qed.
Lemma cleanup_steady t job_id confirmed w : safely (steady h) w (record_cleanup t job_id confirmed).
Proof. apply safely_steady. steadily. Qed.

(** *** Reports *)
Lemma found_live job_id attempt_id component_id epoch (d : gmap string Allocation) a l : rows (reservation_of job_id attempt_id component_id epoch) d = a :: l ->
  (exists k, d !! k = Some a) /\ held_identity a = mkIdentity job_id attempt_id component_id epoch /\ allocation_live (al_state a) = true.
Proof.
  intros E. assert (Hl : a ∈ rows (reservation_of job_id attempt_id component_id epoch) d) by (rewrite E; left).
  apply elem_of_rows in Hl as (Hl & Hk). unfold reservation_of in Hl. repeat (apply andb_true_iff in Hl as [Hl ?]).
  repeat match goal with H : String.eqb _ _ = true |- _ => apply String.eqb_eq in H end. bool_simpl. split; [done|]. unfold held_identity. split; congruence.
Qed.
Lemma callback_steady job_id attempt_id component_id epoch apply_ w : named (jw_db w) ->
  (forall j t a, allocations (jw_db w) !! al_id a = Some a -> held_identity a = mkIdentity job_id attempt_id component_id epoch ->
     allocation_live (al_state a) = true -> lands (steady h) w (apply_ j t a)) ->
  safely (steady h) w (_callback job_id attempt_id component_id epoch apply_).
Proof.
  intros Hn Ha. apply safely_transaction; [apply _|]. unfold callback_body. apply lands_get. cbn [t_get JOBS]. apply lands_get. cbn [t_get JOB_ATTEMPTS].
  destruct (jobs _ !! _); [|apply lands_ret; apply _]. destruct (job_attempts _ !! _); [|apply lands_ret; apply _]. destruct (negb _); [apply lands_ret; apply _|].
  apply lands_gets. cbn [t_get ALLOCATIONS]. destruct (rows _ _) as [|x l] eqn:E; [apply lands_ret; apply _|].
  apply found_live in E as ((k & Hk) & Ei & Hl). apply lands_bind; [apply _| |intros ? ? _; apply lands_ret; apply _].
  apply Ha; [|done|done]. by rewrite (nm_allocations _ Hn _ _ Hk).
Qed.
Lemma ack_steady job_id attempt_id component_id epoch w : named (jw_db w) -> safely (steady h) w (ack_assignment job_id attempt_id component_id epoch).
Proof.
  intros Hn. apply callback_steady; [done|]. intros j t a Hk _ Hl. apply lands_gets. apply lands_set; [apply _| |apply lands_set_last; frankly].
  apply steady_row. intros x Hx. simplify_eq. apply row_kept; cbn; [done..|by rewrite Hl].
Qed.
Lemma heartbeat_steady job_id attempt_id component_id epoch w : named (jw_db w) -> safely (steady h) w (heartbeat job_id attempt_id component_id epoch).
Proof. intros Hn. apply callback_steady; [done|]. intros. apply lands_leaves. steadily. Qed.
Lemma progress_steady job_id attempt_id component_id epoch p w : named (jw_db w) -> safely (steady h) w (progress job_id attempt_id component_id epoch p).
Proof.
  intros Hn. unfold progress. unfold safely, bind, lift. destruct (check_progress p); [|done]. apply callback_steady; [done|].
  intros. apply lands_leaves. unfold progress_apply. steadily.
Qed.
Lemma logs_steady job_id attempt_id component_id epoch data w : named (jw_db w) -> safely (steady h) w (append_logs job_id attempt_id component_id epoch data).
Proof.
  intros Hn. unfold append_logs. unfold safely, throw_if. destruct (65536 <? utf8_len data); [done|]. apply callback_steady; [done|].
  intros. apply lands_leaves. unfold append_apply, next_chunk. steadily.
Qed.

(** *** What records evidence *)
Lemma stop_steady job_id attempt_id component_id epoch w : named (jw_db w) ->
  (forall a, allocations (jw_db w) !! al_id a = Some a -> held_identity a = mkIdentity job_id attempt_id component_id epoch -> allocation_live (al_state a) = true ->
     stop_known h (held_identity a)) ->
  safely (steady h) w (stop_confirmation job_id attempt_id component_id epoch).
Proof.
  intros Hn Hs. apply callback_steady; [done|]. intros j t a Hk Ei Hl. apply lands_set_last. apply steady_row. intros x Hx. cbn in Hx. simplify_eq.
  specialize (Hs a Hk Ei Hl). destruct a. by split; auto.
Qed.
Lemma revoked_steady attempt_id w : revoke_known h attempt_id -> safely (steady h) w (record_revoked attempt_id).
Proof. intros Hr. apply safely_steady. leave. apply steady_attempt. auto. Qed.
Lemma require_pure claim : reads (_require_claim claim).
Proof. unfold _require_claim, _claim_current. reading. Qed.
Lemma never_started_unproved job_id attempt_id w w' : _confirm_never_started None job_id attempt_id w = (Ok false, w') -> jw_db w' = jw_db w.
Proof.
  unfold _confirm_never_started. intros H. apply bind_ok in H as ([] & w1 & [= <-] & H). apply job_transaction_ok in H.
  apply bind_ok in H as (j & w1 & [= <- <-] & H). apply bind_ok in H as (x & w1 & [= <- <-] & H).
  cbn [t_get JOBS JOB_ATTEMPTS] in H. destruct (jobs _ !! _) as [j|]; [|by injection H as <-]. destruct (job_attempts _ !! _) as [x|]; [|by injection H as <-].
  apply bind_ok in H as (d & w1 & [= <- <-] & H). destruct (negb _); [by injection H as <-|]. destruct (_ && _); [done|].
  repeat (apply bind_ok in H as (? & ? & _ & H)). done.
Qed.
Lemma never_started_steady claim job_id attempt_id w : NeverStarted attempt_id ∈ h -> safely (steady h) w (_confirm_never_started claim job_id attempt_id).
Proof.
  intros Hr. unfold _confirm_never_started. unfold safely, bind at 1. pose proof (require_pure claim w) as Hp.
  destruct (_require_claim claim w) as [[[]|e] w1]; cbn in Hp; subst w1; [|cbn; reflexivity]. apply safely_steady. leave; try frankly.
  apply steady_attempt. intros x _. right. by right.
Qed.

(** A reservation is freed once it is stopped. *)
Lemma free_steady allocation_id w : (forall a, allocations (jw_db w) !! allocation_id = Some a -> release_known h (held_identity a)) ->
  safely (steady h) w (release_reserved allocation_id).
Proof.
  intros Hr. apply safely_transaction; [apply _|]. apply lands_get. cbn [t_get ALLOCATIONS]. apply lands_row_or. intros a Ha.
  destruct (negb _) eqn:Ht; [apply lands_ret; apply _|]. apply lands_gets. apply lands_set; [apply _| |apply lands_leaves; unfold job_update_where; steadily].
  apply steady_row. intros x Hx. assert (x = a) as -> by congruence. specialize (Hr a Ha). destruct a. by split; auto.
Qed.

(** *** Collected outputs, renewals *)
Lemma steady_locator job attempt a locator path : leaves (steady h) (locator_root job attempt a locator path).
Proof. unfold locator_root, unsafe_output. leave. Qed.
Lemma steady_root job attempt a root : leaves (steady h) (root_resource job attempt a root).
Proof. unfold root_resource, unsafe_output. steadily. Qed.
Lemma steady_output job attempt a locator size : leaves (steady h) (output_resource job attempt a locator size).
Proof. unfold output_resource. steadily. Qed.
#[local] Hint Resolve steady_locator steady_root steady_output : leaves.
Lemma steady_item job attempt a stored children c : leaves (steady h) (store_item job attempt a stored children c).
Proof. unfold store_item, store_output, unsafe_output. steadily. Qed.
#[local] Hint Resolve steady_item : leaves.
Lemma store_steady job attempt a collected w : safely (steady h) w (_store_collected job attempt a collected).
Proof.
  unfold _store_collected. destruct collected as [items|]; [|unfold safely, unsafe_output; cbn; reflexivity]. unfold throw_if.
  destruct (1000 <? _); [unfold safely; cbn; reflexivity|]. unfold safely, bind at 1. cbn. apply safely_steady. leave.
Qed.
Lemma pulse_steady claim w : safely (steady h) w (pulse_transaction claim).
Proof. apply safely_steady. steadily. Qed.
End Transactions.

(** ** Commands of members, and the retention service *)
Lemma safely_lift_then {A B} R `{!PreOrder R} (r : result A) w (f : A -> M JobWorld B) : (forall a, safely R w (f a)) -> safely R w (bind (lift r) f).
Proof. intros H. unfold safely, bind, lift. destruct r as [a|e]; [apply H|by cbn]. Qed.
Lemma leaves_add_new {V} R `{!PreOrder R} (T : Tab JobDB string V) clash k row :
  (forall d, t_get T d !! k = None -> R d (t_upd T (insert k row) d)) -> leaves R (job_add T clash k row).
Proof. intros H w a w' Hw. apply job_add_ok in Hw as (Hn & _ & ->). by apply H. Qed.

Section Others.
Context {P : Platform} {U : Unicode} {C : Calendar} (h : list Evidence).

Lemma steady_remember scope actor key row : leaves (steady h) (remember scope actor key row).
Proof. intros w a w' [= _ <-]. by apply steady_frank. Qed.
Lemma steady_idempotency scope actor key : leaves (steady h) (idempotency_row scope actor key).
Proof. unfold idempotency_row. leave. Qed.
Lemma steady_member job actor : leaves (steady h) (job_member job actor).
Proof. unfold job_member. leave. Qed.
Lemma steady_set_member job actor role : leaves (steady h) (set_member job actor role).
Proof. intros w a w' [= _ <-]. by apply steady_frank. Qed.
Lemma steady_drop_member job actor : leaves (steady h) (drop_member job actor).
Proof. intros w a w' [= _ <-]. by apply steady_frank. Qed.
Lemma steady_preserve job : leaves (steady h) (_preserve_admin job).
Proof. unfold _preserve_admin. leave. Qed.
#[local] Hint Resolve steady_remember steady_idempotency steady_member steady_set_member steady_drop_member steady_preserve : leaves.
Lemma steady_once actor scope key body action replay : leaves (steady h) action -> (forall r, leaves (steady h) (replay r)) ->
  leaves (steady h) (_once actor scope key body action replay).
Proof. intros Ha Hr. unfold _once. leave. Qed.
Lemma command_steady principal job_id role key expected kind data action allow_purged w : (forall j actor, leaves (steady h) (action j actor)) ->
  safely (steady h) w (_command principal job_id role key expected kind data action allow_purged).
Proof.
  intros Ha. unfold _command, authorized. apply safely_lift_then; [apply _|]. intros actor. apply safely_steady. leave.
  apply steady_once; [|intros r; leave]. unfold execute_command. leave.
Qed.
Lemma cancel_steady principal job_id expected key w : safely (steady h) w (cancel principal job_id expected key).
Proof. apply command_steady. intros j actor. unfold cancel_action. steadily. Qed.
Lemma user_retry_steady principal job_id expected key w : safely (steady h) w (Commands.retry principal job_id expected key).
Proof. apply command_steady. intros j actor. unfold retry_action. steadily. Qed.
Lemma reconcile_steady principal job_id expected key evidence w : safely (steady h) w (reconcile principal job_id expected key evidence).
Proof. apply safely_lift_then; [apply _|]. intros e. apply command_steady. intros j actor. unfold reconcile_action. steadily. Qed.
Lemma purge_steady principal job_id expected key w : safely (steady h) w (Commands.purge principal job_id expected key).
Proof. apply command_steady. intros j actor. unfold purge_action. steadily. Qed.
Lemma put_member_steady principal job_id member_id role expected key w : safely (steady h) w (put_member principal job_id member_id role expected key).
Proof.
  apply safely_lift_then; [apply _|]. intros m. apply safely_lift_then; [apply _|]. intros known.
  destruct role; try (unfold safely; cbn; reflexivity). destruct known; [|unfold safely; cbn; reflexivity].
  apply command_steady. intros j actor. unfold put_member_action. leave.
Qed.
Lemma delete_member_steady principal job_id member_id expected key w : safely (steady h) w (delete_member principal job_id member_id expected key).
Proof. apply safely_lift_then; [apply _|]. intros m. apply command_steady. intros j actor. unfold delete_member_action. leave. Qed.
Lemma create_steady storage_planner principal spec key w : safely (steady h) w (create_job storage_planner principal spec key).
Proof.
  do 3 (apply safely_lift_then; [apply _|]; intros ?). apply safely_steady. leave. apply steady_once; [|intros r; unfold create_replay; leave].
  unfold create_action. repeat lazymatch goal with
    | |- leaves _ (job_add JOBS _ _ _) => apply leaves_add_new; [apply _|intros d; apply steady_new_job]
    | _ => leave_step; cbv beta zeta
    end; try eauto with leaves. by apply steady_new_attempt.
Qed.

Lemma steady_locked id job : leaves (steady h) (locked_resource id job).
Proof. unfold locked_resource. leave. Qed.
#[local] Hint Resolve steady_locked : leaves.
Lemma steady_expiry_of now job : leaves (steady h) (request_expiry_of now job).
Proof. unfold request_expiry_of. steadily. Qed.
#[local] Hint Resolve steady_expiry_of : leaves.
Lemma steady_deleted now job_id : leaves (steady h) (confirm_job_data_deleted now job_id).
Proof. unfold confirm_job_data_deleted. apply leaves_transaction. steadily. Qed.
Lemma steady_expiry now limit : leaves (steady h) (request_expiry now limit).
Proof. unfold request_expiry. leave_step; [leave|]. apply leaves_transaction. steadily. Qed.
#[local] Hint Resolve steady_deleted steady_expiry : leaves.
Lemma retention_steady now call w : safely (steady h) w (serve_retention now call).
Proof.
  enough (G : forall A (m : M JobWorld A), leaves (steady h) m -> undone m -> safely (steady h) w m).
  { apply G; [|apply serve_undone]. destruct call; cbn [serve_retention]; (apply leaves_bind; [apply _| |by intros ?; leave]).
    - unfold charge_resource. apply leaves_transaction. steadily.
    - unfold reserve_resource. apply leaves_transaction. steadily.
    - unfold settle_resource. leave_step; [leave|]. apply leaves_transaction. steadily.
    - unfold confirm_resource_deleted. apply leaves_transaction. steadily.
    - leave.
    - leave.
    - apply leaves_transaction. leave.
    - apply leaves_transaction. leave. }
  intros A m Hl Hu. unfold safely. destruct (m w) as [[a|e] w1] eqn:E; cbn; [by eapply Hl|rewrite (Hu _ _ _ E); reflexivity].
Qed.
End Others.

(** ** A pass of the scheduler *)
Section Passes.
Context {P : Platform} {U : Unicode} (h : list Evidence).

Lemma steady_leaves {A} N (m : M JobWorld A) : leaves (steady h) m -> leaves (changed h N) m.
Proof. intros Hm w a w' H. apply steady_changed. by eapply Hm. Qed.
Lemma steady_lands {A} N `{!Backward N} w (m : M JobWorld A) : leaves (steady h) m -> lands (changed h N) w m.
Proof. intros Hm. by apply lands_leaves, steady_leaves. Qed.

Lemma reserved_row d k a : unclaimed a -> allocations d !! k = None -> changed h (only (al_job_id a) (al_epoch a)) d (t_upd ALLOCATIONS (insert k a) d).
Proof.
  intros Ha Hk. split; cbn; [| |eauto|apply kept_refl; apply _].
  - intros i b Hb. exists b. rewrite lookup_insert_ne by congruence. done.
  - intros i b Hb Hn. apply lookup_insert_Some in Hb as [[<- <-]|[_ Hb]]; [|congruence]. split; [done|]. by exists a.
Qed.
Lemma allocate_only job att now acc c : leaves (changed h (only (jb_id job) (jb_epoch job))) (allocate job att now acc c).
Proof.
  unfold allocate. destruct acc as [[pass asg] created]. cbv zeta. destruct (take_gpus asg (cs_resources c)) as [gpus asg'].
  apply leaves_bind; [apply _|apply steady_leaves; leave|intros pool]. apply leaves_bind; [apply _|apply steady_leaves; leave|intros p].
  apply leaves_bind; [apply _|apply steady_leaves; leave|intros id]. apply leaves_bind; [apply _| |intros _; apply steady_leaves; steadily].
  apply leaves_add_new; [apply _|]. intros d Hd. by apply (reserved_row d id (new_allocation job att p now c id)).
Qed.

Lemma steady_plan_entry job spec now acc plan : leaves (steady h) (plan_entry job spec now acc plan).
Proof. unfold plan_entry. leave. Qed.
Lemma steady_reserve_storage job a acc e : leaves (steady h) (reserve_storage job a acc e).
Proof. unfold reserve_storage. steadily. Qed.
Lemma steady_bind_link a id : leaves (steady h) (bind_link a id).
Proof. unfold bind_link. steadily. Qed.
Lemma steady_link job links pass a : leaves (steady h) (link_allocation job links pass a).
Proof. unfold link_allocation. steadily. Qed.
Lemma steady_count request now b : leaves (steady h) (count_backfill request now b).
Proof. unfold count_backfill. steadily. Qed.
Lemma steady_take job : leaves (steady h) (take_attempt job).
Proof. unfold take_attempt. steadily. Qed.
#[local] Hint Resolve steady_plan_entry steady_reserve_storage steady_bind_link steady_link steady_count steady_take : leaves.
Lemma steady_plan job spec now acc plans : leaves (steady h) (plan_storage job spec now acc plans).
Proof. revert acc. induction plans as [|p plans IH]; intros acc; cbn [plan_storage]; leave. Qed.
#[local] Hint Resolve steady_plan : leaves.

Lemma take_attempt_jobs job w a w' : take_attempt job w = (Ok a, w') -> jobs (jw_db w') = jobs (jw_db w).
Proof.
  intros H. assert (Hl : leaves (same jobs) (take_attempt job)) by (unfold take_attempt; leave). exact (Hl _ _ _ H).
Qed.
Lemma admit_only job0 spec now plan asg pass w : jobs (jw_db w) !! jb_id job0 = Some job0 ->
  lands (changed h (only (jb_id job0) (jb_epoch job0 + 1))) w (admit_gang job0 spec now plan asg pass).
Proof.
  intros Hj. unfold admit_gang. apply lands_bind; [apply _|apply steady_lands; [apply _|leave]|]. intros att w1 H1. apply take_attempt_jobs in H1.
  apply lands_set; [apply _|apply steady_changed; steadily|]. apply lands_the_job. intros job Hjob. cbn in Hjob. rewrite H1, lookup_alter_eq, Hj in Hjob.
  injection Hjob as <-. apply lands_bind; [apply _| |intros [[p1 a1] created] w2 _; apply steady_lands; [apply _|steadily]].
  apply lands_leaves. apply leaves_foldM; [apply _|]. intros acc c. apply (allocate_only (admitted_job now (js_max_duration_seconds spec) job0)).
Qed.

Definition for_job (j : Job) := changed h (only (jb_id j) (jb_epoch j + 1)).
Lemma protected_steady request b : leaves (steady h) (any_protected request b).
Proof. induction b as [|x b IH]; cbn [any_protected]; [leave|]. unfold protected. leave. Qed.
Lemma place_only j spec now plan pass w : jobs (jw_db w) !! jb_id j = Some j -> lands (for_job j) w (place_job j spec now plan pass).
Proof.
  intros Hj. unfold place_job. apply lands_gets. apply lands_get. apply lands_row_or. intros project _. cbv zeta.
  destruct (quota_refused _ _ _ _); [apply steady_lands; [apply _|leave]|]. destruct (negb _); [apply steady_lands; [apply _|leave]|].
  apply lands_bind; [apply _|apply steady_lands; [apply _|apply protected_steady]|]. intros hit w1 H1. apply protected_pure in H1 as [-> _].
  destruct hit; [apply steady_lands; [apply _|leave]|]. destruct (assign_gpus _ _ _); [|by intros ? ?]. by apply admit_only.
Qed.
Lemma schedule_job_only storage now limit active pass id w j : jobs (jw_db w) !! id = Some j -> jb_id j = id ->
  lands (for_job j) w (schedule_job storage now limit active pass id).
Proof.
  intros Hj Ei. unfold schedule_job. destruct (limit <=? _); [apply lands_ret; apply _|]. apply lands_the_job. intros j' Hj'. cbn in Hj'. rewrite Hj in Hj'. injection Hj' as <-.
  destruct (bool_decide _); [apply steady_lands; [apply _|leave]|].
  destruct (match jb_deadline_at j with Some _ => _ | None => _ end); [apply steady_lands; [apply _|steadily]|].
  destruct (match jb_next_attempt_at j with Some _ => _ | None => _ end); [apply steady_lands; [apply _|leave]|]. unfold schedule_ready.
  apply lands_lift. intros spec _. apply lands_gets. destruct (eligibility _ _); [apply steady_lands; [apply _|leave]|]. apply lands_guard. intros _.
  apply lands_bind; [apply _|apply steady_lands; [apply _|leave]|]. intros [plan|] w1 Hp; [|apply lands_ret; apply _].
  apply plan_storage_pure in Hp as ->. apply place_only. by rewrite Ei.
Qed.
Lemma for_job_honest j d d' : jobs d !! jb_id j = Some j -> for_job j d d' -> honest h d d'.
Proof.
  intros Hj H. apply (changed_weaken [] h (only (jb_id j) (jb_epoch j + 1))); [|done]. intros i [Ei Ee] j' Hj'. rewrite Ei, Hj in Hj'. injection Hj' as <-. lia.
Qed.
Lemma queue_honest storage now limit active todo pass w pass' w' : foldM (schedule_job storage now limit active) pass todo w = (Ok pass', w') ->
  (forall id, id ∈ todo -> exists j, jobs (jw_db w) !! id = Some j /\ jb_id j = id) -> honest h (jw_db w) (jw_db w').
Proof.
  revert pass w. induction todo as [|id todo IH]; intros pass w H Ht; cbn [foldM] in H; [by injection H as _ <-|].
  apply bind_ok in H as (p1 & w1 & H1 & H). destruct (Ht id ltac:(by left)) as (j & Hj & Ei).
  assert (R1 : honest h (jw_db w) (jw_db w1)) by (apply (for_job_honest j); [by rewrite Ei|by eapply schedule_job_only]).
  etransitivity; [exact R1|]. apply (IH p1 w1 H). intros k Hk. destruct (Ht k ltac:(by right)) as (x & Hx & Ex).
  destruct (ch_jobs _ _ _ _ R1 k x Hx) as (y & Hy & E & _). exists y. split; [done|congruence].
Qed.
Lemma schedule_honest storage now limit w : named (jw_db w) -> safely (honest h) w (schedule storage now limit).
Proof.
  intros Hn. apply safely_transaction; [apply _|]. unfold schedule_body. apply lands_gets. apply lands_lift. intros pass0 _. cbv zeta.
  intros adm w' H0. apply bind_ok in H0 as (pass & w1 & H1 & [= _ <-]). eapply queue_honest; [exact H1|]. intros id Hid.
  apply list_elem_of_fmap in Hid as (x & -> & Hx). rewrite merge_sort_Permutation in Hx. apply elem_of_rows in Hx as [_ (k & Hx)].
  pose proof (nm_jobs _ Hn _ _ Hx) as <-. by exists x.
Qed.
End Passes.

(** ** Every operation of the manager *)

(** What an operation that records evidence needs. *)
Definition entitled (h : list Evidence) (d : JobDB) (op : ManagerOp) : Prop :=
  match op with
  | StopConfirmation job_id attempt_id component_id epoch => forall a, allocations d !! al_id a = Some a ->
      held_identity a = mkIdentity job_id attempt_id component_id epoch -> allocation_live (al_state a) = true -> stop_known h (held_identity a)
  | RecordRevoked attempt_id => revoke_known h attempt_id
  | ConfirmNeverStarted _ _ attempt_id => NeverStarted attempt_id ∈ h
  | ReleaseReserved k => forall a, allocations d !! k = Some a -> release_known h (held_identity a)
  | _ => True
  end.
Section Operations.
Context {P : Platform} {U : Unicode} {C : Calendar} (h : list Evidence).
Context (admission_storage : Job -> list json) (storage_planner : option (Job -> option (list json))).

Lemma safely_ignored {A} w (m : M JobWorld A) : safely (honest h) w m -> safely (honest h) w (ignoring m).
Proof. unfold safely, ignoring, bind. by destruct (m w) as [[a|e] w1]. Qed.
Lemma steady_honest {A} w (m : M JobWorld A) : safely (steady h) w m -> safely (honest h) w m.
Proof. apply steady_changed. Qed.
Lemma serve_honest op w : named (jw_db w) -> entitled h (jw_db w) op -> safely (honest h) w (serve_manager admission_storage storage_planner op).
Proof.
  intros Hn He. destruct op; cbn [serve_manager entitled] in *; try apply safely_ignored; try (by apply schedule_honest); apply steady_honest.
  - apply create_steady.
  - apply cancel_steady.
  - apply user_retry_steady.
  - apply reconcile_steady.
  - apply purge_steady.
  - apply put_member_steady.
  - apply delete_member_steady.
  - apply retention_steady.
  - apply claim_steady.
  - apply finish_steady.
  - apply restoration_steady.
  - apply set_phase_steady.
  - apply failure_steady.
  - apply completion_steady.
  - apply attention_steady.
  - apply quarantine_steady.
  - apply terminal_steady.
  - apply retry_steady.
  - apply round_steady.
  - by apply ack_steady.
  - by apply heartbeat_steady.
  - by apply stop_steady.
  - by apply progress_steady.
  - by apply logs_steady.
  - apply begin_steady.
  - apply fail_steady.
  - apply confirm_steady.
  - by apply never_started_steady.
  - apply desired_steady.
  - by apply revoked_steady.
  - apply evidence_steady.
  - apply stopped_steady.
  - by apply free_steady.
  - apply collection_steady.
  - apply retain_steady.
  - apply storage_steady.
  - apply cleanup_steady.
Qed.
End Operations.
