(* ===== verification/FlowGuarantees.v ===== *)
(** * What the flows of the controllers guarantee

    The steps of all controllers, members and nodes of a manager -- transactions
    that are honest, and what is learned with them -- and a program logic for
    the flows of one controller among them, in which every flow is shown to be
    made of such steps, whatever is answered, interleaved or cut short. *)

From stdpp Require Import base gmap strings list fin_maps relations sorting.
From Stdlib Require Import ZArith Lia.
From S2P Require Import Prelude Json Domain NodeAgent Placement JobSpec JobModels Retention Recovery BlobBudget Scheduler Gang SchedulerLogic SchedulerTheory RetentionTheory Controller Fence Views Commands Submission JobMachine JobRefinement PassTheory JobAdmission ManagerSystem Flows JobScenario ManagerScenario FlowTheory.

(** ** The steps of a company *)
Definition State : Type := JobDB * list Evidence.
Definition view (w : Control) : State := (jw_db (ct_job w), ct_log w).
Definition good (s : State) : Prop := named s.1 /\ lawful (machine s.1).

Section Company.
Context {P : Platform} {U : Unicode} {C : Calendar}.
Context (admission_storage : Job -> list json) (storage_planner : option (Job -> option (list json))).

Inductive control_step : State -> State -> Prop :=
  | one_step d d' l h : manager_step admission_storage storage_planner d d' -> honest (l ++ h) d d' -> control_step (d, h) (d', l ++ h).
Definition control_runs : State -> State -> Prop := rtc control_step.
#[export] Instance control_runs_po : PreOrder control_runs.
Proof. apply rtc_po. Qed.

Lemma good_step s s' : good s -> control_step s s' -> good s'.
Proof.
  intros Hg Hs. revert Hg. destruct Hs as [d d' l h Hm _]. intros [Hn Hl]. cbn in *. destruct (step_refines _ _ _ _ Hm Hn) as [Hn' Hr]. split; [done|]. by eapply run_lawful.
Qed.
Lemma good_runs s s' : good s -> control_runs s s' -> good s'.
Proof. intros Hs H. revert Hs. induction H; [done|]. intros Hs. by eapply IHrtc, good_step. Qed.

(** ** Lasting facts *)
Class Stable (F : State -> Prop) := stable : forall s s', good s -> control_step s s' -> F s -> F s'.
Lemma stable_runs F `{!Stable F} s s' : good s -> control_runs s s' -> F s -> F s'.
Proof. intros Hs H. revert Hs. induction H; [done|]. intros Hs HF. eapply IHrtc; [by eapply good_step|by eapply stable]. Qed.
#[export] Instance stable_const (Q : Prop) : Stable (fun _ => Q).
Proof. by intros s s'. Qed.
#[export] Instance stable_and F G : Stable F -> Stable G -> Stable (fun s => F s /\ G s).
Proof. intros HF HG s s' Hg Hs [H1 H2]. split; [by eapply HF|by eapply HG]. Qed.
#[export] Instance stable_forall {A} (F : A -> State -> Prop) : (forall a, Stable (F a)) -> Stable (fun s => forall a, F a s).
Proof. intros HF s s' Hg Hs H a. by eapply HF. Qed.
#[export] Instance stable_if (Q : Prop) F : Stable F -> Stable (fun s => Q -> F s).
Proof. intros HF s s' Hg Hs H HQ. eapply HF; [done..|auto]. Qed.
Lemma stable_log (p : list Evidence -> Prop) : (forall l h, p h -> p (l ++ h)) -> Stable (fun s => p s.2).
Proof. intros Hp s s' _ [d d' l h _ _]. apply Hp. Qed.
#[export] Instance stable_stop i : Stable (fun s => stop_known s.2 i).
Proof. apply (stable_log (fun h => stop_known h i)). intros l h. apply stop_known_app. Qed.
#[export] Instance stable_release i : Stable (fun s => release_known s.2 i).
Proof. apply (stable_log (fun h => release_known h i)). intros l h. apply release_known_app. Qed.
#[export] Instance stable_answered a i : Stable (fun s => answered s.2 a i).
Proof. apply (stable_log (fun h => answered h a i)). intros l h. apply answer_app. Qed.
#[export] Instance stable_revoke x : Stable (fun s => revoke_known s.2 x).
Proof. apply (stable_log (fun h => revoke_known h x)). intros l h. apply revoke_known_app. Qed.

(** A reservation keeps its identity. *)
Definition held_at (k : string) (i : ExecutionIdentity) (s : State) : Prop := exists a, allocations s.1 !! k = Some a /\ held_identity a = i.
#[export] Instance stable_held k i : Stable (held_at k i).
Proof.
  intros s s' _ [d d' l h _ [Hr _ _ _]] (a & Ha & Ei). destruct (Hr k a Ha) as (a' & Ha' & R). exists a'. split; [done|]. by rewrite (rh_identity _ _ _ R).
Qed.
(** The components an attempt holds reservations for, under an epoch of its
    job: no more are made. *)
Record covers (j x : string) (e : Z) (cs : list string) (s : State) : Prop := {
  cv_job : exists r, jobs s.1 !! j = Some r /\ e <= jb_epoch r;
  cv_rows : forall k a, allocations s.1 !! k = Some a -> allocation_live (al_state a) = true ->
    al_job_id a = j -> al_attempt_id a = x -> al_epoch a = e -> al_component_id a ∈ cs;
}.
#[export] Instance stable_covers j x e cs : Stable (covers j x e cs).
Proof.
  intros s s' _ [d d' l h _ [Hr Hn _ Hj]] [(r & Hk & He) H]. cbn in *. split.
  - destruct (Hj _ _ Hk) as (r' & Hr' & _ & Hle). exists r'. cbn. split; [done|lia].
  - intros k a Ha Hl E1 E2 E3. cbn in Ha. destruct (allocations d !! k) as [b|] eqn:Hb.
    + destruct (Hr k b Hb) as (a' & Ha' & R). simplify_eq. pose proof (rh_identity _ _ _ R) as Ei. injection Ei as F1 F2 F3 F4.
      rewrite F3. eapply (H k b Hb); [by apply (rh_live _ _ _ R)|congruence..].
    + destruct (Hn k a Ha Hb) as [Hf _]. specialize (Hf r). cbn in Hf. rewrite E1, E3 in Hf. specialize (Hf Hk). lia.
Qed.

(** ** The logic *)
Context {X : ControlExecutor} {V : ControlProvisioner} {Y : ControlParticipants} {Z0 : Surroundings}.

(** What everything else does are steps too. *)
Class Company := company : forall n j h j' h', meanwhile n (j, h) = (j', h') -> good (jw_db j, h) -> control_runs (jw_db j, h) (jw_db j', h').
Context {G : Company}.

Definition ens {A} (F : State -> Prop) (m : M Control A) (R : A -> State -> Prop) : Prop :=
  forall w r w', m w = (r, w') -> good (view w) -> F (view w) -> control_runs (view w) (view w') /\ forall a, r = Ok a -> R a (view w').
Definition safe {A} (F : State -> Prop) (m : M Control A) : Prop := ens F m (fun _ _ => True).
Definition anything (s : State) : Prop := True.

Lemma ens_weaken {A} (F F' : State -> Prop) (m : M Control A) (R R' : A -> State -> Prop) : ens F m R -> (forall s, good s -> F' s -> F s) -> (forall a s, good s -> R a s -> R' a s) -> ens F' m R'.
Proof.
  intros Hm HF HR w r w' E Hg HF'. destruct (Hm w r w' E Hg) as [Hs Hr]; [by apply HF|]. split; [done|].
  intros a Ha. apply HR; [exact (good_runs _ _ Hg Hs)|by apply Hr].
Qed.
Lemma flow_pure {A} F (m : M Control A) (R : A -> State -> Prop) : (forall w, view (m w).2 = view w) -> (forall w a w', m w = (Ok a, w') -> F (view w) -> R a (view w)) -> ens F m R.
Proof. intros Hm HR w r w' E _ HF. specialize (Hm w). rewrite E in Hm. cbn in Hm. rewrite Hm. split; [done|]. intros a ->. by eapply HR. Qed.
Lemma flow_bind {A B} F `{!Stable F} (m : M Control A) (f : A -> M Control B) R1 R2 :
  ens F m R1 -> (forall a, ens (fun s => F s /\ R1 a s) (f a) R2) -> ens F (bind m f) R2.
Proof.
  intros Hm Hf w r w' E Hg HF. unfold bind in E. destruct (m w) as [[a|e] w1] eqn:Em.
  - destruct (Hm _ _ _ Em Hg HF) as [S1 Hr]. pose proof (good_runs _ _ Hg S1) as Hg1.
    destruct (Hf a _ _ _ E Hg1) as [S2 Hr2]; [split; [exact (stable_runs F _ _ Hg S1 HF)|by apply Hr]|]. split; [by etransitivity|done].
  - injection E as <- <-. destruct (Hm _ _ _ Em Hg HF) as [S1 _]. split; [done|]. by intros a.
Qed.
Lemma safe_bind {A B} F `{!Stable F} (m : M Control A) (f : A -> M Control B) R : safe F m -> (forall a, ens F (f a) R) -> ens F (bind m f) R.
Proof. intros Hm Hf. eapply flow_bind; [done|exact Hm|]. intros a. eapply ens_weaken; [apply Hf|by intros s _ []|done]. Qed.
Lemma ens_given {A} F (Q : Prop) (m : M Control A) R : (Q -> ens F m R) -> ens (fun s => F s /\ Q) m R.
Proof. intros Hm w r w' E Hg [HF HQ]. by apply (Hm HQ w r w'). Qed.
Lemma flow_frame {A} F `{!Stable F} (m : M Control A) R : ens F m R -> ens F m (fun a s => F s /\ R a s).
Proof.
  intros Hm w r w' E Hg HF. destruct (Hm w r w' E Hg HF) as [Hs Hr]. split; [done|]. intros a Ha. split; [exact (stable_runs F _ _ Hg Hs HF)|by apply Hr].
Qed.
Lemma safe_left {A} F F' (m : M Control A) : safe F m -> safe (fun s => F s /\ F' s) m.
Proof. intros Hm. eapply ens_weaken; [exact Hm|by intros s _ []|done]. Qed.
Lemma flow_ret {A} F (a : A) (R : A -> State -> Prop) : (forall s, F s -> R a s) -> ens F (ret a) R.
Proof. intros HR. apply flow_pure; [done|]. intros w b w' [= <- _]. apply HR. Qed.
Lemma safe_ret {A} F (a : A) : safe F (ret a).
Proof. by apply flow_ret. Qed.
Lemma flow_throw {A} F e (R : A -> State -> Prop) : ens F (throw e) R.
Proof. by apply flow_pure. Qed.
Lemma ens_lift {A} F (r : result A) (R : A -> State -> Prop) : (forall a s, r = Ok a -> F s -> R a s) -> ens F (lift r) R.
Proof. intros HR. apply flow_pure; [done|]. intros w b w' [= -> _]. by apply HR. Qed.
Lemma safe_throw_if F c e : safe F (throw_if c e).
Proof. apply flow_pure; [by destruct c|done]. Qed.
Lemma ens_row_or {A} F (o : option A) e (R : A -> State -> Prop) : (forall a s, o = Some a -> F s -> R a s) -> ens F (row_or o e) R.
Proof. intros HR. apply flow_pure; [by destruct o|]. intros w b w'. destruct o; [|done]. intros [= <- _]. by apply HR. Qed.
Lemma safe_gets {A} F (f : Control -> A) : safe F (gets f).
Proof. by apply flow_pure. Qed.
Lemma safe_when F `{!Stable F} c m : safe F m -> safe F (when c m).
Proof. destruct c; [done|]. intros _. apply safe_ret. Qed.
Definition on_ok {A} (R : A -> State -> Prop) (r : result A) (s : State) : Prop := match r with Ok a => R a s | Err _ => True end.
#[export] Instance stable_on_ok {A} (R : A -> State -> Prop) r : (forall a, Stable (R a)) -> Stable (on_ok R r).
Proof. intros HR. destruct r; [apply HR|by intros s s']. Qed.
Lemma ens_outcome {A} F (m : M Control A) R : ens F m R -> ens F (outcome m) (on_ok R).
Proof.
  intros Hm w r w' E Hg HF. unfold outcome in E. destruct (m w) as [[a|e] w1] eqn:Em.
  - injection E as <- <-. destruct (Hm _ _ _ Em Hg HF) as [Hs Hr]. split; [done|]. intros x [= <-]. by apply Hr.
  - destruct (Hm _ _ _ Em Hg HF) as [Hs _]. destruct (decide (e = Killed)) as [->|He].
    + injection E as <- <-. split; [done|]. by intros a.
    + assert (r = Ok (Err e) /\ w' = w1) as [-> ->] by (destruct e; by injection E as <- <-). split; [done|]. by intros x [= <-].
Qed.
Lemma safe_outcome {A} F (m : M Control A) : safe F m -> safe F (outcome m).
Proof. intros Hm. eapply ens_weaken; [by apply ens_outcome|done|done]. Qed.
Lemma safe_preempted F : safe F preempted.
Proof.
  intros w r w' E Hg HF. unfold preempted in E. destruct (dies _); [by injection E as <- <-|].
  destruct (meanwhile _ _) as [j h] eqn:Em. injection E as <- <-. split; [|done]. by eapply company.
Qed.

(** *** Transactions *)
Definition tx {A} (F : State -> Prop) (m : M JobWorld A) (R : A -> State -> Prop) : Prop :=
  forall w h, good (jw_db w, h) -> F (jw_db w, h) ->
  manager_step admission_storage storage_planner (jw_db w) (jw_db (m w).2) /\ honest h (jw_db w) (jw_db (m w).2) /\
  forall a, (m w).1 = Ok a -> R a (jw_db (m w).2, h).
Lemma ens_committed {A} F `{!Stable F} (m : M JobWorld A) R : tx F m R -> ens F (committed m) R.
Proof.
  intros Hm. unfold committed. eapply flow_bind; [done|apply safe_preempted|]. intros [] w r w' E Hg [HF _].
  destruct (m (ct_job w)) as [r' j] eqn:Em. injection E as <- <-. destruct (Hm (ct_job w) (ct_log w) Hg HF) as (H1 & H2 & H3). rewrite Em in *.
  split; [|by intros a ->; apply H3]. apply rtc_once. by apply (one_step _ _ [] (ct_log w)).
Qed.
Lemma tx_read {A} F (m : M JobWorld A) (R : A -> State -> Prop) : (forall w, (m w).2 = w) -> (forall w h a, good (jw_db w, h) -> F (jw_db w, h) -> (m w).1 = Ok a -> R a (jw_db w, h)) -> tx F m R.
Proof.
  intros Hm HR w h Hg HF. rewrite Hm. split_and!; [by apply by_others|done|]. intros a Ha. by apply HR.
Qed.
Lemma tx_op {A} F (m : M JobWorld A) op : (forall w, (m w).2 = (serve_manager admission_storage storage_planner op w).2) -> permitted op ->
  (forall d h, good (d, h) -> F (d, h) -> entitled h d op) -> tx F m (fun _ _ => True).
Proof.
  intros Hm Hp He w h Hg HF. rewrite Hm. split_and!; [by eapply by_operation| |done]. apply serve_honest; [apply Hg|by apply He].
Qed.
Lemma tx_other {A} F (m : M JobWorld A) : (forall w, safely (same core) w m) -> (forall w h, safely (steady h) w m) -> tx F m (fun _ _ => True).
Proof. intros H1 H2 w h _ _. split_and!; [by apply by_others, H1|by apply steady_changed, H2|done]. Qed.
Lemma ignored {A} (m : M JobWorld A) w : (m w).2 = (ignoring m w).2.
Proof. unfold ignoring, bind. by destruct (m w) as [[a|e] w1]. Qed.
Lemma safe_committed {A} F `{!Stable F} (m : M JobWorld A) : tx F m (fun _ _ => True) -> safe F (committed m).
Proof. apply ens_committed, _. Qed.
Lemma safe_read {A} F `{!Stable F} (m : M JobWorld A) : (forall w, (m w).2 = w) -> safe F (committed m).
Proof. intros Hm. by apply safe_committed, tx_read. Qed.
(** An operation of the manager that records no evidence. *)
Lemma safe_op {A} F `{!Stable F} (m : M JobWorld A) op : (forall w, (m w).2 = (serve_manager admission_storage storage_planner op w).2) -> permitted op ->
  (forall h d, entitled h d op) -> safe F (committed m).
Proof. intros Hm Hp He. apply (safe_committed F). apply (tx_op F m op); [done..|]. intros d h _ _. apply He. Qed.

(** *** Calls *)
Lemma safe_asked {A} F `{!Stable F} (answer : N -> result A) : safe F (asked answer).
Proof. unfold asked. apply safe_bind; [done|apply safe_preempted|]. intros _. by apply flow_pure. Qed.
Lemma ens_asked {A} F `{!Stable F} (answer : N -> result A) (R : A -> Prop) : (forall n a, answer n = Ok a -> R a) -> ens F (asked answer) (fun a _ => R a).
Proof.
  intros HR. unfold asked. apply (safe_bind F); [apply safe_preempted|]. intros _. apply flow_pure; [done|]. intros w a w' [= Ha _] _. by eapply HR.
Qed.
Lemma learn_step d h e : control_step (d, h) (d, e :: h).
Proof. apply (one_step d d [e] h); [by apply by_others|done]. Qed.
Lemma ens_learned F e R : (forall s, F s -> R tt (s.1, e :: s.2)) -> ens F (learned e) R.
Proof.
  intros HR w r w' E Hg HF. injection E as <- <-. split; [apply rtc_once, learn_step|]. intros [] _. by apply (HR (view w)).
Qed.
Lemma ens_committed_as F `{!Stable F} (m : M JobWorld bool) e R : (forall w h, good (jw_db w, h) -> F (jw_db w, h) ->
    manager_step admission_storage storage_planner (jw_db w) (jw_db (m w).2) /\ honest (match (m w).1 with Ok true => e :: h | _ => h end) (jw_db w) (jw_db (m w).2)) ->
  (forall d h, R true (d, e :: h)) -> (forall s, R false s) -> ens F (committed_as m e) R.
Proof.
  intros Hm HT HF'. unfold committed_as. eapply flow_bind; [done|apply safe_preempted|]. intros [] w r w' E Hg [HF _].
  destruct (m (ct_job w)) as [r' j] eqn:Em. injection E as <- <-. destruct (Hm (ct_job w) (ct_log w) Hg HF) as [H1 H2]. rewrite Em in *. cbn in *. split.
  - apply rtc_once. unfold view. cbn. destruct r' as [[]|]; [apply (one_step _ _ [e] (ct_log w))|apply (one_step _ _ [] (ct_log w))..]; done.
  - intros [] ->; [apply HT|apply HF'].
Qed.

Lemma snapshot_pure job_id attempt_id : reads (_snapshot job_id attempt_id).
Proof. unfold _snapshot, current_attempt. reading. Qed.
Lemma safe_require F `{!Stable F} : safe F _require.
Proof. unfold _require. apply safe_bind; [done|apply safe_gets|]. intros claim. apply (safe_read F). apply require_pure. Qed.
Lemma safe_current F `{!Stable F} job_id attempt_id epoch states : safe F (_current job_id attempt_id epoch states).
Proof. unfold _current. apply safe_bind; [done|apply (safe_read F), snapshot_pure|]. intros x. apply safe_ret. Qed.

(** *** The transactions of the flows *)
Lemma safe_seq {A B} F `{!Stable F} (m : M Control A) (f : A -> M Control B) : safe F m -> (forall a, safe F (f a)) -> safe F (bind m f).
Proof. apply safe_bind, _. Qed.

Section Transactions.
Context (F : State -> Prop) {HF : Stable F}.
Ltac by_op op := apply (safe_op F _ op); [first [done|intros w; apply ignored]|done|done].

Lemma safe_begin job attempt c action desired : safe F (committed (begin_operation job attempt c action desired)).
Proof. by_op (BeginOperation job attempt c action desired). Qed.
Lemma safe_confirm job attempt id observed : safe F (committed (confirm_operation job attempt id observed)).
Proof. by_op (ConfirmOperation job attempt id observed). Qed.
Lemma safe_fail id refused error : safe F (committed (fail_operation id refused error)).
Proof. by_op (FailOperation id refused error). Qed.
Lemma safe_attention id reason : safe F (committed (_attention id reason)).
Proof. by_op (Attention id reason). Qed.
Lemma safe_collection job attempt a : safe F (committed (_reserve_collection job attempt a)).
Proof. by_op (ReserveCollection job attempt a). Qed.
Lemma safe_retain job attempt a : safe F (committed (_retain_execution_state job attempt a)).
Proof. by_op (RetainExecutionState job attempt a). Qed.
Lemma safe_phase id x e s phase : safe F (committed (_set_phase id x e s phase)).
Proof. by_op (SetPhase id x e s phase). Qed.
Lemma safe_ack id x c e : safe F (committed (ack_assignment id x c e)).
Proof. by_op (AckAssignment id x c e). Qed.
Lemma safe_heartbeat id x c e : safe F (committed (heartbeat id x c e)).
Proof. by_op (Heartbeat id x c e). Qed.
Lemma safe_progress id x c e p : safe F (committed (progress id x c e p)).
Proof. by_op (ReportProgress id x c e p). Qed.
Lemma safe_completion id round : safe F (committed (_request_completion id round)).
Proof. by_op (RequestCompletion id round). Qed.
Lemma safe_failure id code transient : safe F (committed (_request_failure id code transient)).
Proof. by_op (RequestFailure id code transient). Qed.
Lemma safe_round id round : safe F (committed (_authoritative_round id round)).
Proof. by_op (AuthoritativeRound id round). Qed.
Lemma safe_terminal id o reason : safe F (committed (_terminal id o reason)).
Proof. by_op (Terminate id o reason). Qed.
Lemma safe_retry id manual : safe F (committed (_retry id manual)).
Proof. by_op (NextAttempt id manual). Qed.
Lemma safe_quarantine id : safe F (committed (_quarantine id)).
Proof. by_op (Quarantine id). Qed.
Lemma safe_desired x o reason : safe F (committed (record_desired x o reason)).
Proof. by_op (RecordDesired x o reason). Qed.
Lemma safe_evidence x details : safe F (committed (record_evidence x details)).
Proof. by_op (RecordEvidence x details). Qed.
Lemma safe_storage_deleted id : safe F (committed (record_storage_deleted id)).
Proof. by_op (RecordStorageDeleted id). Qed.
Lemma safe_record_cleanup t id confirmed : safe F (committed (record_cleanup t id confirmed)).
Proof. by_op (RecordCleanup t id confirmed). Qed.
Lemma safe_claim id topics : safe F (committed (_claim id topics)).
Proof. by_op (ClaimItem id topics). Qed.
Lemma safe_finish_claim c d e : safe F (committed (_finish_claim c d e)).
Proof. by_op (FinishClaim c d e). Qed.
Lemma safe_restoration : safe F (committed _queue_proxy_restoration).
Proof. by_op QueueRestoration. Qed.
Lemma safe_schedule now limit : safe F (committed (schedule admission_storage now limit)).
Proof. by_op (Schedule now limit). Qed.
Lemma safe_deleted now id : safe F (committed (confirm_job_data_deleted now id)).
Proof. by_op (Retain now (PURGE id)). Qed.
Lemma safe_expiry now limit : safe F (committed (request_expiry now limit)).
Proof. by_op (Retain now (EXPIRE limit)). Qed.
Lemma safe_stopped id x known status round publication evidence : observe known status round = Ok publication -> pu_known publication = true ->
  safe F (committed (record_stopped id x publication evidence)).
Proof. intros Ho Hk. apply (safe_op F _ (RecordStopped id x publication evidence)); [done| |done]. by eapply observed_known. Qed.

(** What the lifecycle does not speak of. *)
Ltac same_core := cbv zeta; repeat (leave_step; cbv beta zeta); try done; unfold same, core; cbn;
  by rewrite ?fmap_alter_same by (by intros []; cbn; repeat case_match).
Lemma core_store job attempt a collected w : safely (same core) w (_store_collected job attempt a collected).
Proof.
  unfold _store_collected. destruct collected as [items|]; [|done]. unfold throw_if.
  destruct (1000 <? _); [done|]. unfold safely, bind at 1. cbn. apply safely_transaction, lands_leaves; [apply _|].
  unfold linked_resource, store_item, store_output, locator_root, root_resource, output_resource, unsafe_output, transfer_reserved_in_transaction, transfer_child, reserve_pool_bytes, charge_in_transaction, release_project_bytes, reserve_project_bytes. same_core.
Qed.
Lemma safe_store job attempt a collected : safe F (committed (_store_collected job attempt a collected)).
Proof. apply (safe_committed F), tx_other; [intros w; apply core_store|intros w h; apply store_steady]. Qed.
Lemma safe_pulse claim : safe F (committed (pulse_transaction claim)).
Proof.
  apply (safe_committed F), tx_other; [|intros w h; apply pulse_steady]. intros w. apply safely_transaction, lands_leaves; [apply _|]. same_core.
Qed.
Lemma safe_detail x items : safe F (committed (job_transaction (
  let* stored := job_get JOB_ATTEMPTS x in let* _ := row_or stored AttributeError in detail x items))).
Proof.
  apply (safe_committed F), tx_other; intros w; [|intros h]; (apply safely_transaction, lands_leaves; [apply _|]); [unfold detail; same_core|leave].
Qed.
End Transactions.
#[local] Hint Resolve safe_begin safe_confirm safe_fail safe_attention safe_collection safe_retain safe_phase safe_ack safe_heartbeat safe_progress
  safe_completion safe_failure safe_round safe_terminal safe_retry safe_quarantine safe_desired safe_evidence safe_storage_deleted safe_record_cleanup
  safe_claim safe_finish_claim safe_restoration safe_schedule safe_deleted safe_expiry safe_store safe_pulse safe_detail safe_require safe_current
  safe_asked safe_preempted : flows.
#[local] Hint Extern 1 (Stable _) => apply _ : flows.
#[local] Hint Extern 2 (safe ?F (committed _)) => apply (safe_read F); solve [reading] : flows.

(** What knows nothing is shown statement by statement. *)
Ltac flow_step :=
  lazymatch goal with
  | |- safe ?F (bind _ _) => apply (safe_seq F); [|intros ?]
  | |- safe _ (ret _) => apply safe_ret
  | |- safe _ (throw _) => apply flow_throw
  | |- safe _ (lift _) => by apply ens_lift
  | |- safe _ (row_or _ _) => by apply ens_row_or
  | |- safe _ (throw_if _ _) => apply safe_throw_if
  | |- safe _ (gets _) => apply safe_gets
  | |- safe ?F (when _ _) => apply (safe_when F)
  | |- safe _ (outcome _) => apply safe_outcome
  | |- safe _ (match ?x with _ => _ end) => destruct x
  | |- ens ?F ?m _ => change (safe F m)
  end.
Ltac flow := repeat (first [solve [eauto 3 with flows]|flow_step]; cbv beta zeta).

Lemma ens_operation {A} F `{!Stable F} (R : A -> State -> Prop) `{!forall a, Stable (R a)} job attempt c action effect observe desired :
  ens F effect R -> ens F (_operation job attempt c action effect observe desired) R.
Proof.
  intros He. unfold _operation. apply (safe_bind F); [flow|]. intros _. apply (safe_bind F); [flow|]. intros id.
  apply (flow_bind F _ _ (on_ok R)).
  - apply ens_outcome. apply (safe_bind F); [flow|]. intros _.
    apply (flow_bind F _ _ R); [done|]. intros a. apply safe_bind; [apply _|flow|]. intros _. apply flow_ret. by intros s [].
  - intros [a|e]; cbv beta iota.
    + apply safe_bind; [apply _|flow|]. intros _. apply flow_ret. by intros s [].
    + destruct (stale_claim e); [apply flow_throw|]. apply safe_bind; [apply _|flow|]. intros _. apply flow_throw.
Qed.
Lemma safe_operation {A} F `{!Stable F} job attempt c action (effect : M Control A) observe desired :
  safe F effect -> safe F (_operation job attempt c action effect observe desired).
Proof. apply (ens_operation F (fun _ _ => True)). Qed.
#[local] Hint Resolve safe_operation : flows.
Lemma safe_time F : safe F the_time.
Proof. apply safe_gets. Qed.
#[local] Hint Resolve safe_time : flows.
Lemma safe_ingest F `{!Stable F} : safe F _ingest_logs.
Proof. unfold _ingest_logs. flow. by apply flow_pure. Qed.
#[local] Hint Resolve safe_ingest : flows.

(** *** What the flows learn *)
Lemma answered_of h a i : Answered a i true ∈ h -> answered h a i.
Proof. intros Hi. exists (job_id i). by destruct i. Qed.
Lemma release_known_of h i i' : attempt_id i = attempt_id i' -> component_id i = component_id i' -> epoch i = epoch i' -> release_known h i -> release_known h i'.
Proof. destruct i, i'. by intros [= ->] [= ->] [= ->]. Qed.
Lemma identity_ok j x c e i : execution_identity j x c e = Ok i -> i = mkIdentity j x c e.
Proof. unfold execution_identity. destruct (validate_identity _); [|done]. by intros [= <-]. Qed.
Definition known_identity (job : Job) (attempt : Attempt) (a : Allocation) : ExecutionIdentity :=
  mkIdentity (jb_id job) (ja_id attempt) (al_component_id a) (al_epoch a).
Lemma ens_identity F job attempt a : ens F (identity_for job attempt a) (fun i _ => i = known_identity job attempt a).
Proof. apply ens_lift. intros i s Hi _. by apply identity_ok. Qed.
Lemma ens_stopping F `{!Stable F} i : ens F (stopping i) (fun o s => ro_termination_confirmed o = true -> answered s.2 StopAnswer i).
Proof.
  unfold stopping. apply (safe_bind F); [flow|]. intros o. apply (flow_bind F _ _ (fun _ s => ro_termination_confirmed o = true -> answered s.2 StopAnswer i)).
  - apply ens_learned. intros s _ Ho. apply answered_of. rewrite Ho. left.
  - intros _. apply flow_ret. by intros s [].
Qed.
Lemma ens_collecting F `{!Stable F} i : ens F (collecting i) (fun _ s => answered s.2 CollectAnswer i).
Proof.
  unfold collecting. apply (safe_bind F); [flow|]. intros c. apply (flow_bind F _ _ (fun _ s => answered s.2 CollectAnswer i)).
  - apply ens_learned. intros s _. apply answered_of. left.
  - intros _. apply flow_ret. by intros s [].
Qed.
Lemma safe_collecting F `{!Stable F} i : safe F (collecting i).
Proof. eapply ens_weaken; [by apply (ens_collecting F)|done|done]. Qed.
#[local] Hint Resolve safe_collecting : flows.
Lemma ens_releasing F `{!Stable F} i : ens F (releasing i) (fun r s => r = true -> answered s.2 ReleaseAnswer i).
Proof.
  unfold releasing. apply (safe_bind F); [flow|]. intros r. apply (flow_bind F _ _ (fun _ s => r = true -> answered s.2 ReleaseAnswer i)).
  - apply ens_learned. intros s _ Hr. apply answered_of. rewrite Hr. left.
  - intros _. apply flow_ret. by intros s [].
Qed.
#[export] Instance stable_shown i : Stable (fun s => ledger_shows s.2 i).
Proof. apply (stable_log (fun h => ledger_shows h i)). intros l h. apply shows_app. Qed.
Lemma ens_never F `{!Stable F} job attempt c e :
  ens F (never_reserved job attempt c) (fun r s => r = true -> ledger_shows s.2 (mkIdentity (jb_id job) (ja_id attempt) c e)).
Proof.
  unfold never_reserved. apply (ens_committed_as F); [|intros d h _; exists (jb_id job); left|done]. intros w h _ _.
  assert (Hr : reads (_never_reserved job attempt c)) by (unfold _never_reserved; reading). rewrite (Hr w). split; [by apply by_others|done].
Qed.

(** What is released was collected and released, or never reserved. *)
Lemma ens_give_up F `{!Stable F} job attempt a i : ens F (give_up_execution job attempt a i) (fun r s => r = true -> release_known s.2 i).
Proof.
  unfold give_up_execution. apply (safe_bind F); [flow|]. intros _.
  apply (flow_bind F _ _ (fun _ s => answered s.2 CollectAnswer i)); [apply (ens_operation F _), ens_collecting, _|].
  intros collected. do 3 (apply safe_bind; [apply _|flow|]; intros _).
  eapply ens_weaken; [apply (flow_frame (fun s => F s /\ answered s.2 CollectAnswer i)), ens_operation, ens_releasing; apply _|done|].
  intros r s _ [[_ H1] H2] Hr. left. auto.
Qed.
Lemma ens_ready F `{!Stable F} job attempt a : ens F (ready_to_free job attempt a) (fun r s => r = true -> release_known s.2 (known_identity job attempt a)).
Proof.
  unfold ready_to_free. apply (flow_bind F _ _ (fun i _ => i = known_identity job attempt a)); [apply ens_identity|]. intros i.
  apply (flow_bind _ _ _ (fun r s => r = true -> ledger_shows s.2 (known_identity job attempt a))); [apply ens_never; apply _|]. intros [].
  - apply flow_ret. intros s [_ Hs] _. right. auto.
  - apply (flow_bind _ _ _ (on_ok (fun r s => r = true -> release_known s.2 i))).
    + apply ens_outcome, ens_give_up, _.
    + intros [r|e]; cbv beta iota; [apply flow_ret; intros s [[[_ ->] _] Hr]; auto|].
      assert (Hno : forall G, Stable G -> ens G (ret false) (fun r s => r = true -> release_known s.2 (known_identity job attempt a)))
        by (intros G0 _; by apply flow_ret).
      destruct e; try apply flow_throw; try (apply Hno, _). apply safe_bind; [apply _|flow|]. intros _. apply Hno, _.
Qed.
Lemma safe_release_reserved F `{!Stable F} k : (forall d h a, F (d, h) -> allocations d !! k = Some a -> release_known h (held_identity a)) ->
  safe F (committed (release_reserved k)).
Proof. intros Hr. apply (safe_committed F), (tx_op F _ (ReleaseReserved k)); [intros w; apply ignored|done|]. intros d h _ HF a Ha. by apply (Hr d). Qed.
Lemma safe_release F `{!Stable F} job attempt l :
  (forall s a, F s -> a ∈ l -> al_attempt_id a = ja_id attempt /\ held_at (al_id a) (held_identity a) s) -> safe F (_release job attempt l).
Proof.
  induction l as [|a l IH]; intros Hl; cbn [_release]; [apply safe_ret|].
  apply (flow_bind F _ _ (fun r s => r = true -> release_known s.2 (known_identity job attempt a))); [by apply ens_ready|].
  intros []; cbn [negb]; [|apply safe_ret]. apply safe_seq; [apply _| |].
  - apply safe_release_reserved; [apply _|]. intros d h b [HF Hr] Hb. destruct (Hl _ a HF ltac:(left)) as (Ex & b' & Hb' & Ei).
    cbn in Hb'. rewrite Hb in Hb'. injection Hb' as <-. rewrite Ei. eapply release_known_of; [..|by apply Hr]; done.
  - intros []; cbn [negb]; [|apply safe_ret]. apply safe_left, IH. intros s b HF Hb. apply Hl; [done|by right].
Qed.

(** What a snapshot shows of the reservations of an attempt. *)
Definition shot (r : option (Job * option Attempt * list Allocation)) (s : State) : Prop :=
  match r with
  | Some (job, Some x, l) =>
      ((forall a, a ∈ l -> al_attempt_id a = ja_id x) /\ (forall a, a ∈ l -> al_epoch a = jb_epoch job)) /\
      (forall a, a ∈ l -> held_at (al_id a) (held_identity a) s) /\ covers (jb_id job) (ja_id x) (jb_epoch job) (map al_component_id l) s
  | _ => True
  end.
#[export] Instance stable_shot r : Stable (shot r).
Proof. destruct r as [[[job [x|]] l]|]; [unfold shot; apply _|by intros s s'..]. Qed.
Lemma live_epoch d h a k j : good (d, h) -> allocations d !! k = Some a -> allocation_live (al_state a) = true -> jobs d !! al_job_id a = Some j ->
  al_epoch a = jb_epoch j.
Proof.
  intros [_ [_ [Hh _] _]] Ha Hl Hj. cbn in Hh. destruct (Hh k (hold_face a)) as (j' & Hj' & _ & He).
  - cbn. by rewrite lookup_fmap, Ha.
  - cbn in Hj'. rewrite lookup_fmap, Hj in Hj'. injection Hj' as <-. by apply He.
Qed.
Lemma shot_of d h job x : good (d, h) -> jobs d !! jb_id job = Some job ->
  shot (Some (job, Some x, merge_sort allocation_order (rows (fun a => String.eqb (al_job_id a) (jb_id job) && live_of_attempt (ja_id x) a) (allocations d)))) (d, h).
Proof.
  intros Hg Hj. set (l := rows _ _).
  assert (Hl : forall a, a ∈ l <-> (exists k, allocations d !! k = Some a) /\ al_job_id a = jb_id job /\ al_attempt_id a = ja_id x /\ allocation_live (al_state a) = true).
  { intros a. unfold l. rewrite elem_of_rows. unfold live_of_attempt. rewrite !andb_true_iff, !String.eqb_eq. tauto. }
  assert (Hs : forall a, a ∈ merge_sort allocation_order l <-> a ∈ l) by (intros a; by rewrite merge_sort_Permutation).
  split_and!; [intros a Ha; rewrite Hs in Ha; apply Hl in Ha as ((k & Hk) & Ej & Ex & Hv)..|].
  - done.
  - apply (live_epoch d h a k); [done..|by rewrite Ej].
  - exists a. rewrite (nm_allocations _ (proj1 Hg) _ _ Hk). done.
  - split; [by exists job|]. intros k a Ha Hv Ej Ex _. apply list_elem_of_fmap. exists a. split; [done|]. rewrite Hs. apply Hl. eauto.
Qed.
Lemma ens_snapshot F `{!Stable F} id x : ens F (committed (_snapshot id x)) shot.
Proof.
  apply (ens_committed F), tx_read; [apply snapshot_pure|]. intros w h r Hg _ Hr. destruct (_snapshot id x w) as [r' w'] eqn:E. cbn in Hr. subst r'.
  unfold _snapshot in E. apply bind_ok in E as (j & w1 & [= <- <-] & E). cbn [t_get JOBS] in E. destruct (jobs _ !! id) as [job|] eqn:Hj; [|by injection E as <- _].
  pose proof (nm_jobs _ (proj1 Hg) _ _ Hj) as <-. apply bind_ok in E as (x' & w1 & Hx & E).
  apply reads_ok in Hx as ->; [|unfold current_attempt; reading]. destruct x' as [x'|]; [|by apply bind_ok in E as (l & w2 & _ & [= <- _])].
  apply bind_ok in E as (l & w2 & [= <- <-] & [= <- _]). by apply shot_of.
Qed.
Lemma safe_snapshot F `{!Stable F} id x : safe F (committed (_snapshot id x)).
Proof. apply (safe_read F), snapshot_pure. Qed.
#[local] Hint Resolve safe_snapshot : flows.

(** What is recorded as stopped was stopped, or never reserved. *)
Lemma safe_stop F `{!Stable F} j x c e : (forall d h a, F (d, h) -> allocations d !! al_id a = Some a -> held_identity a = mkIdentity j x c e ->
    allocation_live (al_state a) = true -> stop_known h (mkIdentity j x c e)) -> safe F (committed (stop_confirmation j x c e)).
Proof.
  intros Hs. apply (safe_committed F), (tx_op F _ (StopConfirmation j x c e)); [intros w; apply ignored|done|]. intros d h _ HF a Ha Ei Hl.
  rewrite Ei. by eapply Hs.
Qed.
Lemma ens_stop_one F `{!Stable F} job attempt a : al_epoch a = jb_epoch job -> safe F (stop_one job attempt a).
Proof.
  intros He. unfold stop_one. apply (flow_bind F _ _ (fun i _ => i = known_identity job attempt a)); [apply ens_identity|]. intros i.
  apply (flow_bind _ _ _ (fun r s => r = true -> ledger_shows s.2 (known_identity job attempt a))); [apply ens_never; apply _|]. intros [].
  - apply safe_seq; [apply _| |intros ?; flow]. apply safe_stop; [apply _|]. intros d h b [_ Hs] _ _ _. right. right. rewrite <- He. by apply Hs.
  - apply (flow_bind _ _ _ (on_ok (fun o s => ro_termination_confirmed o = true -> answered s.2 StopAnswer i))).
    + apply ens_outcome, ens_operation; [apply _..|apply ens_stopping, _].
    + intros r. apply (flow_bind _ _ _ (fun r s => r = true -> answered s.2 StopAnswer i)).
      * destruct r as [o|[]]; try apply flow_throw; apply flow_ret; [by intros s []|done..].
      * intros []; [|apply safe_ret]. apply safe_seq; [apply _| |intros ?; flow]. apply safe_stop; [apply _|]. intros d h b [[[[_ ->] _] _] Hs] _ _ _.
        left. rewrite <- He. by apply Hs.
Qed.
Lemma safe_stop_all F `{!Stable F} job attempt l b : (forall a, a ∈ l -> al_epoch a = jb_epoch job) -> safe F (stop_all job attempt l b).
Proof.
  revert b. induction l as [|a l IH]; intros b Hl; cbn [stop_all]; [apply safe_ret|].
  apply (safe_seq F); [apply ens_stop_one; [done|]; apply Hl; left|]. intros c. apply IH. intros x Hx. apply Hl. by right.
Qed.

(** *** Dispatch *)
Lemma safe_renew_all F `{!Stable F} job attempt l : safe F (renew_all job attempt l).
Proof. induction l as [|a l IH]; cbn [renew_all]; unfold identity_for; flow. Qed.
#[local] Hint Resolve safe_renew_all : flows.
Lemma safe_renew F `{!Stable F} job attempt : safe F (_renew_reserved_components job attempt).
Proof. unfold _renew_reserved_components. flow. Qed.
#[local] Hint Resolve safe_renew : flows.

(** The components that are planned under the identity they are held with. *)
Definition bound (job : Job) (attempt : Attempt) (specs : gmap string ExecutionSpec) (cs : list string) : Prop :=
  forall c, c ∈ cs -> exists spec, specs !! c = Some spec /\ NodeAgent.identity spec = mkIdentity (jb_id job) (ja_id attempt) c (jb_epoch job).
Section Builds.
Context (F : State -> Prop) {HF : Stable F} (job : Job) (attempt : Attempt) (specs : gmap string ExecutionSpec) (cs : list string).
Context (Hc : forall s, F s -> covers (jb_id job) (ja_id attempt) (jb_epoch job) cs s) (Hb : bound job attempt specs cs).

Lemma safe_finish_build a spec observed : specs !! al_component_id a = Some spec -> safe F (finish_build job attempt a (NodeAgent.identity spec) observed).
Proof.
  intros Hs. unfold finish_build. do 2 (apply (safe_seq F); [flow|intros _]).
  apply (flow_bind F _ _ (fun o s => ro_termination_confirmed o = true -> answered s.2 StopAnswer (NodeAgent.identity spec)));
    [apply ens_operation; [apply _..|by apply ens_stopping]|]. intros o. destruct (ro_termination_confirmed o) eqn:Eo; cbn [negb throw_if];
    [|intros w r w' [= <- <-] _ _; by split].
  apply safe_seq; [apply _|flow|]. intros _. apply safe_seq; [apply _| |intros ?; flow].
  apply safe_stop; [apply _|]. intros d h b [Hf Ho] Hk [= E1 E2 E3 E4] Hl. left.
  destruct (Hb (al_component_id a)) as (spec' & Hs' & Ei); [rewrite <- E3; by apply (cv_rows _ _ _ _ _ (Hc _ Hf) _ _ Hk)|].
  rewrite Hs in Hs'. injection Hs' as <-. rewrite <- Ei. by apply Ho.
Qed.
Lemma safe_run_builds l outputs all : safe F (run_builds job attempt specs l outputs all).
Proof.
  revert outputs all. induction l as [|a l IH]; intros outputs all; cbn [run_builds]; [apply safe_ret|]. cbv zeta.
  apply (flow_bind F _ _ (fun spec _ => specs !! al_component_id a = Some spec)); [by apply ens_row_or|]. intros spec.
  apply ens_given. intros Hs. apply (safe_seq F); [flow|]. intros current. destruct current; cbn [negb]; [|apply safe_ret].
  do 2 (apply (safe_seq F); [flow|]; intros ?). apply (safe_seq F); [flow|]. intros o. apply (safe_seq F); [flow|intros _].
  destruct (ro_termination_confirmed o); [|apply IH]. apply (safe_seq F); [by apply safe_finish_build|]. intros output. apply IH.
Qed.
Lemma safe_prepare ids outputs : safe F (prepare_build_outputs job attempt ids outputs).
Proof. unfold prepare_build_outputs. flow. Qed.
Lemma ens_found (ids : list string) : ens F (committed (
    let* found := job_select ALLOCATIONS (fun a => String.eqb (al_attempt_id a) (ja_id attempt) && mem_str (al_component_id a) ids) in
    let* stored := job_get JOB_ATTEMPTS (ja_id attempt) in
    let* stored := row_or stored AttributeError in
    ret (found, stored)))
  (fun r s => (forall a, a ∈ r.1 -> al_attempt_id a = ja_id attempt) /\ forall a, a ∈ r.1 -> held_at (al_id a) (held_identity a) s).
Proof.
  apply (ens_committed F), tx_read; [reading|].
  intros w h [found stored] Hg _ Hr. cbn in Hr.
  assert (found = rows (fun a => String.eqb (al_attempt_id a) (ja_id attempt) && mem_str (al_component_id a) ids) (allocations (jw_db w))) as ->.
  { unfold bind in Hr. cbn in Hr. destruct (job_attempts _ !! _); cbn in Hr; [by injection Hr as <-|done]. }
  split; intros a Ha; cbn in Ha; apply elem_of_rows in Ha as (Ha & k & Hk).
  - apply andb_true_iff in Ha as [Ha _]. by apply String.eqb_eq in Ha.
  - exists a. by rewrite (nm_allocations _ (proj1 Hg) _ _ Hk).
Qed.
#[local] Hint Resolve safe_run_builds safe_prepare : flows.
Lemma safe_build_phase : safe F (_build_phase job attempt specs).
Proof.
  unfold _build_phase. cbv zeta. destruct (bool_decide _); [apply safe_ret|]. apply (safe_seq F); [flow|intros _].
  eapply (flow_bind F); [apply ens_found|]. intros [found stored]. cbn [fst].
  apply safe_seq; [apply _|apply safe_left; flow|intros _]. apply safe_seq; [apply _|apply safe_left; flow|intros ready].
  destruct ready; cbn [negb]; [|apply safe_ret]. apply safe_seq; [apply _| |intros ?; flow].
  set (live := List.filter _ _). assert (Hl : forall a, a ∈ live -> a ∈ found).
  { intros a. unfold live. rewrite list_elem_of_In, filter_In, <- list_elem_of_In, merge_sort_Permutation. tauto. }
  destruct live as [|a live]; [apply safe_ret|]. apply safe_release; [apply _|]. intros s b [_ [Hx Hh]] Hin. auto.
Qed.
#[local] Hint Resolve safe_build_phase : flows.
Lemma safe_start_all l all : safe F (start_all job attempt specs l all).
Proof. revert all. induction l as [|a l IH]; intros all; cbn [start_all]; unfold planned; cbv zeta; flow. Qed.
#[local] Hint Resolve safe_start_all : flows.
Lemma safe_gang remaining : safe F (dispatch_gang job attempt specs remaining).
Proof. unfold dispatch_gang. flow. Qed.
End Builds.
Lemma ens_reserve_all F `{!Stable F} job attempt specs l :
  ens F (reserve_all job attempt specs l) (fun r s => r = true -> bound job attempt specs (map al_component_id l)).
Proof.
  induction l as [|a l IH]; cbn [reserve_all]; [apply flow_ret; intros s _ _ c Hc; by apply elem_of_nil in Hc|]. cbv zeta.
  apply (flow_bind F _ _ (fun spec _ => specs !! al_component_id a = Some spec)); [by apply ens_row_or|]. intros spec. apply ens_given. intros Hs.
  apply (flow_bind F _ _ (fun i _ => i = mkIdentity (jb_id job) (ja_id attempt) (al_component_id a) (jb_epoch job)));
    [apply ens_lift; intros i s Hi _; by apply identity_ok|]. intros i. apply ens_given. intros ->.
  destruct (bool_decide (NodeAgent.identity spec = _)) eqn:Ei; cbn [negb orb throw_if];
    [|intros w r w' [= <- <-] _ _; by split]. apply bool_decide_eq_true in Ei.
  apply (safe_bind F); [apply safe_throw_if|]. intros _.
  assert (Hall : ens F (reserve_all job attempt specs l) (fun r s => r = true -> bound job attempt specs (map al_component_id (a :: l)))).
  { eapply ens_weaken; [exact IH|done|]. intros r s _ Hr E c Hc. cbn in Hc. apply elem_of_cons in Hc as [->|Hc]; [by exists spec|by apply Hr]. }
  destruct (al_acknowledged a); [exact Hall|]. apply (safe_bind F); [flow|]. intros r. apply (safe_bind F); [apply safe_throw_if|]. intros _.
  apply (safe_bind F); [flow|]. intros []; cbn [negb]; [exact Hall|by apply flow_ret].
Qed.
Lemma safe_dispatch_reserved F `{!Stable F} item : safe F (_dispatch_reserved item).
Proof.
  unfold _dispatch_reserved. apply (flow_bind F _ _ shot); [by apply ens_snapshot|]. intros [[[job [x|]] l]|]; try apply safe_ret.
  destruct (_ || _); [apply safe_ret|]. apply safe_seq; [apply _|flow|intros now].
  destruct (expired _ _); [flow|]. do 2 (apply safe_seq; [apply _|flow|]; intros ?).
  apply safe_seq; [apply _|flow|intros specs]. cbv zeta. do 2 (apply safe_seq; [apply _|flow|intros _]).
  eapply flow_bind; [apply _|apply ens_reserve_all, _|]. intros []; cbn [negb]; [|apply safe_ret].
  apply ens_given. intros Hb. apply (safe_gang _ job x specs (map al_component_id l)); [|by apply Hb]. by intros s [_ [_ [_ Hc]]].
Qed.
#[local] Hint Resolve safe_dispatch_reserved : flows.
Lemma safe_dispatch F `{!Stable F} item : safe F (_dispatch item).
Proof. unfold _dispatch. flow. by apply flow_pure. Qed.
Lemma safe_restore F `{!Stable F} item : safe F (_restore_proxies item).
Proof. unfold _restore_proxies. flow. Qed.
Lemma safe_renew_pulse F `{!Stable F} l : safe F (renew_pulse l).
Proof. induction l as [|i l IH]; cbn [renew_pulse]; flow. Qed.
#[local] Hint Resolve safe_dispatch safe_restore safe_renew_pulse : flows.
Lemma safe_keepalive F `{!Stable F} claim : safe F (_pulse claim).
Proof. unfold _pulse. flow. Qed.

(** *** The fence, cleanup, the monitor *)
Lemma safe_never_started F `{!Stable F} id x : safe F (confirm_never_started id x).
Proof.
  unfold confirm_never_started. apply (safe_seq F); [flow|intros _]. apply (ens_committed_as F); [|done..]. intros w h _ _.
  assert (Hu : undone (_confirm_never_started None id x)) by (apply undone_guard; [apply require_pure|apply undone_transaction]).
  pose proof (never_started_steady (NeverStarted x :: h) None id x w ltac:(left)) as Hs. unfold safely in Hs.
  assert (E : (_confirm_never_started None id x w).2 = (serve_manager admission_storage storage_planner (ConfirmNeverStarted None id x) w).2) by apply ignored.
  split; [by apply (by_operation _ _ _ _ (ConfirmNeverStarted None id x) w); [..|rewrite E]|].
  destruct (_confirm_never_started None id x w) as [[[]|e] w'] eqn:Em; cbn [fst snd] in *; [by apply steady_changed|..].
  - by rewrite (never_started_unproved _ _ _ _ Em).
  - by rewrite (Hu _ _ _ Em).
Qed.
Lemma safe_revoked F `{!Stable F} x : (forall s, F s -> revoke_known s.2 x) -> safe F (committed (record_revoked x)).
Proof. intros Hr. apply (safe_committed F), (tx_op F _ (RecordRevoked x)); [done..|]. intros d h _ HF. by apply Hr in HF. Qed.
#[local] Hint Resolve safe_never_started : flows.
Lemma safe_externals F `{!Stable F} job attempt all : safe F (externals_stopped job attempt all).
Proof. unfold externals_stopped. flow. Qed.
Lemma safe_conclude F `{!Stable F} item job attempt publication : safe F (conclude item job attempt publication).
Proof. unfold conclude. cbv zeta. flow. Qed.
#[local] Hint Resolve safe_externals safe_conclude : flows.
Lemma safe_settle F `{!Stable F} item job attempt l : (forall s a, F s -> a ∈ l -> al_attempt_id a = ja_id attempt /\ held_at (al_id a) (held_identity a) s) ->
  safe F (settle_attempt item job attempt l).
Proof.
  intros Hl. unfold settle_attempt. set (with_evidence := _ && _). cbv zeta. set (x := if with_evidence then _ else _).
  assert (Ex : ja_id x = ja_id attempt) by (unfold x; destruct attempt, with_evidence; done). clearbody x with_evidence.
  apply (safe_seq F); [flow|intros _].
  apply (flow_bind F _ _ (fun seen _ => forall p d, seen = Some (p, d) -> exists known status round, observe known status round = Ok p)).
  - apply ens_operation; [apply _..|]. apply (ens_asked F _ (fun seen => forall p d, seen = Some (p, d) -> exists known status round, observe known status round = Ok p)).
    intros n seen Hs p d ->. destruct (pv_reconcile n job x) as [[[[[known status] round] e]|]|]; cbn in Hs; try done.
    destruct (observe known status round) eqn:Eo; cbn in Hs; [|done]. injection Hs as -> _. eauto.
  - intros [[p d]|]; [|flow]. apply ens_given. intros Hp. destruct (Hp p d eq_refl) as (known & status & round & Ho).
    destruct (pu_known p) eqn:Ek; cbn [negb]; [|flow]. apply (safe_seq F); [by apply (safe_stopped F _ _ known status round)|intros _].
    apply (safe_seq F); [|intros ?; flow]. apply (safe_release F). intros s a HF Ha. rewrite Ex. by apply Hl.
Qed.
Lemma safe_fence_attempt F `{!Stable F} item job attempt l : (forall a, a ∈ l -> al_epoch a = jb_epoch job) ->
  (forall s a, F s -> a ∈ l -> al_attempt_id a = ja_id attempt /\ held_at (al_id a) (held_identity a) s) -> safe F (fence_attempt item job attempt l).
Proof.
  intros He Hl. unfold fence_attempt. apply (safe_seq F); [flow|intros now]. apply (safe_seq F); [flow|intros _].
  apply (flow_bind F _ _ (fun r s => is_true r = true -> revoke_known s.2 (ja_id attempt))).
  - apply ens_operation; [apply _..|]. apply (safe_bind F); [flow|]. intros r.
    apply (flow_bind F _ _ (fun _ s => is_true r = true -> revoke_known s.2 (ja_id attempt))); [|intros _; apply flow_ret; by intros s []].
    apply ens_learned. intros s _ ->. left. left.
  - intros r. destruct (is_true r); cbn [negb]; [|flow]. apply safe_seq; [apply _|apply safe_revoked; [apply _|]; intros s [_ Hr]; by apply Hr|intros _].
    apply safe_left. apply (safe_seq F); [flow|intros active]. destruct active; [flow|]. apply (safe_seq F); [by apply (safe_stop_all F)|intros ?].
    apply (safe_seq F); [flow|intros stopped]. destruct stopped; cbn [negb]; [|flow]. by apply safe_settle.
Qed.
Lemma safe_fence F `{!Stable F} item : safe F (_fence item).
Proof.
  unfold _fence. apply (flow_bind F _ _ shot); [by apply ens_snapshot|]. intros [[[job x] l]|]; [|flow]. destruct (match ob_attempt_number item with Some _ => _ | None => _ end); [flow|].
  destruct (job_terminal _); [flow|]. destruct x as [x|]; [|flow]. destruct (_ && _); [flow|]. destruct (_ || _); [flow|].
  eapply (ens_weaken (fun s => (F s /\ forall a, a ∈ l -> al_attempt_id a = ja_id x /\ held_at (al_id a) (held_identity a) s) /\ forall a, a ∈ l -> al_epoch a = jb_epoch job));
    [|intros s _ [HF [[H1 H2] [H3 _]]]; auto|done].
  apply ens_given. intros He. apply safe_fence_attempt; [apply _|done|]. intros s a [_ Hs]. apply Hs.
Qed.
#[local] Hint Resolve safe_fence : flows.
Lemma safe_purge_retained F `{!Stable F} job l : safe F (purge_retained job l).
Proof. induction l as [|a l IH]; cbn [purge_retained]; flow. Qed.
#[local] Hint Resolve safe_purge_retained : flows.
Lemma safe_delete F `{!Stable F} b job : safe F (delete_storage b job).
Proof. unfold delete_storage. flow. Qed.
Lemma safe_clean F `{!Stable F} job attempt : safe F (clean_attempt job attempt).
Proof. unfold clean_attempt. flow. Qed.
#[local] Hint Resolve safe_delete safe_clean : flows.
Lemma safe_cleanup F `{!Stable F} item : safe F (_cleanup item).
Proof. unfold _cleanup. cbv zeta. flow. Qed.
#[local] Hint Resolve safe_cleanup : flows.
Lemma safe_report F `{!Stable F} job attempt c o round : safe F (report_progress job attempt c o round).
Proof. unfold report_progress. cbv zeta. flow. Qed.
#[local] Hint Resolve safe_report : flows.
Lemma safe_observe_all F `{!Stable F} job attempt round l : safe F (observe_all job attempt round l).
Proof. induction l as [|a l IH]; cbn [observe_all]; unfold identity_for; cbv zeta; flow. Qed.
#[local] Hint Resolve safe_observe_all : flows.
Lemma safe_observe_job F `{!Stable F} job attempt l : safe F (observe_job job attempt l).
Proof. unfold observe_job. flow. Qed.
#[local] Hint Resolve safe_observe_job : flows.
Lemma pending_reads job : reads (_proxy_restore_pending job).
Proof. unfold _proxy_restore_pending. reading. Qed.
Lemma safe_pending F `{!Stable F} job : safe F (committed (_proxy_restore_pending job)).
Proof. apply (safe_read F), pending_reads. Qed.
#[local] Hint Resolve safe_pending : flows.
Lemma safe_monitor_job F `{!Stable F} timeout id : safe F (monitor_job timeout id).
Proof. unfold monitor_job. flow. Qed.
Lemma safe_monitor F `{!Stable F} timeout : safe F (_monitor timeout).
Proof.
  unfold _monitor. apply (safe_seq F); [flow|]. intros found. induction (map jb_id found) as [|id l IH]; cbn [for_each]; [apply safe_ret|].
  apply (safe_seq F); [apply safe_monitor_job, _|intros _; exact IH].
Qed.
#[local] Hint Resolve safe_monitor : flows.
Lemma safe_modify F (f : Control -> Control) : (forall w, view (f w) = view w) -> safe F (modify f).
Proof. intros Hf. apply flow_pure; [exact Hf|done]. Qed.
Lemma safe_handle F `{!Stable F} item : safe F (_handle item).
Proof.
  unfold _handle. apply (safe_seq F); [by apply safe_modify|intros _].
  assert (Hm : safe F (_require ;; _handle_owned item)) by (unfold _handle_owned; flow).
  intros w r w' E Hg HF. destruct ((_require ;; _handle_owned item) w) as [r1 w1] eqn:Em. injection E as <- <-. exact (Hm w r1 w1 Em Hg HF).
Qed.
#[local] Hint Resolve safe_handle : flows.
Lemma safe_process F `{!Stable F} item : safe F (_process_claim item).
Proof. unfold _process_claim, _process_cleanup_claim, _finish. cbv zeta. flow. Qed.
#[local] Hint Resolve safe_process : flows.
Lemma safe_claims F `{!Stable F} controller_id n topics completed : safe F (process_claims controller_id n topics completed).
Proof. revert completed. induction n as [|n IH]; intros completed; cbn [process_claims]; flow. Qed.
#[local] Hint Resolve safe_claims : flows.
Lemma safe_run_once F `{!Stable F} controller_id timeout limit : safe F (run_once admission_storage controller_id timeout limit).
Proof. unfold run_once. flow; by apply safe_modify. Qed.

(** ** What is recorded is known *)
Record evidenced (s : State) : Prop := {
  ev_stopped : forall k a, allocations s.1 !! k = Some a -> al_termination_confirmed a = true -> stop_known s.2 (held_identity a);
  ev_released : forall k a, allocations s.1 !! k = Some a -> allocation_live (al_state a) = false -> release_known s.2 (held_identity a);
  ev_revoked : forall k x, job_attempts s.1 !! k = Some x -> ja_revocation_confirmed x = true -> revoke_known s.2 k;
}.
Lemma evidenced_step s s' : control_step s s' -> evidenced s -> evidenced s'.
Proof.
  intros [d d' l h _ [Hr Hn Ha Hj]] [E1 E2 E3]. cbn in *.
  assert (Hrow : forall k a, allocations d' !! k = Some a -> exists b, row_honest (l ++ h) b a /\
    (al_termination_confirmed b = true -> stop_known (l ++ h) (held_identity b)) /\ (allocation_live (al_state b) = false -> release_known (l ++ h) (held_identity b))).
  { intros k a Hk. destruct (allocations d !! k) as [b|] eqn:Hb.
    - destruct (Hr k b Hb) as (a' & Ha' & R). simplify_eq. exists b.
      split_and!; [done|intros Hc; eapply stop_known_app, E1; done|intros Hc; eapply release_known_app, E2; done].
    - destruct (Hn k a Hk Hb) as (_ & b & [U1 U2] & R). exists b. split; [done|]. rewrite U1, U2. done. }
  split; cbn.
  - intros k a Hk Hc. destruct (Hrow k a Hk) as (b & R & S1 & _). destruct (rh_stop _ _ _ R Hc); [|done]. rewrite (rh_identity _ _ _ R). auto.
  - intros k a Hk Hc. destruct (Hrow k a Hk) as (b & R & _ & S2). destruct (rh_free _ _ _ R Hc); [|done]. rewrite (rh_identity _ _ _ R). auto.
  - intros k x Hk Hc. destruct (Ha k x Hk Hc) as [(y & Hy & Hcy)|]; [|done]. eapply revoke_known_app, E3; done.
Qed.
Lemma evidenced_runs s s' : control_runs s s' -> evidenced s -> evidenced s'.
Proof. induction 1 as [|s s1 s' H _ IH]; [done|]. intros He. by eapply IH, evidenced_step. Qed.
Lemma untouched_good d : untouched_manager d -> good (d, []) /\ evidenced (d, []).
Proof.
  intros Hu. split; [by apply untouched_lawful|]. destruct Hu as [_ E2 E3 _].
  split; cbn; rewrite ?E2, ?E3; intros k x Hk; by rewrite lookup_empty in Hk.
Qed.
(** Executions of one job under two epochs are never held together, and
    attempts but the current one are over. *)
Lemma other_released s k a k' b : good s -> evidenced s -> allocations s.1 !! k = Some a -> allocations s.1 !! k' = Some b ->
  al_job_id b = al_job_id a -> allocation_live (al_state a) = true -> al_epoch b <> al_epoch a ->
  stop_known s.2 (held_identity b) /\ release_known s.2 (held_identity b).
Proof.
  destruct s as [d h]. intros [Hn Hm] He Ha Hb Ej Hl Hne. pose proof (lw_holds _ Hm) as [H1 H2]. cbn in *.
  assert (Hd : forall i c, allocations d !! i = Some c -> (hold_face <$> allocations d) !! i = Some (hold_face c)) by (intros i c Hc; by rewrite lookup_fmap, Hc).
  destruct (H1 k _ (Hd _ _ Ha)) as (j & Hj & _ & Ea), (H1 k' _ (Hd _ _ Hb)) as (j' & Hj' & _ & Eb). cbn in *. rewrite Ej, Hj in Hj'. injection Hj' as <-.
  destruct (allocation_live (al_state b)) eqn:El; [exfalso; apply Hne; rewrite Ea, Eb; auto|].
  split; [apply (ev_stopped _ He k' b Hb), (H2 k' _ (Hd _ _ Hb)); exact El|by apply (ev_released _ He k' b Hb)].
Qed.
Lemma earlier_revoked s k y j : good s -> evidenced s -> job_attempts s.1 !! k = Some y -> jobs s.1 !! ja_job_id y = Some j ->
  ja_number y < jb_current_attempt j -> revoke_known s.2 k.
Proof.
  destruct s as [d h]. intros [Hn Hm] He Hy Hj Hlt. pose proof (lw_attempts _ Hm) as (_ & _ & H3). cbn in *.
  assert (A : (attempt_face <$> job_attempts d) !! k = Some (attempt_face y)) by (by rewrite lookup_fmap, Hy).
  assert (B : (job_face <$> jobs d) !! af_job (attempt_face y) = Some (job_face j)) by (cbn; by rewrite lookup_fmap, Hj).
  apply (ev_revoked _ He k y Hy). specialize (H3 _ _ _ A B Hlt). cbn in H3. unfold over in H3. rewrite !andb_true_iff in H3. apply H3.
Qed.

(** ** Guarantees *)

(** C28: Whatever the executor, the provisioner and the participants answer,
    whatever other controllers, members and nodes do between its steps, and
    wherever the process dies, a pass of a controller -- claims, dispatch,
    builds, fences, cleanup and monitor -- and a pulse of its keep-alive only
    take steps of the manager that are honest: they keep the identity of every
    reservation, record a stop, a release or a revocation only with an answer
    that confirms it, and reserve only under an epoch new to the job. *)
Theorem pass_takes_honest_steps controller_id timeout limit w : good (view w) ->
  control_runs (view w) (view (run_once admission_storage controller_id timeout limit w).2) /\
  forall claim, control_runs (view w) (view (_pulse claim w).2).
Proof.
  intros Hg. split; [|intros claim].
  - destruct (run_once _ _ _ _ w) as [r w'] eqn:E. by apply (safe_run_once anything controller_id timeout limit w r w').
  - destruct (_pulse claim w) as [r w'] eqn:E. by apply (safe_keepalive anything claim w r w').
Qed.

(** C15: After a pass of a controller, in a manager whose controllers started
    from empty tables, whatever was answered, interleaved or cut short: a
    reservation recorded as stopped was reported stopped by the executor or its
    node, or the ledger shows that it was never asked for; one recorded as
    released was collected and released, or never asked for; while a
    reservation of a job is held, every reservation of the job under another
    epoch is known to be stopped and released; and the grants of every attempt
    before the current one are known to be revoked. *)
Theorem pass_leaves_no_other_execution controller_id timeout limit d0 w : untouched_manager d0 -> control_runs (d0, []) (view w) ->
  let s := view (run_once admission_storage controller_id timeout limit w).2 in
  evidenced s /\
  (forall k a k' b, allocations s.1 !! k = Some a -> allocations s.1 !! k' = Some b -> al_job_id b = al_job_id a ->
     allocation_live (al_state a) = true -> al_epoch b <> al_epoch a -> stop_known s.2 (held_identity b) /\ release_known s.2 (held_identity b)) /\
  (forall k y j, job_attempts s.1 !! k = Some y -> jobs s.1 !! ja_job_id y = Some j -> ja_number y < jb_current_attempt j -> revoke_known s.2 k).
Proof.
  intros Hu Hr. destruct (untouched_good d0 Hu) as [Hg He]. pose proof (good_runs _ _ Hg Hr) as Hg1.
  destruct (run_once _ _ _ _ w) as [r w'] eqn:E. cbn [snd].
  destruct (safe_run_once anything controller_id timeout limit w r w' E Hg1 I) as [Hs _].
  pose proof (good_runs _ _ Hg1 Hs) as Hg2. assert (He2 : evidenced (view w')) by (eapply evidenced_runs; [exact Hs|by eapply evidenced_runs]).
  split_and!; [exact He2|intros k a k' b; by apply other_released|intros k y j; by apply earlier_revoked].
Qed.
End Company.

(** *** A job that is started, fenced across a crash, and finished *)
Abbreviation runs := (control_runs default_admission_storage None).
#[export] Instance quiet_company : Company default_admission_storage None.
Proof. intros n j h j' h' [= <- <-] _. apply rtc_refl. Qed.
(** Another controller is part of what else happens. *)
Lemma troubled_company : Company (Z0 := troubled) default_admission_storage None.
Proof.
  intros n j h j' h'. cbn [meanwhile troubled]. destruct (n =? 110)%N; [|intros [= <- <-] _; apply rtc_refl]. cbn [fst snd].
  set (w := mkControl j h None true 1000). destruct (run_once _ _ _ _ w) as [r w'] eqn:E. intros [= <- <-] Hg.
  by apply (safe_run_once default_admission_storage None anything "controller-2" 60 20 w r w').
Qed.
Lemma pass_runs (H : Surroundings) id timeout limit w : Company default_admission_storage None (Z0 := H) -> good (view w) ->
  runs (view w) (view (run_once default_admission_storage id timeout limit w).2).
Proof.
  intros Hc Hg. destruct (run_once _ _ _ _ w) as [r w'] eqn:E. by apply (safe_run_once default_admission_storage None anything id timeout limit w r w').
Qed.
Lemma submitted_runs : runs (MANAGER, []) (view SUBMITTED).
Proof.
  set (op := CreateJob "alice" two_site_spec (JStr "key-1")).
  apply rtc_once. refine (one_step _ _ MANAGER (jw_db (play [(NOW, op)] START)) [] [] _ _).
  - exact (by_operation _ _ _ _ op (at_time NOW START) eq_refl I eq_refl).
  - exact (serve_honest [] default_admission_storage None op (at_time NOW START) (proj1 (proj1 (untouched_good MANAGER start_untouched))) I).
Qed.
Lemma started_runs : runs (MANAGER, []) (view STARTED).
Proof.
  etransitivity; [apply submitted_runs|]. apply pass_runs; [apply _|]. by eapply good_runs, submitted_runs; apply untouched_good.
Qed.
Lemma started_good : good (view STARTED).
Proof. eapply good_runs, started_runs. by apply untouched_good. Qed.
Lemma restarted_view d w : view (restarted_after d w) = view w.
Proof. done. Qed.
Lemma crashed_runs : runs (MANAGER, []) (view (restarted_after (minutes 10) CRASHED)).
Proof. etransitivity; [apply started_runs|]. rewrite restarted_view. exact (pass_runs troubled "controller-1" 60 20 STARTED troubled_company started_good). Qed.

Lemma pass_takes_honest_steps_witness : good (view STARTED) /\ runs (view STARTED) (view CRASHED) /\ job_states CRASHED = [RECONCILING].
Proof.
  split_and!; [exact started_good| |vm_compute; reflexivity].
  exact (proj1 (pass_takes_honest_steps (G := troubled_company) default_admission_storage None "controller-1" 60 20 STARTED started_good)).
Defined.
Lemma pass_leaves_no_other_execution_witness : job_states RECOVERED = [SUCCEEDED] /\
  hold_states RECOVERED = [("owner", RELEASED); ("w2", RELEASED); ("w1", RELEASED)] /\ evidenced (view RECOVERED).
Proof.
  split_and!; [vm_compute; reflexivity..|].
  exact (proj1 (pass_leaves_no_other_execution default_admission_storage None "controller-1" 60 20 MANAGER _ start_untouched crashed_runs)).
Defined.
