(* ===== verification/Protocol.v ===== *)
(** * Documents of the federated-learning protocol

    [hf2l.core.protocol] and the path check of [hf2l.common.fs]: the typed
    readers of submission manifests, round records and client contexts, with
    their field rules, the algorithm descriptor and the cyclic lineage.  Error
    messages leave out the label of the field.  A Python string is valid
    UTF-8 here, so the readers' check for lone surrogates always passes. *)

From stdpp Require Import base gmap strings list.
From Stdlib Require Import ZArith Lia Ascii String.
From S2P Require Import Prelude Json Domain.

Module Protocol.
Section Protocol.
Context {P : Platform}.

Definition SUBMISSION_FILE : string := "fedavg_submission.json".
Definition ROUND_FILE : string := "fedavg_round.json".
Definition CLIENT_CONTEXT_FILE : string := "fedavg_client_context.json".
Definition SCHEMA_VERSION : Z := 2.
Definition SUPPORTED_SCHEMA_VERSIONS : list Z := [1; 2].
Definition MAX_DOCUMENT_BYTES : Z := 1024 * 1024.
Definition MAX_METADATA_BYTES : Z := 64 * 1024.
Definition MAX_COLLECTION_ITEMS : Z := 10000.
Definition MAX_INTEGER : Z := 2 ^ 63 - 1.
Definition MAX_CYCLIC_PARENTS : Z := 64.
Definition _MUTABLE_REFERENCES : list string := ["main"; "master"; "latest"; "HEAD"].

Definition fail {A} (message : string) : result A := Err (ProtocolError message).
Definition reject_if (c : bool) (message : string) : result unit := if c then fail message else Ok tt.

(** [_copy_json(value, depth)] with [room = 17 - depth] levels left.  The copy
    equals the value, so only the checks remain. *)
Fixpoint _copy_json (room : nat) (value : json) : result unit :=
  match room with
  | O => fail "JSON exceeds maximum depth 16"
  | S room' =>
      match value with
      | JNull | JStr _ | JBool _ => Ok tt
      | JInt n => reject_if (negb ((- MAX_INTEGER <=? n) && (n <=? MAX_INTEGER)))
                    "JSON integer exceeds the supported signed 64-bit range"
      | JFloat f => reject_if (negb (float_is_finite f)) "JSON numbers must be finite"
      | JObj kvs =>
          let? _ := reject_if (MAX_COLLECTION_ITEMS <? Z.of_nat (List.length kvs))
                      "JSON objects require string keys and at most 10000 entries" in
          each (fun kv => _copy_json room' kv.2) kvs
      | JList l =>
          let? _ := reject_if (MAX_COLLECTION_ITEMS <? Z.of_nat (List.length l))
                      "JSON arrays may contain at most 10000 entries" in
          each (_copy_json room') l
      end
  end.

(** The serialized size; it does not depend on the order of keys. *)
Definition json_bytes (value : json) : result Z :=
  match dumps float_repr value with
  | Some s => Ok (utf8_len s)
  | None => Err (ValueError "Out of range float values are not JSON compliant")
  end.

Definition _object (value : json) (maximum : Z) : result (list (string * json)) :=
  match value with
  | JObj kvs =>
      let? _ := _copy_json 17 value in
      let? size := json_bytes value in
      if maximum <? size then fail "exceeds the JSON limit" else Ok kvs
  | _ => fail "must be a JSON object"
  end.

(** [_TEXT_PATTERN]: no control characters, no blank at either end. *)
Definition text_edge (c : ascii) : bool := negb (in_range c 0 32) && negb (byte_of c =? 127).
Definition text_inner (c : ascii) : bool := negb (in_range c 0 31) && negb (byte_of c =? 127).
Definition matches_text (s : string) : bool :=
  match chars s with
  | [] => false
  | c :: l => text_edge c && forallb text_inner l && text_edge (List.last l c)
  end.

Definition _text (value : json) : result string :=
  match value with
  | JStr s =>
      if (1 <=? py_len s) && (py_len s <=? 4096) && matches_text s then Ok s
      else fail "must be non-empty text without surrounding whitespace or control characters"
  | _ => fail "must be non-empty text without surrounding whitespace or control characters"
  end.

(** [type(value) is int] excludes booleans and floats. *)
Definition _integer (value : json) (minimum : Z) : result Z :=
  match value with
  | JInt n => if (minimum <=? n) && (n <=? MAX_INTEGER) then Ok n else fail "must be an integer between bounds"
  | _ => fail "must be an integer between bounds"
  end.

Definition _revision (value : json) : result string :=
  let? revision := _text value in
  if mem_str revision _MUTABLE_REFERENCES || startswith revision "refs/heads/" || startswith revision "refs/tags/"
  then fail "must identify an immutable revision, not a mutable reference" else Ok revision.

(** [hf2l.common.fs.safe_relative_path]; without empty or dot parts the first
    part of the POSIX path is the first piece between slashes. *)
Definition safe_relative_path (value : json) : result string :=
  match value with
  | JStr s =>
      if String.eqb s "" || (4096 <? py_len s)
      then Err (ValueError "Expected a non-empty relative path of at most 4096 characters")
      else if any_char (fun c => char_eqb c "\" || (byte_of c <? 32) || (byte_of c =? 127)) s
      then Err (ValueError "Unsafe relative path")
      else let parts := split_on "/" s in
      if startswith s "/" || existsb (fun part => mem_str part [""; "."; ".."]) parts
      then Err (ValueError "Unsafe relative path")
      else if match parts with part :: _ => any_char (fun c => char_eqb c ":") part | [] => false end
      then Err (ValueError "Unsafe relative path")
      else Ok s
  | _ => Err (ValueError "Expected a non-empty relative path of at most 4096 characters")
  end.

Definition _path (value : json) : result string :=
  match safe_relative_path value with
  | Ok s => Ok s
  | Err (ValueError message) => fail message
  | Err e => Err e
  end.

Definition require_supported_schema (value : list (string * json)) : result Z :=
  match assoc "schema_version" value with
  | Some (JInt version) =>
      if existsb (Z.eqb version) SUPPORTED_SCHEMA_VERSIONS then Ok version else fail "uses an unsupported schema"
  | _ => fail "uses an unsupported schema"
  end.

Definition base_revision_from (value : list (string * json)) : result string :=
  let revision := get_or_none value "base_revision" in
  let legacy := get_or_none value "base_commit" in
  let? _ := reject_if (negb (is_none revision) && negb (is_none legacy) && negb (py_eqb revision legacy))
              "base_revision and base_commit disagree" in
  let selected := if is_none revision then legacy else revision in
  if is_none selected then Ok "" else _revision selected.

(** ** Algorithm descriptors *)
Record AlgorithmSpec := mkAlgorithmSpec {
  al_name : string;
  al_version : Z;
  al_params : list (string * json);
  al_extensions : list (string * json);
}.

Definition algorithm_keys : list string := ["name"; "version"; "params"].

(** The constructor and its [__post_init__]. *)
Definition make_algorithm (name version params : json) (extensions : list (string * json)) : result AlgorithmSpec :=
  let? n := _text name in
  let? v := _integer version 1 in
  let? ps := _object params MAX_METADATA_BYTES in
  let? extras := _object (JObj extensions) MAX_METADATA_BYTES in
  let? _ := reject_if (existsb (fun k => mem_str k algorithm_keys) (keys extras))
              "Algorithm extension fields overlap reserved fields" in
  Ok (mkAlgorithmSpec n v ps extras).

Definition algorithm_from_dict (value : json) : result AlgorithmSpec :=
  match value with
  | JStr _ => let? name := _text value in make_algorithm (JStr name) (JInt 1) (JObj []) []
  | _ =>
      let? document := _object value MAX_METADATA_BYTES in
      match assoc "name" document with
      | None => fail "algorithm.name is required"
      | Some name =>
          let params := get_or document "params" (JObj []) in
          if negb (is_dict params) then fail "algorithm.params must be a JSON object"
          else make_algorithm name (get_or document "version" (JInt 1)) params
                 (List.filter (fun kv => negb (mem_str kv.1 algorithm_keys)) document)
      end
  end.

Definition algorithm_to_dict (a : AlgorithmSpec) : result (list (string * json)) :=
  _object (JObj (merge_dicts (al_extensions a)
            [("name", JStr (al_name a)); ("version", JInt (al_version a)); ("params", JObj (al_params a))]))
          MAX_METADATA_BYTES.

Definition _algorithm_spec (value : json) : result AlgorithmSpec :=
  if negb (is_dict value) then fail "must be an algorithm object" else algorithm_from_dict value.

(** ** Field rules *)
Definition is_hex_lower (c : ascii) : bool := is_digit c || in_range c 97 102.

Definition _hashes (value : json) : result unit :=
  let? r := _object value MAX_DOCUMENT_BYTES in
  let? _ := reject_if (Nat.eqb (List.length r) 0) "must not be empty" in
  each (fun kv =>
    let? _ := _path (JStr kv.1) in
    match kv.2 with
    | JStr digest => reject_if (negb ((utf8_len digest =? 64) && all_char is_hex_lower digest))
                       "requires lowercase SHA-256 digests"
    | _ => fail "requires lowercase SHA-256 digests"
    end) r.

Fixpoint distinct (l : list json) : bool :=
  match l with [] => true | v :: l' => negb (existsb (py_eqb v) l') && distinct l' end.

Definition _paths (value : json) : result unit :=
  match value with
  | JList ((_ :: _) as l) =>
      let? _ := each (fun path => let? _ := _path path in Ok tt) l in
      reject_if (negb (distinct l)) "contains duplicate paths"
  | _ => fail "must be a non-empty array"
  end.

Definition _choice (choices : list string) (value : json) : result unit :=
  match value with
  | JStr s => reject_if (negb (mem_str s choices)) "must be one of the choices"
  | _ => fail "must be one of the choices"
  end.

(** [set(d) == {...}] *)
Definition same_keys (d : list (string * json)) (names : list string) : bool :=
  forallb (fun k => mem_str k names) (keys d) && forallb (fun n => has_key n d) names.

(** The loop over the parents of a lineage, with the revisions seen so far. *)
Fixpoint lineage_parents (seen : list string) (parents : list json) : result unit :=
  match parents with
  | [] => Ok tt
  | JObj parent :: parents' =>
      if negb (same_keys parent ["revision"; "participant"]) then fail "parents require revision and participant"
      else
        let? revision := _revision (get_or_none parent "revision") in
        let? _ := _text (get_or_none parent "participant") in
        if mem_str revision seen then fail "contains a cycle or duplicate revision"
        else lineage_parents (revision :: seen) parents'
  | _ => fail "parents require revision and participant"
  end.

Definition _lineage (value : json) : result unit :=
  let? lineage := _object value MAX_METADATA_BYTES in
  let? _ := reject_if (negb (same_keys lineage ["root_revision"; "root_round"; "parents"]))
              "requires root_revision, root_round and parents" in
  let? root := _revision (get_or_none lineage "root_revision") in
  let? _ := _integer (get_or_none lineage "root_round") 0 in
  match get_or_none lineage "parents" with
  | JList parents =>
      if MAX_CYCLIC_PARENTS <? Z.of_nat (List.length parents) then fail "parents must be an array of at most 64 parents"
      else lineage_parents [root] parents
  | _ => fail "parents must be an array of at most 64 parents"
  end.

(** [parents[-1]] *)
Definition last_parent (parents : list json) : result (list (string * json)) :=
  match last parents with Some v => as_dict v | None => Err KeyError end.

Definition _validate_client_workflow (document : list (string * json)) : result unit :=
  let workflow := get_or document "workflow" (JStr "fedavg") in
  if negb (py_eqb workflow (JStr "cyclic")) then
    reject_if (has_key "lineage" document
               || negb (py_eqb (get_or document "source_kind" (JStr "global")) (JStr "global"))
               || has_key "source_participant" document)
      "Submission sources and lineage require the explicit cyclic workflow"
  else match assoc "lineage" document, assoc "source_kind" document with
  | Some lineage, Some source_kind =>
      let? lineage := as_dict lineage in
      match get_or_none lineage "parents" with
      | JList [] =>
          let? base := base_revision_from document in
          let? _ := reject_if (negb (py_eqb (JStr base) (get_or_none lineage "root_revision")))
                      "Cyclic base_revision disagrees with its immediate lineage parent" in
          let? _ := reject_if (negb (py_eqb (get_or_none document "source_round") (get_or_none lineage "root_round")))
                      "Cyclic source_round disagrees with the global root round" in
          let? _ := reject_if (negb (py_eqb source_kind (JStr "global")))
                      "Cyclic source_kind disagrees with its lineage" in
          reject_if (has_key "source_participant" document) "A global source does not have a source_participant"
      | JList parents =>
          let? parent := last_parent parents in
          let? base := base_revision_from document in
          let? _ := reject_if (negb (py_eqb (JStr base) (get_or_none parent "revision")))
                      "Cyclic base_revision disagrees with its immediate lineage parent" in
          let? _ := reject_if (negb (py_eqb (get_or_none document "source_round") (get_or_none lineage "root_round")))
                      "Cyclic source_round disagrees with the global root round" in
          let? _ := reject_if (negb (py_eqb source_kind (JStr "submission")))
                      "Cyclic source_kind disagrees with its lineage" in
          reject_if (negb (py_eqb (get_or_none document "source_participant") (get_or_none parent "participant")))
            "Cyclic source_participant disagrees with its immediate lineage parent"
      | _ => Err TypeError
      end
  | _, _ => fail "The cyclic workflow requires lineage and source_kind"
  end.

(** [_Rule]: what a field must satisfy and whether it must be there. *)
Record Rule := mkRule { validate : json -> result unit; required : bool }.

Definition checked {A} (f : json -> result A) (value : json) : result unit := let? _ := f value in Ok tt.
Definition optional_text (value : json) : result unit := if is_none value then Ok tt else checked _text value.

Definition _CLIENT_WORKFLOW : list (string * Rule) := [
  ("workflow", mkRule (_choice ["fedavg"; "cyclic"]) false);
  ("source_kind", mkRule (_choice ["global"; "submission"]) false);
  ("source_participant", mkRule (checked _text) false);
  ("lineage", mkRule _lineage false)].

Definition _COMMON : list (string * Rule) := [
  ("schema_version", mkRule (fun value => checked (fun v => require_supported_schema [("schema_version", v)]) value) true);
  ("backend", mkRule (checked _text) false);
  ("base_revision", mkRule (checked _revision) false);
  ("base_commit", mkRule (checked _revision) false);
  ("checkpoint_files_sha256", mkRule _hashes false);
  ("checkpoint_files", mkRule _paths false);
  ("algorithm", mkRule (checked algorithm_from_dict) false);
  ("algorithm_spec", mkRule (checked _algorithm_spec) false)].

(** ** Documents *)
Record Document := mkDocument { doc_rules : list (string * Rule); requires_base : bool }.

Definition check_rule (document : list (string * json)) (r : string * Rule) : result unit :=
  match assoc r.1 document with
  | None => if required r.2 then fail "is required" else Ok tt
  | Some value => validate r.2 value
  end.

(** [_Document._read] *)
Definition _read (cls : Document) (value : json) : result (list (string * json)) :=
  let? document := _object value MAX_DOCUMENT_BYTES in
  let? _ := each (check_rule document) (doc_rules cls) in
  let? _ := (if requires_base cls then
               let? base := base_revision_from document in
               reject_if (String.eqb base "") "base_revision is required"
             else Ok tt) in
  let? _ := (if has_key "base_revision" document || has_key "base_commit" document then
               checked (fun _ => base_revision_from document) JNull
             else Ok tt) in
  let? _ := (if existsb (fun r => String.eqb r.1 "workflow") (doc_rules cls) then _validate_client_workflow document
             else Ok tt) in
  Ok document.

Definition as_str (value : json) : result string := match value with JStr s => Ok s | _ => Err TypeError end.
Definition as_int (value : json) : result Z := match value with JInt n => Ok n | _ => Err TypeError end.
Definition as_opt_str (value : json) : result (option string) :=
  match value with JNull => Ok None | JStr s => Ok (Some s) | _ => Err TypeError end.

Definition submission_rules : list (string * Rule) :=
  _COMMON ++ _CLIENT_WORKFLOW ++ [
  ("repo_id", mkRule (checked _text) true);
  ("source_round", mkRule (checked (fun v => _integer v 0)) true);
  ("participant", mkRule (checked _text) true);
  ("num_examples", mkRule (checked (fun v => _integer v 1)) true);
  ("submission_revision", mkRule optional_text false);
  ("training", mkRule (checked (fun v => _object v MAX_METADATA_BYTES)) false)].

Record SubmissionManifest := mkSubmissionManifest {
  sm_wire : list (string * json);
  sm_schema_version : Z;
  sm_backend : string;
  sm_repo_id : string;
  sm_base_revision : string;
  sm_source_round : Z;
  sm_participant : string;
  sm_num_examples : Z;
  sm_submission_revision : option string;
}.

Definition submission_from_dict (value : json) : result SubmissionManifest :=
  let? doc := _read (mkDocument submission_rules true) value in
  let? version := as_int (get_or_none doc "schema_version") in
  let? backend := as_str (get_or doc "backend" (JStr "huggingface")) in
  let? repo_id := as_str (get_or_none doc "repo_id") in
  let? base := base_revision_from doc in
  let? source_round := as_int (get_or_none doc "source_round") in
  let? participant := as_str (get_or_none doc "participant") in
  let? num_examples := as_int (get_or_none doc "num_examples") in
  let? submission_revision := as_opt_str (get_or_none doc "submission_revision") in
  Ok (mkSubmissionManifest doc version backend repo_id base source_round participant num_examples submission_revision).

(** [0 <= coefficient <= 1] on an [int] or a finite [float]. *)
Definition in_unit_interval (value : json) : bool :=
  match value, exact_number value with
  | JBool _, _ => false
  | _, Some (m, e) => (0 <=? m) && (m * 2 ^ Z.max e 0 <=? 2 ^ Z.max (- e) 0)
  | _, None => false
  end.

Definition when_present (d : list (string * json)) (k : string) (f : json -> result unit) : result unit :=
  match assoc k d with Some v => f v | None => Ok tt end.

Definition submission_summary (summary : json) : result unit :=
  let? d := _object summary MAX_DOCUMENT_BYTES in
  let? _ := each (fun key => when_present d key (checked _text))
              ["participant"; "author"; "submission_revision"; "resolved_revision"] in
  let? _ := when_present d "num_examples" (checked (fun v => _integer v 1)) in
  when_present d "coefficient" (fun v =>
    reject_if (negb (in_unit_interval v)) "coefficient must be a number between zero and one").

Definition _submission_summaries (value : json) : result unit :=
  match value with
  | JList l => each submission_summary l
  | _ => fail "must be an array"
  end.

Definition round_rules : list (string * Rule) :=
  _COMMON ++ [
  ("round", mkRule (checked (fun v => _integer v 0)) true);
  ("submissions", mkRule _submission_summaries false);
  ("evaluation", mkRule (fun v => if is_none v then Ok tt else checked (fun v => _object v MAX_METADATA_BYTES) v) false)].

Record RoundRecord := mkRoundRecord {
  rr_wire : list (string * json);
  rr_schema_version : Z;
  rr_backend : string;
  rr_round : Z;
  rr_base_revision : string;
}.

Definition round_from_dict (value : json) : result RoundRecord :=
  let? doc := _read (mkDocument round_rules false) value in
  let? version := as_int (get_or_none doc "schema_version") in
  let? backend := as_str (get_or doc "backend" (JStr "huggingface")) in
  let? round := as_int (get_or_none doc "round") in
  let? base := base_revision_from doc in
  Ok (mkRoundRecord doc version backend round base).

Definition context_rules : list (string * Rule) :=
  _COMMON ++ _CLIENT_WORKFLOW ++ [
  ("repo_id", mkRule (checked _text) true);
  ("source_round", mkRule (checked (fun v => _integer v 0)) true);
  ("base_model_dir", mkRule (checked _path) false);
  ("requested_revision", mkRule (checked _text) false)].

Record ClientContext := mkClientContext {
  cc_wire : list (string * json);
  cc_schema_version : Z;
  cc_backend : string;
  cc_repo_id : string;
  cc_base_revision : string;
  cc_source_round : Z;
  cc_base_model_dir : string;
}.

Definition context_from_dict (value : json) : result ClientContext :=
  let? doc := _read (mkDocument context_rules true) value in
  let? version := as_int (get_or_none doc "schema_version") in
  let? backend := as_str (get_or doc "backend" (JStr "huggingface")) in
  let? repo_id := as_str (get_or_none doc "repo_id") in
  let? base := base_revision_from doc in
  let? source_round := as_int (get_or_none doc "source_round") in
  let? base_model_dir := as_str (get_or doc "base_model_dir" (JStr "base_model")) in
  Ok (mkClientContext doc version backend repo_id base source_round base_model_dir).

End Protocol.
End Protocol.
