(* ===== verification/ProtocolTheory.v ===== *)
(** * What a typed reader accepts

    The fields of an accepted document satisfy their rules, so the typed view
    has them; a reader refuses with [ProtocolError] and nothing else. *)

From stdpp Require Import base gmap strings list.
From Stdlib Require Import ZArith Lia Ascii String.
From S2P Require Import Prelude Json Domain Protocol.
Import Protocol.

Section Readers.
Context {P : Platform}.

Lemma reject_if_ok c m u : reject_if c m = Ok u -> c = false.
Proof. unfold reject_if, fail. by destruct c. Qed.

Lemma checked_ok {A} (f : json -> result A) v u : checked f v = Ok u -> exists a, f v = Ok a.
Proof. unfold checked. destruct (f v) as [a|]; [|done]. by exists a. Qed.

Lemma _object_ok v n d : _object v n = Ok d -> v = JObj d /\ _copy_json 17 v = Ok tt /\ exists size, json_bytes v = Ok size /\ size <= n.
Proof.
  unfold _object. destruct v as [| | | | | |kvs]; try done. destruct (_copy_json 17 (JObj kvs)) as [[]|]; [|done].
  destruct (json_bytes _) as [size|] eqn:E; [|done]. destruct (n <? size) eqn:El; [done|]. intros [= <-].
  split_and!; try done. exists size. split; [done|]. by apply Z.ltb_ge.
Qed.

Lemma _integer_ok v m n : _integer v m = Ok n -> v = JInt n /\ m <= n <= MAX_INTEGER.
Proof.
  unfold _integer. destruct v; try done. destruct (_ && _) eqn:E; [|done]. intros [= <-]. apply andb_true_iff in E as [E1 E2].
  split; [done|]. split; by apply Z.leb_le.
Qed.




(** ** Serialization *)

(** A document that [json.dumps] writes. *)
Definition dumpable (v : json) : Prop := exists n, json_bytes v = Ok n.

Lemma dumpable_dumps v : dumpable v <-> exists s, dumps float_repr v = Some s.
Proof.
  unfold dumpable, json_bytes. destruct (dumps float_repr v) as [s|].
  - split; intros _; by eexists.
  - split; by intros [].
Qed.

Lemma dumpable_obj kvs : dumpable (JObj kvs) <-> Forall (fun kv => dumpable kv.2) kvs.
Proof.
  rewrite dumpable_dumps. cbn [dumps].
  match goal with |- context [mbind _ (?go kvs)] =>
    assert (G : (exists items, go kvs = Some items) <-> Forall (fun kv : string * json => dumpable kv.2) kvs) end.
  { induction kvs as [|[a v] kvs IH]; [split; intros _; [constructor|by exists []]|].
    rewrite Forall_cons, dumpable_dumps. cbn [snd]. destruct (dumps float_repr v) as [d|]; cbn.
    - rewrite <- IH. match goal with |- context [mbind _ ?x] => destruct x as [items|] end; cbn.
      + split; intros _; [split; by eexists|by eexists].
      + split; [by intros []|by intros [_ []]].
    - split; [by intros []|by intros [[] _]]. }
  rewrite <- G. match goal with |- context [mbind _ ?x] => destruct x as [items|] end; cbn.
  - split; intros _; by eexists.
  - split; by intros [].
Qed.

Lemma dumpable_set key v d : dumpable v -> dumpable (JObj d) -> dumpable (JObj (assoc_set key v d)).
Proof.
  rewrite !dumpable_obj. intros Hv. induction 1 as [|[a b] d Hb Hd IH]; cbn; [by repeat constructor|].
  destruct (String.eqb key a); constructor; done.
Qed.

Lemma dumpable_item key v d : dumpable (JObj d) -> assoc key d = Some v -> dumpable v.
Proof.
  rewrite dumpable_obj. induction 1 as [|[a b] d Hb Hd IH]; cbn; [done|]. destruct (String.eqb key a); [by intros [= <-]|done].
Qed.
(** ** Fields *)
Lemma read_ok cls v doc : _read cls v = Ok doc ->
  v = JObj doc /\ (forall r, r ∈ doc_rules cls -> check_rule doc r = Ok tt) /\
  (requires_base cls = true -> exists base, base_revision_from doc = Ok base /\ base <> "") /\
  (existsb (fun r => String.eqb r.1 "workflow") (doc_rules cls) = true -> _validate_client_workflow doc = Ok tt).
Proof.
  unfold _read. destruct (_object v _) as [d|] eqn:Eo; [|done]. apply _object_ok in Eo as (-> & _).
  destruct (each _ _) as [[]|] eqn:Er; [|done]. apply each_ok in Er. rewrite Forall_forall in Er.
  destruct (requires_base cls) eqn:Eb.
  - destruct (base_revision_from d) as [base|] eqn:E; [|done].
    destruct (reject_if _ _) as [[]|] eqn:E1; [|done]. apply reject_if_ok, String.eqb_neq in E1. cbv beta iota.
    destruct (if _ || _ then _ else _); [|done].
    destruct (existsb _ _) eqn:Ew.
    + destruct (_validate_client_workflow d) as [[]|] eqn:E2; [|done]. intros [= <-]. split_and!; try done. by exists base.
    + intros [= <-]. split_and!; try done. by exists base.
  - destruct (if has_key _ _ || _ then _ else _); [|done].
    destruct (existsb _ _) eqn:Ew; [destruct (_validate_client_workflow d) as [[]|] eqn:E2; [|done]|]; by intros [= <-].
Qed.

(** A required field of an accepted document. *)
Lemma required_field doc key f : check_rule doc (key, mkRule f true) = Ok tt -> exists v, assoc key doc = Some v /\ f v = Ok tt.
Proof. unfold check_rule. cbn. destruct (assoc key doc) as [v|]; [|done]. by exists v. Qed.

Lemma required_integer doc key m : check_rule doc (key, mkRule (checked (fun v => _integer v m)) true) = Ok tt ->
  exists n, assoc key doc = Some (JInt n) /\ m <= n <= MAX_INTEGER.
Proof.
  intros H. apply required_field in H as (v & Hv & H). apply checked_ok in H as (n & H). apply _integer_ok in H as [-> Hn]. by exists n.
Qed.

Lemma round_nonneg v r : round_from_dict v = Ok r -> 0 <= rr_round r.
Proof.
  unfold round_from_dict. destruct (_read _ v) as [doc|] eqn:E; [|done]. apply read_ok in E as (_ & Hr & _).
  destruct (required_integer doc "round" 0) as (n & Hn & Hb); [apply Hr; unfold doc_rules, round_rules; set_solver|].
  destruct (as_int (get_or_none doc "schema_version")) as [|]; [|done]. destruct (as_str _); [|done].
  unfold get_or_none. rewrite Hn. cbn [as_int]. destruct (base_revision_from doc); [|done]. intros [= <-]. cbn. lia.
Qed.

Lemma dumpable_list l : dumpable (JList l) <-> Forall dumpable l.
Proof.
  rewrite dumpable_dumps. cbn [dumps].
  match goal with |- context [mbind _ (?go l)] => assert (G : (exists items, go l = Some items) <-> Forall dumpable l) end.
  { induction l as [|v l IH]; [split; intros _; [constructor|by exists []]|].
    rewrite Forall_cons, dumpable_dumps. destruct (dumps float_repr v) as [d|]; cbn.
    - rewrite <- IH. match goal with |- context [mbind _ ?x] => destruct x as [items|] end; cbn.
      + split; intros _; [split; by eexists|by eexists].
      + split; [by intros []|by intros [_ []]].
    - split; [by intros []|by intros [[] _]]. }
  rewrite <- G. match goal with |- context [mbind _ ?x] => destruct x as [items|] end; cbn.
  - split; intros _; by eexists.
  - split; by intros [].
Qed.

(** What the copy accepts can be written out. *)
Lemma copied_dumpable room v : _copy_json room v = Ok tt -> dumpable v.
Proof.
  revert v. induction room as [|room IH]; intros v H; [done|]. destruct v as [|b|n|f|s|l|kvs]; cbn [_copy_json] in H.
  1-3, 5: by apply dumpable_dumps; eexists.
  - apply reject_if_ok, negb_false_iff in H. apply dumpable_dumps. cbn. rewrite H. by eexists.
  - destruct (reject_if _ _); [|done]. apply each_ok in H. apply dumpable_list. eapply Forall_impl; [exact H|]. apply IH.
  - destruct (reject_if _ _); [|done]. apply each_ok in H. apply dumpable_obj. eapply Forall_impl; [exact H|]. intros kv. apply IH.
Qed.

(** ** Refusals *)
Definition protocol_only {A} (r : result A) : Prop :=
  match r with Ok _ | Err (ProtocolError _) => True | _ => False end.

Lemma po_bind {A B} (r : result A) (f : A -> result B) :
  protocol_only r -> (forall a, r = Ok a -> protocol_only (f a)) -> protocol_only (let? x := r in f x)%py.
Proof. destruct r as [a|[]]; cbn; intros H Hf; by try apply Hf. Qed.
Lemma po_reject_if c m : protocol_only (reject_if c m). Proof. by destruct c. Qed.
Lemma po_each {A} (f : A -> result unit) l : (forall x, x ∈ l -> protocol_only (f x)) -> protocol_only (each f l).
Proof.
  induction l as [|x l IH]; intros H; cbn; [done|]. pose proof (H x ltac:(left)) as Hx. destruct (f x) as [|[]]; try done.
  apply IH. intros y Hy. apply H. by right.
Qed.

Lemma po_copy room v : protocol_only (_copy_json room v).
Proof.
  revert v. induction room as [|room IH]; intros v; [done|]. destruct v as [|b|n|f|s|l|kvs]; cbn [_copy_json]; try apply po_reject_if; try done.
  - apply po_bind; [apply po_reject_if|]. intros _ _. apply po_each. intros x _. apply IH.
  - apply po_bind; [apply po_reject_if|]. intros _ _. apply po_each. intros x _. apply IH.
Qed.
Lemma po_object v n : protocol_only (_object v n).
Proof.
  unfold _object. destruct v as [| | | | | |kvs]; try done. apply po_bind; [apply po_copy|]. intros [] H.
  destruct (copied_dumpable _ _ H) as [size E]. rewrite E. by destruct (n <? size).
Qed.
Lemma po_text v : protocol_only (_text v).
Proof. unfold _text. destruct v; try done. by destruct (_ && _). Qed.
Lemma po_integer v m : protocol_only (_integer v m).
Proof. unfold _integer. destruct v; try done. by destruct (_ && _). Qed.
Lemma po_revision v : protocol_only (_revision v).
Proof. unfold _revision. apply po_bind; [apply po_text|]. intros s _. by destruct (_ || _). Qed.
Lemma po_path v : protocol_only (_path v).
Proof.
  unfold _path, safe_relative_path. destruct v as [| | | |s| |]; try done.
  repeat match goal with |- context [if ?c then _ else _] => destruct c; try done end.
Qed.
Lemma po_base d : protocol_only (base_revision_from d).
Proof. unfold base_revision_from. apply po_bind; [apply po_reject_if|]. intros _ _. cbv zeta. destruct (is_none _); [done|apply po_revision]. Qed.
Lemma po_schema d : protocol_only (require_supported_schema d).
Proof. unfold require_supported_schema. destruct (assoc _ _) as [[]|]; try done. by destruct (existsb _ _). Qed.
Lemma po_make n v ps e : protocol_only (make_algorithm n v ps e).
Proof.
  unfold make_algorithm. apply po_bind; [apply po_text|]. intros ? _. apply po_bind; [apply po_integer|]. intros ? _.
  apply po_bind; [apply po_object|]. intros ? _. apply po_bind; [apply po_object|]. intros ? _.
  apply po_bind; [apply po_reject_if|]. done.
Qed.
Lemma po_algorithm v : protocol_only (algorithm_from_dict v).
Proof.
  assert (H : protocol_only (let? document := _object v MAX_METADATA_BYTES in
    match assoc "name" document with
    | None => fail "algorithm.name is required"
    | Some name =>
        let params := get_or document "params" (JObj []) in
        if negb (is_dict params) then fail "algorithm.params must be a JSON object"
        else make_algorithm name (get_or document "version" (JInt 1)) params
               (List.filter (fun kv => negb (mem_str kv.1 algorithm_keys)) document)
    end)%py).
  { apply po_bind; [apply po_object|]. intros d _. destruct (assoc _ _); [|done]. cbv zeta. destruct (negb _); [done|apply po_make]. }
  destruct v; try exact H. unfold algorithm_from_dict. apply po_bind; [apply po_text|]. intros ? _. apply po_make.
Qed.
#[local] Hint Resolve po_reject_if po_object po_text po_integer po_revision po_path po_base po_schema po_algorithm : refusals.


Lemma po_algorithm_spec v : protocol_only (_algorithm_spec v).
Proof. unfold _algorithm_spec. destruct (negb _); [done|auto with refusals]. Qed.
#[local] Hint Resolve po_algorithm_spec : refusals.

















End Readers.
