(* ===== verification/Checkpoint.v ===== *)
(** * SafeTensors checkpoints

    [hf2l.checkpoint.layout], [hf2l.checkpoint.safetensors] and the JSON reader
    of [hf2l.common.fs]: the header of one shard and its byte ranges, the
    discovery of a checkpoint directory, and the compatibility of two
    checkpoints.  [loads] is [json.loads] without hooks: it builds the document
    as written, with repeated keys and out-of-range numbers; the hooks of each
    reader are the checks on that document. *)

From stdpp Require Import base gmap strings list sorting.
From Stdlib Require Import ZArith Lia Ascii String.
From S2P Require Import Prelude Json Domain Protocol.

Module Checkpoint.

Definition CONFIG_FILE : string := "config.json".
Definition MODEL_FILE : string := "model.safetensors".
Definition MODEL_INDEX_FILE : string := "model.safetensors.index.json".

Record TensorSpec := mkTensorSpec {
  ts_filename : string;
  ts_shape : list Z;
  ts_dtype : string;
}.

Record CheckpointLayout := mkCheckpointLayout {
  config : list (string * json);
  weight_files : list string;
  index_file : option string;
  tensors : list (string * TensorSpec);
  format : string;
}.

#[global] Instance tensor_spec_eq_dec : EqDecision TensorSpec.
Proof. solve_decision. Defined.

Definition artifact_paths (l : CheckpointLayout) : list string :=
  CONFIG_FILE :: weight_files l ++ match index_file l with Some f => [f] | None => [] end.

Definition MAX_HEADER_BYTES : Z := 100000000.
Definition MAX_JSON_DEPTH : nat := 127.
Definition MAX_TENSOR_RANK : Z := 1024.
Definition MAX_DIMENSION : Z := 2 ^ 63 - 1.
Definition DTYPE_BYTES : list (string * Z) := [
  ("BOOL", 1); ("U8", 1); ("I8", 1); ("I16", 2); ("U16", 2); ("F16", 2); ("BF16", 2); ("I32", 4); ("U32", 4);
  ("F32", 4); ("I64", 8); ("U64", 8); ("F64", 8); ("F8_E4M3", 1); ("F8_E5M2", 1); ("F8_E8M0", 1)].

Fixpoint lookup_bytes (dtype : string) (l : list (string * Z)) : option Z :=
  match l with [] => None | (k, n) :: l' => if String.eqb dtype k then Some n else lookup_bytes dtype l' end.

Definition invalid {A} (message : string) : result A := Err (ValueError message).
Definition invalid_if (c : bool) (message : string) : result unit := if c then invalid message else Ok tt.

(** ** JSON hooks *)
Fixpoint unique (l : list string) : bool :=
  match l with [] => true | k :: l' => negb (mem_str k l') && unique l' end.

(** [object_pairs_hook], [parse_float], [parse_constant] and [parse_int] on
    every node; [integer] says which integer literals pass. *)
Fixpoint hooks (integer : Z -> bool) (v : json) : result unit :=
  match v with
  | JInt n => invalid_if (negb (integer n)) "number is out of range"
  | JFloat f => invalid_if (negb (float_is_finite f)) "number is out of range"
  | JList l => each (hooks integer) l
  | JObj kvs =>
      let? _ := each (fun kv => hooks integer kv.2) kvs in
      invalid_if (negb (unique (keys kvs))) "Duplicate key"
  | _ => Ok tt
  end.

(** [float(literal)] of an integer is finite below half an ulp past the
    largest double. *)
Definition float_in_range (n : Z) : bool := Z.abs n <? 2 ^ 1024 - 2 ^ 970.

(** [_validate_json]: containers nest at most [room] deep. *)
Fixpoint _validate_json (room : nat) (v : json) : result unit :=
  match v, room with
  | JObj _, O | JList _, O => invalid "SafeTensors JSON nesting exceeds reader limit"
  | JObj kvs, S room' => each (fun kv => _validate_json room' kv.2) kvs
  | JList l, S room' => each (_validate_json room') l
  | _, _ => Ok tt
  end.

(** ** One shard *)
Section Files.
Context (loads : string -> result json).

(** [hf2l.common.fs.read_json] on the contents of an existing file. *)
Definition read_json (text : string) : result (list (string * json)) :=
  let? value := loads text in
  let? _ := hooks (fun _ => true) value in
  match value with JObj d => Ok d | _ => invalid "Expected a JSON object" end.

(** [struct.unpack("<Q", prefix)] *)
Fixpoint little_endian (s : string) : Z :=
  match s with EmptyString => 0 | String c s' => byte_of c + 256 * little_endian s' end.

Fixpoint ints (l : list json) : option (list Z) :=
  match l with
  | [] => Some []
  | JInt n :: l' => option_map (cons n) (ints l')
  | _ :: _ => None
  end.

(** The loop over the dimensions, with the extent so far. *)
Fixpoint extent_of (extent : Z) (shape : list Z) : result Z :=
  match shape with
  | [] => Ok extent
  | dimension :: shape' =>
      if dimension =? 0 then extent_of extent shape'
      else if MAX_DIMENSION / dimension <? extent then invalid "Tensor shape overflows supported buffer size"
      else extent_of (extent * dimension) shape'
  end.

(** One entry of the header: its description and its range of the payload. *)
Definition tensor_entry (name : string) (payload_size : Z) (entry : string * json) : result (TensorSpec * (Z * Z)) :=
  match entry with
  | (key, JObj spec) =>
      if String.eqb key "" then invalid "Invalid tensor entry" else
      match get_or_none spec "dtype" with
      | JStr dtype =>
          match lookup_bytes dtype DTYPE_BYTES with
          | None => invalid "Unknown SafeTensors dtype"
          | Some width =>
              match get_or_none spec "shape" with
              | JList shape =>
                  match ints shape with
                  | Some shape =>
                      if (MAX_TENSOR_RANK <? Z.of_nat (List.length shape))
                         || existsb (fun n => (n <? 0) || (MAX_DIMENSION <? n)) shape
                      then invalid "Invalid tensor shape" else
                      let? extent := extent_of width shape in
                      let expected_bytes := if existsb (Z.eqb 0) shape then 0 else extent in
                      match get_or_none spec "data_offsets" with
                      | JList [JInt start; JInt end_] =>
                          if (start <? 0) || (end_ <? 0) then invalid "Invalid tensor offsets"
                          else if (end_ <? start) || (payload_size <? end_) || negb (end_ - start =? expected_bytes)
                          then invalid "Invalid tensor data bounds"
                          else Ok (mkTensorSpec name shape dtype, (start, end_))
                      | _ => invalid "Invalid tensor offsets"
                      end
                  | None => invalid "Invalid tensor shape"
                  end
              | _ => invalid "Invalid tensor shape"
              end
          end
      | _ => invalid "Unknown SafeTensors dtype"
      end
  | _ => invalid "Invalid tensor entry"
  end.

(** The loop over the entries, with the two accumulators of the source. *)
Fixpoint tensor_entries (name : string) (payload_size : Z) (header : list (string * json))
    : result (list (string * TensorSpec) * list (Z * Z)) :=
  match header with
  | [] => Ok ([], [])
  | entry :: header' =>
      let? one := tensor_entry name payload_size entry in
      let? rest := tensor_entries name payload_size header' in
      Ok ((entry.1, one.1) :: rest.1, one.2 :: rest.2)
  end.

(** [sorted(intervals)] on pairs. *)
Definition interval_le (a b : Z * Z) : Prop := a.1 < b.1 \/ (a.1 = b.1 /\ a.2 <= b.2).
#[global] Instance interval_le_dec : RelDecision interval_le.
Proof. intros a b. unfold interval_le. apply _. Defined.

(** The last loop: each range starts where the one before ended. *)
Fixpoint contiguous (position : Z) (intervals : list (Z * Z)) : result Z :=
  match intervals with
  | [] => Ok position
  | (start, end_) :: intervals' =>
      if negb (start =? position) then invalid "Non-contiguous or overlapping SafeTensors data"
      else contiguous end_ intervals'
  end.

Definition string_metadata (metadata : json) : bool :=
  match metadata with JObj kvs => forallb (fun kv => is_str kv.2) kvs | _ => false end.

Definition is_metadata (kv : string * json) : bool := String.eqb kv.1 "__metadata__".

(** The part of [read_header] after the JSON is parsed. *)
Definition check_header (name : string) (payload_size : Z) (header : list (string * json))
    : result (list (string * TensorSpec)) :=
  let? _ := invalid_if (negb (string_metadata (get_or header "__metadata__" (JObj []))))
              "Invalid SafeTensors metadata" in
  let? entries := tensor_entries name payload_size (List.filter (fun kv => negb (is_metadata kv)) header) in
  let? position := contiguous 0 (merge_sort interval_le entries.2) in
  let? _ := invalid_if (negb (position =? payload_size)) "Trailing or truncated SafeTensors payload" in
  Ok entries.1.

(** [read_header] on the name and the bytes of a file. *)
Definition read_header (name : string) (contents : string) : result (list (string * TensorSpec)) :=
  let size := utf8_len contents in
  if size <? 8 then invalid "Truncated SafeTensors length prefix" else
  let length := little_endian (String.substring 0 8 contents) in
  if (length <? 2) || (MAX_HEADER_BYTES <? length) || (size - 8 <? length)
  then invalid "Invalid SafeTensors header length" else
  let raw := String.substring 8 (Z.to_nat length) contents in
  if negb (startswith raw "{") then invalid "Invalid SafeTensors JSON header" else
  let? value := (match (let? v := loads raw in
                        let? _ := hooks float_in_range v in
                        let? _ := _validate_json MAX_JSON_DEPTH v in Ok v) with
                 | Err e => if is_value_error e then invalid "Invalid SafeTensors JSON header" else Err e
                 | Ok v => Ok v
                 end) in
  match value with
  | JObj header => check_header name (size - 8 - length) header
  | _ => invalid "SafeTensors header must be an object"
  end.

(** ** A checkpoint directory *)
Inductive Entry :=
  | Regular (contents : string)
  | Link (target_exists : bool)
  | Folder.

Abbreviation Directory := (gmap string Entry).

Definition exists_in (root : Directory) (name : string) : bool :=
  match root !! name with Some (Link target_exists) => target_exists | Some _ => true | None => false end.
Definition is_symlink (root : Directory) (name : string) : bool :=
  match root !! name with Some (Link _) => true | _ => false end.

(** [_file]: the contents of a regular file that is not a link. *)
Definition _file (root : Directory) (name : string) : result string :=
  match root !! name with
  | Some (Regular contents) => Ok contents
  | Some (Link _) => invalid "Refusing checkpoint symlink"
  | _ => invalid "Checkpoint file listed but missing"
  end.

(** [s.endswith(p)] *)
Definition endswith (s p : string) : bool :=
  (String.length p <=? String.length s)%nat &&
  String.eqb (String.substring (String.length s - String.length p) (String.length p) s) p.

(** [_plain_filename]: without a separator the path has one part, itself,
    unless it is a dot. *)
Definition _plain_filename (value : json) : result string :=
  match value with
  | JStr s =>
      if String.eqb s "" || any_char (fun c => char_eqb c "\" || (byte_of c =? 0) || char_eqb c "/") s || String.eqb s "."
      then invalid "Shard filename must be a plain filename"
      else
        let? _ := Protocol.safe_relative_path value in
        if negb (endswith s ".safetensors") then invalid "Checkpoint shard is not a SafeTensors file" else Ok s
  | _ => invalid "Shard filename must be a plain filename"
  end.

(** The weight map of an index file, in order. *)
Fixpoint expected_entries (raw_map : list (string * json)) : result (list (string * string)) :=
  match raw_map with
  | [] => Ok []
  | (tensor_name, filename) :: raw_map' =>
      if String.eqb tensor_name "" then invalid "Invalid tensor name" else
      let? filename := _plain_filename filename in
      let? rest := expected_entries raw_map' in
      Ok ((tensor_name, filename) :: rest)
  end.

Fixpoint lookup_in {A} (k : string) (l : list (string * A)) : option A :=
  match l with [] => None | (k', v) :: l' => if String.eqb k k' then Some v else lookup_in k l' end.

(** [for name, spec in read_header(...).items()]: no name twice. *)
Fixpoint add_tensors (known new : list (string * TensorSpec)) : result (list (string * TensorSpec)) :=
  match new with
  | [] => Ok known
  | (name, spec) :: new' =>
      if mem_str name known.*1 then invalid "Tensor occurs in more than one checkpoint shard"
      else add_tensors (known ++ [(name, spec)]) new'
  end.

Fixpoint read_shards (root : Directory) (known : list (string * TensorSpec)) (files : list string)
    : result (list (string * TensorSpec)) :=
  match files with
  | [] => Ok known
  | filename :: files' =>
      let? contents := _file root filename in
      let? header := read_header filename contents in
      let? known := add_tensors known header in
      read_shards root known files'
  end.

(** What [discover] takes from the index, or from the single file: the shards,
    the name of the index and the map the shards must agree with. *)
Definition shards_of (root : Directory) : result (list string * option string * option (list (string * string))) :=
  if exists_in root MODEL_INDEX_FILE || is_symlink root MODEL_INDEX_FILE then
    let? text := _file root MODEL_INDEX_FILE in
    let? index := read_json text in
    match get_or_none index "weight_map" with
    | JObj ((_ :: _) as raw_map) =>
        let? expected := expected_entries raw_map in
        let files := sorted_set expected.*2 in
        if exists_in root MODEL_FILE && negb (mem_str MODEL_FILE files)
        then invalid "Both unsharded and indexed checkpoints exist"
        else Ok (files, Some MODEL_INDEX_FILE, Some expected)
    | _ => invalid "Missing or empty weight_map"
    end
  else if exists_in root MODEL_FILE || is_symlink root MODEL_FILE then Ok ([MODEL_FILE], None, None)
  else invalid "No supported checkpoint".

Definition check_index (expected : list (string * string)) (found : list (string * TensorSpec)) : result unit :=
  let? _ := invalid_if (negb (forallb (fun k => mem_str k found.*1) expected.*1
                              && forallb (fun k => mem_str k expected.*1) found.*1)) "Index/tensor keys differ" in
  each (fun kv => match lookup_in kv.1 found with
                  | Some spec => invalid_if (negb (String.eqb (ts_filename spec) kv.2)) "Index maps a tensor to another file"
                  | None => Err KeyError
                  end) expected.

Definition sniff (root : Directory) : bool := exists_in root MODEL_FILE || exists_in root MODEL_INDEX_FILE.

Definition discover (root : Directory) : result CheckpointLayout :=
  let? text := _file root CONFIG_FILE in
  let? config := read_json text in
  let? shards := shards_of root in
  let? found := read_shards root [] shards.1.1 in
  let? _ := invalid_if (Nat.eqb (List.length found) 0) "Checkpoint contains no tensors" in
  let? _ := match shards.2 with Some expected => check_index expected found | None => Ok tt end in
  Ok (mkCheckpointLayout config shards.1.1 shards.1.2 found "safetensors").
End Files.

(** ** Compatibility *)
Definition same_tensors (a b : list (string * TensorSpec)) : bool :=
  Nat.eqb (List.length a) (List.length b) &&
  forallb (fun kv => bool_decide (lookup_in kv.1 b = Some kv.2)) a.

(** [CompatibilityPolicy.check]; [None] is the strict policy.  Once the maps
    of tensors differ, every branch of the source raises. *)
Definition check_compatible (identity_keys : option (list string)) (reference candidate : CheckpointLayout) : result unit :=
  let? _ := invalid_if (negb (String.eqb (format reference) (format candidate))) "Checkpoint format changed" in
  let same_config :=
    match identity_keys with
    | None => py_eqb (JObj (config candidate)) (JObj (config reference))
    | Some names => forallb (fun key => match assoc key (config reference), assoc key (config candidate) with
                                        | Some v, Some w => py_eqb v w
                                        | _, _ => false
                                        end) names
    end in
  let? _ := invalid_if (negb same_config) "Model configuration changed" in
  let? _ := invalid_if (negb (bool_decide (index_file candidate = index_file reference))) "Checkpoint index layout changed" in
  let? _ := invalid_if (negb (bool_decide (weight_files candidate = weight_files reference)))
              "Checkpoint shard filenames changed" in
  invalid_if (negb (same_tensors (tensors candidate) (tensors reference))) "Checkpoint tensor schema changed".

Definition validate_compatible (reference candidate : CheckpointLayout) : result unit :=
  check_compatible None reference candidate.
End Checkpoint.
