(* ===== verification/CheckpointTheory.v ===== *)
(** * What an accepted checkpoint is

    The tensors of an accepted shard divide its payload exactly: their byte
    ranges, as declared, cover every byte once and have the sizes their shapes
    and types give.  In an accepted directory every tensor has one shard, the
    one the index names. *)

From stdpp Require Import base gmap strings list sorting.
From Stdlib Require Import ZArith Lia Ascii String.
From S2P Require Import Prelude Json Order Domain Protocol Checkpoint.
Import Checkpoint.

(** ** Sums over a list *)
Definition sum_of {A} (f : A -> Z) (l : list A) : Z := foldr (fun x n => f x + n) 0 l.

Lemma sum_of_perm {A} (f : A -> Z) l1 l2 : l1 ≡ₚ l2 -> sum_of f l1 = sum_of f l2.
Proof. unfold sum_of. induction 1; cbn; lia. Qed.

Lemma sum_of_Forall2 {A B} (f : A -> Z) (g : B -> Z) l1 l2 :
  Forall2 (fun a b => f a = g b) l1 l2 -> sum_of f l1 = sum_of g l2.
Proof. unfold sum_of. induction 1; cbn; lia. Qed.

(** ** Ranges *)
(** The range holds the byte at [offset]. *)
Definition holds (offset : Z) (range : Z * Z) : bool := (range.1 <=? offset) && (offset <? range.2).
Definition range_size (range : Z * Z) : Z := range.2 - range.1.
(** How many ranges hold the byte at [offset]. *)
Definition times_held (offset : Z) (ranges : list (Z * Z)) : Z := sum_of (fun r => Z.b2z (holds offset r)) ranges.

Lemma invalid_if_ok c m u : invalid_if c m = Ok u -> c = false.
Proof. unfold invalid_if, invalid. by destruct c. Qed.

Lemma contiguous_ok ranges p q :
  contiguous p ranges = Ok q -> Forall (fun r => r.1 <= r.2) ranges ->
  p <= q /\ sum_of range_size ranges = q - p /\
  forall offset, times_held offset ranges = Z.b2z (holds offset (p, q)).
Proof.
  revert p. induction ranges as [|[a b] ranges IH]; cbn [contiguous]; intros p H Hl.
  - injection H as <-. repeat split; [lia|cbn; lia|]. intros o. unfold times_held, holds. cbn.
    destruct (p <=? o) eqn:E1, (o <? p) eqn:E2; cbn; lia.
  - destruct (negb (a =? p)) eqn:E; [done|]. apply negb_false_iff, Z.eqb_eq in E as ->.
    inversion Hl as [|? ? Hab Hl']; subst; cbn in Hab.
    destruct (IH b H Hl') as (Hb & Hs & Hh). repeat split; [lia| |].
    + unfold sum_of, range_size in *. cbn in *. lia.
    + intros o. specialize (Hh o). unfold times_held, sum_of in *. cbn [foldr]. rewrite Hh.
      unfold holds. cbn. destruct (p <=? o) eqn:?, (o <? b) eqn:?, (b <=? o) eqn:?, (o <? q) eqn:?; cbn; lia.
Qed.

(** ** Sizes of tensors *)
Definition product (l : list Z) : Z := foldr Z.mul 1 l.

(** The bytes a tensor takes: its elements times the width of its type. *)
Definition tensor_bytes (t : TensorSpec) : Z :=
  match lookup_bytes (ts_dtype t) DTYPE_BYTES with Some width => width * product (ts_shape t) | None => 0 end.

Lemma lookup_bytes_pos dtype n : lookup_bytes dtype DTYPE_BYTES = Some n -> 1 <= n <= 8.
Proof.
  unfold DTYPE_BYTES. cbn [lookup_bytes].
  repeat match goal with |- context [String.eqb ?a ?b] => destruct (String.eqb a b); [intros [= <-]; lia|] end. done.
Qed.

Lemma extent_of_ok shape e r :
  extent_of e shape = Ok r -> 0 < e <= MAX_DIMENSION -> Forall (fun n => 0 <= n) shape ->
  0 < r <= MAX_DIMENSION /\ (existsb (Z.eqb 0) shape = false -> r = e * product shape) /\
  (existsb (Z.eqb 0) shape = true -> product shape = 0).
Proof.
  revert e. induction shape as [|d shape IH]; cbn [extent_of existsb]; intros e H He Hs.
  - injection H as <-. unfold product; cbn. split_and!; [lia..|intros _; lia|done].
  - inversion Hs as [|? ? Hd Hs']; subst. destruct (d =? 0) eqn:E.
    + apply Z.eqb_eq in E as ->. destruct (IH e H He Hs') as (Hr & _ & _). split_and!; [lia..|done|].
      intros _. unfold product; cbn. lia.
    + apply Z.eqb_neq in E. destruct (MAX_DIMENSION / d <? e) eqn:E2; [done|]. apply Z.ltb_ge in E2.
      assert (e * d <= MAX_DIMENSION). { pose proof (Z.mul_div_le MAX_DIMENSION d). nia. }
      destruct (IH (e * d) H ltac:(nia) Hs') as (Hr & H1 & H2).
      rewrite (proj2 (Z.eqb_neq 0 d)) by lia. cbn [orb]. split_and!; [lia..| |].
      * intros Hn. rewrite (H1 Hn). unfold product; cbn. lia.
      * intros Hz. specialize (H2 Hz). unfold product in *; cbn. rewrite H2. lia.
Qed.

(** The range an entry of the header declares. *)
Definition declared_range (entry : json) : option (Z * Z) :=
  match entry with
  | JObj spec => match get_or_none spec "data_offsets" with
                 | JList [JInt start; JInt end_] => Some (start, end_)
                 | _ => None
                 end
  | _ => None
  end.

(** What [tensor_entry] accepts. *)
Record described (name : string) (payload_size : Z) (entry : json) (t : TensorSpec) (range : Z * Z) : Prop := {
  de_file : ts_filename t = name;
  de_declared : declared_range entry = Some range;
  de_inside : 0 <= range.1 <= range.2 /\ range.2 <= payload_size;
  de_size : range_size range = tensor_bytes t;
  de_bounded : tensor_bytes t <= MAX_DIMENSION;
}.

Lemma tensor_entry_ok name payload kv t range :
  tensor_entry name payload kv = Ok (t, range) -> described name payload kv.2 t range.
Proof.
  unfold tensor_entry. destruct kv as [k [| | | | | |spec]]; try done. destruct (String.eqb k ""); [done|].
  destruct (get_or_none spec "dtype") as [| | | |dtype| |]; try done.
  destruct (lookup_bytes dtype DTYPE_BYTES) as [width|] eqn:Ew; [|done].
  destruct (get_or_none spec "shape") as [| | | | |shape|]; try done. destruct (ints shape) as [dims|]; [|done].
  destruct (_ || existsb _ dims) eqn:Eb; [done|]. apply orb_false_iff in Eb as [_ Eb].
  destruct (extent_of width dims) as [extent|] eqn:Ee; [|done].
  destruct (get_or_none spec "data_offsets") as [| | | | |[|[| |start| | | |] [|[| |end_| | | |] [|]]]|] eqn:Eo; try done.
  destruct (_ || (end_ <? 0)) eqn:E1; [done|]. destruct (_ || negb _) eqn:E2; [done|]. intros [= <- <-].
  apply orb_false_iff in E1 as [E1 E1']. apply orb_false_iff in E2 as [E2 E2'']. apply orb_false_iff in E2 as [E2 E2'].
  apply negb_false_iff, Z.eqb_eq in E2''. pose proof (lookup_bytes_pos _ _ Ew) as Hw.
  assert (Hd : Forall (fun n => 0 <= n) dims).
  { apply Forall_forall. intros d Hin. pose proof (existsb_none _ _ _ Eb Hin) as Hz. cbn in Hz. lia. }
  destruct (extent_of_ok _ _ _ Ee ltac:(unfold MAX_DIMENSION; lia) Hd) as (Hr & Hn & Hz).
  assert (Hb : end_ - start = tensor_bytes (mkTensorSpec name dims dtype)).
  { unfold tensor_bytes; cbn [ts_dtype ts_shape]. rewrite Ew. destruct (existsb (Z.eqb 0) dims).
    - rewrite (Hz eq_refl). lia.
    - rewrite <- (Hn eq_refl). lia. }
  split; cbn [fst snd ts_filename declared_range range_size]; rewrite ?Eo; try done; [lia|].
  rewrite <- Hb. destruct (existsb (Z.eqb 0) dims); [unfold MAX_DIMENSION|]; lia.
Qed.

Lemma tensor_entries_ok name payload header ts ranges :
  tensor_entries name payload header = Ok (ts, ranges) ->
  Forall2 (fun kv t => kv.1 = t.1) header ts /\
  Forall2 (fun (kv : string * json * (string * TensorSpec)) r => described name payload kv.1.2 kv.2.2 r)
    (zip header ts) ranges.
Proof.
  revert ts ranges. induction header as [|kv header IH]; cbn [tensor_entries]; intros ts ranges H.
  - injection H as <- <-. split; constructor.
  - destruct (tensor_entry name payload kv) as [[t r]|] eqn:E; [|done].
    destruct (tensor_entries name payload header) as [[ts' rs']|] eqn:E'; [|done]. injection H as <- <-.
    destruct (IH _ _ eq_refl) as [H1 H2]. split; constructor; try done. by apply tensor_entry_ok in E.
Qed.

Lemma unique_NoDup l : unique l = true -> NoDup l.
Proof.
  induction l as [|k l IH]; cbn; [constructor|]. rewrite andb_true_iff, negb_true_iff. intros [Hk Hl].
  constructor; [|by apply IH]. unfold mem_str in Hk. by apply bool_decide_eq_false in Hk.
Qed.

Lemma hooks_unique integer kvs : hooks integer (JObj kvs) = Ok tt -> NoDup (keys kvs).
Proof.
  cbn. destruct (each _ kvs) as [[]|]; [|done]. intros H. apply invalid_if_ok, negb_false_iff in H. by apply unique_NoDup.
Qed.

Lemma assoc_unique k v kvs : NoDup (keys kvs) -> (k, v) ∈ kvs -> assoc k kvs = Some v.
Proof.
  unfold keys. induction kvs as [|[k' v'] kvs IH]; cbn; intros Hn Hin; [by apply elem_of_nil in Hin|].
  apply NoDup_cons in Hn as [Hk Hn]. apply elem_of_cons in Hin as [[= -> ->]|Hin]; [by rewrite String.eqb_refl|].
  destruct (String.eqb_spec k k') as [->|]; [|by apply IH].
  destruct Hk. apply list_elem_of_fmap. by exists (k', v).
Qed.

(** The tensors [ts] of a header and the ranges they declare divide a payload
    of [payload] bytes. *)
Record partitions (name : string) (header : list (string * json)) (payload : Z)
    (ts : list (string * TensorSpec)) (ranges : list (Z * Z)) : Prop := {
  pa_names : NoDup ts.*1;
  pa_tensors : forall k, k ∈ ts.*1 <-> k ∈ keys header /\ k <> "__metadata__";
  pa_described : Forall2 (fun t r => exists entry, assoc t.1 header = Some entry /\ described name payload entry t.2 r)
                   ts ranges;
  pa_once : forall offset, 0 <= offset < payload -> times_held offset ranges = 1;
  pa_total : sum_of (fun t => tensor_bytes t.2) ts = payload;
}.

Lemma zip_described name payload header kvs ts ranges :
  NoDup (keys header) -> kvs ⊆ header -> Forall2 (fun kv t => kv.1 = t.1) kvs ts ->
  Forall2 (fun (kv : string * json * (string * TensorSpec)) r => described name payload kv.1.2 kv.2.2 r)
    (zip kvs ts) ranges ->
  Forall2 (fun t r => exists entry, assoc t.1 header = Some entry /\ described name payload entry t.2 r) ts ranges.
Proof.
  intros Hn Hsub Hk. revert ranges. induction Hk as [|[k v] t kvs ts Hkt Hk IH]; cbn; intros ranges H.
  - inversion H. constructor.
  - inversion H as [|? r ? ranges' Hd H']; subst. cbn in *. subst. constructor.
    + exists v. split; [|done]. apply assoc_unique; [done|]. apply Hsub. by left.
    + apply IH; [|done]. intros x Hx. apply Hsub. by right.
Qed.

Lemma tensors_names (l : list (string * json)) (ts : list (string * TensorSpec)) :
  Forall2 (fun kv t => kv.1 = t.1) l ts -> ts.*1 = l.*1.
Proof. induction 1; cbn; congruence. Qed.

Lemma check_header_ok name payload header ts :
  NoDup (keys header) -> check_header name payload header = Ok ts -> exists ranges, partitions name header payload ts ranges.
Proof.
  unfold check_header. intros Hn. destruct (invalid_if _ _); [|done].
  destruct (tensor_entries _ _ _) as [[ts' ranges]|] eqn:E; [|done]. cbn [snd fst].
  destruct (contiguous 0 _) as [q|] eqn:Ec; [|done]. destruct (invalid_if (negb (q =? payload)) _) as [[]|] eqn:Eq; [|done].
  intros [= <-]. apply invalid_if_ok, negb_false_iff, Z.eqb_eq in Eq as ->.
  destruct (tensor_entries_ok _ _ _ _ _ E) as [H1 H2].
  set (kvs := List.filter _ header) in *.
  assert (Hsub : kvs ⊆ header). { intros x Hx. apply list_elem_of_In, filter_In in Hx as [Hx _]. by apply list_elem_of_In. }
  pose proof (zip_described _ _ _ _ _ _ Hn Hsub H1 H2) as Hd.
  pose proof (merge_sort_Permutation interval_le ranges) as Hp.
  assert (Hr : Forall (fun r => r.1 <= r.2) (merge_sort interval_le ranges)).
  { rewrite Hp. apply Forall_forall. intros r Hin. apply list_elem_of_lookup in Hin as [i Hi].
    destruct (Forall2_lookup_r _ _ _ _ _ Hd Hi) as (t & _ & entry & _ & De). pose proof (de_inside _ _ _ _ _ De). lia. }
  destruct (contiguous_ok _ _ _ Ec Hr) as (_ & Hs & Hh).
  exists ranges. pose proof (tensors_names _ _ H1) as Hnames. split.
  - rewrite Hnames. unfold kvs. clear -Hn. unfold keys in Hn. induction header as [|kv header IH]; cbn; [constructor|].
    apply NoDup_cons in Hn as [Hk Hn]. destruct (negb _); [|by apply IH]. cbn. constructor; [|by apply IH].
    intros Hin. apply Hk. apply list_elem_of_fmap in Hin as (x & -> & Hx). apply list_elem_of_In, filter_In in Hx as [Hx _].
    apply list_elem_of_fmap. exists x. split; [done|]. by apply list_elem_of_In.
  - intros k. rewrite Hnames. unfold kvs, keys. rewrite !list_elem_of_fmap. unfold is_metadata. split.
    + intros (x & -> & Hx). apply list_elem_of_In, filter_In in Hx as [Hx Hm]. apply negb_true_iff, String.eqb_neq in Hm.
      split; [|done]. exists x. split; [done|]. by apply list_elem_of_In.
    + intros [(x & -> & Hx) Hm]. exists x. split; [done|]. apply list_elem_of_In, filter_In. split; [by apply list_elem_of_In|].
      by apply negb_true_iff, String.eqb_neq.
  - done.
  - intros o Ho. unfold times_held. rewrite <- (sum_of_perm _ _ _ Hp). specialize (Hh o). unfold times_held in Hh. rewrite Hh.
    unfold holds; cbn. destruct (0 <=? o) eqn:?, (o <? payload) eqn:?; cbn; lia.
  - rewrite (sum_of_Forall2 _ range_size ts' ranges); [|].
    + rewrite <- (sum_of_perm _ _ _ Hp), Hs. lia.
    + eapply Forall2_impl; [exact Hd|]. intros t r (entry & _ & De). by rewrite (de_size _ _ _ _ _ De).
Qed.

(** ** Shards and directories *)
Lemma set_insert_sorted s l : StronglySorted str_lt l -> StronglySorted str_lt (set_insert s l).
Proof.
  induction 1 as [|x l Hs IH Hall]; cbn; [repeat constructor|]. destruct (String.compare s x) eqn:E.
  - by constructor.
  - constructor; [by constructor|]. constructor; [done|]. eapply Forall_impl; [exact Hall|]. intros y Hy.
    by apply (transitivity (y := x)).
  - constructor; [done|]. apply Forall_forall. intros y Hy. apply elem_of_set_insert in Hy as [->|Hy].
    + by apply compare_gt.
    + by eapply Forall_forall in Hy; [|exact Hall].
Qed.

Lemma sorted_set_NoDup l : NoDup (sorted_set l).
Proof.
  assert (H : StronglySorted str_lt (sorted_set l)).
  { induction l as [|s l IH]; cbn; [constructor|]. by apply set_insert_sorted. }
  induction H as [|s l' Hs IH Hall]; constructor; [|done]. intros Hin. eapply Forall_forall in Hin; [|exact Hall].
  by apply (irreflexivity str_lt s).
Qed.

Section Directories.
Context (loads : string -> result json).

(** The bytes of a shard after its header. *)
Definition payload_of (contents : string) : Z := utf8_len contents - 8 - little_endian (String.substring 0 8 contents).
Definition header_of (contents : string) : string :=
  String.substring 8 (Z.to_nat (little_endian (String.substring 0 8 contents))) contents.

(** A shard whose bytes the tensors [ts] divide. *)
Definition divided (name contents : string) (ts : list (string * TensorSpec)) : Prop :=
  exists header ranges, loads (header_of contents) = Ok (JObj header) /\ 0 <= payload_of contents /\
    partitions name header (payload_of contents) ts ranges.

Lemma read_header_ok name contents ts : read_header loads name contents = Ok ts -> divided name contents ts.
Proof.
  unfold read_header, divided. fold (header_of contents). fold (payload_of contents).
  destruct (utf8_len contents <? 8); [done|]. destruct (_ || (_ <? little_endian _)) eqn:Es; [done|].
  apply orb_false_iff in Es as [_ Es]. apply Z.ltb_ge in Es.
  destruct (negb _); [done|]. destruct (loads (header_of contents)) as [v|e]; [|by destruct (is_value_error e)].
  destruct (hooks float_in_range v) as [[]|e] eqn:Eh; [|by destruct (is_value_error e)].
  destruct (_validate_json MAX_JSON_DEPTH v) as [|e]; [|by destruct (is_value_error e)].
  destruct v as [| | | | | |header]; try done. intros H.
  destruct (check_header_ok _ _ _ _ (hooks_unique _ _ Eh) H) as [ranges Hp].
  exists header, ranges. split; [done|]. split; [|exact Hp]. unfold payload_of. lia.
Qed.

Lemma divided_names name contents ts : divided name contents ts -> forall t, t ∈ ts -> ts_filename t.2 = name.
Proof.
  intros (header & ranges & _ & _ & H) t Ht. apply list_elem_of_lookup in Ht as [i Hi].
  destruct (Forall2_lookup_l _ _ _ _ _ (pa_described _ _ _ _ _ H) Hi) as (r & _ & entry & _ & De).
  exact (de_file _ _ _ _ _ De).
Qed.

Lemma add_tensors_ok known new found :
  add_tensors known new = Ok found -> NoDup known.*1 -> found = known ++ new /\ NoDup found.*1.
Proof.
  revert known. induction new as [|[k t] new IH]; cbn; intros known H Hn.
  - injection H as <-. by rewrite app_nil_r.
  - unfold mem_str in H. destruct (bool_decide_reflect (k ∈ known.*1)) as [|Hk]; [done|].
    destruct (IH _ H) as [-> Hf].
    + rewrite fmap_app. apply NoDup_app. split; [done|]. split; [|apply NoDup_singleton].
      intros x Hx. cbn. rewrite list_elem_of_singleton. congruence.
    + by rewrite <- app_assoc in *.
Qed.

Lemma read_shards_ok root files known found :
  read_shards loads root known files = Ok found -> NoDup known.*1 ->
  NoDup found.*1 /\ exists parts, found = known ++ List.concat parts /\
    Forall2 (fun f ts => exists contents, root !! f = Some (Regular contents) /\ divided f contents ts) files parts.
Proof.
  revert known. induction files as [|f files IH]; cbn; intros known H Hn.
  - injection H as <-. split; [done|]. exists []. cbn. rewrite app_nil_r. split; [done|constructor].
  - destruct (_file root f) as [contents|] eqn:Ef; [|done]. destruct (read_header loads f contents) as [ts|] eqn:Eh; [|done].
    destruct (add_tensors known ts) as [known'|] eqn:Ea; [|done]. destruct (add_tensors_ok _ _ _ Ea Hn) as [-> Hn'].
    destruct (IH _ H Hn') as (Hf & parts & -> & Hp). split; [done|]. exists (ts :: parts). cbn. rewrite <- app_assoc.
    split; [done|]. constructor; [|done]. exists contents. split; [|by apply read_header_ok].
    unfold _file in Ef. destruct (root !! f) as [[]|]; try done. congruence.
Qed.

(** The tensors stored in one shard. *)
Definition stored_in (f : string) (ts : list (string * TensorSpec)) : list (string * TensorSpec) :=
  List.filter (fun t => String.eqb (ts_filename t.2) f) ts.

Lemma stored_in_app f l1 l2 : stored_in f (l1 ++ l2) = stored_in f l1 ++ stored_in f l2.
Proof. apply List.filter_app. Qed.

Lemma stored_in_all f l : (forall t, t ∈ l -> ts_filename t.2 = f) -> stored_in f l = l.
Proof.
  induction l as [|t l IH]; intros H; cbn; [done|]. rewrite (H t) by left. rewrite String.eqb_refl.
  f_equal. apply IH. intros u Hu. apply H. by right.
Qed.

Lemma stored_in_none f l : (forall t, t ∈ l -> ts_filename t.2 <> f) -> stored_in f l = [].
Proof.
  induction l as [|t l IH]; intros H; cbn; [done|]. rewrite (proj2 (String.eqb_neq _ _)) by (apply H; left).
  apply IH. intros u Hu. apply H. by right.
Qed.

Lemma stored_parts files parts f ts i :
  NoDup files -> Forall2 (fun f ts => forall t, t ∈ ts -> ts_filename t.2 = f) files parts ->
  files !! i = Some f -> parts !! i = Some ts -> stored_in f (List.concat parts) = ts.
Proof.
  intros Hn H. revert i. induction H as [|g us files parts Hg H IH]; intros i Hf Ht; [done|].
  apply NoDup_cons in Hn as [Hgf Hn]. destruct i as [|i]; cbn in Hf, Ht; cbn [List.concat].
  - injection Hf as ->. injection Ht as ->. rewrite stored_in_app, stored_in_all by done.
    rewrite stored_in_none; [apply app_nil_r|]. intros t Ht Hft. apply Hgf. apply list_elem_of_In, in_concat in Ht as (l & Hl & Ht).
    apply list_elem_of_In, list_elem_of_lookup in Hl as [j Hj]. destruct (Forall2_lookup_r _ _ _ _ _ H Hj) as (f' & Hf' & Hall).
    rewrite <- Hft, (Hall t) by (by apply list_elem_of_In). by eapply list_elem_of_lookup_2.
  - rewrite stored_in_app, (IH Hn i Hf Ht). rewrite stored_in_none; [done|]. intros t Htg Hft. rewrite (Hg t Htg) in Hft. subst.
    apply Hgf. by eapply list_elem_of_lookup_2.
Qed.

Lemma shards_of_NoDup root files index expected : shards_of loads root = Ok (files, index, expected) -> NoDup files.
Proof.
  unfold shards_of. destruct (_ || _).
  - destruct (_file _ _); [|done]. destruct (read_json _ _) as [d|]; [|done].
    destruct (get_or_none d _) as [| | | | | |[|]]; try done. destruct (expected_entries _) as [e|]; [|done].
    destruct (_ && _); [done|]. intros [= <- _ _]. apply sorted_set_NoDup.
  - destruct (_ || _); [|done]. intros [= <- _ _]. apply NoDup_singleton.
Qed.

(** C25.  In an accepted checkpoint directory every tensor has a name of its
    own and one shard, and the tensors of each shard divide the bytes of its
    file after the header: at the ranges the header declares, each as long as
    the shape and the type of its tensor say (and short enough for a signed
    64-bit size), every byte of the payload belongs to exactly one tensor. *)
Theorem checkpoint_divided root l :
  discover loads root = Ok l ->
  tensors l <> [] /\ NoDup (tensors l).*1 /\
  (forall t, t ∈ tensors l -> ts_filename t.2 ∈ weight_files l) /\
  (forall f, f ∈ weight_files l -> exists contents,
     root !! f = Some (Regular contents) /\ divided f contents (stored_in f (tensors l))).
Proof.
  unfold discover. destruct (_file _ _); [|done]. destruct (read_json _ _) as [c|]; [|done].
  destruct (shards_of loads root) as [[[files index] expected]|] eqn:Es; [|done]. cbn [fst snd].
  destruct (read_shards loads root [] files) as [found|] eqn:Er; [|done].
  destruct (invalid_if _ _) as [[]|] eqn:Ee; [|done]. apply invalid_if_ok, Nat.eqb_neq in Ee.
  destruct (match expected with Some _ => _ | None => _ end); [|done]. intros [= <-]. cbn [tensors weight_files].
  destruct (read_shards_ok _ _ _ _ Er) as (Hn & parts & -> & Hp); [constructor|]. cbn [app] in *.
  assert (Hf : Forall2 (fun f ts => forall t, t ∈ ts -> ts_filename t.2 = f) files parts).
  { eapply Forall2_impl; [exact Hp|]. intros f ts (contents & _ & Hd). by eapply divided_names. }
  split_and!; [by intros H; rewrite H in Ee|done| |].
  - intros t Ht. apply list_elem_of_In, in_concat in Ht as (ts & Hts & Ht).
    apply list_elem_of_In, list_elem_of_lookup in Hts as [i Hi]. destruct (Forall2_lookup_r _ _ _ _ _ Hf Hi) as (f & Hi' & Hall).
    rewrite (Hall t) by (by apply list_elem_of_In). by eapply list_elem_of_lookup_2.
  - intros f Hin. apply list_elem_of_lookup in Hin as [i Hi]. destruct (Forall2_lookup_l _ _ _ _ _ Hp Hi) as (ts & Hi' & contents & Hc & Hd).
    exists contents. split; [done|]. by rewrite (stored_parts _ _ _ _ _ (shards_of_NoDup _ _ _ _ Es) Hf Hi Hi').
Qed.
End Directories.

(** ** A directory *)
Definition text_of (doc : json) : string := match dumps (fun _ => "") doc with Some s => s | None => "" end.
(** A reader that knows the texts of some documents. *)
Definition known_loads (docs : list json) (text : string) : result json :=
  match List.find (fun doc => String.eqb (text_of doc) text) docs with
  | Some doc => Ok doc
  | None => Err (ValueError "not a JSON document")
  end.

Fixpoint le_bytes (n : nat) (z : Z) : string :=
  match n with O => "" | S n' => String (ascii_of_N (Z.to_N (z mod 256))) (le_bytes n' (z / 256)) end.

Definition shard_header : json := JObj [
  ("weight", JObj [("dtype", JStr "F32"); ("shape", JList [JInt 1; JInt 2]); ("data_offsets", JList [JInt 3; JInt 11])]);
  ("empty", JObj [("dtype", JStr "I64"); ("shape", JList [JInt 0; JInt 7]); ("data_offsets", JList [JInt 3; JInt 3])]);
  ("__metadata__", JObj [("format", JStr "pt")]);
  ("bias", JObj [("dtype", JStr "U8"); ("shape", JList [JInt 3]); ("data_offsets", JList [JInt 0; JInt 3])])].
Definition shard : string :=
  le_bytes 8 (utf8_len (text_of shard_header)) +:+ text_of shard_header +:+ "elevenbytes".
Definition a_model : gmap string Entry :=
  <[CONFIG_FILE := Regular (text_of (JObj [("layers", JInt 2)]))]> {[MODEL_FILE := Regular shard]}.
Definition reader : string -> result json := known_loads [JObj [("layers", JInt 2)]; shard_header].

Definition found_layout : CheckpointLayout := mkCheckpointLayout [("layers", JInt 2)] [MODEL_FILE] None
  [("weight", mkTensorSpec MODEL_FILE [1; 2] "F32"); ("empty", mkTensorSpec MODEL_FILE [0; 7] "I64");
   ("bias", mkTensorSpec MODEL_FILE [3] "U8")] "safetensors".

Lemma checkpoint_divided_witness :
  discover reader a_model = Ok found_layout /\
  exists contents, a_model !! MODEL_FILE = Some (Regular contents) /\ divided reader MODEL_FILE contents (tensors found_layout).
Proof.
  assert (H : discover reader a_model = Ok found_layout) by (vm_compute; reflexivity).
  split; [exact H|]. destruct (checkpoint_divided reader a_model found_layout H) as (_ & _ & _ & Hf).
  apply (Hf MODEL_FILE). by left.
Defined.
