(* ===== verification/Listener.v ===== *)
(** * The durable listener

    [hf2l.listener.engine]: the state document of a polling worker, its
    validation when it is opened again, and the save before and after every
    step.  One world holds the state directory, the lock on it, and the memory
    of the listener that holds the lock; a process may die at any point where
    it touches the directory or calls out.  Keys of documents are compared
    without regard to their order, as everything that reads them does. *)

From stdpp Require Import base gmap strings list.
From Stdlib Require Import ZArith Lia QArith Ascii String.
From S2P Require Import Prelude Json Domain Protocol.
Import Protocol.
Open Scope Z_scope.
Open Scope py_scope.

(** ** State documents *)

(** The object [self.state].  [st_extra] holds the keys a saved document may
    have beyond those of version one: they are kept.  A job is a JSON object. *)
Record State := mkState {
  st_identity : json;
  st_completed : Z;
  st_active : option string;
  st_jobs : list (string * json);
  st_extra : list (string * json);
}.
#[global] Instance eta_State : Eta State := fun r =>
  mkState (st_identity r) (st_completed r) (st_active r) (st_jobs r) (st_extra r).

Definition state_keys : list string := ["schema_version"; "identity"; "completed_round"; "active"; "jobs"].

Definition state_doc (s : State) : list (string * json) :=
  [("schema_version", JInt 1); ("identity", st_identity s); ("completed_round", JInt (st_completed s));
   ("active", opt_str (st_active s)); ("jobs", JObj (st_jobs s))] ++ st_extra s.

(** The class attributes of a workflow: its statuses. *)
Record Workflow := mkWorkflow {
  statuses : list string;
  terminal_statuses : list string;
  success_status : string;
  round_optional_statuses : list string;
  uncertain_statuses : list string;
}.

Definition state_error {A} (message : string) : result A := Err (ListenerStateError message).
Definition state_error_if (c : bool) (message : string) : result unit := if c then state_error message else Ok tt.

Definition status_in (l : list string) (v : json) : bool := match v with JStr s => mem_str s l | _ => false end.
Definition is_round (v : json) : bool := match v with JInt n => 0 <=? n | _ => false end.

(** The checks of one job of [_validate_state]. *)
Definition validate_job (k : Workflow) (completed : Z) (entry : string * json) : result unit :=
  match entry with
  | (revision, JObj job) =>
      let status := get_or_none job "status" in
      let source_round := get_or_none job "source_round" in
      let? _ := state_error_if (String.eqb revision "" || negb (py_eqb (get_or_none job "revision") (JStr revision))
                                || negb (status_in (statuses k) status)) "Malformed listener job" in
      let? _ := state_error_if (negb (is_none source_round) && negb (is_round source_round)) "Malformed listener round" in
      let? _ := state_error_if (is_none source_round && negb (status_in (round_optional_statuses k) status))
                  "Listener job is missing its round" in
      if py_eqb status (JStr (success_status k)) then
        match source_round with
        | JInt n => state_error_if (completed <? n) "Listener completion record is inconsistent"
        | _ => Err TypeError
        end
      else Ok tt
  | _ => state_error "Malformed listener job"
  end.

(** The status of a job as written. *)
Definition job_status_of (job : json) : json := match job with JObj d => get_or_none d "status" | _ => JNull end.

(** The revisions of the jobs that are not finished, in order. *)
Definition nonterminal (k : Workflow) (jobs : list (string * json)) : list string :=
  map fst (List.filter (fun kv => negb (status_in (terminal_statuses k) (job_status_of kv.2))) jobs).

(** [_validate_state]: the checks, and the document as a [State].  A document
    without an ["active"] key passes, and then fails where it is read. *)
Definition validate_state (k : Workflow) (identity : json) (state : list (string * json)) : result State :=
  let? _ := state_error_if (negb (match get_or_none state "schema_version" with JInt n => n =? 1 | _ => false end
                                  && py_eqb (get_or_none state "identity") identity))
              "Listener state belongs to a different role, source, participant or workflow configuration" in
  match get_or_none state "completed_round", get_or_none state "jobs" with
  | JInt completed, JObj jobs =>
      let? _ := state_error_if (completed <? -1) "Malformed listener state" in
      let? _ := each (validate_job k completed) jobs in
      let active := get_or_none state "active" in
      let? active := (match active with
                      | JNull => Ok None
                      | JStr a => if has_key a jobs then Ok (Some a) else state_error "Malformed active listener job"
                      | _ => state_error "Malformed active listener job"
                      end) in
      let? _ := state_error_if (negb (bool_decide (nonterminal k jobs = match active with Some a => [a] | None => [] end)))
                  "Listener active job is inconsistent" in
      if negb (has_key "active" state) then Err KeyError else
      Ok (mkState (get_or_none state "identity") completed active jobs
            (List.filter (fun kv => negb (mem_str kv.1 state_keys)) state))
  | _, _ => state_error "Malformed listener state"
  end.

(** ** The listener and its site *)

(** What the constructor keeps of a listener. *)
Record Config := mkConfig {
  cf_name : string;        (* the object itself *)
  cf_identity : json;
  cf_repo : string;
  cf_reference : string;
  cf_participant : string;
  cf_options : json;
}.
#[global] Instance config_eq_dec : EqDecision Config.
Proof. solve_decision. Defined.

(** What becomes of a change of the directory: it is made, or an exception or
    the end of the process comes before or after it. *)
Inductive Fate :=
  | Made
  | Before (e : exn)
  | After (e : exn).

(** What the listener calls and does not define, at its [n]-th call: the file
    system, the callback, the model store, the training plugin and the
    checkpoint files of a job. *)
Class Site := {
  fate : N -> Fate;
  on_event : N -> string -> result unit;
  store_name : string;
  resolve_reference : N -> Config -> result json;
  download_round_file : N -> string -> result json;
  download_client_round : N -> string -> result (list (string * json));
  base_files : N -> string -> result json;
  train_model : N -> string -> json -> result json;
  trained_files : N -> string -> result json;
  upload_client_update : N -> string -> Z -> json -> result json;
}.

(** What is recorded of the outside: an upload was started for a revision; an
    operator authorized another one. *)
Inductive Audit :=
  | Uploaded (revision : string)
  | Authorized (revision : string).

#[global] Instance audit_eq_dec : EqDecision Audit.
Proof. solve_decision. Defined.

(** The state directory ([state.json] with the document it holds or why it
    cannot be read, the job directories, their saved contexts and training
    results), the holder of the lock with its [self.state], and the record. *)
Record Place := mkPlace {
  disk : option (result (list (string * json)));
  job_dirs : list string;
  contexts : gmap string (list (string * json));
  training_results : gmap string (list (string * json));
  holder : option Config;
  memory : option State;
  audit : list Audit;
  tick : N;
}.
#[global] Instance eta_Place : Eta Place := fun r =>
  mkPlace (disk r) (job_dirs r) (contexts r) (training_results r) (holder r) (memory r) (audit r) (tick r).


Section Listener.
Context {T : Site} {P : Platform}.

(** One call out. *)
Definition consult {A} (answer : N -> A) : M Place A :=
  fun w => (Ok (answer (tick w)), w <| tick := (tick w + 1)%N |>).
Definition call {A} (answer : N -> result A) : M Place A := let* r := consult answer in lift r.

(** One change [f] of the directory. *)
Definition change (f : Place -> Place) : M Place unit :=
  let* made := consult fate in
  match made with
  | Made => modify f
  | Before e => throw e
  | After e => modify f ;; throw e
  end.

Definition raise_state {A} (message : string) : M Place A := throw (ListenerStateError message).

(** [_require_open] *)
Definition require_open (c : Config) : M Place unit :=
  let* w := gets id in
  match holder w, memory w with
  | Some h, Some _ => if decide (h = c) then ret tt else raise_state "Use the listener as a context manager"
  | _, _ => raise_state "Use the listener as a context manager"
  end.

(** [self.state] *)
Definition the_state : M Place State :=
  let* o := gets memory in match o with Some s => ret s | None => throw TypeError end.
Definition set_state (f : State -> State) : M Place unit := modify (fun w => w <| memory ::= option_map f |>).

(** [job[key]] and [job[key] = value] on the job of a revision. *)
Definition job_of (s : State) (revision : string) : option (list (string * json)) :=
  match assoc revision (st_jobs s) with Some (JObj d) => Some d | _ => None end.
Definition job_item (revision key : string) : M Place json :=
  let* s := the_state in
  match job_of s revision with
  | Some d => match assoc key d with Some v => ret v | None => throw KeyError end
  | None => throw TypeError
  end.
Definition with_job (revision : string) (f : list (string * json) -> list (string * json)) (s : State) : State :=
  match job_of s revision with
  | Some d => s <| st_jobs := assoc_set revision (JObj (f d)) (st_jobs s) |>
  | None => s
  end.

(** [_emit] *)
Definition emit (event : string) : M Place unit := call (fun n => on_event n event).

(** [_save]: [write_json] replaces the file as a whole. *)
Definition save : M Place unit :=
  catch
    (let* s := the_state in
     let* _ := lift (json_bytes (JObj (state_doc s))) in
     change (fun w => w <| disk := Some (Ok (state_doc s)) |>))
    (fun e => match e with
              | OSError => raise_state "Cannot persist listener state; preserve it for recovery"
              | _ => if is_value_error e then raise_state "Cannot persist listener state; preserve it for recovery"
                     else throw e
              end).

Definition set_status (revision status : string) : M Place unit :=
  set_state (with_job revision (assoc_set "status" (JStr status))) ;; save.

(** [_finish] *)
Definition finish (k : Workflow) (revision status : string) (fields : list (string * json)) : M Place unit :=
  set_state (with_job revision (fun d => merge_dicts d (("status", JStr status) :: fields))) ;;
  when (String.eqb status (success_status k))
    (let* source_round := job_item revision "source_round" in
     let* n := lift (as_int source_round) in
     set_state (fun s => s <| st_completed := Z.max (st_completed s) n |>)) ;;
  set_state (fun s => s <| st_active := None |>) ;;
  save ;;
  emit status.

(** [__exit__] *)
Definition leave_session (c : Config) : M Place unit :=
  modify (fun w => if decide (holder w = Some c) then w <| holder := None |> <| memory := None |> else w).

(** The part of [__enter__] under the lock. *)
Definition open_state (k : Workflow) (c : Config) : M Place unit :=
  let* w := gets id in
  match disk w with
  | Some contents =>
      let* doc := (match contents with
                   | Ok doc => ret doc
                   | Err e => if is_value_error e then raise_state "Cannot read listener state; preserve it for recovery"
                              else throw e
                   end) in
      let* s := lift (validate_state k (cf_identity c) doc) in
      modify (fun w => w <| memory := Some s |>)
  | None =>
      throw_if (negb (bool_decide (job_dirs w = [])))
        (ListenerStateError "Job artifacts exist without state.json; restore the saved state") ;;
      modify (fun w => w <| memory := Some (mkState (cf_identity c) (-1) None [] []) |>) ;;
      save
  end ;;
  change id ;;
  let* s := the_state in
  match st_active s with
  | Some active =>
      let* status := job_item active "status" in
      when (py_eqb status (JStr "publishing")) (set_status active "uncertain")
  | None => ret tt
  end.

(** [__enter__] *)
Definition enter (k : Workflow) (c : Config) : M Place unit :=
  let* w := gets id in
  throw_if (bool_decide (holder w = Some c)) (ListenerStateError "Listener is already open") ;;
  change id ;;
  throw_if (bool_decide (is_Some (holder w))) (ListenerStateError "Another listener owns this state directory") ;;
  modify (fun w => w <| holder := Some c |>) ;;
  catch (open_state k c) (fun e => leave_session c ;; throw e).

(** ** [run] *)

(** [time.sleep], which a signal may end. *)
Definition pause : M Place unit := change id.

Definition Qmin_py (a b : Q) : Q := if Qle_bool a b then a else b.

(** [run] polls until it may stop; [None] after [fuel] polls without an end.
    Delays are finite floats: doubling one is exact, and so is the minimum. *)
Fixpoint run_loop (poll : M Place string) (k : Workflow) (once : bool) (max_rounds : option Z)
    (poll_interval max_backoff : Q) (fuel : nat) (completed : Z) (delay : Q) : M Place (option Z) :=
  match fuel with
  | O => ret None
  | S fuel' =>
      let* outcome := catch (let* o := poll in ret (Some o))
        (fun e => match e with
                  | UncertainOperation _ | ListenerStateError _ => throw e
                  | _ => if negb (is_exception e) || once then throw e
                         else emit "retry" ;; pause ;; ret None
                  end) in
      match outcome with
      | None => run_loop poll k once max_rounds poll_interval max_backoff fuel' completed (Qmin_py (delay * 2) max_backoff)
      | Some o =>
          let completed := completed + Z.b2z (String.eqb o (success_status k)) in
          if once || match max_rounds with Some m => m <=? completed | None => false end then ret (Some completed)
          else pause ;; run_loop poll k once max_rounds poll_interval max_backoff fuel' completed poll_interval
      end
  end.

Definition run (c : Config) (poll : M Place string) (k : Workflow) (once : bool) (max_rounds : option Z)
    (poll_interval max_backoff : Q) (fuel : nat) : M Place (option Z) :=
  require_open c ;;
  throw_if (Qle_bool poll_interval 0 || negb (Qle_bool poll_interval max_backoff))
    (ValueError "Poll interval must be positive and max backoff at least the poll interval") ;;
  throw_if (match max_rounds with Some m => m <=? 0 | None => false end)
    (ValueError "max_rounds must be a positive integer") ;;
  run_loop poll k once max_rounds poll_interval max_backoff fuel 0 poll_interval.
End Listener.
