(* ===== verification/ClientListener.v ===== *)
(** * The training listener

    [hf2l.listener.client.ClientListener] with the stages of
    [hf2l.listener.workflow] it runs: one poll resolves the published
    reference, starts a job for a revision it has not seen, downloads, trains
    and submits, saving the status of the job before each stage; an interrupted
    submission waits for an operator.  The stages read the saved context and
    training result of a job; what they read of checkpoint files comes from the
    site. *)

From stdpp Require Import base gmap strings list.
From Stdlib Require Import ZArith Lia Ascii String.
From S2P Require Import Prelude Json Domain Protocol Listener.
Import Protocol.
Open Scope Z_scope.
Open Scope py_scope.

Definition client_workflow : Workflow := mkWorkflow
  ["pending"; "downloading"; "training"; "ready"; "publishing"; "uncertain"; "submitted"; "skipped"]
  ["submitted"; "skipped"] "submitted" ["pending"; "downloading"] ["publishing"; "uncertain"].

(** ** Texts of the engine *)

(** [str.isspace] of a code point. *)
Definition is_space (cp : Z) : bool :=
  ((9 <=? cp) && (cp <=? 13)) || ((28 <=? cp) && (cp <=? 32)) || (cp =? 133) || (cp =? 160) || (cp =? 5760)
  || ((8192 <=? cp) && (cp <=? 8202)) || (cp =? 8232) || (cp =? 8233) || (cp =? 8239) || (cp =? 8287) || (cp =? 12288).

(** [value.strip() and value == value.strip()]: nonempty, no space at an end. *)
Definition unspaced (s : string) : bool :=
  match code_points (chars s) 0 0 with
  | [] => false
  | cp :: cps => negb (is_space cp) && negb (is_space (List.last cps cp))
  end.

(** [hf2l.listener.engine._text] *)
Definition engine_text (value : json) : result string :=
  match value with
  | JStr s =>
      if negb (unspaced s) then state_error "must be nonempty without surrounding whitespace"
      else if (4096 <? py_len s) || any_char (fun c => (byte_of c <? 32) || (byte_of c =? 127)) s
      then state_error "Invalid text" else Ok s
  | _ => state_error "must be nonempty without surrounding whitespace"
  end.

Section Client.
Context {T : Site} {P : Platform}.

(** ** Stages of a job, from [hf2l.listener.workflow] *)

(** [_json_metadata]: the value is a JSON tree, so what is left to check is that
    it is an object and that its numbers are finite. *)
Definition _json_metadata (value : json) : result (list (string * json)) :=
  match value with
  | JObj d => let? _ := json_bytes value in Ok d
  | _ => Err (ValueError "Training metadata must be a JSON object")
  end.

Definition _example_count (value : json) : result Z :=
  match value with
  | JInt n => if n <=? 0 then Err (ValueError "train_model must return a positive integer num_examples") else Ok n
  | _ => Err (ValueError "train_model must return a positive integer num_examples")
  end.

(** [read_json] of a file the listener wrote. *)
Definition read_saved (files : Place -> gmap string (list (string * json))) (revision : string)
    : M Place (list (string * json)) :=
  let* w := gets id in
  match files w !! revision with
  | Some d => ret d
  | None => throw (ValueError "Required file is missing")
  end.

Definition read_context (revision : string) : M Place ClientContext :=
  let* d := read_saved contexts revision in lift (context_from_dict (JObj d)).

(** [_validate_base]: the context, and the hashes of the files it names. *)
Definition _validate_base (revision : string) : M Place (ClientContext * json) :=
  let* context := read_context revision in
  throw_if (negb (String.eqb (cc_base_model_dir context) "base_model"))
    (ValueError "Listener context must use the downloaded base_model directory") ;;
  let* hashes := call (fun n => base_files n revision) in
  let expected := get_or_none (cc_wire context) "listener_base_files_sha256" in
  throw_if (negb (is_none expected) && negb (py_eqb expected hashes))
    (ValueError "Checkpoint checksum mismatch in saved listener base files") ;;
  ret (context, hashes).

Definition _validate_submission_metadata (revision participant : string) (num_examples : Z) (training : json) : M Place unit :=
  let* context := read_context revision in
  let* _ := lift (submission_from_dict (JObj [
    ("schema_version", JInt (cc_schema_version context)); ("backend", JStr (cc_backend context));
    ("repo_id", JStr (cc_repo_id context)); ("base_revision", JStr (cc_base_revision context));
    ("source_round", JInt (cc_source_round context)); ("participant", JStr participant);
    ("num_examples", JInt num_examples); ("training", training)])) in
  ret tt.

Definition without (key : string) (d : list (string * json)) : list (string * json) :=
  List.filter (fun kv => negb (String.eqb kv.1 key)) d.

(** [download_round] *)
Definition download_round (revision : string) : M Place (list (string * json)) :=
  let* context := call (fun n => download_client_round n revision) in
  change (fun w => w <| contexts ::= <[revision := context]> |>) ;;
  match assoc "base_revision" context with
  | None => throw KeyError
  | Some base =>
      throw_if (negb (py_eqb base (JStr revision)))
        (ValueError "Listener download rebound the scheduled immutable revision") ;;
      let* checked := _validate_base revision in
      let context := assoc_set "listener_base_files_sha256" checked.2 context in
      change (fun w => w <| contexts ::= <[revision := context]> |>) ;;
      ret context
  end.

(** [train_round] *)
Definition train_round (c : Config) (revision : string) : M Place (list (string * json)) :=
  let* before := _validate_base revision in
  let* trained := call (fun n => train_model n revision (cf_options c)) in
  let* metadata := lift (_json_metadata trained) in
  let* after := _validate_base revision in
  throw_if (negb (py_eqb (JObj (cc_wire after.1)) (JObj (cc_wire before.1)) && py_eqb after.2 before.2))
    (ValueError "Training modified the saved base model or client context") ;;
  let* num_examples := lift (_example_count (get_or_none metadata "num_examples")) in
  let metadata := without "num_examples" metadata in
  _validate_submission_metadata revision (cf_participant c) num_examples (JObj metadata) ;;
  let* hashes := call (fun n => trained_files n revision) in
  ret [("num_examples", JInt num_examples); ("training", JObj metadata); ("checkpoint_files_sha256", hashes)].

(** [validate_artifact_hashes] against the hashes of the files. *)
Definition validate_artifact_hashes (expected hashes : json) : result unit :=
  match expected with
  | JObj ((_ :: _) as d) =>
      if negb (forallb (fun kv => is_str kv.2) d) || negb (py_eqb expected hashes)
      then Err (ValueError "Checkpoint checksum mismatch") else Ok tt
  | _ => Err (ValueError "missing checkpoint_files_sha256")
  end.

(** [validate_submission] *)
Definition validate_submission (c : Config) (revision : string) (metadata : list (string * json)) : M Place unit :=
  let* metadata := lift (_json_metadata (JObj metadata)) in
  let* num_examples := lift (_example_count (get_or_none metadata "num_examples")) in
  let* training := lift (_json_metadata (get_or_none metadata "training")) in
  let* _ := _validate_base revision in
  _validate_submission_metadata revision (cf_participant c) num_examples (JObj training) ;;
  let* hashes := call (fun n => trained_files n revision) in
  lift (validate_artifact_hashes (get_or_none metadata "checkpoint_files_sha256") hashes).

(** [submit_round]; the upload is recorded as it starts. *)
Definition submit_round (c : Config) (revision : string) (metadata : list (string * json)) : M Place json :=
  let* metadata := lift (_json_metadata (JObj metadata)) in
  validate_submission c revision metadata ;;
  let* num_examples := lift (_example_count (get_or_none metadata "num_examples")) in
  modify (fun w => w <| audit ::= cons (Uploaded revision) |>) ;;
  call (fun n => upload_client_update n revision num_examples (get_or_none metadata "training")).

(** ** One poll *)
Definition _current_revision (c : Config) : M Place string :=
  let* revision := call (fun n => resolve_reference n c) in lift (engine_text revision).

(** [_round_metadata] *)
Definition _round_metadata (revision : string) : M Place Z :=
  let* file := call (fun n => download_round_file n revision) in
  let* document := lift (round_from_dict file) in
  throw_if ((2 <=? rr_schema_version document)
            && negb (py_eqb (get_or_none (rr_wire document) "backend") (JStr store_name)))
    (ValueError "Published round declares a different backend") ;;
  ret (rr_round document).

(** [_is_current]: [false] when the job was skipped. *)
Definition _is_current (c : Config) (revision : string) : M Place bool :=
  let* current := _current_revision c in
  let* scheduled := job_item revision "revision" in
  if py_eqb (JStr current) scheduled then ret true
  else finish client_workflow revision "skipped" [("reason", JStr "reference_advanced")] ;; ret false.

(** [_check_context] *)
Definition _check_context (c : Config) (revision : string) : M Place unit :=
  let* context := catch (read_context revision)
    (fun e => if is_value_error e then raise_state "Saved listener context is invalid; preserve the job for recovery"
              else throw e) in
  let* scheduled := job_item revision "revision" in
  let* source_round := job_item revision "source_round" in
  throw_if (negb (String.eqb (cc_backend context) store_name && String.eqb (cc_repo_id context) (cf_repo c)
                  && py_eqb (JStr (cc_base_revision context)) scheduled
                  && py_eqb (JInt (cc_source_round context)) source_round
                  && String.eqb (cc_base_model_dir context) "base_model"))
    (ListenerStateError "Saved client context does not match the scheduled listener job").

(** The stages of [poll_once]; [Some outcome] is an early return. *)
Definition download_stage (c : Config) (revision : string) : M Place (option string) :=
  let* status := job_item revision "status" in
  if negb (status_in ["pending"; "downloading"] status) then ret None
  else
    set_status revision "downloading" ;;
    change (fun w => w <| contexts ::= delete revision |>) ;;
    let* context := download_round revision in
    let* source_round := job_item revision "source_round" in
    match assoc "source_round" context with
    | None => throw KeyError
    | Some downloaded =>
        throw_if (negb (py_eqb downloaded source_round)) (ValueError "Pinned round metadata changed during download") ;;
        let* current := _is_current c revision in
        if negb current then ret (Some "skipped")
        else set_status revision "training" ;; ret None
    end.

Definition training_stage (c : Config) (revision : string) : M Place (option string) :=
  let* status := job_item revision "status" in
  if negb (py_eqb status (JStr "training")) then ret None
  else
    let* current := _is_current c revision in
    if negb current then ret (Some "skipped")
    else
      _check_context c revision ;;
      change id ;;
      emit "training" ;;
      let* metadata := train_round c revision in
      change (fun w => w <| training_results ::= <[revision := metadata]> |>) ;;
      set_status revision "ready" ;;
      ret None.

Definition publish_stage (c : Config) (revision : string) : M Place string :=
  let* current := _is_current c revision in
  if negb current then ret "skipped"
  else
    _check_context c revision ;;
    let* metadata := read_saved training_results revision in
    validate_submission c revision metadata ;;
    set_status revision "publishing" ;;
    emit "publishing" ;;
    let* result := catch (submit_round c revision metadata)
      (fun e => if is_exception e then
                  set_status revision "uncertain" ;;
                  emit "uncertain" ;;
                  throw (UncertainOperation "Submission outcome is unknown; inspect the remote submission before explicit recovery")
                else throw e) in
    finish client_workflow revision "submitted" [("result", result)] ;;
    ret "submitted".

Definition run_stages (c : Config) (revision : string) : M Place string :=
  change (fun w => w <| job_dirs ::= set_insert revision |>) ;;
  change id ;;
  let* stop := download_stage c revision in
  match stop with
  | Some outcome => ret outcome
  | None =>
      let* stop := training_stage c revision in
      match stop with
      | Some outcome => ret outcome
      | None => publish_stage c revision
      end
  end.

(** [self.state["jobs"].get(self.state["active"])], as the revision. *)
Definition active_job : M Place (option string) :=
  let* s := the_state in
  ret (match st_active s with Some r => if has_key r (st_jobs s) then Some r else None | None => None end).

Definition start_job (revision : string) (source_round : Z) : M Place unit :=
  set_state (fun s => s <| st_jobs ::= assoc_set revision (JObj
               [("revision", JStr revision); ("source_round", JInt source_round); ("status", JStr "pending")]) |>
               <| st_active := Some revision |>) ;;
  save.

Definition poll_once (c : Config) : M Place string :=
  require_open c ;;
  let* job := active_job in
  let* status := match job with Some r => job_item r "status" | None => ret JNull end in
  throw_if (status_in ["publishing"; "uncertain"] status)
    (UncertainOperation "Submission outcome is unknown; reconcile it and use --resolve-uncertain submitted or retry") ;;
  let* revision := _current_revision c in
  let* job := match job with
              | Some r =>
                  let* scheduled := job_item r "revision" in
                  if py_eqb scheduled (JStr revision) then ret (Some r)
                  else finish client_workflow r "skipped" [("reason", JStr "reference_advanced")] ;; ret None
              | None => ret None
              end in
  match job with
  | Some r => run_stages c r
  | None =>
      let* s := the_state in
      if has_key revision (st_jobs s) then emit "idle" ;; ret "idle"
      else
        let* source_round := _round_metadata revision in
        start_job revision source_round ;;
        let* s := the_state in
        if source_round <=? st_completed s then
          finish client_workflow revision "skipped" [("reason", JStr "round_already_completed")] ;; ret "skipped"
        else run_stages c revision
  end.

(** [resolve_uncertain] *)
Definition resolve_uncertain (c : Config) (action : string) : M Place unit :=
  require_open c ;;
  throw_if (negb (mem_str action ["submitted"; "retry"])) (ListenerStateError "Recovery action must be submitted or retry") ;;
  let* job := active_job in
  match job with
  | None => raise_state "No uncertain submission needs recovery"
  | Some r =>
      let* status := job_item r "status" in
      throw_if (negb (status_in ["publishing"; "uncertain"] status))
        (ListenerStateError "No uncertain submission needs recovery") ;;
      if String.eqb action "submitted" then
        finish client_workflow r "submitted" [("reconciled", JBool true)]
      else
        modify (fun w => w <| audit ::= cons (Authorized r) |>) ;;
        set_status r "ready" ;;
        emit "retry_authorized"
  end.
End Client.
