(* ===== verification/ListenerTheory.v ===== *)
(** * The invariant of a listener's directory

    [well_formed] states: what is saved passes the validation on opening and is
    read back as it was.  [Safe]: whatever is on disk or in memory is well
    formed, and a revision that may have been submitted more often than an
    operator authorized is recorded as such.  [ensures] relates the parts of a
    place the invariant reads before and after a statement, for its value and
    for its exceptions. *)

From stdpp Require Import base gmap strings list relations.
From Stdlib Require Import ZArith Lia Ascii String QArith.
From S2P Require Import Prelude Json Domain Protocol ProtocolTheory Listener.
Import Protocol.
Open Scope Z_scope.

(** ** Well-formed states *)
Section WellFormed.
(** [nulls]: the statuses under which this workflow leaves the round out. *)
Context (k : Workflow) (nulls : list string).

Definition round_ok (completed : Z) (status : string) (v : json) : Prop :=
  match v with
  | JInt n => 0 <= n /\ (status = success_status k -> n <= completed)
  | JNull => status ∈ nulls
  | _ => False
  end.

(** The job [d] of revision [r] in status [s]. *)
Record job_ok (completed : Z) (r : string) (d : list (string * json)) (s : string) : Prop := {
  jo_revision : assoc "revision" d = Some (JStr r);
  jo_status : assoc "status" d = Some (JStr s);
  jo_known : s ∈ statuses k;
  jo_round : exists v, assoc "source_round" d = Some v /\ round_ok completed s v;
}.

Definition active_list (o : option string) : list string := match o with Some a => [a] | None => [] end.

Record well_formed (s : State) : Prop := {
  wf_completed : -1 <= st_completed s;
  wf_keys : NoDup (keys (st_jobs s));
  wf_names : "" ∉ keys (st_jobs s);
  wf_jobs : forall r j, assoc r (st_jobs s) = Some j -> exists d st, j = JObj d /\ job_ok (st_completed s) r d st;
  wf_active : nonterminal k (st_jobs s) = active_list (st_active s);
  wf_extra : forall key, key ∈ keys (st_extra s) -> key ∉ state_keys;
}.

(** The status of a revision, if it has a job. *)
Definition status_of (s : State) (r : string) : option json := job_status_of <$> assoc r (st_jobs s).

Definition has_status (s : State) (r : string) (l : list string) : Prop :=
  exists st, status_of s r = Some (JStr st) /\ st ∈ l.

(** *** Association lists *)
Lemma assoc_in r j (l : list (string * json)) : assoc r l = Some j -> (r, j) ∈ l.
Proof.
  induction l as [|[a b] l IH]; cbn; [done|]. destruct (String.eqb_spec r a) as [->|]; intros H; [injection H as ->; by left|].
  right. by apply IH.
Qed.
Lemma assoc_none r (l : list (string * json)) : assoc r l = None <-> r ∉ keys l.
Proof.
  unfold keys. induction l as [|[a b] l IH]; cbn; [split; [intros _; apply not_elem_of_nil|done]|].
  rewrite not_elem_of_cons, <- IH. destruct (String.eqb_spec r a) as [->|]; split; try done; [by intros []|by intros [_ ?]].
Qed.
Lemma in_assoc r j (l : list (string * json)) : NoDup (keys l) -> (r, j) ∈ l -> assoc r l = Some j.
Proof.
  unfold keys. induction l as [|[a b] l IH]; cbn; intros Hn Hin; [by apply elem_of_nil in Hin|].
  apply NoDup_cons in Hn as [Ha Hn]. apply elem_of_cons in Hin as [[= <- <-]|Hin]; [by rewrite String.eqb_refl|].
  destruct (String.eqb_spec r a) as [->|]; [|by apply IH]. destruct Ha. apply list_elem_of_fmap. by exists (a, j).
Qed.
Lemma keys_assoc_set_old r j l : r ∈ keys l -> keys (assoc_set r j l) = keys l.
Proof.
  unfold keys. induction l as [|[a b] l IH]; cbn; intros H; [by apply elem_of_nil in H|].
  destruct (String.eqb_spec r a) as [->|]; [done|]. cbn. f_equal. apply IH. by apply elem_of_cons in H as [->|].
Qed.
Lemma assoc_set_new r j l : r ∉ keys l -> assoc_set r j l = l ++ [(r, j)].
Proof.
  unfold keys. induction l as [|[a b] l IH]; cbn; intros H; [done|]. apply not_elem_of_cons in H as [Hr H].
  rewrite (proj2 (String.eqb_neq r a) Hr). by rewrite IH.
Qed.

(** *** Unfinished jobs *)
Definition finished (j : json) : bool := status_in (terminal_statuses k) (job_status_of j).

Lemma nonterminal_keys r l : r ∈ nonterminal k l -> r ∈ keys l.
Proof.
  unfold nonterminal, keys. rewrite !list_elem_of_fmap. intros (x & -> & Hx). exists x. split; [done|].
  apply list_elem_of_In, filter_In in Hx as [Hx _]. by apply list_elem_of_In.
Qed.
Lemma nonterminal_cons r j l : nonterminal k ((r, j) :: l) = (if finished j then [] else [r]) ++ nonterminal k l.
Proof. unfold nonterminal, finished. cbn. by destruct (status_in _ _). Qed.

Lemma nonterminal_spec r j l : NoDup (keys l) -> assoc r l = Some j -> (r ∈ nonterminal k l <-> finished j = false).
Proof.
  unfold keys. induction l as [|[a b] l IH]; cbn [assoc fmap list_fmap fst]; intros Hn H; [done|]. apply NoDup_cons in Hn as [Ha Hn].
  rewrite nonterminal_cons, elem_of_app. destruct (String.eqb_spec r a) as [->|Hr].
  - injection H as ->. destruct (finished j); rewrite ?elem_of_nil, ?list_elem_of_singleton; [|by split; auto].
    split; [|done]. intros [[]|H]. by apply nonterminal_keys in H.
  - rewrite <- (IH Hn H). destruct (finished b); rewrite ?elem_of_nil, ?list_elem_of_singleton; tauto.
Qed.

Lemma nonterminal_update r j l : NoDup (keys l) -> nonterminal k l = [r] ->
  nonterminal k (assoc_set r j l) = if finished j then [] else [r].
Proof.
  intros Hn H. assert (Hr : r ∈ keys l) by (apply nonterminal_keys; rewrite H; left).
  revert Hn H Hr. unfold keys. induction l as [|[a b] l IH]; cbn [assoc_set fmap list_fmap fst]; [by rewrite elem_of_nil|].
  intros Hn H Hr. apply NoDup_cons in Hn as [Ha Hn]. rewrite nonterminal_cons in H. destruct (String.eqb_spec r a) as [->|Hra].
  - rewrite nonterminal_cons. assert (E : nonterminal k l = []).
    { destruct (nonterminal k l) as [|x xs] eqn:E; [done|]. destruct (finished b); cbn in H; [|done].
      injection H as -> ->. destruct Ha. apply nonterminal_keys. rewrite E. by left. }
    rewrite E, app_nil_r. done.
  - rewrite nonterminal_cons. destruct (finished b); cbn [app] in *; [|by injection H].
    apply IH; [done|done|]. by apply elem_of_cons in Hr as [->|].
Qed.

Lemma nonterminal_new r j l : r ∉ keys l -> nonterminal k l = [] ->
  nonterminal k (assoc_set r j l) = if finished j then [] else [r].
Proof.
  intros Hr H. rewrite assoc_set_new by done. unfold nonterminal in *. rewrite List.filter_app, map_app, H. cbn.
  unfold finished. by destruct (status_in _ _).
Qed.

(** *** Updates *)
Lemma job_ok_later c c' r d st : c <= c' -> job_ok c r d st -> job_ok c' r d st.
Proof.
  intros Hc [H1 H2 H3 (v & H4 & H5)]. split; try done. exists v. split; [done|].
  destruct v; cbn in *; try done. destruct H5 as [H5 H6]. split; [done|]. intros E. specialize (H6 E). lia.
Qed.

Lemma job_ok_finished c r d st : job_ok c r d st -> finished (JObj d) = mem_str st (terminal_statuses k).
Proof. intros H. unfold finished, job_status_of, get_or_none. by rewrite (jo_status _ _ _ _ H). Qed.

Lemma active_job_of s r : well_formed s -> st_active s = Some r ->
  exists d st, job_of s r = Some d /\ assoc r (st_jobs s) = Some (JObj d) /\ job_ok (st_completed s) r d st /\
    mem_str st (terminal_statuses k) = false.
Proof.
  intros W Ha. assert (Hr : r ∈ nonterminal k (st_jobs s)) by (rewrite (wf_active _ W), Ha; left).
  destruct (assoc r (st_jobs s)) as [j|] eqn:E; [|apply nonterminal_keys in Hr; by apply assoc_none in E].
  apply (nonterminal_spec _ _ _ (wf_keys _ W) E) in Hr. destruct (wf_jobs _ W _ _ E) as (d & st & -> & Hj).
  exists d, st. unfold job_of. rewrite E. split_and!; try done. by rewrite <- (job_ok_finished _ _ _ _ Hj).
Qed.

(** The state after the active job became [d] and the last completed round [c]. *)
Definition updated (s : State) (r : string) (d : list (string * json)) (c : Z) (active : option string) : State :=
  mkState (st_identity s) c active (assoc_set r (JObj d) (st_jobs s)) (st_extra s).

Lemma wf_updated s r d st c : well_formed s -> st_active s = Some r -> st_completed s <= c -> job_ok c r d st ->
  well_formed (updated s r d c (if mem_str st (terminal_statuses k) then None else Some r)).
Proof.
  intros W Ha Hc Hj. destruct (active_job_of s r W Ha) as (d0 & st0 & _ & E & _ & _).
  assert (Hr : r ∈ keys (st_jobs s)) by (apply nonterminal_keys; rewrite (wf_active _ W), Ha; left).
  split; cbn [updated st_completed st_active st_jobs st_extra]; rewrite ?keys_assoc_set_old by done; try apply W.
  - pose proof (wf_completed _ W). lia.
  - intros x j. rewrite assoc_assoc_set. destruct (String.eqb_spec x r) as [->|].
    + intros [= <-]. by exists d, st.
    + intros Hx. destruct (wf_jobs _ W _ _ Hx) as (d1 & st1 & -> & H1). exists d1, st1. split; [done|]. by eapply job_ok_later.
  - rewrite (nonterminal_update r); [|apply W|by rewrite (wf_active _ W), Ha].
    rewrite (job_ok_finished _ _ _ _ Hj). by destruct (mem_str _ _).
Qed.

Lemma wf_started s r d st : well_formed s -> st_active s = None -> r ∉ keys (st_jobs s) -> r <> "" ->
  job_ok (st_completed s) r d st -> mem_str st (terminal_statuses k) = false ->
  well_formed (updated s r d (st_completed s) (Some r)).
Proof.
  intros W Ha Hr Hne Hj Ht. split; cbn [updated st_completed st_active st_jobs st_extra]; try apply W.
  - rewrite assoc_set_new by done. unfold keys. rewrite fmap_app. apply NoDup_app. split; [apply W|]. split; [|apply NoDup_singleton].
    intros x Hx. cbn. rewrite list_elem_of_singleton. intros ->. done.
  - rewrite assoc_set_new by done. unfold keys. rewrite fmap_app. cbn. rewrite elem_of_app, list_elem_of_singleton.
    intros [Hx|Hx]; [by apply (wf_names _ W)|done].
  - intros x j. rewrite assoc_assoc_set. destruct (String.eqb_spec x r) as [->|]; [intros [= <-]; by exists d, st|apply W].
  - rewrite nonterminal_new; [|done|by rewrite (wf_active _ W), Ha]. by rewrite (job_ok_finished _ _ _ _ Hj), Ht.
Qed.

Lemma wf_fresh identity : well_formed (mkState identity (-1) None [] []).
Proof.
  split; cbn; [lia|constructor|apply not_elem_of_nil|done|done|]. intros key H. by apply elem_of_nil in H.
Qed.

(** *** Reading back *)
Lemma state_items s :
  assoc "schema_version" (state_doc s) = Some (JInt 1) /\ assoc "identity" (state_doc s) = Some (st_identity s) /\
  assoc "completed_round" (state_doc s) = Some (JInt (st_completed s)) /\
  assoc "active" (state_doc s) = Some (opt_str (st_active s)) /\ assoc "jobs" (state_doc s) = Some (JObj (st_jobs s)).
Proof. done. Qed.

Hypothesis nulls_optional : forall st, st ∈ nulls -> st ∈ round_optional_statuses k /\ st <> success_status k.

Lemma mem_str_true x l : x ∈ l -> mem_str x l = true.
Proof. unfold mem_str. by apply bool_decide_eq_true_2. Qed.

Lemma validate_job_ok c r d st : r <> "" -> job_ok c r d st -> validate_job k c (r, JObj d) = Ok tt.
Proof.
  intros Hr [H1 H2 H3 (v & H4 & H5)]. unfold validate_job, get_or_none. rewrite H1, H2, H4. cbn [status_in py_eqb].
  rewrite String.eqb_refl, (proj2 (String.eqb_neq r "") Hr), (mem_str_true _ _ H3). cbn.
  destruct v as [| |n| | | |]; try done; cbn in *.
  - destruct (nulls_optional _ H5) as [H6 H7]. rewrite (mem_str_true _ _ H6). cbn. by rewrite (proj2 (String.eqb_neq _ _) H7).
  - destruct H5 as [H5 H6]. rewrite (proj2 (Z.leb_le 0 n) H5). cbn. destruct (String.eqb_spec st (success_status k)); [|done].
    unfold state_error_if. by rewrite (proj2 (Z.ltb_ge c n)) by auto.
Qed.

(** A saved state is accepted when it is opened again, by a listener with the
    same identity, and is the state that was saved. *)
Lemma reopened s identity : well_formed s -> py_eqb (st_identity s) identity = true ->
  validate_state k identity (state_doc s) = Ok s.
Proof.
  intros W Hi. unfold validate_state, get_or_none.
  destruct (state_items s) as (E1 & E2 & E3 & E4 & E5). unfold has_key at 2. rewrite E1, E2, E3, E4, E5, Hi. cbn [Z.eqb Pos.eqb andb negb state_error_if].
  rewrite (proj2 (Z.ltb_ge (st_completed s) (-1)) (wf_completed _ W)). cbn [state_error_if].
  assert (Hall : each (validate_job k (st_completed s)) (st_jobs s) = Ok tt).
  { apply each_ok, Forall_forall. intros [r j] Hin. destruct (wf_jobs _ W r j) as (d & st & -> & Hj).
    - by apply in_assoc; [apply W|].
    - apply (validate_job_ok _ _ _ st); [|done]. intros ->. apply (wf_names _ W). apply list_elem_of_fmap. by exists ("", JObj d). }
  rewrite Hall.
  assert (Hf : List.filter (fun kv => negb (mem_str kv.1 state_keys)) (state_doc s) = st_extra s).
  { unfold state_doc. rewrite List.filter_app. cbn [List.filter fst]. change (List.filter (fun kv => negb (mem_str kv.1 state_keys)) (st_extra s) = st_extra s).
    pose proof (wf_extra _ W) as He. induction (st_extra s) as [|[a b] l IH]; [done|]. cbn. unfold mem_str at 1.
    rewrite bool_decide_eq_false_2 by (apply He; left). cbn. f_equal. apply IH. intros key Hk. apply He. by right. }
  rewrite Hf. destruct (st_active s) as [a|] eqn:Ea; cbn [opt_str].
  - assert (Hk : has_key a (st_jobs s) = true).
    { unfold has_key. destruct (active_job_of s a W Ea) as (d & st & _ & E & _). by rewrite E. }
    rewrite Hk, (wf_active _ W), Ea. cbn [active_list]. rewrite bool_decide_eq_true_2 by done. cbn.
    destruct s; cbn in *; by subst.
  - rewrite (wf_active _ W), Ea. cbn [active_list]. rewrite bool_decide_eq_true_2 by done. cbn. destruct s; cbn in *; by subst.
Qed.
End WellFormed.

(** ** What a directory and a memory may be *)

(** The parts of a place the invariant reads. *)
Record Core := mkCore {
  c_disk : option (result (list (string * json)));
  c_memory : option State;
  c_audit : list Audit;
}.
Definition core (w : Place) : Core := mkCore (disk w) (memory w) (audit w).

(** How many uploads of a revision were started, and how many were authorized
    by an operator. *)
Definition uploads (r : string) (l : list Audit) : nat := List.length (filter (Uploaded r =.) l).
Definition authorized (r : string) (l : list Audit) : nat := List.length (filter (Authorized r =.) l).

Lemma uploads_cons r a l : uploads r (a :: l) = ((if decide (Uploaded r = a) then 1 else 0) + uploads r l)%nat.
Proof. unfold uploads. cbn. by destruct (decide (Uploaded r = a)). Qed.
Lemma authorized_cons r a l : authorized r (a :: l) = ((if decide (Authorized r = a) then 1 else 0) + authorized r l)%nat.
Proof. unfold authorized. cbn. by destruct (decide (Authorized r = a)). Qed.

Section Safety.
Context {P : Platform} (k : Workflow) (nulls : list string).

(** The statuses that stand for an upload that may have happened. *)
Definition fence : list string := success_status k :: uncertain_statuses k.

(** A revision uploaded more often than authorized is fenced. *)
Definition fenced (s : State) (l : list Audit) : Prop :=
  forall r, (uploads r l <= authorized r l)%nat \/ (uploads r l = S (authorized r l) /\ has_status s r fence).

(** Revisions that are finished and will not be uploaded again, with the number
    of their uploads. *)
Context (closed : list (string * nat)).
Definition settled (s : State) (l : list Audit) : Prop :=
  forall r n, (r, n) ∈ closed -> has_status s r (terminal_statuses k) /\ uploads r l = n.

Record good (s : State) (l : list Audit) : Prop := {
  gd_formed : well_formed k nulls s;
  gd_fenced : fenced s l;
  gd_settled : settled s l;
}.

Record Safe (c : Core) : Prop := {
  sf_disk : forall contents, c_disk c = Some contents ->
    exists s, contents = Ok (state_doc s) /\ good s (c_audit c) /\ dumpable (JObj (state_doc s));
  sf_memory : forall s, c_memory c = Some s -> good s (c_audit c);
  sf_none : c_disk c = None -> closed = [] /\ forall r, (uploads r (c_audit c) <= authorized r (c_audit c))%nat;
}.

(** ** Statements *)
(** From [Pre], [m] gives a value with [Post] or an exception with [Exn]. *)
Definition ensures {A} (Pre : Core -> Prop) (m : M Place A) (Post : A -> Core -> Prop) (Exn : Core -> Prop) : Prop :=
  forall w r w', Pre (core w) -> m w = (r, w') -> match r with Ok a => Post a (core w') | Err _ => Exn (core w') end.

(** [m] touches nothing the invariant reads. *)
Definition framed {A} (m : M Place A) : Prop := forall w r w', m w = (r, w') -> core w' = core w.

Lemma ens_bind {A B} Pre (m : M Place A) (f : A -> M Place B) Mid Post Exn :
  ensures Pre m Mid Exn -> (forall a, ensures (Mid a) (f a) Post Exn) -> ensures Pre (bind m f) Post Exn.
Proof.
  intros Hm Hf w r w' Hp H. unfold bind in H. destruct (m w) as [[a|e] w1] eqn:E; specialize (Hm _ _ _ Hp E); cbn in Hm.
  - by eapply Hf.
  - by injection H as <- <-.
Qed.
Lemma ens_pre {A} (Pre Pre' : Core -> Prop) (m : M Place A) Post Exn :
  (forall c, Pre c -> Pre' c) -> ensures Pre' m Post Exn -> ensures Pre m Post Exn.
Proof. intros H Hm w r w' Hp E. by eapply Hm; [apply H|]. Qed.
Lemma ens_post {A} Pre (m : M Place A) (Post Post' : A -> Core -> Prop) (Exn Exn' : Core -> Prop) :
  ensures Pre m Post' Exn' -> (forall a c, Post' a c -> Post a c) -> (forall c, Exn' c -> Exn c) -> ensures Pre m Post Exn.
Proof. intros Hm H1 H2 w r w' Hp E. specialize (Hm _ _ _ Hp E). destruct r; auto. Qed.
Lemma ens_ret {A} (a : A) (Pre : Core -> Prop) Post Exn : (forall c, Pre c -> Post a c) -> ensures Pre (ret a) Post Exn.
Proof. intros H w r w' Hp [= <- <-]. by apply H. Qed.
Lemma ens_throw {A} e (Pre : Core -> Prop) (Post : A -> Core -> Prop) (Exn : Core -> Prop) :
  (forall c, Pre c -> Exn c) -> ensures Pre (throw e) Post Exn.
Proof. intros H w r w' Hp [= <- <-]. by apply H. Qed.
Lemma ens_catch {A} Pre (m : M Place A) h Post Mid Exn :
  ensures Pre m Post Mid -> (forall e, ensures Mid (h e) Post Exn) -> ensures Pre (catch m h) Post Exn.
Proof.
  intros Hm Hh w r w' Hp H. unfold catch in H. destruct (m w) as [[a|e] w1] eqn:E; specialize (Hm _ _ _ Hp E); cbn in Hm.
  - by injection H as <- <-.
  - by eapply Hh.
Qed.
Lemma ens_framed {A} (Pre : Core -> Prop) (m : M Place A) (V : A -> Prop) (Exn : Core -> Prop) :
  framed m -> (forall w a w', m w = (Ok a, w') -> V a) -> (forall c, Pre c -> Exn c) ->
  ensures Pre m (fun a c => Pre c /\ V a) Exn.
Proof. intros Hm Hv He w r w' Hp E. rewrite (Hm _ _ _ E). destruct r; [split; [done|by eapply Hv]|by apply He]. Qed.
Lemma ens_frame {A} (Pre : Core -> Prop) (m : M Place A) (Exn : Core -> Prop) :
  framed m -> (forall c, Pre c -> Exn c) -> ensures Pre m (fun _ => Pre) Exn.
Proof. intros Hm He w r w' Hp E. rewrite (Hm _ _ _ E). destruct r; [done|by apply He]. Qed.
Lemma ens_throw_if c e (Pre Exn : Core -> Prop) : (forall c, Pre c -> Exn c) ->
  ensures Pre (throw_if c e) (fun _ co => Pre co /\ c = false) Exn.
Proof. intros H. destruct c; [by apply ens_throw|]. by apply ens_ret. Qed.

(** A sequence whose first statement is framed. *)
Lemma ens_skip {A B} (Pre : Core -> Prop) (m : M Place A) (f : A -> M Place B) Post (Exn : Core -> Prop) :
  framed m -> (forall c, Pre c -> Exn c) -> (forall a, ensures Pre (f a) Post Exn) -> ensures Pre (bind m f) Post Exn.
Proof. intros Hm He Hf. eapply ens_bind; [by apply ens_frame|]. intros a. apply Hf. Qed.
End Safety.

(** ** Framed statements *)
Section Framed.
Context {T : Site} {P : Platform}.

Lemma framed_ret {A} (a : A) : framed (ret a). Proof. by intros w r w' [= _ <-]. Qed.
Lemma framed_lift {A} (a : result A) : framed (lift a). Proof. by intros w r w' [= _ <-]. Qed.
Lemma framed_throw {A} e : framed (throw (A := A) e). Proof. by intros w r w' [= _ <-]. Qed.
Lemma framed_gets {A} (f : Place -> A) : framed (gets f). Proof. by intros w r w' [= _ <-]. Qed.
Lemma framed_consult {A} (f : N -> A) : framed (consult f). Proof. by intros w r w' [= _ <-]. Qed.
Lemma framed_bind {A B} (m : M Place A) (f : A -> M Place B) : framed m -> (forall a, framed (f a)) -> framed (bind m f).
Proof.
  intros Hm Hf w r w' H. unfold bind in H. destruct (m w) as [[a|e] w1] eqn:E.
  - by rewrite (Hf _ _ _ _ H), (Hm _ _ _ E).
  - injection H as _ <-. by rewrite (Hm _ _ _ E).
Qed.
Lemma framed_throw_if c e : framed (throw_if c e). Proof. destruct c; [apply framed_throw|apply framed_ret]. Qed.
Lemma framed_modify f : (forall w, core (f w) = core w) -> framed (modify f).
Proof. intros H w r w' [= _ <-]. apply H. Qed.
Lemma framed_change f : (forall w, core (f w) = core w) -> framed (change f).
Proof.
  intros H. apply framed_bind; [apply framed_consult|]. intros []; [by apply framed_modify|apply framed_throw|].
  apply framed_bind; [by apply framed_modify|]. intros _. apply framed_throw.
Qed.
Lemma framed_catch {A} (m : M Place A) h : framed m -> (forall e, framed (h e)) -> framed (catch m h).
Proof.
  intros Hm Hh w r w' H. unfold catch in H. destruct (m w) as [[a|e] w1] eqn:E.
  - injection H as _ <-. by apply (Hm _ _ _ E).
  - by rewrite (Hh _ _ _ _ H), (Hm _ _ _ E).
Qed.
Lemma framed_the_state : framed the_state.
Proof. apply framed_bind; [apply framed_gets|]. intros [s|]; [apply framed_ret|apply framed_throw]. Qed.
End Framed.
#[export] Hint Resolve framed_ret framed_lift framed_throw framed_gets framed_consult framed_throw_if framed_the_state : framed.
#[export] Hint Extern 1 (framed (modify _)) => (apply framed_modify; reflexivity) : framed.
#[export] Hint Extern 1 (framed (change _)) => (apply framed_change; reflexivity) : framed.

(** Statements made of framed ones. *)
Ltac framing :=
  repeat first
    [ solve [auto 2 with framed]
    | apply framed_bind; [|intros ?]
    | apply framed_catch; [|intros ?]
    | progress cbv zeta beta
    | match goal with |- framed (match ?x with _ => _ end) => destruct x end
    | match goal with |- framed (if ?x then _ else _) => destruct x end ].

Section FramedEngine.
Context {T : Site} {P : Platform}.
Lemma framed_call {A} (f : N -> result A) : framed (call f). Proof. unfold call. framing. Qed.
Lemma framed_emit e : framed (emit e). Proof. apply framed_call. Qed.
Lemma framed_job_item r key : framed (job_item r key). Proof. unfold job_item. framing. Qed.
Lemma framed_require_open c : framed (require_open c). Proof. unfold require_open, raise_state. framing. Qed.
Lemma framed_pause : framed pause. Proof. unfold pause. framing. Qed.
End FramedEngine.
#[export] Hint Resolve framed_call framed_emit framed_job_item framed_require_open framed_pause : framed.

(** ** The engine *)
Section Engine.
Context {T : Site} {P : Platform} (k : Workflow) (nulls : list string) (closed : list (string * nat)).
Notation good := (good k nulls closed).
Notation Safe := (Safe k nulls closed).

(** The listener is open and works on revision [r], in a status of [l]. *)
Definition At (r : string) (l : list string) (c : Core) : Prop :=
  Safe c /\ exists m d st, c_memory c = Some m /\ st_active m = Some r /\ job_of m r = Some d /\
    assoc "status" d = Some (JStr st) /\ st ∈ l.
(** It is open and works on nothing. *)
Definition Idle (c : Core) : Prop := Safe c /\ exists m, c_memory c = Some m /\ st_active m = None.
(** What is in memory is on disk. *)
Definition Synced (c : Core) : Prop := exists m, c_memory c = Some m /\ c_disk c = Some (Ok (state_doc m)).
Definition clear (r : string) (l : list Audit) : Prop := (uploads r l <= authorized r l)%nat.

Lemma At_safe r l c : At r l c -> Safe c. Proof. by intros []. Qed.

Lemma At_job r l c : At r l c -> exists m d st, c_memory c = Some m /\ good m (c_audit c) /\ st_active m = Some r /\
  assoc r (st_jobs m) = Some (JObj d) /\ job_of m r = Some d /\ job_ok k nulls (st_completed m) r d st /\ st ∈ l /\
  mem_str st (terminal_statuses k) = false.
Proof.
  intros (HS & m & d & st & Hm & Ha & Hj & Hst & Hl). pose proof (sf_memory _ _ _ _ HS _ Hm) as G.
  destruct (active_job_of _ _ _ _ (gd_formed _ _ _ _ _ G) Ha) as (d' & st' & Hj' & He & Hok & Ht).
  rewrite Hj in Hj'. injection Hj' as <-. rewrite (jo_status _ _ _ _ _ _ Hok) in Hst. injection Hst as <-.
  by exists m, d, st'.
Qed.

Lemma status_updated m r d c a x :
  status_of (updated m r d c a) x = if String.eqb x r then Some (job_status_of (JObj d)) else status_of m x.
Proof. unfold status_of. cbn [updated st_jobs]. rewrite assoc_assoc_set. by destruct (String.eqb x r). Qed.

Lemma has_status_updated m r d c a x l : x <> r -> has_status (updated m r d c a) x l <-> has_status m x l.
Proof. intros H. unfold has_status. rewrite status_updated. by rewrite (proj2 (String.eqb_neq x r) H). Qed.

Lemma job_has_status m r d st l c : assoc r (st_jobs m) = Some (JObj d) -> job_ok k nulls c r d st -> st ∈ l -> has_status m r l.
Proof.
  intros E Hj Hl. exists st. split; [|done]. unfold status_of. rewrite E. cbn. unfold get_or_none. by rewrite (jo_status _ _ _ _ _ _ Hj).
Qed.

Lemma mem_str_in x l : mem_str x l = true -> x ∈ l.
Proof. unfold mem_str. apply bool_decide_eq_true_1. Qed.

(** The active job moves on. *)
Lemma good_updated m l r d d' st c' :
  good m l -> st_active m = Some r -> assoc r (st_jobs m) = Some (JObj d) ->
  st_completed m <= c' -> job_ok k nulls c' r d' st -> (st ∈ fence k \/ clear r l) ->
  good (updated m r d' c' (if mem_str st (terminal_statuses k) then None else Some r)) l.
Proof.
  intros [W F C] Ha He Hc Hj Hf. split.
  - by apply wf_updated.
  - intros x. destruct (decide (x = r)) as [->|Hx]; [|rewrite has_status_updated by done; apply F].
    destruct Hf as [Hf|]; [|by left]. destruct (F r) as [|[H1 _]]; [by left|right]. split; [done|].
    eapply job_has_status; [|done..]. cbn [updated st_jobs]. by rewrite assoc_assoc_set, String.eqb_refl.
  - intros x n Hin. destruct (C x n Hin) as [H1 H2]. split; [|done]. apply has_status_updated; [|done]. intros ->.
    destruct (active_job_of _ _ _ _ W Ha) as (d0 & st0 & _ & E0 & Hok0 & Ht0). destruct H1 as (st1 & H1 & Hin1).
    unfold status_of in H1. rewrite E0 in H1. cbn in H1. unfold get_or_none in H1. rewrite (jo_status _ _ _ _ _ _ Hok0) in H1.
    injection H1 as <-. by rewrite (mem_str_true _ _ Hin1) in Ht0.
Qed.

(** A new job. *)
Lemma good_started m l r d st :
  good m l -> st_active m = None -> r ∉ keys (st_jobs m) -> r <> "" -> job_ok k nulls (st_completed m) r d st ->
  mem_str st (terminal_statuses k) = false -> good (updated m r d (st_completed m) (Some r)) l.
Proof.
  intros [W F C] Ha Hr Hne Hj Ht.
  assert (Hno : forall l', ~ has_status m r l').
  { intros l' (st' & H & _). unfold status_of in H. by rewrite (proj2 (assoc_none r _) Hr) in H. }
  split.
  - by eapply wf_started.
  - intros x. destruct (decide (x = r)) as [->|Hx]; [|rewrite has_status_updated by done; apply F].
    left. destruct (F r) as [|[_ H]]; [done|]. by destruct (Hno _ H).
  - intros x n Hin. destruct (C x n Hin) as [H1 H2]. split; [|done]. apply has_status_updated; [|done]. intros ->. by destruct (Hno _ H1).
Qed.

Lemma Safe_memory c m : Safe c -> good m (c_audit c) -> Safe (mkCore (c_disk c) (Some m) (c_audit c)).
Proof. intros [H1 H2 H3] G. split; cbn; [done| |done]. by intros s [= <-]. Qed.
Lemma Safe_saved c m : Safe c -> c_memory c = Some m -> dumpable (JObj (state_doc m)) -> Safe (mkCore (Some (Ok (state_doc m))) (Some m) (c_audit c)).
Proof.
  intros [H1 H2 H3] Hm Hd. split; cbn; [|by intros s [= <-]; apply H2|done]. intros contents [= <-]. exists m. split; [done|].
  split; [by apply H2|done].
Qed.
Lemma Safe_closed c : Safe c -> Safe (mkCore (c_disk c) None (c_audit c)).
Proof. intros [H1 H2 H3]. by split. Qed.

Lemma core_eta c : mkCore (c_disk c) (c_memory c) (c_audit c) = c. Proof. by destruct c. Qed.

(** Whatever the handler of [_save] does, it raises. *)
Lemma save_handler e : exists e', forall w : Place,
  (match e with
   | OSError => raise_state "Cannot persist listener state; preserve it for recovery"
   | _ => if is_value_error e then raise_state "Cannot persist listener state; preserve it for recovery" else throw e
   end : M Place unit) w = (Err e', w).
Proof. destruct e; cbn; eexists; reflexivity. Qed.

Lemma ens_save (Pre : Core -> Prop) : (forall c, Pre c -> Safe c) ->
  ensures Pre save (fun _ c' => exists c m, Pre c /\ c_memory c = Some m /\ dumpable (JObj (state_doc m)) /\
    c' = mkCore (Some (Ok (state_doc m))) (Some m) (c_audit c)) Safe.
Proof.
  intros HS. unfold save. eapply (ens_catch _ _ _ _ Safe).
  2: { intros e w r w' Hs H. destruct (save_handler e) as [e' He]. rewrite He in H. by injection H as <- <-. }
  intros w r w' Hp H. apply HS in Hp as Hs. unfold the_state, gets, bind, lift, ret, throw in H.
  destruct (memory w) as [m|] eqn:Em; cbv beta iota in H; [|by injection H as <- <-].
  destruct (json_bytes (JObj (state_doc m))) as [n|e] eqn:Ej; cbv beta iota in H; [|by injection H as <- <-].
  assert (Hdump : dumpable (JObj (state_doc m))) by (by exists n).
  assert (Hsaved : Safe (mkCore (Some (Ok (state_doc m))) (Some m) (audit w))) by (by apply (Safe_saved (core w))).
  assert (Em' : forall x, mkCore x (Some m) (audit w) = mkCore x (memory w) (audit w)) by (intros; by rewrite Em).
  unfold change, bind, consult, modify, throw, lift in H. destruct (fate (tick w)) as [|e|e]; cbn in H; injection H as <- <-; cbn.
  - exists (core w), m. split; [done|]. split; [done|]. split; [done|]. unfold core. cbn. by rewrite <- Em'.
  - exact Hs.
  - unfold core. cbn. by rewrite <- Em'.
Qed.

Lemma merge_other key d l : key ∉ keys l -> assoc key (merge_dicts d l) = assoc key d.
Proof.
  unfold merge_dicts, keys. revert d. induction l as [|[a b] l IH]; cbn; intros d H; [done|].
  apply not_elem_of_cons in H as [Ha H]. rewrite IH by done. by rewrite assoc_assoc_set, (proj2 (String.eqb_neq key a) Ha).
Qed.

Lemma ens_set_state (Pre : Core -> Prop) f Post Exn :
  (forall c, Pre c -> Post tt (mkCore (c_disk c) (option_map f (c_memory c)) (c_audit c))) -> ensures Pre (set_state f) Post Exn.
Proof. intros H w r w' Hp [= <- <-]. by apply H in Hp. Qed.

Lemma with_job_updated m r f d : job_of m r = Some d -> with_job r f m = updated m r (f d) (st_completed m) (st_active m).
Proof. intros H. unfold with_job. by rewrite H. Qed.

(** [_set_status] of the job at work, to a status that is not final. *)
Lemma ens_set_status r l st (Q : list Audit -> Prop) :
  st ∈ statuses k -> mem_str st (terminal_statuses k) = false -> st <> success_status k ->
  (forall s, s ∈ l -> s ∈ nulls -> st ∈ nulls) -> (st ∈ fence k \/ forall a, Q a -> clear r a) ->
  ensures (fun c => At r l c /\ Q (c_audit c)) (set_status r st)
    (fun _ c => (At r [st] c /\ Synced c) /\ Q (c_audit c)) Safe.
Proof.
  intros Hk Ht Hs Hn Hf. unfold set_status.
  eapply (ens_bind _ _ _ (fun _ c => At r [st] c /\ Q (c_audit c))).
  - apply ens_set_state. intros c [HA HQ]. split; [|done].
    destruct (At_job _ _ _ HA) as (m & d & s & Hm & G & Ha & He & Hj & Hok & Hl & Hts).
    set (d' := assoc_set "status" (JStr st) d).
    assert (Hok' : job_ok k nulls (st_completed m) r d' st).
    { destruct Hok as [H1 H2 H3 (v & H4 & H5)]. split; unfold d'; rewrite ?assoc_assoc_set; cbn; try done.
      exists v. split; [done|]. destruct v; cbn in *; try done; [by eapply Hn|].
      split; [apply H5|done]. }
    assert (G' : good (updated m r d' (st_completed m) (Some r)) (c_audit c)).
    { pose proof (good_updated m (c_audit c) r d d' st (st_completed m) G Ha He) as Hg. rewrite Ht in Hg.
      apply Hg; [lia|done|]. destruct Hf; [by left|right; auto]. }
    rewrite Hm. cbn [option_map]. rewrite (with_job_updated _ _ _ _ Hj), Ha. fold d'. split.
    + apply Safe_memory; [apply HA|done].
    + exists (updated m r d' (st_completed m) (Some r)), d', st. cbn. unfold job_of. cbn. rewrite assoc_assoc_set, String.eqb_refl.
      split_and!; try done; [apply Hok'|by left].
  - intros []. eapply ens_post; [apply (ens_save (fun c => At r [st] c /\ Q (c_audit c)))| |done].
    + intros c [[] _]. done.
    + intros [] c (c0 & m & [HA HQ] & Hm & Hd & ->). cbn. split; [|done]. split.
      * destruct HA as [HS (m' & d & s & Hm' & HA)]. rewrite Hm in Hm'. injection Hm' as <-.
        split; [by apply Safe_saved|]. by exists m, d, s.
      * by exists m.
Qed.

Lemma set_state_run f w m : memory w = Some m -> set_state f w = (Ok tt, w <| memory := Some (f m) |>).
Proof. destruct w; cbn. by intros ->. Qed.
Lemma job_item_run w m r key d v : memory w = Some m -> job_of m r = Some d -> assoc key d = Some v ->
  job_item r key w = (Ok v, w).
Proof. intros Hm Hj Hv. unfold job_item, the_state, gets, bind. rewrite Hm. cbn [ret]. unfold ret. by rewrite Hj, Hv. Qed.

(** [_finish] of the job at work. *)
Lemma ens_finish r l st fields (Q : list Audit -> Prop) :
  st ∈ statuses k -> mem_str st (terminal_statuses k) = true ->
  forallb (fun key => negb (mem_str key ["revision"; "status"; "source_round"])) (keys fields) = true ->
  (forall s, s ∈ l -> s ∈ nulls -> st ∈ nulls /\ st <> success_status k) -> (st ∈ fence k \/ forall a, Q a -> clear r a) ->
  ensures (fun c => At r l c /\ Q (c_audit c)) (finish k r st fields) (fun _ c => Idle c /\ Q (c_audit c)) Safe.
Proof.
  intros Hk Ht Hfields Hn Hf.
  assert (Hother : forall key, key ∈ ["revision"; "status"; "source_round"] -> key ∉ keys fields).
  { intros key Hkey Hin. rewrite forallb_forall in Hfields. apply list_elem_of_In in Hin. specialize (Hfields _ Hin).
    by rewrite (mem_str_true _ _ Hkey) in Hfields. }
  set (Done := fun c => Idle c /\ Q (c_audit c)).
  assert (Hrest : ensures Done (save ;; emit st) (fun _ => Done) Safe).
  { eapply (ens_bind _ _ _ (fun _ => Done)).
    - eapply ens_post; [apply (ens_save Done); by intros c [[] _]| |done].
      intros [] c (c0 & m & [[HS (m' & Hm' & Ha)] HQ] & Hm & Hd & ->). split; [|done]. rewrite Hm in Hm'. injection Hm' as <-.
      split; [by apply Safe_saved|by exists m].
    - intros []. apply ens_frame; [auto with framed|by intros c [[] _]]. }
  intros w r0 w' [HA HQ] H. destruct (At_job _ _ _ HA) as (m & d & s & Hm & G & Ha & He & Hj & Hok & Hl & Hts).
  set (d' := merge_dicts d (("status", JStr st) :: fields)).
  assert (Hd : forall key, key ∈ ["revision"; "status"; "source_round"] ->
    assoc key d' = if String.eqb key "status" then Some (JStr st) else assoc key d).
  { intros key Hkey. unfold d', merge_dicts. cbn [fold_left fst snd]. fold (merge_dicts (assoc_set "status" (JStr st) d) fields).
    rewrite merge_other by auto. by rewrite assoc_assoc_set. }
  destruct (jo_round _ _ _ _ _ _ Hok) as (v & Hv & Hround).
  assert (Hv' : assoc "source_round" d' = Some v) by (rewrite Hd; [done|set_solver]).
  set (c' := if String.eqb st (success_status k) then match v with JInt n => Z.max (st_completed m) n | _ => st_completed m end
             else st_completed m).
  assert (Hint : st = success_status k -> exists n, v = JInt n).
  { intros E. destruct v as [| |n| | | |]; try done; [|by exists n]. cbn in Hround. by destruct (Hn _ Hl Hround). }
  assert (Hok' : job_ok k nulls c' r d' st).
  { split; rewrite ?Hd by set_solver; cbn; try done; [apply Hok|]. exists v. split; [done|].
    destruct v as [| |n| | | |]; cbn in *; try done; [by destruct (Hn _ Hl Hround)|]. split; [apply Hround|].
    intros E. unfold c'. rewrite E, String.eqb_refl. lia. }
  assert (G' : good (updated m r d' c' None) (audit w)).
  { pose proof (good_updated m (audit w) r d d' st c' G Ha He) as Hg. rewrite Ht in Hg. apply Hg; [|done|].
    - unfold c'. destruct (String.eqb _ _); [|lia]. destruct v; lia.
    - destruct Hf; [by left|right; auto]. }
  assert (Hrun : finish k r st fields w = (save ;; emit st)%py (w <| memory := Some (updated m r d' c' None) |>)).
  { assert (Hw : memory w = Some m) by exact Hm.
    set (w1 := w <| memory := Some (updated m r d' (st_completed m) (Some r)) |>).
    assert (Hj1 : job_of (updated m r d' (st_completed m) (Some r)) r = Some d').
    { unfold job_of. cbn [updated st_jobs]. by rewrite assoc_assoc_set, String.eqb_refl. }
    assert (E1 : set_state (with_job r (fun d => merge_dicts d (("status", JStr st) :: fields))) w = (Ok tt, w1)).
    { rewrite (set_state_run _ _ _ Hw). by rewrite (with_job_updated _ _ _ _ Hj), Ha. }
    unfold finish. unfold bind at 1. rewrite E1. cbv iota beta.
    set (w2 := w <| memory := Some (updated m r d' c' (Some r)) |>).
    assert (E2 : when (String.eqb st (success_status k))
      (let* source_round := job_item r "source_round" in let* n := lift (as_int source_round) in
       set_state (fun s => s <| st_completed := Z.max (st_completed s) n |>))%py w1 = (Ok tt, w2)).
    { unfold c' in *. destruct (String.eqb_spec st (success_status k)) as [Es|]; [|done]. destruct (Hint Es) as [n ->].
      cbn [when]. unfold bind at 1. rewrite (job_item_run w1 _ r "source_round" d' (JInt n)) by done.
      unfold bind, lift. cbn [as_int]. by rewrite (set_state_run _ _ (updated m r d' (st_completed m) (Some r))). }
    unfold bind at 1. rewrite E2. cbv iota beta. unfold bind at 1. by rewrite (set_state_run _ w2 (updated m r d' c' (Some r))). }
  rewrite Hrun in H. apply (Hrest _ _ _) in H; [exact H|]. split; [|exact HQ]. split.
  - apply (Safe_memory (core w)); [apply HA|done].
  - by exists (updated m r d' c' None).
Qed.

(** What the theorems ask of a workflow's statuses. *)
Record sane : Prop := {
  sn_uncertain : "uncertain" ∈ statuses k;
  sn_open : mem_str "uncertain" (terminal_statuses k) = false;
  sn_other : "uncertain" <> success_status k;
  sn_fence : "uncertain" ∈ fence k;
  sn_publishing : "publishing" ∉ nulls;
  sn_nulls : forall st, st ∈ nulls -> st ∈ round_optional_statuses k /\ st <> success_status k;
}.

Lemma validate_reads s identity s' : sane -> well_formed k nulls s ->
  validate_state k identity (state_doc s) = Ok s' -> s' = s.
Proof.
  intros HW W H. destruct (py_eqb (st_identity s) identity) eqn:E.
  - rewrite (reopened _ _ (sn_nulls HW) _ _ W E) in H. congruence.
  - unfold validate_state, get_or_none in H. destruct (state_items s) as (E1 & E2 & _). rewrite E1, E2, E in H. done.
Qed.

(** Reading the status of the job at work. *)
Lemma ens_status r l : ensures (At r l) (job_item r "status") (fun v c => exists st, v = JStr st /\ st ∈ l /\ At r [st] c) Safe.
Proof.
  intros w x w' HA H. destruct (At_job _ _ _ HA) as (m & d & st & Hm & _ & Ha & _ & Hj & Hok & Hl & _).
  rewrite (job_item_run w m _ _ _ _ Hm Hj (jo_status _ _ _ _ _ _ Hok)) in H. injection H as <- <-.
  exists st. split; [done|]. split; [done|]. split; [apply HA|]. exists m, d, st. split_and!; try done; [apply Hok|by left].
Qed.

Lemma ens_job_item r l key : ensures (At r l) (job_item r key) (fun _ => At r l) Safe.
Proof. apply ens_frame; [auto with framed|apply At_safe]. Qed.

Lemma ens_the_state (Pre : Core -> Prop) : (forall c, Pre c -> Safe c) ->
  ensures Pre the_state (fun s c => Pre c /\ c_memory c = Some s) Safe.
Proof.
  intros HS w r w' Hp H. unfold the_state, gets, bind in H. destruct (memory w) as [m|] eqn:E; cbn in H; injection H as <- <-.
  - by split.
  - by apply HS.
Qed.

(** The job at work of an open listener. *)
Lemma active_at c m r : Safe c -> c_memory c = Some m -> st_active m = Some r -> At r (statuses k) c.
Proof.
  intros HS Hm Ha. split; [done|]. pose proof (sf_memory _ _ _ _ HS _ Hm) as G.
  destruct (active_job_of _ _ _ _ (gd_formed _ _ _ _ _ G) Ha) as (d & st & Hj & _ & Hok & _).
  exists m, d, st. split_and!; try done; apply Hok.
Qed.

Lemma ens_gets {A} Pre (f : Place -> M Place A) Post Exn :
  (forall w, ensures (fun c => Pre c /\ c = core w) (f w) Post Exn) -> ensures Pre (bind (gets id) f) Post Exn.
Proof. intros H w r w' Hp E. by eapply H; [|exact E]. Qed.

Lemma ens_leave_session c : ensures Safe (leave_session c) (fun _ => Safe) Safe.
Proof.
  intros w r w' HS [= <- <-]. unfold core. destruct (decide _); [|done]. by apply Safe_closed in HS.
Qed.

Lemma ens_open_state c : sane -> ensures Safe (open_state k c) (fun _ => Safe) Safe.
Proof.
  intros HW. unfold open_state. apply ens_gets. intros w0. apply ens_bind with (Mid := fun _ => Safe).
  { destruct (disk w0) as [contents|] eqn:Ed; intros w r w' [HS Ew] H.
    - pose proof (f_equal c_disk Ew) as Ed'. cbn in Ed'. rewrite Ed in Ed'.
      destruct (sf_disk _ _ _ _ HS _ Ed') as (s & Es & G & _). rewrite Es in H. unfold bind, lift, ret in H.
      destruct (validate_state _ _ _) as [s'|e] eqn:Ev; cbv beta iota in H; [|by injection H as <- <-].
      apply validate_reads in Ev as ->; [|done|apply G]. injection H as <- <-. exact (Safe_memory (core w) s HS G).
    - pose proof (f_equal c_disk Ew) as Ed'. cbn in Ed'. rewrite Ed in Ed'. destruct (sf_none _ _ _ _ HS Ed') as [Hc Hclear].
      assert (Hrest : ensures Safe save (fun _ => Safe) Safe).
      { eapply ens_post; [by apply ens_save| |done]. intros _ co (c0 & m & H0 & Hm & Hd & ->). by apply Safe_saved. }
      unfold bind at 1 in H. unfold throw_if, throw, lift in H. destruct (negb _); cbv beta iota in H; [by injection H as <- <-|].
      unfold ret, bind, modify in H. cbv beta iota in H.
      apply (Hrest _ _ _) in H; [exact H|]. apply (Safe_memory (core w)); [done|]. split.
      + apply wf_fresh.
      + intros x. left. apply Hclear.
      + rewrite Hc. intros x n Hin. by apply elem_of_nil in Hin. }
  intros _. apply ens_skip; [auto with framed|done|]. intros _.
  eapply ens_bind; [by apply ens_the_state|]. intros s. destruct (st_active s) as [a|] eqn:Ea; [|apply ens_ret; by intros co []].
  eapply ens_bind; [eapply ens_pre; [|apply (ens_status a (statuses k))]; intros co [HS Hm]; by eapply active_at|].
  intros v. cbn. destruct (py_eqb v (JStr "publishing")) eqn:Ev; cbn [when].
  - eapply ens_pre; [|eapply ens_post; [apply (ens_set_status a ["publishing"] "uncertain" (fun _ => True))| |done]].
    + intros co (st & -> & _ & HA). cbn in Ev. apply String.eqb_eq in Ev as ->. by split.
    + apply HW.
    + apply HW.
    + apply HW.
    + intros st Hst Hn. apply list_elem_of_singleton in Hst as ->. by destruct (sn_publishing HW).
    + left. apply HW.
    + intros _ co [[[HS _] _] _]. exact HS.
  - apply ens_ret. intros co (st & _ & _ & HS & _). exact HS.
Qed.

Lemma ens_enter c : sane -> ensures Safe (enter k c) (fun _ => Safe) Safe.
Proof.
  intros HW. unfold enter. apply ens_skip; [auto with framed|done|]. intros w. apply ens_skip; [auto with framed|done|]. intros _.
  apply ens_skip; [auto with framed|done|]. intros _. apply ens_skip; [auto with framed|done|]. intros _.
  apply ens_skip; [auto with framed|done|]. intros _. eapply ens_catch; [by apply ens_open_state|]. intros e.
  eapply ens_bind; [apply ens_leave_session|]. intros []. by apply ens_throw.
Qed.

Lemma ens_pure {A} (V : Prop) Pre (m : M Place A) Post Exn :
  (V -> ensures Pre m Post Exn) -> ensures (fun c => Pre c /\ V) m Post Exn.
Proof. intros H w r w' [Hp HV] E. by eapply (H HV). Qed.

(** A job in a status that stands for no upload has none to answer for. *)
Lemma At_clear r l c : At r l c -> (forall s, s ∈ l -> s ∉ fence k) -> clear r (c_audit c).
Proof.
  intros HA Hl. destruct (At_job _ _ _ HA) as (m & d & st & _ & G & _ & He & _ & Hok & Hst & _).
  destruct (gd_fenced _ _ _ _ _ G r) as [|[_ (st' & H1 & H2)]]; [done|]. unfold status_of in H1. rewrite He in H1. cbn in H1.
  unfold get_or_none in H1. rewrite (jo_status _ _ _ _ _ _ Hok) in H1. injection H1 as <-. by destruct (Hl _ Hst).
Qed.

Lemma At_weaken r l l' c : At r l c -> (forall s, s ∈ l -> mem_str s (terminal_statuses k) = false -> s ∈ l') -> At r l' c.
Proof.
  intros HA H. destruct (At_job _ _ _ HA) as (m & d & st & Hm & _ & Ha & _ & Hj & Hok & Hst & Ht).
  split; [apply HA|]. exists m, d, st. split_and!; try done; [apply Hok|by apply H].
Qed.

Lemma settled_not_active m l r x n : good m l -> st_active m = Some r -> (x, n) ∈ closed -> x <> r.
Proof.
  intros [W F C] Ha Hin ->. destruct (C _ _ Hin) as [(st1 & H1 & Hin1) _].
  destruct (active_job_of _ _ _ _ W Ha) as (d0 & st0 & _ & E0 & Hok0 & Ht0).
  unfold status_of in H1. rewrite E0 in H1. cbn in H1. unfold get_or_none in H1. rewrite (jo_status _ _ _ _ _ _ Hok0) in H1.
  injection H1 as <-. by rewrite (mem_str_true _ _ Hin1) in Ht0.
Qed.

(** An upload starts: only with the fence on disk. *)
Lemma ens_upload r l : (forall s, s ∈ l -> s ∈ fence k) ->
  ensures (fun c => (At r l c /\ Synced c) /\ clear r (c_audit c)) (modify (fun w => w <| audit ::= cons (Uploaded r) |>))
    (fun _ => At r l) Safe.
Proof.
  intros Hl w x w' [[HA (m & Hm & Hd)] Hc] [= <- <-]. destruct (At_job _ _ _ HA) as (m' & d & st & Hm' & G & Ha & He & Hj & Hok & Hst & Ht).
  rewrite Hm in Hm'. injection Hm' as <-.
  assert (G' : good m (Uploaded r :: audit w)).
  { split; [apply G| |].
    - intros y. rewrite uploads_cons, authorized_cons. destruct (decide (Authorized y = Uploaded r)) as [|_]; [done|].
      destruct (decide (Uploaded y = Uploaded r)) as [[= ->]|Hy].
      + cbn in Hc. unfold clear in Hc. destruct (decide (uploads r (audit w) = authorized r (audit w))) as [E|E].
        * right. split; [cbn; lia|]. eapply job_has_status; [done|done|by apply Hl].
        * left. cbn; lia.
      + apply (gd_fenced _ _ _ _ _ G).
    - intros y n Hin. destruct (gd_settled _ _ _ _ _ G y n Hin) as [H1 H2]. split; [done|]. rewrite uploads_cons.
      rewrite decide_False; [done|]. intros [= ->]. by eapply (settled_not_active _ _ _ _ _ G Ha Hin). }
  cbn in Hm, Hd. split.
  - split; cbn; rewrite ?Hm, ?Hd.
    + intros contents [= <-]. exists m. split; [done|]. split; [done|]. destruct HA as [HS _].
      destruct (sf_disk _ _ _ _ HS _ Hd) as (s & Es & _ & Hj'). injection Es as E1 E2 E3 E4 E5. unfold state_doc in *.
      by rewrite E1, E2, E3, E4, E5.
    + by intros s [= <-].
    + done.
  - exists m, d, st. split_and!; try done. apply Hok.
Qed.

(** An operator authorizes another upload. *)
Lemma ens_authorize r l : ensures (At r l) (modify (fun w => w <| audit ::= cons (Authorized r) |>))
    (fun _ c => At r l c /\ clear r (c_audit c)) Safe.
Proof.
  intros w x w' [HS HA] [= <- <-].
  assert (Hup : forall y, uploads y (Authorized r :: audit w) = uploads y (audit w)).
  { intros y. by rewrite uploads_cons, decide_False. }
  assert (Hau : forall y, (authorized y (audit w) <= authorized y (Authorized r :: audit w))%nat) by (intros; rewrite authorized_cons; lia).
  assert (HG : forall m, good m (audit w) -> good m (Authorized r :: audit w)).
  { intros m [W F C]. split; [done| |].
    - intros y. rewrite Hup. destruct (F y) as [H|[H1 H2]]; [left; specialize (Hau y); lia|].
      rewrite authorized_cons. destruct (decide _); [left; lia|right; by split].
    - intros y n Hin. rewrite Hup. by apply C. }
  assert (HS' : Safe (mkCore (disk w) (memory w) (Authorized r :: audit w))).
  { destruct HS as [H1 H2 H3]. split; cbn in *.
    - intros contents Hd. destruct (H1 _ Hd) as (s & -> & G & Hj). exists s. split; [done|]. split; [by apply HG|done].
    - intros s Hs. by apply HG, H2.
    - intros Hd. destruct (H3 Hd) as [Hc Hcl]. split; [done|]. intros y. rewrite Hup. exact (Nat.le_trans _ _ _ (Hcl y) (Hau y)). }
  split; [by split|]. destruct HA as (m & d & st & Hm & _). pose proof (gd_fenced _ _ _ _ _ (sf_memory _ _ _ _ HS _ Hm) r) as Hf.
  change (c_audit (core w)) with (audit w) in Hf.
  change (uploads r (Authorized r :: audit w) <= authorized r (Authorized r :: audit w))%nat.
  rewrite Hup, authorized_cons, decide_True by done. destruct Hf as [|[-> _]]; lia.
Qed.

(** Work on a new revision starts. *)
Lemma ens_start r d st m : r <> "" -> r ∉ keys (st_jobs m) -> job_ok k nulls (st_completed m) r d st ->
  mem_str st (terminal_statuses k) = false ->
  ensures (fun c => Safe c /\ c_memory c = Some m /\ st_active m = None)
    (set_state (fun s => s <| st_jobs ::= assoc_set r (JObj d) |> <| st_active := Some r |>) ;; save)%py
    (fun _ c => At r [st] c /\ exists m', c_memory c = Some m' /\ st_completed m' = st_completed m) Safe.
Proof.
  intros Hne Hr Hok Ht. set (m' := updated m r d (st_completed m) (Some r)).
  eapply (ens_bind _ _ _ (fun _ c => At r [st] c /\ c_memory c = Some m')).
  - apply ens_set_state. intros c (HS & Hm & Ha). pose proof (sf_memory _ _ _ _ HS _ Hm) as G. rewrite Hm. cbn [option_map]. split; [|done].
    split; [apply (Safe_memory c m' HS); by apply (good_started _ _ _ _ st)|]. exists m', d, st.
    split_and!; try done; [|apply Hok|by left]. unfold job_of, m'. cbn. by rewrite assoc_assoc_set, String.eqb_refl.
  - intros []. eapply ens_post; [apply (ens_save (fun c => At r [st] c /\ c_memory c = Some m')); by intros c [[] _]| |done].
    intros [] c (c0 & m1 & [[HS (m2 & d2 & st2 & Hm2 & HA)] Hm'] & Hm & Hd & ->). rewrite Hm in Hm'. injection Hm' as ->.
    rewrite Hm in Hm2. injection Hm2 as <-. split; [|by exists m']. split; [by apply Safe_saved|]. by exists m', d2, st2.
Qed.
End Engine.
