(* ===== verification/ClientListenerTheory.v ===== *)
(** * The training listener under crashes and restarts

    The operations of [ClientListener] keep the invariant of the directory; the
    step relation of a directory over time: listeners open it, poll, are
    resolved by an operator, leave and die; and what holds of every directory
    so reached. *)

From stdpp Require Import base gmap strings list relations.
From Stdlib Require Import ZArith Lia Ascii String QArith.
From S2P Require Import Prelude Json Domain Protocol Listener ProtocolTheory ClientListener ListenerTheory.
Import Protocol.
Open Scope Z_scope.

(** The statuses of a job that no upload has left its mark on. *)
Definition LIVE : list string := ["pending"; "downloading"; "training"; "ready"].

Lemma client_sane : sane client_workflow [].
Proof.
  split; try (apply mem_str_in; reflexivity); try done.
  - apply not_elem_of_nil.
  - intros st H. by apply elem_of_nil in H.
Qed.

Lemma live_unfenced s : s ∈ LIVE -> s ∉ fence client_workflow.
Proof. unfold LIVE, fence; cbn. set_solver. Qed.

Section Client.
Context {T : Site} {P : Platform} (closed : list (string * nat)).
Notation Safe := (Safe client_workflow [] closed).
Notation At := (At client_workflow [] closed).
Notation Idle := (Idle client_workflow [] closed).

(** ** Stages that touch neither the state nor its file *)
Lemma framed_read_saved f r : framed (read_saved f r).
Proof. unfold read_saved. framing. Qed.
Lemma framed_read_context r : framed (read_context r).
Proof. unfold read_context. apply framed_bind; [apply framed_read_saved|]. intros. framing. Qed.
#[local] Hint Resolve framed_read_saved framed_read_context : framed.
Lemma framed_validate_base r : framed (_validate_base r).
Proof. unfold _validate_base. framing. Qed.
Lemma framed_validate_metadata r p n t : framed (_validate_submission_metadata r p n t).
Proof. unfold _validate_submission_metadata. framing. Qed.
#[local] Hint Resolve framed_validate_base framed_validate_metadata : framed.
Lemma framed_download_round r : framed (download_round r).
Proof. unfold download_round. framing. Qed.
Lemma framed_train_round c r : framed (train_round c r).
Proof. unfold train_round. framing. Qed.
Lemma framed_validate_submission c r m : framed (validate_submission c r m).
Proof. unfold validate_submission. framing. Qed.
Lemma framed_current_revision c : framed (_current_revision c).
Proof. unfold _current_revision. framing. Qed.
Lemma framed_round_metadata r : framed (_round_metadata r).
Proof. unfold _round_metadata. framing. Qed.
Lemma framed_check_context c r : framed (_check_context c r).
Proof. unfold _check_context, raise_state. framing. Qed.
#[local] Hint Resolve framed_download_round framed_train_round framed_validate_submission framed_current_revision
  framed_round_metadata framed_check_context : framed.

Lemma engine_text_nonempty v s : engine_text v = Ok s -> s <> "".
Proof.
  unfold engine_text. destruct v as [| | | |t| |]; try done. destruct (negb (unspaced t)) eqn:E; [done|].
  destruct (_ || _); [done|]. intros [= <-] ->. done.
Qed.

(** A revision the store resolved. *)
Lemma ens_current_revision c (Pre : Core -> Prop) : (forall co, Pre co -> Safe co) ->
  ensures Pre (_current_revision c) (fun revision co => Pre co /\ revision <> "") Safe.
Proof.
  intros H. apply (ens_framed Pre (_current_revision c) (fun r => r <> "")); [auto with framed| |done].
  intros w r w' E. unfold _current_revision in E. apply bind_ok in E as (v & w1 & _ & E). apply lift_ok in E as [E _].
  by apply engine_text_nonempty in E.
Qed.

(** ** Leaving a job *)
Definition skip_fields (reason : string) : list (string * json) := [("reason", JStr reason)].

Lemma ens_skipped r reason :
  ensures (At r LIVE) (finish client_workflow r "skipped" [("reason", JStr reason)]) (fun _ => Idle) Safe.
Proof.
  eapply ens_pre; [|eapply ens_post; [apply (ens_finish client_workflow [] closed r LIVE "skipped" _ (clear r))| |done]].
  - intros c HA. split; [done|]. eapply At_clear; [done|apply live_unfenced].
  - apply mem_str_in. reflexivity.
  - reflexivity.
  - reflexivity.
  - intros s _ H. by apply elem_of_nil in H.
  - by right.
  - by intros _ c [].
Qed.

Lemma ens_is_current c r :
  ensures (At r LIVE) (_is_current c r) (fun b co => if b then At r LIVE co else Idle co) Safe.
Proof.
  unfold _is_current. eapply ens_bind; [apply ens_current_revision, At_safe|]. intros current. apply ens_pure. intros _.
  eapply ens_bind; [apply ens_job_item|]. intros v. destruct (py_eqb _ _); [by apply ens_ret|].
  eapply ens_bind; [apply ens_skipped|]. intros []. by apply ens_ret.
Qed.

(** A step within the live statuses. *)
Lemma ens_live_status r st : st ∈ LIVE ->
  ensures (At r LIVE) (set_status r st) (fun _ => At r LIVE) Safe.
Proof.
  intros Hst. assert (Hk : st ∈ statuses client_workflow /\ mem_str st (terminal_statuses client_workflow) = false /\
    st <> success_status client_workflow).
  { unfold LIVE in Hst. cbn. repeat (apply elem_of_cons in Hst as [->|Hst]; [by split_and!; [apply mem_str_in| |]|]).
    by apply elem_of_nil in Hst. }
  eapply ens_pre; [|eapply ens_post; [apply (ens_set_status client_workflow [] closed r LIVE st (clear r))| |done]].
  - intros c HA. split; [done|]. eapply At_clear; [done|apply live_unfenced].
  - apply Hk.
  - apply Hk.
  - apply Hk.
  - intros s _ H. by apply elem_of_nil in H.
  - by right.
  - intros _ c [[HA _] _]. eapply At_weaken; [done|]. intros s Hs _. by apply list_elem_of_singleton in Hs as ->.
Qed.

(** ** The stages *)
Lemma ens_download_stage c r :
  ensures (At r LIVE) (download_stage c r) (fun stop co => match stop with Some _ => Safe co | None => At r LIVE co end) Safe.
Proof.
  unfold download_stage. eapply ens_bind; [eapply ens_post; [apply ens_status| |done]|].
  { intros v co (st & _ & Hst & HA). instantiate (1 := fun _ => At r LIVE). eapply At_weaken; [done|].
    intros s Hs _. by apply list_elem_of_singleton in Hs as ->. }
  intros v. cbv beta. destruct (negb _); [by apply ens_ret|]. eapply ens_bind; [apply ens_live_status; unfold LIVE; set_solver|].
  intros []. apply ens_skip; [auto with framed|apply At_safe|]. intros _. apply ens_skip; [auto with framed|apply At_safe|].
  intros context. apply ens_skip; [auto with framed|apply At_safe|]. intros scheduled.
  destruct (assoc "source_round" context); [|apply ens_throw, At_safe]. apply ens_skip; [auto with framed|apply At_safe|].
  intros _. eapply ens_bind; [apply ens_is_current|]. intros []; cbn.
  - eapply ens_bind; [apply ens_live_status; unfold LIVE; set_solver|]. intros []. by apply ens_ret.
  - apply ens_ret. by intros co [].
Qed.

Lemma ens_training_stage c r :
  ensures (At r LIVE) (training_stage c r) (fun stop co => match stop with Some _ => Safe co | None => At r LIVE co end) Safe.
Proof.
  unfold training_stage. apply ens_skip; [auto with framed|apply At_safe|]. intros v.
  destruct (negb _); [by apply ens_ret|]. eapply ens_bind; [apply ens_is_current|]. intros []; cbn.
  - apply ens_skip; [auto with framed|apply At_safe|]. intros _. apply ens_skip; [auto with framed|apply At_safe|]. intros _.
    apply ens_skip; [auto with framed|apply At_safe|]. intros _. apply ens_skip; [auto with framed|apply At_safe|]. intros m.
    apply ens_skip; [auto with framed|apply At_safe|]. intros _.
    eapply ens_bind; [apply ens_live_status; unfold LIVE; set_solver|]. intros []. by apply ens_ret.
  - apply ens_ret. by intros co [].
Qed.

(** The fence is on disk before the upload starts. *)
Lemma ens_submit c r metadata :
  ensures (fun co => (At r ["publishing"] co /\ Synced co) /\ clear r (c_audit co)) (submit_round c r metadata)
    (fun _ => At r ["publishing"]) (At r ["publishing"]).
Proof.
  assert (Hpre : forall co, (At r ["publishing"] co /\ Synced co) /\ clear r (c_audit co) -> At r ["publishing"] co) by (by intros co [[]]).
  unfold submit_round. apply ens_skip; [auto with framed|done|]. intros m. apply ens_skip; [auto with framed|done|]. intros _.
  apply ens_skip; [auto with framed|done|]. intros n. eapply (ens_bind _ _ _ (fun _ => At r ["publishing"])).
  - intros w x w' Hp H. assert (Hx : x = Ok tt) by (by injection H). subst x.
    apply (ens_upload client_workflow [] closed r ["publishing"]) in H; [exact H| |exact Hp].
    intros s Hs. apply list_elem_of_singleton in Hs as ->. apply mem_str_in. reflexivity.
  - intros []. apply ens_frame; [auto with framed|done].
Qed.

Lemma ens_publish_stage c r : ensures (At r LIVE) (publish_stage c r) (fun _ => Safe) Safe.
Proof.
  unfold publish_stage. eapply ens_bind; [apply ens_is_current|]. intros []; cbn; [|by apply ens_ret; intros co []].
  apply ens_skip; [auto with framed|apply At_safe|]. intros _. apply ens_skip; [auto with framed|apply At_safe|]. intros m.
  apply ens_skip; [auto with framed|apply At_safe|]. intros _.
  assert (Hfence : forall s, s ∈ ["publishing"; "uncertain"] -> s ∈ fence client_workflow /\ s ∈ statuses client_workflow /\
    mem_str s (terminal_statuses client_workflow) = false /\ s <> success_status client_workflow).
  { intros s Hs. repeat (apply elem_of_cons in Hs as [->|Hs]; [by split_and!; try (apply mem_str_in; reflexivity)|]). by apply elem_of_nil in Hs. }
  eapply ens_bind; [eapply ens_pre; [|apply (ens_set_status client_workflow [] closed r LIVE "publishing" (clear r))]|].
  { intros co HA. split; [done|]. eapply At_clear; [done|apply live_unfenced]. }
  1-3: apply Hfence; set_solver.
  { intros s _ H. by apply elem_of_nil in H. }
  { left. apply Hfence. set_solver. }
  intros []. apply ens_skip; [auto with framed|by intros co [[[]]]|]. intros _.
  eapply ens_bind; [eapply ens_catch; [apply ens_submit|]|].
  - intros e. destruct (is_exception e); [|apply ens_throw, At_safe].
    eapply ens_bind; [eapply ens_pre; [|apply (ens_set_status client_workflow [] closed r ["publishing"] "uncertain" (fun _ => True))]|].
    { by intros co HA. }
    1-3: apply Hfence; set_solver.
    { intros s _ H. by apply elem_of_nil in H. }
    { left. apply Hfence. set_solver. }
    intros []. apply ens_skip; [auto with framed|by intros co [[[]]]|]. intros _. apply ens_throw. by intros co [[[]]].
  - intros result. eapply ens_bind; [eapply ens_pre; [|apply (ens_finish client_workflow [] closed r ["publishing"] "submitted" _ (fun _ => True))]|].
    { by intros co HA. }
    { apply mem_str_in. reflexivity. }
    { reflexivity. }
    { reflexivity. }
    { intros s _ H. by apply elem_of_nil in H. }
    { left. apply mem_str_in. reflexivity. }
    intros []. apply ens_ret. by intros co [[]].
Qed.

Lemma ens_run_stages c r : ensures (At r LIVE) (run_stages c r) (fun _ => Safe) Safe.
Proof.
  unfold run_stages. apply ens_skip; [auto with framed|apply At_safe|]. intros _. apply ens_skip; [auto with framed|apply At_safe|].
  intros _. eapply ens_bind; [apply ens_download_stage|]. intros [o|]; [by apply ens_ret|].
  eapply ens_bind; [apply ens_training_stage|]. intros [o|]; [by apply ens_ret|]. apply ens_publish_stage.
Qed.

(** ** One poll and one resolution *)
Lemma ens_active_job :
  ensures Safe active_job (fun job c => Safe c /\ exists m, c_memory c = Some m /\ st_active m = job) Safe.
Proof.
  unfold active_job. eapply ens_bind; [by apply ens_the_state|]. intros s. apply ens_ret. intros c [HS Hm]. split; [done|].
  exists s. split; [done|]. destruct (st_active s) as [a|] eqn:Ea; [|done].
  destruct (active_job_of _ _ _ _ (gd_formed _ _ _ _ _ (sf_memory _ _ _ _ HS _ Hm)) Ea) as (d & st & _ & E & _).
  unfold has_key. by rewrite E.
Qed.

(** After the check for an uncertain submission. *)
Definition Working (job : option string) (c : Core) : Prop :=
  match job with Some r => At r LIVE c | None => Idle c end.

Lemma Working_safe job c : Working job c -> Safe c.
Proof. destruct job; by intros []. Qed.

Lemma known_live st : st ∈ statuses client_workflow -> mem_str st (terminal_statuses client_workflow) = false ->
  status_in ["publishing"; "uncertain"] (JStr st) = false -> st ∈ LIVE.
Proof.
  intros Hst Ht Hu. cbn in Hst. repeat (apply elem_of_cons in Hst as [->|Hst]; [try done; apply mem_str_in; reflexivity|]).
  by apply elem_of_nil in Hst.
Qed.

Lemma ens_certain job e :
  ensures (fun c => Safe c /\ exists m, c_memory c = Some m /\ st_active m = job)
    (let* status := match job with Some r => job_item r "status" | None => ret JNull end in
     throw_if (status_in ["publishing"; "uncertain"] status) e)%py (fun _ => Working job) Safe.
Proof.
  destruct job as [r|]; cbn [Working].
  - eapply ens_bind; [eapply ens_pre; [|apply (ens_status _ _ _ r (statuses client_workflow))]; intros c (HS & m & Hm & Ha); by eapply active_at|].
    intros v. eapply ens_post; [apply (ens_throw_if _ _ (fun c => exists st, v = JStr st /\ st ∈ statuses client_workflow /\ At r [st] c) Safe)| |done].
    + intros c (st & _ & _ & HA & _). done.
    + intros u c [(st & -> & Hst & HA) Hu]. eapply At_weaken; [done|]. intros s Hs Ht. apply list_elem_of_singleton in Hs as ->.
      by apply known_live.
  - apply ens_skip; [auto with framed|by intros c []|]. intros v. eapply ens_post; [apply (ens_throw_if _ _ _ Safe)| |done].
    + by intros c [].
    + by intros u c [].
Qed.

(** [ens_bind] for a pair of statements read as one. *)
Lemma ens_bind2 {A B C} Pre (m : M Place A) (f : A -> M Place B) (g : B -> M Place C) Mid Post Exn :
  ensures Pre (bind m f) Mid Exn -> (forall b, ensures (Mid b) (g b) Post Exn) ->
  ensures Pre (bind m (fun a => bind (f a) g)) Post Exn.
Proof.
  intros Hm Hg w r w' Hp H. assert (E : bind m (fun a => bind (f a) g) w = bind (bind m f) g w).
  { unfold bind. by destruct (m w) as [[a|e] w1]. }
  rewrite E in H. by eapply (ens_bind _ _ _ _ _ _ Hm Hg).
Qed.

Lemma ens_poll_once c : ensures Safe (poll_once c) (fun _ => Safe) Safe.
Proof.
  unfold poll_once. apply ens_skip; [auto with framed|done|]. intros _. eapply ens_bind; [apply ens_active_job|]. intros job.
  apply ens_bind2 with (Mid := fun _ => Working job); [apply ens_certain|]. intros _.
  eapply ens_bind; [apply ens_current_revision, Working_safe|]. intros revision. apply ens_pure. intros Hne.
  eapply (ens_bind _ _ _ Working).
  { destruct job as [r|]; [|by apply ens_ret]. eapply ens_bind; [apply ens_job_item|]. intros v.
    destruct (py_eqb _ _); [by apply ens_ret|]. eapply ens_bind; [apply ens_skipped|]. intros []. by apply ens_ret. }
  intros [r|]; [apply ens_run_stages|]. eapply ens_bind; [apply ens_the_state; by intros co []|]. intros m.
  destruct (has_key revision (st_jobs m)) eqn:Hk.
  { apply ens_skip; [auto with framed|by intros co [[]]|]. intros _. apply ens_ret. by intros co [[]]. }
  assert (Hr : revision ∉ keys (st_jobs m)). { apply assoc_none. unfold has_key in Hk. by destruct (assoc _ _). }
  eapply ens_bind; [apply (ens_framed _ _ (fun n => 0 <= n)); [auto with framed| |by intros co [[]]]|].
  { intros w n w' H. unfold _round_metadata in H. apply bind_ok in H as (file & w1 & _ & H). apply bind_ok in H as (doc & w2 & Hd & H).
    apply lift_ok in Hd as [Hd _]. apply bind_ok in H as (u & w3 & _ & H). injection H as <- _. by apply round_nonneg in Hd. }
  intros source_round. apply ens_pure. intros Hn. unfold start_job.
  eapply ens_bind; [eapply ens_pre; [|apply (ens_start client_workflow [] closed revision _ "pending" m Hne Hr)]|].
  { by intros co [[HS (m' & Hm' & Ha)] Hm]; rewrite Hm in Hm'; injection Hm' as <-. }
  { split; cbn; try done; [apply mem_str_in; reflexivity|]. exists (JInt source_round). split; [done|]. by split. }
  { done. }
  intros []. cbv beta. eapply ens_pre with (Pre' := At revision LIVE).
  { intros co [HA _]. eapply At_weaken; [done|]. intros s Hs _. apply list_elem_of_singleton in Hs as ->. unfold LIVE. set_solver. }
  apply ens_skip; [auto with framed|apply At_safe|]. intros s. destruct (source_round <=? _); [|apply ens_run_stages].
  eapply ens_bind; [apply ens_skipped|]. intros []. apply ens_ret. by intros co [].
Qed.

Lemma ens_resolve_uncertain c action : ensures Safe (resolve_uncertain c action) (fun _ => Safe) Safe.
Proof.
  unfold resolve_uncertain. apply ens_skip; [auto with framed|done|]. intros _. apply ens_skip; [auto with framed|done|]. intros _.
  eapply ens_bind; [apply ens_active_job|]. intros [r|]; [|by apply ens_throw; intros co []].
  eapply ens_bind; [eapply ens_pre; [|apply (ens_status _ _ _ r (statuses client_workflow))]; intros co (HS & m & Hm & Ha); by eapply active_at|].
  intros v. apply ens_bind with (Mid := fun _ => At r ["publishing"; "uncertain"]).
  { eapply ens_post; [apply (ens_throw_if _ _ (fun c => exists st, v = JStr st /\ st ∈ statuses client_workflow /\ At r [st] c) Safe)| |done].
    - intros co (st & _ & _ & HA & _). done.
    - intros u co [(st & -> & Hst & HA) Hu]. eapply At_weaken; [done|]. intros s Hs _. apply list_elem_of_singleton in Hs as ->.
      apply negb_false_iff in Hu. by apply mem_str_in in Hu. }
  intros _. destruct (String.eqb action "submitted").
  - eapply ens_pre; [|eapply ens_post; [apply (ens_finish client_workflow [] closed r ["publishing"; "uncertain"] "submitted" _ (fun _ => True))| |done]].
    + by intros co HA.
    + apply mem_str_in. reflexivity.
    + reflexivity.
    + reflexivity.
    + intros s _ H. by apply elem_of_nil in H.
    + left. apply mem_str_in. reflexivity.
    + by intros _ co [[]].
  - eapply ens_bind; [apply ens_authorize|]. intros [].
    eapply ens_bind; [apply (ens_set_status client_workflow [] closed r ["publishing"; "uncertain"] "ready" (clear r))|].
    + apply mem_str_in. reflexivity.
    + reflexivity.
    + done.
    + intros s _ H. by apply elem_of_nil in H.
    + by right.
    + intros []. eapply ens_pre with (Pre' := Safe); [by intros co [[[]]]|]. apply ens_frame; [auto with framed|done].
Qed.
End Client.
