(* ===== verification/ListenerGuarantees.v ===== *)
(** * What the training listener guarantees

    Theorems about every directory that listeners, crashes, restarts and
    operators can reach from an empty one, with a run in which an upload is
    interrupted by the end of the process. *)

From stdpp Require Import base gmap strings list relations.
From Stdlib Require Import ZArith Lia Ascii String QArith.
From S2P Require Import Prelude Json Domain Scenario Protocol ProtocolTheory Listener ClientListener ListenerTheory ClientListenerTheory.
Import Protocol.
Open Scope Z_scope.

(** ** A directory over time *)
Inductive Op :=
  | Enter (c : Config)
  | Poll (c : Config)
  | Resolve (c : Config) (action : string)
  | RunFor (c : Config) (once : bool) (max_rounds : option Z) (poll_interval max_backoff : Q) (fuel : nat)
  | Leave (c : Config)
  | Wait (n : N).

Section Directory.
Context {T : Site} {P : Platform}.

(** A statement of listener [c]; the end of its process gives up the lock and
    what was in memory. *)
Definition outlive {A} (c : Config) (m : M Place A) (w : Place) : Place :=
  match m w with
  | (Err Killed, w') => (leave_session c w').2
  | (_, w') => w'
  end.

Definition perform (op : Op) (w : Place) : Place :=
  match op with
  | Enter c => outlive c (enter client_workflow c) w
  | Poll c => outlive c (poll_once c) w
  | Resolve c action => outlive c (resolve_uncertain c action) w
  | RunFor c once max_rounds poll_interval max_backoff fuel =>
      outlive c (run c (poll_once c) client_workflow once max_rounds poll_interval max_backoff fuel) w
  | Leave c => outlive c (leave_session c) w
  | Wait n => w <| tick := (tick w + n)%N |>
  end.

Definition step (w w' : Place) : Prop := exists op, w' = perform op w.

Definition empty_place : Place := mkPlace None [] ∅ ∅ None None [] 0%N.
Definition visited (w : Place) : Prop := rtc step empty_place w.

(** The status a saved document gives a revision. *)
Definition saved_status (w : Place) (r : string) : option json :=
  match disk w with
  | Some (Ok doc) => match get_or_none doc "jobs" with JObj jobs => job_status_of <$> assoc r jobs | _ => None end
  | _ => None
  end.

(** ** The invariant along steps *)
Notation Safe := (Safe client_workflow []).

Lemma ens_run_loop closed (poll : M Place string) once max_rounds interval backoff fuel completed delay :
  ensures (Safe closed) poll (fun _ => Safe closed) (Safe closed) ->
  ensures (Safe closed) (run_loop poll client_workflow once max_rounds interval backoff fuel completed delay)
    (fun _ => Safe closed) (Safe closed).
Proof.
  intros Hp. revert completed delay. induction fuel as [|fuel IH]; intros completed delay; cbn [run_loop]; [by apply ens_ret|].
  apply ens_bind with (Mid := fun _ => Safe closed).
  { eapply ens_catch with (Mid := Safe closed).
    - eapply ens_bind; [exact Hp|]. intros o. by apply ens_ret.
    - intros e. eapply ens_post; [apply (ens_frame (Safe closed) _ (Safe closed))| |]; [|done..]. destruct e; framing. }
  intros [o|]; [|apply IH]. cbv zeta. destruct (once || _); [by apply ens_ret|].
  apply ens_skip; [auto with framed|done|]. intros _. apply IH.
Qed.

Lemma ens_run closed c once max_rounds interval backoff fuel :
  ensures (Safe closed) (run c (poll_once c) client_workflow once max_rounds interval backoff fuel)
    (fun _ => Safe closed) (Safe closed).
Proof.
  unfold run. do 3 (apply ens_skip; [auto with framed|done|]; intros _). apply ens_run_loop, ens_poll_once.
Qed.

Lemma outlive_safe {A} closed c (m : M Place A) w :
  ensures (Safe closed) m (fun _ => Safe closed) (Safe closed) -> Safe closed (core w) -> Safe closed (core (outlive c m w)).
Proof.
  intros Hm HS. unfold outlive. destruct (m w) as [[a|e] w'] eqn:E; specialize (Hm _ _ _ HS E); cbn in Hm; [done|].
  destruct e; try done. destruct (leave_session c w') as [x w''] eqn:El.
  pose proof (ens_leave_session client_workflow [] closed c w' x w'' Hm El) as H. by destruct x.
Qed.

Lemma perform_safe closed op w : Safe closed (core w) -> Safe closed (core (perform op w)).
Proof.
  destruct op; cbn [perform]; intros HS.
  - apply outlive_safe; [apply ens_enter, client_sane|done].
  - apply outlive_safe; [apply ens_poll_once|done].
  - apply outlive_safe; [apply ens_resolve_uncertain|done].
  - apply outlive_safe; [apply ens_run|done].
  - apply outlive_safe; [apply ens_leave_session|done].
  - done.
Qed.

Lemma steps_safe closed w w' : rtc step w w' -> Safe closed (core w) -> Safe closed (core w').
Proof. induction 1 as [|w w1 w2 [op ->] _ IH]; [done|]. intros HS. by apply IH, perform_safe. Qed.

Lemma empty_safe : Safe [] (core empty_place).
Proof. split; cbn; try done. Qed.

Lemma visited_safe w : visited w -> Safe [] (core w).
Proof. intros H. exact (steps_safe _ _ _ H empty_safe). Qed.

Lemma saved_status_of w s r : disk w = Some (Ok (state_doc s)) -> saved_status w r = status_of s r.
Proof. intros H. unfold saved_status. by rewrite H. Qed.

(** C35: no submission is repeated without an operator.  In every directory
    that listeners can reach -- whatever the store, the file system and the
    trainer answer, and wherever processes die -- a revision was uploaded at
    most once more than operators authorized with [retry]; and if it was, the
    saved state records its submission as made, under way or uncertain.  Once
    the state saved by a closed listener has a revision as submitted or
    skipped, it stays so and the revision is never uploaded again. *)
Theorem submissions_fenced w r : visited w ->
  ((uploads r (audit w) <= authorized r (audit w))%nat \/
   uploads r (audit w) = S (authorized r (audit w)) /\
   exists st, saved_status w r = Some (JStr st) /\ st ∈ ["submitted"; "publishing"; "uncertain"]) /\
  (forall st w', memory w = None -> saved_status w r = Some (JStr st) -> st ∈ ["submitted"; "skipped"] -> rtc step w w' ->
   uploads r (audit w') = uploads r (audit w) /\
   exists st', saved_status w' r = Some (JStr st') /\ st' ∈ ["submitted"; "skipped"]).
Proof.
  intros H. pose proof (visited_safe w H) as [HD _ HN]. cbn in HD, HN. split.
  - destruct (disk w) as [contents|] eqn:Ed; [|left; by apply HN]. destruct (HD _ eq_refl) as (s & -> & G & _).
    destruct (gd_fenced _ _ _ _ _ G r) as [|[H1 H2]]; [by left|right]. split; [done|]. by rewrite (saved_status_of _ _ _ Ed).
  - intros st w' Hm Hst Hin Hw'. destruct (disk w) as [contents|] eqn:Ed; [|unfold saved_status in Hst; by rewrite Ed in Hst].
    destruct (HD _ eq_refl) as (s & -> & [W F _] & Hj). rewrite (saved_status_of _ _ _ Ed) in Hst.
    set (closed := [(r, uploads r (audit w))]).
    assert (HS : Safe closed (core w)).
    { split; cbn; rewrite ?Ed, ?Hm; try done. intros contents [= <-]. exists s. split_and!; try done. split; try done.
      intros x n Hx. apply list_elem_of_singleton in Hx as [= -> ->]. split; [|done]. by exists st. }
    destruct (steps_safe closed _ _ Hw' HS) as [HD' _ HN']. cbn in HD', HN'.
    destruct (disk w') as [contents|] eqn:Ed'; [|by destruct (HN' eq_refl)]. destruct (HD' _ eq_refl) as (s' & -> & G' & _).
    destruct (gd_settled _ _ _ _ _ G' r (uploads r (audit w))) as [(st' & H1 & H2) Hu]; [by left|]. split; [done|].
    exists st'. by rewrite (saved_status_of _ _ _ Ed').
Qed.

(** ** Opening again *)

(** What opening makes of a saved state: an interrupted publication is
    uncertain. *)
Definition recovered (s : State) : State :=
  match st_active s with
  | Some r => if decide (status_of s r = Some (JStr "publishing"))
              then with_job r (assoc_set "status" (JStr "uncertain")) s else s
  | None => s
  end.

Lemma change_made f w : (forall n, fate n = Made) -> change f w = (Ok tt, f (w <| tick := (tick w + 1)%N |>)).
Proof. intros H. unfold change, bind, consult. by rewrite H. Qed.

Lemma the_state_run w m : memory w = Some m -> the_state w = (Ok m, w).
Proof. intros H. unfold the_state, gets, bind. by rewrite H. Qed.

Lemma save_made w m : (forall n, fate n = Made) -> memory w = Some m -> dumpable (JObj (state_doc m)) ->
  exists w', save w = (Ok tt, w') /\ memory w' = Some m /\ disk w' = Some (Ok (state_doc m)) /\ holder w' = holder w.
Proof.
  intros HF Hm [n Hn]. unfold save, catch, the_state, gets, bind, lift, ret. rewrite Hm. cbv beta iota. rewrite Hn.
  rewrite change_made by done. by eexists.
Qed.

Lemma recovered_dumpable s : dumpable (JObj (state_doc s)) -> dumpable (JObj (state_doc (recovered s))).
Proof.
  unfold recovered. destruct (st_active s) as [r|] eqn:Ea; [|done]. destruct (decide _) as [Hs|]; [|done]. intros H.
  unfold with_job. destruct (job_of s r) as [d|] eqn:Ej; [|done].
  pose proof (dumpable_item "jobs" _ _ H eq_refl) as Hjobs. unfold job_of in Ej.
  destruct (assoc r (st_jobs s)) as [[| | | | | |d']|] eqn:Ed; try done. injection Ej as ->.
  pose proof (dumpable_item _ _ _ Hjobs Ed) as Hd.
  assert (Hjobs' : dumpable (JObj (assoc_set r (JObj (assoc_set "status" (JStr "uncertain") d)) (st_jobs s)))).
  { apply dumpable_set; [|done]. apply dumpable_set; [|done]. by exists 11. }
  exact (dumpable_set "jobs" _ _ Hjobs' H).
Qed.

(** Opening a directory with the saved state [s] in it. *)
Lemma enter_quiet c w s :
  (forall n, fate n = Made) -> holder w = None -> disk w = Some (Ok (state_doc s)) -> well_formed client_workflow [] s ->
  py_eqb (st_identity s) (cf_identity c) = true -> dumpable (JObj (state_doc s)) ->
  exists w', enter client_workflow c w = (Ok tt, w') /\ memory w' = Some (recovered s) /\
    disk w' = Some (Ok (state_doc (recovered s))) /\ holder w' = Some c.
Proof.
  intros HF Hh Hd W Hi Hj. unfold enter. unfold bind at 1, gets. cbv beta iota. unfold id. rewrite Hh.
  rewrite bool_decide_eq_false_2 by done. unfold bind at 1, throw_if at 1, ret. cbv beta iota.
  unfold bind at 1. rewrite (change_made (fun w => w)) by done. cbv beta iota. rewrite bool_decide_eq_false_2 by (by intros []).
  unfold bind at 1, throw_if, ret. cbv beta iota. unfold bind at 1, modify. cbv beta iota.
  set (w1 := _ <| holder := Some c |>).
  assert (Ho : exists w', open_state client_workflow c w1 = (Ok tt, w') /\ memory w' = Some (recovered s) /\
    disk w' = Some (Ok (state_doc (recovered s))) /\ holder w' = Some c).
  { unfold open_state. unfold bind at 1, gets, id. cbv beta iota. change (disk w1) with (disk w). rewrite Hd.
    unfold bind at 1, bind at 1, ret. cbv beta iota. unfold bind at 1, lift. rewrite (reopened _ _ (sn_nulls _ _ client_sane) _ _ W Hi).
    cbv beta iota. unfold modify. cbv beta iota. unfold bind at 1. rewrite (change_made (fun w => w)) by done. cbv beta iota.
    unfold bind at 1. rewrite (the_state_run _ s) by done. cbv beta iota.
    unfold recovered. destruct (st_active s) as [r|] eqn:Ea; [|by eexists].
    destruct (active_job_of _ _ _ _ W Ea) as (d & st & Hjob & He & Hok & _).
    unfold bind at 1. rewrite (job_item_run _ s r "status" d (JStr st)) by (done || apply Hok). cbv beta iota.
    assert (Est : status_of s r = Some (JStr st)).
    { unfold status_of. rewrite He. cbn. unfold get_or_none. by rewrite (jo_status _ _ _ _ _ _ Hok). }
    rewrite Est. cbn [py_eqb]. destruct (String.eqb_spec st "publishing") as [->|Hn]; cbn [when].
    - rewrite decide_True by done. unfold set_status. unfold bind at 1. rewrite (set_state_run _ _ s) by done. cbv beta iota.
      set (s' := with_job r (assoc_set "status" (JStr "uncertain")) s).
      assert (Hr : dumpable (JObj (state_doc s'))).
      { pose proof (recovered_dumpable s Hj) as Hr. unfold recovered in Hr. by rewrite Ea, Est, decide_True in Hr by done. }
      match goal with |- context [save ?p] => destruct (save_made p s' HF eq_refl Hr) as (w' & E & H1 & H2 & H3) end.
      by exists w'.
    - rewrite decide_False by congruence. by eexists. }
  destruct Ho as (w' & E & H). exists w'. unfold catch. by rewrite E.
Qed.

(** C39: what is saved can always be opened again.  In every directory that
    listeners can reach, after any crash, [state.json] holds the document of a
    state that validation accepts for a listener of the same identity and reads
    back unchanged; and when no listener is open and the file system works,
    opening succeeds with that state, except that a publication it was in the
    middle of is marked uncertain, on disk as well. *)
Theorem saved_state_reopens w contents : visited w -> disk w = Some contents ->
  exists s, contents = Ok (state_doc s) /\ forall c, py_eqb (st_identity s) (cf_identity c) = true ->
    validate_state client_workflow (cf_identity c) (state_doc s) = Ok s /\
    ((forall n, fate n = Made) -> holder w = None ->
     exists w', enter client_workflow c w = (Ok tt, w') /\ memory w' = Some (recovered s) /\
       disk w' = Some (Ok (state_doc (recovered s))) /\ holder w' = Some c).
Proof.
  intros H Hd. destruct (sf_disk _ _ _ _ (visited_safe w H) _ Hd) as (s & -> & G & Hj). exists s. split; [done|].
  intros c Hi. split; [apply (reopened _ _ (sn_nulls _ _ client_sane)); [apply G|done]|].
  intros HF Hh. by apply enter_quiet; [..|apply G| |].
Qed.
End Directory.

(** ** A run *)
Module Run.
(** Every upload before the sixtieth call ends the process. *)
Definition site : Site := {|
  fate _ := Made;
  on_event _ _ := Ok tt;
  store_name := "demo";
  resolve_reference _ _ := Ok (JStr "rev-1");
  download_round_file _ _ := Ok (JObj [("schema_version", JInt 1); ("round", JInt 0)]);
  download_client_round _ revision := Ok [("schema_version", JInt 2); ("backend", JStr "demo"); ("repo_id", JStr "models/a");
    ("requested_revision", JStr revision); ("base_revision", JStr revision); ("source_round", JInt 0);
    ("base_model_dir", JStr "base_model")];
  base_files _ _ := Ok (JObj [("model.safetensors", JStr "00")]);
  train_model _ _ _ := Ok (JObj [("num_examples", JInt 5); ("epochs", JInt 2)]);
  trained_files _ _ := Ok (JObj [("model.safetensors", JStr "01")]);
  upload_client_update n _ _ _ := if (n <? 60)%N then Err Killed else Ok (JObj [("revision", JStr "sub-1")]);
|}.
#[export] Existing Instance site.

Definition clinic : Config := mkConfig "clinic" (JObj [("backend", JStr "demo")]) "models/a" "main" "clinic" (JObj []).

Definition play (ops : list Op) : Place := fold_left (fun w op => perform op w) ops empty_place.

Lemma played ops : visited (play ops).
Proof.
  unfold play, visited. generalize empty_place. induction ops as [|op ops IH]; intros w; cbn; [constructor|].
  eapply rtc_l; [by exists op|apply IH].
Qed.

(** The process dies while it uploads. *)
Definition crashed : Place := play [Enter clinic; Poll clinic].
(** Another opens the directory, and an operator allows a second upload. *)
Definition resumed : Place := play [Enter clinic; Poll clinic; Enter clinic; Poll clinic; Resolve clinic "retry"; Wait 60; Poll clinic; Leave clinic].
End Run.
Import Run.

(** The upload that was interrupted is uncertain to whoever opens the
    directory next; with the authorized one, there are two. *)
Lemma submissions_fenced_witness :
  (uploads "rev-1" (audit crashed), authorized "rev-1" (audit crashed)) = (1, 0)%nat /\
  saved_status crashed "rev-1" = Some (JStr "publishing") /\
  (uploads "rev-1" (audit resumed), authorized "rev-1" (audit resumed)) = (2, 1)%nat /\
  (forall w', rtc step resumed w' -> uploads "rev-1" (audit w') = 2%nat).
Proof.
  split_and!; [vm_compute; reflexivity..|]. intros w' Hw.
  destruct (submissions_fenced resumed "rev-1" (played _)) as [_ H].
  destruct (H "submitted" w') as [-> _]; [vm_compute; reflexivity..| |exact Hw|vm_compute; reflexivity]. by left.
Defined.

(** What the interrupted process left on disk. *)
Definition left_behind : State := Eval vm_compute in
  match disk crashed with
  | Some (Ok doc) => match validate_state client_workflow (cf_identity clinic) doc with Ok s => s | Err _ => mkState JNull 0 None [] [] end
  | _ => mkState JNull 0 None [] []
  end.

Lemma state_doc_inj s s' : state_doc s = state_doc s' -> s = s'.
Proof. destruct s as [? ? [] ? ?], s' as [? ? [] ? ?]; cbn; congruence. Qed.

(** It opens, with its upload uncertain. *)
Lemma saved_state_reopens_witness :
  exists w', enter client_workflow clinic crashed = (Ok tt, w') /\ saved_status w' "rev-1" = Some (JStr "uncertain").
Proof.
  assert (E : disk crashed = Some (Ok (state_doc left_behind))) by (vm_compute; reflexivity).
  assert (Eh : holder crashed = None) by (vm_compute; reflexivity).
  destruct (saved_state_reopens crashed _ (played _) E) as (s & Es & H).
  assert (left_behind = s) as <- by (apply state_doc_inj; congruence).
  destruct (H clinic) as [_ Ho]; [reflexivity|]. destruct (Ho (fun n => eq_refl) Eh) as (w' & E1 & _ & E2 & _).
  exists w'. split; [exact E1|]. unfold saved_status. rewrite E2. vm_compute. reflexivity.
Defined.
