(* ===== verification/NodeLogic.v ===== *)
(** * What every thread of a node agent keeps

    The invariant of the ledger and of the record of the executor's calls, what
    one step may do to the rows that another thread guards, and a program logic
    for the statements of [NodeAgent] in which both are kept through every
    answer, every exception, the end of the process at any point and whatever
    the other threads do. *)

From stdpp Require Import base gmap strings list fin_maps.
From Stdlib Require Import ZArith Lia QArith.
From S2P Require Import Prelude Json Domain Schemas JobSpec NodeAgent.
Open Scope Z_scope.
Open Scope py_scope.

(** ** Confirmations *)
Definition answered (h : list Event) (c : Call) (i : ExecutionIdentity) : Prop := Answered c i true ∈ h.
(** The executor confirmed that the execution has ended. *)
Definition terminated (h : list Event) (i : ExecutionIdentity) : Prop :=
  answered h CallInspect i \/ answered h CallStop i \/ answered h CallAbsent i.
(** The executor confirmed that it gave up the resources of the execution. *)
Definition given_up (h : list Event) (i : ExecutionIdentity) : Prop := answered h CallRelease i \/ answered h CallAbsent i.
Definition ended (h : list Event) (i : ExecutionIdentity) : Prop := terminated h i /\ given_up h i.
(** The executor confirmed that it deleted what the execution had retained. *)
Definition deleted (h : list Event) (i : ExecutionIdentity) : Prop := answered h CallPurge i \/ answered h CallAbsent i.

#[global] Instance event_eq_dec : EqDecision Event.
Proof.
  assert (EqDecision Q) by solve_decision. assert (EqDecision Execution) by solve_decision.
  assert (EqDecision Ledger) by solve_decision. solve_decision.
Defined.
#[global] Instance given_up_dec h i : Decision (given_up h i).
Proof. unfold given_up, answered. apply _. Defined.

Lemma answered_app l h c i : answered h c i -> answered (l ++ h) c i.
Proof. unfold answered. rewrite elem_of_app. by right. Qed.
Lemma terminated_app l h i : terminated h i -> terminated (l ++ h) i.
Proof. unfold terminated. intros [|[|]]; eauto using answered_app. Qed.
Lemma given_up_app l h i : given_up h i -> given_up (l ++ h) i.
Proof. unfold given_up. intros [|]; eauto using answered_app. Qed.
Lemma ended_app l h i : ended h i -> ended (l ++ h) i.
Proof. unfold ended. intros [? ?]; eauto using terminated_app, given_up_app. Qed.
Lemma deleted_app l h i : deleted h i -> deleted (l ++ h) i.
Proof. unfold deleted. intros [|]; eauto using answered_app. Qed.
#[export] Hint Resolve answered_app terminated_app given_up_app ended_app deleted_app : core.

(** The compute of the executions whose resources are not known to be given up. *)
Definition held_by (f : Execution -> Z) (h : list Event) (d : Ledger) : Z :=
  sum_map (fun r => if bool_decide (given_up h (row_identity r)) then 0 else f r) (executions d).

Section Rules.
Context {P : Platform} {X : Executor} {H : Host}.

(** ** The invariant *)
Record row_ok (h : list Event) (r : Execution) : Prop := {
  ro_released : x_state r = "RELEASED" -> ended h (row_identity r);
  ro_stopped : x_stopped r = true -> terminated h (row_identity r);
  ro_absent : x_executor_absent r = true -> answered h CallAbsent (row_identity r);
  ro_purged : x_disk_released r = true -> ended h (row_identity r) /\ deleted h (row_identity r);
  ro_cpu : 0 < x_cpu_millis r;
  ro_memory : 0 < x_memory_bytes r;
  ro_disk : 0 < x_disk_bytes r;
  ro_auxiliary : 0 <= x_auxiliary_bytes r;
}.

(** An effect is asked for under an unreleased row whose epoch is the fence of
    its component, when every other execution of the component has ended;
    resources are given up when the execution has ended, and what it retained
    is deleted after that. *)
Definition effect_ok (i : ExecutionIdentity) (d : Ledger) (h : list Event) : Prop :=
  fences d !! component_of i = Some (epoch i) /\
  (exists r, executions d !! key i = Some r /\ row_identity r = i /\ unreleased r = true) /\
  forall k r, executions d !! k = Some r -> row_component r = component_of i -> k <> key i -> ended h (row_identity r).
Definition event_ok (e : Event) (h : list Event) : Prop :=
  match e with
  | Called CallReserve i d | Called CallStart i d => effect_ok i d h
  | Called CallRelease i _ => terminated h i
  | Called CallPurge i _ => ended h i
  | _ => True
  end.
Fixpoint history_ok (h : list Event) : Prop :=
  match h with [] => True | e :: h' => event_ok e h' /\ history_ok h' end.

(** The assignments made to the node; different ones have different keys. *)
Class Assignments := {
  issued : ExecutionIdentity -> Prop;
  issued_keys : forall i j, issued i -> issued j -> key i = key j -> i = j;
}.
Context {I : Assignments} (limits : ResourceLimits).

Record sound (d : Ledger) (h : list Event) : Prop := {
  so_keyed : forall k r, executions d !! k = Some r -> k = key (row_identity r) /\ issued (row_identity r);
  so_active : forall k1 k2 r1 r2, executions d !! k1 = Some r1 -> executions d !! k2 = Some r2 ->
    row_component r1 = row_component r2 -> unreleased r1 = true -> unreleased r2 = true -> k1 = k2;
  so_fenced : forall k r, executions d !! k = Some r -> exists e, fences d !! row_component r = Some e /\ x_epoch r <= e;
  so_epochs : forall k1 k2 r1 r2, executions d !! k1 = Some r1 -> executions d !! k2 = Some r2 ->
    row_component r1 = row_component r2 -> x_epoch r1 = x_epoch r2 -> k1 = k2;
  so_rows : forall k r, executions d !! k = Some r -> row_ok h r;
  so_shared : forall c n, shared_auxiliary d !! c = Some n -> 0 <= n;
  so_storage : storage_usage d <= disk_bytes limits;
  so_cpu : held_by x_cpu_millis h d <= cpu_millis limits;
  so_memory : held_by x_memory_bytes h d <= memory_bytes limits;
  so_history : history_ok h;
}.

(** ** What a step keeps *)

(** The columns of a row that never change, or only in one direction; a lease
    that has run out is not extended. *)
Record kept (tick : N) (r r' : Execution) : Prop := {
  kp_identity : row_identity r' = row_identity r;
  kp_spec : x_spec r' = x_spec r;
  kp_cpu : x_cpu_millis r' = x_cpu_millis r;
  kp_memory : x_memory_bytes r' = x_memory_bytes r;
  kp_disk : x_disk_bytes r' = x_disk_bytes r;
  kp_deadline : x_deadline r' = x_deadline r;
  kp_boot : x_boot_id r' = x_boot_id r;
  kp_stopped : x_stopped r = true -> x_stopped r' = true;
  kp_purged : x_disk_released r = true -> x_disk_released r' = true;
  kp_absent : x_executor_absent r = true -> x_executor_absent r' = true;
  kp_lease : Qlt_bool (monotonic (x_boot_id r) tick) (x_lease_until r) = false -> x_lease_until r' = x_lease_until r;
}.

(** What the others may do to a row while its guard is held: renew its lease,
    charge it, or quarantine it. *)
Record steady (r r' : Execution) : Prop := {
  st_state : x_state r' = x_state r \/ x_state r' = "QUARANTINED";
  st_stopped : x_stopped r' = x_stopped r;
  st_purged : x_disk_released r' = x_disk_released r;
  st_absent : x_executor_absent r' = x_executor_absent r;
}.

(** One step, or several: rows stay, under the guards [Q] steadily; no new row
    under [Q], nor of a component under [C]; fences move forward, and not that
    of an unreleased row under [Q]. *)
Record moves (Q C : string -> Prop) (w w' : Node) : Prop := {
  mv_tick : (nd_tick w <= nd_tick w')%N;
  mv_calls : exists l, nd_calls w' = l ++ nd_calls w;
  mv_rows : forall k r, executions (nd_ledger w) !! k = Some r ->
    exists r', executions (nd_ledger w') !! k = Some r' /\ kept (nd_tick w) r r' /\ (Q k -> steady r r');
  mv_fences : forall c e, fences (nd_ledger w) !! c = Some e -> exists e', fences (nd_ledger w') !! c = Some e' /\ e <= e';
  mv_fence : forall k r, Q k -> executions (nd_ledger w) !! k = Some r -> unreleased r = true ->
    fences (nd_ledger w') !! row_component r = fences (nd_ledger w) !! row_component r;
  mv_new : forall k r', executions (nd_ledger w') !! k = Some r' -> Q k \/ C (component_key (row_component r')) ->
    is_Some (executions (nd_ledger w) !! k);
}.

Class SteadyClock := clock_forward : forall b m n, (m <= n)%N -> Qle_bool (monotonic b m) (monotonic b n) = true.
Context {HC : SteadyClock}.

Lemma expired_later b m n q : (m <= n)%N -> Qlt_bool (monotonic b m) q = false -> Qlt_bool (monotonic b n) q = false.
Proof.
  unfold Qlt_bool. rewrite !negb_false_iff, !Qle_bool_iff. intros Hmn Hq. eapply Qle_trans; [exact Hq|].
  apply Qle_bool_iff. by apply clock_forward.
Qed.

Lemma row_kept_refl t r : kept t r r.
Proof. by split. Qed.
Lemma row_kept_trans t t' r1 r2 r3 : (t <= t')%N -> kept t r1 r2 -> kept t' r2 r3 -> kept t r1 r3.
Proof.
  intros Ht [] []. split; try congruence; try tauto. intros He.
  rewrite kp_lease1; [by apply kp_lease0|]. rewrite kp_lease0, kp_boot0 by done. by eapply expired_later.
Qed.
Lemma steady_refl r : steady r r.
Proof. split; auto. Qed.
Lemma steady_trans r1 r2 r3 : steady r1 r2 -> steady r2 r3 -> steady r1 r3.
Proof. intros [[] ? ? ?] [[] ? ? ?]; split; try congruence; (left; congruence) || (right; congruence). Qed.
Lemma steady_unreleased r r' : steady r r' -> unreleased r = true -> unreleased r' = true.
Proof. unfold unreleased. intros [[->| ->] _ _ _]; done. Qed.
Lemma kept_component t r r' : kept t r r' -> row_component r' = row_component r.
Proof. intros [E _ _ _ _ _ _ _ _ _ _]. unfold row_identity, row_component in *. congruence. Qed.

Lemma node_moves_refl Q C w : moves Q C w w.
Proof.
  split; [done|by exists []| | |done|by eexists].
  - intros k r Hr. exists r. eauto using row_kept_refl, steady_refl.
  - intros c e He. exists e. split; [done|lia].
Qed.
Lemma node_moves_trans Q C w1 w2 w3 : moves Q C w1 w2 -> moves Q C w2 w3 -> moves Q C w1 w3.
Proof.
  intros [T1 [l1 L1] R1 F1 G1 N1] [T2 [l2 L2] R2 F2 G2 N2]. split.
  - lia.
  - exists (l2 ++ l1). by rewrite L2, L1, app_assoc.
  - intros k r Hr. destruct (R1 _ _ Hr) as (r' & Hr' & K & S). destruct (R2 _ _ Hr') as (r'' & Hr'' & K' & S').
    exists r''. split_and!; [done|by eapply row_kept_trans|]. intros HQ. eapply steady_trans; eauto.
  - intros c e He. destruct (F1 _ _ He) as (e' & He' & ?). destruct (F2 _ _ He') as (e'' & He'' & ?). exists e''. split; [done|lia].
  - intros k r HQ Hr Hu. destruct (R1 _ _ Hr) as (r' & Hr' & K & S). rewrite <- (G1 k r HQ Hr Hu).
    rewrite <- (kept_component _ _ _ K). apply (G2 k); eauto using steady_unreleased.
  - intros k r' Hr' HQC. destruct (N2 _ _ Hr' HQC) as [r2 Hr2]. apply (N1 _ _ Hr2).
    destruct HQC as [?|HC']; [by left|right]. destruct (R2 _ _ Hr2) as (r3 & Hr3 & K & _). rewrite Hr' in Hr3. injection Hr3 as <-.
    by rewrite <- (kept_component _ _ _ K).
Qed.
Lemma moves_weaken (Q Q' C C' : string -> Prop) w w' :
  (forall k, Q k -> Q' k) -> (forall k, C k -> C' k) -> moves Q' C' w w' -> moves Q C w w'.
Proof.
  intros HQ HC' [T L R F G N]. split; eauto.
  - intros k r Hr. destruct (R _ _ Hr) as (r' & ? & ? & ?). exists r'. eauto.
  - intros k r' Hr' [?|?]; eapply N; eauto.
Qed.

(** ** Steps of the ledger *)

Lemma row_ok_app l h r : row_ok h r -> row_ok (l ++ h) r.
Proof. intros []. split; eauto. intros E. destruct (ro_purged0 E). eauto. Qed.

Lemma held_by_app f l h d : (forall k r, executions d !! k = Some r -> 0 < f r) -> held_by f (l ++ h) d <= held_by f h d.
Proof.
  intros Hf. apply sum_map_le. intros k r Hr. specialize (Hf k r Hr). repeat case_bool_decide; try lia.
  exfalso. eauto.
Qed.

Lemma sound_event e d h : sound d h -> event_ok e h -> sound d (e :: h).
Proof.
  intros [] He. split; eauto.
  - intros k r Hr. apply (row_ok_app [e]). eauto.
  - etransitivity; [|exact so_cpu0]. apply (held_by_app _ [e]). intros k r Hr. by destruct (so_rows0 k r Hr).
  - etransitivity; [|exact so_memory0]. apply (held_by_app _ [e]). intros k r Hr. by destruct (so_rows0 k r Hr).
  - done.
Qed.

Lemma sound_positive d h : sound d h -> forall k r, executions d !! k = Some r -> 0 <= row_storage r.
Proof.
  intros Hs k r Hr. destruct (so_rows _ _ Hs k r Hr). unfold row_storage, EXECUTION_STORAGE_HEADROOM_BYTES. destruct (x_disk_released r); lia.
Qed.

(** A row that takes a state, flags, a lease or charges. *)
Record updates (h : list Event) (d : Ledger) (k : string) (r r' : Execution) : Prop := {
  up_kept : row_identity r' = row_identity r /\ x_cpu_millis r' = x_cpu_millis r /\ x_memory_bytes r' = x_memory_bytes r;
  up_ok : row_ok h r';
  up_active : unreleased r' = true -> forall k2 r2, executions d !! k2 = Some r2 -> row_component r2 = row_component r' ->
    unreleased r2 = true -> k2 = k;
  up_storage : storage_usage d - row_storage r + row_storage r' <= disk_bytes limits;
}.
Definition put_row (k : string) (r : Execution) (d : Ledger) : Ledger := d <| executions ::= <[k := r]> |>.

Lemma held_by_update f h d k r r' : executions d !! k = Some r -> row_identity r' = row_identity r -> f r' = f r ->
  held_by f h (put_row k r' d) = held_by f h d.
Proof. intros Hr Hi Hf. unfold held_by. cbn. rewrite (sum_map_insert _ _ _ _ _ Hr), Hi, Hf. lia. Qed.

Lemma sound_update d h k r r' : sound d h -> executions d !! k = Some r -> updates h d k r r' -> sound (put_row k r' d) h.
Proof.
  intros [] Hr [(Ei & Ec & Em) Hok Hact Hst].
  assert (Ecomp : row_component r' = row_component r) by (unfold row_identity, row_component in *; congruence).
  assert (Eep : x_epoch r' = x_epoch r) by (unfold row_identity in *; congruence).
  assert (old : forall k1 r1, executions (put_row k r' d) !! k1 = Some r1 -> exists r0, executions d !! k1 = Some r0 /\
            row_identity r1 = row_identity r0 /\ (k1 <> k -> r1 = r0)).
  { intros k1 r1. cbn. destruct (decide (k1 = k)) as [->|]; [rewrite lookup_insert_eq|rewrite lookup_insert_ne by done];
      [intros [= <-]; by exists r|intros ?; by exists r1]. }
  assert (comp : forall r1 r0, row_identity r1 = row_identity r0 -> row_component r1 = row_component r0 /\ x_epoch r1 = x_epoch r0)
    by (unfold row_identity, row_component; intros ? ? E; injection E; intros; split; congruence).
  split; try done.
  - intros k1 r1 H1. destruct (old _ _ H1) as (r0 & H0 & -> & _). eauto.
  - intros k1 k2 r1 r2 H1 H2 E U1 U2. cbn in H1, H2. destruct (decide (k1 = k)) as [->|N1], (decide (k2 = k)) as [->|N2]; [done| | |].
    + rewrite lookup_insert_eq in H1. rewrite lookup_insert_ne in H2 by done. injection H1 as <-. symmetry. eapply Hact; eauto.
    + rewrite lookup_insert_ne in H1 by done. rewrite lookup_insert_eq in H2. injection H2 as <-. eapply Hact; eauto.
    + rewrite lookup_insert_ne in H1, H2 by done. eauto.
  - intros k1 r1 H1. destruct (old _ _ H1) as (r0 & H0 & E & _). destruct (comp _ _ E) as [-> ->]. eauto.
  - intros k1 k2 r1 r2 H1 H2 E1 E2. destruct (old _ _ H1) as (r3 & H3 & F1 & _), (old _ _ H2) as (r4 & H4 & F2 & _).
    destruct (comp _ _ F1) as [F3 F4], (comp _ _ F2) as [F5 F6]. apply (so_epochs0 k1 k2 r3 r4); congruence.
  - intros k1 r1. cbn. destruct (decide (k1 = k)) as [->|]; [rewrite lookup_insert_eq|rewrite lookup_insert_ne by done]; [by intros [= <-]|eauto].
  - unfold storage_usage in *. cbn. rewrite (sum_map_insert _ _ _ _ _ Hr). lia.
  - by rewrite (held_by_update _ _ _ _ _ _ Hr).
  - by rewrite (held_by_update _ _ _ _ _ _ Hr).
Qed.

(** A new row, with its fence. *)
Definition insert_row (k : string) (r : Execution) (d : Ledger) : Ledger :=
  d <| fences ::= <[row_component r := x_epoch r]> |> <| executions ::= <[k := r]> |>.
Record inserts (d : Ledger) (k : string) (r : Execution) : Prop := {
  in_new : executions d !! k = None;
  in_key : k = key (row_identity r) /\ issued (row_identity r);
  in_fence : forall e, fences d !! row_component r = Some e -> e < x_epoch r;
  in_alone : forall k2 r2, executions d !! k2 = Some r2 -> row_component r2 = row_component r -> unreleased r2 = false;
  in_ok : row_ok [] r;
  in_storage : storage_usage d + row_storage r <= disk_bytes limits;
  in_cpu : used_cpu d + x_cpu_millis r <= cpu_millis limits;
  in_memory : used_memory d + x_memory_bytes r <= memory_bytes limits;
}.

(** What is not given up is not released. *)
Lemma held_by_used (f : Execution -> Z) h d : (forall k r, executions d !! k = Some r -> row_ok h r /\ 0 < f r) ->
  held_by f h d <= sum_map (fun r => if unreleased r then f r else 0) (executions d).
Proof.
  intros Hd. apply sum_map_le. intros k r Hr. destruct (Hd k r Hr) as [Hok Hf]. case_bool_decide as Hg; destruct (unreleased r) eqn:Hu; try lia.
  unfold unreleased in Hu. apply negb_false_iff, String.eqb_eq in Hu. destruct (ro_released _ _ Hok Hu). done.
Qed.

Lemma sound_insert d h k r : sound d h -> inserts d k r -> sound (insert_row k r d) h.
Proof.
  intros S [Hn [Hk Hi] Hf Ha Hok Hst Hc Hm]. pose proof S as [].
  assert (old : forall k1 r1, <[k := r]> (executions d) !! k1 = Some r1 -> (k1 = k /\ r1 = r) \/ (k1 <> k /\ executions d !! k1 = Some r1))
    by (intros k1 r1; rewrite lookup_insert_Some; naive_solver).
  assert (stale : forall k1 r1, executions d !! k1 = Some r1 -> row_component r1 = row_component r -> x_epoch r1 < x_epoch r).
  { intros k1 r1 H1 E. destruct (so_fenced0 _ _ H1) as (e & He & ?). rewrite E in He. specialize (Hf _ He). lia. }
  assert (row_ok h r) by (rewrite <- (app_nil_r h); by apply row_ok_app).
  split; cbn -[key].
  - intros k1 r1 [[-> ->]|[_ H1]]%old; [done|eauto].
  - intros k1 k2 r1 r2 [[-> ->]|[N1 H1]]%old [[-> ->]|[N2 H2]]%old E U1 U2; [done| | |eauto].
    + rewrite (Ha _ _ H2) in U2 by done. done.
    + rewrite (Ha _ _ H1) in U1 by done. done.
  - intros k1 r1 [[-> ->]|[_ H1]]%old; [exists (x_epoch r); rewrite lookup_insert_eq; split; [done|lia]|].
    destruct (decide (row_component r1 = row_component r)) as [E|N].
    + exists (x_epoch r). rewrite E, lookup_insert_eq. split; [done|]. specialize (stale _ _ H1 E). lia.
    + rewrite lookup_insert_ne by done. eauto.
  - intros k1 k2 r1 r2 [[-> ->]|[N1 H1]]%old [[-> ->]|[N2 H2]]%old E1 E2; [done| | |eauto].
    + specialize (stale _ _ H2). rewrite E1 in stale. specialize (stale eq_refl). lia.
    + specialize (stale _ _ H1 E1). lia.
  - intros k1 r1 [[-> ->]|[_ H1]]%old; eauto.
  - done.
  - unfold storage_usage in *. cbn. rewrite sum_map_insert_new by done. lia.
  - unfold held_by. cbn. rewrite sum_map_insert_new by done. fold (held_by x_cpu_millis h d).
    assert (held_by x_cpu_millis h d <= used_cpu d) by (apply held_by_used; intros ? ? Hr; split; [eauto|by destruct (so_rows0 _ _ Hr)]).
    destruct Hok. case_bool_decide; lia.
  - unfold held_by. cbn. rewrite sum_map_insert_new by done. fold (held_by x_memory_bytes h d).
    assert (held_by x_memory_bytes h d <= used_memory d) by (apply held_by_used; intros ? ? Hr; split; [eauto|by destruct (so_rows0 _ _ Hr)]).
    destruct Hok. case_bool_decide; lia.
  - done.
Qed.

Lemma sound_empty : 0 <= cpu_millis limits -> 0 <= memory_bytes limits -> 0 <= disk_bytes limits -> sound empty_ledger [].
Proof.
  intros. split; unfold storage_usage, held_by; cbn [executions fences shared_auxiliary empty_ledger]; rewrite ?sum_map_empty; try assumption.
  - intros ? ? Hk. by rewrite lookup_empty in Hk.
  - intros ? ? ? ? Hk. by rewrite lookup_empty in Hk.
  - intros ? ? Hk. by rewrite lookup_empty in Hk.
  - intros ? ? ? ? Hk. by rewrite lookup_empty in Hk.
  - intros ? ? Hk. by rewrite lookup_empty in Hk.
  - intros ? ? Hk. by rewrite lookup_empty in Hk.
  - exact Logic.I.
Qed.

(** ** The program logic *)

(** What assertions speak of. *)
Record View := mkView { v_ledger : Ledger; v_calls : list Event; v_held : list Guard }.
Definition view (w : Node) : View := mkView (nd_ledger w) (nd_calls w) (nd_held w).
Definition guarded (v : View) (k : string) : Prop := (EXECUTION_GUARD, k) ∈ v_held v.
Definition guarded_component (v : View) (c : string) : Prop := (COMPONENT_GUARD, c) ∈ v_held v.
Definition soundly (v : View) : Prop := sound (v_ledger v) (v_calls v).

(** What the other threads may do: under the guards this thread holds, and the
    keys [E] and components [EC] that none of them touches, they keep the rows
    steady. *)
Class Neighbours (E EC : string -> Prop) := neighbours : forall w d h, soundly (view w) ->
  others (nd_held w) (nd_tick w) (nd_ledger w, nd_calls w) = (d, h) ->
  sound d h /\
  moves (fun k => guarded (view w) k \/ E k) (fun c => guarded_component (view w) c \/ EC c) w (w <| nd_ledger := d |> <| nd_calls := h |>).

Context (E EC : string -> Prop) {HN : Neighbours E EC} (Q C : string -> Prop).
Hypothesis HQ : forall k, Q k -> E k.
Hypothesis HQC : forall c, C c -> EC c.

(** Before and after a pause. *)
Definition rely (w w' : Node) : Prop :=
  nd_held w' = nd_held w /\ moves (fun k => guarded (view w) k \/ E k) (fun c => guarded_component (view w) c \/ EC c) w w'.
Definition stable (F : View -> Prop) : Prop := forall w w', soundly (view w) -> soundly (view w') -> rely w w' -> F (view w) -> F (view w').

(** [m] keeps the invariant and what is under [Q] and [C], however it ends. *)
Definition ensures {A} (Pre : View -> Prop) (m : M Node A) (Post : A -> View -> Prop) (Exn : View -> Prop) : Prop :=
  forall w r w', soundly (view w) -> Pre (view w) -> m w = (r, w') ->
  soundly (view w') /\ moves Q C w w' /\ nd_held w' = nd_held w /\ nd_locked w' = nd_locked w /\
  match r with Ok a => Post a (view w') | Err _ => Exn (view w') end.

Lemma hoare_bind {A B} Pre (m : M Node A) (f : A -> M Node B) Mid Post Exn :
  ensures Pre m Mid Exn -> (forall a, ensures (Mid a) (f a) Post Exn) -> ensures Pre (bind m f) Post Exn.
Proof.
  intros Hm Hf w r w' Hs Hw Hr. unfold bind in Hr. destruct (m w) as [[a|e] w1] eqn:Em.
  - destruct (Hm _ _ _ Hs Hw Em) as (S1 & M1 & L1 & K1 & Ha). destruct (Hf a _ _ _ S1 Ha Hr) as (S2 & M2 & L2 & K2 & Hb).
    split_and!; [done|by eapply node_moves_trans|congruence|congruence|done].
  - injection Hr as <- <-. exact (Hm _ _ _ Hs Hw Em).
Qed.
Lemma hoare_conseq {A} (Pre Pre' : View -> Prop) (m : M Node A) (Post Post' : A -> View -> Prop) (Exn Exn' : View -> Prop) :
  ensures Pre' m Post' Exn' -> (forall v, soundly v -> Pre v -> Pre' v) -> (forall a v, soundly v -> Post' a v -> Post a v) ->
  (forall v, soundly v -> Exn' v -> Exn v) -> ensures Pre m Post Exn.
Proof.
  intros Hm H1 H2 H3 w r w' Hs Hw Hr. destruct (Hm _ _ _ Hs (H1 _ Hs Hw) Hr) as (S1 & M1 & L1 & K1 & Ha). split_and!; try done.
  destruct r; eauto.
Qed.
Lemma hoare_pre {A} (Pre Pre' : View -> Prop) (m : M Node A) Post Exn :
  (forall v, soundly v -> Pre v -> Pre' v) -> ensures Pre' m Post Exn -> ensures Pre m Post Exn.
Proof. intros H1 Hm. by apply (hoare_conseq _ _ _ _ _ _ _ Hm). Qed.
Lemma hoare_post {A} Pre (m : M Node A) (Post Post' : A -> View -> Prop) Exn :
  ensures Pre m Post' Exn -> (forall a v, soundly v -> Post' a v -> Post a v) -> ensures Pre m Post Exn.
Proof. intros Hm H1. by apply (hoare_conseq _ _ _ _ _ _ _ Hm). Qed.
Lemma hoare_ret {A} (a : A) (Pre : View -> Prop) (Post : A -> View -> Prop) Exn :
  (forall v, soundly v -> Pre v -> Post a v) -> ensures Pre (ret a) Post Exn.
Proof. intros Hp w r w' Hs Hw [= <- <-]. split_and!; eauto using node_moves_refl. Qed.
Lemma hoare_throw {A} e (Pre : View -> Prop) (Post : A -> View -> Prop) (Exn : View -> Prop) :
  (forall v, soundly v -> Pre v -> Exn v) -> ensures Pre (throw e) Post Exn.
Proof. intros Hp w r w' Hs Hw [= <- <-]. split_and!; eauto using node_moves_refl. Qed.
Lemma hoare_lift {A} (a : result A) (Pre Exn : View -> Prop) : (forall v, soundly v -> Pre v -> Exn v) ->
  ensures Pre (lift a) (fun x v => a = Ok x /\ Pre v) Exn.
Proof. intros Hp w r w' Hs Hw [= <- <-]. split_and!; eauto using node_moves_refl. destruct a; eauto. Qed.
Lemma hoare_throw_if c e (Pre Exn : View -> Prop) : (forall v, soundly v -> Pre v -> Exn v) ->
  ensures Pre (throw_if c e) (fun _ v => c = false /\ Pre v) Exn.
Proof. intros Hp. unfold throw_if. destruct c; [by apply hoare_throw|]. by apply hoare_ret. Qed.
Lemma hoare_when c (m : M Node unit) Pre (Post : unit -> View -> Prop) Exn :
  (c = true -> ensures Pre m Post Exn) -> (c = false -> forall v, soundly v -> Pre v -> Post tt v) -> ensures Pre (when c m) Post Exn.
Proof. intros Ht Hf. unfold when. destruct c; [by apply Ht|]. by apply hoare_ret, Hf. Qed.
Lemma hoare_ledger (Pre : View -> Prop) Exn : ensures Pre (gets nd_ledger) (fun d v => d = v_ledger v /\ Pre v) Exn.
Proof. intros w r w' Hs Hw [= <- <-]. split_and!; eauto using node_moves_refl. Qed.
Lemma hoare_catch {A} Pre (m : M Node A) h (Post : A -> View -> Prop) Mid Exn :
  ensures Pre m Post Mid -> (forall e, ensures Mid (h e) Post Exn) -> ensures Pre (catch m h) Post Exn.
Proof.
  intros Hm Hh w r w' Hs Hw Hr. unfold catch in Hr. destruct (m w) as [[a|e] w1] eqn:Em.
  - injection Hr as <- <-. exact (Hm _ _ _ Hs Hw Em).
  - destruct (Hm _ _ _ Hs Hw Em) as (S1 & M1 & L1 & K1 & Ha). destruct (Hh e _ _ _ S1 Ha Hr) as (S2 & M2 & L2 & K2 & Hb).
    split_and!; [done|by eapply node_moves_trans|congruence|congruence|done].
Qed.
Lemma hoare_on_error {A} Pre (m : M Node A) h (Post : A -> View -> Prop) Mid Exn :
  ensures Pre m Post Mid -> ensures Mid h (fun _ => Exn) Exn -> (forall v, soundly v -> Mid v -> Exn v) -> ensures Pre (on_error m h) Post Exn.
Proof.
  intros Hm Hh Hx. apply (hoare_catch _ _ _ _ Mid); [done|]. intros e. destruct (is_exception e); [|by apply hoare_throw].
  eapply hoare_bind; [exact Hh|]. intros ?. by apply hoare_throw.
Qed.
(** A fact that does not depend on the world. *)
Lemma hoare_pure {A} (V : Prop) Pre (m : M Node A) Post Exn : (V -> ensures Pre m Post Exn) -> ensures (fun v => V /\ Pre v) m Post Exn.
Proof. intros Hm w r w' Hs [Hv Hw]. by apply Hm. Qed.

(** *** Pauses *)
Lemma node_moves_same Q' C' w w' : nd_ledger w' = nd_ledger w -> (exists l, nd_calls w' = l ++ nd_calls w) -> (nd_tick w <= nd_tick w')%N ->
  moves Q' C' w w'.
Proof.
  intros El Hc Ht. split; rewrite ?El; [done|done| | |done|by eexists].
  - intros k r Hr. exists r. eauto using row_kept_refl, steady_refl.
  - intros c e He. exists e. split; [done|lia].
Qed.
Lemma moves_pause w w' : rely w w' -> moves Q C w w'.
Proof. intros [_ Hm]. eapply moves_weaken; [| |exact Hm]; intros ? ?; right; auto. Qed.
Lemma rely_same w w' : nd_held w' = nd_held w -> nd_ledger w' = nd_ledger w -> (exists l, nd_calls w' = l ++ nd_calls w) ->
  (nd_tick w <= nd_tick w')%N -> rely w w'.
Proof. intros. split; [done|]. by apply node_moves_same. Qed.

Lemma hoare_ask {A} (f : N -> A) Pre Exn : ensures Pre (ask f) (fun a v => (exists n, a = f n) /\ Pre v) Exn.
Proof. intros w r w' Hs Hw [= <- <-]. split_and!; eauto. apply node_moves_same; [done|by exists []|cbn; lia]. Qed.

Lemma hoare_preempted F : stable F -> ensures F preempted (fun _ => F) F.
Proof.
  intros HF w r w' Hs Hw Hr. unfold preempted in Hr.
  assert (Ht : rely w (w <| nd_tick := (nd_tick w + 1)%N |>)) by (apply rely_same; [done..|by exists []|cbn; lia]).
  destruct (dies (nd_tick w)); [|destruct (nd_locked w) eqn:Elock].
  - injection Hr as <- <-. split_and!; [done|by apply moves_pause|done|done|by apply (HF w)].
  - injection Hr as <- <-. split_and!; [done|by apply moves_pause|done|done|by apply (HF w)].
  - destruct (others _ _ _) as [d h] eqn:Eo. injection Hr as <- <-. destruct (neighbours w d h Hs Eo) as [Sd Hm].
    set (w1 := w <| nd_ledger := d |> <| nd_calls := h |>) in *.
    assert (Hr : rely w (w <| nd_tick := (nd_tick w + 1)%N |> <| nd_ledger := d |> <| nd_calls := h |>)).
    { split; [done|]. eapply node_moves_trans; [exact Hm|]. apply node_moves_same; [done|by exists []|cbn; lia]. }
    split_and!; [done|by apply moves_pause|done|done|by apply (HF w)].
Qed.

Lemma hoare_locked {A} F (body : M Node A) Post Exn : stable F -> (forall v, soundly v -> F v -> Exn v) -> ensures F body Post Exn -> ensures F (locked body) Post Exn.
Proof.
  intros HF Hx Hb w r w' Hs Hw Hr. unfold locked, bind, gets in Hr. destruct (nd_locked w) eqn:Elock; [rewrite <- Elock; by apply (Hb w)|].
  destruct (preempted w) as [[[]|e] w1] eqn:Ep.
  - destruct (hoare_preempted F HF _ _ _ Hs Hw Ep) as (S1 & M1 & L1 & K1 & F1). cbn in Hr.
    set (w2 := w1 <| nd_locked := true |>) in *. destruct (body w2) as [x w3] eqn:Eb. injection Hr as <- <-.
    destruct (Hb w2 _ _ S1 F1 Eb) as (S3 & M3 & L3 & K3 & F3). split_and!; [done| |cbn in *; congruence|done|done].
    eapply node_moves_trans; [exact M1|]. eapply node_moves_trans; [apply (node_moves_same _ _ w1 w2); [done|by exists []|cbn; lia]|].
    eapply node_moves_trans; [exact M3|]. apply node_moves_same; [done|by exists []|cbn; lia].
  - injection Hr as <- <-. destruct (hoare_preempted F HF _ _ _ Hs Hw Ep) as (S1 & M1 & L1 & K1 & F1). split_and!; [done|done|done|congruence|by apply Hx].
Qed.

(** The record of a call and of its answer. *)
Lemma hoare_record e (Pre : View -> Prop) (Post : View -> Prop) Exn :
  (forall v, soundly v -> Pre v -> event_ok e (v_calls v) /\ Post (mkView (v_ledger v) (e :: v_calls v) (v_held v))) ->
  ensures Pre (record_event e) (fun _ => Post) Exn.
Proof.
  intros He w r w' Hs Hw [= <- <-]. destruct (He _ Hs Hw) as [H1 H2]. split_and!; try done.
  - by apply sound_event.
  - apply node_moves_same; [done|by exists [e]|done].
Qed.

Lemma stable_calls F e v : stable F -> soundly v -> event_ok e (v_calls v) -> F v -> F (mkView (v_ledger v) (e :: v_calls v) (v_held v)).
Proof.
  intros HF Hs He Hv. destruct v as [d h g]. apply (HF (mkNode d h g false 0) (mkNode d (e :: h) g false 0)); try done.
  - by apply sound_event.
  - apply rely_same; [done..|by exists [e]|done].
Qed.

Lemma hoare_executor {A} F c i (answer : N -> result A) (confirmed : A -> bool) (V : A -> Prop) : stable F ->
  (forall v, soundly v -> F v -> event_ok (Called c i (v_ledger v)) (v_calls v)) ->
  (forall n a, answer n = Ok a -> V a) ->
  ensures F (executor c i answer confirmed) (fun a v => V a /\ F v /\ (confirmed a = true -> answered (v_calls v) c i)) F.
Proof.
  intros HF Hc HV. unfold executor. eapply hoare_bind; [by apply hoare_preempted|]. intros []. eapply hoare_bind; [apply hoare_ledger|]. intros d.
  eapply hoare_bind.
  { apply (hoare_record _ _ F). intros v Hs [-> Hv]. split; [by apply Hc|]. apply stable_calls; auto. }
  intros []. eapply hoare_bind; [apply hoare_ask|]. intros [a|e]; [|by apply hoare_throw; intros ? ? []]. apply hoare_pure. intros [n En].
  eapply hoare_bind.
  - apply (hoare_record _ _ (fun v => F v /\ (confirmed a = true -> answered (v_calls v) c i))). intros v Hs Hv. split; [done|].
    split; [by apply stable_calls|]. intros ->. by left.
  - intros ?. apply hoare_ret. intros v _ [? ?]. split_and!; [by eapply HV|done|done].
Qed.

(** *** Transactions *)
Lemma sound_calls d h l : sound d h -> history_ok (l ++ h) -> sound d (l ++ h).
Proof. intros Hs. induction l as [|e l IH]; [done|]. intros [He Hl]. apply sound_event; auto. Qed.

Lemma hoare_immediate {A} F (body : M Node A) Post (Mid Exn : View -> Prop) : stable F -> (forall v, soundly v -> F v -> Exn v) ->
  ensures F body Post Mid -> ensures F (immediate body) Post Exn.
Proof.
  intros HF Hx Hb w r w' Hs Hw Hr. unfold immediate in Hr. destruct (body w) as [[a|e] w1] eqn:Eb;
    destruct (Hb _ _ _ Hs Hw Eb) as (S1 & M1 & L1 & K1 & F1); injection Hr as <- <-; [done|].
  destruct M1 as [T1 [l El] _ _ _ _].
  assert (S2 : sound (nd_ledger w) (nd_calls w1)) by (rewrite El; apply sound_calls; [done|]; rewrite <- El; apply S1).
  split_and!; [done| |done|done|].
  - apply node_moves_same; [done|by exists l|done].
  - apply Hx; [done|]. apply (HF w); [done|done| |done]. apply rely_same; [done|done|by exists l|done].
Qed.

(** *** Guards *)
Lemma hoare_guard {A} F g (body : M Node A) (Post : A -> View -> Prop) (Exn : View -> Prop) : stable F ->
  (forall v, soundly v -> F v -> Exn v) ->
  (forall v, F v -> g ∈ v_held v \/ F (mkView (v_ledger v) (v_calls v) (g :: v_held v))) ->
  (forall a v l, Post a v -> Post a (mkView (v_ledger v) (v_calls v) l)) -> (forall v l, Exn v -> Exn (mkView (v_ledger v) (v_calls v) l)) ->
  ensures (fun v => F v /\ g ∈ v_held v) body Post Exn -> ensures F (durable_guard g body) Post Exn.
Proof.
  intros HF Hx Hg HP HX Hb w r w' Hs Hw Hr. unfold durable_guard, bind at 1, gets at 1 in Hr. destruct (decide (g ∈ nd_held w)) as [Hin|Hout].
  { by apply (Hb w). }
  unfold bind in Hr. destruct (preempted w) as [[[]|e] w1] eqn:Ep; destruct (hoare_preempted F HF _ _ _ Hs Hw Ep) as (S1 & M1 & L1 & K1 & F1).
  2: { injection Hr as <- <-. split_and!; try done. by apply Hx. }
  cbn in Hr. set (w2 := w1 <| nd_tick := (nd_tick w1 + 1)%N |>) in *.
  assert (M2 : moves Q C w w2) by (eapply node_moves_trans; [exact M1|]; apply node_moves_same; [done|by exists []|cbn; lia]).
  destruct (guard_file (nd_tick w1)) as [[]|e]; cbn in Hr; [|injection Hr as <- <-; split_and!; try done; by apply Hx].
  set (w3 := w2 <| nd_held ::= cons g |>) in *. destruct (body w3) as [x w4] eqn:Eb. injection Hr as <- <-.
  assert (F3 : F (view w3)) by (destruct (Hg _ F1) as [Hin|?]; [cbn in Hin; congruence|done]).
  destruct (Hb w3 _ _ S1 (conj F3 (list_elem_of_here _ _)) Eb) as (S4 & M4 & L4 & K4 & F4). split_and!; [done| |done|cbn in *; congruence|].
  - eapply node_moves_trans; [exact M2|]. eapply node_moves_trans; [apply (node_moves_same _ _ w2 w3); [done|by exists []|cbn; lia]|].
    eapply node_moves_trans; [exact M4|]. apply node_moves_same; [done|by exists []|cbn; lia].
  - destruct x; [by apply (HP _ _ (nd_held w)) in F4|by apply (HX _ (nd_held w)) in F4].
Qed.
End Rules.
