(* ===== verification/NodeTheory.v ===== *)
(** * The operations of a node agent keep the invariant

    Every operation of [NodeAgent], from any sound ledger, in any company and
    however it ends, leaves a sound ledger, and leaves alone what the guards of
    the other threads protect. *)

From stdpp Require Import base gmap strings list fin_maps.
From Stdlib Require Import ZArith Lia QArith.
From S2P Require Import Prelude Json Domain Schemas JobSpec NodeAgent NodeLogic.
Open Scope Z_scope.
Open Scope py_scope.

(** The executor never reports a start as a release. *)
Class HonestStart {X : Executor} := start_state : forall n i o, ex_start n i = Ok o -> ob_state o <> "RELEASED".

Section Theory.
Context {P : Platform} {X : Executor} {H : Host} {I : Assignments} {HC : SteadyClock} (limits : ResourceLimits).
Context (E EC : string -> Prop) {HN : Neighbours limits E EC} (Q C : string -> Prop).
Hypothesis HQ : forall k, Q k -> E k.
Hypothesis HQC : forall c, C c -> EC c.

#[local] Abbreviation soundly := (soundly limits).
#[local] Abbreviation stable := (stable limits E EC).
#[local] Abbreviation ensures := (ensures limits Q C).
#[local] Abbreviation hoare_bind := (hoare_bind limits Q C).
#[local] Abbreviation hoare_catch := (hoare_catch limits Q C).
#[local] Abbreviation hoare_on_error := (hoare_on_error limits Q C).
#[local] Abbreviation hoare_locked := (hoare_locked limits E EC Q C HQ HQC).
#[local] Abbreviation hoare_executor := (hoare_executor limits E EC Q C HQ HQC).
#[local] Abbreviation hoare_guard := (hoare_guard limits E EC Q C HQ HQC).
#[local] Abbreviation hoare_immediate := (hoare_immediate limits E EC Q C).
#[local] Abbreviation hoare_preempted := (hoare_preempted limits E EC Q C HQ HQC).

(** ** Assertions *)

(** A fact of the record, which only grows. *)
Definition grows (G : list Event -> Prop) : Prop := forall l h, G h -> G (l ++ h).
Definition knows (G : list Event -> Prop) (v : View) : Prop := G (v_calls v).
Lemma stable_knows G : grows G -> stable (knows G).
Proof. intros HG w w' _ _ [_ [_ [l El] _ _ _ _]] Hw. unfold knows in *. cbn in *. rewrite El. by apply HG. Qed.

Definition anything (v : View) : Prop := True.
Lemma stable_anything : stable anything.
Proof. by intros ? ?. Qed.
Hint Resolve stable_anything : core.

(** A fact of the row of an execution whose guard is held. *)
Definition at_row (i : ExecutionIdentity) (R : Execution -> Prop) (v : View) : Prop :=
  guarded v (key i) /\ exists r, executions (v_ledger v) !! key i = Some r /\ row_identity r = i /\ R r.
Lemma stable_at_row i R : (forall r r', steady r r' -> R r -> R r') -> stable (at_row i R).
Proof.
  intros HR w w' _ _ [El [_ _ Hrows _ _ _]] (Hg & r & Hr & Hi & Hp). cbn in *. destruct (Hrows _ _ Hr) as (r' & Hr' & K & S).
  split; [unfold guarded in *; cbn in *; by rewrite El|]. exists r'. split_and!; [done| |].
  - by rewrite (kp_identity _ _ _ K).
  - eapply HR; [|exact Hp]. apply S. by left.
Qed.

(** The execution is admitted under the current epoch. *)
Definition current (i : ExecutionIdentity) (v : View) : Prop :=
  guarded v (key i) /\ fences (v_ledger v) !! component_of i = Some (epoch i) /\
  exists r, executions (v_ledger v) !! key i = Some r /\ row_identity r = i /\ unreleased r = true.
Lemma identity_component r i : row_identity r = i -> row_component r = component_of i.
Proof. by intros <-. Qed.
Lemma stable_current i : stable (current i).
Proof.
  intros w w' _ _ [El [_ _ Hrows _ Hf _]] (Hg & He & r & Hr & Hi & Hu). cbn in *. destruct (Hrows _ _ Hr) as (r' & Hr' & K & S).
  split_and!; [unfold guarded in *; cbn in *; by rewrite El| |].
  - rewrite <- He, <- (identity_component _ _ Hi). apply (Hf _ _ (or_introl Hg) Hr Hu).
  - exists r'. split_and!; [done|by rewrite (kp_identity _ _ _ K)|]. eapply steady_unreleased; [|exact Hu]. apply S. by left.
Qed.
Lemma current_effect i v : soundly v -> current i v -> effect_ok i (v_ledger v) (v_calls v).
Proof.
  intros Hs (_ & He & r & Hr & Hi & Hu). split; [done|]. split; [by exists r|]. intros k r2 Hr2 Ec Hn.
  destruct (unreleased r2) eqn:U2.
  - destruct Hn. apply (so_active _ _ _ Hs k (key i) r2 r); try done. by rewrite Ec, (identity_component _ _ Hi).
  - apply negb_false_iff, String.eqb_eq in U2. by apply (ro_released _ _ (so_rows _ _ _ Hs _ _ Hr2)).
Qed.

(** ** Statements *)
Lemma sound_key i v r : issued i -> soundly v -> executions (v_ledger v) !! key i = Some r -> row_identity r = i.
Proof. intros Hi Hs Hr. destruct (so_keyed _ _ _ Hs _ _ Hr) as [Hk Hi']. symmetry. by apply issued_keys. Qed.

Definition row_read (i : ExecutionIdentity) (allow_stale : bool) (F : View -> Prop) (r : Execution) (v : View) : Prop :=
  F v /\ executions (v_ledger v) !! key i = Some r /\ row_identity r = i /\ row_ok (v_calls v) r /\
  (allow_stale = false -> fences (v_ledger v) !! component_of i = Some (epoch i)).
Lemma hoare_row i allow_stale (F Exn : View -> Prop) : issued i -> (forall v, soundly v -> F v -> Exn v) ->
  ensures F (row i allow_stale) (row_read i allow_stale F) Exn.
Proof.
  intros Hi Hx. unfold row. eapply hoare_bind; [apply hoare_ledger|]. intros d.
  destruct (executions d !! key i) as [r|] eqn:Er; [|apply hoare_throw; intros v Hs [_ Hv]; by apply Hx].
  eapply hoare_bind; [apply hoare_throw_if; intros v Hs [_ Hv]; by apply Hx|]. intros []. apply hoare_pure. intros Hb.
  apply hoare_ret. intros v Hs [-> Hv]. split_and!; [done|done|by eapply sound_key|by eapply so_rows|]. intros ->. cbn in Hb.
  apply negb_false_iff in Hb. destruct (fences _ !! _) as [e|]; [|done]. apply Z.eqb_eq in Hb. by subst.
Qed.

(** The columns that an update of states, flags or charges leaves. *)
Record columns (r r' : Execution) : Prop := {
  co_identity : row_identity r' = row_identity r;
  co_spec : x_spec r' = x_spec r;
  co_cpu : x_cpu_millis r' = x_cpu_millis r;
  co_memory : x_memory_bytes r' = x_memory_bytes r;
  co_disk : x_disk_bytes r' = x_disk_bytes r;
  co_deadline : x_deadline r' = x_deadline r;
  co_boot : x_boot_id r' = x_boot_id r;
  co_lease : x_lease_until r' = x_lease_until r;
  co_stopped : x_stopped r = true -> x_stopped r' = true;
  co_purged : x_disk_released r = true -> x_disk_released r' = true;
  co_absent : x_executor_absent r = true -> x_executor_absent r' = true;
}.
Lemma columns_kept t r r' : columns r r' -> kept t r r'.
Proof. intros []. by split. Qed.

Definition with_row (i : ExecutionIdentity) (r : Execution) (v : View) : View :=
  mkView (put_row (key i) r (v_ledger v)) (v_calls v) (v_held v).

(** One row changes. *)
Lemma moves_row Q' C' w k r r' : executions (nd_ledger w) !! k = Some r -> kept (nd_tick w) r r' -> (Q' k -> steady r r') ->
  moves Q' C' w (w <| nd_ledger ::= (fun d => d <| executions ::= <[k := r']> |>) |>).
Proof.
  intros Hr Hk HS. split; cbn; [done|by exists []| | |done|].
  - intros k1 r1 H1. destruct (decide (k1 = k)) as [->|].
    + rewrite lookup_insert_eq. rewrite Hr in H1. injection H1 as <-. by exists r'.
    + rewrite lookup_insert_ne by done. exists r1. eauto using row_kept_refl, steady_refl.
  - intros c e He. exists e. split; [done|lia].
  - intros k1 r1 H1 _. destruct (decide (k1 = k)) as [->|]; [by eexists|]. rewrite lookup_insert_ne in H1 by done. by eexists.
Qed.

(** The index admits the update: no other row of the component is unreleased. *)
Lemma clash_free d k r' :
  unreleased r' && existsb (fun kv => negb (String.eqb kv.1 k) && of_component (row_component r') kv.2 && unreleased kv.2)
                     (map_to_list (executions d)) = false ->
  unreleased r' = true -> forall k2 r2, executions d !! k2 = Some r2 -> row_component r2 = row_component r' -> unreleased r2 = true -> k2 = k.
Proof.
  intros Eb U k2 r2 H2 Ec U2. rewrite U in Eb. cbn in Eb. destruct (decide (k2 = k)) as [|Hn]; [done|]. exfalso.
  apply not_true_iff_false in Eb. apply Eb. apply existsb_exists. exists (k2, r2). split; [apply list_elem_of_In, elem_of_map_to_list; exact H2|].
  cbn [fst snd]. rewrite U2, (proj2 (String.eqb_neq k2 k) Hn). unfold of_component. by rewrite (bool_decide_eq_true_2 _ Ec).
Qed.

Lemma hoare_update i f (Pre Exn : View -> Prop) (Post : View -> Prop) : issued i ->
  (forall v, soundly v -> Pre v -> Exn v) -> (forall v, soundly v -> Pre v -> executions (v_ledger v) !! key i = None -> Post v) ->
  (forall v r, soundly v -> Pre v -> executions (v_ledger v) !! key i = Some r -> row_identity r = i -> row_ok (v_calls v) r ->
     columns r (f r) /\ row_ok (v_calls v) (f r) /\
     storage_usage (v_ledger v) - row_storage r + row_storage (f r) <= disk_bytes limits /\
     (Q (key i) -> steady r (f r)) /\ (soundly (with_row i (f r) v) -> Post (with_row i (f r) v))) ->
  ensures Pre (update_row (key i) f) (fun _ => Post) Exn.
Proof.
  intros Hi Hx Hnone Hf w r w' Hs Hw Hr. unfold update_row, bind at 1, gets in Hr.
  destruct (executions (nd_ledger w) !! key i) as [x|] eqn:Ex.
  2: { injection Hr as <- <-. split_and!; try done; [apply node_moves_refl|by apply Hnone]. }
  destruct (Hf (view w) x Hs Hw Ex (sound_key _ _ _ Hi Hs Ex) (so_rows _ _ _ Hs _ _ Ex)) as (Hcol & Hok & Hst & HS & HP).
  unfold bind, throw_if in Hr. destruct (_ && _) eqn:Eb in Hr.
  { injection Hr as <- <-. split_and!; try done; [apply node_moves_refl|by apply Hx]. }
  injection Hr as <- <-.
  assert (Hnew : soundly (with_row i (f x) (view w))).
  { apply (sound_update _ _ _ _ x); [done|done|]. destruct Hcol. split; [done|done|by apply clash_free|done]. }
  split_and!; [done| |done|done|by apply HP].
  apply (moves_row _ _ _ _ x); [done|by apply columns_kept|done].
Qed.

(** A change that the others may make keeps a stable assertion. *)
Lemma stable_row F i r r' v : stable F -> soundly v -> soundly (with_row i r' v) -> executions (v_ledger v) !! key i = Some r ->
  columns r r' -> steady r r' -> F v -> F (with_row i r' v).
Proof.
  intros HF Hs Hs' Hr Hc Hst Hv. destruct v as [d h g]. set (w := mkNode d h g false 0).
  refine (HF w (w <| nd_ledger ::= (fun d => d <| executions ::= <[key i := r']> |>) |>) Hs Hs' _ Hv). split; [done|].
  apply (moves_row _ _ _ _ r); [done|by apply columns_kept|done].
Qed.

Lemma row_ok_state h r s : s <> "RELEASED" -> row_ok h r -> row_ok h (r <| x_state := s |>).
Proof. intros Hn []. by split. Qed.

Lemma storage_same v r r' : soundly v -> x_disk_released r' = x_disk_released r -> x_disk_bytes r' = x_disk_bytes r ->
  x_auxiliary_bytes r' = x_auxiliary_bytes r -> storage_usage (v_ledger v) - row_storage r + row_storage r' <= disk_bytes limits.
Proof. intros [] E1 E2 E3. unfold row_storage. rewrite E1, E2, E3. lia. Qed.

(** A change of state: only the quarantine may be of an execution that another
    thread guards. *)
Lemma hoare_set_state i s (Pre Exn : View -> Prop) (Post : View -> Prop) : issued i -> s <> "RELEASED" ->
  (forall v, soundly v -> Pre v -> Exn v) -> (forall v, soundly v -> Pre v -> executions (v_ledger v) !! key i = None -> Post v) ->
  (Q (key i) -> s = "QUARANTINED") ->
  (forall v r, soundly v -> Pre v -> executions (v_ledger v) !! key i = Some r -> row_identity r = i ->
     soundly (with_row i (r <| x_state := s |>) v) -> Post (with_row i (r <| x_state := s |>) v)) ->
  ensures Pre (set_state i s) (fun _ => Post) Exn.
Proof.
  intros Hi Hn Hx Hnone HQs Hpost. apply hoare_update; [done..|]. intros v r Hs Hv Hr Hri Hok.
  split_and!; [by split|by apply row_ok_state|by apply storage_same|intros HQi; split; try done; right; by apply HQs|by apply Hpost].
Qed.

(** ** Quarantine and observation *)
Lemma hoare_quarantine F i : issued i -> stable F -> ensures F (quarantine i) (fun _ => F) F.
Proof.
  intros Hi HF. apply hoare_locked; [done..|]. apply hoare_set_state; try done. intros v r Hs Hv Hr Hri Hnew.
  apply (stable_row F i r); try done. split; [by right|done..].
Qed.

Definition observed_end (i : ExecutionIdentity) (o : Observation) (v : View) : Prop :=
  ob_termination_confirmed o = true -> terminated (v_calls v) i.

Lemma hoare_inspect F i : issued i -> stable F -> ensures F (inspect i) (fun o v => F v /\ observed_end i o v) F.
Proof.
  intros Hi HF. unfold inspect. eapply hoare_bind.
  { apply hoare_locked; [done| |apply (hoare_row i false F F); done]. done. }
  intros r. destruct (x_executor_absent r) eqn:Ea.
  { apply hoare_ret. intros v Hs (Hv & Hr & Hri & Hok & _). split; [done|]. intros _. right; right.
    rewrite <- Hri. by apply (ro_absent _ _ Hok). }
  apply (hoare_pre limits Q C _ F); [by intros v _ (? & _)|]. apply (hoare_catch _ _ _ _ F).
  - eapply hoare_post; [apply (hoare_executor F _ _ _ _ (fun _ => True)); done|]. intros o v _ (_ & Hv & Ho). split; [done|]. intros Ht. left. by apply Ho.
  - intros e. destruct e; try (apply hoare_throw; done).
    + case_match; [|by apply hoare_throw]. apply hoare_ret. intros v _ Hv. by split.
    + eapply hoare_bind; [by apply hoare_quarantine|]. intros []. by apply hoare_throw.
Qed.

(** ** Stop *)
Lemma steady_absent (b : bool) (r r' : Execution) : steady r r' -> x_executor_absent r = b -> x_executor_absent r' = b.
Proof. intros []. congruence. Qed.

(** The end of an execution that the executor had, or the proof that it had not. *)
Definition stop_proved (i : ExecutionIdentity) (absent : bool) (h : list Event) : Prop :=
  terminated h i /\ (absent = true -> answered h CallAbsent i).

Lemma hoare_stop_executor F i grace : issued i -> stable F ->
  ensures F (stop_executor i grace) (fun answer v => F v /\ stop_proved i answer.2 (v_calls v)) F.
Proof.
  intros Hi HF. unfold stop_executor. eapply hoare_bind.
  - apply (hoare_catch _ _ _ (fun answer v => F v /\ (ob_termination_confirmed answer.1 = true -> stop_proved i answer.2 (v_calls v))) F).
    + eapply hoare_bind; [apply (hoare_executor F _ _ _ _ (fun _ => True)); done|]. intros o. apply hoare_ret. intros v _ (_ & Hv & Ho).
      split; [done|]. intros Ht. split; [right; left; by apply Ho|done].
    + intros e. destruct e; try (apply hoare_throw; done). case_match; [by apply hoare_throw|].
      eapply hoare_bind; [apply (hoare_executor F _ _ _ _ (fun _ => True)); done|]. intros absent. destruct absent; [|apply hoare_throw; by intros v _ (_ & ? & _)].
      apply hoare_ret. intros v _ (_ & Hv & Ha). split; [done|]. intros _. split; [right; right; by apply Ha|]. intros _. by apply Ha.
  - intros answer. eapply hoare_bind; [apply hoare_throw_if; by intros v _ (? & _)|]. intros []. apply hoare_pure. intros Ht.
    apply hoare_ret. intros v _ [Hv Hp]. split; [done|]. apply Hp. by apply negb_false_iff in Ht.
Qed.

Lemma hoare_operation {A} i (body : M Node A) : ensures (fun v => anything v /\ guarded v (key i)) body (fun _ => anything) anything ->
  ensures anything (operation_lock i body) (fun _ => anything) anything.
Proof. intros Hb. by apply hoare_guard; [..|exact Hb]; auto. Qed.

(** What a stop can keep: a fact of the others, and of this row as long as it
    is not released. *)
Record lasting (i : ExecutionIdentity) (F : View -> Prop) : Prop := {
  la_stable : stable F;
  la_row : forall v r', F v -> unreleased r' = true -> F (with_row i r' v);
  la_held : forall v l, F v -> F (mkView (v_ledger v) (v_calls v) l);
}.
Lemma lasting_anything i : lasting i anything.
Proof. by split. Qed.
Hint Resolve lasting_anything : core.

Lemma stable_and F G : stable F -> stable G -> stable (fun v => F v /\ G v).
Proof. intros HF HG w w' S S' Hr [? ?]. split; [by apply (HF w)|by apply (HG w)]. Qed.
Lemma stable_guarded i : stable (fun v => guarded v (key i)).
Proof. intros w w' _ _ [El _] Hg. unfold guarded in *. cbn in *. by rewrite El. Qed.
Lemma stable_guard_held i : stable (fun v => anything v /\ guarded v (key i)).
Proof. apply stable_and; [done|apply stable_guarded]. Qed.

(** Where a stop leaves a row. *)
Definition settled (r : Execution) : Prop :=
  state_in r ["STOPPED"; "QUARANTINED"; "RELEASED"] = true \/ x_executor_absent r = true.
Definition settled_at (i : ExecutionIdentity) (v : View) : Prop := forall r, executions (v_ledger v) !! key i = Some r -> settled r.
Lemma steady_settled r r' : steady r r' -> settled r -> settled r'.
Proof.
  intros [[E1|E1] _ _ Ea] [Hr|Hr]; unfold settled, state_in in *; rewrite E1, Ea; auto; by left.
Qed.

(** A row in the course of a stop. *)
Definition stopping (r : Execution) : Prop := x_executor_absent r = false /\ unreleased r = true.
Lemma steady_stopping r r' : steady r r' -> stopping r -> stopping r'.
Proof. intros Hs [Ha Hu]. split; [by eapply steady_absent|by eapply steady_unreleased]. Qed.

(** Under the guard, with a fact that lasts: the row is settled, or in the
    course of a stop. *)
Definition with_stopping (i : ExecutionIdentity) (F : View -> Prop) (v : View) : Prop := F v /\ at_row i stopping v.
Lemma stable_stopping i F : stable F -> stable (with_stopping i F).
Proof. intros HF. apply stable_and; [done|]. apply stable_at_row. intros r r'. apply steady_stopping. Qed.

Lemma hoare_begin_stop F i : issued i -> ~ Q (key i) -> lasting i F ->
  ensures (fun v => F v /\ guarded v (key i)) (begin_stop i)
    (fun observed v => match observed with Some _ => F v /\ settled_at i v | None => with_stopping i F v end) F.
Proof.
  intros Hi HQi [HF Hrow Hheld]. set (G := fun v => F v /\ guarded v (key i)). assert (HG : stable G) by (apply stable_and; [done|apply stable_guarded]).
  set (R := fun v => F v /\ at_row i settled v). assert (HR : stable R) by (apply stable_and; [done|]; apply stable_at_row; intros r r'; apply steady_settled).
  apply (hoare_locked G); [done|by intros v _ [? _]|].
  eapply hoare_bind; [apply (hoare_row i false G F); [done|by intros v _ [? _]]|]. intros r. destruct (_ || _) eqn:Eb.
  - eapply hoare_bind; [apply (hoare_pre limits Q C _ R); [|eapply (hoare_conseq limits Q C); [by apply (hoare_inspect R)|done|intros ? v _ Hx; exact Hx|by intros v _ [? _]]]|].
    + intros v _ ([Hv Hg] & Hr & Hri & _). split; [done|]. split; [done|]. exists r. split_and!; [done|done|].
      apply orb_true_iff in Eb as [Hu|?]; [left|by right]. apply negb_true_iff, negb_false_iff, String.eqb_eq in Hu. unfold state_in. by rewrite Hu.
    + intros o. apply hoare_ret. intros v _ [(Hv & _ & x & Hx & _ & Hset) _]. split; [done|]. intros y Hy. congruence.
  - apply orb_false_iff in Eb as [Hu Ea]. apply (hoare_bind _ _ _ (fun _ => with_stopping i F)); [|intros []; by apply hoare_ret].
    apply hoare_set_state; try done; [by intros v _ ([? _] & _)| |].
    + intros v _ (_ & Hr & _) Hn. by rewrite Hr in Hn.
    + intros v x Hs ([Hv Hg] & Hr & Hri & _) Hx Hxi _. rewrite Hr in Hx. injection Hx as <-. split; [by apply Hrow|].
      split; [done|]. exists (r <| x_state := "STOPPING" |>). split_and!; [apply lookup_insert_eq|done|by split].
Qed.

Lemma hoare_stop_keeping F i grace : issued i -> ~ Q (key i) -> lasting i F ->
  ensures F (stop i grace) (fun _ v => F v /\ settled_at i v) F.
Proof.
  intros Hi HQi HL. pose proof HL as [HF Hrow Hheld]. set (D := with_stopping i F). assert (HD : stable D) by by apply stable_stopping.
  apply hoare_guard; [done|done|auto|intros a v l [? ?]; split; [by apply Hheld|done]|auto|].
  eapply hoare_bind; [by apply (hoare_begin_stop F)|]. intros [o|]; [by apply hoare_ret|]. eapply hoare_bind.
  - apply (hoare_on_error _ _ _ _ D); [by apply hoare_stop_executor| |by intros v _ [? _]].
    eapply (hoare_conseq limits Q C); [by apply (hoare_quarantine D)|done|by intros ? v _ [? _]|by intros v _ [? _]].
  - intros answer. apply (hoare_bind _ _ _ (fun _ v => F v /\ settled_at i v)); [|intros []; by apply hoare_ret].
    apply (hoare_locked (fun v => D v /\ knows (stop_proved i answer.2) v)).
    + apply stable_and; [done|]. apply stable_knows. intros l h [Ht Ha]. split; [eauto|]. intros Eb. eauto.
    + by intros v _ [[? _] _].
    + apply hoare_update; try done; [by intros v _ [[? _] _]|by intros v _ [[? _] _] Hn; split; [done|]; intros x Hx; rewrite Hx in Hn|].
      intros v r Hs [(Hv & _ & x & Hx & _ & [Ea Hu]) [Ht Ha]] Hr Hri Hok. rewrite Hr in Hx. injection Hx as <-.
      split_and!; [split; try done; cbn; by rewrite Ea| |by apply storage_same|done|].
      * assert (Ei : row_identity (r <| x_state := "STOPPED" |> <| x_stopped := true |> <| x_executor_absent := answer.2 |>) = i) by done.
        destruct Hok as [_ _ _ Hp ? ? ? ?]. rewrite Hri in Hp. by split; rewrite ?Ei.
      * intros _. split; [by apply Hrow|]. intros y Hy. cbn in Hy. rewrite lookup_insert_eq in Hy. injection Hy as <-. by left.
Qed.

Lemma hoare_stop i grace : issued i -> ~ Q (key i) -> ensures anything (stop i grace) (fun _ => anything) anything.
Proof. intros Hi HQi. eapply hoare_conseq; [by apply (hoare_stop_keeping anything)|done..]. Qed.

(** ** Start *)
Lemma hoare_any {A} F (m : M Node A) Post Exn : ensures F m Post Exn -> ensures F m (fun _ => anything) anything.
Proof. intros Hm. by apply (hoare_conseq limits Q C _ _ _ _ _ _ _ Hm). Qed.

Lemma hoare_lease_valid self r F Exn : ensures F (lease_valid self r) (fun _ => F) Exn.
Proof.
  unfold lease_valid. destruct (negb _); [by apply hoare_ret|]. eapply hoare_bind; [apply hoare_ask|]. intros now. apply hoare_pure. intros _.
  destruct (negb _); [by apply hoare_ret|]. destruct (x_deadline r); [|by apply hoare_ret].
  eapply hoare_bind; [apply hoare_ask|]. intros wall. apply hoare_pure. intros _. by apply hoare_ret.
Qed.

(** The row that was read, in a new unreleased state, under its guard. *)
Lemma current_state i s r v : s <> "RELEASED" -> guarded v (key i) -> fences (v_ledger v) !! component_of i = Some (epoch i) ->
  row_identity r = i -> current i (with_row i (r <| x_state := s |>) v).
Proof.
  intros Hn Hg He Hri. split_and!; [done|done|]. exists (r <| x_state := s |>). split_and!; [apply lookup_insert_eq|done|].
  unfold unreleased. cbn. by rewrite (proj2 (String.eqb_neq s "RELEASED") Hn).
Qed.

Lemma hoare_start {HS : HonestStart} self i : issued i -> ~ Q (key i) -> ensures anything (start self i) (fun _ => anything) anything.
Proof.
  intros Hi HQi. apply hoare_operation. set (G := fun v => anything v /\ guarded v (key i)). assert (HG : stable G) by apply stable_guard_held.
  eapply hoare_bind.
  { apply (hoare_locked G _ (fun _ => current i)); [done|done|]. eapply hoare_bind; [by apply (hoare_row i false G)|]. intros r.
    eapply hoare_bind; [apply hoare_lease_valid|]. intros valid. eapply hoare_bind; [by apply hoare_throw_if|]. intros []. apply hoare_pure. intros _.
    eapply hoare_bind; [by apply hoare_throw_if|]. intros []. apply hoare_pure. intros _.
    apply hoare_set_state; try done.
    - intros v _ (_ & Hr & _) Hn. by rewrite Hr in Hn.
    - intros v x Hs ([_ Hg] & Hr & Hri & _ & He) Hx Hxi _. rewrite Hr in Hx. injection Hx as <-. apply current_state; auto. }
  intros []. assert (HF : stable (current i)) by apply stable_current. eapply hoare_bind.
  { apply (hoare_on_error _ _ _ (fun o v => ob_state o <> "RELEASED" /\ current i v) (current i)); [|by eapply hoare_any, (hoare_quarantine (current i))|done].
    eapply hoare_post; [apply (hoare_executor (current i) _ _ _ _ (fun o => ob_state o <> "RELEASED")); [done| |]|].
    - intros v Hs Hv. by apply current_effect.
    - intros n o. apply start_state.
    - by intros o v _ (? & ? & _). }
  intros o. apply hoare_pure. intros Ho. eapply hoare_bind.
  { apply (hoare_locked (current i) _ (fun _ => anything)); [done|done|]. eapply hoare_bind.
    - by apply (hoare_set_state i (ob_state o) _ anything anything).
    - intros []. eapply hoare_bind; [by apply (hoare_row i false anything)|]. intros r. eapply hoare_any, (hoare_lease_valid _ _ _ anything). }
  intros valid. destruct valid; [by apply hoare_ret|]. eapply hoare_bind; [by apply hoare_stop|]. intros ?. by apply hoare_throw.
Qed.

(** ** Results *)
Lemma hoare_retained_row i (F Exn : View -> Prop) : issued i -> (forall v, soundly v -> F v -> Exn v) ->
  ensures F (retained_row i) (row_read i true F) Exn.
Proof.
  intros Hi Hx. unfold retained_row. eapply hoare_bind; [by apply (hoare_row i true F)|]. intros r. eapply hoare_bind.
  - apply (hoare_when _ _ _ _ _ _ (fun _ => row_read i true F r)); [|done]. intros _. eapply hoare_bind.
    + apply (hoare_row i false (row_read i true F r)); [done|]. intros v Hs (? & _). by apply Hx.
    + intros ?. apply hoare_ret. by intros v _ (? & _).
  - intros []. by apply hoare_ret.
Qed.
Lemma hoare_collect_call F i : stable F -> ensures F (collect_call i) (fun _ => F) F.
Proof. intros HF. eapply hoare_post; [apply (hoare_executor F _ _ _ _ (fun _ => True)); done|]. by intros ? ? _ (_ & ? & _). Qed.

Lemma hoare_collect_files G i : issued i -> ~ Q (key i) -> grows G -> ensures (knows G) (collect_files i) (fun _ => knows G) (knows G).
Proof.
  intros Hi HQi HG. pose proof (stable_knows G HG) as HF.
  apply hoare_guard; [done|done|by right|done|done|]. apply (hoare_pre limits Q C _ (knows G)); [by intros ? _ [? _]|].
  eapply hoare_bind.
  { apply hoare_locked; [done| |by apply (hoare_retained_row i (knows G) (knows G))]. done. }
  intros r. apply (hoare_pre limits Q C _ (knows G)); [by intros ? _ [? _]|]. destruct (_ || _); [by apply hoare_ret|]. eapply hoare_bind.
  { apply (hoare_when _ _ _ _ _ _ (fun _ => knows G)); [|done]. intros _. eapply hoare_bind; [by apply hoare_inspect|]. intros o.
    eapply hoare_post; [apply hoare_throw_if; by intros ? _ [? _]|]. by intros [] v _ [_ [? _]]. }
  intros []. eapply hoare_bind; [by apply hoare_collect_call|]. intros files. eapply hoare_bind; [by apply hoare_throw_if|]. intros []. apply hoare_pure. intros _.
  apply (hoare_bind _ _ _ (fun _ => knows G)); [|intros []; by apply hoare_ret]. apply (hoare_locked (knows G)); [done|done|]. apply hoare_update; try done.
  intros v x Hs Hv Hr Hri Hok. split_and!; [by split|by destruct Hok; split|by apply storage_same|done|done].
Qed.

(** ** Release *)
Definition absence (i : ExecutionIdentity) (r : Execution) (h : list Event) : Prop := x_executor_absent r = true -> answered h CallAbsent i.
Lemma grows_absence i r : grows (absence i r).
Proof. intros l h Ha E1. eauto. Qed.
Lemma grows_and G G' : grows G -> grows G' -> grows (fun h => G h /\ G' h).
Proof. intros H1 H2 l h [? ?]. eauto. Qed.
Lemma grows_terminated i : grows (fun h => terminated h i).
Proof. intros l h. apply terminated_app. Qed.
Lemma grows_ended i : grows (fun h => ended h i).
Proof. intros l h. apply ended_app. Qed.
Lemma grows_deleted i : grows (fun h => deleted h i).
Proof. intros l h. apply deleted_app. Qed.
Hint Resolve stable_knows grows_absence grows_and grows_terminated grows_ended grows_deleted : core.

Lemma read_absence i b F r v : row_read i b F r v -> absence i r (v_calls v).
Proof. intros (_ & _ & Hri & Hok & _) Ea. rewrite <- Hri. by apply (ro_absent _ _ Hok). Qed.

Lemma hoare_release_call i r : issued i ->
  ensures (knows (fun h => absence i r h /\ terminated h i))
    (when (negb (x_executor_absent r)) (let* cleaned := executor CallRelease i (fun n => ex_release n i) id in uncertain_if (negb cleaned)))
    (fun _ => knows (fun h => ended h i)) anything.
Proof.
  intros Hi. apply hoare_when.
  - intros _. eapply hoare_bind.
    + eapply (hoare_conseq limits Q C);
        [apply (hoare_executor (knows (fun h => absence i r h /\ terminated h i)) _ _ _ _ (fun _ => True)); auto|done|intros a v _ Hx; exact Hx|done].
      by intros v _ [_ Ht].
    + intros cleaned. eapply hoare_post; [by apply hoare_throw_if|]. intros [] v _ (Hc & _ & [_ Ht] & Ha). split; [done|]. left. apply Ha.
      by apply negb_false_iff in Hc.
  - intros Ha v _ [Hab Ht]. split; [done|]. right. apply Hab. by apply negb_false_iff in Ha.
Qed.

Lemma hoare_release i : issued i -> ~ Q (key i) -> ensures anything (release i) (fun _ => anything) anything.
Proof.
  intros Hi HQi. apply hoare_operation. set (G := fun v => anything v /\ guarded v (key i)). assert (HG : stable G) by apply stable_guard_held.
  eapply hoare_bind.
  { apply (hoare_locked G _ (fun r => knows (absence i r))); [done|done|]. eapply hoare_post; [by apply (hoare_row i false G)|].
    intros r v _ Hr. by eapply read_absence. }
  intros r. destruct (negb (unreleased r)); [by apply hoare_ret|]. eapply hoare_bind; [by eapply hoare_conseq; [apply (hoare_inspect (knows (absence i r)))|..]; auto|].
  intros o. eapply hoare_bind; [by apply hoare_throw_if|]. intros []. apply hoare_pure. intros Ho.
  set (K := fun h => absence i r h /\ terminated h i).
  apply (hoare_pre limits Q C _ (knows K)); [intros v _ [? Ht]; split; [done|]; apply Ht; by apply negb_false_iff in Ho|].
  apply (hoare_bind _ _ _ (fun _ => knows K)).
  { apply hoare_when; [|done]. intros _. eapply hoare_bind; [eapply (hoare_conseq limits Q C); [by apply (hoare_collect_files K); unfold K; auto|done|intros ? v _ Hx; exact Hx|done]|].
    intros ?. by apply hoare_ret. }
  intros []. eapply hoare_bind; [by apply hoare_release_call|]. intros []. apply (hoare_bind _ _ _ (fun _ => anything)); [|intros []; by apply hoare_ret].
  apply (hoare_locked (knows (fun h => ended h i))); [auto|done|]. apply hoare_update; try done.
  intros v x Hs He Hr Hri Hok. split_and!; [by split| |by apply storage_same|done|done].
  assert (Ei : row_identity (x <| x_state := "RELEASED" |> <| x_stopped := true |>) = i) by done.
  destruct Hok as [_ _ Ha Hp ? ? ? ?]. rewrite Hri in Ha, Hp. destruct He. by split; rewrite ?Ei.
Qed.

(** ** Purge *)
Lemma hoare_component {A} i (body : M Node A) : ensures anything body (fun _ => anything) anything ->
  ensures anything (component_lock i body) (fun _ => anything) anything.
Proof. intros Hb. apply hoare_guard; auto. by apply (hoare_pre limits Q C _ anything). Qed.

Lemma hoare_purge_allowed F i : issued i -> stable F -> ensures F (component_purge_allowed i) (fun _ => F) F.
Proof.
  intros Hi HF. apply hoare_locked; [done|done|]. eapply hoare_bind; [by apply (hoare_row i true F F)|]. intros r.
  eapply hoare_bind; [apply hoare_ledger|]. intros d. apply hoare_ret. by intros v _ (_ & ? & _).
Qed.

(** What the final step of a purge needs. *)
Definition purge_proved (i : ExecutionIdentity) (h : list Event) : Prop := ended h i /\ deleted h i.

Lemma hoare_purge_checks i b : issued i ->
  ensures anything (purge_checks i b) (fun due => match due with Some r => knows (fun h => ended h i /\ absence i r h) | None => anything end) anything.
Proof.
  intros Hi. unfold purge_checks. eapply hoare_bind; [by apply (hoare_row i true anything)|]. intros r.
  eapply hoare_bind; [by apply hoare_throw_if|]. intros []. apply hoare_pure. intros Hu. set (K := fun h => ended h i /\ absence i r h).
  apply (hoare_pre limits Q C _ (knows K)).
  { intros v _ Hr. split; [|by eapply read_absence]. destruct Hr as (_ & _ & <- & Hok & _). apply (ro_released _ _ Hok).
    by apply negb_false_iff, String.eqb_eq in Hu. }
  eapply hoare_bind; [apply hoare_ledger|]. intros d. apply (hoare_pre limits Q C _ (knows K)); [by intros v _ [_ ?]|].
  destruct (_ && _); [by apply hoare_ret|]. eapply hoare_bind; [by apply hoare_throw_if|]. intros []. apply hoare_pure. intros _.
  apply (hoare_bind _ _ _ (fun _ => knows K)); [|intros []; by apply hoare_ret]. apply hoare_when; [|done]. intros _.
  eapply hoare_bind; [eapply (hoare_conseq limits Q C); [by apply (hoare_purge_allowed (knows K)); unfold K; auto|done|intros ? v _ Hx; exact Hx|done]|].
  intros allowed. eapply hoare_post; [by apply hoare_throw_if|]. by intros [] v _ [_ ?].
Qed.

Lemma sum_zero (c : string * string) (m : gmap (string * string) Z) : (forall k n, m !! k = Some n -> 0 <= n) ->
  sum_map id (alter (fun _ => 0) c m) <= sum_map id m.
Proof.
  intros Hm. destruct (m !! c) as [n|] eqn:Em.
  - rewrite (sum_map_alter _ _ _ _ _ Em). specialize (Hm _ _ Em). unfold id. lia.
  - rewrite alter_id; [done|]. intros x Hx. congruence.
Qed.

Lemma moves_shared (Q' C' : string -> Prop) (w : Node) (g : gmap (string * string) Z -> gmap (string * string) Z) :
  moves Q' C' w (w <| nd_ledger ::= (fun d => d <| shared_auxiliary ::= g |>) |>).
Proof.
  split; cbn; [done|by exists []| | |done|by eexists].
  - intros k r Hr. exists r. eauto using row_kept_refl, steady_refl.
  - intros c e He. exists e. split; [done|lia].
Qed.
Lemma hoare_shared g (Pre Exn : View -> Prop) :
  (forall v, soundly v -> Pre v -> let m := g (shared_auxiliary (v_ledger v)) in (forall c n, m !! c = Some n -> 0 <= n) /\
     sum_map row_storage (executions (v_ledger v)) + sum_map id m <= disk_bytes limits) ->
  ensures Pre (modify (fun w => w <| nd_ledger ::= (fun d => d <| shared_auxiliary ::= g |>) |>)) (fun _ => anything) Exn.
Proof.
  intros Hg w r w' Hs Hw [= <- <-]. destruct (Hg _ Hs Hw) as [H1 H2]. split_and!; [|apply moves_shared|done|done|done].
  destruct Hs. by split.
Qed.

Lemma hoare__purge i b : issued i -> ~ Q (key i) -> ensures anything (_purge i b) (fun _ => anything) anything.
Proof.
  intros Hi HQi. apply hoare_operation. apply (hoare_pre limits Q C _ anything); [done|]. eapply hoare_bind.
  { apply hoare_locked; [done|done|by apply hoare_purge_checks]. }
  intros [r|]; [|by apply hoare_ret]. set (K := fun h => ended h i /\ absence i r h). apply (hoare_bind _ _ _ (fun _ => knows (purge_proved i))).
  - apply hoare_when.
    + intros _. eapply hoare_bind.
      * eapply (hoare_conseq limits Q C); [apply (hoare_executor (knows K) _ _ _ _ (fun _ => True)); unfold K; auto|done|intros ? v _ Hx; exact Hx|done].
        by intros v _ [? _].
      * intros deleted. eapply hoare_post; [by apply hoare_throw_if|]. intros [] v _ (Hd & _ & [He _] & Ha). split; [done|]. left. apply Ha.
        by apply negb_false_iff in Hd.
    + intros Ha v _ [He Hab]. split; [done|]. right. apply Hab. by apply negb_false_iff in Ha.
  - intros []. apply (hoare_bind _ _ _ (fun _ => anything)); [|intros []; by apply hoare_ret].
    assert (HK : stable (knows (purge_proved i))) by (apply stable_knows, grows_and; auto).
    apply (hoare_locked (knows (purge_proved i))); [done|done|]. apply (hoare_immediate _ _ _ anything); [done|done|].
    apply (hoare_bind _ _ _ (fun _ => anything)).
    + apply hoare_update; try done. intros v x Hs He Hr Hri Hok.
      assert (Ei : row_identity (x <| x_disk_released := true |> <| x_auxiliary_bytes := 0 |>) = i) by done.
      split_and!; [by split| | |done|done].
      * destruct Hok as [Hrel Hst Ha _ ? ? ? ?]. rewrite Hri in Hrel, Hst, Ha. by split; rewrite ?Ei.
      * pose proof (sound_positive _ _ _ Hs _ _ Hr). destruct Hs. unfold row_storage at 2. cbn. cbn in so_storage. lia.
    + intros []. apply hoare_when; [|done]. intros _. apply hoare_shared. intros v [] _. split.
      * intros c n. rewrite lookup_alter_Some. intros [(_ & ? & _ & ->)|[_ ?]]; [done|eauto].
      * pose proof (sum_zero (component_of i) _ so_shared). unfold storage_usage in so_storage. lia.
Qed.
Lemma hoare_purge i b : issued i -> ~ Q (key i) -> ensures anything (purge i b) (fun _ => anything) anything.
Proof. intros Hi HQi. by apply hoare_component, hoare__purge. Qed.

(** ** Storage charges *)
Lemma hoare_charge_auxiliary self i n : limits = capacity self -> issued i ->
  ensures anything (charge_auxiliary_bytes self i n) (fun _ => anything) anything.
Proof.
  intros Hl Hi. eapply hoare_bind; [by apply hoare_throw_if|]. intros []. apply hoare_pure. intros Hn. apply hoare_locked; [done|done|].
  apply (hoare_immediate _ _ _ anything); [done|done|]. eapply hoare_bind; [by apply (hoare_row i false anything)|]. intros r.
  eapply hoare_bind; [by apply hoare_throw_if|]. intros []. apply hoare_pure. intros _. destruct (_ <=? _) eqn:Ele; [by apply hoare_ret|].
  eapply hoare_bind; [apply hoare_ledger|]. intros d. eapply hoare_bind; [by apply hoare_throw_if|]. intros []. apply hoare_pure. intros Hcap.
  apply (hoare_bind _ _ _ (fun _ => anything)); [|intros []; by apply hoare_ret].
  apply hoare_update; try done. intros v x Hs (-> & _ & Hr & Hri & _) Hx _ Hok. rewrite Hr in Hx. injection Hx as <-.
  apply Z.ltb_ge in Hn, Hcap. apply Z.leb_gt in Ele. split_and!; [by split| | |intros _; by split; auto|done].
  - destruct Hok. by split.
  - unfold row_storage. cbn. rewrite Hl. destruct (x_disk_released r); lia.
Qed.

Lemma sum_put (c : string * string) (n : Z) (m : gmap (string * string) Z) : sum_map id (<[c := n]> m) = sum_map id m - default 0 (m !! c) + n.
Proof.
  destruct (m !! c) as [x|] eqn:Em; [by rewrite (sum_map_insert _ _ _ _ _ Em)|]. rewrite sum_map_insert_new by done. unfold id. cbn. lia.
Qed.

Lemma hoare_charge_shared self i n : limits = capacity self -> issued i ->
  ensures anything (charge_shared_auxiliary_bytes self i n) (fun _ => anything) anything.
Proof.
  intros Hl Hi. eapply hoare_bind; [by apply hoare_throw_if|]. intros []. apply hoare_pure. intros Hn. apply hoare_locked; [done|done|].
  apply (hoare_immediate _ _ _ anything); [done|done|]. eapply hoare_bind; [by apply (hoare_row i false anything)|]. intros r.
  eapply hoare_bind; [by apply hoare_throw_if|]. intros []. apply hoare_pure. intros _.
  eapply hoare_bind; [apply hoare_ledger|]. intros d. cbv zeta. destruct (_ <=? _) eqn:Ele; [by apply hoare_ret|].
  eapply hoare_bind; [by apply hoare_throw_if|]. intros []. apply hoare_pure. intros Hcap.
  apply (hoare_bind _ _ _ (fun _ => anything)); [|intros []; by apply hoare_ret]. apply Z.ltb_ge in Hn, Hcap.
  apply hoare_shared. intros v Hs (-> & _). split.
  - intros c m [(_ & <-)|[_ ?]]%lookup_insert_Some; [done|by eapply so_shared].
  - rewrite sum_put, Hl. unfold storage_usage in Hcap. lia.
Qed.

(** ** Leases *)

(** A lease found valid had not run out before. *)
Lemma lease_valid_run self r (w : Node) x w' : lease_valid self r w = (x, w') -> exists n,
  w' = w <| nd_tick := (nd_tick w + n)%N |> /\ (x = Ok true -> Qlt_bool (monotonic (x_boot_id r) (nd_tick w)) (x_lease_until r) = true).
Proof.
  unfold lease_valid. destruct (String.eqb_spec (x_boot_id r) (boot_id self)) as [Eb|]; cbn.
  2: { intros [= <- <-]. exists 0%N. destruct w. cbn. unfold update. cbn. by rewrite N.add_0_r. }
  rewrite <- Eb. unfold bind, ask, ret. destruct (Qlt_bool _ _) eqn:El; cbn.
  - destruct (x_deadline r); intros [= <- <-].
    + exists 2%N. split; [|done]. destruct w. cbn. unfold update. cbn. f_equal. lia.
    + by exists 1%N.
  - intros [= <- <-]. by exists 1%N.
Qed.

Lemma hoare_renew self i v : issued i -> ensures anything (renew self i v) (fun _ => anything) anything.
Proof.
  intros Hi. eapply hoare_bind; [by apply hoare_throw_if|]. intros []. apply hoare_pure. intros _.
  apply (hoare_bind _ _ _ (fun _ => anything)); [|intros []; by apply hoare_ret]. apply hoare_locked; [done|done|].
  intros w x w' Hs _ Hr. unfold bind at 1 in Hr. destruct (row i false w) as [[r|e] w1] eqn:Er.
  2: { pose proof (hoare_row i false anything anything Hi (fun _ _ H => H) w _ _ Hs Logic.I Er) as Hrow. by injection Hr as <- <-. }
  destruct (hoare_row i false anything anything Hi (fun _ _ H => H) w _ _ Hs Logic.I Er) as (S1 & M1 & L1 & K1 & _ & Hrow & Hri & Hok & _).
  unfold bind at 1 in Hr. destruct (if state_in _ _ then _ else _) as [b w2] eqn:Ev in Hr.
  assert (Hv : exists n, w2 = w1 <| nd_tick := (nd_tick w1 + n)%N |> /\ (b = Ok true -> Qlt_bool (monotonic (x_boot_id r) (nd_tick w1)) (x_lease_until r) = true)).
  { destruct (state_in _ _); [|by eapply lease_valid_run]. injection Ev as <- <-. exists 0%N. destruct w1. cbn. unfold update. cbn. by rewrite N.add_0_r. }
  destruct Hv as (n & E2 & Hv).
  assert (Hsame : forall m, moves Q C w (w1 <| nd_tick := (nd_tick w1 + m)%N |>))
    by (intros m; eapply node_moves_trans; [exact M1|]; apply node_moves_same; [done|by exists []|cbn; lia]).
  destruct b as [[]|e]; cbn in Hr; [|injection Hr as <- <-; rewrite E2; by split_and!..].
  specialize (Hv eq_refl). rewrite E2 in Hr. unfold ask, update_row, bind, gets in Hr. cbn in Hr. cbn in Hrow. rewrite Hrow in Hr.
  unfold throw_if in Hr. destruct (_ && _) eqn:Eb in Hr.
  { injection Hr as <- <-. split_and!; [done| |done|done|done]. pose proof (Hsame (n + 1)%N) as Hm. rewrite N.add_assoc in Hm. exact Hm. }
  injection Hr as <- <-. set (r' := r <| x_lease_until := _ |>) in *.
  split_and!; [| |done|done|done].
  - apply (sound_update _ _ _ _ r); [done|done|]. split; [by split_and!|destruct Hok; by split|by apply clash_free|by apply (storage_same (view w1))].
  - eapply node_moves_trans; [exact M1|]. eapply node_moves_trans; [apply (moves_row _ _ w1 (key i) r r'); [done| |]|apply node_moves_same; [done|by exists []|cbn; lia]].
    + split; try done. intros He. congruence.
    + intros _. split; auto.
Qed.

(** ** Reserve *)

(** The two statements that admit a row are one step. *)
Lemma hoare_insert self s serialized (Pre Exn : View -> Prop) : issued (identity s) -> ~ Q (key (identity s)) ->
  ~ C (component_key (component_of (identity s))) ->
  (forall v, soundly v -> Pre v -> guarded v (key (identity s)) /\
     forall now, inserts limits (v_ledger v) (key (identity s)) (reserved_row self s serialized now)) ->
  ensures Pre
    (modify (fun w => w <| nd_ledger ::= (fun d => d <| fences ::= <[component_of (identity s) := epoch (identity s)]> |>) |>) ;;
     let* now := ask (monotonic (boot_id self)) in
     modify (fun w => w <| nd_ledger ::= (fun d => d <| executions ::= <[key (identity s) := reserved_row self s serialized now]> |>) |>))
    (fun _ => current (identity s)) Exn.
Proof.
  set (i := identity s). intros Hi HQi HCi Hin w r w' Hs Hw [= <- <-]. destruct (Hin _ Hs Hw) as [Hg Hall].
  specialize (Hall (monotonic (boot_id self) (nd_tick w))). set (x := reserved_row self s serialized _) in *.
  change (fences (nd_ledger w)) with (fences (v_ledger (view w))) in *.
  split_and!; [by apply (sound_insert _ _ _ (key i) x)| |done|done|].
  - destruct Hall as [Hnew _ Hf Ha _ _ _ _]. split; cbn in *; [lia|by exists []| | | |].
    + intros k y Hy. destruct (decide (k = key i)) as [->|]; [congruence|]. exists y. rewrite lookup_insert_ne by done. eauto using row_kept_refl, steady_refl.
    + intros c e He. destruct (decide (c = component_of i)) as [->|].
      * exists (epoch i). rewrite lookup_insert_eq. specialize (Hf _ He). split; [done|]. fold i in Hf. by apply Z.lt_le_incl.
      * exists e. rewrite lookup_insert_ne by done. split; [done|lia].
    + intros k y HQk Hy Hu. rewrite lookup_insert_ne; [done|]. intros Ec. specialize (Ha _ _ Hy). rewrite <- Ec in Ha. specialize (Ha eq_refl). congruence.
    + intros k y Hy [HQk|HCk].
      * rewrite lookup_insert_ne in Hy by congruence. by eexists.
      * destruct (decide (k = key i)) as [->|]; [rewrite lookup_insert_eq in Hy; by injection Hy as <-|]. rewrite lookup_insert_ne in Hy by done. by eexists.
  - split_and!; [done|apply lookup_insert_eq|]. exists x. split_and!; [apply lookup_insert_eq|by destruct s as [[] ? ? ? ? ? ? ? ? ? ? ? ? ? ? ? ? ?]|done].
Qed.

Lemma none_such p d k r : some_row p d = false -> executions d !! k = Some r -> p r = false.
Proof.
  unfold some_row. intros Hs Hr. apply not_true_iff_false. intros Hp. apply not_true_iff_false in Hs. apply Hs, existsb_exists. exists (k, r).
  split; [apply list_elem_of_In, elem_of_map_to_list; exact Hr|done].
Qed.

Lemma reserved_ok self s serialized now : validate_limits (spec_resources s) = Ok tt -> row_ok [] (reserved_row self s serialized now).
Proof.
  unfold validate_limits, refused_when, refused. intros Hv. destruct (existsb _ _) eqn:Eb; [done|]. cbn in Eb.
  repeat (apply orb_false_iff in Eb as [?%Z.leb_gt Eb]). by split.
Qed.

Lemma hoare_admit self s serialized F Exn : limits = capacity self -> issued (identity s) -> ~ Q (key (identity s)) ->
  ~ C (component_key (component_of (identity s))) -> validate_limits (spec_resources s) = Ok tt ->
  (forall v, F v -> guarded v (key (identity s)) /\ executions (v_ledger v) !! key (identity s) = None) -> (forall v, soundly v -> F v -> Exn v) ->
  ensures F (admit_reservation self s serialized) (fun _ => current (identity s)) Exn.
Proof.
  intros Hl Hi HQi HCi Hv HF Hx. unfold admit_reservation.
  assert (Hx' : forall d v, soundly v -> d = v_ledger v /\ F v -> Exn v) by (intros ? ? ? [_ ?]; by apply Hx).
  eapply hoare_bind; [apply hoare_ledger|]. intros d. eapply hoare_bind; [by apply hoare_throw_if, Hx'|]. intros []. apply hoare_pure. intros Hf.
  eapply hoare_bind; [by apply hoare_throw_if, Hx'|]. intros []. apply hoare_pure. intros Hnone.
  eapply hoare_bind; [by apply hoare_lift, Hx'|]. intros budget. apply hoare_pure. intros Hb.
  eapply hoare_bind; [by apply hoare_throw_if, Hx'|]. intros []. apply hoare_pure. intros Hcap.
  eapply hoare_bind; [by apply hoare_throw_if, Hx'|]. intros []. apply hoare_pure. intros _.
  apply hoare_insert; [done..|]. intros v Hs [-> Hvw]. destruct (HF _ Hvw) as [Hg Hn]. split; [done|]. intros now.
  apply orb_false_iff in Hcap as [[Hc%Z.ltb_ge Hm%Z.ltb_ge]%orb_false_iff Hd%Z.ltb_ge]. unfold execution_storage_budget_bytes in Hb.
  destruct (_ <=? 0); [done|]. injection Hb as <-. split; [done| | | |by apply reserved_ok| | |]; cbn; try (rewrite Hl; lia).
  - by destruct s as [[] ? ? ? ? ? ? ? ? ? ? ? ? ? ? ? ? ?].
  - intros e He. change (fences (v_ledger v) !! component_of (identity s) = Some e) in He. rewrite He in Hf. by apply Z.leb_gt in Hf.
  - intros k r Hr Ec. pose proof (none_such _ _ _ _ Hnone Hr) as Hp. apply andb_false_iff in Hp as [Hp|Hp]; [|done].
    apply bool_decide_eq_false in Hp. by destruct Hp.
  - unfold row_storage. cbn. rewrite Hl. lia.
Qed.

Lemma hoare_reserve_transaction self s serialized : limits = capacity self -> issued (identity s) -> ~ Q (key (identity s)) ->
  ~ C (component_key (component_of (identity s))) -> validate_limits (spec_resources s) = Ok tt ->
  ensures (fun v => anything v /\ guarded v (key (identity s))) (reserve_transaction self s serialized)
    (fun prior v => match prior with Some _ => anything v | None => current (identity s) v end) anything.
Proof.
  set (i := identity s). intros Hl Hi HQi HCi Hv. unfold reserve_transaction. fold i. eapply hoare_bind; [apply hoare_ledger|]. intros d.
  set (G := fun v => d = v_ledger v /\ anything v /\ guarded v (key i)).
  destruct (executions d !! key i) as [prior|] eqn:Ep.
  2: { apply (hoare_bind _ _ _ (fun _ => current i)); [|intros []; by apply hoare_ret]. apply hoare_admit; [done..| |done]. intros v (-> & _ & Hg). by split. }
  eapply hoare_bind; [by apply hoare_throw_if|]. intros []. apply hoare_pure. intros _.
  eapply hoare_bind; [by apply (hoare_row i false G)|]. intros r. eapply hoare_bind; [by apply hoare_throw_if|]. intros []. apply hoare_pure. intros _.
  destruct (negb _) eqn:Est; [by apply hoare_ret|]. eapply hoare_bind; [apply hoare_lease_valid|]. intros valid.
  eapply hoare_bind; [by apply hoare_throw_if|]. intros []. apply hoare_pure. intros _. apply hoare_ret.
  intros v _ ((-> & _ & Hg) & Hr & Hri & _ & He). split_and!; [done|by apply He|]. exists r. split_and!; [done|done|].
  assert (r = prior) as -> by congruence. apply negb_false_iff in Est. unfold state_in, mem_str in Est. apply bool_decide_eq_true in Est.
  apply list_elem_of_singleton in Est. unfold unreleased. by rewrite Est.
Qed.

Lemma hoare_reserve self s : limits = capacity self -> issued (identity s) -> ~ Q (key (identity s)) ->
  ~ C (component_key (component_of (identity s))) -> validate_limits (spec_resources s) = Ok tt ->
  ensures anything (reserve self s) (fun _ => anything) anything.
Proof.
  set (i := identity s). intros Hl Hi HQi HCi Hv. apply hoare_component, hoare_operation. unfold _reserve. fold i.
  set (G := fun v => anything v /\ guarded v (key i)). assert (HG : stable G) by apply stable_guard_held.
  eapply hoare_bind; [by apply hoare_throw_if|]. intros []. apply hoare_pure. intros _. eapply hoare_bind; [by apply hoare_throw_if|]. intros []. apply hoare_pure. intros _.
  eapply hoare_bind; [apply hoare_ask|]. intros wall. apply hoare_pure. intros _. eapply hoare_bind; [by apply hoare_throw_if|]. intros []. apply hoare_pure. intros _.
  apply (hoare_bind _ _ _ (fun _ => G)).
  { apply hoare_when; [|done]. intros _. eapply hoare_bind; [apply hoare_ask|]. intros healthy. apply hoare_pure. intros _.
    eapply hoare_post; [by apply hoare_lift|]. by intros [] v _ [_ ?]. }
  intros []. eapply hoare_bind; [by apply hoare_lift|]. intros serialized. apply hoare_pure. intros _. eapply hoare_bind.
  { apply (hoare_locked G); [done|done|]. apply (hoare_immediate _ _ _ anything); [done|done|by apply hoare_reserve_transaction]. }
  intros [reservation|]; [by apply hoare_ret|]. assert (HF : stable (current i)) by apply stable_current.
  apply (hoare_bind _ _ _ (fun _ => anything)); [|intros []; by apply hoare_ret].
  apply (hoare_on_error _ _ _ _ anything); [|by apply hoare_quarantine|done].
  eapply hoare_bind.
  { eapply (hoare_conseq limits Q C); [apply (hoare_executor (current i) _ _ _ _ (fun _ => True)); [done| |done]|done|intros ? v _ Hx; exact Hx|done].
    intros v Hs Hw. by apply current_effect. }
  intros acknowledged. eapply hoare_bind; [by apply hoare_throw_if|]. intros []. apply hoare_pure. intros _.
  apply (hoare_pre limits Q C _ anything); [done|]. apply hoare_locked; [done|done|]. eapply hoare_bind; [by apply (hoare_row i false anything)|]. intros r.
  eapply hoare_bind; [|intros valid; eapply hoare_bind; [by apply hoare_throw_if|]; intros []; apply hoare_pure; intros _].
  - destruct (state_in _ _); [apply hoare_lease_valid|by apply hoare_ret].
  - by apply hoare_set_state.
Qed.

(** ** The other operations *)
Lemma hoare_allow_launch self i : issued i -> ensures anything (allow_launch self i) (fun _ => anything) anything.
Proof.
  intros Hi. unfold allow_launch. apply (hoare_catch _ _ _ _ anything).
  - apply hoare_locked; [done|done|]. eapply hoare_bind; [by apply (hoare_row i false anything)|]. intros r.
    eapply hoare_bind; [apply hoare_lease_valid|]. intros valid. by apply hoare_ret.
  - intros e. destruct e; (by apply hoare_ret) || by apply hoare_throw.
Qed.

Lemma hoare_confirm_absent i : issued i -> ensures anything (confirm_absent i) (fun _ => anything) anything.
Proof.
  intros Hi. apply hoare_component, hoare_operation. apply (hoare_pre limits Q C _ anything); [done|]. apply (hoare_bind _ _ _ (fun _ => anything)).
  - apply hoare_locked; [done|done|]. eapply hoare_bind; [apply hoare_ledger|]. intros d. by apply hoare_ret.
  - intros unknown. destruct (_ || _); [by apply hoare_ret|]. apply (hoare_catch _ _ _ _ anything).
    + eapply hoare_any, (hoare_executor anything _ _ _ _ (fun _ => True)); done.
    + intros e. destruct e; try (by apply hoare_ret); try (by apply hoare_throw).
Qed.

Lemma hoare_purge_guard {A} i (body : M Node A) : issued i -> ensures anything body (fun _ => anything) anything ->
  ensures anything (component_purge_guard i body) (fun _ => anything) anything.
Proof.
  intros Hi Hb. apply hoare_component. eapply hoare_bind; [by apply (hoare_purge_allowed anything)|]. intros allowed.
  eapply hoare_bind; [by apply hoare_throw_if|]. intros []. by apply (hoare_pre limits Q C _ anything).
Qed.

Lemma hoare_retained_manifest i : issued i -> ensures anything (retained_manifest i) (fun _ => anything) anything.
Proof.
  intros Hi. apply (hoare_bind _ _ _ (fun _ => anything)).
  - apply hoare_locked; [done|done|]. eapply hoare_bind; [by apply (hoare_retained_row i anything)|]. intros r. by apply hoare_ret.
  - intros purged. destruct purged; [by apply hoare_ret|by apply hoare_collect_call].
Qed.

Lemma hoare_reconciliation_root i : issued i -> ensures anything (reconciliation_root i) (fun _ => anything) anything.
Proof.
  intros Hi. eapply hoare_bind; [apply hoare_locked; [done|done|by apply (hoare_row i false anything)]|]. intros r.
  eapply hoare_bind; [apply hoare_ask|]. intros root. apply hoare_pure. intros _. by eapply hoare_any, hoare_lift.
Qed.

Lemma hoare_answer {A} (f : N -> result A) Pre : ensures Pre (let* x := ask f in lift x) (fun _ => anything) anything.
Proof. eapply hoare_bind; [apply hoare_ask|]. intros x. apply hoare_pure. intros _. by eapply hoare_any, (hoare_lift _ _ _ _ _ anything). Qed.

Lemma hoare_read_logs i offset max_bytes : issued i -> ensures anything (read_logs i offset max_bytes) (fun _ => anything) anything.
Proof.
  intros Hi. apply hoare_operation. apply (hoare_pre limits Q C _ anything); [done|]. apply (hoare_bind _ _ _ (fun _ => anything)).
  - apply hoare_locked; [done|done|]. eapply hoare_bind; [by apply (hoare_retained_row i anything)|]. intros r.
    eapply hoare_bind; [by apply hoare_throw_if|]. intros []. apply (hoare_pre limits Q C _ anything); [done|].
    apply (hoare_bind _ _ _ (fun _ => anything)); [|intros []; by apply hoare_ret].
    apply hoare_when; [|done]. intros _. by eapply hoare_any, (hoare_throw_if _ _ _ _ _ anything).
  - intros absent. destruct absent; [by apply hoare_ret|apply hoare_answer].
Qed.

Lemma hoare_read_artifact i path max_bytes : issued i -> ~ Q (key i) -> ensures anything (read_artifact i path max_bytes) (fun _ => anything) anything.
Proof.
  intros Hi HQi. apply hoare_operation. apply (hoare_pre limits Q C _ anything); [done|]. apply (hoare_bind _ _ _ (fun _ => anything)).
  - apply hoare_locked; [done|done|]. eapply hoare_bind; [by apply (hoare_retained_row i anything)|]. intros r.
    by eapply hoare_any, hoare_throw_if.
  - intros []. eapply hoare_bind; [|intros ?; apply hoare_answer]. by apply (hoare_collect_files (fun _ => True)).
Qed.

Lemma hoare_mapM {A B} (f : A -> M Node B) l : (forall a, a ∈ l -> ensures anything (f a) (fun _ => anything) anything) ->
  ensures anything (mapM f l) (fun _ => anything) anything.
Proof.
  induction l as [|a l IH]; intros Hf; cbn; [by apply hoare_ret|]. eapply hoare_bind; [apply Hf; by left|]. intros b.
  eapply hoare_bind; [apply IH; intros x Hx; apply Hf; by right|]. intros bs. by apply hoare_ret.
Qed.

Lemma hoare_watch_row self r : issued (row_identity r) -> ~ Q (key (row_identity r)) -> ensures anything (watch_row self r) (fun _ => anything) anything.
Proof.
  intros Hi HQi. eapply hoare_bind; [apply hoare_lease_valid|]. intros valid. destruct valid; [by apply hoare_ret|].
  apply (hoare_bind _ _ _ (fun _ => anything)); [|intros []; by apply hoare_ret]. apply (hoare_catch _ _ _ _ anything).
  - eapply hoare_bind; [by apply hoare_stop|]. intros ?. by apply hoare_ret.
  - intros e. destruct e; try (by apply hoare_throw); by apply hoare_quarantine.
Qed.

Lemma hoare_watchdog self : (forall k, ~ Q k) -> ensures anything (watchdog_once self) (fun _ => anything) anything.
Proof.
  intros HQn. apply (hoare_bind _ _ _ (fun rows v => Forall (fun r => issued (row_identity r)) rows /\ anything v)).
  - apply hoare_locked; [done|done|]. intros w x w' Hs _ [= <- <-]. split_and!; [done|apply node_moves_refl|done|done| |done].
    apply Forall_forall. intros r Hr. apply list_elem_of_In, filter_In in Hr as [Hr _]. apply list_elem_of_In, list_elem_of_fmap in Hr as ([k y] & -> & Hy).
    apply elem_of_map_to_list in Hy. by destruct (so_keyed _ _ _ Hs _ _ Hy).
  - intros rows. apply hoare_pure. rewrite Forall_forall. intros Hrows. eapply hoare_bind; [|intros ?; by apply hoare_ret].
    apply hoare_mapM. intros r Hr. apply hoare_watch_row; [by apply Hrows|done].
Qed.
End Theory.
