(* ===== verification/NodeSystem.v ===== *)
(** * A node agent at work

    The operations of [NodeAgent] as requests, what the agent can become by
    them -- in any order, with restarts of the process and reboots, in any
    company --, and the company of other threads that run the same operations. *)

From stdpp Require Import base gmap strings list fin_maps.
From Stdlib Require Import ZArith Lia QArith.
From S2P Require Import Prelude Json Domain Schemas JobSpec NodeAgent NodeLogic NodeTheory.
Open Scope Z_scope.
Open Scope py_scope.

(** ** Requests *)
Inductive NodeOp :=
  | Reserve (s : ExecutionSpec)
  | Renew (i : ExecutionIdentity) (lease_seconds : json)
  | Start (i : ExecutionIdentity)
  | Inspect (i : ExecutionIdentity)
  | Stop (i : ExecutionIdentity) (grace_seconds : Z)
  | Collect (i : ExecutionIdentity)
  | Release (i : ExecutionIdentity)
  | Purge (i : ExecutionIdentity) (auxiliary_deleted : bool)
  | ChargeAuxiliary (i : ExecutionIdentity) (total_bytes : Z)
  | ChargeShared (i : ExecutionIdentity) (total_bytes : Z)
  | ConfirmAbsent (i : ExecutionIdentity)
  | PurgeAllowed (i : ExecutionIdentity)
  | PurgeGuard (i : ExecutionIdentity)
  | AllowLaunch (i : ExecutionIdentity)
  | RetainedManifest (i : ExecutionIdentity)
  | ReconciliationRoot (i : ExecutionIdentity)
  | ReadLogs (i : ExecutionIdentity) (offset max_bytes : Z)
  | ReadArtifact (i : ExecutionIdentity) (path : string) (max_bytes : Z)
  | AssignmentResources (i : ExecutionIdentity) (allow_stale : bool)
  | StorageUsage
  | Watchdog.

(** The execution a request is about. *)
Definition subject (op : NodeOp) : option ExecutionIdentity :=
  match op with
  | Reserve s => Some (identity s)
  | Renew i _ | Start i | Inspect i | Stop i _ | Collect i | Release i | Purge i _ | ChargeAuxiliary i _ | ChargeShared i _
  | ConfirmAbsent i | PurgeAllowed i | PurgeGuard i | AllowLaunch i | RetainedManifest i | ReconciliationRoot i | ReadLogs i _ _
  | ReadArtifact i _ _ | AssignmentResources i _ => Some i
  | StorageUsage | Watchdog => None
  end.

(** The checks of the objects a request is made of. *)
Definition constructed (op : NodeOp) : result unit :=
  match op with
  | Reserve s =>
      let? _ := validate_identity (identity s) in
      let? _ := validate_limits (spec_resources s) in
      validate_execution s
  | _ => match subject op with Some i => validate_identity i | None => Ok tt end
  end.

Section System.
Context {P : Platform} {X : Executor} {H : Host}.

Definition ignoring {A} (m : M Node A) : M Node unit := let* _ := m in ret tt.
Definition dispatch (self : Agent) (op : NodeOp) : M Node unit :=
  match op with
  | Reserve s => ignoring (reserve self s)
  | Renew i v => ignoring (renew self i v)
  | Start i => ignoring (start self i)
  | Inspect i => ignoring (inspect i)
  | Stop i grace => ignoring (stop i grace)
  | Collect i => ignoring (collect_files i)
  | Release i => ignoring (release i)
  | Purge i b => ignoring (purge i b)
  | ChargeAuxiliary i n => ignoring (charge_auxiliary_bytes self i n)
  | ChargeShared i n => ignoring (charge_shared_auxiliary_bytes self i n)
  | ConfirmAbsent i => ignoring (confirm_absent i)
  | PurgeAllowed i => ignoring (component_purge_allowed i)
  | PurgeGuard i => component_purge_guard i (ret tt)
  | AllowLaunch i => ignoring (allow_launch self i)
  | RetainedManifest i => ignoring (retained_manifest i)
  | ReconciliationRoot i => ignoring (reconciliation_root i)
  | ReadLogs i offset max_bytes => ignoring (read_logs i offset max_bytes)
  | ReadArtifact i path max_bytes => ignoring (read_artifact i path max_bytes)
  | AssignmentResources i b => ignoring (assignment_resources i b)
  | StorageUsage => ignoring storage_usage_bytes
  | Watchdog => ignoring (watchdog_once self)
  end.
Definition serve_node (self : Agent) (op : NodeOp) : M Node unit := lift (constructed op) ;; dispatch self op.

(** The keys and components whose guards a request takes. *)
Definition takes (op : NodeOp) (k : string) : Prop :=
  match op with
  | Watchdog => True
  | Reserve _ | Start _ | Stop _ _ | Collect _ | Release _ | Purge _ _ | ReadArtifact _ _ _ | ReadLogs _ _ _ | ConfirmAbsent _ =>
      match subject op with Some i => k = key i | None => False end
  | _ => False
  end.
Definition takes_component (op : NodeOp) (c : string) : Prop :=
  match op with
  | Reserve _ | Purge _ _ | ConfirmAbsent _ | PurgeGuard _ => match subject op with Some i => c = component_key (component_of i) | None => False end
  | _ => False
  end.

Section Keeps.
Context {I : Assignments} {HC : SteadyClock} {HS : HonestStart} (limits : ResourceLimits).
Context (E EC : string -> Prop) {HN : Neighbours limits E EC} (Q C : string -> Prop).
Hypothesis HQ : forall k, Q k -> E k.
Hypothesis HQC : forall c, C c -> EC c.

Definition assigned (op : NodeOp) : Prop := match subject op with Some i => issued i | None => True end.

Lemma hoare_ignoring {A} (m : M Node A) : ensures limits Q C anything m (fun _ => anything) anything ->
  ensures limits Q C anything (ignoring m) (fun _ => anything) anything.
Proof. intros Hm. eapply (hoare_bind limits Q C); [exact Hm|]. intros ?. by apply hoare_ret. Qed.

(** Every request keeps the invariant, and what it takes no guard of. *)
Lemma serve_keeps self op : limits = capacity self -> assigned op -> (forall k, takes op k -> ~ Q k) -> (forall c, takes_component op c -> ~ C c) ->
  ensures limits Q C anything (serve_node self op) (fun _ => anything) anything.
Proof.
  intros Hl Hi Ht Hc. unfold serve_node. eapply (hoare_bind limits Q C); [by apply hoare_lift|]. intros []. apply hoare_pure. intros Hok.
  destruct op; cbn in Hi, Ht, Hc; cbn [dispatch]; try apply hoare_ignoring.
  - apply (hoare_reserve limits E EC); try done; [by apply Ht|by apply Hc|]. cbn in Hok.
    destruct (validate_identity _) as [[]|]; [|done]. by destruct (validate_limits _) as [[]|].
  - by apply (hoare_renew limits E EC).
  - apply (hoare_start limits E EC); try done. by apply Ht.
  - eapply hoare_conseq; [by apply (hoare_inspect limits E EC Q C HQ HQC anything)|done..].
  - apply (hoare_stop limits E EC); try done. by apply Ht.
  - eapply hoare_conseq; [apply (hoare_collect_files limits E EC Q C HQ HQC (fun _ => True)); try done; by apply Ht|done..].
  - apply (hoare_release limits E EC); try done. by apply Ht.
  - apply (hoare_purge limits E EC); try done. by apply Ht.
  - by apply (hoare_charge_auxiliary limits E EC).
  - by apply (hoare_charge_shared limits E EC).
  - by apply (hoare_confirm_absent limits E EC).
  - eapply hoare_conseq; [by apply (hoare_purge_allowed limits E EC Q C HQ HQC anything)|done..].
  - apply (hoare_purge_guard limits E EC); try done. by apply hoare_ret.
  - by apply (hoare_allow_launch limits E EC).
  - by apply (hoare_retained_manifest limits E EC).
  - by apply (hoare_reconciliation_root limits E EC).
  - by apply (hoare_read_logs limits E EC).
  - apply (hoare_read_artifact limits E EC); try done. by apply Ht.
  - apply (hoare_locked limits E EC); try done. eapply (hoare_bind limits Q C); [by apply (hoare_row limits Q C _ _ anything anything)|].
    intros r. by apply hoare_ret.
  - apply (hoare_locked limits E EC); try done. intros w r w' Hs _ [= <- <-]. split_and!; eauto using node_moves_refl.
  - apply (hoare_watchdog limits E EC); try done. intros k. by apply Ht.
Qed.
End Keeps.

(** ** Reachable nodes *)
Definition nobody (k : string) : Prop := False.

Section Reach.
Context {I : Assignments} {HC : SteadyClock} {HS : HonestStart} (limits : ResourceLimits) {HN : Neighbours limits nobody nobody}.

(** One request of the process, or of the one that replaces it: the agent may
    be another after a restart or a reboot, with the same capacity. *)
Inductive node_step (w w' : Node) : Prop :=
  | by_request self op r : capacity self = limits -> assigned op -> serve_node self op w = (r, w') -> node_step w w'.
Definition node_runs : Node -> Node -> Prop := rtc node_step.
Definition fresh_node (w : Node) : Prop := nd_ledger w = empty_ledger /\ nd_calls w = [] /\ nd_held w = [].
Definition reachable_node (w : Node) : Prop := exists w0, fresh_node w0 /\ node_runs w0 w.

Lemma node_step_keeps w w' : soundly limits (view w) -> node_step w w' -> soundly limits (view w') /\ moves nobody nobody w w' /\ nd_held w' = nd_held w.
Proof.
  intros Hs [self op r Hl Hi Hr].
  destruct (serve_keeps limits nobody nobody nobody nobody (fun _ H => H) (fun _ H => H) self op (eq_sym Hl) Hi (fun _ _ H => H) (fun _ _ H => H)
    _ _ _ Hs Logic.I Hr) as (? & ? & ? & _). done.
Qed.
Lemma node_runs_keep w w' : soundly limits (view w) -> node_runs w w' -> soundly limits (view w') /\ moves nobody nobody w w'.
Proof.
  intros Hs Hr. induction Hr as [w|w1 w2 w3 H12 _ IH]; [split; [done|apply node_moves_refl]|].
  destruct (node_step_keeps _ _ Hs H12) as (S2 & M2 & _). destruct (IH S2) as [S3 M3]. split; [done|]. by eapply node_moves_trans.
Qed.
Lemma reachable_node_sound w : 0 <= cpu_millis limits -> 0 <= memory_bytes limits -> 0 <= disk_bytes limits -> reachable_node w -> soundly limits (view w).
Proof.
  intros ? ? ? (w0 & (E1 & E2 & _) & Hr). apply (node_runs_keep w0); [|done]. unfold soundly, view. cbn. rewrite E1, E2. by apply sound_empty.
Qed.
End Reach.
End System.

(** ** Company *)

(** Other threads, each of which has run a number of whole requests between
    two steps of this one: a request waits for the guards it takes. *)
Section Company.
Context {P : Platform} {X : Executor}.

(** A host on which nobody else runs and nothing dies. *)
Record Machine := mkMachine { mc_monotonic : string -> N -> Q; mc_wall_clock : N -> Q; mc_float_add : Q -> Q -> Q; mc_guard_file : N -> result unit }.
Definition alone (m : Machine) : Host :=
  {| monotonic := mc_monotonic m; wall_clock := mc_wall_clock m; float_add := mc_float_add m; guard_file := mc_guard_file m;
     dies := fun _ => false; others := fun _ _ s => s |}.

(** The guards a request takes are free, as far as the thread [held] goes. *)
Definition free (held : list Guard) (op : NodeOp) : bool :=
  match op with
  | Watchdog => bool_decide (held = [])
  | _ => match subject op with
         | Some i => negb (bool_decide ((EXECUTION_GUARD, key i) ∈ held)) && negb (bool_decide ((COMPONENT_GUARD, component_key (component_of i)) ∈ held))
         | None => true
         end
  end.
Definition visit (m : Machine) (held : list Guard) (n : N) (s : Ledger * list Event) (request : Agent * NodeOp) : Ledger * list Event :=
  if free held request.2 then
    let w := (@serve_node P X (alone m) request.1 request.2 (mkNode s.1 s.2 [] false n)).2 in (nd_ledger w, nd_calls w)
  else s.
Definition in_company (m : Machine) (deaths : N -> bool) (visits : N -> list (Agent * NodeOp)) : Host :=
  {| monotonic := mc_monotonic m; wall_clock := mc_wall_clock m; float_add := mc_float_add m; guard_file := mc_guard_file m;
     dies := deaths; others := fun held n s => fold_left (visit m held n) (visits n) s |}.

Context {I : Assignments} (limits : ResourceLimits) (m : Machine).
Context {HC : SteadyClock (H := alone m)} {HS : HonestStart}.

(** Only the clock of a host counts for what is kept. *)
Lemma moves_host (H1 H2 : Host) Q C w w' : (forall b n, @monotonic H1 b n = @monotonic H2 b n) ->
  moves (H := H1) Q C w w' -> moves (H := H2) Q C w w'.
Proof.
  intros Hm [T L R F G N]. split; try done. intros k r Hr. destruct (R _ _ Hr) as (r' & Hr' & [] & S). exists r'.
  split_and!; [done| |done]. split; try done. rewrite <- Hm. done.
Qed.

Definition keep_by (held : list Guard) (n : N) (s s' : Ledger * list Event) : Prop :=
  sound limits s'.1 s'.2 /\
  moves (H := alone m) (fun k => (EXECUTION_GUARD, k) ∈ held) (fun c => (COMPONENT_GUARD, c) ∈ held)
    (mkNode s.1 s.2 held false n) (mkNode s'.1 s'.2 held false n).

Lemma alone_neighbours E EC : Neighbours (H := alone m) limits E EC.
Proof. intros w d h Hs [= <- <-]. split; [exact Hs|]. apply node_moves_same; [done|by exists []|done]. Qed.

Lemma free_takes held op k : free held op = true -> takes op k -> (EXECUTION_GUARD, k) ∉ held.
Proof.
  unfold free. destruct op; cbn; try done; try (intros [?%negb_true_iff%bool_decide_eq_false _]%andb_true_iff ->; done).
  intros ->%bool_decide_eq_true _. apply not_elem_of_nil.
Qed.
Lemma free_takes_component held op c : free held op = true -> takes_component op c -> (COMPONENT_GUARD, c) ∉ held.
Proof. unfold free. destruct op; cbn; try done; intros [_ ?%negb_true_iff%bool_decide_eq_false]%andb_true_iff ->; done. Qed.

Lemma visit_keeps held n s request : sound limits s.1 s.2 -> capacity request.1 = limits -> assigned request.2 ->
  keep_by held n s (visit m held n s request).
Proof.
  intros Hs Hl Hi. unfold visit. destruct (free _ _) eqn:Ef; [|by split; [|apply node_moves_refl]].
  set (Q := fun k => (EXECUTION_GUARD, k) ∈ held). set (C := fun c => (COMPONENT_GUARD, c) ∈ held).
  destruct (serve_node _ _ _) as [r w'] eqn:Er. pose proof (alone_neighbours Q C) as HN.
  destruct (serve_keeps (H := alone m) limits Q C Q C (fun _ H => H) (fun _ H => H) request.1 request.2 (eq_sym Hl) Hi
    (fun k Ht => free_takes _ _ _ Ef Ht) (fun c Ht => free_takes_component _ _ _ Ef Ht) (mkNode s.1 s.2 [] false n) r w' Hs Logic.I Er) as (S' & [T L R F G N] & _).
  split; [done|]. by split.
Qed.

Lemma visits_keep held n l s : Forall (fun request => capacity request.1 = limits /\ assigned request.2) l -> sound limits s.1 s.2 ->
  keep_by held n s (fold_left (visit m held n) l s).
Proof.
  intros Hl. revert s. induction Hl as [|request l [Hc Hi] Hl IH]; intros s Hs; cbn; [by split; [|apply node_moves_refl]|].
  destruct (visit_keeps held n s request Hs Hc Hi) as [S1 M1]. destruct (IH _ S1) as [S2 M2]. split; [done|]. by eapply node_moves_trans.
Qed.

(** Threads that run the agent's own requests are neighbours. *)
Lemma company_neighbours deaths visits : (forall n, Forall (fun request => capacity request.1 = limits /\ assigned request.2) (visits n)) ->
  Neighbours (H := in_company m deaths visits) limits nobody nobody.
Proof.
  intros Hv w d h Hs Ho. cbn in Ho. destruct (visits_keep (nd_held w) (nd_tick w) _ (nd_ledger w, nd_calls w) (Hv (nd_tick w)) Hs) as [S1 [T L R F G N]].
  rewrite Ho in S1, T, L, R, F, G, N. split; [done|]. apply (moves_host (alone m)); [done|].
  split; cbn in *; try done.
  - intros k r Hr. destruct (R _ _ Hr) as (r' & ? & ? & S). exists r'. split_and!; [done|done|]. intros [?|[]]. by apply S.
  - intros k r [?|[]]. by apply G.
  - intros k r' Hr' [[?|[]]|[?|[]]]; eapply N; eauto.
Qed.
End Company.
