(* ===== verification/NodeScenario.v ===== *)
(** * A node at work, concretely

    A machine whose clocks advance by a second at every call out, an executor
    that confirms what it is asked -- except that it cannot tell how the
    component [trainer] of [job2] ends --, another thread that inspects and
    renews in between, and a run in which an execution is reserved, started,
    stopped, released and purged, and its component comes back at the next
    epoch. *)

From stdpp Require Import base gmap strings list fin_maps.
From Stdlib Require Import ZArith Lia QArith.
From S2P Require Import Prelude Json Domain Schemas JobSpec NodeAgent NodeLogic NodeTheory NodeSystem.
Open Scope Z_scope.
Open Scope py_scope.

(** Keys that are prefixes of the serialized identity: they tell the attempts
    apart. *)
#[export] Instance node_platform : Platform := {|
  sha256_hex := fun s => s; float_repr := fun _ => "0.5"; py_repr := fun _ => ""; casefold := fun s => s;
  schema_wellformed := fun _ => true; schema_accepts := fun _ _ => true; Domain.clock := Z.of_nat; uuid4_hex := fun _ => "";
  settings := mkSettings (mkAuthSettings "root" "issuer" [] []) (mkStorageSettings "/objects/" 60 8) (mkWorkerSettings 30 100 5 50 50) 3600 60
|}.

Definition FIRST : ExecutionIdentity := mkIdentity "job1" "a1" "owner" 1.
Definition SECOND : ExecutionIdentity := mkIdentity "job1" "a2" "owner" 2.
Definition OTHER : ExecutionIdentity := mkIdentity "job2" "b1" "trainer" 1.
Definition ASSIGNED : list ExecutionIdentity := [FIRST; SECOND; OTHER].
#[export] Instance assignments : Assignments.
Proof.
  refine {| issued := fun i => i ∈ ASSIGNED |}. intros i j Hi Hj.
  repeat (apply elem_of_cons in Hi as [->|Hi]; [|try by apply elem_of_nil in Hi]);
    repeat (apply elem_of_cons in Hj as [->|Hj]; [|try by apply elem_of_nil in Hj]); done || (vm_compute; discriminate).
Defined.

Definition answer_state (i : ExecutionIdentity) (state : string) (ended : bool) : Observation := observation i state ended [].
#[export] Instance node_executor : Executor := {|
  ex_reserve := fun _ _ => Ok true;
  ex_start := fun _ i => Ok (answer_state i "RUNNING" false);
  ex_inspect := fun _ i => Ok (answer_state i "STOPPED" true);
  ex_stop := fun _ i _ => if decide (i = OTHER) then Err UncertainExecution else Ok (answer_state i "STOPPED" true);
  ex_collect := fun _ _ => Ok [("model.bin", 1000)];
  ex_release := fun _ _ => Ok true;
  ex_purge := fun _ _ => Ok true;
  ex_read_logs := fun _ _ _ _ => Ok JNull;
  ex_read_artifact := fun _ _ _ _ => Ok "";
  ex_reconciliation_root := fun _ _ => Ok "/node";
  has_confirm_absent := true;
  ex_confirm_absent := fun _ _ => Ok false;
  has_qualify_health := true;
  ex_qualify_health := fun _ => Ok tt;
|}.
#[export] Instance node_honest : HonestStart.
Proof. by intros n i o [= <-]. Qed.
(** One second passes at every call out. *)
Definition MACHINE : Machine := mkMachine (fun _ n => inject_Z (Z.of_N n)) (fun n => inject_Z (Z.of_N n)) Qplus (fun _ => Ok tt).
#[export] Instance machine_clock : SteadyClock (H := alone MACHINE).
Proof. intros b m n Hmn. cbn. apply Qle_bool_iff. rewrite <- Zle_Qle. lia. Qed.

Definition GIB : Z := 1024 * 1024 * 1024.
Definition LIMITS : ResourceLimits := mkLimits 4000 (8 * GIB) (20 * GIB) 128 (16 * 1024 * 1024) 0.
Definition AGENT : Agent := mkAgent "node1" "pool1" LIMITS "boot1".
Definition IMAGE : string := "sha256:aaaaaaaaaaaaaaaaaaaaaaaaaaaaaaaaaaaaaaaaaaaaaaaaaaaaaaaaaaaaaaaa".
Definition leased (i : ExecutionIdentity) (lease_seconds : Z) : ExecutionSpec :=
  mkExecutionSpec i IMAGE "/node/source" "/node/state" WORKER_ARGV (Some "/node/p/s") (mkLimits 2000 (2 * GIB) GIB 64 1048576 0) (JInt lease_seconds)
    "pool1" "node1" JNull None "runsc-cpu-v1" "owner" None None None None.
Definition spec_of (i : ExecutionIdentity) : ExecutionSpec := leased i 120.

(** Another thread inspects the first execution and renews the lease of the
    other, between the steps that ask for them. *)
Definition VISITS (n : N) : list (Agent * NodeOp) := if (n mod 5 =? 0)%N then [(AGENT, Inspect FIRST); (AGENT, Renew OTHER (JInt 60))] else [].
#[export] Instance node_host : Host := in_company MACHINE (fun _ => false) VISITS.
#[export] Instance node_clock : SteadyClock (H := node_host).
Proof. exact machine_clock. Qed.
Lemma known_execution i : bool_decide (i ∈ ASSIGNED) = true -> issued i.
Proof. by intros ?%bool_decide_eq_true. Qed.
#[export] Instance node_neighbours : Neighbours (H := node_host) LIMITS nobody nobody.
Proof.
  apply (company_neighbours LIMITS MACHINE). intros n. unfold VISITS. destruct (_ =? _)%N; [|done].
  repeat (apply Forall_cons; split; [split; [done|apply known_execution; vm_compute; reflexivity]|]). done.
Qed.

(** ** Scripts *)
Definition play_node (script : list NodeOp) (w : Node) : Node := fold_left (fun w op => (serve_node AGENT op w).2) script w.
Definition UNUSED : Node := mkNode empty_ledger [] [] false 0.

(** Two executions of a job, one after the other, beside one of another job. *)
Definition FIRST_LIFE : list NodeOp := [Reserve (spec_of FIRST); Start FIRST; Reserve (spec_of OTHER); Stop FIRST 60; Release FIRST].
Definition SECOND_LIFE : list NodeOp := [Reserve (spec_of SECOND); Start SECOND; Purge FIRST false].
(** An execution whose lease runs out before it is started. *)
Definition BRIEF_LIFE : list NodeOp := [Reserve (spec_of OTHER); Reserve (leased FIRST 1); Start FIRST].
Definition TOO_LATE : list NodeOp := [Renew FIRST (JInt 60); Start FIRST; Watchdog; Renew FIRST (JInt 60)].

Definition known (op : NodeOp) : bool := match subject op with Some i => bool_decide (i ∈ ASSIGNED) | None => true end.
Lemma known_assigned op : known op = true -> assigned op.
Proof. unfold known, assigned. destruct (subject op) as [i|]; [apply known_execution|done]. Qed.
Lemma play_node_runs script w : forallb known script = true -> node_runs LIMITS w (play_node script w).
Proof.
  revert w. induction script as [|op script IH]; intros w Hs; [apply rtc_refl|]. apply andb_true_iff in Hs as [Ha Hs].
  change (node_runs LIMITS w (play_node script (serve_node AGENT op w).2)).
  destruct (serve_node AGENT op w) as [r w'] eqn:E. apply (rtc_l _ _ w'); [|by apply (IH w')].
  by apply (by_request _ _ _ AGENT op r); [|apply known_assigned|].
Qed.
Lemma play_node_reachable script : forallb known script = true -> reachable_node LIMITS (play_node script UNUSED).
Proof. intros Hs. exists UNUSED. split; [done|]. by apply play_node_runs. Qed.

Definition BUSY : Node := play_node FIRST_LIFE UNUSED.
Definition RESUMED : Node := play_node (FIRST_LIFE ++ SECOND_LIFE) UNUSED.
Definition EXPIRED : Node := play_node BRIEF_LIFE UNUSED.
Lemma resumed_reachable : reachable_node LIMITS RESUMED.
Proof. apply play_node_reachable. vm_compute. reflexivity. Qed.
Lemma expired_reachable : reachable_node LIMITS EXPIRED.
Proof. apply play_node_reachable. vm_compute. reflexivity. Qed.
Lemma limits_positive : 0 <= cpu_millis LIMITS /\ 0 <= memory_bytes LIMITS /\ 0 <= disk_bytes LIMITS.
Proof. done. Qed.
Lemma reachable_ledger w : reachable_node LIMITS w -> sound LIMITS (nd_ledger w) (nd_calls w).
Proof. intros Hr. by apply (reachable_node_sound LIMITS w). Qed.
Lemma expired_sound : sound LIMITS (nd_ledger EXPIRED) (nd_calls EXPIRED).
Proof. exact (reachable_ledger EXPIRED expired_reachable). Qed.

(** ** Reading a concrete node *)
Lemma read_event (h : list Event) n (test : Event -> bool) : option_map test (nth_error h n) = Some true ->
  exists later e before, h = later ++ e :: before /\ length later = n /\ test e = true.
Proof. intros Ht. destruct (nth_error h n) as [e|] eqn:E; [|done]. apply nth_error_split in E as (later & before & ? & ?). injection Ht as Ht. eauto 6. Qed.
Lemma read_row (d : Ledger) k (test : Execution -> bool) : option_map test (executions d !! k) = Some true -> exists r, executions d !! k = Some r /\ test r = true.
Proof. intros Ht. destruct (executions d !! k) as [r|]; [|done]. injection Ht as Ht. eauto. Qed.
Definition in_state (s : string) (d : Ledger) (i : ExecutionIdentity) : bool := bool_decide (x_state <$> executions d !! key i = Some s).

(** ** A row that comes back

    Between the [SELECT] of a sweep and the stop of a row the watchdog holds
    nothing.  When the execution is released meanwhile, and its component has
    come back at a later epoch, the stop is refused and the watchdog writes
    QUARANTINED over RELEASED. *)

Definition THIRD : ExecutionIdentity := mkIdentity "job1" "a3" "owner" 3.
(** What another thread runs at the step at which the stop is to begin. *)
Definition MEANWHILE : list NodeOp := [Stop FIRST 0; Release FIRST; Reserve (spec_of SECOND); Stop SECOND 0; Release SECOND].
Definition visited_by (script : list NodeOp) : Host :=
  in_company MACHINE (fun _ => false) (fun n => if (n =? nd_tick EXPIRED + 2)%N then map (pair AGENT) script else []).
Definition SWEPT : result (list ExecutionIdentity) * Node := watchdog_once (H := visited_by MEANWHILE) AGENT EXPIRED.
Definition refusals (script : list NodeOp) (w : Node) : list (result unit) := map (fun op => (serve_node (H := alone MACHINE) AGENT op w).1) script.

(** The released row is unreleased again under an epoch that is over: it can be
    neither stopped nor released nor purged, it counts as used for ever, and
    the component is not reserved again at any epoch. *)
Lemma sweep_resurrects_released_row :
  in_state "QUARANTINED" (nd_ledger SWEPT.2) FIRST = true /\ in_state "RELEASED" (nd_ledger SWEPT.2) SECOND = true /\
  used_cpu (nd_ledger SWEPT.2) = 4000 /\
  refusals [Stop FIRST 0; Release FIRST; Purge FIRST false; Reserve (spec_of THIRD)] SWEPT.2 =
    [Err (ExecutorRefused "stale_epoch"); Err (ExecutorRefused "stale_epoch"); Err (ExecutorRefused "runtime_active"); Err (ExecutorRefused "node_quarantined")].
Proof. vm_compute. done. Qed.

(** When the next execution is still reserved, the write violates the index of
    unreleased rows instead, and the sweep ends without looking at the rest. *)
Lemma sweep_ends_early : (watchdog_once (H := visited_by (take 3 MEANWHILE)) AGENT EXPIRED).1 = Err IntegrityError.
Proof. vm_compute. done. Qed.
