(* ===== verification/NodeGuarantees.v ===== *)
(** * What a node agent guarantees

    The theorems about the node agent at work: the order of effects and
    confirmations, the capacity of the node, expired leases, and the guards. *)

From stdpp Require Import base gmap strings list fin_maps.
From Stdlib Require Import ZArith Lia QArith.
From S2P Require Import Prelude Json Domain Schemas JobSpec NodeAgent NodeLogic NodeTheory NodeSystem NodeScenario.
Open Scope Z_scope.
Open Scope py_scope.

Section Guarantees.
Context {P : Platform} {X : Executor} {H : Host} {I : Assignments} {HC : SteadyClock} {HS : HonestStart} (limits : ResourceLimits).
Hypothesis positive : 0 <= cpu_millis limits /\ 0 <= memory_bytes limits /\ 0 <= disk_bytes limits.

Lemma reachable_sound {HN : Neighbours limits nobody nobody} w : reachable_node limits w -> sound limits (nd_ledger w) (nd_calls w).
Proof. intros Hr. destruct positive as (? & ? & ?). by apply (reachable_node_sound limits w). Qed.

Lemma history_event l e h : history_ok (l ++ e :: h) -> event_ok e h.
Proof. induction l as [|x l IH]; [by intros [? _]|]. intros [_ ?]. by apply IH. Qed.

(** C16: an execution is reserved or started at the executor only under an
    unreleased row of the ledger whose epoch is the fence of its component, and
    only after the executor confirmed that every other execution of the
    component has ended and given up its resources; resources are given up only
    after the confirmed end, and what was retained is deleted only after both. *)
Theorem effects_follow_confirmations {HN : Neighbours limits nobody nobody} w later c i d before :
  reachable_node limits w -> nd_calls w = later ++ Called c i d :: before ->
  (c = CallReserve \/ c = CallStart ->
     fences d !! component_of i = Some (epoch i) /\
     (exists r, executions d !! key i = Some r /\ row_identity r = i /\ x_state r <> "RELEASED") /\
     forall k r, executions d !! k = Some r -> row_component r = component_of i -> k <> key i ->
       terminated before (row_identity r) /\ given_up before (row_identity r)) /\
  (c = CallRelease -> terminated before i) /\
  (c = CallPurge -> terminated before i /\ given_up before i).
Proof.
  intros Hr Hc. pose proof (so_history _ _ _ (reachable_sound w Hr)) as Hh. rewrite Hc in Hh. apply history_event in Hh.
  split_and!; [|by intros ->|by intros ->].
  intros Hk. assert (He : effect_ok i d before) by (destruct Hk as [-> | ->]; exact Hh). destruct He as (H1 & (r & Hrow & Hi & Hu) & H3).
  split_and!; [done| |exact H3]. exists r. split_and!; [done|done|]. intros E. unfold unreleased in Hu. by rewrite E in Hu.
Qed.

(** C26: the executions whose resources the executor has not confirmed to be
    given up fit the capacity of the node in cpu and memory, whatever expired;
    retained storage, inputs included, fits its disk; a component has at most
    one unreleased row; and a row is released or purged only after the
    confirmations. *)
Theorem node_never_overcommits {HN : Neighbours limits nobody nobody} w : reachable_node limits w ->
  sum_map (fun r => if bool_decide (given_up (nd_calls w) (row_identity r)) then 0 else x_cpu_millis r) (executions (nd_ledger w)) <= cpu_millis limits /\
  sum_map (fun r => if bool_decide (given_up (nd_calls w) (row_identity r)) then 0 else x_memory_bytes r) (executions (nd_ledger w)) <= memory_bytes limits /\
  storage_usage (nd_ledger w) <= disk_bytes limits /\
  (forall k1 k2 r1 r2, executions (nd_ledger w) !! k1 = Some r1 -> executions (nd_ledger w) !! k2 = Some r2 -> row_component r1 = row_component r2 ->
     x_state r1 <> "RELEASED" -> x_state r2 <> "RELEASED" -> k1 = k2) /\
  (forall k r, executions (nd_ledger w) !! k = Some r ->
     (x_state r = "RELEASED" \/ x_disk_released r = true -> terminated (nd_calls w) (row_identity r) /\ given_up (nd_calls w) (row_identity r)) /\
     (x_disk_released r = true -> deleted (nd_calls w) (row_identity r))).
Proof.
  intros Hr. destruct (reachable_sound w Hr). split_and!; [done..| |].
  - intros k1 k2 r1 r2 H1 H2 Ec U1 U2. apply (so_active k1 k2 r1 r2); try done; unfold unreleased; by apply negb_true_iff, String.eqb_neq.
  - intros k r Hk. destruct (so_rows k r Hk). split; [intros [E|E]; [by apply ro_released|by apply ro_purged]|]. intros E. by apply ro_purged.
Qed.

(** A lease that has run out, in the boot it was given, or whose boot is over. *)
Lemma lease_valid_false self r (w : Node) :
  x_boot_id r <> boot_id self \/ Qlt_bool (monotonic (x_boot_id r) (nd_tick w)) (x_lease_until r) = false -> (lease_valid self r w).1 = Ok false.
Proof.
  unfold lease_valid. destruct (String.eqb_spec (x_boot_id r) (boot_id self)) as [Eb|]; [|done]. intros [?|Hl]; [done|]. rewrite <- Eb. cbn.
  unfold bind, ask. by rewrite Hl.
Qed.

(** A lease that has run out stays so: whatever requests follow, of this
    process or of those after it, the row remains with that lease, and no
    agent finds it valid again. *)
Theorem expired_never_revived {HN : Neighbours limits nobody nobody} w w' k r : reachable_node limits w -> node_runs limits w w' ->
  executions (nd_ledger w) !! k = Some r -> Qlt_bool (monotonic (x_boot_id r) (nd_tick w)) (x_lease_until r) = false ->
  exists r', executions (nd_ledger w') !! k = Some r' /\ row_identity r' = row_identity r /\ x_lease_until r' = x_lease_until r /\
    forall self w'', (nd_tick w' <= nd_tick w'')%N -> (lease_valid self r' w'').1 = Ok false.
Proof.
  intros Hr Hrun Hk Hexp. destruct (node_runs_keep limits w w' (reachable_sound w Hr) Hrun) as [_ [T _ R _ _ _]].
  destruct (R _ _ Hk) as (r' & Hr' & [] & _). exists r'. specialize (kp_lease Hexp). split_and!; try done. intros self w'' Ht.
  apply lease_valid_false. right. rewrite kp_boot, kp_lease. eapply expired_later; [|exact Hexp]. lia.
Qed.

(** C38: while other threads hold the guards of some executions, a request that
    takes other guards leaves their rows as the holders rely on: none appears,
    none disappears, its identity and resources stay, and its state and flags
    too, except for a quarantine; whatever the executor answers, and when the
    process dies in the middle. *)
Theorem guards_protect_rows (held : list string) {HN : Neighbours limits (fun k => k ∈ held) nobody} self op w r w' :
  sound limits (nd_ledger w) (nd_calls w) -> capacity self = limits -> assigned op -> (forall k, takes op k -> k ∉ held) ->
  serve_node self op w = (r, w') ->
  sound limits (nd_ledger w') (nd_calls w') /\
  forall k, k ∈ held ->
    match executions (nd_ledger w) !! k with
    | None => executions (nd_ledger w') !! k = None
    | Some x => exists x', executions (nd_ledger w') !! k = Some x' /\ row_identity x' = row_identity x /\ x_spec x' = x_spec x /\
        (x_state x' = x_state x \/ x_state x' = "QUARANTINED") /\ x_stopped x' = x_stopped x /\
        x_disk_released x' = x_disk_released x /\ x_executor_absent x' = x_executor_absent x
    end.
Proof.
  intros Hs Hl Hi Ht Hr.
  destruct (serve_keeps limits (fun k => k ∈ held) nobody (fun k => k ∈ held) nobody (fun _ H => H) (fun _ H => H) self op (eq_sym Hl) Hi Ht
    (fun _ _ H => H) w r w' Hs Logic.I Hr) as (Hs' & [_ _ R _ _ N] & _). split; [done|]. intros k Hk.
  destruct (executions (nd_ledger w) !! k) as [x|] eqn:Ex.
  - destruct (R _ _ Ex) as (x' & Hx' & [] & S). destruct (S Hk). by exists x'.
  - destruct (executions (nd_ledger w') !! k) as [x'|] eqn:Ex'; [|done]. destruct (N _ _ Ex' (or_introl Hk)) as [y Hy]. congruence.
Qed.
End Guarantees.

(** ** Witnesses *)
#[local] Opaque RESUMED EXPIRED play_node serve_node.

(** The component comes back at the second epoch: its first execution has
    ended and given up its resources by then. *)
Definition reserves_second (e : Event) : bool :=
  match e with
  | Called CallReserve i d => bool_decide (i = SECOND) && bool_decide (row_component <$> executions d !! key FIRST = Some (component_of SECOND))
  | _ => false
  end.
Lemma effects_follow_confirmations_witness : exists later d before r, nd_calls RESUMED = later ++ Called CallReserve SECOND d :: before /\
  executions d !! key FIRST = Some r /\ terminated before (row_identity r) /\ given_up before (row_identity r).
Proof.
  destruct (read_event (nd_calls RESUMED) 5 reserves_second ltac:(vm_compute; reflexivity)) as (later & e & before & Ec & _ & He).
  destruct e as [[] i d|]; try discriminate He. apply andb_true_iff in He as [Hi Hrow]. apply bool_decide_eq_true in Hi as ->. apply bool_decide_eq_true in Hrow.
  destruct (executions d !! key FIRST) as [r|] eqn:Er; [|discriminate Hrow]. apply (inj Some) in Hrow.
  destruct (effects_follow_confirmations LIMITS limits_positive RESUMED later CallReserve SECOND d before resumed_reachable Ec) as [H _].
  destruct (H (or_introl eq_refl)) as (_ & _ & H3). exists later, d, before, r. split; [exact Ec|]. split; [exact Er|].
  apply (H3 _ _ Er Hrow). vm_compute. discriminate.
Defined.

(** Two executions at work on the node, and a third that has been purged. *)
Lemma node_never_overcommits_witness : in_state "RUNNING" (nd_ledger RESUMED) SECOND = true /\ storage_usage (nd_ledger RESUMED) <= disk_bytes LIMITS /\
  exists r, executions (nd_ledger RESUMED) !! key FIRST = Some r /\ deleted (nd_calls RESUMED) (row_identity r).
Proof.
  destruct (node_never_overcommits LIMITS limits_positive RESUMED resumed_reachable) as (_ & _ & Hs & _ & Hrows).
  split; [vm_compute; reflexivity|]. split; [exact Hs|].
  destruct (read_row (nd_ledger RESUMED) (key FIRST) x_disk_released) as (r & Er & Hd); [vm_compute; reflexivity|]. exists r. split; [exact Er|].
  exact (proj2 (Hrows _ _ Er) Hd).
Defined.

(** A lease that ran out before the execution was started: a renewal, a start
    and a sweep later nobody finds it valid. *)
Definition ran_out_at_20 (r : Execution) : bool :=
  negb (Qlt_bool (monotonic (x_boot_id r) (nd_tick EXPIRED)) (x_lease_until r)) && Qeq_bool (x_lease_until r) 20.
Lemma expired_never_revived_witness : exists r, executions (nd_ledger (play_node TOO_LATE EXPIRED)) !! key FIRST = Some r /\ Qeq_bool (x_lease_until r) 20 = true /\
  (lease_valid AGENT r (play_node TOO_LATE EXPIRED)).1 = Ok false.
Proof.
  destruct (read_row (nd_ledger EXPIRED) (key FIRST) ran_out_at_20) as (r & Er & Ht); [vm_compute; reflexivity|].
  apply andb_true_iff in Ht as [Hl Hu]. apply negb_true_iff in Hl.
  destruct (expired_never_revived LIMITS limits_positive EXPIRED (play_node TOO_LATE EXPIRED) (key FIRST) r expired_reachable
    (play_node_runs TOO_LATE EXPIRED ltac:(vm_compute; reflexivity)) Er Hl) as (r' & Hr' & _ & El & Hv).
  exists r'. split; [exact Hr'|]. split; [rewrite El; exact Hu|]. apply Hv, N.le_refl.
Defined.

(** The other execution is stopped while the guard of the first is held: the
    stop is uncertain, and the first keeps its state. *)
Definition GUARDED : result unit * Node := serve_node (H := alone MACHINE) AGENT (Stop OTHER 60) EXPIRED.
Lemma guards_protect_rows_witness : in_state "QUARANTINED" (nd_ledger GUARDED.2) OTHER = true /\
  exists x, executions (nd_ledger GUARDED.2) !! key FIRST = Some x /\ x_state x = "QUARANTINED".
Proof.
  split; [vm_compute; reflexivity|].
  destruct (guards_protect_rows (H := alone MACHINE) LIMITS [key FIRST] (HN := alone_neighbours LIMITS MACHINE _ _) AGENT (Stop OTHER 60) EXPIRED GUARDED.1 GUARDED.2
    expired_sound eq_refl ltac:(apply known_execution; vm_compute; reflexivity)
    ltac:(intros k ->; rewrite list_elem_of_singleton; vm_compute; discriminate) (surjective_pairing _)) as [_ H].
  specialize (H (key FIRST) ltac:(by left)).
  destruct (read_row (nd_ledger EXPIRED) (key FIRST) (fun r => String.eqb (x_state r) "QUARANTINED")) as (r & Er & Hs); [vm_compute; reflexivity|].
  apply String.eqb_eq in Hs. rewrite Er in H. destruct H as (x & Hx & _ & _ & Hstate & _). exists x. split; [exact Hx|]. destruct Hstate; congruence.
Defined.
