(* ===== verification/NodeWatchdog.v ===== *)
(** * The watchdog of a quiet node

    On a host where nothing dies and no other thread runs, with an executor
    whose stops are refused or uncertain at worst: which statements can raise
    what, that a sweep of the watchdog always returns, and where it leaves the
    expired executions. *)

From stdpp Require Import base gmap strings list fin_maps.
From Stdlib Require Import ZArith Lia QArith.
From S2P Require Import Prelude Json Domain Schemas JobSpec NodeAgent NodeLogic NodeTheory NodeSystem NodeScenario.
Open Scope Z_scope.
Open Scope py_scope.

(** The executor's own exceptions. *)
Definition refusal (e : exn) : Prop := match e with ExecutorRefused _ | UncertainExecution => True | _ => False end.

Class TameExecutor {X : Executor} := {
  stop_refusals : forall n i grace e, ex_stop n i grace = Err e -> refusal e;
  inspect_refusals : forall n i e, ex_inspect n i = Err e -> refusal e;
  absent_refusals : forall n i e, ex_confirm_absent n i = Err e -> refusal e;
}.

Section Quiet.
Context {P : Platform} {X : Executor} (m : Machine).
#[local] Instance host : Host := alone m.
Context {I : Assignments} {HC : SteadyClock} (limits : ResourceLimits) {HT : TameExecutor}.
Hypothesis guards_open : forall n, mc_guard_file m n = Ok tt.

#[local] Abbreviation everyone := (fun _ : string => True).
#[local] Instance quiet : Neighbours limits everyone everyone.
Proof. apply (alone_neighbours limits m). Qed.
#[local] Abbreviation stable := (stable limits everyone everyone).
#[local] Abbreviation lasting := (lasting limits everyone everyone).

(** ** Exceptions *)

(** From a sound ledger with [Pre], an exception of [m] is one of [S]. *)
Definition raises {A} (Pre : View -> Prop) (m : M Node A) (S : exn -> Prop) : Prop :=
  forall w e w', soundly limits (view w) -> Pre (view w) -> m w = (Err e, w') -> S e.

Section Rules.
Variables Q C : string -> Prop.
#[local] Abbreviation ensures := (ensures limits Q C).

Lemma raises_bind {A B} Pre (p : M Node A) (f : A -> M Node B) Mid Exn S :
  ensures Pre p Mid Exn -> raises Pre p S -> (forall a, raises (Mid a) (f a) S) -> raises Pre (bind p f) S.
Proof.
  intros He Hp Hf w e w' Hs Hw Hr. unfold bind in Hr. destruct (p w) as [[a|x] w1] eqn:Ep.
  - destruct (He _ _ _ Hs Hw Ep) as (S1 & _ & _ & _ & Ha). by apply (Hf a _ _ _ S1 Ha Hr).
  - injection Hr as -> ->. by apply (Hp _ _ _ Hs Hw Ep).
Qed.
Lemma raises_catch {A} Pre (p : M Node A) h Post Mid S S' :
  ensures Pre p Post Mid -> raises Pre p S' -> (forall e, S' e -> raises Mid (h e) S) -> raises Pre (catch p h) S.
Proof.
  intros He Hp Hh w e w' Hs Hw Hr. unfold catch in Hr. destruct (p w) as [[a|x] w1] eqn:Ep; [done|].
  destruct (He _ _ _ Hs Hw Ep) as (S1 & _ & _ & _ & Ha). by apply (Hh x (Hp _ _ _ Hs Hw Ep) _ _ _ S1 Ha Hr).
Qed.
End Rules.
(** The last statement does not raise. *)
Lemma raises_then {A B} Pre (p : M Node A) (f : A -> B) S : raises Pre p S -> raises Pre (let* a := p in ret (f a)) S.
Proof.
  intros Hp w e w' Hs Hw Hr. unfold bind in Hr. destruct (p w) as [[a|x] w1] eqn:Ep; [done|]. injection Hr as -> ->. by apply (Hp _ _ _ Hs Hw Ep).
Qed.
Lemma raises_pre {A} (Pre Pre' : View -> Prop) (p : M Node A) S : (forall v, Pre v -> Pre' v) -> raises Pre' p S -> raises Pre p S.
Proof. intros H Hp w e w' Hs Hw. by apply Hp, H. Qed.
Lemma raises_never {A} (p : M Node A) Pre (S : exn -> Prop) : (forall w e w', p w <> (Err e, w')) -> raises Pre p S.
Proof. intros Hp w e w' _ _ Hr. by destruct (Hp w e w'). Qed.
Lemma raises_ret {A} (a : A) Pre S : raises Pre (ret a) S.
Proof. by apply raises_never. Qed.
Lemma raises_throw {A} e Pre (S : exn -> Prop) : S e -> raises Pre (@throw Node A e) S.
Proof. by intros He w x w' _ _ [= <- _]. Qed.
Lemma raises_throw_if c e Pre (S : exn -> Prop) : S e -> raises Pre (throw_if c e) S.
Proof. intros He. destruct c; [by apply raises_throw|apply raises_ret]. Qed.

Lemma preempted_alone (w : Node) : preempted w = (Ok tt, w <| nd_tick := (nd_tick w + 1)%N |>).
Proof. unfold preempted. cbn. destruct (nd_locked w); [done|]. by destruct w. Qed.

Lemma raises_locked {A} Pre (body : M Node A) S : raises Pre body S -> raises Pre (locked body) S.
Proof.
  intros Hb w e w' Hs Hw Hr. unfold locked, bind, gets in Hr. destruct (nd_locked w); [by apply (Hb _ _ _ Hs Hw Hr)|].
  rewrite preempted_alone in Hr. cbn in Hr. set (w0 := w <| nd_tick := _ |> <| nd_locked := _ |>) in Hr.
  destruct (body w0) as [r w1] eqn:Eb. injection Hr as -> <-. exact (Hb w0 e w1 Hs Hw Eb).
Qed.

Lemma raises_guard {A} (F : View -> Prop) g (body : M Node A) S : (forall v l, F v -> F (mkView (v_ledger v) (v_calls v) l)) ->
  raises (fun v => F v /\ g ∈ v_held v) body S -> raises F (durable_guard g body) S.
Proof.
  intros HF Hb w e w' Hs Hw Hr. unfold durable_guard, bind at 1, gets in Hr. destruct (decide _) as [Hin|]; [by apply (Hb _ _ _ Hs (conj Hw Hin) Hr)|].
  unfold bind in Hr. rewrite preempted_alone in Hr. cbn in Hr. rewrite guards_open in Hr. cbn in Hr. set (w0 := w <| nd_tick := _ |> <| nd_tick := _ |> <| nd_held ::= _ |>) in Hr.
  destruct (body w0) as [r w1] eqn:Eb. injection Hr as -> <-. refine (Hb w0 e w1 Hs (conj _ _) Eb); [by apply (HF (view w))|by left].
Qed.

Lemma raises_row i b Pre : raises Pre (row i b) refusal.
Proof.
  intros w e w' _ _ Hr. unfold row, bind, gets, refuse, refuse_if, throw_if, throw, lift, ret in Hr. destruct (executions _ !! _); [destruct (_ && _)|]; by simplify_eq/=.
Qed.

Lemma raises_executor {A} c i (answer : N -> result A) confirmed Pre (S : exn -> Prop) : (forall n e, answer n = Err e -> S e) ->
  raises Pre (executor c i answer confirmed) S.
Proof.
  intros Ha w e w' _ _ Hr. unfold executor, bind in Hr. rewrite preempted_alone in Hr. cbn in Hr.
  destruct (answer _) as [a|x] eqn:Ea; [done|]. injection Hr as <- _. by eapply Ha.
Qed.

(** The index of unreleased rows is not violated by a row that was unreleased. *)
Lemma raises_update i f (Pre : View -> Prop) S : issued i ->
  (forall v r, Pre v -> executions (v_ledger v) !! key i = Some r -> unreleased r = true /\ row_component (f r) = row_component r) ->
  raises Pre (update_row (key i) f) S.
Proof.
  intros Hi Hf w e w' Hs Hw Hr. unfold update_row, bind, gets in Hr. destruct (executions _ !! _) as [r|] eqn:Er; [|done].
  destruct (Hf _ _ Hw Er) as [Hu Hc]. unfold throw_if in Hr. destruct (_ && _) eqn:Eb in Hr; [|done]. exfalso.
  apply andb_true_iff in Eb as [_ Eb]. apply existsb_exists in Eb as ([k r2] & Hin & Hp). apply list_elem_of_In, elem_of_map_to_list in Hin.
  cbn [fst snd] in Hp. apply andb_true_iff in Hp as [[Hk Hc2]%andb_true_iff Hu2]. apply negb_true_iff, String.eqb_neq in Hk. apply Hk.
  apply bool_decide_eq_true in Hc2. apply (so_active _ _ _ Hs k (key i) r2 r); try done. congruence.
Qed.
Lemma raises_set_state i s (Pre : View -> Prop) S : issued i ->
  (forall v r, Pre v -> executions (v_ledger v) !! key i = Some r -> unreleased r = true) -> raises Pre (set_state i s) S.
Proof. intros Hi Hu. apply raises_update; [done|]. intros v r Hv Hr. split; [by eapply Hu|done]. Qed.
Lemma raises_quarantine i (Pre : View -> Prop) S : issued i ->
  (forall v r, Pre v -> executions (v_ledger v) !! key i = Some r -> unreleased r = true) -> raises Pre (quarantine i) S.
Proof. intros Hi Hu. by apply raises_locked, raises_set_state. Qed.

(** ** Stops *)

(** The row of an execution, if there is one, is not released. *)
Definition active_at (i : ExecutionIdentity) (v : View) : Prop := forall r, executions (v_ledger v) !! key i = Some r -> unreleased r = true.
Lemma lasting_active i : lasting i (active_at i).
Proof.
  split.
  - intros w w' _ _ [_ [_ _ R _ _ N]] Ha r' Hr'. cbn in *. destruct (N _ _ Hr' (or_introl (or_intror Logic.I))) as [r Hr].
    destruct (R _ _ Hr) as (x & Hx & _ & S). assert (x = r') as -> by congruence. eapply steady_unreleased; [by apply S; right|by apply Ha].
  - intros v r' _ Hu r Hr. cbn in Hr. rewrite lookup_insert_eq in Hr. by injection Hr as <-.
  - by intros v l Hv.
Qed.

Section Stop.
Variables Q C : string -> Prop.
Hypothesis HQ : forall k, Q k -> True.
Hypothesis HQC : forall c, C c -> True.
Variable i : ExecutionIdentity.
Hypothesis Hi : issued i.
Hypothesis HQi : ~ Q (key i).

Lemma raises_inspect : raises (active_at i) (inspect i) refusal.
Proof.
  apply (raises_bind Q C _ _ _ (fun _ => active_at i) (active_at i)).
  - apply (hoare_locked limits everyone everyone Q C HQ HQC); [apply lasting_active|done|].
    eapply hoare_post; [by apply (hoare_row limits Q C i false (active_at i))|]. by intros r v _ [? _].
  - apply raises_locked, raises_row.
  - intros r. destruct (x_executor_absent r); [apply raises_ret|]. apply (raises_catch Q C _ _ _ (fun _ => active_at i) (active_at i) _ refusal).
    + eapply hoare_conseq; [apply (hoare_executor limits everyone everyone Q C HQ HQC (active_at i) _ _ _ _ (fun _ => True)); try done; apply lasting_active|done| |done].
      by intros ? v _ (_ & ? & _).
    + apply raises_executor. intros n e. apply inspect_refusals.
    + intros e He. destruct e; try done.
      * destruct (_ && _); [apply raises_ret|by apply raises_throw].
      * apply (raises_bind Q C _ _ _ (fun _ => active_at i) (active_at i)).
        -- apply (hoare_quarantine limits everyone everyone); [done|done|done|apply lasting_active].
        -- apply raises_quarantine; [done|]. intros v r' Hv. apply Hv.
        -- intros []. by apply raises_throw.
Qed.

Lemma raises_begin_stop : raises (fun v => active_at i v /\ guarded v (key i)) (begin_stop i) refusal.
Proof.
  apply raises_locked. apply (raises_bind Q C _ _ _ (fun r => row_read i false (active_at i) r) (active_at i)).
  - eapply hoare_pre; [|by apply (hoare_row limits Q C i false (active_at i))]. by intros v _ [? _].
  - apply raises_row.
  - intros r. destruct (_ || _).
    + apply raises_then. eapply raises_pre; [|apply raises_inspect]. by intros v [? _].
    + apply raises_then, raises_set_state; [done|]. intros v x [Hv _]. apply Hv.
Qed.

Lemma raises_stop_executor grace Pre : stable Pre -> raises Pre (stop_executor i grace) refusal.
Proof.
  intros HF. apply (raises_bind Q C _ _ _ (fun _ _ => True) (fun _ => True)).
  - eapply hoare_conseq; [|intros v _ Hv; exact Logic.I| |]; [|by intros; exact Logic.I|by intros; exact Logic.I].
    apply (hoare_catch limits Q C anything _ _ (fun _ => anything) anything anything).
    + eapply (hoare_bind limits Q C); [apply (hoare_executor limits everyone everyone Q C HQ HQC anything _ _ _ _ (fun _ => True)); done|]. intros o. by apply hoare_ret.
    + intros e. destruct e; try (by apply hoare_throw). case_match; [by apply hoare_throw|].
      eapply (hoare_bind limits Q C); [apply (hoare_executor limits everyone everyone Q C HQ HQC anything _ _ _ _ (fun _ => True)); done|].
      intros absent. destruct absent; [by apply hoare_ret|by apply hoare_throw].
  - apply (raises_catch Q C _ _ _ (fun _ => anything) Pre _ refusal).
    + eapply (hoare_bind limits Q C); [apply (hoare_executor limits everyone everyone Q C HQ HQC Pre _ _ _ _ (fun _ => True)); done|]. intros o. by apply hoare_ret.
    + apply raises_then, raises_executor. intros n e. apply stop_refusals.
    + intros e He. destruct e; try done; [|by apply raises_throw]. case_match; [by apply raises_throw|].
      apply (raises_bind Q C _ _ _ (fun _ => anything) Pre).
      * eapply hoare_post; [apply (hoare_executor limits everyone everyone Q C HQ HQC Pre _ _ _ _ (fun _ => True)); done|done].
      * apply raises_executor. intros n e. apply absent_refusals.
      * intros absent. destruct absent; [apply raises_ret|by apply raises_throw].
  - intros answer. by apply raises_then, raises_throw_if.
Qed.

Lemma raises_stop grace : raises (active_at i) (stop i grace) refusal.
Proof.
  pose proof (lasting_active i) as HL. apply raises_guard; [by intros v l Hv|].
  apply (raises_bind Q C _ _ _ _ _ _ (hoare_begin_stop limits everyone everyone Q C HQ HQC (active_at i) i Hi HQi HL) raises_begin_stop).
  intros [o|]; [apply raises_ret|]. set (D := with_stopping i (active_at i)).
  assert (HD : stable D) by (apply stable_stopping, lasting_active).
  assert (Hq : forall v r, D v -> executions (v_ledger v) !! key i = Some r -> unreleased r = true) by (intros v r [Hv _]; apply Hv).
  apply (raises_bind Q C _ _ _ (fun _ => D) anything).
  - apply (hoare_on_error limits Q C _ _ _ _ D); [|eapply hoare_any, (hoare_quarantine limits everyone everyone Q C HQ HQC D); done|done].
    eapply hoare_post; [by apply (hoare_stop_executor limits everyone everyone Q C HQ HQC D)|]. by intros ? v _ [? _].
  - apply (raises_catch Q C _ _ _ (fun _ _ => True) D _ refusal).
    + eapply hoare_post; [by apply (hoare_stop_executor limits everyone everyone Q C HQ HQC D)|done].
    + by apply raises_stop_executor.
    + intros e He. destruct (is_exception e); [|by apply raises_throw].
      apply (raises_bind Q C _ _ _ (fun _ => D) D); [by apply (hoare_quarantine limits everyone everyone)|by apply raises_quarantine|].
      intros []. by apply raises_throw.
  - intros answer. apply raises_then, raises_locked, raises_update; [done|]. intros v r Hv Hr. split; [by eapply Hq|done].
Qed.
End Stop.

(** ** A sweep *)
Lemma hoare_quarantine_settles Q C i : (forall k, Q k -> True) -> (forall c, C c -> True) -> issued i ->
  ensures limits Q C (active_at i) (quarantine i) (fun _ v => active_at i v /\ settled_at i v) (active_at i).
Proof.
  intros HQ HQC Hi. pose proof (lasting_active i) as [HF Hrow _].
  apply (hoare_locked limits everyone everyone Q C HQ HQC); [done|done|]. apply hoare_set_state; try done.
  - intros v _ Hv Hn. split; [done|]. intros r Hr. congruence.
  - intros v r Hs Hv Hr Hri _. split; [by apply Hrow|]. intros x Hx. cbn in Hx. rewrite lookup_insert_eq in Hx. injection Hx as <-. by left.
Qed.

(** What the sweep of one row does to the others' rows and to its own. *)
Definition swept (i : ExecutionIdentity) (l : list ExecutionIdentity) (w w' : Node) : Prop :=
  soundly limits (view w') /\ moves (fun k => k <> key i) everyone w w' /\ active_at i (view w') /\
  (l = [] /\ nd_ledger w' = nd_ledger w \/ l = [i] /\ settled_at i (view w')).

Lemma watch_row_returns self r w : let i := row_identity r in issued i -> soundly limits (view w) -> active_at i (view w) ->
  exists l w', watch_row self r w = (Ok l, w') /\ swept i l w w' /\ ((lease_valid self r w).1 = Ok false -> l = [i]).
Proof.
  intros i Hi Hs Ha. set (Q := fun k => k <> key i). assert (HQi : ~ Q (key i)) by (intros Hn; by apply Hn).
  assert (HQ : forall k : string, Q k -> True) by done. assert (HQC : forall c : string, True -> True) by done.
  unfold watch_row, bind at 1. destruct (lease_valid self r w) as [b w1] eqn:El.
  destruct (hoare_lease_valid limits Q everyone self r (active_at i) anything w b w1 Hs Ha El) as (S1 & M1 & _ & _ & _).
  assert (Eb : (exists b', b = Ok b') /\ nd_ledger w1 = nd_ledger w).
  { unfold lease_valid in El. destruct (negb _); [injection El as <- <-; eauto|]. unfold bind, ask, ret in El.
    destruct (negb _); [injection El as <- <-; eauto|]. destruct (x_deadline r); injection El as <- <-; eauto. }
  destruct Eb as [[b' ->] Eled]. assert (A1 : active_at i (view w1)) by (intros y; cbn; rewrite Eled; apply Ha). destruct b'.
  { exists [], w1. split; [done|]. split; [|done]. split_and!; [done|done|done|]. by left. }
  cbn [fst]. set (p := catch _ _). assert (Hp : exists w2, p w1 = (Ok tt, w2) /\ soundly limits (view w2) /\ moves Q everyone w1 w2 /\
    active_at i (view w2) /\ settled_at i (view w2)).
  { unfold p, catch, bind. fold i. destruct (stop i 0 w1) as [[o|e] w2] eqn:Est;
      destruct (hoare_stop_keeping limits everyone everyone Q everyone HQ HQC (active_at i) i 0 Hi HQi (lasting_active i) w1 _ _ S1 A1 Est) as (S2 & M2 & _ & _ & P2).
    - destruct P2 as [A2 T2]. exists w2. by split_and!.
    - destruct (quarantine i w2) as [[[]|x] w3] eqn:Eq;
        destruct (hoare_quarantine_settles Q everyone i HQ HQC Hi w2 _ _ S2 P2 Eq) as (S3 & M3 & _ & _ & P3).
      + pose proof (raises_stop Q everyone HQ HQC i Hi HQi 0 w1 e w2 S1 A1 Est) as He. exists w3. destruct P3 as [A3 T3].
        destruct e; try done; (split; [done|]; split_and!; [done|by eapply node_moves_trans|done|done]).
      + destruct (raises_quarantine i (active_at i) (fun _ => False) Hi (fun v r Hv => Hv r) w2 x w3 S2 P2 Eq). }
  destruct Hp as (w2 & Ep & S2 & M2 & A2 & T2). exists [i], w2. unfold bind. fold i. fold p. rewrite Ep. split; [done|]. split; [|done].
  split_and!; [done|by eapply node_moves_trans|done|by right].
Qed.

(** What one row keeps while the rows of others, or its own again, are swept. *)
Lemma swept_keeps i j l w w' : issued i -> issued j -> swept i l w w' -> active_at j (view w) ->
  active_at j (view w') /\ (settled_at j (view w) -> settled_at j (view w')).
Proof.
  intros Hi Hj (_ & [_ _ R _ _ N] & Ha & Hl) Hact. destruct (decide (key j = key i)) as [Ek|Hn].
  - apply issued_keys in Ek as ->; [|done|done]. split; [done|]. intros Hset. destruct Hl as [[_ El]|[_ ?]]; [|done]. intros r. cbn. rewrite El. apply Hset.
  - assert (Hback : forall r', executions (nd_ledger w') !! key j = Some r' -> exists r, executions (nd_ledger w) !! key j = Some r /\ steady r r').
    { intros r' Hr'. destruct (N _ _ Hr' (or_introl Hn)) as [r Hr]. destruct (R _ _ Hr) as (x & Hx & _ & S). exists r. split; [done|].
      assert (x = r') as <- by congruence. by apply S. }
    split.
    + intros r' Hr'. destruct (Hback _ Hr') as (r & Hr & S). eapply steady_unreleased; [exact S|by apply Hact].
    + intros Hset r' Hr'. destruct (Hback _ Hr') as (r & Hr & S). eapply steady_settled; [exact S|by apply Hset].
Qed.

(** The lease of a row has run out, or its boot is over. *)
Definition run_out (self : Agent) (r : Execution) (w : Node) : Prop :=
  x_boot_id r <> boot_id self \/ Qlt_bool (monotonic (x_boot_id r) (nd_tick w)) (x_lease_until r) = false.
Lemma run_out_invalid self r w : run_out self r w -> (lease_valid self r w).1 = Ok false.
Proof.
  unfold lease_valid. destruct (String.eqb_spec (x_boot_id r) (boot_id self)) as [Eb|]; [|done]. intros [?|Hl]; [done|]. rewrite <- Eb. cbn.
  unfold bind, ask. cbn in Hl. by rewrite Hl.
Qed.

Lemma sweep_returns self rows w : Forall (fun r => issued (row_identity r) /\ active_at (row_identity r) (view w)) rows -> soundly limits (view w) ->
  exists ls w', mapM (watch_row self) rows w = (Ok ls, w') /\ soundly limits (view w') /\ moves nobody nobody w w' /\
    (forall j, issued j -> active_at j (view w) -> active_at j (view w') /\ (settled_at j (view w) -> settled_at j (view w'))) /\
    forall r, r ∈ rows -> run_out self r w -> row_identity r ∈ concat ls /\ settled_at (row_identity r) (view w').
Proof.
  intros Hrows. revert w Hrows. induction rows as [|r rows IH]; intros w Hrows Hs.
  { exists [], w. split_and!; [done|done|apply node_moves_refl|by intros j _ ?|]. intros r Hr. by apply elem_of_nil in Hr. }
  apply Forall_cons in Hrows as [[Hi Ha] Hrows]. destruct (watch_row_returns self r w Hi Hs Ha) as (l & w1 & E1 & Hsw & Hl).
  pose proof Hsw as (S1 & M1 & A1 & D1).
  destruct (IH w1) as (ls & w2 & E2 & S2 & M2 & K2 & R2); [|done|].
  { eapply Forall_impl; [exact Hrows|]. intros x [Hx Hax]. split; [done|]. by apply (swept_keeps _ _ _ _ _ Hi Hx Hsw). }
  exists (l :: ls), w2. cbn. unfold bind. rewrite E1, E2. split; [done|]. split; [done|].
  assert (M1' : moves nobody nobody w w1) by (eapply moves_weaken; [| |exact M1]; intros ? []).
  split; [by eapply node_moves_trans|]. split.
  - intros j Hj Hja. destruct (swept_keeps _ _ _ _ _ Hi Hj Hsw Hja) as [J1 T1]. destruct (K2 j Hj J1) as [J2 T2]. auto.
  - intros x [->|Hx]%elem_of_cons Hout.
    + specialize (Hl (run_out_invalid _ _ _ Hout)) as ->. split; [by left|]. destruct D1 as [[? _]|[_ T1]]; [done|]. by apply K2.
    + destruct (R2 x Hx) as [Hin T]; [|split; [apply elem_of_app; by right|done]].
      destruct Hout as [?|Hout]; [by left|right]. eapply expired_later; [|exact Hout]. apply (mv_tick _ _ _ _ M1).
Qed.

Lemma locked_gets {A} (f : Node -> A) w : (forall w1, nd_ledger w1 = nd_ledger w -> f w1 = f w) ->
  exists w1, locked (gets f) w = (Ok (f w), w1) /\ view w1 = view w /\ (nd_tick w <= nd_tick w1)%N.
Proof.
  intros Hf. unfold locked, bind. cbn [gets]. destruct (nd_locked w); [by exists w|]. rewrite preempted_alone. cbn. eexists. split; [f_equal; f_equal; by apply Hf|].
  split; [done|]. cbn. lia.
Qed.

(** C27: on a quiet node a sweep of the watchdog always returns; every execution
    that was neither released nor stopped and whose lease has run out, or whose
    boot is over, is reported, and its row is then stopped, quarantined or
    known to be unknown to the executor -- and not released: expiry gives no
    capacity back. *)
Theorem watchdog_settles self w : soundly limits (view w) ->
  exists expired w', watchdog_once self w = (Ok expired, w') /\ soundly limits (view w') /\
    forall k r, executions (nd_ledger w) !! k = Some r -> x_state r <> "RELEASED" -> x_state r <> "STOPPED" -> run_out self r w ->
      row_identity r ∈ expired /\
      exists r', executions (nd_ledger w') !! k = Some r' /\ row_identity r' = row_identity r /\ x_state r' <> "RELEASED" /\
        (x_state r' = "STOPPED" \/ x_state r' = "QUARANTINED" \/ x_executor_absent r' = true).
Proof.
  intros Hs. set (watched := fun w : Node => List.filter (fun r => negb (state_in r ["RELEASED"; "STOPPED"])) (map snd (map_to_list (executions (nd_ledger w))))).
  destruct (locked_gets watched w) as (w1 & E1 & Ev & Ht); [by intros w1 Ew; unfold watched; rewrite Ew|].
  assert (Hin : forall r, r ∈ watched w <-> (exists k, executions (nd_ledger w) !! k = Some r) /\ x_state r <> "RELEASED" /\ x_state r <> "STOPPED").
  { intros r. unfold watched. rewrite list_elem_of_In, filter_In, <- list_elem_of_In, list_elem_of_fmap, negb_true_iff. unfold state_in, mem_str.
    rewrite bool_decide_eq_false, not_elem_of_cons, list_elem_of_singleton. split.
    - intros [([k y] & -> & Hy%elem_of_map_to_list) [H1 H2]]. split; [by exists k|done].
    - intros [[k Hk] ?]. split; [|done]. exists (k, r). split; [done|by apply elem_of_map_to_list]. }
  assert (S1 : soundly limits (view w1)) by by rewrite Ev.
  assert (Hrows : Forall (fun r => issued (row_identity r) /\ active_at (row_identity r) (view w1)) (watched w)).
  { apply Forall_forall. intros r ([k Hk] & Hn & _)%Hin. destruct (so_keyed _ _ _ Hs _ _ Hk) as [Ek Hi]. split; [done|]. rewrite Ev. intros x Hx.
    cbn in Hx. rewrite <- Ek, Hk in Hx. injection Hx as <-. by apply negb_true_iff, String.eqb_neq. }
  destruct (sweep_returns self (watched w) w1 Hrows S1) as (ls & w2 & E2 & S2 & M2 & K2 & R2). exists (concat ls), w2.
  split; [unfold watchdog_once, bind; fold watched; by rewrite E1, E2|]. split; [done|]. intros k r Hk Hn1 Hn2 Hout.
  assert (Hr : r ∈ watched w) by (apply Hin; eauto). destruct (so_keyed _ _ _ Hs _ _ Hk) as [Ek Hi].
  destruct (R2 r Hr) as [Hrep Hset]; [destruct Hout as [?|Hout]; [by left|right; by eapply expired_later]|]. split; [done|].
  rewrite Forall_forall in Hrows. destruct (K2 _ Hi (proj2 (Hrows r Hr))) as [Hact _].
  assert (El : executions (nd_ledger w1) = executions (nd_ledger w)) by (by injection Ev as ->).
  destruct (mv_rows _ _ _ _ M2 k r) as (r' & Hr' & [] & _); [by rewrite El|]. exists r'. rewrite Ek in Hr'.
  specialize (Hset r' Hr'). specialize (Hact r' Hr'). unfold unreleased in Hact. apply negb_true_iff, String.eqb_neq in Hact. rewrite <- Ek in Hr'.
  split_and!; [done|done|done|]. destruct Hset as [Hset|?]; [|by right; right]. unfold state_in, mem_str in Hset.
  apply bool_decide_eq_true in Hset. set_solver.
Qed.
End Quiet.

(** ** The sweep of a concrete node *)
#[export] Instance node_tame : TameExecutor.
Proof. split; [|done|done]. intros n i grace e. cbn. destruct (decide _); [by intros [= <-]|done]. Qed.
#[local] Opaque EXPIRED.
Lemma expired_first : exists r, executions (nd_ledger EXPIRED) !! key FIRST = Some r /\
  (String.eqb (x_state r) "QUARANTINED" && bool_decide (row_identity r = FIRST) && negb (Qlt_bool (monotonic (Host := alone MACHINE) (x_boot_id r) (nd_tick EXPIRED)) (x_lease_until r))) = true.
Proof. apply read_row. vm_compute. reflexivity. Qed.
Lemma watchdog_settles_witness : exists reported w', watchdog_once (H := alone MACHINE) AGENT EXPIRED = (Ok reported, w') /\ FIRST ∈ reported /\
  exists r, executions (nd_ledger w') !! key FIRST = Some r /\ (x_state r = "STOPPED" \/ x_state r = "QUARANTINED" \/ x_executor_absent r = true).
Proof.
  destruct (watchdog_settles MACHINE LIMITS (fun _ => eq_refl) AGENT EXPIRED expired_sound) as (reported & w' & Ew & _ & H).
  exists reported, w'. split; [exact Ew|]. destruct expired_first as (r & Er & Ht).
  apply andb_true_iff in Ht as [Ht Hl]. apply andb_true_iff in Ht as [Hs Hi]. apply String.eqb_eq in Hs. apply bool_decide_eq_true in Hi. apply negb_true_iff in Hl.
  destruct (H (key FIRST) r Er) as (Hin & r' & Hr' & _ & _ & Hset); [by rewrite Hs|by rewrite Hs|by right|].
  split; [by rewrite <- Hi|]. exists r'. split; [exact Hr'|exact Hset].
Defined.
